(* ===== verification/_CoqProject ===== *)
-Q . S2P
Prelude.v
CString.v
DList.v
FileSys.v
V2Data.v
V2Line.v
V2Rewrite.v
V2Api.v
V2Rep.v
V2Parse.v
IniSpec.v
V2Layout.v
V2Refine.v
V2Clear.v
V2Link.v
V2Text.v
V2Edit.v
V2Add.v
V2Read.v
V2Witness.v
Blocks.v
V1Data.v
V1Ops.v
V1Rep.v
V1List.v
V1Find.v
V1Api.v
V1Change.v
V1Witness.v
MemPool.v
MemPoolSpec.v
MemPoolAlloc.v
MemPoolThms.v
ThreadPool.v
ThreadPoolSpec.v
ThreadPoolThms.v
PsText.v
FrameTool.v
PsBytes.v
PsList.v
PsSetup.v
PsJobs.v
PsNet.v
PsResults.v
PsReport.v
PsArgs.v
PsPacket.v
PsScan.v
PsScanSpec.v
KeyValue.v
Lottery.v
CLib.v
PsVersion.v
PsVersionSpec.v
PsThread.v
PsRace.v
PsMain.v
EsData.v
EsPool.v
EsHead.v
EsJson.v
EsHeadSpec.v
EsJsonSpec.v
EsJsonText.v
EsRecv.v
EsRecvSpec.v
EsFindings.v
EsRequest.v
EsRing.v
EsRingSpec.v
EsBlock.v
FtpListing.v
FtpFd.v
FtpOps.v
FtpFdSpec.v
FtpOpsSpec.v
AckScan.v
SocketApi.v
LogMini.v
FileTrans.v
