(* ===== verification/Prelude.v ===== *)
(** * Verification of the "ini" repository: development overview

    The repository holds C programs that share no build: two generations of a
    library for ini files (v1.0.0, v2.0.0), a port scanner (portscan), a
    framework of small modules (module_function) and stand-alone demos.  The
    development models the parts that have logic of their own and proves what
    makes them correct.

    ** How C is modelled

    Every C function is a definition of the same name that takes and returns
    the state it touches.  [outcome] (this file) is what a run gives: [Done],
    a [Fault] (undefined behaviour: an access out of bounds, through NULL or to
    a freed block, use of uninitialised memory, signed overflow; and misuse of
    a lock; or an [assert] that fails), or [NoFuel] when the bound given to a loop was too small.  [M] is
    state passing over outcomes.  A theorem that says a call gives [Done]
    therefore also says that it does nothing undefined and that its loops end.
    Loops are fixpoints: over the data where they consume it, else with fuel
    taken from the data (the length of a string, the number of cells or blocks);
    the lemmas [*_ok], [*_run], [*_spec] show that this fuel is enough, and no
    theorem assumes that a run does not end in [NoFuel].  Bytes are integers
    ([list Z]); a C string is read by [CString.c_str], which faults when no NUL
    follows.  Integers whose overflow matters are checked ([int_add]) or
    wrapped where the code relies on it.

    ** Parts, files and what is shown

    Shared: Prelude (outcomes, monad, array updates), CString (strings and
    memory), DList and Blocks (doubly linked lists through a store, by
    array index or by address; the class [LinkedNode] is their interface),
    FileSys (files, [fgets], the shell as the class [Shell] with its laws),
    IniSpec (documents: the contract both ini libraries are measured against).

    1. inifile 2 (v2.0.0/inifile.c).  V2Data: the static arrays, the string
    pool with its two halves and their exchange; V2Line: classifying, parsing
    and linking lines, searching; V2Rewrite: the copying loops that edit the
    file; V2Api: the public operations with their locks.  [world_rep]
    (V2Layout) relates the arrays to the documents of the open files.  Shown
    (V2Refine, V2Read, V2Add): opening a file builds the document of
    its lines or reports the first bad one and frees what it took; reading,
    updating, adding, deleting keys and sections, and closing are the document
    operations of IniSpec, leave every other file alone, and write exactly the
    edited lines.  The remaining V2 files carry these proofs: V2Rep, V2Link,
    V2Parse, V2Text, V2Clear, V2Edit.  V2Witness holds the examples and runs the
    code to what it does not mean.

    2. inifile 1 (v1.0.0/inifile.c).  V1Data: the heap of files, sections,
    lists and pairs, and the list operations; V1Ops: parsing, searching,
    rewriting through [write(2)] with short writes and errors, the public
    operations.  [file_rep] (V1Rep) relates blocks to nodes.  Shown (V1Api,
    V1Change): what each operation returns, the list it leaves,
    exactly which blocks it frees, and the text it writes, whatever [write]
    does.  Proofs: V1List, V1Find; examples and findings: V1Witness.

    3. Memory pool (module_function/memory_pool.c).  MemPool: all operations
    over blocks of [malloc], which may fail; MemPoolSpec, MemPoolAlloc:
    the invariant [pool_rep].  Shown (MemPoolThms): memory handed out is live
    and disjoint from all handed out before, destroying calls every
    handler once, in order, and frees every block once, resetting and freeing keep the invariant.
    Its end has the examples and findings.

    4. Thread pool (module_function/frame_thread_pool.c).  ThreadPool: each
    function as the steps of a thread, one access to shared data each; all
    interleavings are the runs of [step].  Shown (ThreadPoolThms): the
    semaphores account for every cell, the mutexes exclude, no deadlock; and
    at the end of the file is the run in which an accepted job is lost.

    5. Port scanner.  PsSetup (ps_setup.c: ports, networks, jobs, results),
    PsArgs (its command line), PsReport (its report), PsScan (ps_scan.c: answers,
    timeouts, the loop over the jobs), PsPacket (ps_prepare.c: probes and
    checksums), over PsList (linked lists in the heap), PsText (strtok, atoi,
    %d) and PsBytes (bytes of integers).  Shown: port arguments are read back
    (PsJobs); jobs are the product of scans, addresses and ports, taken once
    and freed once (PsJobs); the addresses of a network (PsNet); the table
    against the history of pushes (PsResults); every job ends and is recorded
    as its rounds say (PsScanSpec); checksums verify (PsPacket); every
    result that is listed is printed once, in its columns (PsReport); the scans selected
    (PsArgs).  PsMain (main.c) puts them together, with the probe that a job
    sends and the address of the machine; shown: the whole scan without
    threads, from the lists to the report and the freeing of every node, and that both modes send
    the same valid TCP probe.
    PsVersion (ps_version.c, over the string functions in CLib): the list of
    service versions and how they are picked out of answers; shown: the list
    against the history of what was stored (PsVersionSpec), what a call
    stores, gives back or overflows (PsVersionSpec).  PsThread
    ([ps_threaded] of ps_scan.c): what one thread does for a job, against the
    list of polls; shown: a job that ends has recorded the verdict on a
    packet of its host, if there is one, or on its silence.  PsRace: all interleavings of the threads on
    the two lists they share; shown: jobs are dealt once; and the run in which
    the unlocked [push_result] loses a result.

    6. Elasticsearch client (module_function/es_http_api.c, es_obj_info.c,
    http_applayer.c).  A response lives in a memory pool: the class [EsPool]
    (EsData) states what the client needs of it, the file EsPool discharges it with the
    pool of part 3.  EsData: responses, their lists, the error monad [E]
    of the parsing functions; EsHead: the receive buffer and HTTP heads;
    EsJson: bodies and search results; EsRecv: the receive loop over packets;
    EsRequest: request texts and filling a slot.  Shown: heads are read back
    (EsHeadSpec), hits are found on every text (EsRecvSpec over
    EsJsonSpec, EsJsonText), and an answer of the form the
    client can read, in packets, is read completely (EsRecvSpec); requests are built in a buffer that
    grows until they fit (EsRequest).  EsRing: the ring of ten slots
    with its clients, sender, receiver and caller as steps of threads; shown
    (EsRingSpec): queries are served in order, no two threads have the same
    slot and each writes to its own (but for one late mark), and every query is answered; its end has the runs in which a renewed
    connection or short memory breaks this.  EsBlock: start, end and the test
    query, and the blocking query, built from the same parts.  Findings:
    EsFindings, and at the end of EsRequest and EsBlock.

    7. FTP client (module_function/ftp_curl_operation.c).  FtpListing: lines
    put together from pieces, names and sizes; FtpFd: descriptors with their
    buffer, opening, giving back and freeing; FtpOps: the seven operations as
    the calls of libcurl they make.  Shown: opening (FtpFdSpec), each request
    and the end of the client (FtpOpsSpec), and that a listing the reader can take is
    reported entry by entry however it is cut (FtpListing, FtpOpsSpec).  Examples and
    findings: at the end of FtpOpsSpec.

    8. Small modules.  FrameTool (frame_tool.c: string scans, copying a file,
    listing a folder; with their theorems), KeyValue (key_value_part.c),
    Lottery (lottery.c: [bubble_sort] sorts), LogMini (log_mini.c; shown: what
    every file holds after any calls), FileTrans
    (file_trans_tools.c; shown: one statement for each entry of the list),
    SocketApi (socket_api.c; shown: sending and receiving whatever the system
    takes or gives at a time, the events on which EsBlock's loop runs, and
    with both the blocking query from the request to the answer),
    AckScan (tcp_ack_scan.c, over the checksums of PsPacket; shown: the ports
    that are reported).  Their findings are at the ends of the files.

    ** Assumptions on code that is not in the repository

    The shell ([Shell], [ShellLaws] in FileSys), [gethostbyname],
    [getservbyport], [inet_addr] and [getopt_long] (arguments in PsSetup,
    PsScan, PsPacket, PsArgs), packets, polls, clocks, timeouts and [rand]
    (arguments), sockets (the record [peer] in PsVersion, [net] in AckScan, lists of packets,
    events or answers in EsRecv, EsRing, EsBlock and SocketApi), time, opening
    and [fwrite] (the record [system] in LogMini), the interfaces of the machine
    (PsMain), libcurl (the record [curl] in
    FtpOps), directories and [stat] (arguments in FrameTool).  Each has a
    concrete instance in the examples.  [malloc] returns fresh addresses and
    fails only where the code handles it (MemPool, FtpFd).  Bytes of integers and bit fields are
    those of a little-endian machine with gcc; [char] is signed.

    ** Not modelled

    portscan: creating and binding sockets, libpcap, signals, starting and
    joining threads; Elasticsearch: [es_respond_mem_free], which is not called
    when the memory pool is compiled in, and printing a response; process and
    time helpers, the demos, the Excel reader (C++ over the vendored libxls):
    system calls with little logic of their own.  The [main] functions of the ini
    libraries are manual tests.  Printing for debugging is left out
    throughout. *)

From Stdlib Require Export ZArith Lia.
From stdpp Require Export base option numbers sets list.
From stdpp Require Import strings.

(** ** Outcomes of C code *)

(** Why an execution has no defined result. *)
Inductive fault :=
  | OutOfBounds     (* access outside the object a pointer points into *)
  | NullDeref       (* access through NULL *)
  | UseAfterFree    (* access to a freed block, or a second free *)
  | Uninitialised   (* use of memory the program never wrote *)
  | IntOverflow     (* signed overflow *)
  | LockMisuse      (* a thread locks a mutex it holds, or releases one it does not *)
  | AssertFailed    (* assert: the program is aborted *)
  | BadFormat.      (* printf with a format that the language does not define *)

(** [Done a]: the code returns [a].  [Fault f]: undefined behaviour (or a
    self-deadlock, which never returns).  [NoFuel]: the bound given to a loop was too small. *)
Inductive outcome (A : Type) :=
  | Done (a : A)
  | Fault (f : fault)
  | NoFuel.
Arguments Done {A} a.
Arguments Fault {A} f.
Arguments NoFuel {A}.

#[export] Instance fault_eq_dec : EqDecision fault.
Proof. solve_decision. Defined.
#[export] Instance outcome_eq_dec `{EqDecision A} : EqDecision (outcome A).
Proof. solve_decision. Defined.

#[export] Instance outcome_ret : MRet outcome := λ A a, Done a.
#[export] Instance outcome_bind : MBind outcome := λ A B f m,
  match m with
  | Done a => f a
  | Fault e => Fault e
  | NoFuel => NoFuel
  end.

(** Whether an execution ends in a value. *)
Definition is_done {A} (m : outcome A) : bool :=
  match m with Done _ => true | _ => false end.

(** ** Stateful code: state passing over outcomes *)

Definition M (S A : Type) : Type := S → outcome (A * S).

#[export] Instance M_ret {S} : MRet (M S) := λ A a s, Done (a, s).
#[export] Instance M_bind {S} : MBind (M S) := λ A B f m s,
  match m s with
  | Done (a, s') => f a s'
  | Fault e => Fault e
  | NoFuel => NoFuel
  end.

Definition lift {S A} (m : outcome A) : M S A := λ s,
  match m with
  | Done a => Done (a, s)
  | Fault e => Fault e
  | NoFuel => NoFuel
  end.
Definition gets {S A} (f : S → A) : M S A := λ s, Done (f s, s).
Definition modify {S} (f : S → S) : M S unit := λ s, Done (tt, f s).
Definition fault_with {S A} (e : fault) : M S A := λ _, Fault e.

Declare Scope c_scope.
Delimit Scope c_scope with c.
Notation "m ;; k" := (mbind (λ _, k) m)
  (at level 100, k at level 200, right associativity, only parsing) : c_scope.
Open Scope c_scope.

Lemma bind_done {A B} (m : outcome A) (f : A → outcome B) a :
  m = Done a → (m ≫= f) = f a.
Proof. by intros ->. Qed.

Lemma M_bind_done {S A B} (m : M S A) (f : A → M S B) s a s' :
  m s = Done (a, s') → (m ≫= f) s = f a s'.
Proof. intros H. unfold mbind, M_bind. by rewrite H. Qed.

Lemma M_bind_gets {S A B} (g : S → A) (f : A → M S B) s :
  (gets g ≫= f) s = f (g s) s.
Proof. done. Qed.

Lemma M_bind_modify {S B} (g : S → S) (f : unit → M S B) s :
  (modify g ≫= f) s = f tt (g s).
Proof. done. Qed.

Lemma M_bind_lift {S A B} (m : outcome A) (f : A → M S B) s a :
  m = Done a → (lift m ≫= f) s = f a s.
Proof. by intros ->. Qed.

Lemma M_bind_ret {S A B} (a : A) (f : A → M S B) s :
  ((mret a : M S A) ≫= f) s = f a s.
Proof. done. Qed.

(** One more statement at the end of a sequence. *)
Lemma M_bind_tail {S A} (m : M S A) (a b : A → M S unit) (c : M S unit) s s' r :
  (m ≫= λ x, a x ≫= λ _, b x) s = Done (tt, s') → c s' = r →
  (m ≫= λ x, a x ≫= λ _, b x ≫= λ _, c) s = r.
Proof.
  unfold mbind, M_bind. destruct (m s) as [[x s1]| |]; [|done|done].
  destruct (a x s1) as [[[] s2]| |]; [|done|done]. by intros -> <-.
Qed.

(** A completed sequence completed its first part. *)
Lemma M_bind_inv {S A B} (m : M S A) (f : A → M S B) s r :
  (m ≫= f) s = Done r → ∃ a s', m s = Done (a, s') ∧ f a s' = Done r.
Proof.
  unfold mbind, M_bind. destruct (m s) as [[a s']| |] eqn:E; [|done|done].
  eauto.
Qed.

Lemma bind_inv {A B} (m : outcome A) (f : A → outcome B) r :
  (m ≫= f) = Done r → ∃ a, m = Done a ∧ f a = Done r.
Proof. destruct m; [eauto|done|done]. Qed.

(** ** Machine integers *)

Definition int_min : Z := - 2 ^ 31.
Definition int_max : Z := 2 ^ 31 - 1.
(** Signed 32-bit addition: overflow is undefined behaviour. *)
Definition int_add (a b : Z) : outcome Z :=
  if (int_min <=? a + b)%Z && (a + b <=? int_max)%Z
  then Done (a + b)%Z else Fault IntOverflow.

Lemma int_add_ok a b :
  (int_min <= a + b <= int_max)%Z → int_add a b = Done (a + b)%Z.
Proof.
  intros [H1 H2]. unfold int_add.
  by rewrite (proj2 (Z.leb_le _ _) H1), (proj2 (Z.leb_le _ _) H2).
Qed.

(** Counting up does not overflow before the last integer. *)
Lemma int_succ_ok a : (0 <= a < int_max)%Z → int_add a 1 = Done (a + 1)%Z.
Proof.
  intros H. apply int_add_ok. change int_max with 2147483647%Z in *.
  change int_min with (-2147483648)%Z. lia.
Qed.

(** ** Array updates *)

(** Overwrite the bytes of [b] from offset [p] with [s] (the caller checks
    that they fit). *)
Definition splice {A} (b : list A) (p : nat) (s : list A) : list A :=
  take p b ++ s ++ drop (p + length s) b.

Section splice.
Context {A : Type}.
Implicit Types b s : list A.

Lemma length_splice b p s :
  p + length s ≤ length b → length (splice b p s) = length b.
Proof.
  intros H. unfold splice. rewrite !length_app, length_take, length_drop. lia.
Qed.

Lemma splice_nil b p : p ≤ length b → splice b p [] = b.
Proof.
  intros H. unfold splice. cbn. rewrite Nat.add_0_r. apply take_drop.
Qed.

Lemma take_splice b p s : p ≤ length b → take p (splice b p s) = take p b.
Proof.
  intros H. unfold splice. rewrite take_app_le by (rewrite length_take; lia).
  rewrite take_take. f_equal. lia.
Qed.

Lemma drop_splice b p s :
  p ≤ length b → drop p (splice b p s) = s ++ drop (p + length s) b.
Proof.
  intros H. unfold splice. rewrite drop_app_length'; [done|].
  rewrite length_take. lia.
Qed.

Lemma lookup_splice_lt b p s i :
  p ≤ length b → i < p → splice b p s !! i = b !! i.
Proof.
  intros H Hi. unfold splice. rewrite lookup_app_l by (rewrite length_take; lia).
  by apply lookup_take_lt.
Qed.

Lemma lookup_splice_mid b p s i :
  p ≤ length b → p ≤ i < p + length s → splice b p s !! i = s !! (i - p).
Proof.
  intros H Hi. unfold splice.
  rewrite lookup_app_r by (rewrite length_take; lia).
  rewrite length_take, lookup_app_l by lia. f_equal. lia.
Qed.

Lemma lookup_splice_ge b p s i :
  p ≤ length b → p + length s ≤ i → splice b p s !! i = b !! i.
Proof.
  intros H Hi. unfold splice.
  rewrite lookup_app_r by (rewrite length_take; lia).
  rewrite length_take, lookup_app_r by lia.
  rewrite lookup_drop. f_equal. lia.
Qed.

(** What was written at the start is what the array starts with. *)
Lemma take_splice_0 b s : take (length s) (splice b 0 s) = s.
Proof. unfold splice. by rewrite take_0, app_nil_l, take_app_length. Qed.

(** Bytes past the write are kept. *)
Lemma drop_splice_ge b p s i :
  p ≤ length b → p + length s ≤ i → drop i (splice b p s) = drop i b.
Proof.
  intros H Hi. apply list_eq. intros j. rewrite !lookup_drop.
  apply lookup_splice_ge; lia.
Qed.
End splice.

(** Reading a cell and writing back its image is [alter]. *)
Lemma insert_as_alter {A} (f : A → A) (l : list A) i n :
  l !! i = Some n → <[i := f n]> l = alter f i l.
Proof.
  intros Hn. apply list_eq. intros j. rewrite list_lookup_alter.
  destruct (decide (i = j)) as [<-|Hij].
  - rewrite list_lookup_insert_eq by (by eapply lookup_lt_Some). by rewrite Hn.
  - by rewrite list_lookup_insert_ne.
Qed.

(** ** Tactics *)

(** Run the next statement of a monadic program with the lemma or
    computation at hand. *)
Ltac c_step :=
  first [ rewrite M_bind_gets | rewrite M_bind_modify | rewrite M_bind_ret
        | erewrite M_bind_done by eassumption
        | erewrite M_bind_lift by eassumption
        | erewrite bind_done by eassumption ]; cbn beta.

(** Run the next statement, whose result the term [H] gives. *)
Ltac run H := rewrite (M_bind_done _ _ _ _ _ H); cbn beta.

(** Turn boolean comparisons of the context into propositions. *)
Ltac bool_to_prop :=
  repeat match goal with
  | H : (_ && _)%bool = true |- _ => apply andb_true_iff in H; destruct H
  | H : (_ || _)%bool = false |- _ => apply orb_false_iff in H; destruct H
  | H : negb _ = true |- _ => apply negb_true_iff in H
  | H : negb _ = false |- _ => apply negb_false_iff in H
  | H : (_ =? _)%Z = true |- _ => apply Z.eqb_eq in H
  | H : (_ =? _)%Z = false |- _ => apply Z.eqb_neq in H
  | H : (_ <? _)%Z = true |- _ => apply Z.ltb_lt in H
  | H : (_ <? _)%Z = false |- _ => apply Z.ltb_ge in H
  | H : (_ <=? _)%Z = true |- _ => apply Z.leb_le in H
  | H : (_ <=? _)%Z = false |- _ => apply Z.leb_gt in H
  | H : (_ =? _)%nat = true |- _ => apply Nat.eqb_eq in H
  | H : (_ =? _)%nat = false |- _ => apply Nat.eqb_neq in H
  | H : (_ <? _)%nat = true |- _ => apply Nat.ltb_lt in H
  | H : (_ <? _)%nat = false |- _ => apply Nat.ltb_ge in H
  | H : (_ <=? _)%nat = true |- _ => apply Nat.leb_le in H
  | H : (_ <=? _)%nat = false |- _ => apply Nat.leb_gt in H
  end.

(** Decide a boolean comparison by linear arithmetic. *)
Ltac bool_lia :=
  repeat match goal with
  | |- context [(?a =? ?b)%Z] =>
      first [ rewrite (proj2 (Z.eqb_eq a b)) by lia
            | rewrite (proj2 (Z.eqb_neq a b)) by lia ]
  | |- context [(?a <? ?b)%Z] =>
      first [ rewrite (proj2 (Z.ltb_lt a b)) by lia
            | rewrite (proj2 (Z.ltb_ge a b)) by lia ]
  | |- context [(?a <=? ?b)%Z] =>
      first [ rewrite (proj2 (Z.leb_le a b)) by lia
            | rewrite (proj2 (Z.leb_gt a b)) by lia ]
  | |- context [(?a <? ?b)%nat] =>
      first [ rewrite (proj2 (Nat.ltb_lt a b)) by lia
            | rewrite (proj2 (Nat.ltb_ge a b)) by lia ]
  | |- context [(?a <=? ?b)%nat] =>
      first [ rewrite (proj2 (Nat.leb_le a b)) by lia
            | rewrite (proj2 (Nat.leb_gt a b)) by lia ]
  | |- context [(?a =? ?b)%nat] =>
      first [ rewrite (proj2 (Nat.eqb_eq a b)) by lia
            | rewrite (proj2 (Nat.eqb_neq a b)) by lia ]
  end.

Create Rewrite HintDb cbuf.
Create HintDb cprog.
#[export] Hint Rewrite @length_splice @take_splice @drop_splice using lia : cbuf.
