(* ===== verification/CString.v ===== *)
(** * C strings and character buffers

    A [char *] is modelled by the bytes readable from it up to the end of the
    object it points into ([list Z], each byte as its unsigned value), or by a
    buffer together with an offset when the code moves the pointer both ways.
    Every access outside the object is [Fault OutOfBounds].  The scanning
    loops of the repository are structural recursions on these bytes, so they
    need no fuel.  [c_str] reads the NUL-terminated string at a pointer; the
    lemmas of the file describe each routine by the string [c_str] finds. *)

From S2P Require Import Prelude.
From stdpp Require Import strings.

Open Scope Z_scope.

(** ** Bytes *)

(** The bytes of a string literal. *)
Fixpoint bytes (s : string) : list Z :=
  match s with
  | EmptyString => []
  | String a s' => Z.of_N (Ascii.N_of_ascii a) :: bytes s'
  end.

(** The literal as a C object: its bytes and the terminating NUL. *)
Definition c_lit (s : string) : list Z := bytes s ++ [0].

Definition nonzero (s : list Z) : Prop := Forall (λ c, c ≠ 0) s.

#[export] Instance nonzero_dec s : Decision (nonzero s).
Proof. unfold nonzero. apply _. Defined.

(** ** Reading *)

(** [*(buf + p)] *)
Definition rd (buf : list Z) (p : nat) : outcome Z :=
  match buf !! p with Some c => Done c | None => Fault OutOfBounds end.

(** The string at a pointer: the bytes before the first NUL. *)
Fixpoint c_str (s : list Z) : outcome (list Z) :=
  match s with
  | [] => Fault OutOfBounds
  | c :: s' => if c =? 0 then Done [] else t ← c_str s'; mret (c :: t)
  end.

(** [len = 0; while ( *str) { str++; len++; }] *)
Fixpoint str_scan_len (s : list Z) : outcome nat :=
  match s with
  | [] => Fault OutOfBounds
  | c :: s' => if c =? 0 then Done O else n ← str_scan_len s'; mret (S n)
  end.

(** [while ( *p) { if ( *p == c) return p; p++; } return NULL;] started at
    offset [p], where the bytes [s] are readable. *)
Fixpoint str_scan_chr (s : list Z) (c : Z) (p : nat) : outcome (option nat) :=
  match s with
  | [] => Fault OutOfBounds
  | x :: s' => if x =? 0 then Done None
               else if x =? c then Done (Some p) else str_scan_chr s' c (S p)
  end.

(** [while (f( *p )) p++;] *)
Fixpoint skip_fwd (f : Z → bool) (s : list Z) (p : nat) : outcome nat :=
  match s with
  | [] => Fault OutOfBounds
  | x :: s' => if f x then skip_fwd f s' (S p) else Done p
  end.

(** [while (f( *p )) p--;]: a pointer moved before the object faults when
    the loop condition reads it. *)
Fixpoint skip_back (f : Z → bool) (buf : list Z) (p : nat) : outcome nat :=
  c ← rd buf p;
  if f c then match p with O => Fault OutOfBounds | S p' => skip_back f buf p' end
  else Done p.

(** ** Block operations of the C library *)

(** The bytes [memcpy]/[fwrite] read: [len] is converted to [size_t], so a
    negative length is a huge one. *)
Definition mem_read (s : list Z) (len : Z) : outcome (list Z) :=
  if (0 <=? len) && (len <=? Z.of_nat (length s))
  then Done (take (Z.to_nat len) s) else Fault OutOfBounds.

(** Store bytes into an object. *)
Definition mem_write (buf : list Z) (p : nat) (s : list Z) : outcome (list Z) :=
  if (p + length s <=? length buf)%nat
  then Done (splice buf p s) else Fault OutOfBounds.

(** Sign of [memcmp] on blocks of equal length. *)
Fixpoint bytes_cmp (a b : list Z) : Z :=
  match a, b with
  | x :: a', y :: b' => if x =? y then bytes_cmp a' b' else if x <? y then -1 else 1
  | _, _ => 0
  end.

(** [memcmp(a, b, len)]: both blocks must be readable. *)
Definition memcmp (a b : list Z) (len : Z) : outcome Z :=
  x ← mem_read a len; y ← mem_read b len; mret (bytes_cmp x y).

(** The bytes [snprintf(p, n, "%s", src)] stores, terminator included: the
    size [n] is converted to [size_t]. *)
Definition snprintf_s (n : Z) (src : list Z) : outcome (list Z) :=
  s ← c_str src;
  mret (if n =? 0 then []
        else if n <? 0 then s ++ [0]
        else take (Z.to_nat (n - 1)) s ++ [0]).

(** ** Reference functions *)

(** Position of the first occurrence of a byte. *)
Fixpoint index_of (c : Z) (s : list Z) : option nat :=
  match s with
  | [] => None
  | x :: s' => if x =? c then Some O else S <$> index_of c s'
  end.

(** The longest prefix satisfying [f] has this length. *)
Fixpoint span_len (f : Z → bool) (s : list Z) : nat :=
  match s with
  | [] => O
  | x :: s' => if f x then S (span_len f s') else O
  end.

(** ** Lemmas *)

Lemma c_str_app s r : nonzero s → c_str (s ++ 0 :: r) = Done s.
Proof.
  induction 1 as [|c s Hc Hs IH]; [done|]. cbn [app c_str].
  rewrite (proj2 (Z.eqb_neq c 0) Hc), IH. done.
Qed.

Lemma c_str_inv b s :
  c_str b = Done s → ∃ r, b = s ++ 0 :: r ∧ nonzero s.
Proof.
  revert s; induction b as [|c b IH]; intros s H; cbn in H; [done|].
  destruct (Z.eqb_spec c 0) as [->|Hc].
  - injection H as <-. exists b. split; [done|constructor].
  - apply bind_inv in H as (t & Ht & H). injection H as <-.
    destruct (IH _ Ht) as (r & -> & Hnz). exists r.
    split; [done|]. by constructor.
Qed.

Lemma c_str_nonzero b s : c_str b = Done s → nonzero s.
Proof. intros H. by apply c_str_inv in H as (r & _ & ?). Qed.

Lemma c_str_length b s : c_str b = Done s → (length s < length b)%nat.
Proof.
  intros H. apply c_str_inv in H as (r & -> & _).
  rewrite length_app. cbn. lia.
Qed.

Lemma c_str_lookup b s i :
  c_str b = Done s → (i < length s)%nat → b !! i = s !! i.
Proof.
  intros H Hi. apply c_str_inv in H as (r & -> & _). by apply lookup_app_l.
Qed.

Lemma c_str_nul b s : c_str b = Done s → b !! length s = Some 0.
Proof.
  intros H. apply c_str_inv in H as (r & -> & _). by apply list_lookup_middle.
Qed.

Lemma c_str_drop b s i :
  c_str b = Done s → (i ≤ length s)%nat → c_str (drop i b) = Done (drop i s).
Proof.
  intros H Hi. apply c_str_inv in H as (r & -> & Hnz).
  rewrite drop_app_le by done. apply c_str_app. by apply Forall_drop.
Qed.

Lemma c_str_lit s : nonzero (bytes s) → c_str (c_lit s) = Done (bytes s).
Proof. apply c_str_app. Qed.

Lemma str_scan_len_spec b s : c_str b = Done s → str_scan_len b = Done (length s).
Proof.
  intros H. apply c_str_inv in H as (r & -> & Hnz).
  induction Hnz as [|c s Hc Hs IH]; [done|]. cbn [app str_scan_len].
  rewrite (proj2 (Z.eqb_neq c 0) Hc), IH. done.
Qed.

Lemma str_scan_chr_spec b s c p :
  c_str b = Done s →
  str_scan_chr b c p = Done ((λ i, p + i)%nat <$> index_of c s).
Proof.
  intros H. apply c_str_inv in H as (r & -> & Hnz). revert p.
  induction Hnz as [|x s Hx Hs IH]; intros p; [done|].
  cbn [app str_scan_chr index_of]. rewrite (proj2 (Z.eqb_neq x 0) Hx).
  destruct (x =? c); cbn; [f_equal; f_equal; lia|].
  rewrite IH. destruct (index_of c s); cbn; do 2 f_equal; lia.
Qed.

Lemma skip_fwd_spec f b s p :
  c_str b = Done s → f 0 = false →
  skip_fwd f b p = Done (p + span_len f s)%nat.
Proof.
  intros H H0. apply c_str_inv in H as (r & -> & Hnz). clear Hnz. revert p.
  induction s as [|x s IH]; intros p; cbn.
  - rewrite H0. f_equal. lia.
  - destruct (f x); [rewrite IH|]; f_equal; lia.
Qed.

Lemma index_of_Some c s i :
  index_of c s = Some i ↔ s !! i = Some c ∧ ∀ j, (j < i)%nat → s !! j ≠ Some c.
Proof.
  revert i; induction s as [|x s IH]; intros i; cbn.
  { split; [done|]. intros [H _]. done. }
  destruct (Z.eqb_spec x c) as [->|Hx].
  - split.
    + intros [= <-]. split; [done|]. intros j Hj. lia.
    + intros [H1 H2]. destruct i as [|i]; [done|].
      exfalso. apply (H2 O); [lia|done].
  - rewrite fmap_Some. split.
    + intros (k & Hk & ->). apply IH in Hk as [H1 H2].
      split; [done|]. intros [|j] Hj; cbn; [congruence|].
      apply H2. lia.
    + intros [H1 H2]. destruct i as [|i]; cbn in H1; [congruence|].
      exists i. split; [|done]. apply IH. split; [done|].
      intros j Hj. apply (H2 (S j)). lia.
Qed.

Lemma index_of_None c s : index_of c s = None ↔ c ∉ s.
Proof.
  induction s as [|x s IH]; cbn.
  { split; [intros _; apply not_elem_of_nil|done]. }
  destruct (Z.eqb_spec x c) as [->|Hx].
  - split; [done|]. intros H. exfalso. apply H. constructor.
  - rewrite fmap_None, IH, not_elem_of_cons. naive_solver.
Qed.

Lemma index_of_lt c s i : index_of c s = Some i → (i < length s)%nat.
Proof. intros [H _]%index_of_Some. by eapply lookup_lt_Some. Qed.

Lemma index_of_app_l c s t i :
  index_of c s = Some i → index_of c (s ++ t) = Some i.
Proof.
  intros H. pose proof (index_of_lt _ _ _ H).
  apply index_of_Some in H as [H1 H2]. apply index_of_Some.
  split; [by rewrite lookup_app_l|].
  intros j Hj. rewrite lookup_app_l by lia. by apply H2.
Qed.

Lemma index_of_app_r c s t :
  c ∉ s → index_of c (s ++ t) = (λ i, length s + i)%nat <$> index_of c t.
Proof.
  induction s as [|x s IH]; intros Hc; cbn.
  { by destruct (index_of c t). }
  apply not_elem_of_cons in Hc as [Hx Hc].
  rewrite (proj2 (Z.eqb_neq x c)) by congruence.
  rewrite (IH Hc). by destruct (index_of c t).
Qed.

Lemma index_of_fresh c s t : c ∉ s → index_of c (s ++ c :: t) = Some (length s).
Proof.
  intros H. rewrite index_of_app_r by done. cbn.
  rewrite Z.eqb_refl. cbn. f_equal. lia.
Qed.

Lemma span_len_le f s : (span_len f s ≤ length s)%nat.
Proof. induction s as [|x s IH]; cbn; [lia|]. destruct (f x); lia. Qed.

Lemma span_len_app f s t :
  Forall (λ c, f c = true) s → span_len f (s ++ t) = (length s + span_len f t)%nat.
Proof.
  induction 1 as [|x s Hx Hs IH]; [done|]. cbn. rewrite Hx, IH. lia.
Qed.

Lemma span_len_stop f s c t :
  Forall (λ c, f c = true) s → f c = false → span_len f (s ++ c :: t) = length s.
Proof. intros Hs Hc. rewrite span_len_app by done. cbn. rewrite Hc. lia. Qed.

Lemma span_len_lookup f s i :
  (i < span_len f s)%nat → ∃ c, s !! i = Some c ∧ f c = true.
Proof.
  revert i; induction s as [|x s IH]; intros i Hi; cbn in Hi; [lia|].
  destruct (f x) eqn:Hx; [|lia]. destruct i as [|i]; [by exists x|].
  cbn. apply IH. lia.
Qed.

Lemma span_len_end f s c :
  s !! span_len f s = Some c → f c = false.
Proof.
  induction s as [|x s IH]; cbn; [done|].
  destruct (f x) eqn:Hx; cbn; [done|congruence].
Qed.

Lemma rd_ok b p c : b !! p = Some c → rd b p = Done c.
Proof. unfold rd. by intros ->. Qed.

(** The byte at a place that is there. *)
Definition byte_at (p : list Z) (i : nat) : Z := default 0 (p !! i).
Lemma rd_byte p i : (i < length p)%nat → rd p i = Done (byte_at p i).
Proof.
  intros H. apply lookup_lt_is_Some_2 in H as [x Hx]. unfold byte_at. rewrite Hx. by apply rd_ok.
Qed.

(** Scanning backwards over a run of [f]-bytes stops at the byte before it. *)
Lemma skip_back_spec f b p q c :
  (p ≤ q)%nat → b !! p = Some c → f c = false →
  (∀ i, (p < i ≤ q)%nat → ∃ d, b !! i = Some d ∧ f d = true) →
  skip_back f b q = Done p.
Proof.
  intros Hpq Hp Hc. induction Hpq as [|q Hpq IH]; intros Hrun.
  - destruct p as [|p]; cbn [skip_back]; rewrite (rd_ok _ _ _ Hp);
      cbn; by rewrite Hc.
  - cbn [skip_back]. destruct (Hrun (S q)) as (d & Hd & Hfd); [lia|].
    rewrite (rd_ok _ _ _ Hd). cbn. rewrite Hfd. apply IH.
    intros i Hi. apply Hrun. lia.
Qed.

Lemma mem_read_ok s len :
  (0 <= len <= Z.of_nat (length s)) → mem_read s len = Done (take (Z.to_nat len) s).
Proof. intros H. unfold mem_read. bool_lia. done. Qed.

Lemma mem_read_inv s len t :
  mem_read s len = Done t →
  t = take (Z.to_nat len) s ∧ (0 <= len <= Z.of_nat (length s)).
Proof.
  unfold mem_read. destruct (_ && _) eqn:E; [|done]. intros [= <-].
  bool_to_prop. done.
Qed.

Lemma mem_write_ok b p s :
  (p + length s ≤ length b)%nat → mem_write b p s = Done (splice b p s).
Proof. intros H. unfold mem_write. bool_lia. done. Qed.

Lemma mem_write_inv b p s b' :
  mem_write b p s = Done b' →
  b' = splice b p s ∧ (p + length s ≤ length b)%nat.
Proof.
  unfold mem_write. destruct (_ <=? _)%nat eqn:E; [|done]. intros [= <-].
  bool_to_prop. done.
Qed.

Lemma bytes_cmp_eq a b : length a = length b → bytes_cmp a b = 0 ↔ a = b.
Proof.
  revert b; induction a as [|x a IH]; intros [|y b] H; try done.
  injection H as H. cbn. destruct (Z.eqb_spec x y) as [->|Hxy].
  - rewrite (IH _ H). split; congruence.
  - split; [|congruence]. by destruct (x <? y).
Qed.

Lemma memcmp_spec a b n :
  (0 <= n <= Z.of_nat (length a)) → (n <= Z.of_nat (length b)) →
  memcmp a b n = Done (bytes_cmp (take (Z.to_nat n) a) (take (Z.to_nat n) b)).
Proof.
  intros Ha Hb. unfold memcmp.
  rewrite (mem_read_ok a n) by lia. cbn. rewrite (mem_read_ok b n) by lia. done.
Qed.

(** Comparing the whole strings at two pointers. *)
Lemma memcmp_strings a s b t :
  c_str a = Done s → c_str b = Done t → length s = length t →
  ∃ r, memcmp a b (Z.of_nat (length t)) = Done r ∧ (r = 0 ↔ s = t).
Proof.
  intros Ha Hb Hl. pose proof (c_str_length _ _ Ha). pose proof (c_str_length _ _ Hb).
  rewrite memcmp_spec by lia. eexists. split; [done|].
  apply c_str_inv in Ha as (ra & -> & _), Hb as (rb & -> & _).
  rewrite !take_app_length' by lia. by apply bytes_cmp_eq.
Qed.

Lemma snprintf_s_full s n b :
  c_str b = Done s → n = Z.of_nat (length s) + 1 → snprintf_s n b = Done (s ++ [0]).
Proof.
  intros H ->. unfold snprintf_s. rewrite H. cbn. bool_lia.
  replace (Z.to_nat _) with (length s) by lia. by rewrite take_ge by lia.
Qed.

(** After a string is written with its terminator it is what is read back. *)
Lemma c_str_splice b p s :
  nonzero s → (p + length s < length b)%nat →
  c_str (drop p (splice b p (s ++ [0]))) = Done s.
Proof.
  intros Hnz Hl. rewrite drop_splice by lia.
  rewrite <- app_assoc. cbn. by apply c_str_app.
Qed.

#[export] Hint Resolve c_str_nonzero : cprog.

(** Replace string literals by their bytes. *)
Ltac lit :=
  unfold c_lit;
  repeat match goal with
  | |- context [bytes ?s] =>
      let b := eval vm_compute in (bytes s) in change (bytes s) with b
  end.
