(* ===== verification/DList.v ===== *)
(** * Doubly linked lists threaded through a store of nodes

    Both inifile libraries keep their sections and key/value pairs in doubly
    linked lists: version 2 links the cells of static arrays by [pre]/[last],
    version 1 links heap blocks by [pre]/[next].  [dseg lk prev h ids t] says
    that the nodes [ids] form a segment entered through pointer [h], whose
    first node points back to [prev] and whose last node points on to [t];
    [lk] gives the two links of each node.  The walks of the C code over such
    lists are fuelled loops; the lemmas show which fuel is enough and what
    they find. *)

From S2P Require Import Prelude.

Open Scope nat_scope.

(** The two links of a node. *)
Definition links : Type := option nat * option nat.

(** ** The walks of the code *)

Section walks.
Context {N : Type} (nxt : N → option nat).

(** Access through a node pointer. *)
Definition deref (look : nat → option N) (i : nat) : outcome N :=
  match look i with Some n => Done n | None => Fault OutOfBounds end.

(** [while (p->last) p = p->last;] from a node. *)
Fixpoint walk_end (look : nat → option N) (fuel : nat) (i : nat) : outcome nat :=
  n ← deref look i;
  match nxt n with
  | None => Done i
  | Some j => match fuel with O => NoFuel | S f => walk_end look f j end
  end.

(** [while (p) { if (test) break; p = p->last; }] *)
Fixpoint walk_find (look : nat → option N) (test : N → outcome bool) (fuel : nat)
  (p : option nat) : outcome (option nat) :=
  match p with
  | None => Done None
  | Some i =>
    match fuel with
    | O => NoFuel
    | S f =>
        n ← deref look i;
        b ← test n;
        if (b : bool) then Done (Some i) else walk_find look test f (nxt n)
    end
  end.
End walks.

(** ** Segments *)

Fixpoint dseg (lk : nat → option links) (prev h : option nat) (ids : list nat)
    (t : option nat) : Prop :=
  match ids with
  | [] => h = t
  | i :: ids' =>
      h = Some i ∧ ∃ n, lk i = Some (prev, n) ∧ dseg lk (Some i) n ids' t
  end.

(** A complete list: no predecessor, no successor. *)
Definition dlist (lk : nat → option links) (h : option nat) (ids : list nat) : Prop :=
  dseg lk None h ids None.

(** The node before/after a position, with a default at the ends. *)
Definition last_or (p : option nat) (l : list nat) : option nat :=
  match last l with Some x => Some x | None => p end.
Definition head_or (l : list nat) (t : option nat) : option nat :=
  match l with [] => t | i :: _ => Some i end.

Lemma last_or_cons p i l : last_or p (i :: l) = last_or (Some i) l.
Proof. unfold last_or. rewrite last_cons. by destruct (last l). Qed.

Lemma last_or_snoc p l i : last_or p (l ++ [i]) = Some i.
Proof. unfold last_or. by rewrite last_snoc. Qed.

Lemma head_or_app l1 l2 t : head_or (l1 ++ l2) t = head_or l1 (head_or l2 t).
Proof. by destruct l1. Qed.

Section segments.
Implicit Types lk : nat → option links.
Implicit Types ids l : list nat.

Lemma dseg_head lk prev h ids t : dseg lk prev h ids t → h = head_or ids t.
Proof. destruct ids; cbn; [done|]. by intros [-> _]. Qed.

Lemma dseg_app lk prev h l1 l2 t :
  dseg lk prev h (l1 ++ l2) t ↔
  dseg lk prev h l1 (head_or l2 t) ∧
  dseg lk (last_or prev l1) (head_or l2 t) l2 t.
Proof.
  revert prev h; induction l1 as [|i l1 IH]; intros prev h; cbn [app dseg].
  - unfold last_or; cbn. split; [intros H|intros [-> H]; done].
  pose proof (dseg_head _ _ _ _ _ H) as ->. done.
  - rewrite last_or_cons. setoid_rewrite IH. naive_solver.
Qed.

Lemma dseg_frame lk lk' prev h ids t :
  (∀ i, i ∈ ids → lk' i = lk i) →
  dseg lk prev h ids t → dseg lk' prev h ids t.
Proof.
  revert prev h; induction ids as [|i ids IH]; intros prev h Hext; [done|].
  intros (-> & n & Hn & H). split; [done|]. exists n. split.
  - rewrite Hext by set_solver. done.
  - apply IH; [|done]. intros j Hj. apply Hext. set_solver.
Qed.

(** Redirect the forward link of the last node. *)
Lemma dseg_set_tail lk lk' prev h l e t t' :
  dseg lk prev h (l ++ [e]) t →
  lk' e = Some (last_or prev l, t') →
  (∀ i, i ∈ l → lk' i = lk i) →
  dseg lk' prev h (l ++ [e]) t'.
Proof.
  intros H He Hext. apply dseg_app in H as [H1 _]. apply dseg_app. split.
  - cbn in *. by eapply dseg_frame.
  - cbn. eauto.
Qed.

(** Redirect the backward link of the first node. *)
Lemma dseg_set_head lk lk' prev prev' h i l n t :
  dseg lk prev h (i :: l) t →
  lk i = Some (prev, n) →
  lk' i = Some (prev', n) →
  (∀ j, j ∈ l → lk' j = lk j) →
  dseg lk' prev' h (i :: l) t.
Proof.
  intros (-> & n' & Hn & H) Hi Hi' Hext. split; [done|].
  exists n. split; [done|].
  assert (n' = n) as -> by congruence.
  by eapply dseg_frame.
Qed.

(** The links of a member. *)
Lemma dseg_middle lk prev h l1 i l2 t :
  dseg lk prev h (l1 ++ i :: l2) t →
  lk i = Some (last_or prev l1, head_or l2 t).
Proof.
  intros H. apply dseg_app in H as [_ (_ & n & Hn & H)].
  apply dseg_head in H as ->. done.
Qed.

Lemma dlist_nil lk : dlist lk None [].
Proof. done. Qed.

Lemma dlist_None lk ids : dlist lk None ids → ids = [].
Proof. destruct ids; [done|]. by intros [? _]. Qed.

Lemma dlist_Some lk i ids : dlist lk (Some i) ids → ∃ l, ids = i :: l.
Proof. destruct ids as [|j l]; [done|]. intros [[= ->] _]. eauto. Qed.

Lemma dlist_lookup lk h ids i :
  dlist lk h ids → i ∈ ids → is_Some (lk i).
Proof.
  intros H (l1 & l2 & ->)%list_elem_of_split. by rewrite (dseg_middle _ _ _ _ _ _ _ H).
Qed.

(** ** Append: the tail's forward link and the new node's backward link. *)
Lemma dlist_append lk lk' h l e j :
  dlist lk h (l ++ [e]) →
  lk' e = Some (last_or None l, Some j) →
  lk' j = Some (Some e, None) →
  (∀ i, i ∈ l → lk' i = lk i) →
  dlist lk' h (l ++ [e] ++ [j]).
Proof.
  intros H He Hj Hext. unfold dlist. rewrite app_assoc. apply dseg_app. split.
  - by eapply dseg_set_tail.
  - rewrite last_or_snoc. cbn. eauto.
Qed.

Lemma dlist_singleton lk j : lk j = Some (None, None) → dlist lk (Some j) [j].
Proof. intros Hj. cbn. eauto. Qed.

(** ** Unlink: the neighbours are joined. *)
Lemma dlist_unlink lk lk' h l1 i l2 :
  dlist lk h (l1 ++ i :: l2) →
  NoDup (l1 ++ i :: l2) →
  (∀ p, last l1 = Some p → lk' p = (λ q, (q.1, head_or l2 None)) <$> lk p) →
  (∀ n, head l2 = Some n → lk' n = (λ q, (last_or None l1, q.2)) <$> lk n) →
  (∀ j, j ∈ l1 ++ l2 → last l1 ≠ Some j → head l2 ≠ Some j → lk' j = lk j) →
  dlist lk' (head_or (l1 ++ l2) None) (l1 ++ l2).
Proof.
  intros H Hnd Hp Hn Hother.
  apply dseg_app in H as [H1 (Hh & n & Hi & H2)].
  apply NoDup_app in Hnd as (Hnd1 & Hdisj & Hnd2).
  apply NoDup_cons in Hnd2 as [Hi2 Hnd2].
  rewrite head_or_app. apply dseg_app. split.
  - destruct l1 as [|p l1 _] using rev_ind; [done|].
  rewrite last_snoc in Hp, Hother.
  apply NoDup_app in Hnd1 as (Hl1 & Hp1 & _).
  pose proof (dseg_head _ _ _ _ _ H1) as Hh1.
  apply dseg_set_tail with (lk := lk) (t := Some i).
  + cbn in H1. rewrite Hh1 in H1. rewrite head_or_app in *. done.
  + rewrite (Hp p) by done.
    apply dseg_middle with (l2 := []) in H1. rewrite H1. done.
  + intros j Hj. apply Hother; [set_solver| |].
    * intros [= ->]. apply (Hp1 j); set_solver.
    * intros Hj2. destruct l2 as [|x l2]; [done|]. injection Hj2 as ->.
      apply (Hdisj j); set_solver.
  - destruct l2 as [|x l2]; [done|].
  pose proof (dseg_head _ _ _ _ _ H2) as Hh2. cbn in Hh2. subst n.
  apply NoDup_cons in Hnd2 as [Hx2 _].
  destruct H2 as (_ & n & Hx & H2).
  eapply (dseg_set_head lk lk' (Some i)); [split; [done|eauto]|done| |].
  + rewrite (Hn x) by done. rewrite Hx. done.
  + intros j Hj. apply Hother; [set_solver| |].
    * intros Hl. apply last_Some in Hl as [l1' ->].
      apply (Hdisj j); set_solver.
    * intros [= ->]. done.
Qed.

Section node_walks.
Context {N : Type} (pre nxt : N → option nat) (look : nat → option N).

Definition links_of (i : nat) : option links :=
  (λ n, (pre n, nxt n)) <$> look i.

Lemma walk_end_spec fuel h prev l e :
  dseg links_of prev h (l ++ [e]) None → length l ≤ fuel →
  ∃ i, h = Some i ∧ walk_end nxt look fuel i = Done e.
Proof.
  revert fuel h prev; induction l as [|i l IH]; intros fuel h prev H Hf.
  - destruct H as (-> & n & Hn & H). exists e. split; [done|].
  apply fmap_Some in Hn as (m & Hm & [= _ ->]). cbn in H.
  destruct fuel; cbn; unfold deref; rewrite Hm; cbn; by rewrite H.
  - destruct H as (-> & n & Hn & H). exists i. split; [done|].
  apply fmap_Some in Hn as (m & Hm & [= _ ->]). cbn in Hf.
  destruct fuel as [|fuel]; [lia|].
  destruct (IH fuel _ _ H) as (j & Hj & Hw); [lia|].
  cbn. unfold deref. rewrite Hm. cbn. rewrite Hj. done.
Qed.

(** The first node of the list whose test succeeds. *)
Lemma walk_find_spec (test : N → outcome bool) (P : nat → bool) fuel prev h ids :
  dseg links_of prev h ids None → length ids ≤ fuel →
  (∀ i n, i ∈ ids → look i = Some n → test n = Done (P i)) →
  walk_find nxt look test fuel h = Done (snd <$> list_find P ids).
Proof.
  revert fuel prev h; induction ids as [|i ids IH]; intros fuel prev h H Hf Ht.
  - cbn in H. subst h. by destruct fuel.
  - destruct H as (-> & n & Hn & H).
  apply fmap_Some in Hn as (m & Hm & [= _ ->]).
  cbn in Hf. destruct fuel as [|fuel]; [lia|]. cbn.
  unfold deref. rewrite Hm. cbn. rewrite (Ht i m) by (done || set_solver).
  cbn. case_decide as HP.
  + apply Is_true_true in HP. by rewrite HP.
  + apply Is_true_false in HP. rewrite HP.
  rewrite (IH fuel (Some i)); [|done|lia|].
  * by destruct (list_find P ids) as [[??]|].
  * intros j k Hj. apply Ht. set_solver.
Qed.
End node_walks.
End segments.

#[export] Hint Resolve dlist_nil dlist_singleton : cprog.

(** ** Arrays of linked cells

    Version 2 of the library links the cells of static arrays.  [LinkedNode]
    is what a cell type offers (its two links and the zeroed cell); the
    section shows, for any such type, what clearing a list of cells, taking
    one out of its list and appending one do to the array. *)

Class LinkedNode (N : Type) := {
  ln_pre : N → option nat;
  ln_last : N → option nat;
  ln_set_pre : option nat → N → N;
  ln_set_last : option nat → N → N;
  ln_zero : N;
  ln_pre_set_pre v n : ln_pre (ln_set_pre v n) = v;
  ln_pre_set_last v n : ln_pre (ln_set_last v n) = ln_pre n;
  ln_last_set_pre v n : ln_last (ln_set_pre v n) = ln_last n;
  ln_last_set_last v n : ln_last (ln_set_last v n) = v;
}.

(** ** Assignments to array cells *)

(** Assignments to one cell in sequence are one assignment. *)
Lemma alter_twice {A} (f g : A → A) (l : list A) i :
  alter f i (alter g i l) = alter (λ n, f (g n)) i l.
Proof.
  apply list_eq. intros j. destruct (decide (i = j)) as [<-|].
  - rewrite !list_lookup_alter_eq. by destruct (l !! i).
  - by rewrite !list_lookup_alter_ne.
Qed.

Lemma alter_at {A} (f g : A → A) (l : list A) i n :
  l !! i = Some n → f n = g n → alter f i l = alter g i l.
Proof.
  intros Hn Hf. apply list_eq. intros j. destruct (decide (i = j)) as [<-|].
  - rewrite !list_lookup_alter_eq, Hn. cbn. by rewrite Hf.
  - by rewrite !list_lookup_alter_ne.
Qed.

Lemma alter_same {A} (f : A → A) (l : list A) i n :
  l !! i = Some n → f n = n → alter f i l = l.
Proof.
  intros Hn Hf. rewrite (alter_at f id l i n Hn Hf).
  apply list_eq. intros j. destruct (decide (i = j)) as [<-|].
  - rewrite list_lookup_alter_eq. by destruct (l !! i).
  - by rewrite list_lookup_alter_ne.
Qed.

Lemma alter_data {A B} (d : A → B) f (l : list A) i j :
  (∀ n, d (f n) = d n) → d <$> alter f i l !! j = d <$> l !! j.
Proof.
  intros Hd. destruct (decide (i = j)) as [<-|].
  - rewrite list_lookup_alter_eq. destruct (l !! i); cbn; [by rewrite Hd|done].
  - by rewrite list_lookup_alter_ne.
Qed.

Lemma alter_set {A} (z : A) (l : list A) i :
  i < length l → alter (λ _, z) i l !! i = Some z.
Proof. intros [n Hn]%lookup_lt_is_Some. by rewrite list_lookup_alter_eq, Hn. Qed.

Lemma ids_middle {E} (f : E → nat) l1 e l2 :
  NoDup (f <$> l1 ++ e :: l2) →
  f e ∉ f <$> l1 ∧ f e ∉ f <$> l2 ∧ (∀ i, i ∈ f <$> l1 → i ∉ f <$> l2).
Proof.
  rewrite fmap_app, fmap_cons. intros (_ & Hd & Hn2)%NoDup_app.
  apply NoDup_cons in Hn2 as [? _]. set_solver.
Qed.

Lemma nodup_middle i1 (i : nat) i2 :
  NoDup (i1 ++ i :: i2) → i ∉ i1 ∧ i ∉ i2 ∧ (∀ j, j ∈ i1 → j ∉ i2).
Proof.
  intros H. pose proof (ids_middle id i1 i i2) as Hm. rewrite !list_fmap_id in Hm.
  exact (Hm H).
Qed.

(** ** Clearing cells *)

Definition zap {N} (z : N) (ids : list nat) (arr : list N) : list N :=
  foldl (λ l i, alter (λ _, z) i l) arr ids.

Lemma zap_length {N} (z : N) ids arr : length (zap z ids arr) = length arr.
Proof.
  revert arr; induction ids as [|i ids IH]; intros arr; [done|].
  cbn. unfold zap in IH. rewrite IH. apply length_alter.
Qed.

Lemma zap_out {N} (z : N) ids arr j : j ∉ ids → zap z ids arr !! j = arr !! j.
Proof.
  revert arr; induction ids as [|i ids IH]; intros arr Hj; [done|].
  cbn. unfold zap in IH. rewrite IH by set_solver. apply list_lookup_alter_ne. set_solver.
Qed.

Lemma zap_in {N} (z : N) ids arr j n : j ∈ ids → zap z ids arr !! j = Some n → n = z.
Proof.
  revert arr; induction ids as [|i ids IH]; intros arr Hj Hn; [set_solver|].
  cbn in Hn. destruct (decide (j ∈ ids)) as [Hin|Hin]; [by eapply IH|].
  assert (j = i) as -> by set_solver.
  pose proof (zap_out z ids (alter (λ _, z) i arr) i Hin) as H. unfold zap in H.
  rewrite H, list_lookup_alter_eq in Hn. by destruct (arr !! i); simplify_eq/=.
Qed.

Lemma zap_app {N} (z : N) ids1 ids2 arr :
  zap z (ids1 ++ ids2) arr = zap z ids2 (zap z ids1 arr).
Proof. apply foldl_app. Qed.

(** ** Lists of cells *)

Section cells.
Context {C : Type} `{!LinkedNode C}.
Implicit Types arr : list C.

Definition cell_links arr : nat → option links :=
  links_of ln_pre ln_last (λ i, arr !! i).

Lemma cell_links_alter_data f arr i j :
  (∀ n, ln_pre (f n) = ln_pre n) → (∀ n, ln_last (f n) = ln_last n) →
  cell_links (alter f i arr) j = cell_links arr j.
Proof.
  intros Hp Hl. apply (alter_data (λ n, (ln_pre n, ln_last n))).
  intros n. by rewrite Hp, Hl.
Qed.

Lemma cell_at arr prev h j1 j j2 :
  dseg (cell_links arr) prev h (j1 ++ j :: j2) None → ∃ n, arr !! j = Some n ∧
  ln_pre n = last_or prev j1 ∧ ln_last n = head_or j2 None.
Proof.
  intros Hd. apply dseg_middle in Hd. apply fmap_Some in Hd as (n & Hn & [= -> ->]). eauto.
Qed.

Lemma cell_valid arr prev h ids j :
  dseg (cell_links arr) prev h ids None → j ∈ ids → j < length arr.
Proof.
  intros Hd (l1 & l2 & ->)%list_elem_of_split.
  destruct (cell_at _ _ _ _ _ _ Hd) as (n & Hn & _). by eapply lookup_lt_Some.
Qed.

(** *** Taking a cell out of its list *)

Definition unlinked arr (i1 : list nat) (i : nat) (i2 : list nat) : list C :=
  let lk := match last i1 with
          | Some p => alter (ln_set_last (head_or i2 None)) p arr
          | None => arr
          end in
  let lk := match head i2 with
          | Some q => alter (ln_set_pre (last_or None i1)) q lk
          | None => lk
          end in
  alter (λ _, ln_zero) i lk.

Lemma unlinked_length arr i1 i i2 : length (unlinked arr i1 i i2) = length arr.
Proof.
  unfold unlinked. rewrite length_alter.
  destruct (last _), (head _); by rewrite ?length_alter.
Qed.

Lemma unlinked_lookup arr i1 i i2 j :
  j ∉ i1 ++ i :: i2 → unlinked arr i1 i i2 !! j = arr !! j.
Proof.
  intros Hj. unfold unlinked. rewrite list_lookup_alter_ne by set_solver.
  destruct (last i1) as [p|] eqn:Ep, (head i2) as [q|] eqn:Eq;
  repeat rewrite list_lookup_alter_ne; try done;
  try (apply last_Some in Ep as [? ->]); try (apply head_Some in Eq as [? ->]);
  set_solver.
Qed.

Lemma unlinked_self arr i1 i i2 :
  i < length arr → unlinked arr i1 i i2 !! i = Some ln_zero.
Proof.
  intros Hi. unfold unlinked. apply alter_set.
  destruct (last _), (head _); by rewrite ?length_alter.
Qed.

(** The other cells keep what is not a link. *)
Lemma unlinked_data {D} (d : C → D) arr i1 i i2 j :
  (∀ v n, d (ln_set_pre v n) = d n) → (∀ v n, d (ln_set_last v n) = d n) →
  j ≠ i → d <$> unlinked arr i1 i i2 !! j = d <$> arr !! j.
Proof.
  intros Hp Hl Hne. unfold unlinked. rewrite list_lookup_alter_ne by done.
  destruct (last i1), (head i2); by rewrite ?alter_data.
Qed.

Lemma unlinked_dlist arr h i1 i i2 :
  dlist (cell_links arr) h (i1 ++ i :: i2) → NoDup (i1 ++ i :: i2) →
  dlist (cell_links (unlinked arr i1 i i2)) (head_or (i1 ++ i2) None) (i1 ++ i2).
Proof.
  intros Hd Hnd. destruct (nodup_middle _ _ _ Hnd) as (Hi1 & Hi2 & H12).
  eapply (dlist_unlink (cell_links arr)); [exact Hd|exact Hnd|..];
  unfold cell_links, links_of.
  - intros p Hp. pose proof Hp as [l ->]%last_Some. unfold unlinked.
  rewrite Hp, list_lookup_alter_ne by set_solver.
  destruct (head i2) as [q|] eqn:Eq.
  + apply head_Some in Eq as [i2' ->]. rewrite list_lookup_alter_ne by set_solver.
    rewrite list_lookup_alter_eq. destruct (arr !! p); [|done]. cbn.
    by rewrite ln_pre_set_last, ln_last_set_last.
  + rewrite list_lookup_alter_eq. destruct (arr !! p); [|done]. cbn.
    rewrite ln_pre_set_last, ln_last_set_last. by destruct i2.
  - intros q Hq. pose proof Hq as [l ->]%head_Some. unfold unlinked.
  rewrite Hq, list_lookup_alter_ne by set_solver.
  rewrite list_lookup_alter_eq.
  destruct (last i1) as [p|] eqn:Ep.
  + apply last_Some in Ep as [i1' ->]. rewrite list_lookup_alter_ne by set_solver.
    destruct (arr !! q); [|done]. cbn. by rewrite ln_pre_set_pre, ln_last_set_pre.
  + destruct (arr !! q); [|done]. cbn. by rewrite ln_pre_set_pre, ln_last_set_pre.
  - intros j Hj Hp Hq. unfold unlinked. rewrite list_lookup_alter_ne by set_solver.
  destruct (last i1) as [p|], (head i2) as [q|];
    repeat rewrite list_lookup_alter_ne by congruence; done.
Qed.

(** *** Appending a cell *)

(** [end->last = j; j->pre = end;] for a clean cell [j]. *)
Definition linked arr (ids : list nat) (j : nat) : list C :=
  match last ids with
  | Some e => alter (ln_set_pre (Some e)) j (alter (ln_set_last (Some j)) e arr)
  | None => arr
  end.

Lemma linked_length arr ids j : length (linked arr ids j) = length arr.
Proof. unfold linked. destruct (last ids); by rewrite ?length_alter. Qed.

Lemma linked_lookup arr ids j i :
  i ∉ ids → i ≠ j → linked arr ids j !! i = arr !! i.
Proof.
  intros Hi Hne. unfold linked. destruct (last ids) as [e|] eqn:Ee; [|done].
  apply last_Some in Ee as [l ->].
  rewrite !list_lookup_alter_ne by set_solver. done.
Qed.

Lemma linked_data {D} (d : C → D) arr ids j i :
  (∀ v n, d (ln_set_pre v n) = d n) → (∀ v n, d (ln_set_last v n) = d n) →
  d <$> linked arr ids j !! i = d <$> arr !! i.
Proof. intros Hp Hl. unfold linked. destruct (last ids); by rewrite ?alter_data. Qed.

Lemma linked_dlist arr h ids j m :
  dlist (cell_links arr) h ids → NoDup ids → j ∉ ids →
  arr !! j = Some m → ln_pre m = None → ln_last m = None →
  dlist (cell_links (linked arr ids j)) (head_or ids (Some j)) (ids ++ [j]).
Proof.
  intros Hd Hnd Hj Hm Hpre Hlast. unfold linked.
  destruct ids as [|e ids _] using rev_ind.
  - cbn. split; [done|]. exists None. split; [|done].
  unfold cell_links, links_of. by rewrite Hm; cbn; rewrite Hpre, Hlast.
  - pose proof (dseg_head _ _ _ _ _ Hd) as Hh. rewrite last_snoc.
  destruct (cell_at _ _ _ ids e [] Hd) as (n & Hn & Hnp & Hnl).
  assert (e ≠ j) by set_solver.
  rewrite <- app_assoc, head_or_app in *. cbn in Hh |- *.
  replace (head_or ids (Some e)) with h by (by rewrite Hh).
  eapply (dlist_append (cell_links arr)); [exact Hd|..]; unfold cell_links, links_of.
  + rewrite list_lookup_alter_ne, list_lookup_alter_eq, Hn by done. cbn.
    by rewrite ln_pre_set_last, ln_last_set_last, Hnp.
  + rewrite list_lookup_alter_eq, list_lookup_alter_ne, Hm by done. cbn.
    by rewrite ln_pre_set_pre, ln_last_set_pre, Hlast.
  + intros i Hi. rewrite list_lookup_alter_ne by set_solver.
    rewrite list_lookup_alter_ne; [done|].
    apply NoDup_app in Hnd as (_ & Hnd & _). intros <-. apply (Hnd e Hi). set_solver.
Qed.
End cells.
