(* ===== verification/FileSys.v ===== *)
(** * Files, [fgets] and the shell

    The C library's view of files: named byte sequences with access rights,
    line-wise reading through a fixed buffer ([fgets]), and [system], which
    hands a command to the shell.  The shell is not part of the repository:
    it is the interface [Shell], whose laws [ShellLaws] state what
    [rm -rf] and [mv] do on plain file names.  [mini_shell] is an executable
    shell for the two commands the repository issues. *)

From S2P Require Import Prelude CString.
From stdpp Require Import gmap strings.

Open Scope Z_scope.

Definition fname : Type := list Z.

Record filesystem := FS {
  fs_files : gmap (list Z) (list Z);
  fs_read_ok : list Z → bool;      (* permission bits of the process *)
  fs_write_ok : list Z → bool;
}.

Definition fs_set_files (f : gmap (list Z) (list Z)) (fs : filesystem) : filesystem :=
  FS f (fs_read_ok fs) (fs_write_ok fs).

(** [access(name, R_OK|W_OK)] *)
Definition access_rw (fs : filesystem) (name : fname) : Z :=
  match fs_files fs !! name with
  | Some _ => if fs_read_ok fs name && fs_write_ok fs name then 0 else -1
  | None => -1
  end.

(** [fopen(name, "r")]: the bytes the stream will deliver. *)
Definition fopen_r (fs : filesystem) (name : fname) : option (list Z) :=
  if fs_read_ok fs name then fs_files fs !! name else None.

(** [fopen(name, "w")]: creates or truncates. *)
Definition fopen_w (fs : filesystem) (name : fname) : option filesystem :=
  if fs_write_ok fs name then Some (fs_set_files (<[name := []]> (fs_files fs)) fs)
  else None.

(** [fclose] of a stream opened for writing, to which [out] was written. *)
Definition fclose_w (fs : filesystem) (name : fname) (out : list Z) : filesystem :=
  fs_set_files (<[name := out]> (fs_files fs)) fs.

(** ** [fgets] *)

(** At most [n] bytes, up to and including the first newline; and the rest. *)
Fixpoint fgets_take (n : nat) (s : list Z) : list Z * list Z :=
  match n with
  | O => ([], s)
  | S n' =>
      match s with
      | [] => ([], [])
      | c :: s' => if c =? 10 then ([c], s')
                   else let '(l, r) := fgets_take n' s' in (c :: l, r)
      end
  end.

(** [fgets(line, size, fp)]: [None] at the end of the stream. *)
Definition fgets (size : nat) (s : list Z) : option (list Z * list Z) :=
  match s with [] => None | _ => Some (fgets_take (size - 1) s) end.

(** What the successive calls of a [while (fgets(...))] loop read. *)
Fixpoint fgets_lines_go (fuel : nat) (size : nat) (s : list Z) : list (list Z) :=
  match fuel with
  | O => []
  | S f => match fgets size s with
           | None => []
           | Some (l, r) => l :: fgets_lines_go f size r
           end
  end.
Definition fgets_lines (size : nat) (s : list Z) : list (list Z) :=
  fgets_lines_go (length s) size s.

(** The line buffer after [fgets]: the bytes read, a NUL, and what the buffer
    held behind it. *)
Definition fgets_into (buf l : list Z) : list Z := splice buf 0 (l ++ [0]).

Lemma fgets_take_app n s : (fgets_take n s).1 ++ (fgets_take n s).2 = s.
Proof.
  revert s; induction n as [|n IH]; intros [|c s]; try done. cbn.
  destruct (c =? 10); [done|]. specialize (IH s).
  destruct (fgets_take n s) as [l r]. cbn in *. by rewrite IH.
Qed.

Lemma fgets_take_le n s : (length (fgets_take n s).1 ≤ n)%nat.
Proof.
  revert s; induction n as [|n IH]; intros [|c s]; cbn; try lia.
  destruct (c =? 10); cbn; [lia|]. specialize (IH s).
  destruct (fgets_take n s). cbn in *. lia.
Qed.

Lemma fgets_take_rest n s :
  s ≠ [] → (0 < n)%nat → (length (fgets_take n s).2 < length s)%nat.
Proof.
  intros Hs Hn. destruct n as [|n]; [lia|]. destruct s as [|c s]; [done|].
  cbn. destruct (c =? 10); cbn; [lia|].
  pose proof (f_equal length (fgets_take_app n s)) as H.
  rewrite length_app in H. destruct (fgets_take n s). cbn in *. lia.
Qed.

(** Fuel beyond the length of the file changes nothing. *)
Lemma fgets_lines_go_fuel f1 f2 size s :
  (1 < size)%nat → (length s ≤ f1)%nat → (length s ≤ f2)%nat →
  fgets_lines_go f1 size s = fgets_lines_go f2 size s.
Proof.
  intros Hsz. revert f2 s; induction f1 as [|f1 IH]; intros f2 s H1 H2.
  { destruct s; [|cbn in H1; lia]. by destruct f2. }
  destruct s as [|c s]; [by destruct f2|].
  destruct f2 as [|f2]; [cbn in H2; lia|].
  cbn [fgets_lines_go fgets].
  pose proof (fgets_take_rest (size - 1) (c :: s) ltac:(done) ltac:(lia)) as Hr.
  destruct (fgets_take (size - 1) (c :: s)) as [l r]. cbn in Hr, H1, H2.
  f_equal. apply IH; lia.
Qed.

(** The loop reads a line, then behaves as the loop on the rest. *)
Lemma fgets_lines_eq size s :
  (1 < size)%nat →
  fgets_lines size s =
  match fgets size s with None => [] | Some (l, r) => l :: fgets_lines size r end.
Proof.
  intros Hsz. unfold fgets_lines. destruct s as [|c s]; [done|].
  cbn [length fgets_lines_go fgets].
  pose proof (fgets_take_rest (size - 1) (c :: s) ltac:(done) ltac:(lia)) as Hr.
  destruct (fgets_take (size - 1) (c :: s)) as [l r]. cbn in Hr.
  f_equal. apply fgets_lines_go_fuel; lia.
Qed.

(** Nothing is lost or reordered by reading line by line. *)
Lemma fgets_lines_concat size s : (1 < size)%nat → concat (fgets_lines size s) = s.
Proof.
  intros Hsz. induction s as [s IH] using (induction_ltof1 _ length).
  rewrite fgets_lines_eq by done. destruct s as [|c s]; [done|].
  cbn [fgets].
  pose proof (fgets_take_rest (size - 1) (c :: s) ltac:(done) ltac:(lia)) as Hr.
  pose proof (fgets_take_app (size - 1) (c :: s)) as Ha.
  destruct (fgets_take (size - 1) (c :: s)) as [l r]. cbn in Ha, Hr.
  cbn [concat]. rewrite IH; [done|]. unfold ltof. cbn. lia.
Qed.

Lemma fgets_lines_short size s :
  (1 < size)%nat → Forall (λ l, (length l < size)%nat) (fgets_lines size s).
Proof.
  intros Hsz. induction s as [s IH] using (induction_ltof1 _ length).
  rewrite fgets_lines_eq by done. destruct s as [|c s]; [constructor|].
  cbn [fgets].
  pose proof (fgets_take_rest (size - 1) (c :: s) ltac:(done) ltac:(lia)) as Hr.
  pose proof (fgets_take_le (size - 1) (c :: s)) as Hl.
  destruct (fgets_take (size - 1) (c :: s)) as [l r]. cbn [fst snd] in *.
  constructor; [lia|]. apply IH. unfold ltof. lia.
Qed.

(** A complete line that fits is read in one piece. *)
Lemma fgets_take_line n l r :
  10 ∉ l → (length l < n)%nat → fgets_take n (l ++ 10 :: r) = (l ++ [10], r).
Proof.
  revert l; induction n as [|n IH]; intros l Hl Hn; [lia|].
  destruct l as [|c l]; [done|]. apply not_elem_of_cons in Hl as [Hc Hl].
  cbn. rewrite (proj2 (Z.eqb_neq c 10)) by congruence.
  rewrite IH; [done|done|]. cbn in Hn. lia.
Qed.

Lemma fgets_lines_line size l r :
  10 ∉ l → (length l + 1 < size)%nat →
  fgets_lines size (l ++ 10 :: r) = (l ++ [10]) :: fgets_lines size r.
Proof.
  intros Hl Hs. rewrite fgets_lines_eq by lia. unfold fgets.
  rewrite fgets_take_line by (done || lia).
  by destruct l.
Qed.

(** ** The shell *)

(** Names the shell takes literally: letters, digits and "./_-", not
    starting with a dash, not empty. *)
Definition plain_char (c : Z) : bool :=
  ((97 <=? c) && (c <=? 122)) || ((65 <=? c) && (c <=? 90)) ||
  ((45 <=? c) && (c <=? 57)) || (c =? 95).
Definition plain_name (s : fname) : bool :=
  match s with
  | [] => false
  | c :: _ => negb (c =? 45) && forallb plain_char s
  end.

(** [rm -rf name] *)
Definition cmd_rm (name : fname) : list Z := bytes "rm -rf " ++ name.
(** [rm -rf dst && mv src dst] *)
Definition cmd_replace (src dst : fname) : list Z :=
  bytes "rm -rf " ++ dst ++ bytes " && mv " ++ src ++ bytes " " ++ dst.

Definition fs_remove (name : fname) (fs : filesystem) : filesystem :=
  fs_set_files (delete name (fs_files fs)) fs.
Definition fs_rename (src dst : fname) (fs : filesystem) : filesystem :=
  match fs_files fs !! src with
  | Some c => fs_set_files (<[dst := c]> (delete src (fs_files fs))) fs
  | None => fs
  end.

(** [system(cmd)] *)
Class Shell := shell_run : list Z → filesystem → filesystem.

Class ShellLaws (sh : Shell) : Prop := {
  shell_rm name fs :
    plain_name name = true → fs_write_ok fs name = true →
    shell_run (cmd_rm name) fs = fs_remove name fs;
  shell_replace src dst fs :
    plain_name src = true → plain_name dst = true →
    fs_write_ok fs src = true → fs_write_ok fs dst = true →
    shell_run (cmd_replace src dst) fs = fs_rename src dst (fs_remove dst fs);
}.

(** *** An executable shell for these commands *)

(** Words separated by single blanks; [w] is the word being read. *)
Fixpoint words (w s : list Z) : list (list Z) :=
  match s with
  | [] => [w]
  | c :: s' => if c =? 32 then w :: words [] s' else words (w ++ [c]) s'
  end.

Fixpoint run_words (ws : list (list Z)) (fs : filesystem) : filesystem :=
  match ws with
  | c :: o :: n :: ws' =>
      let fs' :=
        if decide (c = bytes "rm" ∧ o = bytes "-rf") then
          (if fs_write_ok fs n then fs_remove n fs else fs)
        else if decide (c = bytes "mv") then
          (if fs_write_ok fs o && fs_write_ok fs n then fs_rename o n fs else fs)
        else fs in
      match ws' with
      | a :: ws'' => if decide (a = bytes "&&") then run_words ws'' fs' else fs'
      | [] => fs'
      end
  | _ => fs
  end.

#[export] Instance mini_shell : Shell := λ cmd fs, run_words (words [] cmd) fs.

Lemma words_word w s t : 32 ∉ s → words w (s ++ 32 :: t) = (w ++ s) :: words [] t.
Proof.
  revert w; induction s as [|c s IH]; intros w Hs; cbn.
  { by rewrite app_nil_r. }
  apply not_elem_of_cons in Hs as [Hc Hs].
  rewrite (proj2 (Z.eqb_neq c 32)) by congruence.
  rewrite IH by done. by rewrite <- app_assoc.
Qed.

Lemma words_last w s : 32 ∉ s → words w s = [w ++ s].
Proof.
  revert w; induction s as [|c s IH]; intros w Hs; cbn.
  { by rewrite app_nil_r. }
  apply not_elem_of_cons in Hs as [Hc Hs].
  rewrite (proj2 (Z.eqb_neq c 32)) by congruence.
  rewrite IH by done. by rewrite <- app_assoc.
Qed.

Lemma plain_no_blank s : plain_name s = true → 32 ∉ s.
Proof.
  destruct s as [|c s]; [done|]. unfold plain_name. intros H%andb_true_iff.
  destruct H as [_ H]. rewrite forallb_forall in H.
  intros Hin%list_elem_of_In. by apply H in Hin.
Qed.

Lemma run_words_rm name fs :
  run_words [bytes "rm"; bytes "-rf"; name] fs =
  if fs_write_ok fs name then fs_remove name fs else fs.
Proof. reflexivity. Qed.

Lemma run_words_replace src dst fs :
  run_words [bytes "rm"; bytes "-rf"; dst; bytes "&&"; bytes "mv"; src; dst] fs =
  let fs' := if fs_write_ok fs dst then fs_remove dst fs else fs in
  if fs_write_ok fs' src && fs_write_ok fs' dst then fs_rename src dst fs' else fs'.
Proof. reflexivity. Qed.

#[export] Instance mini_shell_laws : ShellLaws mini_shell.
Proof.
  split.
  - intros name fs Hn%plain_no_blank Hw. unfold shell_run, mini_shell, cmd_rm.
    lit. cbn -[run_words]. rewrite words_last by done.
    cbn [app].
    etrans; [apply run_words_rm|]. by rewrite Hw.
  - intros src dst fs Hs%plain_no_blank Hd%plain_no_blank Hws Hwd.
    unfold shell_run, mini_shell, cmd_replace. lit. cbn -[run_words].
    rewrite words_word by done. cbn -[run_words].
    rewrite words_word by done. cbn -[run_words].
    rewrite words_last by done. cbn [app].
    etrans; [apply run_words_replace|].
    rewrite Hwd. cbn. by rewrite Hws, Hwd.
Qed.
