(* ===== verification/V2Data.v ===== *)
(** * inifile v2.0.0: global state, string pool and slot allocation

    v2.0.0/inifile.c keeps everything in static arrays: two string pools of
    [INIFILE_SIZE_SPACE] bytes, the open files, the sections and the
    key/value pairs.  Strings are pointers into a pool, nodes are cells of an
    array; [world] holds all of it, the mutexes the thread holds and the file
    system.  This file models the data (lines 66-127), the small string
    routines, the string pool with its relocation between the two halves, and
    the allocation of array cells. *)

From S2P Require Import Prelude CString DList FileSys.
From stdpp Require Import gmap strings.

Open Scope Z_scope.

(** ** Constants (inifile.h and lines 32-54) *)

Definition MAX_OPERATION_FILE_NUM : nat := 2.
Definition MAX_INIFILE_SECTION_NUM : nat := 10.
Definition MAX_KEYVALUE_UNDER_SECTION : nat := 10.
Definition INIFILE_SIZE_SPACE : Z := 1024 * 3.

Definition INIFILE_NO_EXIST : Z := -1.
Definition INIFILE_FORMAT_ERROR : Z := -2.
Definition INIFILE_ERROR_PARAMETER : Z := -3.
Definition INIFILE_NUM_OUT_ARRAY : Z := -6.
Definition INIFILE_MEMORY_POOL_ERROR : Z := -9.
Definition INIFILE_MEMORY_POOL_OUT : Z := -10.
Definition INIFILE_SECTION_NOFOUND : Z := -11.
Definition INIFILE_KEYVALUE_NOFOUND : Z := -12.
Definition INIFILE_SECTION_ALREAD : Z := -13.
Definition INIFILE_KEYVALUE_ALREAD : Z := -14.
Definition INIFILE_REWRITE_ERROR : Z := -15.

Definition CONTENT_NEELINE_SIGN : Z := 10.
Definition CONTENT_SPACE_SIGN : Z := 32.
Definition CONTENT_TAB_SIGN : Z := 9.
Definition CONTENT_LEFT_BRACKET : Z := 91.
Definition CONTENT_RIGHT_BRACKET : Z := 93.
Definition CONTENT_COMMA_SIGN : Z := 59.
Definition CONTENT_EQUALITY_SIGN : Z := 61.

Definition INIFILE_MAX_CONTENT_LINELEN : nat := 1024.
Definition INIFILE_KEYVALUE_ARRAY_LEN : nat :=
  (MAX_INIFILE_SECTION_NUM * MAX_KEYVALUE_UNDER_SECTION)%nat.
Definition INIFILE_SPACE_CHAR_LEN : Z := 1.
Definition INIFILE_SYSTEM_CMD_LEN : nat := 512.
Definition INIFILE_FILEALL_NAME_LEN : nat := 128.

Definition STRUCT_NODE_IN_USED : Z := 1.
Definition STRUCT_NODE_UN_USED : Z := 0.
Definition INI_FILE_MEMORY_POOL_INTI : Z := 0.
Definition INI_FILE_MEMORY_POOL_BACK : Z := 1.

(** ** Data *)

Inductive INI_FILE_LINE_TYPE :=
  | LINE_SECTION | LINE_KEYVALUE | LINE_NOTE | LINE_BLANK | LINE_ERROR.

(** A [char *] into the pools: which pool, and the offset.  [None] is NULL. *)
Inductive pool_id := POOL | BACK_POOL.
Definition pool_ptr : Type := option (pool_id * nat).

Record MEMORY_POOL := {
  pm_flag : Z;
  pm_pool : list Z;
  pm_back_pool : list Z;
  pm_current : pool_ptr;
  pm_curr_len : Z;
}.

(** Node pointers are indices into the static arrays. *)
Record INI_KEYVALUE := {
  kv_flag : Z;
  kv_key : pool_ptr;
  kv_value : pool_ptr;
  kv_pre : option nat;
  kv_last : option nat;
}.

Record INI_SETION := {
  sec_flag : Z;
  sec_sec : pool_ptr;
  sec_head : option nat;
  sec_pre : option nat;
  sec_last : option nat;
}.

Record INI_FILE := {
  file_flag : Z;
  file_name : pool_ptr;
  file_head : option nat;
}.

(** The mutexes: [pool_lock], the three [array_lock]s, and [file_lock] of
    each file cell. *)
Inductive mutex :=
  | POOL_LOCK | FILE_ARRAY_LOCK | SECTION_ARRAY_LOCK | KEYVAL_ARRAY_LOCK
  | FILE_LOCK (i : nat).

#[export] Instance pool_id_eq_dec : EqDecision pool_id.
Proof. solve_decision. Defined.
#[export] Instance mutex_eq_dec : EqDecision mutex.
Proof. solve_decision. Defined.
#[export] Instance line_type_eq_dec : EqDecision INI_FILE_LINE_TYPE.
Proof. solve_decision. Defined.

(** [pool_mem], [ini_array], [section_array], [keyval_array]; the mutexes
    held by the running thread, last locked first; the file system. *)
Record world := World {
  w_pool : MEMORY_POOL;
  w_files : list INI_FILE;
  w_secs : list INI_SETION;
  w_kvs : list INI_KEYVALUE;
  w_held : list mutex;
  w_fs : filesystem;
}.

Definition set_pool (p : MEMORY_POOL) (w : world) : world :=
  World p (w_files w) (w_secs w) (w_kvs w) (w_held w) (w_fs w).
Definition set_files (l : list INI_FILE) (w : world) : world :=
  World (w_pool w) l (w_secs w) (w_kvs w) (w_held w) (w_fs w).
Definition set_secs (l : list INI_SETION) (w : world) : world :=
  World (w_pool w) (w_files w) l (w_kvs w) (w_held w) (w_fs w).
Definition set_kvs (l : list INI_KEYVALUE) (w : world) : world :=
  World (w_pool w) (w_files w) (w_secs w) l (w_held w) (w_fs w).
Definition set_held (l : list mutex) (w : world) : world :=
  World (w_pool w) (w_files w) (w_secs w) (w_kvs w) l (w_fs w).
Definition set_fs (f : filesystem) (w : world) : world :=
  World (w_pool w) (w_files w) (w_secs w) (w_kvs w) (w_held w) f.

(** Zero-initialised cells. *)
Definition kv0 : INI_KEYVALUE := Build_INI_KEYVALUE 0 None None None None.
Definition sec0 : INI_SETION := Build_INI_SETION 0 None None None None.
Definition file0 : INI_FILE := Build_INI_FILE 0 None None.
Definition pool0 : MEMORY_POOL :=
  Build_MEMORY_POOL 0 (replicate (Z.to_nat INIFILE_SIZE_SPACE) 0)
    (replicate (Z.to_nat INIFILE_SIZE_SPACE) 0) None 0.

(** The state at program start. *)
Definition world0 (fs : filesystem) : world :=
  World pool0 (replicate MAX_OPERATION_FILE_NUM file0)
    (replicate MAX_INIFILE_SECTION_NUM sec0)
    (replicate INIFILE_KEYVALUE_ARRAY_LEN kv0) [] fs.

(** ** Cells *)

Definition get_file (i : nat) : M world INI_FILE := λ w,
  match w_files w !! i with Some n => Done (n, w) | None => Fault OutOfBounds end.
Definition put_file (i : nat) (n : INI_FILE) : M world unit := λ w,
  match w_files w !! i with
  | Some _ => Done (tt, set_files (<[i := n]> (w_files w)) w)
  | None => Fault OutOfBounds
  end.
Definition get_sec (i : nat) : M world INI_SETION := λ w,
  match w_secs w !! i with Some n => Done (n, w) | None => Fault OutOfBounds end.
Definition put_sec (i : nat) (n : INI_SETION) : M world unit := λ w,
  match w_secs w !! i with
  | Some _ => Done (tt, set_secs (<[i := n]> (w_secs w)) w)
  | None => Fault OutOfBounds
  end.
Definition get_kv (i : nat) : M world INI_KEYVALUE := λ w,
  match w_kvs w !! i with Some n => Done (n, w) | None => Fault OutOfBounds end.
Definition put_kv (i : nat) (n : INI_KEYVALUE) : M world unit := λ w,
  match w_kvs w !! i with
  | Some _ => Done (tt, set_kvs (<[i := n]> (w_kvs w)) w)
  | None => Fault OutOfBounds
  end.

Definition with_file (i : nat) (f : INI_FILE → INI_FILE) : M world unit :=
  n ← get_file i; put_file i (f n).
Definition with_sec (i : nat) (f : INI_SETION → INI_SETION) : M world unit :=
  n ← get_sec i; put_sec i (f n).
Definition with_kv (i : nat) (f : INI_KEYVALUE → INI_KEYVALUE) : M world unit :=
  n ← get_kv i; put_kv i (f n).

(** Field assignments. *)
Definition kv_set_flag (v : Z) n := Build_INI_KEYVALUE v (kv_key n) (kv_value n) (kv_pre n) (kv_last n).
Definition kv_set_key v n := Build_INI_KEYVALUE (kv_flag n) v (kv_value n) (kv_pre n) (kv_last n).
Definition kv_set_value v n := Build_INI_KEYVALUE (kv_flag n) (kv_key n) v (kv_pre n) (kv_last n).
Definition kv_set_pre v n := Build_INI_KEYVALUE (kv_flag n) (kv_key n) (kv_value n) v (kv_last n).
Definition kv_set_last v n := Build_INI_KEYVALUE (kv_flag n) (kv_key n) (kv_value n) (kv_pre n) v.
Definition sec_set_flag (v : Z) n := Build_INI_SETION v (sec_sec n) (sec_head n) (sec_pre n) (sec_last n).
Definition sec_set_sec v n := Build_INI_SETION (sec_flag n) v (sec_head n) (sec_pre n) (sec_last n).
Definition sec_set_head v n := Build_INI_SETION (sec_flag n) (sec_sec n) v (sec_pre n) (sec_last n).
Definition sec_set_pre v n := Build_INI_SETION (sec_flag n) (sec_sec n) (sec_head n) v (sec_last n).
Definition sec_set_last v n := Build_INI_SETION (sec_flag n) (sec_sec n) (sec_head n) (sec_pre n) v.
Definition file_set_flag (v : Z) n := Build_INI_FILE v (file_name n) (file_head n).
Definition file_set_name v n := Build_INI_FILE (file_flag n) v (file_head n).
Definition file_set_head v n := Build_INI_FILE (file_flag n) (file_name n) v.

(** ** Mutexes *)

Definition pthread_mutex_lock (m : mutex) : M world unit := λ w,
  if decide (m ∈ w_held w) then Fault LockMisuse
  else Done (tt, set_held (m :: w_held w) w).

Fixpoint remove_mutex (m : mutex) (l : list mutex) : list mutex :=
  match l with
  | [] => []
  | x :: l' => if decide (x = m) then l' else x :: remove_mutex m l'
  end.

Definition pthread_mutex_unlock (m : mutex) : M world unit := λ w,
  if decide (m ∈ w_held w)
  then Done (tt, set_held (remove_mutex m (w_held w)) w)
  else Fault LockMisuse.

(** ** String routines (lines 129-165) *)

(** A nullable [char *] parameter: the bytes readable from it. *)
Definition c_ptr : Type := option (list Z).

Definition str_int_len (str : c_ptr) : outcome Z :=
  match str with
  | None => Done 0
  | Some s => n ← str_scan_len s; mret (Z.of_nat n)
  end.

(** [str_frist_constchar(buf + p, c)], giving an offset in [buf]. *)
Definition str_frist_constchar (buf : list Z) (p : nat) (c : Z)
  : outcome (option nat) := str_scan_chr (drop p buf) c p.

(** [find_frist_endchar(buf + p)], giving an offset in [buf]. *)
Definition find_frist_endchar (buf : list Z) (p : nat) : outcome nat :=
  n ← str_scan_len (drop p buf); mret (p + n)%nat.

(** ** The string pool *)

Definition pool_of (pm : MEMORY_POOL) (k : pool_id) : list Z :=
  match k with POOL => pm_pool pm | BACK_POOL => pm_back_pool pm end.

(** The bytes readable from a pool pointer. *)
Definition pool_bytes (pm : MEMORY_POOL) (p : pool_ptr) : c_ptr :=
  match p with
  | None => None
  | Some (k, off) => Some (drop off (pool_of pm k))
  end.

Definition set_pool_of (k : pool_id) (b : list Z) (pm : MEMORY_POOL) : MEMORY_POOL :=
  match k with
  | POOL => Build_MEMORY_POOL (pm_flag pm) b (pm_back_pool pm) (pm_current pm) (pm_curr_len pm)
  | BACK_POOL => Build_MEMORY_POOL (pm_flag pm) (pm_pool pm) b (pm_current pm) (pm_curr_len pm)
  end.
Definition set_curr_len (n : Z) (pm : MEMORY_POOL) : MEMORY_POOL :=
  Build_MEMORY_POOL (pm_flag pm) (pm_pool pm) (pm_back_pool pm) (pm_current pm) n.
Definition set_current (p : pool_ptr) (pm : MEMORY_POOL) : MEMORY_POOL :=
  Build_MEMORY_POOL (pm_flag pm) (pm_pool pm) (pm_back_pool pm) p (pm_curr_len pm).

(** The pointer fields strings are stored through ([const char **dest]). *)
Inductive dest := DName (i : nat) | DSec (i : nat) | DKey (i : nat) | DValue (i : nat).

Definition load_dest (d : dest) : M world pool_ptr :=
  match d with
  | DName i => n ← get_file i; mret (file_name n)
  | DSec i => n ← get_sec i; mret (sec_sec n)
  | DKey i => n ← get_kv i; mret (kv_key n)
  | DValue i => n ← get_kv i; mret (kv_value n)
  end.

Definition store_dest (d : dest) (p : pool_ptr) : M world unit :=
  match d with
  | DName i => with_file i (file_set_name p)
  | DSec i => with_sec i (sec_set_sec p)
  | DKey i => with_kv i (kv_set_key p)
  | DValue i => with_kv i (kv_set_value p)
  end.

(** [pool_mem.curr_len += len + INIFILE_SPACE_CHAR_LEN] *)
Definition add_curr_len (len : Z) : M world unit :=
  pm ← gets w_pool;
  k ← lift (int_add len INIFILE_SPACE_CHAR_LEN);
  n ← lift (int_add (pm_curr_len pm) k);
  modify (set_pool (set_curr_len n pm)).

(** [memcpy(pool_mem.current, src, len); *dest = pool_mem.current;
    pool_mem.current += len + INIFILE_SPACE_CHAR_LEN;] *)
Definition store_string (d : dest) (src : list Z) (len : Z) : M world unit :=
  pm ← gets w_pool;
  match pm_current pm with
  | None => fault_with NullDeref
  | Some (k, off) =>
      s ← lift (mem_read src len);
      b ← lift (mem_write (pool_of pm k) off s);
      modify (set_pool (set_pool_of k b pm)) ;;
      store_dest d (Some (k, off)) ;;
      pm' ← gets w_pool;
      modify (set_pool (set_current
        (Some (k, off + Z.to_nat (len + INIFILE_SPACE_CHAR_LEN))%nat) pm'))
  end.

(** [ini_file_memory_init] (lines 167-185) *)
Definition ini_file_memory_init : M world unit :=
  pm ← gets w_pool;
  match pm_current pm with
  | None => modify (set_pool (set_curr_len 0 (set_current (Some (POOL, O)) pm)))
  | Some _ => mret tt
  end.

(** One string of [ini_file_memory_adjust]: moved to the new half when the
    pointer is set; [false] when it does not fit ([goto error_out]). *)
Definition adjust_string (d : dest) : M world bool :=
  p ← load_dest d;
  pm ← gets w_pool;
  match pool_bytes pm p with
  | None => mret true
  | Some src =>
      len ← lift (str_int_len (Some src));
      add_curr_len len ;;
      pm' ← gets w_pool;
      if INIFILE_SIZE_SPACE <=? pm_curr_len pm' then mret false
      else store_string d src len ;; mret true
  end.

(** The key/value loop of one section (lines 242-272). *)
Fixpoint adjust_keyvals (fuel : nat) (p : option nat) : M world bool :=
  match p with
  | None => mret true
  | Some i =>
      match fuel with
      | O => λ _, NoFuel
      | S f =>
          k ← adjust_string (DKey i);
          if (k : bool) then
            v ← adjust_string (DValue i);
            if (v : bool) then n ← get_kv i; adjust_keyvals f (kv_last n)
            else mret false
          else mret false
      end
  end.

(** The section loop of one file (lines 226-274). *)
Fixpoint adjust_sections (fuel : nat) (p : option nat) : M world bool :=
  match p with
  | None => mret true
  | Some i =>
      match fuel with
      | O => λ _, NoFuel
      | S f =>
          s ← adjust_string (DSec i);
          if (s : bool) then
            n ← get_sec i;
            k ← adjust_keyvals INIFILE_KEYVALUE_ARRAY_LEN (sec_head n);
            if (k : bool) then n' ← get_sec i; adjust_sections f (sec_last n')
            else mret false
          else mret false
      end
  end.

(** The loop over the files (lines 205-276): [p_ini_file] advances only past
    unused cells. *)
Fixpoint adjust_files (todo : nat) (p_ini_file : nat) : M world bool :=
  match todo with
  | O => mret true
  | S todo' =>
      n ← get_file p_ini_file;
      if file_flag n =? STRUCT_NODE_UN_USED then adjust_files todo' (S p_ini_file)
      else
        a ← adjust_string (DName p_ini_file);
        if (a : bool) then
          n' ← get_file p_ini_file;
          s ← adjust_sections MAX_INIFILE_SECTION_NUM (file_head n');
          if (s : bool) then adjust_files todo' p_ini_file else mret false
        else mret false
  end.

(** [ini_file_memory_adjust] (lines 187-280): switch halves and move every
    live string. *)
Definition ini_file_memory_adjust : M world Z :=
  pm ← gets w_pool;
  modify (set_pool
    (if pm_flag pm =? INI_FILE_MEMORY_POOL_INTI
     then Build_MEMORY_POOL INI_FILE_MEMORY_POOL_BACK (pm_pool pm) (pm_back_pool pm)
            (Some (BACK_POOL, O)) 0
     else Build_MEMORY_POOL INI_FILE_MEMORY_POOL_INTI (pm_pool pm) (pm_back_pool pm)
            (Some (POOL, O)) 0)) ;;
  ok ← adjust_files MAX_OPERATION_FILE_NUM 0;
  mret (if (ok : bool) then 0 else INIFILE_MEMORY_POOL_ERROR).

(** [storage_char_memory] (lines 282-306) *)
Definition storage_char_memory (d : dest) (src : list Z) (len : Z) : M world Z :=
  pthread_mutex_lock POOL_LOCK ;;
  add_curr_len len ;;
  pm ← gets w_pool;
  ret ← (if INIFILE_SIZE_SPACE <=? pm_curr_len pm then
           ret ← ini_file_memory_adjust;
           if ret <? 0 then mret ret
           else
             add_curr_len len ;;
             pm' ← gets w_pool;
             mret (if INIFILE_SIZE_SPACE <=? pm_curr_len pm'
                   then INIFILE_MEMORY_POOL_OUT else ret)
         else mret 0);
  (if ret <? 0 then mret tt else store_string d src len) ;;
  pthread_mutex_unlock POOL_LOCK ;;
  mret ret.

(** ** Cell allocation (lines 308-366) *)

(** The first unused cell of an array. *)
Fixpoint first_unused {N} (flag : N → Z) (arr : list N) : option nat :=
  match arr with
  | [] => None
  | n :: arr' => if flag n =? STRUCT_NODE_UN_USED then Some O
                 else S <$> first_unused flag arr'
  end.

Definition get_index_ini_file : M world Z :=
  pthread_mutex_lock FILE_ARRAY_LOCK ;;
  arr ← gets w_files;
  r ← match first_unused file_flag arr with
      | Some i => with_file i (file_set_flag STRUCT_NODE_IN_USED) ;; mret (Z.of_nat i)
      | None => mret INIFILE_NUM_OUT_ARRAY
      end;
  pthread_mutex_unlock FILE_ARRAY_LOCK ;;
  mret r.

Definition get_index_ini_section : M world Z :=
  pthread_mutex_lock SECTION_ARRAY_LOCK ;;
  arr ← gets w_secs;
  r ← match first_unused sec_flag arr with
      | Some i => with_sec i (sec_set_flag STRUCT_NODE_IN_USED) ;; mret (Z.of_nat i)
      | None => mret INIFILE_NUM_OUT_ARRAY
      end;
  pthread_mutex_unlock SECTION_ARRAY_LOCK ;;
  mret r.

Definition get_index_ini_keyvalue : M world Z :=
  pthread_mutex_lock KEYVAL_ARRAY_LOCK ;;
  arr ← gets w_kvs;
  r ← match first_unused kv_flag arr with
      | Some i => with_kv i (kv_set_flag STRUCT_NODE_IN_USED) ;; mret (Z.of_nat i)
      | None => mret INIFILE_NUM_OUT_ARRAY
      end;
  pthread_mutex_unlock KEYVAL_ARRAY_LOCK ;;
  mret r.
