(* ===== verification/V2Line.v ===== *)
(** * inifile v2.0.0: lines of the file and the in-memory lists

    The classification of a line, the parsing of a key/value line and of a
    section line into the static arrays, the searches over the linked lists,
    and the loading of a file (v2.0.0/inifile.c, lines 368-728). *)

From S2P Require Import Prelude CString DList FileSys V2Data.
From stdpp Require Import gmap strings.

Open Scope Z_scope.

Definition is_blank (c : Z) : bool :=
  (c =? CONTENT_SPACE_SIGN) || (c =? CONTENT_TAB_SIGN).
Definition is_blank_nl (c : Z) : bool :=
  (c =? CONTENT_NEELINE_SIGN) || (c =? CONTENT_TAB_SIGN) || (c =? CONTENT_SPACE_SIGN).

(** ** [judge_ini_file_linetype] (lines 369-468) *)

(** [while (pp < p_comma)]: blanks only, or an error; [todo = p_comma - pp]. *)
Fixpoint note_or_error (line : list Z) (todo pp : nat) : outcome INI_FILE_LINE_TYPE :=
  match todo with
  | O => Done LINE_NOTE
  | S todo' =>
      c ← rd line pp;
      if is_blank c then note_or_error line todo' (S pp) else Done LINE_ERROR
  end.

(** [q_brack = strchr(line, ']'); q_brack && q_brack < p_comma] *)
Definition section_or_error (line : list Z) (p_comma : nat) : outcome INI_FILE_LINE_TYPE :=
  q_brack ← str_frist_constchar line 0 CONTENT_RIGHT_BRACKET;
  mret (match q_brack with
        | Some q => if (q <? p_comma)%nat then LINE_SECTION else LINE_ERROR
        | None => LINE_ERROR
        end).

Definition judge_ini_file_linetype (line : list Z) : outcome INI_FILE_LINE_TYPE :=
  pp ← skip_fwd is_blank line 0;
  c ← rd line pp;
  if c =? CONTENT_NEELINE_SIGN then mret LINE_BLANK
  else
    p_comma ← str_frist_constchar line 0 CONTENT_COMMA_SIGN;
    p_brack ← str_frist_constchar line 0 CONTENT_LEFT_BRACKET;
    p_equ ← str_frist_constchar line 0 CONTENT_EQUALITY_SIGN;
    match p_comma, p_brack, p_equ with
    | Some comma, Some brack, Some equ =>
        if ((comma <? brack) && (comma <? equ))%nat
        then note_or_error line (comma - pp) pp
        else if ((brack <? comma) && (equ <? comma))%nat then mret LINE_ERROR
        else if (brack <? comma)%nat then section_or_error line comma
        else mret LINE_KEYVALUE
    | Some comma, Some brack, None =>
        if (comma <? brack)%nat then note_or_error line (comma - pp) pp
        else section_or_error line comma
    | Some comma, None, Some equ =>
        if (comma <? equ)%nat then note_or_error line (comma - pp) pp
        else mret LINE_KEYVALUE
    | Some comma, None, None => note_or_error line (comma - pp) pp
    | None, Some _, Some _ => mret LINE_ERROR
    | None, Some brack, None =>
        q_brack ← str_frist_constchar line 0 CONTENT_RIGHT_BRACKET;
        mret (match q_brack with
              | Some q => if (brack <? q)%nat then LINE_SECTION else LINE_ERROR
              | None => LINE_ERROR
              end)
    | None, None, Some _ => mret LINE_KEYVALUE
    | None, None, None => mret LINE_ERROR
    end.

(** ** Searches *)

(** [str_int_len(s) == len && memcmp(s, name, len) == 0] for a string of the
    pool and the caller's [name]. *)
Definition string_matches (pm : MEMORY_POOL) (name : list Z) (len : Z) (s : pool_ptr)
  : outcome bool :=
  c_len ← str_int_len (pool_bytes pm s);
  if c_len =? len
  then r ← memcmp (default [] (pool_bytes pm s)) name len; mret (r =? 0)
  else mret false.

(** [find_keyvalue_unsect] (lines 470-494) *)
Definition find_keyvalue_unsect (head : option nat) (key : c_ptr) (len : Z)
  : M world (option nat) :=
  match head, key with
  | None, _ | _, None => mret None
  | Some _, Some name =>
      len' ← (if len <=? 0 then lift (str_int_len key) else mret len);
      w ← gets id;
      lift (walk_find kv_last (λ i, w_kvs w !! i)
              (λ n, string_matches (w_pool w) name len' (kv_key n))
              INIFILE_KEYVALUE_ARRAY_LEN head)
  end.

(** [find_inifile_section] (lines 560-581) *)
Definition find_inifile_section (head : option nat) (name : c_ptr) (len : Z)
  : M world (option nat) :=
  match head, name with
  | None, _ | _, None => mret None
  | Some _, Some nm =>
      len' ← (if len <=? 0 then lift (str_int_len name) else mret len);
      w ← gets id;
      lift (walk_find sec_last (λ i, w_secs w !! i)
              (λ n, string_matches (w_pool w) nm len' (sec_sec n))
              MAX_INIFILE_SECTION_NUM head)
  end.

(** ** Parsing a key/value line *)

(** The [error_out] label: release the cell. *)
Definition key_val_error (index : nat) (ret : Z) : M world Z :=
  with_kv index (kv_set_flag STRUCT_NODE_UN_USED) ;; mret ret.

(** The value part (lines 531-552). *)
Definition init_line_val (line : list Z) (equ : nat) (p_comma : option nat) (index : nat)
  : M world Z :=
  stop ← (match p_comma with
          | Some comma => mret comma
          | None => lift (find_frist_endchar line equ)
          end);
  pp ← lift (skip_back is_blank_nl line (stop - 1));
  p ← lift (skip_fwd is_blank (drop (equ + 1) line) (equ + 1));
  if (pp <? p)%nat then key_val_error index INIFILE_FORMAT_ERROR
  else
    ret ← storage_char_memory (DValue index) (drop p line)
            (Z.of_nat pp - Z.of_nat p + INIFILE_SPACE_CHAR_LEN);
    if ret <? 0 then key_val_error index ret else mret (Z.of_nat index).

(** [init_line_key_val] (lines 497-558) *)
Definition init_line_key_val (line : list Z) : M world Z :=
  p_equ ← lift (str_frist_constchar line 0 CONTENT_EQUALITY_SIGN);
  p_comma ← lift (str_frist_constchar line 0 CONTENT_COMMA_SIGN);
  match p_equ with
  | None => mret INIFILE_FORMAT_ERROR
  | Some equ =>
      if match p_comma with Some comma => (comma <? equ)%nat | None => false end
      then mret INIFILE_FORMAT_ERROR
      else if (0 <? equ)%nat then
        index ← get_index_ini_keyvalue;
        if index <? 0 then mret index
        else
          p ← lift (skip_fwd is_blank line 0);
          pp ← lift (skip_back is_blank line (equ - 1));
          if (pp <? p)%nat then key_val_error (Z.to_nat index) INIFILE_FORMAT_ERROR
          else
            ret ← storage_char_memory (DKey (Z.to_nat index)) (drop p line)
                    (Z.of_nat pp - Z.of_nat p + INIFILE_SPACE_CHAR_LEN);
            if ret <? 0 then key_val_error (Z.to_nat index) ret
            else init_line_val line equ p_comma (Z.to_nat index)
      else mret INIFILE_FORMAT_ERROR
  end.

(** ** [init_line_section] (lines 583-616) *)
Definition init_line_section (line : list Z) : M world Z :=
  p_brack ← lift (str_frist_constchar line 0 CONTENT_LEFT_BRACKET);
  q_brack ← lift (str_frist_constchar line 0 CONTENT_RIGHT_BRACKET);
  index ← get_index_ini_section;
  if index <? 0 then mret index
  else
    ret ← (match p_brack, q_brack with
           | Some p, Some q =>
               if Z.of_nat p + 1 <? Z.of_nat q - 1 then
                 ret ← storage_char_memory (DSec (Z.to_nat index)) (drop (p + 1) line)
                         ((Z.of_nat q - 1) - (Z.of_nat p + 1) + INIFILE_SPACE_CHAR_LEN);
                 mret (if ret <? 0 then ret else index)
               else mret INIFILE_FORMAT_ERROR
           | _, _ => mret INIFILE_FORMAT_ERROR
           end);
    (if ret <? 0 then with_sec (Z.to_nat index) (sec_set_flag STRUCT_NODE_UN_USED)
     else mret tt) ;;
    mret ret.

(** ** [init_every_line_inifile] (lines 618-696) *)

(** [while (p->last) p = p->last;] over the two arrays. *)
Definition last_section (i : nat) : M world nat :=
  w ← gets id;
  lift (walk_end sec_last (λ j, w_secs w !! j) MAX_INIFILE_SECTION_NUM i).
Definition last_keyval (i : nat) : M world nat :=
  w ← gets id;
  lift (walk_end kv_last (λ j, w_kvs w !! j) INIFILE_KEYVALUE_ARRAY_LEN i).

(** Lines 630-652. *)
Definition init_every_section (ini_fd : nat) (line : list Z) : M world Z :=
  p_file ← get_file ini_fd;
  let p_section := file_head p_file in
  ret ← init_line_section line;
  if 0 <=? ret then
    let n_section := Z.to_nat ret in
    n ← get_sec n_section;
    pm ← gets w_pool;
    f_section ← find_inifile_section p_section (pool_bytes pm (sec_sec n)) 0;
    match f_section with
    | Some _ =>
        with_sec n_section (sec_set_flag STRUCT_NODE_UN_USED) ;;
        mret INIFILE_FORMAT_ERROR
    | None =>
        match p_section with
        | None => with_file ini_fd (file_set_head (Some n_section))
        | Some i =>
            e ← last_section i;
            with_sec e (sec_set_last (Some n_section)) ;;
            with_sec n_section (sec_set_pre (Some e)) ;;
            with_sec n_section (sec_set_last None)
        end ;;
        mret ret
    end
  else mret ret.

(** Lines 654-683. *)
Definition init_every_keyvalue (ini_fd : nat) (line : list Z) : M world Z :=
  p_file ← get_file ini_fd;
  match file_head p_file with
  | None => mret INIFILE_FORMAT_ERROR
  | Some i =>
      p_section ← last_section i;
      s ← get_sec p_section;
      let p_key := sec_head s in
      ret ← init_line_key_val line;
      if 0 <=? ret then
        let n_key := Z.to_nat ret in
        n ← get_kv n_key;
        pm ← gets w_pool;
        f_key ← find_keyvalue_unsect p_key (pool_bytes pm (kv_key n)) 0;
        match f_key with
        | Some _ =>
            with_kv n_key (kv_set_flag STRUCT_NODE_UN_USED) ;;
            mret INIFILE_FORMAT_ERROR
        | None =>
            match p_key with
            | None => with_sec p_section (sec_set_head (Some n_key))
            | Some k =>
                e ← last_keyval k;
                with_kv e (kv_set_last (Some n_key)) ;;
                with_kv n_key (kv_set_pre (Some e)) ;;
                with_kv n_key (kv_set_last None)
            end ;;
            mret ret
        end
      else mret ret
  end.

Definition init_every_line_inifile (ini_fd : nat) (line : list Z) : M world Z :=
  type ← lift (judge_ini_file_linetype line);
  match type with
  | LINE_SECTION => init_every_section ini_fd line
  | LINE_KEYVALUE => init_every_keyvalue ini_fd line
  | LINE_NOTE | LINE_BLANK => mret 0
  | LINE_ERROR => mret INIFILE_FORMAT_ERROR
  end.

(** ** [read_analys_ini_file] (lines 699-728) *)

(** The zeroed line buffer. *)
Definition zero_line : list Z := replicate INIFILE_MAX_CONTENT_LINELEN 0.

(** The [while (fgets(...))] loop, over the lines [fgets] delivers. *)
Fixpoint analys_lines (ini_fd : nat) (lines : list (list Z)) (ret : Z) : M world Z :=
  match lines with
  | [] => mret ret
  | l :: lines' =>
      ret' ← init_every_line_inifile ini_fd (fgets_into zero_line l);
      if ret' <? 0 then mret ret' else analys_lines ini_fd lines' ret'
  end.

Definition read_analys_ini_file (ini_fd : nat) (file_name : list Z) : M world Z :=
  name ← lift (c_str file_name);
  fs ← gets w_fs;
  if negb (access_rw fs name =? 0) then mret INIFILE_NO_EXIST
  else
    match fopen_r fs name with
    | None => mret INIFILE_NO_EXIST
    | Some content =>
        analys_lines ini_fd (fgets_lines INIFILE_MAX_CONTENT_LINELEN content) 0
    end.
