(* ===== verification/V2Rewrite.v ===== *)
(** * inifile v2.0.0: rewriting the file on disk

    After a change of the in-memory lists the library copies the file line by
    line to "<name>.tmp", editing it on the way, and lets the shell move the
    copy over the original (v2.0.0/inifile.c, lines 730-1147).  A failed copy
    is removed instead. *)

From S2P Require Import Prelude CString DList FileSys V2Data V2Line.
From stdpp Require Import gmap strings.

Open Scope Z_scope.

(** The caller's [struct ini_parameter]; the operations fill in the lengths
    that are not positive, so it is passed in and out. *)
Record INI_PARAMETER := {
  par_section : c_ptr;
  par_section_len : Z;
  par_key : c_ptr;
  par_key_len : Z;
  par_value : c_ptr;
  par_value_len : Z;
}.

Definition set_section_len n p := Build_INI_PARAMETER
  (par_section p) n (par_key p) (par_key_len p) (par_value p) (par_value_len p).
Definition set_key_len n p := Build_INI_PARAMETER
  (par_section p) (par_section_len p) (par_key p) n (par_value p) (par_value_len p).
Definition set_value_len n p := Build_INI_PARAMETER
  (par_section p) (par_section_len p) (par_key p) (par_key_len p) (par_value p) n.

(** [if (len <= 0) len = str_int_len(s);] for each field. *)
Definition fill_len (s : c_ptr) (len : Z) : outcome Z :=
  if len <=? 0 then str_int_len s else Done len.
Definition fill_section_len (p : INI_PARAMETER) : outcome INI_PARAMETER :=
  n ← fill_len (par_section p) (par_section_len p); mret (set_section_len n p).
Definition fill_key_len (p : INI_PARAMETER) : outcome INI_PARAMETER :=
  n ← fill_len (par_key p) (par_key_len p); mret (set_key_len n p).
Definition fill_value_len (p : INI_PARAMETER) : outcome INI_PARAMETER :=
  n ← fill_len (par_value p) (par_value_len p); mret (set_value_len n p).

(** A pointer the code dereferences. *)
Definition non_null (p : c_ptr) : outcome (list Z) :=
  match p with Some s => Done s | None => Fault NullDeref end.

(** [sprintf(buf + p, fmt, ...)] with the formatted bytes [s]. *)
Definition sprintf_at (buf : list Z) (p : nat) (s : list Z) : outcome (list Z) :=
  mem_write buf p (s ++ [0]).

(** [snprintf(buf + p, n, "%s", src)] *)
Definition snprintf_at (buf : list Z) (p : nat) (n : Z) (src : list Z)
  : outcome (list Z) := s ← snprintf_s n src; mem_write buf p s.

Definition tem_suff_name : list Z := bytes ".tmp".

(** What one line becomes: an error code ([goto error_out]), or the new loop
    state with the bytes written. *)
Definition line_result (St : Type) : Type := (Z + (St * list Z))%type.

(** ** The section and key tests shared by the three loops *)

(** [p_char = strchr(line, '[') + 1; q_char = p_char + section_len;
    *q_char == ']' && memcmp(...)]: the value of [ret] after the test, which
    is left alone when the bracket is not there.  [None] is
    [INIFILE_REWRITE_ERROR]. *)
Definition section_test (par : INI_PARAMETER) (line : list Z) (ret : Z)
  : outcome (option (bool * Z)) :=
  b ← str_frist_constchar line 0 CONTENT_LEFT_BRACKET;
  match b with
  | None => mret None
  | Some b =>
      let p_char := (b + 1)%nat in
      q ← rd line (p_char + Z.to_nat (par_section_len par));
      if q =? CONTENT_RIGHT_BRACKET then
        s ← non_null (par_section par);
        r ← memcmp s (drop p_char line) (par_section_len par);
        mret (Some (r =? 0, r))
      else mret (Some (false, ret))
  end.

(** The key comparison: [p_char] is the first non-blank of the line. *)
Definition key_test (par : INI_PARAMETER) (line : list Z) (p_char : nat) (ret : Z)
  : outcome (bool * Z) :=
  q ← rd line (p_char + Z.to_nat (par_key_len par));
  if is_blank q || (q =? CONTENT_EQUALITY_SIGN) then
    k ← non_null (par_key par);
    r ← memcmp k (drop p_char line) (par_key_len par);
    mret (r =? 0, r)
  else mret (false, ret).

(** ** [rewrite_after_update] (lines 784-909) *)

(** The edited line (lines 860-878). *)
Definition update_value_line (par : INI_PARAMETER) (line : list Z) (p_value : nat)
  : outcome (list Z) :=
  p_value' ← skip_fwd is_blank (drop (p_value + 1) line) (p_value + 1);
  pre ← mem_read line (Z.of_nat p_value');
  mod_line ← mem_write zero_line 0 pre;
  p_char ← find_frist_endchar mod_line 0;
  v ← non_null (par_value par);
  mod_line ← snprintf_at mod_line p_char (par_value_len par + 1) v;
  p_comma ← str_frist_constchar line p_value' CONTENT_COMMA_SIGN;
  mod_line ← (match p_comma with
              | Some c =>
                  e ← find_frist_endchar mod_line 0;
                  t ← c_str (drop c line);
                  sprintf_at mod_line e (CONTENT_TAB_SIGN :: t)
              | None => mret mod_line
              end);
  m ← c_str mod_line;
  sprintf_at zero_line 0 (m ++ [CONTENT_NEELINE_SIGN]).

(** The bytes [fwrite(line, 1, str_int_len(line), wp)] writes. *)
Definition fwrite_line (line : list Z) : outcome (list Z) :=
  len ← str_int_len (Some line); mem_read line len.

(** One turn of the loop; the state is [flag] and [mod_flag]. *)
Definition update_line (par : INI_PARAMETER) (st : bool * bool) (line : list Z)
  : outcome (line_result (bool * bool)) :=
  let '(flag, mod_flag) := st in
  if (mod_flag : bool) then s ← fwrite_line line; mret (inr (st, s))
  else
    type ← judge_ini_file_linetype line;
    match type with
    | LINE_SECTION =>
        t ← section_test par line 0;
        match t with
        | None => mret (inl INIFILE_REWRITE_ERROR)
        | Some (hit, _) =>
            s ← fwrite_line line; mret (inr ((flag || hit, false), s))
        end
    | LINE_KEYVALUE =>
        if (flag : bool) then
          p_value ← str_frist_constchar line 0 CONTENT_EQUALITY_SIGN;
          match p_value with
          | None => mret (inl INIFILE_REWRITE_ERROR)
          | Some pv =>
              p_char ← skip_fwd is_blank line 0;
              t ← key_test par line p_char 0;
              if (t.1 : bool) then
                line' ← update_value_line par line pv;
                s ← fwrite_line line'; mret (inr ((flag, true), s))
              else s ← fwrite_line line; mret (inr (st, s))
          end
        else s ← fwrite_line line; mret (inr (st, s))
    | LINE_NOTE | LINE_BLANK => s ← fwrite_line line; mret (inr (st, s))
    | LINE_ERROR => mret (inl INIFILE_FORMAT_ERROR)
    end.

(** The loop: every line is read into the zeroed buffer. *)
Fixpoint update_lines (par : INI_PARAMETER) (st : bool * bool) (lines : list (list Z))
    (out : list Z) : outcome (Z * list Z) :=
  match lines with
  | [] => mret (0, out)
  | l :: lines' =>
      r ← update_line par st (fgets_into zero_line l);
      match r with
      | inl e => mret (e, out)
      | inr (st', s) => update_lines par st' lines' (out ++ s)
      end
  end.

(** ** [rewrite_after_add] (lines 911-1020) *)

(** The new section in front of the file (lines 939-949). *)
Definition add_section_line (par : INI_PARAMETER) : outcome (list Z) :=
  line ← mem_write zero_line 0 [CONTENT_LEFT_BRACKET];
  s ← non_null (par_section par);
  line ← snprintf_at line 1 (par_section_len par + 1) s;
  p_char ← find_frist_endchar line 1;
  line ← sprintf_at line p_char [CONTENT_RIGHT_BRACKET; 10; 10];
  fwrite_line line.

(** The pair appended to the section's line (lines 979-988). *)
Definition add_keyvalue_line (par : INI_PARAMETER) (line : list Z) (p_char : nat)
  : outcome (list Z) :=
  p_char ← find_frist_endchar line p_char;
  k ← non_null (par_key par);
  line ← snprintf_at line p_char (par_key_len par + 1) k;
  p_char ← find_frist_endchar line p_char;
  line ← sprintf_at line p_char [CONTENT_TAB_SIGN; CONTENT_EQUALITY_SIGN; CONTENT_TAB_SIGN];
  p_char ← find_frist_endchar line p_char;
  v ← non_null (par_value par);
  line ← snprintf_at line p_char (par_value_len par + 1) v;
  p_char ← find_frist_endchar line p_char;
  mem_write line p_char [CONTENT_NEELINE_SIGN].

Definition add_line (par : INI_PARAMETER) (flag : bool) (line : list Z)
  : outcome (line_result bool) :=
  if flag then s ← fwrite_line line; mret (inr (flag, s))
  else
    type ← judge_ini_file_linetype line;
    match type with
    | LINE_SECTION =>
        t ← section_test par line 0;
        match t with
        | None => mret (inl INIFILE_REWRITE_ERROR)
        | Some (hit, _) =>
            b ← str_frist_constchar line 0 CONTENT_LEFT_BRACKET;
            line' ← (if (hit : bool)
                     then add_keyvalue_line par line (default O b + 1)
                     else mret line);
            s ← fwrite_line line'; mret (inr (hit, s))
        end
    | LINE_KEYVALUE | LINE_NOTE | LINE_BLANK =>
        s ← fwrite_line line; mret (inr (flag, s))
    | LINE_ERROR => mret (inl INIFILE_FORMAT_ERROR)
    end.

Fixpoint add_lines (par : INI_PARAMETER) (flag : bool) (lines : list (list Z))
    (out : list Z) : outcome (Z * list Z) :=
  match lines with
  | [] => mret (0, out)
  | l :: lines' =>
      r ← add_line par flag (fgets_into zero_line l);
      match r with
      | inl e => mret (e, out)
      | inr (flag', s) => add_lines par flag' lines' (out ++ s)
      end
  end.

(** ** [rewrite_after_delete] (lines 1022-1147) *)

(** [flag]: 0 searching, 1 inside a deleted section, 2 inside the section of
    a deleted key, 3 done. *)
Inductive delete_flag := DEL_SEARCH | DEL_SECTION | DEL_KEY | DEL_DONE.

#[export] Instance delete_flag_eq_dec : EqDecision delete_flag.
Proof. solve_decision. Defined.

(** One turn: [inr (flag, ret, par, Some s)] writes [s] and clears the
    buffer, [None] is [continue]. *)
Definition delete_line (par : INI_PARAMETER) (flag : delete_flag) (ret : Z) (line : list Z)
  : outcome (Z + (delete_flag * Z * INI_PARAMETER * option (list Z))) :=
  let write f r p := (s ← fwrite_line line; mret (inr (f, r, p, Some s))) in
  if decide (flag = DEL_DONE) then write flag ret par
  else
    type ← judge_ini_file_linetype line;
    match type with
    | LINE_SECTION =>
        match flag with
        | DEL_SECTION | DEL_KEY =>
            b ← str_frist_constchar line 0 CONTENT_LEFT_BRACKET;
            match b with
            | None => mret (inl INIFILE_REWRITE_ERROR)
            | Some _ => write DEL_DONE ret par
            end
        | _ =>
            t ← section_test par line ret;
            match t with
            | None => mret (inl INIFILE_REWRITE_ERROR)
            | Some (true, r) =>
                match par_key par with
                | Some _ => par' ← fill_key_len par; mret (inr (DEL_KEY, r, par', None))
                | None => mret (inr (DEL_SECTION, r, par, None))
                end
            | Some (false, r) => write flag r par
            end
        end
    | LINE_KEYVALUE =>
        match flag with
        | DEL_SECTION => mret (inr (flag, ret, par, None))
        | DEL_KEY =>
            p_value ← str_frist_constchar line 0 CONTENT_EQUALITY_SIGN;
            match p_value with
            | None => mret (inl INIFILE_REWRITE_ERROR)
            | Some _ =>
                p_char ← skip_fwd is_blank line 0;
                t ← key_test par line p_char ret;
                if (t.1 : bool) then mret (inr (DEL_DONE, t.2, par, None))
                else write flag t.2 par
            end
        | _ => write flag ret par
        end
    | LINE_NOTE | LINE_BLANK => write flag ret par
    | LINE_ERROR => mret (inl INIFILE_FORMAT_ERROR)
    end.

(** The buffer is cleared only after a line was written. *)
Fixpoint delete_lines (par : INI_PARAMETER) (flag : delete_flag) (ret : Z) (buf : list Z)
    (lines : list (list Z)) (out : list Z) : outcome (Z * list Z * INI_PARAMETER) :=
  match lines with
  | [] => mret (ret, out, par)
  | l :: lines' =>
      let line := fgets_into buf l in
      r ← delete_line par flag ret line;
      match r with
      | inl e => mret (e, out, par)
      | inr (flag', ret', par', Some s) =>
          delete_lines par' flag' ret' zero_line lines' (out ++ s)
      | inr (flag', ret', par', None) =>
          delete_lines par' flag' ret' line lines' out
      end
  end.

(** ** The copy and the shell commands *)

Section with_shell.
Context `{Shell}.

(** The string behind [p_ini_file->name]. *)
Definition file_name_string (filename : pool_ptr) : M world (list Z) :=
  pm ← gets w_pool;
  s ← lift (non_null (pool_bytes pm filename));
  lift (c_str s).

(** [sprintf(cmd_str, ...); system(cmd_str);] with the 512-byte buffer. *)
Definition system_cmd (cmd : list Z) : M world unit :=
  _ ← lift (sprintf_at (replicate INIFILE_SYSTEM_CMD_LEN 0) 0 cmd);
  fs ← gets w_fs;
  modify (set_fs (shell_run cmd fs)).

(** [delete_tmp_name_file] (lines 730-735) *)
Definition delete_tmp_name_file (filename : pool_ptr) : M world unit :=
  name ← file_name_string filename;
  system_cmd (cmd_rm (name ++ tem_suff_name)).

(** [re_name_ini_file] (lines 737-742) *)
Definition re_name_ini_file (filename : pool_ptr) : M world unit :=
  name ← file_name_string filename;
  system_cmd (cmd_replace (name ++ tem_suff_name) name).

(** The frame of the three functions: open both files, run [body] on the
  content, close, and keep or drop the copy. *)
Definition rewrite_file (filename : pool_ptr) (par : INI_PARAMETER)
  (body : list Z → outcome (Z * list Z * INI_PARAMETER))
  : M world (Z * INI_PARAMETER) :=
  name ← file_name_string filename;
  let tmp_name := name ++ tem_suff_name in
  _ ← lift (sprintf_at (replicate INIFILE_FILEALL_NAME_LEN 0) 0 tmp_name);
  fs ← gets w_fs;
  r ← (match fopen_r fs name with
     | None => mret (INIFILE_NO_EXIST, par)
     | Some content =>
         match fopen_w fs tmp_name with
         | None => mret (INIFILE_NO_EXIST, par)
         | Some fs1 =>
             b ← lift (body content);
             modify (set_fs (fclose_w fs1 tmp_name b.1.2)) ;;
             mret (b.1.1, b.2)
         end
     end);
  (if r.1 <? 0 then delete_tmp_name_file filename
  else re_name_ini_file filename) ;;
  mret r.

Definition rewrite_after_update (filename : pool_ptr) (par : INI_PARAMETER)
  : M world (Z * INI_PARAMETER) :=
  match par_section par, par_key par, par_value par with
  | Some _, Some _, Some _ =>
    par ← lift (fill_section_len par);
    par ← lift (fill_key_len par);
    par ← lift (fill_value_len par);
    rewrite_file filename par (λ content,
      r ← update_lines par (false, false)
            (fgets_lines INIFILE_MAX_CONTENT_LINELEN content) [];
      mret (r, par))
  | _, _, _ => mret (INIFILE_ERROR_PARAMETER, par)
  end.

Definition rewrite_after_add (filename : pool_ptr) (par : INI_PARAMETER)
  : M world (Z * INI_PARAMETER) :=
  match par_section par with
  | None => mret (INIFILE_ERROR_PARAMETER, par)
  | Some _ =>
    par ← lift (fill_section_len par);
    rewrite_file filename par (λ content,
      let lines := fgets_lines INIFILE_MAX_CONTENT_LINELEN content in
      match par_key par with
      | None =>
          s ← add_section_line par;
          r ← add_lines par true lines s; mret (r, par)
      | Some _ =>
          par ← fill_key_len par;
          par ← fill_value_len par;
          r ← add_lines par false lines []; mret (r, par)
      end)
  end.

Definition rewrite_after_delete (filename : pool_ptr) (par : INI_PARAMETER)
  : M world (Z * INI_PARAMETER) :=
  match par_section par with
  | None => mret (INIFILE_ERROR_PARAMETER, par)
  | Some _ =>
    par ← lift (fill_section_len par);
    rewrite_file filename par (λ content,
      delete_lines par DEL_SEARCH 0 zero_line
        (fgets_lines INIFILE_MAX_CONTENT_LINELEN content) [])
  end.

(** [re_write_ini_file] (lines 744-782): a copy that writes every line
  twice; no other function calls it. *)
Fixpoint re_write_lines (lines : list (list Z)) (out : list Z) : outcome (list Z) :=
  match lines with
  | [] => mret out
  | l :: lines' =>
    s ← fwrite_line (fgets_into zero_line l);
    re_write_lines lines' (out ++ s ++ s)
  end.

Definition re_write_ini_file (filename : pool_ptr) : M world Z :=
  name ← file_name_string filename;
  let tmp_name := name ++ tem_suff_name in
  _ ← lift (sprintf_at (replicate INIFILE_FILEALL_NAME_LEN 0) 0 tmp_name);
  fs ← gets w_fs;
  match fopen_r fs name with
  | None => mret INIFILE_NO_EXIST
  | Some content =>
    match fopen_w fs tmp_name with
    | None => mret INIFILE_NO_EXIST
    | Some fs1 =>
        out ← lift (re_write_lines
                (fgets_lines INIFILE_MAX_CONTENT_LINELEN content) []);
        modify (set_fs (fclose_w fs1 tmp_name out)) ;;
        mret 0
    end
  end.
End with_shell.
