(* ===== verification/V2Api.v ===== *)
(** * inifile v2.0.0: the operations of the library

    Opening and closing a file, and reading, updating, adding and deleting
    keys and sections (v2.0.0/inifile.c, lines 1150-1542).  The operations
    that change a file hold its [file_lock] while they change the in-memory
    lists and rewrite the file. *)

From S2P Require Import Prelude CString DList FileSys V2Data V2Line V2Rewrite.
From stdpp Require Import gmap strings.

Open Scope Z_scope.

(** [ini_fd < 0 || ini_fd >= MAX_OPERATION_FILE_NUM] *)
Definition bad_fd (ini_fd : Z) : bool :=
  (ini_fd <? 0) || (Z.of_nat MAX_OPERATION_FILE_NUM <=? ini_fd).

(** ** Unlinking and clearing nodes *)

(** The key/value loop of [delete_ini_section] and [destroy_ini_source]
    (lines 1420-1434, 1510-1524). *)
Fixpoint clear_keyvals (fuel : nat) (p_keyval : option nat) : M world unit :=
  match p_keyval with
  | None => mret tt
  | Some i =>
      match fuel with
      | O => λ _, NoFuel
      | S f =>
          with_kv i (kv_set_key None) ;;
          with_kv i (kv_set_value None) ;;
          with_kv i (kv_set_pre None) ;;
          n ← get_kv i;
          match kv_last n with
          | Some j =>
              m ← get_kv j;
              match kv_pre m with
              | None => fault_with NullDeref
              | Some p =>
                  with_kv p (kv_set_last None) ;;
                  with_kv p (kv_set_flag STRUCT_NODE_UN_USED) ;;
                  clear_keyvals f (Some j)
              end
          | None =>
              with_kv i (kv_set_flag STRUCT_NODE_UN_USED) ;;
              clear_keyvals f None
          end
      end
  end.

(** The section loop of [destroy_ini_source] (lines 1507-1537). *)
Fixpoint clear_sections (fuel : nat) (p_section : option nat) : M world unit :=
  match p_section with
  | None => mret tt
  | Some i =>
      match fuel with
      | O => λ _, NoFuel
      | S f =>
          n ← get_sec i;
          clear_keyvals INIFILE_KEYVALUE_ARRAY_LEN (sec_head n) ;;
          with_sec i (sec_set_sec None) ;;
          with_sec i (sec_set_head None) ;;
          with_sec i (sec_set_pre None) ;;
          n' ← get_sec i;
          match sec_last n' with
          | Some j =>
              m ← get_sec j;
              match sec_pre m with
              | None => fault_with NullDeref
              | Some p =>
                  with_sec p (sec_set_last None) ;;
                  with_sec p (sec_set_flag STRUCT_NODE_UN_USED) ;;
                  clear_sections f (Some j)
              end
          | None =>
              with_sec i (sec_set_flag STRUCT_NODE_UN_USED) ;;
              clear_sections f None
          end
      end
  end.

(** Lines 1349-1370: take a pair out of its list and clear it. *)
Definition unlink_keyval (p_section p_keyval : nat) : M world unit :=
  n ← get_kv p_keyval;
  (match kv_pre n with
   | Some p => with_kv p (kv_set_last (kv_last n))
   | None => with_sec p_section (sec_set_head (kv_last n))
   end) ;;
  n ← get_kv p_keyval;
  (match kv_last n with
   | Some l => with_kv l (kv_set_pre (kv_pre n))
   | None =>
       match kv_pre n with
       | Some p => with_kv p (kv_set_last None)
       | None => with_sec p_section (sec_set_head None)
       end
   end) ;;
  with_kv p_keyval (kv_set_pre None) ;;
  with_kv p_keyval (kv_set_last None) ;;
  with_kv p_keyval (kv_set_key None) ;;
  with_kv p_keyval (kv_set_value None) ;;
  with_kv p_keyval (kv_set_flag STRUCT_NODE_UN_USED).

(** Lines 1396-1434: take a section out of the file's list and clear it
    with its pairs. *)
Definition unlink_section (ini_fd p_section : nat) : M world unit :=
  n ← get_sec p_section;
  (match sec_pre n with
   | Some p => with_sec p (sec_set_last (sec_last n))
   | None => with_file ini_fd (file_set_head (sec_last n))
   end) ;;
  n ← get_sec p_section;
  (match sec_last n with
   | Some l => with_sec l (sec_set_pre (sec_pre n))
   | None =>
       match sec_pre n with
       | Some p => with_sec p (sec_set_last None)
       | None => with_file ini_fd (file_set_head None)
       end
   end) ;;
  with_sec p_section (sec_set_pre None) ;;
  with_sec p_section (sec_set_last None) ;;
  with_sec p_section (sec_set_sec None) ;;
  n ← get_sec p_section;
  let p_keyval := sec_head n in
  with_sec p_section (sec_set_head None) ;;
  with_sec p_section (sec_set_flag STRUCT_NODE_UN_USED) ;;
  clear_keyvals INIFILE_KEYVALUE_ARRAY_LEN p_keyval.

(** [destroy_ini_source] (lines 1491-1542) *)
Definition destroy_ini_source (ini_fd : Z) : M world unit :=
  if bad_fd ini_fd then mret tt
  else
    let fd := Z.to_nat ini_fd in
    n ← get_file fd;
    if file_flag n =? STRUCT_NODE_IN_USED then
      clear_sections MAX_INIFILE_SECTION_NUM (file_head n) ;;
      with_file fd (file_set_name None) ;;
      with_file fd (file_set_head None) ;;
      with_file fd (file_set_flag STRUCT_NODE_UN_USED)
    else mret tt.

(** [init_ini_file] (lines 1150-1183) *)
Definition init_ini_file (filename : c_ptr) (len : Z) : M world Z :=
  ini_file_memory_init ;;
  match filename with
  | None => mret INIFILE_ERROR_PARAMETER
  | Some name =>
      index ← get_index_ini_file;
      if index <? 0 then mret index
      else
        len' ← (if len <=? 0 then lift (str_int_len filename) else mret len);
        ret ← storage_char_memory (DName (Z.to_nat index)) name len';
        if ret <? 0 then destroy_ini_source index ;; mret ret
        else
          ret ← read_analys_ini_file (Z.to_nat index) name;
          if ret <? 0 then destroy_ini_source index ;; mret ret
          else mret index
  end.

(** [get_value_ofkey] (lines 1185-1215) *)
Definition get_value_ofkey (ini_fd : Z) (parameter : option INI_PARAMETER)
  : M world pool_ptr :=
  match parameter with
  | None => mret None
  | Some par =>
      match par_section par, par_key par with
      | Some _, Some _ =>
          if bad_fd ini_fd then mret None
          else
            let fd := Z.to_nat ini_fd in
            pthread_mutex_lock (FILE_LOCK fd) ;;
            file ← get_file fd;
            p_section ← find_inifile_section (file_head file) (par_section par)
                          (par_section_len par);
            value ← (match p_section with
                     | None => mret None
                     | Some s =>
                         sec ← get_sec s;
                         p_keyval ← find_keyvalue_unsect (sec_head sec) (par_key par)
                                      (par_key_len par);
                         match p_keyval with
                         | None => mret None
                         | Some k => n ← get_kv k; mret (kv_value n)
                         end
                     end);
            pthread_mutex_unlock (FILE_LOCK fd) ;;
            mret value
      | _, _ => mret None
      end
  end.

Section with_shell.
Context `{Shell}.

(** [update_value_ofkey] (lines 1217-1254) *)
Definition update_value_ofkey (ini_fd : Z) (parameter : option INI_PARAMETER)
  : M world (Z * option INI_PARAMETER) :=
  match parameter with
  | None => mret (INIFILE_ERROR_PARAMETER, parameter)
  | Some par =>
    match par_section par, par_key par, par_value par with
    | Some _, Some _, Some value =>
        if bad_fd ini_fd then mret (INIFILE_ERROR_PARAMETER, parameter)
        else
          let fd := Z.to_nat ini_fd in
          pthread_mutex_lock (FILE_LOCK fd) ;;
          file ← get_file fd;
          p_section ← find_inifile_section (file_head file) (par_section par)
                        (par_section_len par);
          r ← (match p_section with
               | None => mret (INIFILE_SECTION_NOFOUND, par)
               | Some s =>
                   sec ← get_sec s;
                   p_keyval ← find_keyvalue_unsect (sec_head sec) (par_key par)
                                (par_key_len par);
                   match p_keyval with
                   | None => mret (INIFILE_KEYVALUE_NOFOUND, par)
                   | Some k =>
                       par ← lift (fill_value_len par);
                       ret ← storage_char_memory (DValue k) value (par_value_len par);
                       if ret <? 0 then mret (ret, par)
                       else
                         file ← get_file fd;
                         rewrite_after_update (file_name file) par
                   end
               end);
          pthread_mutex_unlock (FILE_LOCK fd) ;;
          mret (r.1, Some r.2)
    | _, _, _ => mret (INIFILE_ERROR_PARAMETER, parameter)
    end
  end.

(** The line "key=value" (lines 1283-1290). *)
Definition key_value_line (par : INI_PARAMETER) : outcome (list Z) :=
  k ← non_null (par_key par);
  line ← snprintf_at zero_line 0 (par_key_len par + 1) k;
  p_char ← find_frist_endchar line 0;
  line ← mem_write line p_char [CONTENT_EQUALITY_SIGN];
  v ← non_null (par_value par);
  snprintf_at line (p_char + 1) (par_value_len par + 1) v.

(** Lines 1293-1309: parse the line into a cell and append it. *)
Definition link_new_keyval (p_section : nat) (line : list Z) : M world Z :=
  ret ← init_line_key_val line;
  if ret <? 0 then mret ret
  else
  let p_keyval := Z.to_nat ret in
  sec ← get_sec p_section;
  (match sec_head sec with
   | Some h =>
       p_key_end ← last_keyval h;
       with_kv p_key_end (kv_set_last (Some p_keyval)) ;;
       with_kv p_keyval (kv_set_pre (Some p_key_end))
   | None => with_sec p_section (sec_set_head (Some p_keyval))
   end) ;;
  mret ret.

(** [add_value_ofkey] (lines 1256-1321) *)
Definition add_value_ofkey (ini_fd : Z) (parameter : option INI_PARAMETER)
  : M world (Z * option INI_PARAMETER) :=
  match parameter with
  | None => mret (INIFILE_ERROR_PARAMETER, parameter)
  | Some par =>
    match par_section par, par_key par, par_value par with
    | Some _, Some _, Some _ =>
        if bad_fd ini_fd then mret (INIFILE_ERROR_PARAMETER, parameter)
        else
          let fd := Z.to_nat ini_fd in
          pthread_mutex_lock (FILE_LOCK fd) ;;
          file ← get_file fd;
          p_section ← find_inifile_section (file_head file) (par_section par)
                        (par_section_len par);
          r ← (match p_section with
               | None => mret (INIFILE_SECTION_NOFOUND, par)
               | Some s =>
                   sec ← get_sec s;
                   p_keyval ← find_keyvalue_unsect (sec_head sec) (par_key par)
                                (par_key_len par);
                   match p_keyval with
                   | Some _ => mret (INIFILE_KEYVALUE_ALREAD, par)
                   | None =>
                       par ← lift (fill_key_len par);
                       par ← lift (fill_value_len par);
                       line ← lift (key_value_line par);
                       ret ← link_new_keyval s line;
                       if ret <? 0 then mret (ret, par)
                       else
                         file ← get_file fd;
                         rewrite_after_add (file_name file) par
                   end
               end);
          pthread_mutex_unlock (FILE_LOCK fd) ;;
          mret (r.1, Some r.2)
    | _, _, _ => mret (INIFILE_ERROR_PARAMETER, parameter)
    end
  end.

(** [delete_value_ofkey] (lines 1323-1375) *)
Definition delete_value_ofkey (ini_fd : Z) (parameter : option INI_PARAMETER)
  : M world (Z * option INI_PARAMETER) :=
  match parameter with
  | None => mret (INIFILE_ERROR_PARAMETER, parameter)
  | Some par =>
    match par_section par, par_key par with
    | Some _, Some _ =>
        if bad_fd ini_fd then mret (INIFILE_ERROR_PARAMETER, parameter)
        else
          let fd := Z.to_nat ini_fd in
          pthread_mutex_lock (FILE_LOCK fd) ;;
          file ← get_file fd;
          p_section ← find_inifile_section (file_head file) (par_section par)
                        (par_section_len par);
          r ← (match p_section with
               | None => mret (INIFILE_SECTION_NOFOUND, par)
               | Some s =>
                   sec ← get_sec s;
                   p_keyval ← find_keyvalue_unsect (sec_head sec) (par_key par)
                                (par_key_len par);
                   match p_keyval with
                   | None => mret (INIFILE_KEYVALUE_NOFOUND, par)
                   | Some k =>
                       unlink_keyval s k ;;
                       file ← get_file fd;
                       rewrite_after_delete (file_name file) par
                   end
               end);
          pthread_mutex_unlock (FILE_LOCK fd) ;;
          mret (r.1, Some r.2)
    | _, _ => mret (INIFILE_ERROR_PARAMETER, parameter)
    end
  end.

(** [delete_ini_section] (lines 1377-1439) *)
Definition delete_ini_section (ini_fd : Z) (parameter : option INI_PARAMETER)
  : M world (Z * option INI_PARAMETER) :=
  match parameter with
  | None => mret (INIFILE_ERROR_PARAMETER, parameter)
  | Some par =>
    match par_section par with
    | Some _ =>
        if bad_fd ini_fd then mret (INIFILE_ERROR_PARAMETER, parameter)
        else
          let fd := Z.to_nat ini_fd in
          pthread_mutex_lock (FILE_LOCK fd) ;;
          file ← get_file fd;
          p_section ← find_inifile_section (file_head file) (par_section par)
                        (par_section_len par);
          r ← (match p_section with
               | None => mret (INIFILE_SECTION_NOFOUND, par)
               | Some s =>
                   unlink_section fd s ;;
                   file ← get_file fd;
                   rewrite_after_delete (file_name file) par
               end);
          pthread_mutex_unlock (FILE_LOCK fd) ;;
          mret (r.1, Some r.2)
    | None => mret (INIFILE_ERROR_PARAMETER, parameter)
    end
  end.

(** The line "[section]" (lines 1461-1467). *)
Definition section_line (par : INI_PARAMETER) : outcome (list Z) :=
  line ← mem_write zero_line 0 [CONTENT_LEFT_BRACKET];
  s ← non_null (par_section par);
  line ← snprintf_at line 1 (par_section_len par + 1) s;
  p_char ← find_frist_endchar line 1;
  mem_write line p_char [CONTENT_RIGHT_BRACKET].

(** Lines 1469-1482: parse the line into a cell and append it. *)
Definition link_new_section (fd : nat) (line : list Z) : M world Z :=
  ret ← init_line_section line;
  if ret <? 0 then mret ret
  else
  let p_section := Z.to_nat ret in
  file ← get_file fd;
  (match file_head file with
   | None => with_file fd (file_set_head (Some p_section))
   | Some h =>
       p_sec_end ← last_section h;
       with_sec p_sec_end (sec_set_last (Some p_section)) ;;
       with_sec p_section (sec_set_pre (Some p_sec_end))
   end) ;;
  mret ret.

(** [add_ini_section] (lines 1441-1489) *)
Definition add_ini_section (ini_fd : Z) (parameter : option INI_PARAMETER)
  : M world (Z * option INI_PARAMETER) :=
  match parameter with
  | None => mret (INIFILE_ERROR_PARAMETER, parameter)
  | Some par =>
    match par_section par with
    | Some _ =>
        if bad_fd ini_fd then mret (INIFILE_ERROR_PARAMETER, parameter)
        else
          let fd := Z.to_nat ini_fd in
          pthread_mutex_lock (FILE_LOCK fd) ;;
          file ← get_file fd;
          p_section ← find_inifile_section (file_head file) (par_section par)
                        (par_section_len par);
          r ← (match p_section with
               | Some _ => mret (INIFILE_SECTION_ALREAD, par)
               | None =>
                   par ← lift (fill_section_len par);
                   line ← lift (section_line par);
                   ret ← link_new_section fd line;
                   if ret <? 0 then mret (ret, par)
                   else
                     file ← get_file fd;
                     rewrite_after_add (file_name file) par
               end);
          pthread_mutex_unlock (FILE_LOCK fd) ;;
          mret (r.1, Some r.2)
    | None => mret (INIFILE_ERROR_PARAMETER, parameter)
    end
  end.
End with_shell.

(** ** What [ini_file_info_out] (lines 1548-1577) prints *)

(** The sections of a file with their pairs, as the walk reaches them. *)
Fixpoint dump_keyvals (fuel : nat) (w : world) (p : option nat)
  : outcome (list (c_ptr * c_ptr)) :=
  match p with
  | None => mret []
  | Some i =>
      match fuel with
      | O => NoFuel
      | S f =>
          n ← deref (λ j, w_kvs w !! j) i;
          t ← dump_keyvals f w (kv_last n);
          mret ((pool_bytes (w_pool w) (kv_key n),
                 pool_bytes (w_pool w) (kv_value n)) :: t)
      end
  end.

Fixpoint dump_sections (fuel : nat) (w : world) (p : option nat)
  : outcome (list (c_ptr * list (c_ptr * c_ptr))) :=
  match p with
  | None => mret []
  | Some i =>
      match fuel with
      | O => NoFuel
      | S f =>
          n ← deref (λ j, w_secs w !! j) i;
          kvs ← dump_keyvals INIFILE_KEYVALUE_ARRAY_LEN w (sec_head n);
          t ← dump_sections f w (sec_last n);
          mret ((pool_bytes (w_pool w) (sec_sec n), kvs) :: t)
      end
  end.

Definition ini_file_info_out (ini_fd : Z) : M world (list (c_ptr * list (c_ptr * c_ptr))) :=
  if bad_fd ini_fd then mret []
  else
    n ← get_file (Z.to_nat ini_fd);
    if file_flag n =? STRUCT_NODE_IN_USED then
      w ← gets id;
      lift (dump_sections MAX_INIFILE_SECTION_NUM w (file_head n))
    else mret [].
