(* ===== verification/V2Rep.v ===== *)
(** * inifile v2.0.0: what the static arrays represent

    [pool_ok] is the invariant of the string pool and [str_at] the string a
    pool pointer stands for; cells are related to sections and pairs by the
    strings they point to.  The lemmas show that storing a string with room in
    the pool keeps every string.  V2Layout.v puts the lists together. *)

From S2P Require Import Prelude CString DList FileSys V2Data V2Line.
From stdpp Require Import gmap strings.

Open Scope Z_scope.

(** ** Strings of the pool *)

Definition pool_str (pm : MEMORY_POOL) (p : pool_ptr) : outcome (list Z) :=
  match pool_bytes pm p with Some s => c_str s | None => Fault NullDeref end.

(** The pointer lies in the part of the current half already handed out
    (or in the other half). *)
Definition allocated (pm : MEMORY_POOL) (p : pool_ptr) (len : nat) : Prop :=
  match p, pm_current pm with
  | Some (k, off), Some (k', cur) => k = k' → (off + len < cur)%nat
  | _, _ => False
  end.

Definition str_at (pm : MEMORY_POOL) (p : pool_ptr) (s : list Z) : Prop :=
  pool_str pm p = Done s ∧ allocated pm p (length s).

Definition flag_of (k : pool_id) : Z :=
  match k with POOL => INI_FILE_MEMORY_POOL_INTI | BACK_POOL => INI_FILE_MEMORY_POOL_BACK end.

(** Both halves have their size, [current] is where [curr_len] says, in the
    half [flag] names, and the rest of that half is still zero: the strings
    get no terminator of their own, they rely on it. *)
Record pool_ok (pm : MEMORY_POOL) : Prop := {
  po_len : ∀ k, length (pool_of pm k) = Z.to_nat INIFILE_SIZE_SPACE;
  po_cur : ∃ k off, pm_current pm = Some (k, off) ∧
    pm_flag pm = flag_of k ∧ pm_curr_len pm = Z.of_nat off ∧
    (Z.of_nat off < INIFILE_SIZE_SPACE) ∧
    drop off (pool_of pm k) = replicate (Z.to_nat INIFILE_SIZE_SPACE - off) 0;
}.

(** Every string of [pm] is still there in [pm']. *)
Definition pool_ext (pm pm' : MEMORY_POOL) : Prop :=
  ∀ p s, str_at pm p s → str_at pm' p s.

#[export] Instance pool_ext_preorder : PreOrder pool_ext.
Proof. split; [by intros ???|]. intros ??? H1 H2 ???. by apply H2, H1. Qed.

Lemma pool_of_set k k' b pm :
  pool_of (set_pool_of k b pm) k' = if decide (k = k') then b else pool_of pm k'.
Proof. by destruct k, k'. Qed.

Lemma str_at_nonzero pm p s : str_at pm p s → nonzero s.
Proof.
  intros [H _]. unfold pool_str in H.
  destruct (pool_bytes pm p); [by eapply c_str_nonzero|done].
Qed.

Lemma str_at_bytes pm p s :
  str_at pm p s → ∃ b, pool_bytes pm p = Some b ∧ c_str b = Done s.
Proof.
  intros [H _]. unfold pool_str in H. destruct (pool_bytes pm p); [eauto|done].
Qed.

Lemma str_at_inj pm p s t : str_at pm p s → str_at pm p t → s = t.
Proof. intros [H _] [H' _]. congruence. Qed.

(** The pool after [store_string]. *)
Definition pool_stored (pm : MEMORY_POOL) (k : pool_id) (off : nat) (s : list Z)
  : MEMORY_POOL :=
  set_current (Some (k, (off + length s + 1)%nat))
    (set_pool_of k (splice (pool_of pm k) off s)
      (set_curr_len (pm_curr_len pm + (Z.of_nat (length s) + 1)) pm)).

Lemma pool_of_stored pm k off s k' :
  pool_of (pool_stored pm k off s) k' =
  if decide (k = k') then splice (pool_of pm k) off s else pool_of pm k'.
Proof. by destruct k, k'. Qed.

Section stored.
Context (pm : MEMORY_POOL) (k : pool_id) (off : nat) (s : list Z).
Hypothesis Hok : pool_ok pm.
Hypothesis Hcur : pm_current pm = Some (k, off).
Hypothesis Hs : nonzero s.
Hypothesis Hroom : pm_curr_len pm + (Z.of_nat (length s) + 1) < INIFILE_SIZE_SPACE.

Lemma stored_fresh :
  pm_curr_len pm = Z.of_nat off ∧ pm_flag pm = flag_of k ∧
  drop off (pool_of pm k) = replicate (Z.to_nat INIFILE_SIZE_SPACE - off) 0.
Proof.
  destruct (po_cur _ Hok) as (k' & off' & H & Hf & Hl & _ & Hd).
  rewrite Hcur in H. by injection H as <- <-.
Qed.

Lemma stored_fits : (off + length s + 1 < length (pool_of pm k))%nat.
Proof.
  destruct stored_fresh as [Hl _]. rewrite (po_len _ Hok). lia.
Qed.

Lemma stored_zero : drop (off + length s)%nat (pool_of pm k) =
  replicate (Z.to_nat INIFILE_SIZE_SPACE - off - length s) 0.
Proof.
  destruct stored_fresh as (_ & _ & Hd).
  rewrite <- drop_drop, Hd, drop_replicate. done.
Qed.

Lemma pool_ok_stored : pool_ok (pool_stored pm k off s).
Proof using Hok Hcur Hroom.
  destruct stored_fresh as (Hl & Hf & Hd). pose proof stored_fits as Hfit.
  pose proof stored_zero as Hz.
  split.
  - intros k'. rewrite pool_of_stored. case_decide as E; [subst k'|].
  + rewrite length_splice by lia. apply (po_len _ Hok).
  + apply (po_len _ Hok).
  - exists k, (off + length s + 1)%nat. split; [done|].
  split; [by destruct k|]. split; [|split].
  + transitivity (pm_curr_len pm + (Z.of_nat (length s) + 1)); [by destruct k|lia].
  + lia.
  + rewrite pool_of_stored, decide_True by done.
    rewrite drop_splice_ge by lia.
    rewrite <- (drop_drop _ 1 (off + length s)), Hz, drop_replicate.
    f_equal. lia.
Qed.

Lemma pool_ext_stored : pool_ext pm (pool_stored pm k off s).
Proof using Hok Hcur Hroom.
  intros [[k' off']|] t [Ht Ha]; [|done]. unfold allocated in Ha. rewrite Hcur in Ha.
  pose proof stored_fits as Hfit. split.
  - unfold pool_str, pool_bytes in *. rewrite pool_of_stored.
  case_decide as E; [subst k'|done].
  specialize (Ha eq_refl).
  apply c_str_inv in Ht as (r & Hr & Hnz).
  assert (take (off - off') (drop off' (splice (pool_of pm k) off s)) =
          take (off - off') (drop off' (pool_of pm k))) as Heq.
  { apply list_eq. intros i.
    destruct (decide (i < off - off')%nat).
    - rewrite !lookup_take_lt, !lookup_drop by lia. apply lookup_splice_lt; lia.
    - rewrite !lookup_take_ge by lia. done. }
  rewrite <- (take_drop (off - off') (drop off' (splice _ _ _))), Heq, Hr.
  rewrite take_app_ge by lia.
  destruct (off - off' - length t)%nat as [|d] eqn:Ed; [lia|].
  cbn. rewrite <- app_assoc. cbn. by apply c_str_app.
  - cbn. intros Hk. specialize (Ha Hk). lia.
Qed.

Lemma str_at_stored : str_at (pool_stored pm k off s) (Some (k, off)) s.
Proof using Hok Hcur Hs Hroom.
  pose proof stored_fits as Hfit. split.
  - unfold pool_str, pool_bytes. rewrite pool_of_stored, decide_True by done.
  rewrite drop_splice by lia. rewrite stored_zero.
  destruct stored_fresh as (Hl & _ & _).
  destruct (Z.to_nat INIFILE_SIZE_SPACE - off - length s)%nat eqn:E; [lia|].
  cbn. by apply c_str_app.
  - cbn. intros _. lia.
Qed.
End stored.

(** ** Updates of one cell *)

Lemma with_kv_ok i f w :
  (i < length (w_kvs w))%nat →
  with_kv i f w = Done (tt, set_kvs (alter f i (w_kvs w)) w).
Proof.
  intros H. apply lookup_lt_is_Some in H as [n Hn].
  unfold with_kv, get_kv, put_kv, mbind, M_bind.
  rewrite Hn, Hn. by rewrite (insert_as_alter f _ _ n).
Qed.

Lemma with_sec_ok i f w :
  (i < length (w_secs w))%nat →
  with_sec i f w = Done (tt, set_secs (alter f i (w_secs w)) w).
Proof.
  intros H. apply lookup_lt_is_Some in H as [n Hn].
  unfold with_sec, get_sec, put_sec, mbind, M_bind.
  rewrite Hn, Hn. by rewrite (insert_as_alter f _ _ n).
Qed.

Lemma with_file_ok i f w :
  (i < length (w_files w))%nat →
  with_file i f w = Done (tt, set_files (alter f i (w_files w)) w).
Proof.
  intros H. apply lookup_lt_is_Some in H as [n Hn].
  unfold with_file, get_file, put_file, mbind, M_bind.
  rewrite Hn, Hn. by rewrite (insert_as_alter f _ _ n).
Qed.

(** The state after [store_dest]. *)
Definition dest_set (d : dest) (p : pool_ptr) (w : world) : world :=
  match d with
  | DName i => set_files (alter (file_set_name p) i (w_files w)) w
  | DSec i => set_secs (alter (sec_set_sec p) i (w_secs w)) w
  | DKey i => set_kvs (alter (kv_set_key p) i (w_kvs w)) w
  | DValue i => set_kvs (alter (kv_set_value p) i (w_kvs w)) w
  end.
Definition dest_valid (d : dest) (w : world) : Prop :=
  match d with
  | DName i => (i < length (w_files w))%nat
  | DSec i => (i < length (w_secs w))%nat
  | DKey i | DValue i => (i < length (w_kvs w))%nat
  end.

Lemma store_dest_ok d p w :
  dest_valid d w → store_dest d p w = Done (tt, dest_set d p w).
Proof. destruct d; [apply with_file_ok|apply with_sec_ok|apply with_kv_ok|apply with_kv_ok]. Qed.

(** ** Mutexes *)

Lemma lock_ok m w :
  m ∉ w_held w → pthread_mutex_lock m w = Done (tt, set_held (m :: w_held w) w).
Proof. intros H. unfold pthread_mutex_lock. by rewrite decide_False. Qed.

Lemma unlock_ok m h w :
  w_held w = m :: h → pthread_mutex_unlock m w = Done (tt, set_held h w).
Proof.
  intros H. unfold pthread_mutex_unlock. rewrite H, decide_True by set_solver.
  cbn. by rewrite decide_True.
Qed.

(** ** Storing with room in the pool *)

Lemma w_pool_dest d p w : w_pool (dest_set d p w) = w_pool w.
Proof. by destruct d. Qed.
Lemma w_held_dest d p w : w_held (dest_set d p w) = w_held w.
Proof. by destruct d. Qed.
Lemma dest_set_held d p h w : dest_set d p (set_held h w) = set_held h (dest_set d p w).
Proof. by destruct d. Qed.
Lemma dest_set_pool d p pm w : dest_set d p (set_pool pm w) = set_pool pm (dest_set d p w).
Proof. by destruct d. Qed.
Lemma dest_valid_held d h w : dest_valid d (set_held h w) ↔ dest_valid d w.
Proof. by destruct d. Qed.
Lemma dest_valid_pool d pm w : dest_valid d (set_pool pm w) ↔ dest_valid d w.
Proof. by destruct d. Qed.

Lemma add_curr_len_ok len w :
  0 <= len → 0 <= pm_curr_len (w_pool w) →
  pm_curr_len (w_pool w) + (len + 1) < INIFILE_SIZE_SPACE →
  add_curr_len len w =
  Done (tt, set_pool (set_curr_len (pm_curr_len (w_pool w) + (len + 1)) (w_pool w)) w).
Proof.
  intros H0 H1 H2. unfold add_curr_len. rewrite M_bind_gets.
  unfold INIFILE_SIZE_SPACE, INIFILE_SPACE_CHAR_LEN in *.
  rewrite (M_bind_lift _ _ _ (len + 1)).
  2:{ apply int_add_ok. unfold int_min, int_max. lia. }
  rewrite (M_bind_lift _ _ _ (pm_curr_len (w_pool w) + (len + 1))).
  2:{ apply int_add_ok. unfold int_min, int_max. lia. }
  done.
Qed.

(** With room, [storage_char_memory] appends the string to the current half
    and stores its address; nothing else changes. *)
Lemma storage_room d src len s k off w :
  pool_ok (w_pool w) → pm_current (w_pool w) = Some (k, off) →
  POOL_LOCK ∉ w_held w → dest_valid d w →
  mem_read src len = Done s →
  pm_curr_len (w_pool w) + (len + 1) < INIFILE_SIZE_SPACE →
  storage_char_memory d src len w =
  Done (0, dest_set d (Some (k, off)) (set_pool (pool_stored (w_pool w) k off s) w)).
Proof.
  intros Hok Hcur Hlock Hd Hsrc Hroom.
  pose proof (mem_read_inv _ _ _ Hsrc) as [Hs Hlen].
  assert (Hls : Z.of_nat (length s) = len).
  { subst s. rewrite length_take. lia. }
  assert (Hroom' : pm_curr_len (w_pool w) + (Z.of_nat (length s) + 1) < INIFILE_SIZE_SPACE)
    by lia.
  destruct (stored_fresh _ _ _ Hok Hcur) as (Hl & _ & _).
  pose proof (stored_fits _ _ _ _ Hok Hcur Hroom') as Hfit.
  unfold storage_char_memory.
  rewrite (M_bind_done _ _ _ _ _ (lock_ok _ _ Hlock)).
  erewrite M_bind_done by (apply add_curr_len_ok; cbn; lia).
  cbn [w_pool set_held set_pool].
  rewrite M_bind_gets. cbn [w_pool set_pool pm_curr_len set_curr_len].
  rewrite (proj2 (Z.leb_gt _ _)) by lia.
  rewrite M_bind_ret. cbn [Z.ltb Z.compare].
  unfold store_string at 1.
  set (w1 := set_pool _ _).
  assert (Hw1 : pm_current (w_pool w1) = Some (k, off)) by done.
  erewrite M_bind_done; cycle 1.
  { rewrite M_bind_gets, Hw1. rewrite (M_bind_lift _ _ _ _ Hsrc).
    erewrite M_bind_lift.
    2:{ apply mem_write_ok. destruct k; cbn in *; lia. }
    rewrite M_bind_modify.
    erewrite M_bind_done by (apply store_dest_ok; by destruct d).
    rewrite M_bind_gets. done. }
  unfold modify. erewrite M_bind_done; cycle 1.
  { apply unlock_ok with (h := w_held w). cbn. by rewrite w_held_dest. }
  unfold pool_stored, INIFILE_SPACE_CHAR_LEN.
  replace (Z.to_nat (len + 1)) with (length s + 1)%nat by lia.
  subst w1. rewrite <- Hls, Nat.add_assoc.
  destruct w, d, k; done.
Qed.
