(* ===== verification/V2Parse.v ===== *)
(** * inifile v2.0.0: what a line means

    [parse_pair] and [parse_section] say, on the text of a line, which key
    and value or which section name it carries.  [init_line_key_val] and
    [init_line_section] are shown to compute them, to store the strings and
    to fill a free cell; the last part is about storing strings in the pool. *)

From S2P Require Import Prelude CString DList FileSys V2Data V2Line V2Rewrite V2Api V2Rep.
From stdpp Require Import gmap strings.

Open Scope Z_scope.

(** ** Trimming *)

Definition trim_l (f : Z → bool) (s : list Z) : list Z := drop (span_len f s) s.
Definition trim_r (f : Z → bool) (s : list Z) : list Z := reverse (trim_l f (reverse s)).
(** The text before the first [c]. *)
Definition before (c : Z) (s : list Z) : list Z :=
  match index_of c s with Some i => take i s | None => s end.

Lemma trim_l_cons f c s : trim_l f (c :: s) = if f c then trim_l f s else c :: s.
Proof. unfold trim_l. cbn. by destruct (f c). Qed.

Lemma trim_r_snoc f s c : trim_r f (s ++ [c]) = if f c then trim_r f s else s ++ [c].
Proof.
  unfold trim_r. rewrite reverse_snoc, trim_l_cons. destruct (f c); [done|].
  by rewrite reverse_cons, reverse_involutive.
Qed.

Lemma trim_r_nil f : trim_r f [] = [].
Proof. done. Qed.

(** What was kept ends in a byte that stops the trimming. *)
Lemma trim_r_last f s : trim_r f s = [] ∨ ∃ l c, trim_r f s = l ++ [c] ∧ f c = false.
Proof.
  induction s as [|c s IH] using rev_ind; [by left|].
  rewrite trim_r_snoc. destruct (f c) eqn:E; [done|]. right. eauto.
Qed.

Lemma trim_r_prefix f s : trim_r f s `prefix_of` s.
Proof.
  induction s as [|c s IH] using rev_ind; [done|].
  rewrite trim_r_snoc. destruct (f c); [|done]. by apply prefix_app_r.
Qed.

Lemma trim_r_stop f a c x : f c = false → trim_r f (a ++ c :: x) = a ++ c :: trim_r f x.
Proof.
  intros Hc. induction x as [|d x IH] using rev_ind.
  - rewrite trim_r_snoc, Hc. done.
  - rewrite app_comm_cons, app_assoc, !trim_r_snoc. destruct (f d); [done|].
    by rewrite <- app_assoc.
Qed.

(** Scanning backwards finds the end of the trimmed text. *)
Lemma skip_back_trim f b q :
  (q < length b)%nat → trim_r f (take (S q) b) ≠ [] →
  skip_back f b q = Done (length (trim_r f (take (S q) b)) - 1)%nat.
Proof.
  induction q as [|q IH]; intros Hq Hr;
    apply lookup_lt_is_Some in Hq as [c Hc];
    rewrite (take_S_r _ _ _ Hc) in Hr |- *; rewrite trim_r_snoc in Hr |- *;
    cbn [skip_back]; rewrite (rd_ok _ _ _ Hc); cbn; destruct (f c).
  - done.
  - done.
  - apply IH; [apply lookup_lt_Some in Hc; lia|done].
  - apply lookup_lt_Some in Hc. rewrite length_app, length_take. cbn [length]. f_equal. lia.
Qed.

(** It runs off the front when there is nothing to stop it. *)
Lemma skip_back_off f b q :
  (q < length b)%nat → trim_r f (take (S q) b) = [] → skip_back f b q = Fault OutOfBounds.
Proof.
  induction q as [|q IH]; intros Hq Hr;
    apply lookup_lt_is_Some in Hq as [c Hc];
    rewrite (take_S_r _ _ _ Hc) in Hr; rewrite trim_r_snoc in Hr;
    cbn [skip_back]; rewrite (rd_ok _ _ _ Hc); cbn; destruct (f c).
  - done.
  - by destruct (take 0 b).
  - apply IH; [apply lookup_lt_Some in Hc; lia|done].
  - by destruct (take (S q) b).
Qed.

(** A prefix with a byte that stops [f] has the same leading run. *)
Lemma span_len_prefix f l c r :
  f c = false → span_len f ((l ++ [c]) ++ r) = span_len f (l ++ [c]).
Proof.
  intros Hc. induction l as [|d l IH]; cbn; [by rewrite Hc|].
  by destruct (f d); rewrite ?IH.
Qed.

Lemma span_len_stops f l c : f c = false → (span_len f (l ++ [c]) ≤ length l)%nat.
Proof.
  intros Hc. induction l as [|d l IH]; cbn; [by rewrite Hc|]. destruct (f d); lia.
Qed.

(** A byte comes before position [e] exactly when it is among the first [e]. *)
Lemma index_of_before c s e :
  match index_of c s with Some j => (j <? e)%nat | None => false end =
  bool_decide (c ∈ take e s).
Proof.
  destruct (index_of c s) as [j|] eqn:Ej.
  - apply index_of_Some in Ej as [H1 H2].
    destruct (Nat.ltb_spec j e); symmetry;
      [apply bool_decide_eq_true|apply bool_decide_eq_false].
    + apply list_elem_of_lookup. exists j. by rewrite lookup_take_lt.
    + intros (k & Hk)%list_elem_of_lookup.
      pose proof (lookup_lt_Some _ _ _ Hk) as Hlt. rewrite length_take in Hlt.
      rewrite lookup_take_lt in Hk by lia. apply (H2 k); [lia|done].
  - apply index_of_None in Ej. symmetry. apply bool_decide_eq_false.
    intros (k & Hk)%list_elem_of_lookup. apply Ej.
    pose proof (lookup_lt_Some _ _ _ Hk) as Hlt. rewrite length_take in Hlt.
    rewrite lookup_take_lt in Hk by lia. by eapply list_elem_of_lookup_2.
Qed.

Lemma index_of_after c d s e :
  index_of d s = Some e → c ≠ d → c ∉ take e s →
  match index_of c s with Some j => (e < j)%nat | None => True end.
Proof.
  intros He Hcd Hc. pose proof (index_of_before c s e) as H.
  rewrite bool_decide_eq_false_2 in H by done.
  destruct (index_of c s) as [j|] eqn:Ej; [|done].
  apply Nat.ltb_ge in H. apply index_of_Some in He as [He _], Ej as [Ej _].
  destruct (decide (j = e)) as [->|]; [congruence|lia].
Qed.

(** ** Key/value lines *)

Definition parse_pair (t : list Z) : option (list Z * list Z) :=
  match index_of CONTENT_EQUALITY_SIGN t with
  | None => None
  | Some e =>
      if decide (CONTENT_COMMA_SIGN ∈ take e t) then None
      else
        let k := trim_l is_blank (trim_r is_blank (take e t)) in
        let v := trim_l is_blank (trim_r is_blank_nl
                   (before CONTENT_COMMA_SIGN (drop (S e) t))) in
        match k, v with
        | _ :: _, _ :: _ => Some (k, v)
        | _, _ => None
        end
  end.

(** The text before the equality sign is missing or is not all blanks. *)
Definition key_text_ok (t : list Z) : Prop :=
  match index_of CONTENT_EQUALITY_SIGN t with
  | Some (S e) => trim_r is_blank (take (S e) t) ≠ []
  | _ => True
  end.

Lemma trim_blank_nonempty f g s :
  (∀ c, g c = true → f c = true) → trim_l g (trim_r f s) = [] → trim_r f s = [].
Proof.
  intros Hfg H. destruct (trim_r_last f s) as [E|(l & c & E & Hc)]; [done|].
  rewrite E in H. unfold trim_l in H. exfalso.
  apply (f_equal length) in H. rewrite length_drop, length_app in H. cbn in H.
  assert (g c = false) as Hg by (destruct (g c) eqn:Eg; [by rewrite Hfg in Hc|done]).
  pose proof (span_len_stops g l c Hg). lia.
Qed.

Section key_part.
Context (line t : list Z) (e : nat).
Hypothesis Ht : c_str line = Done t.
Hypothesis He : index_of CONTENT_EQUALITY_SIGN t = Some e.
Hypothesis Hpos : (0 < e)%nat.

Lemma line_shape : ∃ r, line = t ++ 0 :: r ∧ (e < length t)%nat ∧
  t = take e t ++ CONTENT_EQUALITY_SIGN :: drop (S e) t.
Proof using Ht He.
  destruct (c_str_inv _ _ Ht) as (r & -> & _). pose proof (index_of_lt _ _ _ He).
  exists r. split; [done|]. split; [done|].
  apply index_of_Some in He as [He1 _]. by rewrite take_drop_middle.
Qed.

(** Lines 515-524: where the key starts and ends. *)
Lemma key_start : skip_fwd is_blank line 0 = Done (span_len is_blank t).
Proof using Ht. by rewrite (skip_fwd_spec is_blank line t 0 Ht). Qed.

Lemma key_end :
  trim_r is_blank (take e t) ≠ [] →
  skip_back is_blank line (e - 1) = Done (length (trim_r is_blank (take e t)) - 1)%nat.
Proof using Ht He Hpos.
  intros Hk. destruct line_shape as (r & -> & Hlt & _).
  assert (take (S (e - 1)) (t ++ 0 :: r) = take e t) as Hq.
  { replace (S (e - 1)) with e by lia. by rewrite take_app_le by lia. }
  rewrite <- Hq in Hk |- *. apply skip_back_trim; [rewrite length_app; lia|done].
Qed.

Lemma key_end_off :
  trim_r is_blank (take e t) = [] → skip_back is_blank line (e - 1) = Fault OutOfBounds.
Proof using Ht He Hpos.
  intros Hk. destruct line_shape as (r & -> & Hlt & _). apply skip_back_off.
  - rewrite length_app. lia.
  - replace (S (e - 1)) with e by lia. by rewrite take_app_le by lia.
Qed.

(** The key is what lies between. *)
Lemma key_text :
  let r := trim_r is_blank (take e t) in
  let p := span_len is_blank t in
  r ≠ [] →
  (p < length r)%nat ∧
  mem_read (drop p line) (Z.of_nat (length r - 1) - Z.of_nat p + 1) =
  Done (trim_l is_blank r) ∧
  length (trim_l is_blank r) = (length r - p)%nat.
Proof using Ht He Hpos.
  intros r p Hr. destruct line_shape as (rest & -> & Hlt & _).
  destruct (trim_r_last is_blank (take e t)) as [?|(l & c & E & Hc)]; [done|].
  fold r in E.
  assert (∃ u, t = r ++ u) as (u & Hu).
  { destruct (trim_r_prefix is_blank (take e t)) as [u Hu]. fold r in Hu.
  exists (u ++ drop e t). by rewrite app_assoc, <- Hu, take_drop. }
  assert (p = span_len is_blank r) as Hp.
  { subst p. rewrite Hu, E. by apply span_len_prefix. }
  assert (p < length r)%nat as Hplt.
  { rewrite Hp, E, length_app. pose proof (span_len_stops _ l _ Hc). cbn. lia. }
  split; [done|].
  assert (length (trim_l is_blank r) = (length r - p)%nat) as Hlen.
  { unfold trim_l. by rewrite length_drop, Hp. }
  split; [|done].
  rewrite Hu, <- app_assoc, drop_app_le by lia. unfold trim_l. rewrite <- Hp.
  rewrite mem_read_ok by (rewrite length_app, length_drop; lia).
  rewrite take_app_le by (rewrite length_drop; lia).
  rewrite take_ge by (rewrite length_drop; lia). done.
Qed.
End key_part.

Section value_part.
Context (line t : list Z) (e : nat).
Hypothesis Ht : c_str line = Done t.
Hypothesis He : index_of CONTENT_EQUALITY_SIGN t = Some e.

Let comma : option nat := index_of CONTENT_COMMA_SIGN t.
Hypothesis Hcomma : match comma with Some c => (e < c)%nat | None => True end.

(** Where the value's text stops. *)
Let stop : nat := match comma with Some c => c | None => length t end.
Definition value_text : list Z := before CONTENT_COMMA_SIGN (drop (S e) t).

Lemma value_stop : (S e <= stop <= length t)%nat ∧ value_text = drop (S e) (take stop t).
Proof.
  pose proof (index_of_lt _ _ _ He). unfold value_text, before, stop, comma in *.
  destruct (index_of CONTENT_COMMA_SIGN t) as [c|] eqn:Ec.
  - pose proof (index_of_lt _ _ _ Ec). split; [lia|].
  assert (CONTENT_COMMA_SIGN ∉ take (S e) t) as Hni.
  { intros (j & Hj)%list_elem_of_lookup. pose proof (lookup_lt_Some _ _ _ Hj) as Hjl.
    rewrite length_take in Hjl. rewrite lookup_take_lt in Hj by lia.
    apply index_of_Some in Ec as [_ Hf]. apply (Hf j); [lia|done]. }
  rewrite <- (take_drop (S e) t) in Ec. rewrite index_of_app_r in Ec by done.
  destruct (index_of CONTENT_COMMA_SIGN (drop (S e) t)) as [i|]; [|done].
  cbn [fmap option_fmap option_map] in Ec. injection Ec as <-.
  rewrite length_take, skipn_firstn_comm. f_equal. lia.
  - split; [lia|]. rewrite take_ge by lia.
  assert (CONTENT_COMMA_SIGN ∉ drop (S e) t) as ->%index_of_None; [|done].
  apply index_of_None in Ec. intros (j & Hj)%list_elem_of_lookup. apply Ec.
  rewrite lookup_drop in Hj. by eapply list_elem_of_lookup_2.
Qed.

Lemma value_last :
  skip_back is_blank_nl line (stop - 1) =
  Done (e + length (trim_r is_blank_nl value_text))%nat.
Proof.
  destruct value_stop as [Hs ->]. destruct (c_str_inv _ _ Ht) as (r & -> & _).
  pose proof (index_of_lt _ _ _ He). apply index_of_Some in He as [Hc _].
  assert (take (S (stop - 1)) (t ++ 0 :: r) =
        take e t ++ CONTENT_EQUALITY_SIGN :: drop (S e) (take stop t)) as Hq.
  { replace (S (stop - 1)) with stop by lia. rewrite take_app_le by lia.
  rewrite <- (take_drop_middle (take stop t) e CONTENT_EQUALITY_SIGN) at 1.
  - rewrite take_take. do 2 f_equal. lia.
  - rewrite lookup_take_lt by lia. done. }
  rewrite skip_back_trim.
  - rewrite Hq, trim_r_stop by done. rewrite length_app, length_take. cbn [length].
  f_equal. lia.
  - rewrite length_app. lia.
  - rewrite Hq, trim_r_stop by done. by destruct (take e t).
Qed.

Lemma value_start :
  skip_fwd is_blank (drop (e + 1) line) (e + 1) =
  Done (e + 1 + span_len is_blank (drop (S e) t))%nat.
Proof.
  pose proof (index_of_lt _ _ _ He). rewrite !Nat.add_1_r.
  erewrite skip_fwd_spec; [done|apply c_str_drop; [done|lia]|done].
Qed.

Lemma value_read :
  let r := trim_r is_blank_nl value_text in
  let p := span_len is_blank (drop (S e) t) in
  match trim_l is_blank r with
  | [] => (e + length r < e + 1 + p)%nat
  | v => (e + 1 + p <= e + length r)%nat ∧
    mem_read (drop (e + 1 + p) line)
      (Z.of_nat (e + length r) - Z.of_nat (e + 1 + p) + 1) = Done v
  end.
Proof.
  intros r p. destruct value_stop as [Hs Hv].
  destruct (trim_r_last is_blank_nl value_text) as [E|(l & c & E & Hc)]; fold r in E.
  { rewrite E. cbn. lia. }
  assert (is_blank c = false) as Hb.
  { unfold is_blank, is_blank_nl in *. bool_to_prop. apply orb_false_iff.
  split; by apply Z.eqb_neq. }
  assert (∃ u, drop (S e) t = r ++ u) as (u & Hu).
  { destruct (trim_r_prefix is_blank_nl value_text) as [u Hu]. fold r in Hu.
  rewrite Hv in Hu. exists (u ++ drop stop t). rewrite app_assoc, <- Hu.
  rewrite <- (take_drop stop t) at 1. rewrite drop_app_le; [done|].
  rewrite length_take. lia. }
  assert (p = span_len is_blank r) as Hp.
  { subst p. rewrite Hu, E. by apply span_len_prefix. }
  assert (p < length r)%nat as Hplt.
  { rewrite Hp, E, length_app. pose proof (span_len_stops _ l _ Hb). cbn. lia. }
  assert (length (trim_l is_blank r) = (length r - p)%nat) as Hlen.
  { unfold trim_l. by rewrite length_drop, Hp. }
  destruct (trim_l is_blank r) as [|v vs] eqn:Ev; [cbn in Hlen; lia|].
  split; [lia|]. rewrite <- Ev. destruct (c_str_inv _ _ Ht) as (rest & -> & _).
  rewrite drop_app_le by (apply index_of_lt in He; apply (f_equal length) in Hu;
  rewrite length_drop, length_app in Hu; lia).
  replace (drop (e + 1 + p) t) with (drop p (drop (S e) t))
  by (rewrite drop_drop; f_equal; lia).
  rewrite Hu, drop_app_le by lia. unfold trim_l. rewrite <- Hp, <- app_assoc.
  rewrite mem_read_ok by (rewrite length_app, length_drop; lia).
  rewrite take_app_le by (rewrite length_drop; lia).
  rewrite take_ge by (rewrite length_drop; lia). done.
Qed.
End value_part.

(** ** Section lines *)

(** The text between the brackets; the code demands at least two bytes. *)
Definition parse_section (t : list Z) : option (list Z) :=
  match index_of CONTENT_LEFT_BRACKET t, index_of CONTENT_RIGHT_BRACKET t with
  | Some p, Some q => if (p + 2 <? q)%nat then Some (take (q - p - 1) (drop (p + 1) t)) else None
  | _, _ => None
  end.

Lemma section_read line t p q :
  c_str line = Done t → index_of CONTENT_RIGHT_BRACKET t = Some q → (p + 2 < q)%nat →
  mem_read (drop (p + 1) line) ((Z.of_nat q - 1) - (Z.of_nat p + 1) + 1) =
    Done (take (q - p - 1) (drop (p + 1) t)) ∧
  (length (take (q - p - 1) (drop (p + 1) t)) < length t)%nat.
Proof.
  intros Ht Hq Hpq. pose proof (index_of_lt _ _ _ Hq).
  destruct (c_str_inv _ _ Ht) as (r & -> & _).
  rewrite mem_read_ok by (rewrite length_drop, length_app; lia).
  rewrite drop_app_le by lia. rewrite take_app_le by (rewrite length_drop; lia).
  replace (Z.to_nat _) with (q - p - 1)%nat by lia. split; [done|].
  rewrite length_take, length_drop. lia.
Qed.

(** ** Printing and parsing back *)

Definition key_ok (k : list Z) : Prop :=
  CONTENT_EQUALITY_SIGN ∉ k ∧ CONTENT_COMMA_SIGN ∉ k ∧ k ≠ [] ∧
  trim_l is_blank (trim_r is_blank k) = k.
Definition value_ok (v : list Z) : Prop :=
  CONTENT_COMMA_SIGN ∉ v ∧ v ≠ [] ∧ trim_l is_blank (trim_r is_blank_nl v) = v.
Definition section_ok (s : list Z) : Prop :=
  CONTENT_LEFT_BRACKET ∉ s ∧ CONTENT_RIGHT_BRACKET ∉ s ∧ (2 ≤ length s)%nat.

Definition pair_text (k v : list Z) : list Z := k ++ CONTENT_EQUALITY_SIGN :: v.
Definition section_text (s : list Z) : list Z :=
  CONTENT_LEFT_BRACKET :: s ++ [CONTENT_RIGHT_BRACKET].

#[export] Instance key_ok_dec k : Decision (key_ok k).
Proof. unfold key_ok. apply _. Defined.
#[export] Instance value_ok_dec v : Decision (value_ok v).
Proof. unfold value_ok. apply _. Defined.
#[export] Instance section_ok_dec s : Decision (section_ok s).
Proof. unfold section_ok. apply _. Defined.

Lemma before_fresh c s : c ∉ s → before c s = s.
Proof. intros H. unfold before. by rewrite (proj2 (index_of_None c s) H). Qed.

Lemma parse_pair_print k v :
  key_ok k → value_ok v → parse_pair (pair_text k v) = Some (k, v).
Proof.
  intros (He & Hc & Hk & Hkt) (Hvc & Hv & Hvt). unfold parse_pair, pair_text.
  rewrite index_of_fresh by done. rewrite take_app_length.
  rewrite decide_False by done. rewrite Hkt.
  rewrite drop_app_ge by lia. replace (S (length k) - length k)%nat with 1%nat by lia.
  rewrite skipn_cons, drop_0, before_fresh by done. rewrite Hvt. by destruct k, v.
Qed.

Lemma key_text_ok_print k v : key_ok k → key_text_ok (pair_text k v).
Proof.
  intros (He & _ & Hk & Hkt). unfold key_text_ok, pair_text. rewrite index_of_fresh by done.
  destruct k as [|c k]; [done|]. cbn [length].
  change (S (length k)) with (length (c :: k)). rewrite take_app_length.
  intros E. rewrite E in Hkt. done.
Qed.

Lemma parse_section_print s : section_ok s → parse_section (section_text s) = Some s.
Proof.
  intros (Hl & Hr & Hlen). unfold parse_section, section_text.
  cbn [index_of]. rewrite Z.eqb_refl.
  cbn [index_of Z.eqb CONTENT_LEFT_BRACKET CONTENT_RIGHT_BRACKET Pos.eqb].
  rewrite index_of_fresh by done. cbn [fmap option_fmap option_map].
  rewrite (proj2 (Nat.ltb_lt _ _)) by lia.
  change (drop (0 + 1) (CONTENT_LEFT_BRACKET :: s ++ [CONTENT_RIGHT_BRACKET]))
    with (s ++ [CONTENT_RIGHT_BRACKET]).
  replace (S (length s) - 0 - 1)%nat with (length s) by lia.
  by rewrite take_app_length.
Qed.

(** ** inifile v2.0.0: parsing a line into a cell

    With room in the pool and a free cell, [init_line_key_val] and
    [init_line_section] store the key and value, or the section name, that
    the line means (V2Parse.v) and return the cell's index; on a malformed
    line they return [INIFILE_FORMAT_ERROR] and the cell is free again. *)

(** ** Storing one string *)

Lemma store_ok d src len s w :
  pool_ok (w_pool w) → POOL_LOCK ∉ w_held w → dest_valid d w →
  mem_read src len = Done s → nonzero s →
  pm_curr_len (w_pool w) + (Z.of_nat (length s) + 1) < INIFILE_SIZE_SPACE →
  ∃ p pm, storage_char_memory d src len w = Done (0, dest_set d p (set_pool pm w)) ∧
    pool_ok pm ∧ pool_ext (w_pool w) pm ∧ str_at pm p s ∧
    pm_curr_len pm = pm_curr_len (w_pool w) + (Z.of_nat (length s) + 1).
Proof.
  intros Hok Hlock Hd Hs Hnz Hroom.
  destruct (po_cur _ Hok) as (k & off & Hcur & _).
  assert (Z.of_nat (length s) = len) as Hlen.
  { apply mem_read_inv in Hs as [-> Hl]. rewrite length_take. lia. }
  eexists _, _. split; [apply (storage_room d src len s k off w); try done; lia|].
  split; [by apply pool_ok_stored|]. split; [by apply pool_ext_stored|].
  split; [by apply str_at_stored|]. by destruct k.
Qed.

(** ** Allocation *)

Lemma first_unused_Some {N} (flag : N → Z) arr i :
  first_unused flag arr = Some i →
  ∃ n, arr !! i = Some n ∧ flag n = STRUCT_NODE_UN_USED.
Proof.
  revert i; induction arr as [|n arr IH]; intros i; cbn; [done|].
  destruct (Z.eqb_spec (flag n) STRUCT_NODE_UN_USED) as [E|E].
  - intros [= <-]. by exists n.
  - intros (j & Hj & ->)%fmap_Some. by apply IH.
Qed.

Lemma first_unused_None {N} (flag : N → Z) arr i n :
  first_unused flag arr = None → arr !! i = Some n → flag n ≠ STRUCT_NODE_UN_USED.
Proof.
  revert i; induction arr as [|m arr IH]; intros i; cbn; [done|].
  destruct (Z.eqb_spec (flag m) STRUCT_NODE_UN_USED) as [E|E]; [done|].
  intros H%fmap_None. destruct i as [|i]; cbn; [by intros [= <-]|by apply IH].
Qed.

(** The other array: the search returns the lowest free cell. *)
Lemma first_unused_least {N} (flag : N → Z) arr i j n :
  first_unused flag arr = Some i → (j < i)%nat → arr !! j = Some n →
  flag n ≠ STRUCT_NODE_UN_USED.
Proof.
  revert i j; induction arr as [|m arr IH]; intros i j; cbn; [done|].
  destruct (Z.eqb_spec (flag m) STRUCT_NODE_UN_USED) as [E|E].
  - intros [= <-]. lia.
  - intros (k & Hk & ->)%fmap_Some Hj. destruct j as [|j]; cbn; [by intros [= <-]|].
    apply (IH k); [done|lia].
Qed.

Lemma held_again w : set_held (w_held w) w = w.
Proof. by destruct w. Qed.

Lemma get_index_ini_keyvalue_ok i w :
  KEYVAL_ARRAY_LOCK ∉ w_held w → first_unused kv_flag (w_kvs w) = Some i →
  get_index_ini_keyvalue w =
  Done (Z.of_nat i, set_kvs (alter (kv_set_flag STRUCT_NODE_IN_USED) i (w_kvs w)) w).
Proof.
  intros Hl Hi. unfold get_index_ini_keyvalue.
  destruct (first_unused_Some _ _ _ Hi) as (n & Hn & _).
  run (lock_ok _ _ Hl). rewrite M_bind_gets. cbn [w_kvs set_held]. rewrite Hi.
  erewrite M_bind_done.
  2:{ erewrite M_bind_done by (apply with_kv_ok; by eapply lookup_lt_Some). done. }
  erewrite M_bind_done by (by eapply unlock_ok).
  by destruct w.
Qed.

Lemma get_index_ini_section_ok i w :
  SECTION_ARRAY_LOCK ∉ w_held w → first_unused sec_flag (w_secs w) = Some i →
  get_index_ini_section w =
  Done (Z.of_nat i, set_secs (alter (sec_set_flag STRUCT_NODE_IN_USED) i (w_secs w)) w).
Proof.
  intros Hl Hi. unfold get_index_ini_section.
  destruct (first_unused_Some _ _ _ Hi) as (n & Hn & _).
  run (lock_ok _ _ Hl). rewrite M_bind_gets. cbn [w_secs set_held]. rewrite Hi.
  erewrite M_bind_done.
  2:{ erewrite M_bind_done by (apply with_sec_ok; by eapply lookup_lt_Some). done. }
  erewrite M_bind_done by (by eapply unlock_ok).
  by destruct w.
Qed.

Lemma get_index_ini_file_ok i w :
  FILE_ARRAY_LOCK ∉ w_held w → first_unused file_flag (w_files w) = Some i →
  get_index_ini_file w =
  Done (Z.of_nat i, set_files (alter (file_set_flag STRUCT_NODE_IN_USED) i (w_files w)) w).
Proof.
  intros Hl Hi. unfold get_index_ini_file.
  destruct (first_unused_Some _ _ _ Hi) as (n & Hn & _).
  run (lock_ok _ _ Hl). rewrite M_bind_gets. cbn [w_files set_held]. rewrite Hi.
  erewrite M_bind_done.
  2:{ erewrite M_bind_done by (apply with_file_ok; by eapply lookup_lt_Some). done. }
  erewrite M_bind_done by (by eapply unlock_ok).
  by destruct w.
Qed.

(** ** Key/value lines *)

(** The pool may have grown; nothing else but the arrays changed. *)
Record grown (w w' : world) (n : Z) : Prop := {
  gr_pool : pool_ok (w_pool w');
  gr_ext : pool_ext (w_pool w) (w_pool w');
  gr_files : w_files w' = w_files w;
  gr_held : w_held w' = w_held w;
  gr_fs : w_fs w' = w_fs w;
  gr_room : pm_curr_len (w_pool w') <= pm_curr_len (w_pool w) + n;
}.

(** The cell [i] holds the pair. *)
Definition kv_stored (w w' : world) (i : nat) (k v : list Z) : Prop :=
  w_secs w' = w_secs w ∧
  ∃ kp vp, str_at (w_pool w') kp k ∧ str_at (w_pool w') vp v ∧
    w_kvs w' = alter (λ n, Build_INI_KEYVALUE STRUCT_NODE_IN_USED kp vp
                             (kv_pre n) (kv_last n)) i (w_kvs w).

(** The cell [i] is free again, with its links as they were. *)
Definition kv_rejected (w w' : world) (i : nat) : Prop :=
  w_secs w' = w_secs w ∧
  ∃ f, w_kvs w' = alter f i (w_kvs w) ∧ ∀ n, kv_flag n = STRUCT_NODE_UN_USED →
    kv_flag (f n) = kv_flag n ∧ kv_pre (f n) = kv_pre n ∧ kv_last (f n) = kv_last n.

Lemma grown_refl w n : pool_ok (w_pool w) → 0 <= n → grown w w n.
Proof. intros Hok Hn. split; try done. lia. Qed.

Lemma kv_rejected_refl w i : kv_rejected w w i.
Proof.
  split; [done|]. exists id. split; [|done]. apply list_eq. intros j.
  destruct (decide (i = j)) as [<-|].
  - rewrite list_lookup_alter_eq. by destruct (w_kvs w !! i).
  - by rewrite list_lookup_alter_ne.
Qed.

Lemma nonzero_trim_l f s : nonzero s → nonzero (trim_l f s).
Proof. apply Forall_drop. Qed.
Lemma nonzero_trim_r f s : nonzero s → nonzero (trim_r f s).
Proof.
  intros Hs. destruct (trim_r_prefix f s) as [u Hu]. unfold nonzero in *.
  rewrite Hu in Hs. by apply Forall_app in Hs as [? _].
Qed.
Lemma length_trim_l f s : (length (trim_l f s) <= length s)%nat.
Proof. unfold trim_l. rewrite length_drop. lia. Qed.
Lemma length_trim_r f s : (length (trim_r f s) <= length s)%nat.
Proof. by apply prefix_length, trim_r_prefix. Qed.

Section line_val.
Context (w : world) (line t : list Z) (e i : nat).
Hypothesis Hok : pool_ok (w_pool w).
Hypothesis Hlock : POOL_LOCK ∉ w_held w.
Hypothesis Hi : (i < length (w_kvs w))%nat.
Hypothesis Ht : c_str line = Done t.
Hypothesis He : index_of CONTENT_EQUALITY_SIGN t = Some e.
Hypothesis Hcomma :
  match index_of CONTENT_COMMA_SIGN t with Some c => (e < c)%nat | None => True end.

Let v := trim_l is_blank (trim_r is_blank_nl (value_text t e)).
Hypothesis Hroom :
  pm_curr_len (w_pool w) + (Z.of_nat (length v) + 1) < INIFILE_SIZE_SPACE.

Lemma value_nonzero : nonzero v.
Proof using Ht He Hcomma.
  apply nonzero_trim_l, nonzero_trim_r.
  destruct (value_stop t e He Hcomma) as [_ ->].
  by apply Forall_drop, Forall_take, (c_str_nonzero line).
Qed.

Lemma init_line_val_run :
  match v with
  | [] => init_line_val line e (index_of CONTENT_COMMA_SIGN t) i w =
    Done (INIFILE_FORMAT_ERROR,
          set_kvs (alter (kv_set_flag STRUCT_NODE_UN_USED) i (w_kvs w)) w)
  | _ => ∃ vp pm, init_line_val line e (index_of CONTENT_COMMA_SIGN t) i w =
    Done (Z.of_nat i, set_kvs (alter (kv_set_value vp) i (w_kvs w)) (set_pool pm w)) ∧
    pool_ok pm ∧ pool_ext (w_pool w) pm ∧ str_at pm vp v ∧
    pm_curr_len pm = pm_curr_len (w_pool w) + (Z.of_nat (length v) + 1)
  end.
Proof.
  pose proof value_nonzero as Hnz. pose proof (index_of_lt _ _ _ He) as Hlt.
  pose proof (value_last line t e Ht He Hcomma) as Hlast.
  pose proof (value_start line t e Ht He) as Hstart.
  pose proof (value_read line t e Ht He Hcomma) as Hread. cbv zeta in Hread.
  fold v in Hread. unfold init_line_val.
  erewrite (M_bind_done _ _ _ (match index_of CONTENT_COMMA_SIGN t with
                             | Some c => c | None => length t end)).
  2:{ destruct (index_of CONTENT_COMMA_SIGN t); [done|]. unfold lift, find_frist_endchar.
    rewrite (str_scan_len_spec _ (drop e t)) by (apply c_str_drop; [done|lia]).
    cbn. rewrite length_drop. do 3 f_equal. lia. }
  rewrite (M_bind_lift _ _ _ _ Hlast), (M_bind_lift _ _ _ _ Hstart).
  destruct v as [|c vs] eqn:Ev.
  - rewrite (proj2 (Nat.ltb_lt _ _)) by exact Hread. unfold key_val_error.
  by erewrite M_bind_done by (by apply with_kv_ok).
  - destruct Hread as [Hle Hread].
  rewrite (proj2 (Nat.ltb_ge _ _)) by exact Hle.
  destruct (store_ok (DValue i) _ _ _ w Hok Hlock Hi Hread Hnz Hroom)
    as (p & pm & Hst & Hpok & Hext & Hat & Hlen).
  exists p, pm. split; [|done]. unfold INIFILE_SPACE_CHAR_LEN. run Hst. done.
Qed.
End line_val.

Section line_key_val.
Context (w : world) (line t : list Z) (i : nat).
Hypothesis Hok : pool_ok (w_pool w).
Hypothesis Hlock : POOL_LOCK ∉ w_held w.
Hypothesis Hklock : KEYVAL_ARRAY_LOCK ∉ w_held w.
Hypothesis Hi : first_unused kv_flag (w_kvs w) = Some i.
Hypothesis Ht : c_str line = Done t.
Hypothesis Hroom :
  pm_curr_len (w_pool w) + (Z.of_nat (length t) + 1) < INIFILE_SIZE_SPACE.

(** The outcome of the whole function by the meaning of the line. *)
Lemma init_line_key_val_run :
  key_text_ok t →
  ∃ w', init_line_key_val line w =
    Done (match parse_pair t with Some _ => Z.of_nat i | None => INIFILE_FORMAT_ERROR end,
          w') ∧
  grown w w' (Z.of_nat (length t) + 1) ∧
  match parse_pair t with
  | Some (k, v) => kv_stored w w' i k v
  | None => kv_rejected w w' i
  end.
Proof.
  intros Hkey. unfold init_line_key_val, str_frist_constchar. rewrite drop_0.
  unfold parse_pair, key_text_ok in *.
  rewrite (M_bind_lift _ _ _ _ (str_scan_chr_spec _ _ _ _ Ht)).
  rewrite (M_bind_lift _ _ _ _ (str_scan_chr_spec _ _ _ _ Ht)).
  rewrite !option_fmap_id.
  assert (grown w w (Z.of_nat (length t) + 1)) as Hg by (apply grown_refl; [done|lia]).
  pose proof (kv_rejected_refl w i) as Hrej.
  destruct (index_of CONTENT_EQUALITY_SIGN t) as [e|] eqn:He; [|exists w; split; [reflexivity|split; assumption]].
  pose proof (index_of_lt _ _ _ He) as Helt.
  rewrite (index_of_before CONTENT_COMMA_SIGN t e).
  destruct (decide (CONTENT_COMMA_SIGN ∈ take e t)) as [Hin|Hin].
  { rewrite bool_decide_eq_true_2 by done. exists w. split; [reflexivity|split; assumption]. }
  rewrite bool_decide_eq_false_2 by done.
  pose proof (index_of_after CONTENT_COMMA_SIGN CONTENT_EQUALITY_SIGN t e He
  ltac:(done) Hin) as Hcomma.
  fold (value_text t e).
  destruct e as [|e0]; [exists w; split; [reflexivity|split; assumption]|].
  set (e := S e0) in *. assert (0 < e)%nat as Hpos by (subst e; lia). cbv beta iota.
  rewrite (proj2 (Nat.ltb_lt 0 e) Hpos).
  destruct (first_unused_Some _ _ _ Hi) as (n & Hn & Hnf).
  pose proof (lookup_lt_Some _ _ _ Hn) as Hilt.
  run (get_index_ini_keyvalue_ok _ _ Hklock Hi).
  rewrite (proj2 (Z.ltb_ge _ _)) by lia.
  set (w1 := set_kvs _ w).
  rewrite (M_bind_lift _ _ _ _ (key_start line t Ht)).
  rewrite (M_bind_lift _ _ _ _ (key_end line t e Ht He Hpos Hkey)).
  destruct (key_text line t e Ht He Hpos Hkey) as (Hlt & Hread & Hlen).
  rewrite (proj2 (Nat.ltb_ge _ _)) by lia.
  set (k := trim_l is_blank (trim_r is_blank (take e t))) in *.
  assert (nonzero k) as Hknz.
  { apply nonzero_trim_l, nonzero_trim_r, Forall_take, (c_str_nonzero line); done. }
  pose proof (length_trim_r is_blank (take e t)) as Hrl. rewrite length_take in Hrl.
  destruct (store_ok (DKey i) (drop (span_len is_blank t) line)
  (Z.of_nat (length (trim_r is_blank (take e t)) - 1) -
   Z.of_nat (span_len is_blank t) + 1) k w1) as (kp & pm1 & Hst & Hok1 & Hext1 & Hat1 & Hroom1);
  [done|done|by cbn; rewrite length_alter|exact Hread|done|
   cbn [w_pool set_kvs w1]; lia|].
  unfold INIFILE_SPACE_CHAR_LEN. rewrite Nat2Z.id. run Hst. cbn [Z.ltb Z.compare].
  set (w2 := dest_set (DKey i) kp (set_pool pm1 w1)).
  set (v := trim_l is_blank (trim_r is_blank_nl (value_text t e))) in *.
  assert (length v <= length t - S e)%nat as Hvl.
  { unfold v. etrans; [apply length_trim_l|]. etrans; [apply length_trim_r|].
  destruct (value_stop t e He Hcomma) as [Hs ->].
  rewrite length_drop, length_take. lia. }
  pose proof (init_line_val_run w2 line t e i) as Hval. fold v in Hval.
  specialize (Hval Hok1 Hlock ltac:(cbn; by rewrite !length_alter) Ht He Hcomma).
  cbn [w_pool w2 dest_set set_kvs set_pool w1] in Hroom1, Hval.
  specialize (Hval ltac:(lia)).
  destruct k as [|kc ks] eqn:Ek; [cbn [length] in Hlen; lia|]. rewrite <- Ek in *.
  destruct v as [|vc vs] eqn:Ev.
  - eexists. split; [exact Hval|]. split.
  + split; cbn; try done. lia.
  + split; [done|]. cbn. rewrite !alter_twice. eexists. split; [reflexivity|].
    intros m Hm. cbn. by rewrite Hm.
  - rewrite <- Ev in *. destruct Hval as (vp & pm2 & Hv & Hok2 & Hext2 & Hat2 & Hroom2).
  eexists. split; [exact Hv|]. split.
  + split; cbn; try done; [by etrans|lia].
  + split; [done|]. exists kp, vp. split; [by apply Hext2|]. split; [done|].
    cbn. by rewrite !alter_twice.
Qed.
End line_key_val.

(** ** Section lines *)

Definition sec_stored (w w' : world) (i : nat) (s : list Z) : Prop :=
  w_kvs w' = w_kvs w ∧
  ∃ p, str_at (w_pool w') p s ∧
    w_secs w' = alter (λ n, Build_INI_SETION STRUCT_NODE_IN_USED p
                              (sec_head n) (sec_pre n) (sec_last n)) i (w_secs w).

Definition sec_rejected (w w' : world) (i : nat) : Prop :=
  w_kvs w' = w_kvs w ∧
  ∃ f, w_secs w' = alter f i (w_secs w) ∧ ∀ n, sec_flag n = STRUCT_NODE_UN_USED →
    sec_flag (f n) = sec_flag n ∧ sec_pre (f n) = sec_pre n ∧
    sec_last (f n) = sec_last n ∧ sec_head (f n) = sec_head n.

Lemma init_line_section_run w line t i :
  pool_ok (w_pool w) → POOL_LOCK ∉ w_held w → SECTION_ARRAY_LOCK ∉ w_held w →
  first_unused sec_flag (w_secs w) = Some i → c_str line = Done t →
  pm_curr_len (w_pool w) + (Z.of_nat (length t) + 1) < INIFILE_SIZE_SPACE →
  ∃ w', init_line_section line w =
      Done (match parse_section t with Some _ => Z.of_nat i | None => INIFILE_FORMAT_ERROR end,
            w') ∧
    grown w w' (Z.of_nat (length t) + 1) ∧
    match parse_section t with
    | Some s => sec_stored w w' i s
    | None => sec_rejected w w' i
    end.
Proof.
  intros Hok Hlock Hslock Hi Ht Hroom.
  destruct (first_unused_Some _ _ _ Hi) as (n & Hn & Hnf).
  pose proof (lookup_lt_Some _ _ _ Hn) as Hilt.
  unfold init_line_section, str_frist_constchar. rewrite drop_0.
  rewrite (M_bind_lift _ _ _ _ (str_scan_chr_spec _ _ _ _ Ht)).
  rewrite (M_bind_lift _ _ _ _ (str_scan_chr_spec _ _ _ _ Ht)).
  rewrite !option_fmap_id.
  run (get_index_ini_section_ok _ _ Hslock Hi). rewrite Nat2Z.id.
  rewrite (proj2 (Z.ltb_ge _ _)) by lia.
  set (w1 := set_secs _ w).
  assert (∃ w', (if INIFILE_FORMAT_ERROR <? 0
            then with_sec i (sec_set_flag STRUCT_NODE_UN_USED) else mret tt) w1 =
            Done (tt, w') ∧ grown w w' (Z.of_nat (length t) + 1) ∧ sec_rejected w w' i)
    as (we & Hwe & Hgrown & Hrej).
  { eexists. cbn [Z.ltb Z.compare INIFILE_FORMAT_ERROR]. split.
    { apply with_sec_ok. cbn. by rewrite length_alter. }
    split; [split; cbn; try done; lia|]. split; [done|].
    cbn. rewrite alter_twice. eexists. split; [done|]. intros m Hm. cbn. by rewrite Hm. }
  unfold parse_section.
  destruct (index_of CONTENT_LEFT_BRACKET t) as [p|] eqn:Hp;
    [|exists we; rewrite M_bind_ret; by run Hwe].
  destruct (index_of CONTENT_RIGHT_BRACKET t) as [q|] eqn:Hq;
    [|exists we; rewrite M_bind_ret; by run Hwe].
  replace (Z.of_nat p + 1 <? Z.of_nat q - 1) with (p + 2 <? q)%nat.
  2:{ destruct (Nat.ltb_spec (p + 2) q), (Z.ltb_spec (Z.of_nat p + 1) (Z.of_nat q - 1));
        try done; lia. }
  destruct (Nat.ltb_spec (p + 2) q) as [Hpq|Hpq];
    [|exists we; rewrite M_bind_ret; by run Hwe].
  destruct (section_read line t p q Ht Hq Hpq) as [Hread Hlen].
  set (s := take _ _) in *.
  assert (nonzero s) as Hnz by (apply Forall_take, Forall_drop, (c_str_nonzero line); done).
  destruct (store_ok (DSec i) (drop (p + 1) line)
    ((Z.of_nat q - 1) - (Z.of_nat p + 1) + 1) s w1)
    as (sp & pm1 & Hst & Hok1 & Hext1 & Hat1 & Hroom1);
    [done|done|by cbn; rewrite length_alter|done|done|cbn [w_pool set_secs w1]; lia|].
  eexists. split.
  { erewrite M_bind_done by (unfold INIFILE_SPACE_CHAR_LEN; run Hst; done).
    cbn [Z.ltb Z.compare]. rewrite (proj2 (Z.ltb_ge (Z.of_nat i) 0)) by lia. reflexivity. }
  cbn [w_pool set_secs w1] in Hroom1. split.
  - split; try done. cbn [w_pool dest_set set_secs set_pool w1]. lia.
  - split; [done|]. exists sp. split; [done|]. cbn. by rewrite !alter_twice.
Qed.
