(* ===== verification/IniSpec.v ===== *)
(** * What an ini library promises: documents

    A document is an ordered list of sections, a section an ordered list of
    pairs.  This is the abstract state both versions of the library keep and
    the files denote; the operations below are the contract of
    [get_value_ofkey], [update_value_ofkey], [add_value_ofkey],
    [delete_value_ofkey], [add_ini_section] and [delete_ini_section]. *)

From S2P Require Import Prelude.

(** ** Association lists, first match *)

Section alist.
Context {K V : Type} `{EqDecision K}.
Implicit Types (k : K) (v : V) (l : list (K * V)).

Fixpoint alookup k l : option V :=
  match l with
  | [] => None
  | (k', v) :: l' => if decide (k' = k) then Some v else alookup k l'
  end.

Fixpoint alist_alter (f : V → V) k l : list (K * V) :=
  match l with
  | [] => []
  | (k', v) :: l' =>
    if decide (k' = k) then (k', f v) :: l' else (k', v) :: alist_alter f k l'
  end.

Fixpoint alist_delete k l : list (K * V) :=
  match l with
  | [] => []
  | (k', v) :: l' =>
    if decide (k' = k) then l' else (k', v) :: alist_delete k l'
  end.

Lemma alist_app k l1 l2 :
  alookup k (l1 ++ l2) = match alookup k l1 with Some v => Some v | None => alookup k l2 end.
Proof. induction l1 as [|[k' v] l1 IH]; cbn; [done|]. by case_decide. Qed.

Lemma alist_None k l : alookup k l = None ↔ k ∉ l.*1.
Proof.
  induction l as [|[k' v] l IH]; cbn; [set_solver|]. case_decide; set_solver.
Qed.

Lemma alist_alter_eq f k l : alookup k (alist_alter f k l) = f <$> alookup k l.
Proof.
  induction l as [|[k' v] l IH]; cbn; [done|].
  case_decide; cbn; [by rewrite decide_True|by rewrite decide_False].
Qed.

Lemma alist_alter_ne f k k' l : k' ≠ k → alookup k' (alist_alter f k l) = alookup k' l.
Proof.
  intros Hne. induction l as [|[k0 v] l IH]; cbn; [done|].
  repeat (case_decide; cbn; try congruence).
Qed.

Lemma alist_delete_eq k l : NoDup l.*1 → alookup k (alist_delete k l) = None.
Proof.
  induction l as [|[k' v] l IH]; cbn; [done|]. intros [Hk Hnd]%NoDup_cons.
  case_decide; cbn; [subst; by apply alist_None|].
  rewrite decide_False by done. by apply IH.
Qed.

Lemma alist_delete_ne k k' l : k' ≠ k → alookup k' (alist_delete k l) = alookup k' l.
Proof.
  intros Hne. induction l as [|[k0 v] l IH]; cbn; [done|].
  repeat (case_decide; cbn; try congruence).
Qed.

Lemma alist_alter_keys f k l : (alist_alter f k l).*1 = l.*1.
Proof. induction l as [|[k' v] l IH]; cbn; [done|]. case_decide; cbn; congruence. Qed.

Lemma alist_alter_middle f k v l1 l2 :
  k ∉ l1.*1 → alist_alter f k (l1 ++ (k, v) :: l2) = l1 ++ (k, f v) :: l2.
Proof.
  induction l1 as [|[k' v'] l1 IH]; cbn; intros Hk.
  - by rewrite decide_True.
  - rewrite decide_False by set_solver. rewrite IH; [done|set_solver].
Qed.

Lemma alist_delete_middle k v l1 l2 :
  k ∉ l1.*1 → alist_delete k (l1 ++ (k, v) :: l2) = l1 ++ l2.
Proof.
  induction l1 as [|[k' v'] l1 IH]; cbn; intros Hk.
  - by rewrite decide_True.
  - rewrite decide_False by set_solver. rewrite IH; [done|set_solver].
Qed.

Lemma alist_middle k v l1 l2 : k ∉ l1.*1 → alookup k (l1 ++ (k, v) :: l2) = Some v.
Proof.
  intros Hk. rewrite alist_app, (proj2 (alist_None k l1) Hk). cbn.
  by rewrite decide_True.
Qed.
End alist.

(** ** Documents *)

Definition pairs : Type := list (list Z * list Z).
Definition doc : Type := list (list Z * pairs).

Definition doc_get (d : doc) (s k : list Z) : option (list Z) :=
  kvs ← alookup s d; alookup k kvs.
Definition doc_set (d : doc) (s k v : list Z) : doc :=
  alist_alter (alist_alter (λ _, v) k) s d.
Definition doc_add_key (d : doc) (s k v : list Z) : doc :=
  alist_alter (λ kvs, kvs ++ [(k, v)]) s d.
Definition doc_del_key (d : doc) (s k : list Z) : doc :=
  alist_alter (alist_delete k) s d.
Definition doc_add_sec (d : doc) (s : list Z) : doc := d ++ [(s, [])].
Definition doc_del_sec (d : doc) (s : list Z) : doc := alist_delete s d.

(** Well-formed documents: no section twice, no key twice in a section. *)
Definition doc_wf (d : doc) : Prop :=
  NoDup d.*1 ∧ Forall (λ x, NoDup (x.2).*1) d.

Lemma doc_get_set d s k v : is_Some (doc_get d s k) → doc_get (doc_set d s k v) s k = Some v.
Proof.
  unfold doc_get, doc_set. intros [x Hx]. rewrite alist_alter_eq.
  destruct (alookup s d) as [kvs|]; [|done]. cbn in *. rewrite alist_alter_eq, Hx. done.
Qed.

Lemma doc_get_set_ne d s k v s' k' :
  (s', k') ≠ (s, k) → doc_get (doc_set d s k v) s' k' = doc_get d s' k'.
Proof.
  unfold doc_get, doc_set. intros Hne. destruct (decide (s' = s)) as [->|Hs].
  - rewrite alist_alter_eq. destruct (alookup s d) as [kvs|]; [|done]. cbn.
    apply alist_alter_ne. congruence.
  - by rewrite alist_alter_ne.
Qed.

Lemma doc_get_add d s k v :
  is_Some (alookup s d) → doc_get d s k = None →
  doc_get (doc_add_key d s k v) s k = Some v.
Proof.
  unfold doc_get, doc_add_key. intros [kvs Hs] Hk. rewrite Hs in Hk. cbn in Hk.
  rewrite alist_alter_eq, Hs. cbn. rewrite alist_app, Hk. cbn. by rewrite decide_True.
Qed.

Lemma doc_get_del d s k : doc_wf d → doc_get (doc_del_key d s k) s k = None.
Proof.
  unfold doc_get, doc_del_key. intros [_ Hwf]. rewrite alist_alter_eq.
  destruct (alookup s d) as [kvs|] eqn:E; [|done]. cbn. apply alist_delete_eq.
  clear -E Hwf. induction Hwf as [|[s' kvs'] d Hx Hd IH]; cbn in E; [done|].
  case_decide; [by injection E as <-|by apply IH].
Qed.

Lemma doc_wf_set d s k v : doc_wf d → doc_wf (doc_set d s k v).
Proof.
  intros [H1 H2]. split; [unfold doc_set; by rewrite alist_alter_keys|].
  unfold doc_set. clear H1. induction H2 as [|[s' kvs] d Hx Hd IH]; cbn; [constructor|].
  case_decide; constructor; try done. cbn. by rewrite alist_alter_keys.
Qed.
