(* ===== verification/V2Layout.v ===== *)
(** * inifile v2.0.0: the arrays represent documents

    [world_rep w fl]: the arrays of [w] hold the open files [fl], each a list
    of sections with their pairs, in linked lists that share no cell; all
    other cells are free and clean.  The searches of the library are shown
    to find what the document says. *)

From S2P Require Import Prelude CString DList FileSys V2Data V2Line V2Rep IniSpec.
From stdpp Require Import gmap strings.

Open Scope Z_scope.

(** ** The layout: which cells hold what *)

Record kv_entry := KV { ke_id : nat; ke_key : list Z; ke_val : list Z }.
Record sec_entry := SEC { se_id : nat; se_name : list Z; se_kvs : list kv_entry }.
(** A file cell: free, or open with its name and sections. *)
Definition file_entry : Type := option (list Z * list sec_entry).

Definition entry_pair (e : kv_entry) : list Z * list Z := (ke_key e, ke_val e).
Definition entry_sec (e : sec_entry) : list Z * pairs :=
  (se_name e, entry_pair <$> se_kvs e).
Definition doc_of (l : list sec_entry) : doc := entry_sec <$> l.

Definition file_secs (f : file_entry) : list sec_entry :=
  match f with Some (_, l) => l | None => [] end.
Definition all_secs (fl : list file_entry) : list sec_entry := fl ≫= file_secs.
Definition all_sec_ids (fl : list file_entry) : list nat := se_id <$> all_secs fl.
Definition all_kv_ids (fl : list file_entry) : list nat :=
  ke_id <$> (all_secs fl ≫= se_kvs).

(** ** The two kinds of linked cells *)

#[export] Instance kv_linked : LinkedNode INI_KEYVALUE := {|
  ln_pre := kv_pre; ln_last := kv_last;
  ln_set_pre := kv_set_pre; ln_set_last := kv_set_last; ln_zero := kv0;
  ln_pre_set_pre _ _ := eq_refl; ln_pre_set_last _ _ := eq_refl;
  ln_last_set_pre _ _ := eq_refl; ln_last_set_last _ _ := eq_refl;
|}.
#[export] Instance sec_linked : LinkedNode INI_SETION := {|
  ln_pre := sec_pre; ln_last := sec_last;
  ln_set_pre := sec_set_pre; ln_set_last := sec_set_last; ln_zero := sec0;
  ln_pre_set_pre _ _ := eq_refl; ln_pre_set_last _ _ := eq_refl;
  ln_last_set_pre _ _ := eq_refl; ln_last_set_last _ _ := eq_refl;
|}.

(** ** Representation *)

Definition kv_links (kvs : list INI_KEYVALUE) : nat → option links := cell_links kvs.
Definition sec_links (secs : list INI_SETION) : nat → option links := cell_links secs.

Definition kv_rep (pm : MEMORY_POOL) (kvs : list INI_KEYVALUE) (e : kv_entry) : Prop :=
  ∃ n, kvs !! ke_id e = Some n ∧ kv_flag n = STRUCT_NODE_IN_USED ∧
    str_at pm (kv_key n) (ke_key e) ∧ str_at pm (kv_value n) (ke_val e).

Definition kvl_rep (pm : MEMORY_POOL) (kvs : list INI_KEYVALUE) (head : option nat)
    (l : list kv_entry) : Prop :=
  dlist (kv_links kvs) head (ke_id <$> l) ∧ Forall (kv_rep pm kvs) l.

Definition sec_rep (pm : MEMORY_POOL) (kvs : list INI_KEYVALUE) (secs : list INI_SETION)
    (e : sec_entry) : Prop :=
  ∃ n, secs !! se_id e = Some n ∧ sec_flag n = STRUCT_NODE_IN_USED ∧
    str_at pm (sec_sec n) (se_name e) ∧ kvl_rep pm kvs (sec_head n) (se_kvs e).

Definition secl_rep (pm : MEMORY_POOL) (kvs : list INI_KEYVALUE) (secs : list INI_SETION)
    (head : option nat) (l : list sec_entry) : Prop :=
  dlist (sec_links secs) head (se_id <$> l) ∧ Forall (sec_rep pm kvs secs) l.

Definition file_rep (pm : MEMORY_POOL) (kvs : list INI_KEYVALUE) (secs : list INI_SETION)
    (n : INI_FILE) (f : file_entry) : Prop :=
  match f with
  | None => n = file0
  | Some (name, l) =>
      file_flag n = STRUCT_NODE_IN_USED ∧ str_at pm (file_name n) name ∧
      secl_rep pm kvs secs (file_head n) l
  end.

(** Free cells carry no links: new cells are linked in without clearing
    them first. *)
Definition kv_free (n : INI_KEYVALUE) : Prop :=
  kv_flag n = STRUCT_NODE_UN_USED ∧ kv_pre n = None ∧ kv_last n = None.
Definition sec_free (n : INI_SETION) : Prop :=
  sec_flag n = STRUCT_NODE_UN_USED ∧ sec_pre n = None ∧ sec_last n = None ∧
  sec_head n = None.

Record world_rep (w : world) (fl : list file_entry) : Prop := {
  wr_pool : pool_ok (w_pool w);
  wr_nfiles : length (w_files w) = MAX_OPERATION_FILE_NUM;
  wr_nsecs : length (w_secs w) = MAX_INIFILE_SECTION_NUM;
  wr_nkvs : length (w_kvs w) = INIFILE_KEYVALUE_ARRAY_LEN;
  wr_files : Forall2 (file_rep (w_pool w) (w_kvs w) (w_secs w)) (w_files w) fl;
  wr_sec_ids : NoDup (all_sec_ids fl);
  wr_kv_ids : NoDup (all_kv_ids fl);
  wr_free_secs : ∀ i n, w_secs w !! i = Some n → i ∉ all_sec_ids fl → sec_free n;
  wr_free_kvs : ∀ i n, w_kvs w !! i = Some n → i ∉ all_kv_ids fl → kv_free n;
}.

(** ** Frame: strings persist, untouched cells keep their meaning *)

(** What a cell holds besides its links. *)
Definition kv_data (n : INI_KEYVALUE) := (kv_flag n, kv_key n, kv_value n).
Definition sec_data (n : INI_SETION) := (sec_flag n, sec_sec n, sec_head n).

Lemma kv_rep_data pm pm' kvs kvs' e :
  pool_ext pm pm' → kv_data <$> kvs' !! ke_id e = kv_data <$> kvs !! ke_id e →
  kv_rep pm kvs e → kv_rep pm' kvs' e.
Proof.
  intros Hp He (n & Hn & Hf & Hk & Hv). rewrite Hn in He.
  apply fmap_Some in He as (n' & Hn' & [= E1 E2 E3]). exists n'.
  rewrite <- E1, <- E2, <- E3. eauto 6.
Qed.

Lemma kv_rep_frame pm pm' kvs kvs' e :
  pool_ext pm pm' → kvs' !! ke_id e = kvs !! ke_id e →
  kv_rep pm kvs e → kv_rep pm' kvs' e.
Proof.
  intros Hp He (n & Hn & Hf & Hk & Hv). exists n. rewrite He. eauto 6.
Qed.

Lemma kvl_rep_frame pm pm' kvs kvs' h l :
  pool_ext pm pm' → (∀ i, i ∈ ke_id <$> l → kvs' !! i = kvs !! i) →
  kvl_rep pm kvs h l → kvl_rep pm' kvs' h l.
Proof.
  intros Hp He [Hd Hl]. split.
  - eapply dseg_frame; [|done]. intros i Hi. unfold kv_links, cell_links, links_of. by rewrite He.
  - apply Forall_forall. intros e Hin. rewrite Forall_forall in Hl.
    eapply kv_rep_frame; [done| |by apply Hl]. apply He. by apply list_elem_of_fmap_2.
Qed.

Lemma sec_rep_frame pm pm' kvs kvs' secs secs' e :
  pool_ext pm pm' → (∀ i, i ∈ ke_id <$> se_kvs e → kvs' !! i = kvs !! i) →
  secs' !! se_id e = secs !! se_id e →
  sec_rep pm kvs secs e → sec_rep pm' kvs' secs' e.
Proof.
  intros Hp Hk Hs (n & Hn & Hf & Hnm & Hl). exists n. rewrite Hs.
  split; [done|]. split; [done|]. split; [by apply Hp|].
  by eapply kvl_rep_frame.
Qed.

Lemma secl_rep_frame pm pm' kvs kvs' secs secs' h l :
  pool_ext pm pm' →
  (∀ i, i ∈ ke_id <$> (l ≫= se_kvs) → kvs' !! i = kvs !! i) →
  (∀ i, i ∈ se_id <$> l → secs' !! i = secs !! i) →
  secl_rep pm kvs secs h l → secl_rep pm' kvs' secs' h l.
Proof.
  intros Hp Hk Hs [Hd Hl]. split.
  - eapply dseg_frame; [|done]. intros i Hi. unfold sec_links, cell_links, links_of. by rewrite Hs.
  - apply Forall_forall. intros e Hin. rewrite Forall_forall in Hl.
    eapply sec_rep_frame; [done| | |by apply Hl].
    + intros i (x & -> & Hx)%list_elem_of_fmap. apply Hk. apply list_elem_of_fmap_2.
      apply list_elem_of_bind. eauto.
    + apply Hs. by apply list_elem_of_fmap_2.
Qed.

Lemma file_rep_frame pm pm' kvs kvs' secs secs' n f :
  pool_ext pm pm' →
  (∀ i, i ∈ ke_id <$> (file_secs f ≫= se_kvs) → kvs' !! i = kvs !! i) →
  (∀ i, i ∈ se_id <$> file_secs f → secs' !! i = secs !! i) →
  file_rep pm kvs secs n f → file_rep pm' kvs' secs' n f.
Proof.
  destruct f as [[name l]|]; [|done]. intros Hp Hk Hs (Hf & Hn & Hl).
  split; [done|]. split; [by apply Hp|]. by eapply secl_rep_frame.
Qed.

(** ** The caller's strings

    [names b len s]: the buffer [b] and the length [len] of the parameter
    structure name the string [s] (a length that is not positive means "up
    to the NUL"). *)
Definition names (b : list Z) (len : Z) (s : list Z) : Prop :=
  if len <=? 0 then c_str b = Done s else mem_read b len = Done s ∧ nonzero s.

Lemma names_c_lit b s len :
  c_str b = Done s → len <= 0 ∨ len = Z.of_nat (length s) → names b len s.
Proof.
  intros Hb Hlen. unfold names. destruct (Z.leb_spec len 0) as [H|H]; [done|].
  destruct Hlen as [?| ->]; [lia|]. pose proof (c_str_length _ _ Hb).
  rewrite mem_read_ok by lia. rewrite Nat2Z.id.
  apply c_str_inv in Hb as (r & -> & Hnz). by rewrite take_app_length.
Qed.

(** The length the searches use. *)
Lemma names_len b len s :
  names b len s →
  (if len <=? 0 then str_int_len (Some b) else Done len) = Done (Z.of_nat (length s)) ∧
  nonzero s ∧ mem_read b (Z.of_nat (length s)) = Done s.
Proof.
  unfold names. destruct (Z.leb_spec len 0) as [H|H].
  - intros Hb. cbn. rewrite (str_scan_len_spec _ _ Hb). cbn. split; [done|].
    split; [by eapply c_str_nonzero|].
    pose proof (c_str_length _ _ Hb). rewrite mem_read_ok by lia. rewrite Nat2Z.id.
    apply c_str_inv in Hb as (r & -> & Hnz). by rewrite take_app_length.
  - intros [Hm Hnz]. pose proof (mem_read_inv _ _ _ Hm) as [-> Hl].
    rewrite length_take. replace (Z.of_nat _) with len by lia. done.
Qed.

Lemma names_len_M b len s (w : world) :
  names b len s →
  (if len <=? 0 then lift (str_int_len (Some b)) else mret len) w =
  Done (Z.of_nat (length s), w).
Proof.
  intros (H & _)%names_len. destruct (len <=? 0).
  - unfold lift. by rewrite H.
  - by injection H as ->.
Qed.

Lemma string_matches_spec pm p t b s :
  str_at pm p t → nonzero s → mem_read b (Z.of_nat (length s)) = Done s →
  string_matches pm b (Z.of_nat (length s)) p = Done (bool_decide (t = s)).
Proof.
  intros Hp Hs Hb. destruct (str_at_bytes _ _ _ Hp) as (c & Hc & Hct).
  unfold string_matches. rewrite Hc. cbn [str_int_len].
  rewrite (str_scan_len_spec _ _ Hct). cbn.
  destruct (Z.eqb_spec (Z.of_nat (length t)) (Z.of_nat (length s))) as [Hl|Hl].
  - unfold memcmp. pose proof (c_str_length _ _ Hct).
    rewrite (mem_read_ok c) by lia. cbn. rewrite Hb. cbn. f_equal.
    apply c_str_inv in Hct as (r & -> & _).
    rewrite take_app_length' by lia.
    pose proof (bytes_cmp_eq t s ltac:(lia)) as Hcmp.
    destruct (Z.eqb_spec (bytes_cmp t s) 0); case_bool_decide; naive_solver.
  - case_bool_decide; [subst; lia|done].
Qed.

(** The first entry with a given key. *)
Definition find_kv (s : list Z) (l : list kv_entry) : option kv_entry :=
  snd <$> list_find (λ e, ke_key e = s) l.
Definition find_sec (s : list Z) (l : list sec_entry) : option sec_entry :=
  snd <$> list_find (λ e, se_name e = s) l.

(** Finding by the test on cells is finding by name on entries. *)
Lemma list_find_fmap_ids {E} (id : E → nat) (P : nat → bool) (Q : E → Prop)
    `{∀ e, Decision (Q e)} (l : list E) :
  Forall (λ e, P (id e) = bool_decide (Q e)) l →
  snd <$> list_find P (id <$> l) = id <$> (snd <$> list_find Q l).
Proof.
  induction 1 as [|e l He Hl IH]; [done|]. cbn.
  destruct (decide (Q e)) as [HQ|HQ].
  - rewrite decide_True; [done|]. rewrite He. by case_bool_decide.
  - rewrite decide_False; [|rewrite He, bool_decide_eq_false_2 by done; by intros []].
    destruct (list_find P (id <$> l)) as [[??]|],
      (list_find Q l) as [[??]|]; done.
Qed.

Section finds.
Context (w : world) (b : list Z) (len : Z) (s : list Z).
Hypothesis Hn : names b len s.

Lemma find_keyvalue_spec h l :
  kvl_rep (w_pool w) (w_kvs w) h l → (length l ≤ INIFILE_KEYVALUE_ARRAY_LEN)%nat →
  find_keyvalue_unsect h (Some b) len w = Done (ke_id <$> find_kv s l, w).
Proof using Hn.
  intros [Hd Hl] Hlen. destruct (names_len _ _ _ Hn) as (Hnl & Hnz & Hmem).
  destruct h as [h|]; cycle 1.
  { apply dlist_None in Hd. destruct l; [done|discriminate]. }
  cbn [find_keyvalue_unsect].
  rewrite (M_bind_done _ _ _ _ _ (names_len_M _ _ _ w Hn)).
  rewrite M_bind_gets. unfold lift.
  set (P := λ i, match w_kvs w !! i with
               | Some n => bool_decide (pool_str (w_pool w) (kv_key n) = Done s)
               | None => false end).
  assert (HP : ∀ e n t, e ∈ l → w_kvs w !! ke_id e = Some n →
          str_at (w_pool w) (kv_key n) t → P (ke_id e) = bool_decide (t = s)).
  { intros e n t He Hn' [Ht _]. subst P. cbn. rewrite Hn', Ht.
  apply bool_decide_ext. split; congruence. }
  rewrite Forall_forall in Hl.
  rewrite (walk_find_spec kv_pre kv_last (λ i, w_kvs w !! i) _ P _ None _ (ke_id <$> l));
  [|done|by rewrite length_fmap|].
  - unfold find_kv. rewrite (list_find_fmap_ids ke_id P (λ e, ke_key e = s)); [done|].
  apply Forall_forall. intros e He. destruct (Hl e He) as (n & Hn' & _ & Hk & _).
  by eapply HP.
  - intros i n (e & -> & He)%list_elem_of_fmap Hn'.
  destruct (Hl e He) as (n' & Hn'' & _ & Hk & _). simplify_eq.
  erewrite (HP e n _ He Hn' Hk). by apply string_matches_spec.
Qed.

Lemma find_section_spec h l :
  secl_rep (w_pool w) (w_kvs w) (w_secs w) h l →
  (length l ≤ MAX_INIFILE_SECTION_NUM)%nat →
  find_inifile_section h (Some b) len w = Done (se_id <$> find_sec s l, w).
Proof using Hn.
  intros [Hd Hl] Hlen. destruct (names_len _ _ _ Hn) as (Hnl & Hnz & Hmem).
  destruct h as [h|]; cycle 1.
  { apply dlist_None in Hd. destruct l; [done|discriminate]. }
  cbn [find_inifile_section].
  rewrite (M_bind_done _ _ _ _ _ (names_len_M _ _ _ w Hn)).
  rewrite M_bind_gets. unfold lift.
  set (P := λ i, match w_secs w !! i with
               | Some n => bool_decide (pool_str (w_pool w) (sec_sec n) = Done s)
               | None => false end).
  assert (HP : ∀ e n t, e ∈ l → w_secs w !! se_id e = Some n →
          str_at (w_pool w) (sec_sec n) t → P (se_id e) = bool_decide (t = s)).
  { intros e n t He Hn' [Ht _]. subst P. cbn. rewrite Hn', Ht.
  apply bool_decide_ext. split; congruence. }
  rewrite Forall_forall in Hl.
  rewrite (walk_find_spec sec_pre sec_last (λ i, w_secs w !! i) _ P _ None _ (se_id <$> l));
  [|done|by rewrite length_fmap|].
  - unfold find_sec. rewrite (list_find_fmap_ids se_id P (λ e, se_name e = s)); [done|].
  apply Forall_forall. intros e He. destruct (Hl e He) as (n & Hn' & _ & Hk & _).
  by eapply HP.
  - intros i n (e & -> & He)%list_elem_of_fmap Hn'.
  destruct (Hl e He) as (n' & Hn'' & _ & Hk & _). simplify_eq.
  erewrite (HP e n _ He Hn' Hk). by apply string_matches_spec.
Qed.
End finds.

(** ** The searches against the document *)

Lemma find_kv_alookup s l : ke_val <$> find_kv s l = alookup s (entry_pair <$> l).
Proof.
  unfold find_kv. induction l as [|e l IH]; [done|]. cbn.
  repeat case_decide; try done.
  rewrite <- IH. by destruct (list_find _ l) as [[??]|].
Qed.

Lemma find_sec_alookup s l :
  (λ e, entry_pair <$> se_kvs e) <$> find_sec s l = alookup s (doc_of l).
Proof.
  unfold find_sec, doc_of. induction l as [|e l IH]; [done|]. cbn.
  repeat case_decide; try done.
  rewrite <- IH. by destruct (list_find _ l) as [[??]|].
Qed.

Lemma find_sec_Some s l e :
  find_sec s l = Some e ↔
  ∃ l1 l2, l = l1 ++ e :: l2 ∧ se_name e = s ∧ s ∉ se_name <$> l1.
Proof.
  unfold find_sec. rewrite fmap_Some. split.
  - intros ([i x] & H & ->). apply list_find_Some in H as (Hi & Hn & Hb).
    exists (take i l), (drop (S i) l). split; [by rewrite take_drop_middle|].
    split; [done|]. intros (y & -> & Hy)%list_elem_of_fmap.
    apply list_elem_of_lookup in Hy as [j Hj].
    pose proof (lookup_lt_Some _ _ _ Hj) as Hlt. rewrite length_take in Hlt.
    rewrite lookup_take_lt in Hj by lia. eapply (Hb j y); [done|lia|done].
  - intros (l1 & l2 & -> & Hn & Hni). exists (length l1, e). split; [|done].
    apply list_find_Some. split; [by apply list_lookup_middle|]. split; [done|].
    intros j y Hj Hlt Hy. rewrite lookup_app_l in Hj by done.
    apply Hni. rewrite <- Hy. apply list_elem_of_fmap_2. by eapply list_elem_of_lookup_2.
Qed.

Lemma find_kv_Some s l e :
  find_kv s l = Some e ↔
  ∃ l1 l2, l = l1 ++ e :: l2 ∧ ke_key e = s ∧ s ∉ ke_key <$> l1.
Proof.
  unfold find_kv. rewrite fmap_Some. split.
  - intros ([i x] & H & ->). apply list_find_Some in H as (Hi & Hn & Hb).
    exists (take i l), (drop (S i) l). split; [by rewrite take_drop_middle|].
    split; [done|]. intros (y & -> & Hy)%list_elem_of_fmap.
    apply list_elem_of_lookup in Hy as [j Hj].
    pose proof (lookup_lt_Some _ _ _ Hj) as Hlt. rewrite length_take in Hlt.
    rewrite lookup_take_lt in Hj by lia. eapply (Hb j y); [done|lia|done].
  - intros (l1 & l2 & -> & Hn & Hni). exists (length l1, e). split; [|done].
    apply list_find_Some. split; [by apply list_lookup_middle|]. split; [done|].
    intros j y Hj Hlt Hy. rewrite lookup_app_l in Hj by done.
    apply Hni. rewrite <- Hy. apply list_elem_of_fmap_2. by eapply list_elem_of_lookup_2.
Qed.
