(* ===== verification/V2Refine.v ===== *)
(** * inifile v2.0.0: the list operations implement document operations

    Under [world_rep], looking a key up is [doc_get], and taking a pair or a
    section out of its list, closing a file, and linking a new pair or
    section in are the document operations of IniSpec.v; every other open
    file keeps its document. *)

From S2P Require Import Prelude CString DList FileSys V2Data V2Line V2Rewrite V2Api V2Rep IniSpec V2Layout.
From stdpp Require Import gmap strings.

Open Scope Z_scope.

(** ** Replacing the entry of one file *)

Definition other_secs (fd : nat) (fl : list file_entry) : list sec_entry :=
  all_secs (<[fd := None]> fl).

Lemma all_secs_split fd fl f :
  (fd < length fl)%nat → all_secs (<[fd := f]> fl) ≡ₚ file_secs f ++ other_secs fd fl.
Proof.
  intros H. apply lookup_lt_is_Some in H as [g Hg]. unfold other_secs, all_secs.
  pose proof (lookup_lt_Some _ _ _ Hg).
  rewrite !insert_take_drop by done. rewrite !bind_app. cbn.
  by rewrite app_assoc, (Permutation_app_comm (take _ _ ≫= _)), <- app_assoc.
Qed.

Lemma all_secs_at fd fl f :
  fl !! fd = Some f → all_secs fl ≡ₚ file_secs f ++ other_secs fd fl.
Proof.
  intros H. rewrite <- all_secs_split by (by eapply lookup_lt_Some).
  by rewrite list_insert_id.
Qed.

Lemma ids_of_perm (l l' : list sec_entry) :
  l ≡ₚ l' → se_id <$> l ≡ₚ se_id <$> l' ∧ ke_id <$> (l ≫= se_kvs) ≡ₚ ke_id <$> (l' ≫= se_kvs).
Proof. intros H. by rewrite H. Qed.

(** What an operation on file [fd] must establish. *)
Record file_step (w w' : world) (fl : list file_entry) (fd : nat) (f' : file_entry) : Prop := {
  st_pool : pool_ok (w_pool w');
  st_ext : pool_ext (w_pool w) (w_pool w');
  st_nfiles : length (w_files w') = length (w_files w);
  st_nsecs : length (w_secs w') = length (w_secs w);
  st_nkvs : length (w_kvs w') = length (w_kvs w);
  st_files : ∀ i, i ≠ fd → w_files w' !! i = w_files w !! i;
  st_file : ∃ n, w_files w' !! fd = Some n ∧
              file_rep (w_pool w') (w_kvs w') (w_secs w') n f';
  st_secs : ∀ i, i ∈ se_id <$> other_secs fd fl → w_secs w' !! i = w_secs w !! i;
  st_kvs : ∀ i, i ∈ ke_id <$> (other_secs fd fl ≫= se_kvs) →
             w_kvs w' !! i = w_kvs w !! i;
  st_sec_ids : NoDup (se_id <$> file_secs f' ++ other_secs fd fl);
  st_kv_ids : NoDup (ke_id <$> ((file_secs f' ++ other_secs fd fl) ≫= se_kvs));
  st_free_secs : ∀ i n, w_secs w' !! i = Some n →
    i ∉ se_id <$> file_secs f' ++ other_secs fd fl → sec_free n;
  st_free_kvs : ∀ i n, w_kvs w' !! i = Some n →
    i ∉ ke_id <$> ((file_secs f' ++ other_secs fd fl) ≫= se_kvs) → kv_free n;
}.

Lemma other_file_rep w w' fl fd f' i n f :
  file_step w w' fl fd f' → fl !! i = Some f → i ≠ fd →
  file_rep (w_pool w) (w_kvs w) (w_secs w) n f →
  file_rep (w_pool w') (w_kvs w') (w_secs w') n f.
Proof.
  intros Hst Hi Hne. assert (file_secs f ⊆ other_secs fd fl) as Hsub.
  { intros e He. unfold other_secs, all_secs. apply list_elem_of_bind. exists f.
    split; [done|]. apply list_elem_of_lookup_2 with i. by rewrite list_lookup_insert_ne. }
  apply file_rep_frame; [apply Hst| |].
  - intros j (e & -> & (s & He & Hs)%list_elem_of_bind)%list_elem_of_fmap.
    apply (st_kvs _ _ _ _ _ Hst). apply list_elem_of_fmap_2, list_elem_of_bind. eauto.
  - intros j (e & -> & He)%list_elem_of_fmap. apply (st_secs _ _ _ _ _ Hst).
    by apply list_elem_of_fmap_2, Hsub.
Qed.

Lemma world_rep_step w w' fl fd f' :
  world_rep w fl → (fd < length fl)%nat → file_step w w' fl fd f' →
  world_rep w' (<[fd := f']> fl).
Proof.
  intros Hw Hfd Hst. pose proof (all_secs_split fd fl f' Hfd) as Hp.
  destruct (ids_of_perm _ _ Hp) as [Hps Hpk].
  split.
  - apply Hst.
  - rewrite (st_nfiles _ _ _ _ _ Hst). apply Hw.
  - rewrite (st_nsecs _ _ _ _ _ Hst). apply Hw.
  - rewrite (st_nkvs _ _ _ _ _ Hst). apply Hw.
  - apply Forall2_same_length_lookup. pose proof (wr_files _ _ Hw) as Hf.
    apply Forall2_same_length_lookup in Hf as [Hlen Hf].
    rewrite (st_nfiles _ _ _ _ _ Hst), length_insert. split; [done|].
    intros i n f Hn Hfi. destruct (decide (i = fd)) as [->|Hne].
    + rewrite list_lookup_insert_eq in Hfi by done. injection Hfi as <-.
      destruct (st_file _ _ _ _ _ Hst) as (n' & Hn' & Hrep). congruence.
    + rewrite list_lookup_insert_ne in Hfi by done.
      rewrite (st_files _ _ _ _ _ Hst) in Hn by done.
      eapply other_file_rep; eauto.
  - unfold all_sec_ids. rewrite Hps. apply Hst.
  - unfold all_kv_ids. rewrite Hpk. apply Hst.
  - intros i n Hn. unfold all_sec_ids. rewrite Hps. by apply Hst.
  - intros i n Hn. unfold all_kv_ids. rewrite Hpk. by apply Hst.
Qed.

(** The same facts of a represented world, around one file. *)
Lemma world_rep_ids w fl fd f :
  world_rep w fl → fl !! fd = Some f →
  NoDup (se_id <$> file_secs f ++ other_secs fd fl) ∧
  NoDup (ke_id <$> ((file_secs f ++ other_secs fd fl) ≫= se_kvs)) ∧
  (∀ i n, w_secs w !! i = Some n →
     i ∉ se_id <$> file_secs f ++ other_secs fd fl → sec_free n) ∧
  (∀ i n, w_kvs w !! i = Some n →
     i ∉ ke_id <$> ((file_secs f ++ other_secs fd fl) ≫= se_kvs) → kv_free n).
Proof.
  intros Hw Hf. destruct (ids_of_perm _ _ (all_secs_at _ _ _ Hf)) as [Hps Hpk].
  unfold all_sec_ids, all_kv_ids in *.
  pose proof (wr_sec_ids _ _ Hw) as H1. pose proof (wr_kv_ids _ _ Hw) as H2.
  unfold all_sec_ids, all_kv_ids in *. rewrite Hps in H1. rewrite Hpk in H2.
  split; [done|]. split; [done|]. split.
  - intros i n Hn Hi. apply (wr_free_secs _ _ Hw i n Hn). unfold all_sec_ids. by rewrite Hps.
  - intros i n Hn Hi. apply (wr_free_kvs _ _ Hw i n Hn). unfold all_kv_ids. by rewrite Hpk.
Qed.

Lemma world_rep_file w fl fd f :
  world_rep w fl → fl !! fd = Some f →
  ∃ n, w_files w !! fd = Some n ∧ file_rep (w_pool w) (w_kvs w) (w_secs w) n f.
Proof.
  intros Hw Hf. pose proof (wr_files _ _ Hw) as H.
  eapply Forall2_lookup_r in H; [|done]. destruct H as (n & Hn & Hr). eauto.
Qed.

Lemma world_rep_fd w fl fd f :
  world_rep w fl → fl !! fd = Some f → (fd < MAX_OPERATION_FILE_NUM)%nat.
Proof.
  intros Hw Hf. destruct (world_rep_file _ _ _ _ Hw Hf) as (n & Hn & _).
  apply lookup_lt_Some in Hn. by rewrite <- (wr_nfiles _ _ Hw).
Qed.

(** Lists of cells are no longer than the arrays. *)
Lemma ids_bounded {N} (arr : list N) (ids : list nat) :
  NoDup ids → (∀ i, i ∈ ids → is_Some (arr !! i)) → (length ids ≤ length arr)%nat.
Proof.
  intros Hnd Hin. rewrite <- (length_seq (length arr) 0).
  apply submseteq_length, NoDup_submseteq; [done|].
  intros i Hi. apply elem_of_seq. specialize (Hin i Hi).
  apply lookup_lt_is_Some in Hin. lia.
Qed.

Lemma kvl_rep_length w fl h l :
  world_rep w fl → kvl_rep (w_pool w) (w_kvs w) h l → NoDup (ke_id <$> l) →
  (length l ≤ INIFILE_KEYVALUE_ARRAY_LEN)%nat.
Proof.
  intros Hw [_ Hl] Hnd. rewrite <- (wr_nkvs _ _ Hw), <- (length_fmap ke_id).
  apply ids_bounded; [done|]. intros i (e & -> & He)%list_elem_of_fmap.
  rewrite Forall_forall in Hl. destruct (Hl e He) as (n & Hn & _). eauto.
Qed.

Lemma secl_rep_length w fl h l :
  world_rep w fl → secl_rep (w_pool w) (w_kvs w) (w_secs w) h l → NoDup (se_id <$> l) →
  (length l ≤ MAX_INIFILE_SECTION_NUM)%nat.
Proof.
  intros Hw [_ Hl] Hnd. rewrite <- (wr_nsecs _ _ Hw), <- (length_fmap se_id).
  apply ids_bounded; [done|]. intros i (e & -> & He)%list_elem_of_fmap.
  rewrite Forall_forall in Hl. destruct (Hl e He) as (n & Hn & _). eauto.
Qed.

(** The identifiers of one file and of one section are distinct. *)
Lemma file_ids_nodup w fl fd name l :
  world_rep w fl → fl !! fd = Some (Some (name, l)) →
  NoDup (se_id <$> l) ∧ NoDup (ke_id <$> (l ≫= se_kvs)).
Proof.
  intros Hw Hf. destruct (world_rep_ids _ _ _ _ Hw Hf) as (H1 & H2 & _).
  rewrite fmap_app in H1. rewrite bind_app, fmap_app in H2. cbn in *.
  apply NoDup_app in H1, H2. tauto.
Qed.

Lemma sec_ids_nodup l1 e l2 :
  NoDup (ke_id <$> ((l1 ++ e :: l2) ≫= se_kvs)) → NoDup (ke_id <$> se_kvs e).
Proof.
  rewrite bind_app, bind_cons, !fmap_app. intros (_ & _ & H)%NoDup_app.
  by apply NoDup_app in H as (H & _).
Qed.

(** ** Looking things up *)

Lemma world_rep_held h w fl : world_rep w fl → world_rep (set_held h w) fl.
Proof. intros []; by split. Qed.
Lemma world_rep_fs f w fl : world_rep w fl → world_rep (set_fs f w) fl.
Proof. intros []; by split. Qed.

Lemma get_file_ok i n w : w_files w !! i = Some n → get_file i w = Done (n, w).
Proof. intros H. unfold get_file. by rewrite H. Qed.
Lemma get_sec_ok i n w : w_secs w !! i = Some n → get_sec i w = Done (n, w).
Proof. intros H. unfold get_sec. by rewrite H. Qed.
Lemma get_kv_ok i n w : w_kvs w !! i = Some n → get_kv i w = Done (n, w).
Proof. intros H. unfold get_kv. by rewrite H. Qed.

Section lookups.
Context (w : world) (fl : list file_entry) (fd : nat) (name : list Z) (l : list sec_entry).
Hypothesis Hw : world_rep w fl.
Hypothesis Hf : fl !! fd = Some (Some (name, l)).

Lemma locate_file :
  ∃ n, w_files w !! fd = Some n ∧ file_flag n = STRUCT_NODE_IN_USED ∧
  str_at (w_pool w) (file_name n) name ∧
  secl_rep (w_pool w) (w_kvs w) (w_secs w) (file_head n) l.
Proof using Hw Hf.
  destruct (world_rep_file _ _ _ _ Hw Hf) as (n & Hn & Hr). eauto.
Qed.

Lemma locate_section n sb slen s :
  w_files w !! fd = Some n → names sb slen s →
  find_inifile_section (file_head n) (Some sb) slen w =
  Done (se_id <$> find_sec s l, w).
Proof using Hw Hf.
  intros Hn Hs. destruct locate_file as (n' & Hn' & _ & _ & Hl).
  assert (n' = n) as -> by congruence.
  apply find_section_spec; [done|done|].
  eapply secl_rep_length; [done|done|]. by destruct (file_ids_nodup _ _ _ _ _ Hw Hf).
Qed.

Lemma locate_sec_cell e :
  e ∈ l → sec_rep (w_pool w) (w_kvs w) (w_secs w) e.
Proof using Hw Hf.
  intros He. destruct locate_file as (n' & Hn' & _ & _ & [_ Hl]).
  rewrite Forall_forall in Hl. by apply Hl.
Qed.

Lemma locate_key e sc kb klen k :
  e ∈ l → w_secs w !! se_id e = Some sc → names kb klen k →
  find_keyvalue_unsect (sec_head sc) (Some kb) klen w =
  Done (ke_id <$> find_kv k (se_kvs e), w).
Proof using Hw Hf.
  intros He Hsc Hk. destruct (locate_sec_cell e He) as (sc' & Hsc' & _ & _ & Hl).
  assert (sc' = sc) as -> by congruence.
  apply find_keyvalue_spec; [done|done|].
  eapply kvl_rep_length; [done|done|].
  destruct (file_ids_nodup _ _ _ _ _ Hw Hf) as [_ Hnd].
  apply list_elem_of_split in He as (l1 & l2 & ->). by eapply sec_ids_nodup.
Qed.
End lookups.

Lemma find_sec_elem s l e : find_sec s l = Some e → e ∈ l ∧ se_name e = s.
Proof. intros (l1 & l2 & -> & Hn & _)%find_sec_Some. set_solver. Qed.
Lemma find_kv_elem s l e : find_kv s l = Some e → e ∈ l ∧ ke_key e = s.
Proof. intros (l1 & l2 & -> & Hn & _)%find_kv_Some. set_solver. Qed.

Lemma bad_fd_ok w fl fd f :
  world_rep w fl → fl !! fd = Some f → bad_fd (Z.of_nat fd) = false.
Proof.
  intros Hw Hf. pose proof (world_rep_fd _ _ _ _ Hw Hf). unfold bad_fd.
  apply orb_false_iff. split; [apply Z.ltb_ge|apply Z.leb_gt]; lia.
Qed.

(** The documents of the abstract value of a key. *)
Lemma doc_get_find s k l :
  doc_get (doc_of l) s k =
  match find_sec s l with
  | Some e => ke_val <$> find_kv k (se_kvs e)
  | None => None
  end.
Proof.
  unfold doc_get. rewrite <- find_sec_alookup. destruct (find_sec s l); [|done].
  cbn. by rewrite find_kv_alookup.
Qed.

(** The descriptor and the names of a call, and what they denote. *)
Record call_names (par : INI_PARAMETER) (s k : list Z) : Prop := {
  cn_section : ∃ b, par_section par = Some b ∧ names b (par_section_len par) s;
  cn_key : ∃ b, par_key par = Some b ∧ names b (par_key_len par) k;
}.

Definition locked (fd : nat) (w : world) : world :=
  set_held (FILE_LOCK fd :: w_held w) w.

Lemma lock_file fd w :
  FILE_LOCK fd ∉ w_held w →
  pthread_mutex_lock (FILE_LOCK fd) w = Done (tt, locked fd w).
Proof. apply lock_ok. Qed.

Lemma unlock_locked fd w :
  pthread_mutex_unlock (FILE_LOCK fd) (locked fd w) = Done (tt, w).
Proof. erewrite unlock_ok by done. by destruct w. Qed.

(** C1: [get_value_ofkey] on an open file returns the address of the value
    the document gives for the section and the key, or NULL when it gives
    none; the state is as before and the file's lock is free again. *)
Theorem get_value_ofkey_doc w fl fd name l par s k :
  world_rep w fl → fl !! fd = Some (Some (name, l)) →
  FILE_LOCK fd ∉ w_held w → call_names par s k →
  ∃ p, get_value_ofkey (Z.of_nat fd) (Some par) w = Done (p, w) ∧
    match doc_get (doc_of l) s k with
    | Some v => str_at (w_pool w) p v
    | None => p = None
    end.
Proof.
  intros Hw Hf Hlock [(sb & Hsb & Hs) (kb & Hkb & Hk)].
  set (w1 := locked fd w).
  pose proof (world_rep_held (FILE_LOCK fd :: w_held w) w fl Hw : world_rep w1 fl) as Hw1.
  destruct (locate_file w1 fl fd name l Hw1 Hf) as (n & Hn & _ & _ & _).
  unfold get_value_ofkey. rewrite Hsb, Hkb, (bad_fd_ok _ _ _ _ Hw Hf), Nat2Z.id.
  run (lock_file _ _ Hlock). fold w1.
  run (get_file_ok _ _ _ Hn).
  run (locate_section w1 fl fd name l Hw1 Hf n sb _ s Hn Hs).
  rewrite doc_get_find. destruct (find_sec s l) as [e|] eqn:Ee; cbn [fmap option_fmap option_map].
  2:{ exists None. rewrite M_bind_ret, (M_bind_done _ _ _ _ _ (unlock_locked fd w)). done. }
  destruct (find_sec_elem _ _ _ Ee) as [He _].
  destruct (locate_sec_cell w1 fl fd name l Hw1 Hf e He) as (sc & Hsc & _ & _ & _ & Hkv).
  pose proof (locate_key w1 fl fd name l Hw1 Hf e sc kb _ k He Hsc Hk) as Hfind.
  destruct (find_kv k (se_kvs e)) as [x|] eqn:Ex; cbn [fmap option_fmap option_map] in *.
  - destruct (find_kv_elem _ _ _ Ex) as [Hx _]. rewrite Forall_forall in Hkv.
    destruct (Hkv x Hx) as (nk & Hnk & _ & _ & Hv). exists (kv_value nk). split; [|exact Hv].
    erewrite M_bind_done.
    2:{ run (get_sec_ok _ _ _ Hsc).
        run Hfind. cbn.
        by run (get_kv_ok _ _ _ Hnk). }
    by run (unlock_locked fd w).
  - exists None. split; [|done]. erewrite M_bind_done.
    2:{ run (get_sec_ok _ _ _ Hsc).
        by run Hfind. }
    by run (unlock_locked fd w).
Qed.

