(* ===== verification/V2Clear.v ===== *)
(** * inifile v2.0.0: deleting pairs and sections, and closing a file

    What [unlink_keyval], [unlink_section] and [destroy_ini_source] do to the
    arrays, and that this is the deletion of the document's pair or section. *)

From S2P Require Import Prelude CString DList FileSys V2Data V2Line V2Rewrite V2Api V2Rep IniSpec V2Layout V2Refine.
From stdpp Require Import gmap strings.

Open Scope Z_scope.

(** Run the assignments to cells at the front of a program. *)
Ltac world_cbn :=
  cbn [set_pool set_files set_secs set_kvs set_held set_fs
       w_pool w_files w_secs w_kvs w_held w_fs] in *.
Ltac cell_step :=
  first [ erewrite M_bind_done by (apply with_kv_ok; world_cbn; rewrite ?length_alter; done)
        | erewrite M_bind_done by (apply with_sec_ok; world_cbn; rewrite ?length_alter; done)
        | erewrite M_bind_done by (apply with_file_ok; world_cbn; rewrite ?length_alter; done) ];
  world_cbn; cbn beta iota.
Ltac cell_last :=
  first [ erewrite with_kv_ok by (world_cbn; rewrite ?length_alter; done)
        | erewrite with_sec_ok by (world_cbn; rewrite ?length_alter; done)
        | erewrite with_file_ok by (world_cbn; rewrite ?length_alter; done) ];
  world_cbn; cbn beta iota.

(** The five assignments that clear a pair. *)
Lemma clear_kv_run i w :
  (i < length (w_kvs w))%nat →
  (with_kv i (kv_set_pre None) ;; with_kv i (kv_set_last None) ;;
   with_kv i (kv_set_key None) ;; with_kv i (kv_set_value None) ;;
   with_kv i (kv_set_flag STRUCT_NODE_UN_USED)) w =
  Done (tt, set_kvs (alter (λ _, kv0) i (w_kvs w)) w).
Proof. intros H. repeat cell_step. cell_last. by rewrite !alter_twice. Qed.

Lemma unlink_keyval_run w s sc i1 i i2 :
  w_secs w !! s = Some sc →
  dlist (kv_links (w_kvs w)) (sec_head sc) (i1 ++ i :: i2) → NoDup (i1 ++ i :: i2) →
  unlink_keyval s i w =
  Done (tt, set_kvs (unlinked (w_kvs w) i1 i i2)
         (set_secs (alter (sec_set_head (head_or (i1 ++ i2) None)) s (w_secs w)) w)).
Proof.
  intros Hsc Hd Hnd.
  destruct (nodup_middle _ _ _ Hnd) as (Hi1 & Hi2 & H12).
  destruct (cell_at _ _ _ _ _ _ Hd) as (n & Hn & Hpre & Hlast).
  cbn in Hpre, Hlast.
  pose proof (dseg_head _ _ _ _ _ Hd) as Hh. rewrite head_or_app in Hh. cbn in Hh.
  pose proof (lookup_lt_Some _ _ _ Hn) as Hlt.
  pose proof (lookup_lt_Some _ _ _ Hsc) as Hslt.
  assert (∀ q, q ∈ i2 → (q < length (w_kvs w))%nat) as Hi2lt.
  { intros q Hq. eapply cell_valid; [exact Hd|set_solver]. }
  unfold unlink_keyval. run (get_kv_ok _ _ _ Hn). rewrite Hpre, Hlast.
  unfold unlinked. cbn [ln_set_last ln_set_pre ln_zero kv_linked]. destruct i1 as [|p i1 _] using rev_ind.
  - cbn [last_or last]. cell_step. erewrite M_bind_done by (apply get_kv_ok; exact Hn).
    rewrite Hpre, Hlast. destruct i2 as [|q i2]; cbn [head_or head].
    + cell_step. rewrite clear_kv_run by (world_cbn; by rewrite ?length_alter). by rewrite alter_twice.
    + pose proof (Hi2lt q ltac:(set_solver)). cell_step.
      rewrite clear_kv_run by (world_cbn; by rewrite ?length_alter). done.
  - rewrite last_or_snoc, last_snoc in *.
    assert (p < length (w_kvs w))%nat by (eapply cell_valid; [exact Hd|set_solver]). assert (p ≠ i) by set_solver.
    assert (alter (sec_set_head (head_or ((i1 ++ [p]) ++ i2) None)) s (w_secs w) = w_secs w)
      as ->.
    { eapply alter_same; [done|]. destruct sc. cbn in *. rewrite Hh, head_or_app.
      by destruct i1. }
    cell_step. erewrite M_bind_done
      by (apply get_kv_ok; world_cbn; by rewrite list_lookup_alter_ne).
    rewrite Hpre, Hlast. destruct i2 as [|q i2]; cbn [head_or head].
    + cell_step. rewrite clear_kv_run by (world_cbn; by rewrite ?length_alter).
      world_cbn. by rewrite alter_twice.
    + pose proof (Hi2lt q ltac:(set_solver)). cell_step.
      rewrite clear_kv_run by (world_cbn; by rewrite ?length_alter). done.
Qed.

(** ** Deleting a pair is deleting it from the document *)

Lemma unlinked_kvl_rep pm kvs h l1 e l2 :
  kvl_rep pm kvs h (l1 ++ e :: l2) → NoDup (ke_id <$> l1 ++ e :: l2) →
  kvl_rep pm (unlinked kvs (ke_id <$> l1) (ke_id e) (ke_id <$> l2))
    (head_or (ke_id <$> l1 ++ l2) None) (l1 ++ l2).
Proof.
  intros [Hd Hl] Hnd. rewrite fmap_app, fmap_cons in Hd, Hnd. split.
  - rewrite fmap_app. by eapply unlinked_dlist.
  - rewrite Forall_app, Forall_cons in Hl. destruct Hl as (H1 & _ & H2).
    destruct (nodup_middle _ _ _ Hnd) as (Hn1 & Hn2 & _).
    assert (∀ x, x ∈ l1 ++ l2 → kv_rep pm kvs x) as Hall.
    { apply Forall_forall. by rewrite Forall_app. }
    apply Forall_forall. intros x Hx. eapply kv_rep_data; [done| |by apply Hall].
    apply unlinked_data; [done|done|]. intros E. rewrite <- E in *.
    apply elem_of_app in Hx as [Hx|Hx]; [apply Hn1|apply Hn2]; by apply list_elem_of_fmap_2.
Qed.

Definition sec_with (e : sec_entry) (kvs : list kv_entry) : sec_entry :=
  SEC (se_id e) (se_name e) kvs.

(** The ids of a file in which one section has other pairs. *)
Lemma sec_with_ids L1 e L2 kvs :
  se_id <$> L1 ++ sec_with e kvs :: L2 = se_id <$> L1 ++ e :: L2.
Proof. by rewrite !fmap_app. Qed.

Lemma kv_ids_middle L1 e L2 O :
  ke_id <$> (((L1 ++ e :: L2) ++ O) ≫= se_kvs) ≡ₚ
  (ke_id <$> se_kvs e) ++ (ke_id <$> ((L1 ++ L2 ++ O) ≫= se_kvs)).
Proof.
  rewrite !bind_app, bind_cons, !fmap_app. solve_Permutation.
Qed.

Section unlink_world.
Context (w : world) (fl : list file_entry) (fd : nat) (name : list Z).
Context (L1 : list sec_entry) (e : sec_entry) (L2 : list sec_entry).
Context (l1 : list kv_entry) (x : kv_entry) (l2 : list kv_entry).
Hypothesis Hw : world_rep w fl.
Hypothesis Hf : fl !! fd = Some (Some (name, L1 ++ e :: L2)).
Hypothesis He : se_kvs e = l1 ++ x :: l2.

Let kvs' := unlinked (w_kvs w) (ke_id <$> l1) (ke_id x) (ke_id <$> l2).
Let secs' := alter (sec_set_head (head_or (ke_id <$> l1 ++ l2) None)) (se_id e) (w_secs w).
Let w' := set_kvs kvs' (set_secs secs' w).

Lemma unlink_kv_ids_nodup :
  NoDup (ke_id <$> l1 ++ x :: l2) ∧
  (∀ i, i ∈ ke_id <$> l1 ++ x :: l2 →
   i ∉ ke_id <$> ((L1 ++ L2 ++ other_secs fd fl) ≫= se_kvs)) ∧
  NoDup (ke_id <$> ((L1 ++ L2 ++ other_secs fd fl) ≫= se_kvs)).
Proof.
  destruct (world_rep_ids _ _ _ _ Hw Hf) as (_ & H & _). cbn in H.
  rewrite kv_ids_middle, He in H. apply NoDup_app in H. done.
Qed.

Lemma unlink_sec_ids_nodup :
  se_id e ∉ se_id <$> (L1 ++ L2 ++ other_secs fd fl).
Proof.
  destruct (world_rep_ids _ _ _ _ Hw Hf) as (H & _). cbn in H.
  rewrite <- app_assoc in H. cbn in H. apply ids_middle in H. set_solver.
Qed.

Lemma unlink_secl_rep n :
  secl_rep (w_pool w) (w_kvs w) (w_secs w) (file_head n) (L1 ++ e :: L2) →
  secl_rep (w_pool w) kvs' secs' (file_head n) (L1 ++ sec_with e (l1 ++ l2) :: L2).
Proof.
  intros [Hd Hl]. split.
  - rewrite sec_with_ids. eapply dseg_frame; [|exact Hd]. intros i _.
  unfold sec_links, secs'. by apply cell_links_alter_data.
  - rewrite Forall_app, Forall_cons in Hl |- *. destruct Hl as (H1 & H & H2).
  destruct unlink_kv_ids_nodup as (Hnd & Hout & _).
  assert (∀ y, y ∈ L1 ++ L2 → sec_rep (w_pool w) (w_kvs w) (w_secs w) y →
            sec_rep (w_pool w) kvs' secs' y) as Hother.
  { intros y Hy. apply sec_rep_frame; [done| |].
    - intros i Hi. apply unlinked_lookup. rewrite <- fmap_cons, <- fmap_app.
      intros Hin. apply (Hout i Hin).
      apply list_elem_of_fmap in Hi as (z & -> & Hz). apply list_elem_of_fmap_2.
      apply list_elem_of_bind. exists y. set_solver.
    - apply list_lookup_alter_ne. intros E. apply unlink_sec_ids_nodup. rewrite E.
      apply list_elem_of_fmap_2. set_solver. }
  split; [|split].
  + rewrite Forall_forall in H1 |- *. intros y Hy. apply Hother; [set_solver|auto].
  + destruct H as (sc & Hsc & Hfl & Hnm & Hkv). unfold sec_rep. cbn.
    exists (sec_set_head (head_or (ke_id <$> l1 ++ l2) None) sc).
    split; [by unfold secs'; rewrite list_lookup_alter_eq, Hsc|].
    split; [done|]. split; [done|]. cbn. rewrite He in Hkv.
    eapply unlinked_kvl_rep; [exact Hkv|done].
  + rewrite Forall_forall in H2 |- *. intros y Hy. apply Hother; [set_solver|auto].
Qed.

Lemma unlink_keyval_rep :
  unlink_keyval (se_id e) (ke_id x) w = Done (tt, w') ∧
  world_rep w' (<[fd := Some (name, L1 ++ sec_with e (l1 ++ l2) :: L2)]> fl).
Proof.
  destruct unlink_kv_ids_nodup as (Hnd & Hout & Hrest).
  destruct (locate_file _ _ _ _ _ Hw Hf) as (n & Hn & Hflag & Hname & Hsl).
  assert (e ∈ L1 ++ e :: L2) as Hein by set_solver.
  destruct (locate_sec_cell _ _ _ _ _ Hw Hf e Hein) as (sc & Hsc & _ & _ & Hkv).
  rewrite He in Hkv. split.
  { destruct Hkv as [Hd _]. rewrite fmap_app, fmap_cons in Hd, Hnd.
  erewrite unlink_keyval_run; [|done|exact Hd|done]. by rewrite <- fmap_app. }
  destruct (world_rep_ids _ _ _ _ Hw Hf) as (Hsi & Hki & Hfs & Hfk). cbn in *.
  eapply world_rep_step; [done|by eapply lookup_lt_Some|]. split; cbn; try done.
  - apply Hw.
  - unfold secs'. by rewrite length_alter.
  - apply unlinked_length.
  - exists n. split; [done|]. split; [done|]. split; [done|]. by apply unlink_secl_rep.
  - intros i Hi. apply list_lookup_alter_ne. intros <-.
  apply unlink_sec_ids_nodup. rewrite !fmap_app, !elem_of_app. auto.
  - intros i Hi. apply unlinked_lookup. rewrite <- fmap_cons, <- fmap_app. intros Hin.
  apply (Hout i Hin). rewrite !bind_app, !fmap_app, !elem_of_app. auto.
  - rewrite fmap_app, sec_with_ids, <- fmap_app. done.
  - rewrite kv_ids_middle. cbn. rewrite kv_ids_middle, He in Hki.
  rewrite fmap_app, fmap_cons, <- Permutation_middle in Hki. cbn in Hki.
  apply NoDup_cons in Hki as [_ Hki]. by rewrite fmap_app.
  - intros i m Hm Hi. rewrite fmap_app, sec_with_ids, <- fmap_app in Hi.
  unfold secs' in Hm. destruct (decide (se_id e = i)) as [<-|Hne].
  + exfalso. apply Hi. rewrite !fmap_app, !elem_of_app. cbn. set_solver.
  + rewrite list_lookup_alter_ne in Hm by done. by eapply Hfs.
  - intros i m Hm Hi. unfold kvs' in Hm. destruct (decide (i = ke_id x)) as [->|Hne].
  + rewrite unlinked_self in Hm; [by injection Hm as <-|].
    destruct Hkv as [_ Hl]. rewrite Forall_app, Forall_cons in Hl.
    destruct Hl as (_ & (k & Hk & _) & _). by eapply lookup_lt_Some.
  + rewrite kv_ids_middle in Hi. cbn in Hi.
    rewrite unlinked_lookup in Hm.
    * eapply Hfk; [done|]. rewrite kv_ids_middle, He. set_solver.
    * set_solver.
Qed.
End unlink_world.

Lemma doc_of_unlink L1 e L2 l1 x l2 :
  se_kvs e = l1 ++ x :: l2 → se_name e ∉ se_name <$> L1 → ke_key x ∉ ke_key <$> l1 →
  doc_of (L1 ++ sec_with e (l1 ++ l2) :: L2) =
  doc_del_key (doc_of (L1 ++ e :: L2)) (se_name e) (ke_key x).
Proof.
  intros He HL Hl. unfold doc_del_key, doc_of. rewrite !fmap_app, !fmap_cons.
  unfold entry_sec at 2 5. cbn. rewrite alist_alter_middle.
  - rewrite He, !fmap_app, fmap_cons. unfold entry_pair at 4.
    rewrite alist_delete_middle; [done|]. by rewrite <- list_fmap_compose.
  - by rewrite <- list_fmap_compose.
Qed.

(** ** inifile v2.0.0: clearing pairs, sections and files

    What [clear_keyvals], [unlink_section], [clear_sections] and
    [destroy_ini_source] do to the arrays. *)

(** ** Clearing a list of pairs *)

Lemma clear_keyvals_run ids fuel prev h w :
  dseg (kv_links (w_kvs w)) prev h ids None → NoDup ids → (length ids ≤ fuel)%nat →
  clear_keyvals fuel h w = Done (tt, set_kvs (zap kv0 ids (w_kvs w)) w).
Proof.
  revert fuel prev h w; induction ids as [|i ids IH]; intros fuel prev h w Hd Hnd Hf.
  { cbn in Hd. subst h. destruct fuel, w; done. }
  destruct fuel as [|fuel]; [cbn in Hf; lia|].
  apply NoDup_cons in Hnd as [Hi Hnd].
  destruct (cell_at _ _ _ [] i ids Hd) as (n & Hn & Hpre & Hlast). cbn in Hpre, Hlast.
  pose proof (lookup_lt_Some _ _ _ Hn) as Hlt.
  destruct Hd as (-> & t & Hlk & Hd). cbn [clear_keyvals].
  do 3 cell_step. erewrite M_bind_done.
  2:{ apply get_kv_ok. world_cbn. rewrite !list_lookup_alter_eq, Hn. done. }
  cbn [fmap option_fmap option_map kv_last kv_set_pre kv_set_value kv_set_key].
  assert (t = kv_last n) as -> by (cbn in Hlk; unfold links_of in Hlk; rewrite Hn in Hlk;
    by injection Hlk).
  assert (∀ (w' : world) , w_kvs w' = alter (λ _, kv0) i (w_kvs w) →
    clear_keyvals fuel (kv_last n) w' =
    Done (tt, set_kvs (zap kv0 ids (w_kvs w')) w')) as Hrec.
  { intros w' Hw'. apply (IH fuel (Some i)); [|done|cbn in Hf; lia].
    eapply dseg_frame; [|exact Hd]. intros j Hj. unfold kv_links, cell_links, links_of.
    rewrite Hw', list_lookup_alter_ne; [done|]. intros <-. done. }
  destruct ids as [|j ids]; cbn [head_or] in Hlast; rewrite Hlast in *.
  - cell_step. rewrite Hrec.
    + world_cbn. rewrite !alter_twice.
      rewrite (alter_at _ (λ _, kv0) _ _ _ Hn); [done|].
      destruct n. cbn in *. by subst.
    + world_cbn. rewrite !alter_twice. eapply alter_at; [exact Hn|].
      destruct n. cbn in *. by subst.
  - destruct (cell_at _ _ _ [] j ids Hd) as (m & Hm & Hmp & _). cbn in Hmp.
    assert (j ≠ i) by set_solver.
    erewrite M_bind_done.
    2:{ apply get_kv_ok. world_cbn. rewrite !list_lookup_alter_ne by done. exact Hm. }
    cbn beta iota. rewrite Hmp. do 2 cell_step. rewrite Hrec.
    + world_cbn. by rewrite !alter_twice.
    + world_cbn. by rewrite !alter_twice.
Qed.

Lemma zap_kv_data ids kvs j :
  j ∉ ids → kv_data <$> zap kv0 ids kvs !! j = kv_data <$> kvs !! j.
Proof. intros Hj. by rewrite zap_out. Qed.

(** ** Taking a section out of the file's list *)

Section unlink_section.
Context (w : world) (fd : nat) (fc : INI_FILE) (i1 : list nat) (i : nat) (i2 : list nat).
Context (sc : INI_SETION) (ks : list nat).
Hypothesis Hfc : w_files w !! fd = Some fc.
Hypothesis Hd : dlist (sec_links (w_secs w)) (file_head fc) (i1 ++ i :: i2).
Hypothesis Hnd : NoDup (i1 ++ i :: i2).
Hypothesis Hsc : w_secs w !! i = Some sc.
Hypothesis Hk : dlist (kv_links (w_kvs w)) (sec_head sc) ks.
Hypothesis Hknd : NoDup ks.
Hypothesis Hklen : (length ks ≤ INIFILE_KEYVALUE_ARRAY_LEN)%nat.

(** The five assignments that clear the cell, and the pairs. *)
Lemma clear_sec_run (w' : world) :
  w_kvs w' = w_kvs w → w_secs w' !! i = Some sc ∨
  (∃ p q, w_secs w' !! i = Some (sec_set_pre p (sec_set_last q sc))) →
  (with_sec i (sec_set_pre None) ;; with_sec i (sec_set_last None) ;;
  with_sec i (sec_set_sec None) ;;
  n ← get_sec i;
  let p_keyval := sec_head n in
  with_sec i (sec_set_head None) ;; with_sec i (sec_set_flag STRUCT_NODE_UN_USED) ;;
  clear_keyvals INIFILE_KEYVALUE_ARRAY_LEN p_keyval) w' =
  Done (tt, set_kvs (zap kv0 ks (w_kvs w))
           (set_secs (alter (λ _, sec0) i (w_secs w')) w')).
Proof using Hk Hknd Hklen.
  intros Hkv Hs.
  assert (∃ n, w_secs w' !! i = Some n ∧ sec_head n = sec_head sc) as (n & Hn & Hh).
  { destruct Hs as [?|(? & ? & ?)]; eauto. }
  pose proof (lookup_lt_Some _ _ _ Hn) as Hlt. do 3 cell_step.
  erewrite M_bind_done.
  2:{ apply get_sec_ok. world_cbn. rewrite !list_lookup_alter_eq, Hn. done. }
  cbn [sec_head sec_set_sec sec_set_last sec_set_pre fmap option_fmap option_map].
  do 2 cell_step. rewrite Hh.
  rewrite (clear_keyvals_run ks _ None).
  - world_cbn. rewrite Hkv. by rewrite !alter_twice.
  - world_cbn. by rewrite Hkv.
  - done.
  - done.
Qed.

Lemma unlink_section_run :
  unlink_section fd i w =
  Done (tt, set_kvs (zap kv0 ks (w_kvs w))
  (set_secs (unlinked (w_secs w) i1 i i2)
    (set_files (alter (file_set_head (head_or (i1 ++ i2) None)) fd (w_files w)) w))).
Proof.
  destruct (nodup_middle _ _ _ Hnd) as (Hi1 & Hi2 & H12).
  destruct (cell_at _ _ _ _ _ _ Hd) as (n & Hn & Hpre & Hlast). cbn in Hpre, Hlast.
  assert (n = sc) as -> by congruence.
  pose proof (dseg_head _ _ _ _ _ Hd) as Hh. rewrite head_or_app in Hh. cbn in Hh.
  pose proof (lookup_lt_Some _ _ _ Hn) as Hlt.
  pose proof (lookup_lt_Some _ _ _ Hfc) as Hflt.
  assert (∀ q, q ∈ i1 ++ i2 → (q < length (w_secs w))%nat) as Hvalid.
  { intros q Hq. eapply cell_valid; [exact Hd|set_solver]. }
  unfold unlink_section. run (get_sec_ok _ _ _ Hn). rewrite Hpre, Hlast.
  unfold unlinked. cbn [ln_set_last ln_set_pre ln_zero sec_linked].
  destruct i1 as [|p j1 _] using rev_ind.
  - cbn [last_or last]. cell_step. erewrite M_bind_done by (apply get_sec_ok; exact Hn).
  rewrite Hpre, Hlast. destruct i2 as [|q j2]; cbn [head_or head app].
  + cell_step. rewrite clear_sec_run; [|done|by left]. world_cbn. by rewrite alter_twice.
  + pose proof (Hvalid q ltac:(set_solver)). cell_step.
    rewrite clear_sec_run; [done|done|left].
    world_cbn. rewrite list_lookup_alter_ne by set_solver. done.
  - rewrite last_or_snoc, last_snoc in *.
  pose proof (Hvalid p ltac:(set_solver)). assert (p ≠ i) by set_solver.
  assert (alter (file_set_head (head_or ((j1 ++ [p]) ++ i2) None)) fd (w_files w)
          = w_files w) as ->.
  { eapply alter_same; [exact Hfc|]. clear -Hh. destruct fc. cbn in *.
    rewrite Hh, head_or_app. by destruct j1. }
  cell_step. erewrite M_bind_done
    by (apply get_sec_ok; world_cbn; by rewrite list_lookup_alter_ne).
  rewrite Hpre, Hlast. destruct i2 as [|q j2]; cbn [head_or head].
  + cell_step. rewrite clear_sec_run; [|done|left].
    * world_cbn. by rewrite !alter_twice.
    * world_cbn. rewrite alter_twice, list_lookup_alter_ne by done. done.
  + pose proof (Hvalid q ltac:(set_solver)). cell_step.
    rewrite clear_sec_run; [done|done|left].
    world_cbn. rewrite !list_lookup_alter_ne by set_solver. done.
Qed.
End unlink_section.

(** ** Clearing every section of a file *)

Lemma clear_sections_run l fuel prev h w :
  dseg (sec_links (w_secs w)) prev h (se_id <$> l) None →
  Forall (sec_rep (w_pool w) (w_kvs w) (w_secs w)) l →
  NoDup (se_id <$> l) → NoDup (ke_id <$> (l ≫= se_kvs)) → (length l ≤ fuel)%nat →
  (∀ e, e ∈ l → (length (se_kvs e) ≤ INIFILE_KEYVALUE_ARRAY_LEN)%nat) →
  clear_sections fuel h w =
  Done (tt, set_kvs (zap kv0 (ke_id <$> (l ≫= se_kvs)) (w_kvs w))
             (set_secs (zap sec0 (se_id <$> l) (w_secs w)) w)).
Proof.
  revert fuel prev h w; induction l as [|e l IH]; intros fuel prev h w Hd Hl Hnd Hknd Hf Hlen.
  { cbn in Hd. subst h. destruct fuel, w; done. }
  destruct fuel as [|fuel]; [cbn in Hf; lia|].
  rewrite fmap_cons in Hd, Hnd. rewrite bind_cons, fmap_app in Hknd.
  apply NoDup_cons in Hnd as [Hi Hnd]. apply Forall_cons in Hl as [He Hl].
  apply NoDup_app in Hknd as (Hk1 & Hk12 & Hk2).
  destruct (cell_at _ _ _ [] (se_id e) _ Hd) as (n & Hn & Hpre & Hlast). cbn in Hpre, Hlast.
  destruct He as (n' & Hn' & _ & _ & [Hkd _]). assert (n' = n) as -> by congruence.
  pose proof (lookup_lt_Some _ _ _ Hn) as Hlt.
  destruct Hd as (-> & t & Hlk & Hd). cbn [clear_sections].
  assert (t = sec_last n) as -> by (cbn in Hlk; unfold links_of in Hlk; rewrite Hn in Hlk;
    by injection Hlk).
  run (get_sec_ok _ _ _ Hn).
  erewrite M_bind_done.
  2:{ apply (clear_keyvals_run (ke_id <$> se_kvs e) _ None); [exact Hkd|done|].
      rewrite length_fmap. apply Hlen. set_solver. }
  world_cbn. do 3 cell_step. erewrite M_bind_done.
  2:{ apply get_sec_ok. world_cbn. rewrite !list_lookup_alter_eq, Hn. done. }
  cbn [fmap option_fmap option_map sec_last sec_set_pre sec_set_head sec_set_sec].
  assert (∀ (w' : world), w_pool w' = w_pool w →
    w_secs w' = alter (λ _, sec0) (se_id e) (w_secs w) →
    w_kvs w' = zap kv0 (ke_id <$> se_kvs e) (w_kvs w) →
    clear_sections fuel (sec_last n) w' =
    Done (tt, set_kvs (zap kv0 (ke_id <$> (l ≫= se_kvs)) (w_kvs w'))
             (set_secs (zap sec0 (se_id <$> l) (w_secs w')) w'))) as Hrec.
  { intros w' Hp Hs Hk.
    assert (∀ j, j ∈ se_id <$> l → w_secs w' !! j = w_secs w !! j) as Hsj.
    { intros j Hj. rewrite Hs, list_lookup_alter_ne; [done|]. by intros <-. }
    apply (IH fuel (Some (se_id e))); [| |done|done|cbn in Hf; lia|set_solver].
    - eapply dseg_frame; [|exact Hd]. intros j Hj.
      unfold sec_links, cell_links, links_of. by rewrite Hsj.
    - rewrite Forall_forall in Hl |- *. intros x Hx. eapply sec_rep_frame; [|  | |by apply Hl].
      + by rewrite Hp.
      + intros j Hj. rewrite Hk. apply zap_out. intros Hj'. apply (Hk12 j Hj').
        apply list_elem_of_fmap in Hj as (y & -> & Hy). apply list_elem_of_fmap_2.
        apply list_elem_of_bind. eauto.
      + apply Hsj. by apply list_elem_of_fmap_2. }
  rewrite bind_cons, fmap_app, zap_app, fmap_cons.
  destruct l as [|e' l]; cbn [fmap list_fmap head_or] in Hlast; rewrite Hlast in *.
  - assert (alter (sec_set_flag STRUCT_NODE_UN_USED) (se_id e) (alter (sec_set_pre None) (se_id e)
      (alter (sec_set_head None) (se_id e) (alter (sec_set_sec None) (se_id e) (w_secs w)))) =
      alter (λ _, sec0) (se_id e) (w_secs w)) as Hcell.
    { rewrite !alter_twice. eapply alter_at; [exact Hn|].
      destruct n. cbn in *. by subst. }
    cell_step. rewrite Hrec; [|done|done|done]. world_cbn. by rewrite Hcell.
  - destruct (cell_at _ _ _ [] (se_id e') _ Hd) as (m & Hm & Hmp & _). cbn in Hmp.
    assert (se_id e' ≠ se_id e) by set_solver.
    erewrite M_bind_done.
    2:{ apply get_sec_ok. world_cbn. rewrite !list_lookup_alter_ne by done. exact Hm. }
    cbn beta iota. rewrite Hmp. do 2 cell_step.
    assert (alter (sec_set_flag STRUCT_NODE_UN_USED) (se_id e)
      (alter (sec_set_last None) (se_id e) (alter (sec_set_pre None) (se_id e)
      (alter (sec_set_head None) (se_id e) (alter (sec_set_sec None) (se_id e) (w_secs w))))) =
      alter (λ _, sec0) (se_id e) (w_secs w)) as Hcell by (by rewrite !alter_twice).
    rewrite Hrec; [|done|done|done]. world_cbn. by rewrite Hcell.
Qed.

(** ** The document after closing a file and after deleting a section *)

Section clear_world.
Context (w : world) (fl : list file_entry) (fd : nat) (name : list Z).

(** The cells of [gone] are cleared, those of [L] and of the other files
  are not touched. *)
Lemma zap_step (L gone : list sec_entry) (secs' : list INI_SETION)
  (files' : list INI_FILE) f' :
  world_rep w fl →
  (se_id <$> L ++ gone) ++ (se_id <$> other_secs fd fl) ≡ₚ all_sec_ids fl →
  (ke_id <$> ((L ++ gone) ≫= se_kvs)) ++ (ke_id <$> (other_secs fd fl ≫= se_kvs))
  ≡ₚ all_kv_ids fl →
  file_secs f' = L → length files' = length (w_files w) →
  length secs' = length (w_secs w) →
  (∀ i, i ≠ fd → files' !! i = w_files w !! i) →
  (∀ i, i ∉ se_id <$> L ++ gone → secs' !! i = w_secs w !! i) →
  (∀ i n, i ∈ se_id <$> gone → secs' !! i = Some n → n = sec0) →
  let kvs' := zap kv0 (ke_id <$> (gone ≫= se_kvs)) (w_kvs w) in
  (∃ n, files' !! fd = Some n ∧ file_rep (w_pool w) kvs' secs' n f') →
  file_step w (set_kvs kvs' (set_secs secs' (set_files files' w))) fl fd f'.
Proof.
  intros Hw Hps Hpk Hf' Hlf Hls Hfiles Hsecs Hgone kvs' Hfile.
  pose proof (wr_sec_ids _ _ Hw) as Hsnd. rewrite <- Hps in Hsnd.
  pose proof (wr_kv_ids _ _ Hw) as Hknd. rewrite <- Hpk in Hknd.
  pose proof Hsnd as (_ & Hs12 & _)%NoDup_app. pose proof Hknd as (_ & Hk12 & _)%NoDup_app.
  rewrite !fmap_app in *. rewrite !bind_app, !fmap_app in *.
  rewrite (Permutation_app_comm (se_id <$> L)), <- app_assoc in Hsnd, Hps.
  rewrite (Permutation_app_comm (ke_id <$> (L ≫= _))), <- app_assoc in Hknd, Hpk.
  split; cbn; try done; rewrite ?Hf', ?bind_app, ?fmap_app.
  - apply Hw.
  - apply zap_length.
  - intros i Hi. apply Hsecs. intros Hin. by apply (Hs12 i).
  - intros i Hi. apply zap_out. intros Hin. apply (Hk12 i); set_solver.
  - by apply NoDup_app in Hsnd as (_ & _ & ?).
  - by apply NoDup_app in Hknd as (_ & _ & ?).
  - intros i n Hn Hi. destruct (decide (i ∈ se_id <$> gone)) as [Hg|Hg].
  + by rewrite (Hgone i n Hg Hn).
  + rewrite Hsecs in Hn by set_solver. apply (wr_free_secs _ _ Hw i n Hn).
    rewrite <- Hps. set_solver.
  - intros i n Hn Hi. destruct (decide (i ∈ ke_id <$> (gone ≫= se_kvs))) as [Hg|Hg].
  + by rewrite (zap_in _ _ _ _ _ Hg Hn).
  + unfold kvs' in Hn. rewrite zap_out in Hn by done. apply (wr_free_kvs _ _ Hw i n Hn).
    rewrite <- Hpk. set_solver.
Qed.
End clear_world.

Lemma all_ids_at fl fd f L gone :
  fl !! fd = Some f → file_secs f ≡ₚ L ++ gone →
  (se_id <$> L ++ gone) ++ (se_id <$> other_secs fd fl) ≡ₚ all_sec_ids fl ∧
  (ke_id <$> ((L ++ gone) ≫= se_kvs)) ++ (ke_id <$> (other_secs fd fl ≫= se_kvs))
    ≡ₚ all_kv_ids fl.
Proof.
  intros Hf HL. unfold all_sec_ids, all_kv_ids.
  rewrite (all_secs_at _ _ _ Hf), HL. split.
  - by rewrite <- fmap_app.
  - by rewrite <- fmap_app, <- bind_app.
Qed.

(** Sections whose cells are untouched are still represented. *)
Lemma sec_rep_zapped pm kvs secs secs' gone y :
  se_id y ∉ se_id <$> gone → secs' !! se_id y = secs !! se_id y →
  (∀ i, i ∈ ke_id <$> se_kvs y → i ∉ ke_id <$> (gone ≫= se_kvs)) →
  sec_rep pm kvs secs y → sec_rep pm (zap kv0 (ke_id <$> (gone ≫= se_kvs)) kvs) secs' y.
Proof.
  intros _ Hs Hk. apply sec_rep_frame; [done| |done]. intros i Hi. by apply zap_out, Hk.
Qed.

Lemma kv_ids_disjoint L1 e L2 :
  NoDup (ke_id <$> ((L1 ++ e :: L2) ≫= se_kvs)) → ∀ y, y ∈ L1 ++ L2 →
  ∀ i, i ∈ ke_id <$> se_kvs y → i ∉ ke_id <$> se_kvs e.
Proof.
  intros Hnd y Hy i Hi Hi'.
  assert ((L1 ++ e :: L2) ≫= se_kvs ≡ₚ se_kvs e ++ ((L1 ++ L2) ≫= se_kvs)) as Hp.
  { rewrite !bind_app, bind_cons. solve_Permutation. }
  rewrite Hp, fmap_app in Hnd. apply NoDup_app in Hnd as (_ & Hnd & _).
  apply (Hnd i Hi'). apply list_elem_of_fmap in Hi as (z & -> & Hz).
  apply list_elem_of_fmap_2, list_elem_of_bind. eauto.
Qed.

Section remove_sections.
Context (w : world) (fl : list file_entry) (fd : nat) (name : list Z).
Hypothesis Hw : world_rep w fl.

(** Deleting one section. *)
Lemma unlink_section_rep L1 e L2 :
  fl !! fd = Some (Some (name, L1 ++ e :: L2)) →
  ∃ w', unlink_section fd (se_id e) w = Done (tt, w') ∧
  world_rep w' (<[fd := Some (name, L1 ++ L2)]> fl) ∧
  w_fs w' = w_fs w ∧ w_held w' = w_held w.
Proof using Hw.
  intros Hf.
  destruct (locate_file _ _ _ _ _ Hw Hf) as (n & Hn & Hflag & Hname & Hd & Hl).
  destruct (file_ids_nodup _ _ _ _ _ Hw Hf) as [Hsnd Hknd].
  pose proof (sec_ids_nodup _ _ _ Hknd) as Hke.
  destruct (ids_middle _ _ _ _ Hsnd) as (Hn1 & Hn2 & _).
  pose proof (kv_ids_disjoint _ _ _ Hknd) as Hkd.
  rewrite Forall_app, Forall_cons in Hl. destruct Hl as (Hl1 & He & Hl2).
  destruct He as (sc & Hsc & _ & _ & Hk).
  pose proof (kvl_rep_length _ _ _ _ Hw Hk Hke) as Hlen. destruct Hk as [Hk _].
  rewrite fmap_app, fmap_cons in Hd, Hsnd.
  rewrite (unlink_section_run w fd n (se_id <$> L1) (se_id e) (se_id <$> L2) sc
  (ke_id <$> se_kvs e));
  [|done|done|done|done|done|done|by rewrite length_fmap].
  eexists. split; [reflexivity|]. split; [|done].
  eapply world_rep_step; [done|by eapply lookup_lt_Some|].
  destruct (all_ids_at fl fd _ (L1 ++ L2) [e] Hf) as [Hps Hpk]; [cbn; solve_Permutation|].
  pose proof (zap_step w fl fd (L1 ++ L2) [e]
  (unlinked (w_secs w) (se_id <$> L1) (se_id e) (se_id <$> L2))
  (alter (file_set_head (head_or ((se_id <$> L1) ++ (se_id <$> L2)) None)) fd (w_files w))
  (Some (name, L1 ++ L2)) Hw Hps Hpk) as Hz.
  cbn [fmap list_fmap] in Hz. rewrite bind_cons, app_nil_r in Hz. apply Hz; clear Hz.
  - done.
  - by rewrite length_alter.
  - apply unlinked_length.
  - intros i Hi. by apply list_lookup_alter_ne.
  - intros i Hi. apply unlinked_lookup. rewrite !fmap_app in Hi. set_solver.
  - intros i m Hi Hm. assert (i = se_id e) as -> by set_solver.
  rewrite unlinked_self in Hm by (by eapply lookup_lt_Some). by injection Hm.
  - eexists. split; [rewrite list_lookup_alter_eq, Hn; done|].
  split; [done|]. split; [done|]. split.
  + rewrite fmap_app. by eapply unlinked_dlist.
  + assert (∀ y, y ∈ L1 ++ L2 → sec_rep (w_pool w) (w_kvs w) (w_secs w) y) as Hall.
    { apply Forall_forall. by apply Forall_app. }
    apply Forall_forall. intros y Hy. cbn. 
    pose proof (Hall y Hy) as (m & Hm & Hmf & Hmn & Hmk).
    assert (se_id y ≠ se_id e) as Hne.
    { intros E. apply elem_of_app in Hy as [Hy|Hy];
        [apply Hn1|apply Hn2]; rewrite <- E; by apply list_elem_of_fmap_2. }
    pose proof (unlinked_data sec_data (w_secs w) (se_id <$> L1) (se_id e)
      (se_id <$> L2) (se_id y) ltac:(done) ltac:(done) Hne) as Hdt.
    rewrite Hm in Hdt. apply fmap_Some in Hdt as (m' & Hm' & [= E1 E2 E3]).
    exists m'. split; [done|]. rewrite <- E1, <- E2, <- E3.
    split; [done|]. split; [done|].
    eapply kvl_rep_frame; [done| |exact Hmk]. intros i Hi. apply zap_out.
    by apply (Hkd y Hy).
Qed.

(** Closing the file. *)
Lemma destroy_rep l :
  fl !! fd = Some (Some (name, l)) →
  ∃ w', destroy_ini_source (Z.of_nat fd) w = Done (tt, w') ∧
  world_rep w' (<[fd := None]> fl) ∧ w_fs w' = w_fs w ∧ w_held w' = w_held w.
Proof using Hw.
  intros Hf.
  destruct (locate_file _ _ _ _ _ Hw Hf) as (n & Hn & Hflag & Hname & Hl).
  destruct (file_ids_nodup _ _ _ _ _ Hw Hf) as [Hsnd Hknd].
  pose proof (secl_rep_length _ _ _ _ Hw Hl Hsnd) as Hlen.
  destruct Hl as [Hd Hl]. pose proof (lookup_lt_Some _ _ _ Hn) as Hflt.
  unfold destroy_ini_source. rewrite (bad_fd_ok _ _ _ _ Hw Hf), Nat2Z.id.
  run (get_file_ok _ _ _ Hn). rewrite Hflag. cbn [Z.eqb STRUCT_NODE_IN_USED Pos.eqb].
  erewrite M_bind_done.
  2:{ apply (clear_sections_run l _ None); [exact Hd|exact Hl|done|done|done|].
    intros e He. rewrite Forall_forall in Hl. destruct (Hl e He) as (sc & _ & _ & _ & Hk).
    eapply kvl_rep_length; [done|exact Hk|].
    apply list_elem_of_split in He as (l1 & l2 & ->). by eapply sec_ids_nodup. }
  do 2 cell_step. cell_last. rewrite !alter_twice.
  exists (set_kvs (zap kv0 (ke_id <$> (l ≫= se_kvs)) (w_kvs w))
  (set_secs (zap sec0 (se_id <$> l) (w_secs w))
    (set_files (alter (λ n, file_set_flag STRUCT_NODE_UN_USED
      (file_set_head None (file_set_name None n))) fd (w_files w)) w))).
  split; [reflexivity|]. split; [|done].
  eapply world_rep_step; [done|by eapply lookup_lt_Some|].
  destruct (all_ids_at fl fd _ [] l Hf) as [Hps Hpk]; [done|].
  apply (zap_step w fl fd [] l (zap sec0 (se_id <$> l) (w_secs w))
  (alter (λ n, file_set_flag STRUCT_NODE_UN_USED
     (file_set_head None (file_set_name None n))) fd (w_files w)) None Hw Hps Hpk).
  - done.
  - by rewrite length_alter.
  - apply zap_length.
  - intros i Hi. by apply list_lookup_alter_ne.
  - intros i Hi. by apply zap_out.
  - intros i m Hi Hm. by eapply zap_in.
  - eexists. split; [by rewrite list_lookup_alter_eq, Hn|]. done.
Qed.
End remove_sections.
