(* ===== verification/V2Link.v ===== *)
(** * inifile v2.0.0: adding pairs and sections to the lists

    A pair or section stored in a free cell and linked in at the end of its
    list is the document with the pair or section appended. *)

From S2P Require Import Prelude CString DList FileSys V2Data V2Line V2Rewrite V2Api V2Rep V2Parse IniSpec V2Layout V2Refine V2Clear.
From stdpp Require Import gmap strings.

Open Scope Z_scope.

(** ** Free cells belong to no list *)

Lemma all_secs_rep w fl e :
  world_rep w fl → e ∈ all_secs fl → sec_rep (w_pool w) (w_kvs w) (w_secs w) e.
Proof.
  intros Hw (f & He & (fd & Hf)%list_elem_of_lookup)%list_elem_of_bind.
  destruct f as [[name l]|]; [|by apply elem_of_nil in He].
  by eapply locate_sec_cell.
Qed.

Lemma used_kv w fl i n :
  world_rep w fl → w_kvs w !! i = Some n → i ∈ all_kv_ids fl →
  kv_flag n = STRUCT_NODE_IN_USED.
Proof.
  intros Hw Hn (x & -> & (e & Hx & He)%list_elem_of_bind)%list_elem_of_fmap.
  destruct (all_secs_rep _ _ _ Hw He) as (sc & _ & _ & _ & _ & Hl).
  rewrite Forall_forall in Hl. destruct (Hl x Hx) as (n' & Hn' & Hf & _). congruence.
Qed.

Lemma used_sec w fl i n :
  world_rep w fl → w_secs w !! i = Some n → i ∈ all_sec_ids fl →
  sec_flag n = STRUCT_NODE_IN_USED.
Proof.
  intros Hw Hn (e & -> & He)%list_elem_of_fmap.
  destruct (all_secs_rep _ _ _ Hw He) as (sc & Hsc & Hf & _). congruence.
Qed.

Lemma unused_kv w fl i :
  world_rep w fl → first_unused kv_flag (w_kvs w) = Some i →
  i ∉ all_kv_ids fl ∧ ∃ n, w_kvs w !! i = Some n ∧ kv_free n.
Proof.
  intros Hw (n & Hn & Hf)%first_unused_Some.
  assert (i ∉ all_kv_ids fl) as Hi.
  { intros Hin. pose proof (used_kv _ _ _ _ Hw Hn Hin) as H. by rewrite Hf in H. }
  split; [done|]. exists n. split; [done|]. by eapply wr_free_kvs.
Qed.

Lemma unused_sec w fl i :
  world_rep w fl → first_unused sec_flag (w_secs w) = Some i →
  i ∉ all_sec_ids fl ∧ ∃ n, w_secs w !! i = Some n ∧ sec_free n.
Proof.
  intros Hw (n & Hn & Hf)%first_unused_Some.
  assert (i ∉ all_sec_ids fl) as Hi.
  { intros Hin. pose proof (used_sec _ _ _ _ Hw Hn Hin) as H. by rewrite Hf in H. }
  split; [done|]. exists n. split; [done|]. by eapply wr_free_secs.
Qed.


(** The representation with every cell of a list unchanged. *)
Lemma world_rep_frame w w' fl :
  world_rep w fl → pool_ok (w_pool w') → pool_ext (w_pool w) (w_pool w') →
  w_files w' = w_files w → length (w_secs w') = length (w_secs w) →
  length (w_kvs w') = length (w_kvs w) →
  (∀ i, i ∈ all_sec_ids fl → w_secs w' !! i = w_secs w !! i) →
  (∀ i, i ∈ all_kv_ids fl → w_kvs w' !! i = w_kvs w !! i) →
  (∀ i n, w_secs w' !! i = Some n → i ∉ all_sec_ids fl → sec_free n) →
  (∀ i n, w_kvs w' !! i = Some n → i ∉ all_kv_ids fl → kv_free n) →
  world_rep w' fl.
Proof.
  intros Hw Hok Hext Hf Hls Hlk Hs Hk Hfs Hfk. split; try done.
  - rewrite Hf. apply Hw.
  - rewrite Hls. apply Hw.
  - rewrite Hlk. apply Hw.
  - rewrite Hf. apply Forall2_same_length_lookup. pose proof (wr_files _ _ Hw) as Hfl.
    apply Forall2_same_length_lookup in Hfl as [Hlen Hfl]. split; [done|].
    intros i n f Hn Hfi. eapply file_rep_frame; [exact Hext| | |by eapply Hfl].
    + intros j (x & -> & (e & Hx & He)%list_elem_of_bind)%list_elem_of_fmap. apply Hk.
      apply list_elem_of_fmap_2, list_elem_of_bind. exists e. split; [done|].
      apply list_elem_of_bind. exists f. split; [done|]. by eapply list_elem_of_lookup_2.
    + intros j (e & -> & He)%list_elem_of_fmap. apply Hs.
      apply list_elem_of_fmap_2, list_elem_of_bind. exists f. split; [done|].
      by eapply list_elem_of_lookup_2.
  - apply Hw.
  - apply Hw.
Qed.

(** ** A rejected line leaves the documents as they were *)

Lemma world_rep_rejected_kv w w' fl n i :
  world_rep w fl → grown w w' n → kv_rejected w w' i →
  first_unused kv_flag (w_kvs w) = Some i → world_rep w' fl.
Proof.
  intros Hw Hg [Hs (f & Hk & Hf)] Hi.
  destruct (unused_kv _ _ _ Hw Hi) as [Hni (c & Hc & Hcf & Hcp & Hcl)].
  destruct (Hf c Hcf) as (F1 & F2 & F3).
  eapply world_rep_frame; [exact Hw|apply Hg|apply Hg|apply Hg|by rewrite Hs| | | | |].
  - by rewrite Hk, length_alter.
  - intros j _. by rewrite Hs.
  - intros j Hj. rewrite Hk. apply list_lookup_alter_ne. by intros <-.
  - intros j m Hm Hj. rewrite Hs in Hm. by eapply wr_free_secs.
  - intros j m Hm Hj. rewrite Hk in Hm. destruct (decide (i = j)) as [<-|Hne].
    + rewrite list_lookup_alter_eq, Hc in Hm. injection Hm as <-.
      unfold kv_free. by rewrite F1, F2, F3.
    + rewrite list_lookup_alter_ne in Hm by done. by eapply wr_free_kvs.
Qed.

Lemma world_rep_rejected_sec w w' fl n i :
  world_rep w fl → grown w w' n → sec_rejected w w' i →
  first_unused sec_flag (w_secs w) = Some i → world_rep w' fl.
Proof.
  intros Hw Hg [Hk (f & Hs & Hf)] Hi.
  destruct (unused_sec _ _ _ Hw Hi) as [Hni (c & Hc & Hcf & Hcp & Hcl & Hch)].
  destruct (Hf c Hcf) as (F1 & F2 & F3 & F4).
  eapply world_rep_frame; [exact Hw|apply Hg|apply Hg|apply Hg| |by rewrite Hk| | | |].
  - by rewrite Hs, length_alter.
  - intros j Hj. rewrite Hs. apply list_lookup_alter_ne. by intros <-.
  - intros j _. by rewrite Hk.
  - intros j m Hm Hj. rewrite Hs in Hm. destruct (decide (i = j)) as [<-|Hne].
    + rewrite list_lookup_alter_eq, Hc in Hm. injection Hm as <-.
      unfold sec_free. by rewrite F1, F2, F3, F4.
    + rewrite list_lookup_alter_ne in Hm by done. by eapply wr_free_secs.
  - intros j m Hm Hj. rewrite Hk in Hm. by eapply wr_free_kvs.
Qed.

(** ** Linking a stored pair *)

Section link_pair.
Context (w w1 : world) (fl : list file_entry) (fd : nat) (name : list Z).
Context (L1 : list sec_entry) (e : sec_entry) (L2 : list sec_entry).
Context (i : nat) (k v : list Z) (room : Z).
Hypothesis Hw : world_rep w fl.
Hypothesis Hf : fl !! fd = Some (Some (name, L1 ++ e :: L2)).
Hypothesis Hi : first_unused kv_flag (w_kvs w) = Some i.
Hypothesis Hg : grown w w1 room.
Hypothesis Hst : kv_stored w w1 i k v.

Let new := KV i k v.
Let kvs' := linked (w_kvs w1) (ke_id <$> se_kvs e) i.
Let h' := head_or (ke_id <$> se_kvs e) (Some i).
Let secs' := alter (sec_set_head h') (se_id e) (w_secs w1).
Let w' := set_kvs kvs' (set_secs secs' w1).

Lemma link_old_cell j : j ≠ i → w_kvs w1 !! j = w_kvs w !! j.
Proof using Hst.
  destruct Hst as [_ (kp & vp & _ & _ & ->)]. intros Hj.
  apply list_lookup_alter_ne. by intros <-.
Qed.

Lemma link_new_cell : ∃ n, w_kvs w1 !! i = Some n ∧ kv_pre n = None ∧ kv_last n = None ∧
  kv_flag n = STRUCT_NODE_IN_USED ∧ str_at (w_pool w1) (kv_key n) k ∧
  str_at (w_pool w1) (kv_value n) v.
Proof using Hw Hi Hst.
  destruct (unused_kv _ _ _ Hw Hi) as [_ (c & Hc & _ & Hp & Hl)].
  destruct Hst as [_ (kp & vp & Hk & Hv & ->)].
  rewrite list_lookup_alter_eq, Hc. eauto 10.
Qed.

Lemma link_fresh : i ∉ ke_id <$> ((L1 ++ e :: L2) ≫= se_kvs) ∧
  i ∉ ke_id <$> (other_secs fd fl ≫= se_kvs).
Proof using Hw Hi Hf.
  destruct (unused_kv _ _ _ Hw Hi) as [Hni _].
  destruct (ids_of_perm _ _ (all_secs_at _ _ _ Hf)) as [_ Hp].
  unfold all_kv_ids in Hni. rewrite Hp, bind_app, fmap_app in Hni.
  by apply not_elem_of_app in Hni.
Qed.

Lemma in_section_ids x : x ∈ ke_id <$> se_kvs e →
  x ∈ ke_id <$> ((L1 ++ e :: L2) ≫= se_kvs).
Proof using Type.
  intros (y & -> & Hy)%list_elem_of_fmap. apply list_elem_of_fmap_2, list_elem_of_bind.
  exists e. split; [done|]. apply elem_of_app. right. by left.
Qed.

Lemma link_kvl_rep h :
  kvl_rep (w_pool w) (w_kvs w) h (se_kvs e) →
  kvl_rep (w_pool w1) kvs' h' (se_kvs e ++ [new]).
Proof using Hw Hf Hi Hg Hst.
  destruct link_fresh as [Hni _]. destruct link_new_cell as (n & Hn & Hp & Hl & Hfl & Hk & Hv).
  assert (i ∉ ke_id <$> se_kvs e) as Hie by (intros Hin; by apply Hni, in_section_ids).
  destruct (file_ids_nodup _ _ _ _ _ Hw Hf) as [_ Hnd]. apply sec_ids_nodup in Hnd.
  intros [Hd Hall]. split.
  - rewrite fmap_app. apply (linked_dlist (w_kvs w1) h _ i n); try done.
  eapply dseg_frame; [|exact Hd]. intros j Hj. unfold kv_links, cell_links, links_of.
  rewrite link_old_cell; [done|]. by intros ->.
  - apply Forall_app. split; [|apply Forall_singleton].
  + rewrite Forall_forall in Hall |- *. intros x Hx.
    eapply kv_rep_data; [apply Hg| |by apply Hall].
    unfold kvs'. rewrite linked_data by done. rewrite link_old_cell; [done|].
    intros E. apply Hie. rewrite <- E. by apply list_elem_of_fmap_2.
  + eapply (kv_rep_data (w_pool w1) _ (w_kvs w1)); [done|by apply linked_data|].
    exists n. eauto.
Qed.

Lemma link_kvs_other j :
  j ∉ ke_id <$> se_kvs e → j ≠ i → kvs' !! j = w_kvs w !! j.
Proof using Hst.
  intros Hj Hne. unfold kvs'. rewrite linked_lookup by done. by apply link_old_cell.
Qed.

Lemma link_pair_rep :
  world_rep w' (<[fd := Some (name, L1 ++ sec_with e (se_kvs e ++ [new]) :: L2)]> fl).
Proof using Hw Hf Hi Hg Hst.
  destruct (locate_file _ _ _ _ _ Hw Hf) as (n & Hn & Hflag & Hname & Hd & Hl).
  destruct (world_rep_ids _ _ _ _ Hw Hf) as (Hsi & Hki & Hfs & Hfk). cbn in *.
  destruct (file_ids_nodup _ _ _ _ _ Hw Hf) as [Hsnd Hknd].
  pose proof (kv_ids_disjoint L1 e L2 Hknd) as Hdisj.
  destruct link_fresh as [Hni Hno]. destruct Hst as [Hsec _].
  eapply world_rep_step; [done|by eapply lookup_lt_Some|]. split; cbn; try apply Hg.
  - by rewrite (gr_files _ _ _ Hg).
  - unfold secs'. by rewrite length_alter, Hsec.
  - unfold kvs'. rewrite linked_length.
  destruct Hst as [_ (? & ? & _ & _ & ->)]. apply length_alter.
  - intros j _. by rewrite (gr_files _ _ _ Hg).
  - exists n. rewrite (gr_files _ _ _ Hg). split; [done|]. split; [done|].
  split; [by apply Hg|]. split.
  + rewrite sec_with_ids. eapply dseg_frame; [|exact Hd]. intros j _.
    unfold sec_links, secs'. rewrite Hsec. by apply cell_links_alter_data.
  + rewrite Forall_app, Forall_cons in Hl |- *. destruct Hl as (Hl1 & He & Hl2).
    assert (∀ y, y ∈ L1 ++ L2 → sec_rep (w_pool w) (w_kvs w) (w_secs w) y →
              sec_rep (w_pool w1) kvs' secs' y) as Hother.
    { intros y Hy. apply sec_rep_frame; [apply Hg| |].
      - intros j Hj. apply link_kvs_other; [by eapply Hdisj|].
        intros ->. apply Hni.
        apply list_elem_of_fmap in Hj as (z & -> & Hz). apply list_elem_of_fmap_2.
        apply list_elem_of_bind. exists y. set_solver.
      - unfold secs'. rewrite Hsec. apply list_lookup_alter_ne. intros E.
        destruct (ids_middle _ _ _ _ Hsnd) as (N1 & N2 & _).
        apply elem_of_app in Hy as [Hy|Hy];
          [apply N1|apply N2]; rewrite E; by apply list_elem_of_fmap_2. }
    split; [|split].
    * rewrite Forall_forall in Hl1 |- *. intros y Hy. apply Hother; [set_solver|auto].
    * destruct He as (sc & Hsc & Hscf & Hnm & Hkv). exists (sec_set_head h' sc).
      split; [unfold secs'; by rewrite Hsec, list_lookup_alter_eq; cbn; rewrite Hsc|].
      split; [done|]. split; [by apply Hg|]. by eapply link_kvl_rep.
    * rewrite Forall_forall in Hl2 |- *. intros y Hy. apply Hother; [set_solver|auto].
  - intros j Hj. unfold secs'. rewrite Hsec. apply list_lookup_alter_ne. intros <-.
  rewrite <- app_assoc in Hsi. cbn in Hsi. apply ids_middle in Hsi as (_ & N2 & _).
  apply N2. rewrite fmap_app. set_solver.
  - intros j Hj. apply link_kvs_other; [|by intros ->]. intros Hin.
  rewrite bind_app, fmap_app in Hki. apply NoDup_app in Hki as (_ & Hki & _).
  apply (Hki j); [by apply in_section_ids|done].
  - rewrite fmap_app, sec_with_ids, <- fmap_app. done.
  - rewrite kv_ids_middle in Hki |- *. cbn [se_kvs sec_with]. rewrite fmap_app, <- app_assoc.
  cbn. rewrite <- Permutation_middle. apply NoDup_cons. split; [|done].
  rewrite <- kv_ids_middle, bind_app, fmap_app. set_solver.
  - intros j m Hm Hj. rewrite fmap_app, sec_with_ids, <- fmap_app in Hj.
  unfold secs' in Hm. rewrite Hsec in Hm. destruct (decide (se_id e = j)) as [<-|Hne].
  + exfalso. apply Hj. rewrite !fmap_app, !elem_of_app. cbn. set_solver.
  + rewrite list_lookup_alter_ne in Hm by done. by eapply Hfs.
  - intros j m Hm Hj. rewrite kv_ids_middle in Hj. cbn in Hj. rewrite fmap_app in Hj.
  rewrite link_kvs_other in Hm by set_solver.
  eapply Hfk; [done|]. rewrite kv_ids_middle. set_solver.
Qed.
End link_pair.

(** ** Linking a stored section *)

Section link_sec.
Context (w w1 : world) (fl : list file_entry) (fd : nat) (name : list Z).
Context (l : list sec_entry) (i : nat) (s : list Z) (room : Z).
Hypothesis Hw : world_rep w fl.
Hypothesis Hf : fl !! fd = Some (Some (name, l)).
Hypothesis Hi : first_unused sec_flag (w_secs w) = Some i.
Hypothesis Hg : grown w w1 room.
Hypothesis Hst : sec_stored w w1 i s.

Let new := SEC i s [].
Let secs' := linked (w_secs w1) (se_id <$> l) i.
Let files' := alter (file_set_head (head_or (se_id <$> l) (Some i))) fd (w_files w1).
Let w' := set_secs secs' (set_files files' w1).

Lemma link_old_sec j : j ≠ i → w_secs w1 !! j = w_secs w !! j.
Proof using Hst.
  destruct Hst as [_ (p & _ & ->)]. intros Hj. apply list_lookup_alter_ne. by intros <-.
Qed.

Lemma link_new_sec : ∃ n, w_secs w1 !! i = Some n ∧ sec_pre n = None ∧ sec_last n = None ∧
  sec_head n = None ∧ sec_flag n = STRUCT_NODE_IN_USED ∧ str_at (w_pool w1) (sec_sec n) s.
Proof using Hw Hi Hst.
  destruct (unused_sec _ _ _ Hw Hi) as [_ (c & Hc & _ & Hp & Hl & Hh)].
  destruct Hst as [_ (p & Hs & ->)]. rewrite list_lookup_alter_eq, Hc. eauto 10.
Qed.

Lemma link_sec_fresh :
  i ∉ se_id <$> l ∧ i ∉ se_id <$> other_secs fd fl.
Proof using Hw Hi Hf.
  destruct (unused_sec _ _ _ Hw Hi) as [Hni _].
  destruct (ids_of_perm _ _ (all_secs_at _ _ _ Hf)) as [Hp _].
  unfold all_sec_ids in Hni. rewrite Hp, fmap_app in Hni. by apply not_elem_of_app in Hni.
Qed.

Lemma link_section_rep :
  world_rep w' (<[fd := Some (name, l ++ [new])]> fl).
Proof using Hw Hf Hi Hg Hst.
  destruct (locate_file _ _ _ _ _ Hw Hf) as (n & Hn & Hflag & Hname & Hd & Hl).
  destruct (world_rep_ids _ _ _ _ Hw Hf) as (Hsi & Hki & Hfs & Hfk). cbn in *.
  destruct (file_ids_nodup _ _ _ _ _ Hw Hf) as [Hsnd _].
  destruct link_sec_fresh as [Hni Hno].
  destruct link_new_sec as (c & Hc & Hcp & Hcl & Hch & Hcf & Hcs).
  destruct Hst as [Hkvs _].
  assert (∀ j, j ∉ se_id <$> l → j ≠ i → secs' !! j = w_secs w !! j) as Hsame.
  { intros j Hj Hne. unfold secs'. rewrite linked_lookup by done. by apply link_old_sec. }
  eapply world_rep_step; [done|by eapply lookup_lt_Some|]. split; cbn; try apply Hg.
  - unfold files'. by rewrite length_alter, (gr_files _ _ _ Hg).
  - unfold secs'. rewrite linked_length.
  destruct Hst as [_ (? & _ & ->)]. apply length_alter.
  - by rewrite Hkvs.
  - intros j Hj. unfold files'. rewrite (gr_files _ _ _ Hg). by apply list_lookup_alter_ne.
  - eexists. unfold files'. rewrite (gr_files _ _ _ Hg), list_lookup_alter_eq, Hn.
  split; [done|]. split; [done|]. split; [by apply Hg|]. split.
  + cbn. rewrite fmap_app. apply (linked_dlist (w_secs w1) (file_head n) _ i c); try done.
    eapply dseg_frame; [|exact Hd]. intros j Hj. unfold sec_links, cell_links, links_of.
    rewrite link_old_sec; [done|]. by intros ->.
  + apply Forall_app. split; [|apply Forall_singleton].
    * rewrite Forall_forall in Hl |- *. intros y Hy.
      destruct (Hl y Hy) as (m & Hm & Hmf & Hmn & Hmk).
      assert (se_id y ≠ i) as Hyi.
      { intros E. apply Hni. rewrite <- E. by apply list_elem_of_fmap_2. }
      pose proof (linked_data sec_data (w_secs w1) (se_id <$> l) i (se_id y)
        ltac:(done) ltac:(done)) as Hdt. fold secs' in Hdt.
      rewrite link_old_sec, Hm in Hdt by done.
      apply fmap_Some in Hdt as (m' & Hm' & [= E1 E2 E3]).
      exists m'. split; [done|]. rewrite <- E1, <- E2, <- E3.
      split; [done|]. split; [by apply Hg|]. rewrite Hkvs.
      by eapply kvl_rep_frame; [apply Hg| |exact Hmk].
    * pose proof (linked_data sec_data (w_secs w1) (se_id <$> l) i i
        ltac:(done) ltac:(done)) as Hdt. fold secs' in Hdt.
      rewrite Hc in Hdt. apply fmap_Some in Hdt as (m' & Hm' & [= E1 E2 E3]).
      exists m'. split; [done|]. rewrite <- E1, <- E2, <- E3, Hch. done.
  - intros j Hj. apply Hsame; [|by intros ->]. intros Hin.
  rewrite fmap_app in Hsi. apply NoDup_app in Hsi as (_ & Hsi & _). by apply (Hsi j).
  - intros j _. by rewrite Hkvs.
  - rewrite fmap_app in Hsi. rewrite !fmap_app, <- app_assoc. cbn.
  rewrite <- Permutation_middle. apply NoDup_cons. split; [|done]. by apply not_elem_of_app.
  - rewrite bind_app, (bind_app _ l), !fmap_app. cbn. rewrite app_nil_r.
  by rewrite bind_app, fmap_app in Hki.
  - intros j m Hm Hj. rewrite !fmap_app, !not_elem_of_app in Hj. cbn in Hj.
  destruct Hj as [[Hj1 Hj2] Hj3]. rewrite Hsame in Hm; [|done|set_solver].
  eapply Hfs; [done|]. rewrite fmap_app. by apply not_elem_of_app.
  - intros j m Hm Hj. rewrite Hkvs in Hm. eapply Hfk; [done|].
  rewrite bind_app, (bind_app _ l), !fmap_app in Hj. cbn in Hj. rewrite app_nil_r in Hj.
  by rewrite bind_app, fmap_app.
Qed.
End link_sec.

(** ** The documents *)

Lemma doc_of_link_pair L1 e L2 i k v :
  se_name e ∉ se_name <$> L1 →
  doc_of (L1 ++ sec_with e (se_kvs e ++ [KV i k v]) :: L2) =
  doc_add_key (doc_of (L1 ++ e :: L2)) (se_name e) k v.
Proof.
  intros HL. unfold doc_add_key, doc_of. rewrite !fmap_app, !fmap_cons.
  unfold entry_sec at 2 5. cbn. rewrite alist_alter_middle; [by rewrite fmap_app|].
  by rewrite <- list_fmap_compose.
Qed.

Lemma doc_of_link_section l i s : doc_of (l ++ [SEC i s []]) = doc_add_sec (doc_of l) s.
Proof. unfold doc_of, doc_add_sec. by rewrite fmap_app. Qed.

(** ** Running the linking code *)

Lemma last_keyval_ok w x ids h :
  length (w_kvs w) = INIFILE_KEYVALUE_ARRAY_LEN → dlist (kv_links (w_kvs w)) (Some h) ids → NoDup ids →
  last ids = Some x → last_keyval h w = Done (x, w).
Proof.
  intros Hw Hd Hnd [l' ->]%last_Some. unfold last_keyval. rewrite M_bind_gets.
  destruct (walk_end_spec kv_pre kv_last (λ j, w_kvs w !! j) INIFILE_KEYVALUE_ARRAY_LEN
    (Some h) None l' x) as (j & [= ->] & Hwalk); [exact Hd| |].
  - rewrite <- Hw. transitivity (length (l' ++ [x])); [rewrite length_app; lia|].
    apply ids_bounded; [done|]. intros j Hj. apply lookup_lt_is_Some. by eapply cell_valid.
  - unfold lift, id. by rewrite Hwalk.
Qed.

Lemma last_section_ok w x ids h :
  length (w_secs w) = MAX_INIFILE_SECTION_NUM → dlist (sec_links (w_secs w)) (Some h) ids → NoDup ids →
  last ids = Some x → last_section h w = Done (x, w).
Proof.
  intros Hw Hd Hnd [l' ->]%last_Some. unfold last_section. rewrite M_bind_gets.
  destruct (walk_end_spec sec_pre sec_last (λ j, w_secs w !! j) MAX_INIFILE_SECTION_NUM
    (Some h) None l' x) as (j & [= ->] & Hwalk); [exact Hd| |].
  - rewrite <- Hw. transitivity (length (l' ++ [x])); [rewrite length_app; lia|].
    apply ids_bounded; [done|]. intros j Hj. apply lookup_lt_is_Some. by eapply cell_valid.
  - unfold lift, id. by rewrite Hwalk.
Qed.
