(* ===== verification/V2Text.v ===== *)
(** * inifile v2.0.0: the kind of a line, and the file on disk

    [line_kind] classifies the text of a line; [judge_ini_file_linetype] is
    total on strings and computes it.  The second part is about the copying of
    a file on disk around its edit. *)

From S2P Require Import Prelude CString DList FileSys V2Data V2Line V2Rewrite V2Api V2Rep.
From stdpp Require Import gmap strings.

Open Scope Z_scope.

(** ** The kind of a line *)

Definition note_kind (pp comma : nat) : INI_FILE_LINE_TYPE :=
  if decide (pp = comma) then LINE_NOTE else LINE_ERROR.
Definition section_kind (t : list Z) (comma : nat) : INI_FILE_LINE_TYPE :=
  match index_of CONTENT_RIGHT_BRACKET t with
  | Some q => if decide (q < comma)%nat then LINE_SECTION else LINE_ERROR
  | None => LINE_ERROR
  end.

Definition line_kind (t : list Z) : INI_FILE_LINE_TYPE :=
  let pp := span_len is_blank t in
  if decide (t !! pp = Some CONTENT_NEELINE_SIGN) then LINE_BLANK
  else
    match index_of CONTENT_COMMA_SIGN t, index_of CONTENT_LEFT_BRACKET t,
          index_of CONTENT_EQUALITY_SIGN t with
    | Some comma, Some brack, Some equ =>
        if decide (comma < brack ∧ comma < equ)%nat then note_kind pp comma
        else if decide (brack < comma ∧ equ < comma)%nat then LINE_ERROR
        else if decide (brack < comma)%nat then section_kind t comma
        else LINE_KEYVALUE
    | Some comma, Some brack, None =>
        if decide (comma < brack)%nat then note_kind pp comma else section_kind t comma
    | Some comma, None, Some equ =>
        if decide (comma < equ)%nat then note_kind pp comma else LINE_KEYVALUE
    | Some comma, None, None => note_kind pp comma
    | None, Some _, Some _ => LINE_ERROR
    | None, Some brack, None =>
        match index_of CONTENT_RIGHT_BRACKET t with
        | Some q => if decide (brack < q)%nat then LINE_SECTION else LINE_ERROR
        | None => LINE_ERROR
        end
    | None, None, Some _ => LINE_KEYVALUE
    | None, None, None => LINE_ERROR
    end.

Lemma span_len_before f c s i :
  index_of c s = Some i → f c = false → (span_len f s ≤ i)%nat.
Proof.
  revert i; induction s as [|x s IH]; intros i; cbn; [done|].
  destruct (Z.eqb_spec x c) as [->|Hx]; intros H Hc.
  - injection H as <-. by rewrite Hc.
  - apply fmap_Some in H as (j & Hj & ->). destruct (f x); [|lia].
    specialize (IH j Hj Hc). lia.
Qed.

Section judge.
Context (line t : list Z).
Hypothesis Ht : c_str line = Done t.

Lemma chr_at c : str_frist_constchar line 0 c = Done (index_of c t).
Proof using Ht.
  unfold str_frist_constchar. rewrite drop_0, (str_scan_chr_spec _ _ _ _ Ht).
  by rewrite option_fmap_id.
Qed.

Lemma line_at i : (i < length t)%nat → line !! i = t !! i.
Proof using Ht. by apply c_str_lookup. Qed.

(** The scan up to the comment sign. *)
Lemma note_or_error_ok comma :
  index_of CONTENT_COMMA_SIGN t = Some comma →
  note_or_error line (comma - span_len is_blank t) (span_len is_blank t) =
  Done (note_kind (span_len is_blank t) comma).
Proof using Ht.
  intros Hc. pose proof (span_len_before is_blank _ _ _ Hc ltac:(done)) as Hle.
  pose proof (index_of_lt _ _ _ Hc) as Hlt. unfold note_kind.
  case_decide as E; [by rewrite E, Nat.sub_diag|].
  destruct (comma - span_len is_blank t)%nat as [|d] eqn:Ed; [lia|]. cbn [note_or_error].
  assert (span_len is_blank t < length t)%nat as Hpl by lia.
  pose proof Hpl as [x Hx]%lookup_lt_is_Some.
  rewrite (rd_ok _ _ x) by (by rewrite line_at). cbn.
  by rewrite (span_len_end _ _ _ Hx).
Qed.

Lemma section_or_error_ok comma :
  section_or_error line comma = Done (section_kind t comma).
Proof using Ht.
  unfold section_or_error, section_kind. rewrite chr_at. cbn [mbind outcome_bind].
  destruct (index_of CONTENT_RIGHT_BRACKET t) as [q|]; [|done].
  destruct (Nat.ltb_spec q comma); case_decide; try done; lia.
Qed.

(** The classification is total on strings and computes [line_kind]. *)
Lemma judge_line_kind : judge_ini_file_linetype line = Done (line_kind t).
Proof using Ht.
  unfold judge_ini_file_linetype, line_kind.
  rewrite (bind_done _ _ _ (skip_fwd_spec is_blank line t 0 Ht eq_refl)).
  cbn [Nat.add]. pose proof note_or_error_ok as Hnote.
  set (pp := span_len is_blank t) in *.
  assert (∃ c, rd line pp = Done c ∧
  (c =? CONTENT_NEELINE_SIGN) = bool_decide (t !! pp = Some CONTENT_NEELINE_SIGN))
  as (c & Hc & Hcb).
  { pose proof (span_len_le is_blank t) as Hle. fold pp in Hle.
  destruct (decide (pp < length t)%nat) as [Hlt|Hge].
  - pose proof Hlt as [x Hx]%lookup_lt_is_Some. exists x.
    rewrite (rd_ok _ _ x) by (by rewrite line_at). split; [done|].
    rewrite Hx. destruct (Z.eqb_spec x CONTENT_NEELINE_SIGN) as [->|Hne];
      symmetry; [by apply bool_decide_eq_true|apply bool_decide_eq_false; congruence].
  - assert (pp = length t) as E by lia. exists 0. rewrite E.
    rewrite (rd_ok _ _ 0) by (by apply c_str_nul). split; [done|].
    rewrite lookup_ge_None_2 by lia. done. }
  rewrite (bind_done _ _ _ Hc), Hcb. case_bool_decide as Hnl.
  { by rewrite decide_True. }
  rewrite decide_False by done.
  rewrite (bind_done _ _ _ (chr_at CONTENT_COMMA_SIGN)),
  (bind_done _ _ _ (chr_at CONTENT_LEFT_BRACKET)),
  (bind_done _ _ _ (chr_at CONTENT_EQUALITY_SIGN)).
  destruct (index_of CONTENT_COMMA_SIGN t) as [comma|] eqn:Ec,
  (index_of CONTENT_LEFT_BRACKET t) as [brack|],
  (index_of CONTENT_EQUALITY_SIGN t) as [equ|];
  rewrite ?(Hnote _ eq_refl), ?section_or_error_ok; try done.
  - destruct (Nat.ltb_spec comma brack), (Nat.ltb_spec comma equ),
    (Nat.ltb_spec brack comma), (Nat.ltb_spec equ comma); cbn [andb];
    repeat case_decide; try done; lia.
  - destruct (Nat.ltb_spec comma brack); case_decide; try done; lia.
  - destruct (Nat.ltb_spec comma equ); case_decide; try done; lia.
  - rewrite (bind_done _ _ _ (chr_at CONTENT_RIGHT_BRACKET)).
  destruct (index_of CONTENT_RIGHT_BRACKET t) as [q|]; [|done].
  destruct (Nat.ltb_spec brack q); case_decide; try done; lia.
Qed.
End judge.

(** ** The line buffer *)

(** What [fgets] put into a buffer is what is read back, whatever the buffer
    held. *)
Lemma fgets_into_c_str buf t :
  nonzero t → (length t < length buf)%nat → c_str (fgets_into buf t) = Done t.
Proof.
  intros Hnz Hlt. unfold fgets_into.
  rewrite <- (drop_0 (splice _ _ _)). by apply c_str_splice.
Qed.

Lemma length_fgets_into buf t :
  (length t < length buf)%nat → length (fgets_into buf t) = length buf.
Proof. intros H. unfold fgets_into. apply length_splice. rewrite length_app. cbn. lia. Qed.

Lemma fgets_into_str t :
  nonzero t → (length t < INIFILE_MAX_CONTENT_LINELEN)%nat →
  c_str (fgets_into zero_line t) = Done t.
Proof.
  intros Hnz Hlt. apply fgets_into_c_str; [done|]. unfold zero_line. by rewrite length_replicate.
Qed.

(** ** inifile v2.0.0: what rewriting the file does on disk

    For a file with a plain name the process may read and write, copying the
    edited lines to "<name>.tmp" and moving the copy over replaces exactly
    that file's content, and a copy that failed leaves it as it was; nothing
    but the file system changes. *)

Definition tmp_name (name : list Z) : list Z := name ++ tem_suff_name.

(** The file [name] with content [c] can be rewritten. *)
Record disk_ok (fs : filesystem) (name c : list Z) : Prop := {
  dk_plain : plain_name name = true;
  dk_len : (length name + 5 ≤ INIFILE_FILEALL_NAME_LEN)%nat;
  dk_read : fs_read_ok fs name = true;
  dk_write : fs_write_ok fs name = true;
  dk_write_tmp : fs_write_ok fs (tmp_name name) = true;
  dk_file : fs_files fs !! name = Some c;
}.

(** The file system after the copy: moved over the file, or dropped. *)
Definition replaced (fs : filesystem) (name : list Z) (ret : Z) (out : list Z) : filesystem :=
  if ret <? 0 then fs_set_files (delete (tmp_name name) (fs_files fs)) fs
  else fs_set_files (<[name := out]> (delete (tmp_name name) (fs_files fs))) fs.

Lemma tmp_name_ne name : tmp_name name ≠ name.
Proof.
  unfold tmp_name. intros H%(f_equal length). rewrite length_app in H.
  change (length tem_suff_name) with 4%nat in H. lia.
Qed.

Lemma plain_tmp name : plain_name name = true → plain_name (tmp_name name) = true.
Proof.
  destruct name as [|c l]; [done|]. unfold plain_name, tmp_name. cbn [app].
  intros [H1 H2]%andb_true_iff. apply andb_true_iff. split; [done|].
  change (c :: l ++ tem_suff_name) with ((c :: l) ++ tem_suff_name).
  rewrite forallb_app, H2. reflexivity.
Qed.

Lemma length_replicate_zero n : length (replicate n 0) = n.
Proof. apply length_replicate. Qed.

Section with_shell.
Context `{ShellLaws}.

Lemma file_name_string_ok p name w :
  pool_str (w_pool w) p = Done name → file_name_string p w = Done (name, w).
Proof.
  unfold pool_str, file_name_string. intros Hp. rewrite M_bind_gets.
  destruct (pool_bytes (w_pool w) p) as [b|]; [|done]. cbn [non_null].
  erewrite M_bind_lift by done. unfold lift. by rewrite Hp.
Qed.

Lemma system_cmd_ok cmd w :
  (length cmd < INIFILE_SYSTEM_CMD_LEN)%nat →
  system_cmd cmd w = Done (tt, set_fs (shell_run cmd (w_fs w)) w).
Proof.
  intros Hc. unfold system_cmd. erewrite M_bind_lift.
  2:{ apply mem_write_ok. rewrite length_app, length_replicate. cbn. lia. }
  done.
Qed.

Lemma delete_tmp_ok p name w :
  pool_str (w_pool w) p = Done name → plain_name name = true →
  (length name + 5 ≤ INIFILE_FILEALL_NAME_LEN)%nat →
  fs_write_ok (w_fs w) (tmp_name name) = true →
  delete_tmp_name_file p w = Done (tt, set_fs (fs_remove (tmp_name name) (w_fs w)) w).
Proof.
  intros Hp Hpl Hlen Hwr. unfold delete_tmp_name_file.
  run (file_name_string_ok _ _ _ Hp). fold (tmp_name name).
  rewrite system_cmd_ok.
  - rewrite shell_rm; [done|by apply plain_tmp|done].
  - unfold cmd_rm, tmp_name. rewrite !length_app. unfold INIFILE_FILEALL_NAME_LEN in Hlen.
  change (length (bytes "rm -rf ")) with 7%nat.
  change (length tem_suff_name) with 4%nat. unfold INIFILE_SYSTEM_CMD_LEN. lia.
Qed.

Lemma re_name_ok p name w :
  pool_str (w_pool w) p = Done name → plain_name name = true →
  (length name + 5 ≤ INIFILE_FILEALL_NAME_LEN)%nat →
  fs_write_ok (w_fs w) (tmp_name name) = true → fs_write_ok (w_fs w) name = true →
  re_name_ini_file p w =
  Done (tt, set_fs (fs_rename (tmp_name name) name (fs_remove name (w_fs w))) w).
Proof.
  intros Hp Hpl Hlen Hwr Hwn. unfold re_name_ini_file.
  run (file_name_string_ok _ _ _ Hp). fold (tmp_name name).
  rewrite system_cmd_ok.
  - rewrite shell_replace; [done|by apply plain_tmp|done|done|done].
  - unfold cmd_replace, tmp_name. rewrite !length_app. unfold INIFILE_FILEALL_NAME_LEN in Hlen.
  change (length (bytes "rm -rf ")) with 7%nat.
  change (length (bytes " && mv ")) with 7%nat. change (length (bytes " ")) with 1%nat.
  change (length tem_suff_name) with 4%nat. unfold INIFILE_SYSTEM_CMD_LEN. lia.
Qed.

(** The copy, edited by [body], replaces the file, or is dropped. *)
Lemma rewrite_file_ok w p name c par body ret out par' :
  pool_str (w_pool w) p = Done name → disk_ok (w_fs w) name c →
  body c = Done (ret, out, par') →
  rewrite_file p par body w =
  Done ((ret, par'), set_fs (replaced (w_fs w) name ret out) w).
Proof.
  intros Hp [Hpl Hlen Hr Hwr Hwt Hc] Hb. unfold rewrite_file.
  run (file_name_string_ok _ _ _ Hp). fold (tmp_name name).
  erewrite M_bind_lift.
  2:{ apply mem_write_ok. unfold tmp_name. rewrite !length_app, length_replicate.
    change (length tem_suff_name) with 4%nat. cbn [length]. lia. }
  rewrite M_bind_gets.
  assert (fopen_r (w_fs w) name = Some c) as -> by (unfold fopen_r; by rewrite Hr).
  unfold fopen_w. rewrite Hwt.
  erewrite M_bind_done.
  2:{ rewrite (M_bind_lift _ _ _ _ Hb), M_bind_modify. done. }
  cbn [fst snd]. unfold replaced. destruct (ret <? 0).
  - erewrite M_bind_done by (apply delete_tmp_ok with (name := name); done).
  unfold mret, M_ret. do 2 f_equal. unfold set_fs. cbn. f_equal.
  unfold fs_remove, fclose_w, fs_set_files. cbn. f_equal.
  by rewrite insert_insert_eq, delete_insert_eq.
  - erewrite M_bind_done by (apply re_name_ok with (name := name); done).
  unfold mret, M_ret. do 2 f_equal. unfold set_fs. cbn. f_equal.
  unfold fs_rename, fs_remove, fclose_w, fs_set_files. cbn.
  rewrite lookup_delete_ne by (apply not_eq_sym, tmp_name_ne).
  rewrite lookup_insert_eq. f_equal.
  rewrite insert_insert_eq.
  rewrite (delete_delete _ (tmp_name name)), delete_insert_eq.
  by rewrite insert_delete_eq.
Qed.
End with_shell.

(** The other files keep their content. *)
Lemma replaced_lookup fs name ret out :
  fs_files (replaced fs name ret out) !! name =
  (if ret <? 0 then fs_files fs !! name else Some out).
Proof.
  unfold replaced. destruct (ret <? 0); cbn.
  - apply lookup_delete_ne, tmp_name_ne.
  - apply lookup_insert_eq.
Qed.

Lemma replaced_lookup_ne fs name ret out n :
  n ≠ name → n ≠ tmp_name name →
  fs_files (replaced fs name ret out) !! n = fs_files fs !! n.
Proof.
  intros H1 H2. unfold replaced. destruct (ret <? 0); cbn.
  - by apply lookup_delete_ne, not_eq_sym.
  - rewrite lookup_insert_ne by done. by apply lookup_delete_ne, not_eq_sym.
Qed.
