(* ===== verification/V2Edit.v ===== *)
(** * inifile v2.0.0: what rewriting does to the lines of the file

    The loops of [rewrite_after_update], [rewrite_after_add] and
    [rewrite_after_delete] work on a 1024-byte buffer.  [text_update],
    [text_add] and [text_delete] say what they do to the texts of the lines;
    on lines that leave room for the names the loops return, and write
    exactly that. *)

From S2P Require Import Prelude CString FileSys V2Data V2Line V2Rewrite V2Parse V2Layout V2Text.

Open Scope Z_scope.

(** ** The caller's strings *)

(** Filling in the lengths. *)
Lemma fill_len_names b len s :
  names b len s → fill_len (Some b) len = Done (Z.of_nat (length s)).
Proof. intros (H & _)%names_len. done. Qed.

Lemma fill_section_len_names par b s :
  par_section par = Some b → names b (par_section_len par) s →
  fill_section_len par = Done (set_section_len (Z.of_nat (length s)) par).
Proof. intros Hb Hs. unfold fill_section_len. by rewrite Hb, (fill_len_names _ _ _ Hs). Qed.

(** A string argument: NUL-terminated, with its length or no length given. *)
Definition str_arg (p : c_ptr) (len : Z) (s : list Z) : Prop :=
  ∃ b, p = Some b ∧ c_str b = Done s ∧ (len <= 0 ∨ len = Z.of_nat (length s)).

Lemma str_arg_names p len s :
  str_arg p len s → ∃ b, p = Some b ∧ names b len s ∧ c_str b = Done s.
Proof. intros (b & -> & Hb & Hl). exists b. split; [done|]. split; [by apply names_c_lit|done]. Qed.

Lemma str_arg_fill p len s :
  str_arg p len s → fill_len p len = Done (Z.of_nat (length s)).
Proof. intros (b & -> & Hn & _)%str_arg_names. by apply fill_len_names. Qed.

Lemma str_arg_filled p len s : str_arg p len s → str_arg p (Z.of_nat (length s)) s.
Proof. intros (b & -> & Hb & _). exists b. eauto. Qed.

(** ** Building the lines *)

(** Writing a string with its terminator into a zeroed rest. *)
Lemma print_zero pre s n :
  (length s + 1 ≤ n)%nat →
  mem_write (pre ++ replicate n 0) (length pre) (s ++ [0]) =
  Done (pre ++ s ++ replicate (n - length s) 0).
Proof.
  intros Hn. rewrite mem_write_ok.
  2:{ rewrite !length_app, length_replicate. cbn. lia. }
  f_equal. unfold splice. rewrite take_app_length, length_app. cbn [length].
  rewrite drop_app_ge by lia.
  replace (length pre + (length s + 1) - length pre)%nat with (length s + 1)%nat by lia.
  rewrite drop_replicate, <- !app_assoc. cbn. do 2 f_equal.
  destruct (n - length s)%nat as [|m] eqn:E; [lia|]. cbn. do 2 f_equal. lia.
Qed.

(** Writing one byte there. *)
Lemma print_zero_char pre c n :
  (0 < n)%nat →
  mem_write (pre ++ replicate n 0) (length pre) [c] =
  Done ((pre ++ [c]) ++ replicate (n - 1) 0).
Proof.
  intros Hn. rewrite mem_write_ok.
  2:{ rewrite !length_app, length_replicate. cbn. lia. }
  f_equal. unfold splice. rewrite take_app_length. cbn [length].
  rewrite drop_app_ge by lia.
  replace (length pre + 1 - length pre)%nat with 1%nat by lia.
  rewrite drop_replicate, <- app_assoc. done.
Qed.

Lemma endchar_zero pre s n :
  nonzero s → (0 < n)%nat →
  find_frist_endchar (pre ++ s ++ replicate n 0) (length pre) =
  Done (length pre + length s)%nat.
Proof.
  intros Hs Hn. unfold find_frist_endchar. rewrite drop_app_length.
  rewrite (str_scan_len_spec _ s); [done|]. destruct n; [lia|]. cbn. by apply c_str_app.
Qed.

Lemma str_arg_snprintf p len s buf q :
  str_arg p len s →
  (b ← non_null p; snprintf_at buf q (Z.of_nat (length s) + 1) b) = mem_write buf q (s ++ [0]).
Proof.
  intros (b & -> & Hb & _). cbn. unfold snprintf_at.
  by rewrite (snprintf_s_full s _ b Hb eq_refl).
Qed.

Lemma zero_line_eq : zero_line = replicate INIFILE_MAX_CONTENT_LINELEN 0.
Proof. done. Qed.

(** ** The tests of the loops *)

(** The name [s] stands at [p], followed by a byte that ends it. *)
Definition has_name (stop : Z → bool) (t : list Z) (p : nat) (s : list Z) : bool :=
  bool_decide (take (length s) (drop p t) = s) &&
  match t !! (p + length s)%nat with Some c => stop c | None => false end.

Definition section_hit (s t : list Z) : bool :=
  match index_of CONTENT_LEFT_BRACKET t with
  | Some b => has_name (λ c, c =? CONTENT_RIGHT_BRACKET) t (b + 1) s
  | None => false
  end.
Definition key_end (c : Z) : bool := is_blank c || (c =? CONTENT_EQUALITY_SIGN).
Definition key_hit (k t : list Z) : bool := has_name key_end t (span_len is_blank t) k.

(** A name as the loops use it: its length is filled in. *)
Definition name_arg (p : c_ptr) (len : Z) (s : list Z) : Prop :=
  ∃ b, p = Some b ∧ len = Z.of_nat (length s) ∧ mem_read b len = Done s ∧ nonzero s.

Lemma name_arg_names b len s :
  names b len s → name_arg (Some b) (Z.of_nat (length s)) s.
Proof. intros (_ & Hnz & Hm)%names_len. by exists b. Qed.

Lemma str_arg_name_arg p len s :
  str_arg p len s → name_arg p (Z.of_nat (length s)) s.
Proof. intros (b & -> & Hn & _)%str_arg_names. by eapply name_arg_names. Qed.

Section line.
Context (line t : list Z).
Hypothesis Ht : c_str line = Done t.

(** The byte after the name, and the comparison of the name. *)
Lemma name_test stop p b s :
  stop 0 = false → (p ≤ length t)%nat → (p + length s < length line)%nat →
  mem_read b (Z.of_nat (length s)) = Done s → nonzero s →
  ∃ q r, rd line (p + length s) = Done q ∧
  memcmp b (drop p line) (Z.of_nat (length s)) = Done r ∧
  stop q && (r =? 0) = has_name stop t p s.
Proof using Ht.
  intros Hstop Hp Hlen Hb Hs.
  destruct (lookup_lt_is_Some_2 line (p + length s) Hlen) as [q Hq].
  exists q, (bytes_cmp s (take (length s) (drop p line))).
  split; [by apply rd_ok|]. split.
  { unfold memcmp. rewrite Hb. cbn. rewrite mem_read_ok by (rewrite length_drop; lia).
  cbn. by rewrite Nat2Z.id. }
  pose proof (bytes_cmp_eq s (take (length s) (drop p line))) as Hcmp.
  rewrite length_take, length_drop in Hcmp. specialize (Hcmp ltac:(lia)).
  unfold has_name. destruct (Nat.lt_ge_cases (p + length s) (length t)) as [Hlt|Hge].
  - assert (take (length s) (drop p line) = take (length s) (drop p t)) as Hsame.
  { apply c_str_inv in Ht as (r & -> & _).
    rewrite drop_app_le, take_app_le by (rewrite ?length_drop; lia). done. }
  rewrite <- (c_str_lookup _ _ _ Ht Hlt), Hq. rewrite Hsame in *.
  rewrite andb_comm. f_equal. apply eq_bool_prop_intro.
  rewrite bool_decide_spec, Is_true_true, Z.eqb_eq. rewrite Hcmp. naive_solver.
  - rewrite (lookup_ge_None_2 t) by done. rewrite andb_false_r.
  destruct (decide (p + length s = length t)%nat) as [E|E].
  { rewrite E, (c_str_nul _ _ Ht) in Hq. injection Hq as <-. by rewrite Hstop. }
  destruct (Z.eqb_spec (bytes_cmp s (take (length s) (drop p line))) 0) as [Hz|];
    [|by rewrite andb_false_r].
  exfalso. apply Hcmp in Hz. rewrite Hz in Hs.
  apply (proj1 (Forall_lookup _ _) Hs (length t - p)%nat 0); [|done].
  rewrite lookup_take_lt by lia. rewrite lookup_drop.
  replace (p + (length t - p))%nat with (length t) by lia. by apply c_str_nul.
Qed.

Lemma section_test_spec par s ret b :
  name_arg (par_section par) (par_section_len par) s →
  index_of CONTENT_LEFT_BRACKET t = Some b →
  (length t + length s < length line)%nat →
  ∃ r, section_test par line ret = Done (Some (section_hit s t, r)) ∧
  (section_hit s t = true → r = 0).
Proof using Ht.
  intros (sb & Hsb & Hsl & Hm & Hnz) Hb Hlen. pose proof (index_of_lt _ _ _ Hb).
  unfold section_test, section_hit. rewrite (bind_done _ _ _ (chr_at line t Ht _)), Hb.
  rewrite Hsl in *. rewrite Nat2Z.id.
  destruct (name_test (λ c, c =? CONTENT_RIGHT_BRACKET) (b + 1) sb s)
  as (q & r & Hq & Hr & <-); try done; [lia..|].
  rewrite (bind_done _ _ _ Hq). destruct (q =? CONTENT_RIGHT_BRACKET); cbn [andb].
  - rewrite Hsb. cbn [non_null mbind outcome_bind]. rewrite Hr. cbn [mbind outcome_bind].
  exists r. split; [done|]. apply Z.eqb_eq.
  - exists ret. done.
Qed.

Lemma key_test_spec par k ret :
  name_arg (par_key par) (par_key_len par) k →
  (length t + length k < length line)%nat →
  ∃ r, key_test par line (span_len is_blank t) ret = Done (key_hit k t, r) ∧
  (key_hit k t = true → r = 0).
Proof using Ht.
  intros (kb & Hkb & Hkl & Hm & Hnz) Hlen. pose proof (span_len_le is_blank t).
  unfold key_test, key_hit. rewrite Hkl in *. rewrite Nat2Z.id.
  destruct (name_test key_end (span_len is_blank t) kb k)
  as (q & r & Hq & Hr & <-); try done; [lia|].
  rewrite (bind_done _ _ _ Hq). change (is_blank q || _) with (key_end q).
  destruct (key_end q); cbn [andb].
  - rewrite Hkb. cbn [non_null mbind outcome_bind]. rewrite Hr. cbn [mbind outcome_bind].
  exists r. split; [done|]. apply Z.eqb_eq.
  - exists ret. done.
Qed.

Lemma fwrite_spec : fwrite_line line = Done t.
Proof using Ht.
  unfold fwrite_line, str_int_len. rewrite (str_scan_len_spec _ _ Ht).
  cbn [mbind outcome_bind mret outcome_ret]. apply c_str_inv in Ht as (r & -> & _).
  rewrite mem_read_ok by (rewrite length_app; lia). by rewrite Nat2Z.id, take_app_length.
Qed.
End line.

(** A line that is a section has a bracket, one that is a pair has '='. *)
Lemma line_kind_section t :
  line_kind t = LINE_SECTION → is_Some (index_of CONTENT_LEFT_BRACKET t).
Proof.
  unfold line_kind, section_kind, note_kind.
  destruct (index_of CONTENT_LEFT_BRACKET t); [eauto|]. repeat case_match; try done.
Qed.
Lemma line_kind_keyvalue t :
  line_kind t = LINE_KEYVALUE → is_Some (index_of CONTENT_EQUALITY_SIGN t).
Proof.
  unfold line_kind, section_kind, note_kind.
  destruct (index_of CONTENT_EQUALITY_SIGN t); [eauto|]. repeat case_match; try done.
Qed.

(** ** The edited lines *)

(** Where the value starts: after the '=' at [e] and its blanks. *)
Definition value_pos (t : list Z) (e : nat) : nat :=
  (e + 1 + span_len is_blank (drop (e + 1) t))%nat.

(** The line of the pair with the new value: what stands before the value,
    the value, a tab and the old comment with its line end, and a line end. *)
Definition edit_value (v t : list Z) (e : nat) : list Z :=
  let p := value_pos t e in
  take p t ++ v ++
  match index_of CONTENT_COMMA_SIGN (drop p t) with
  | Some c => CONTENT_TAB_SIGN :: drop (p + c) t
  | None => []
  end ++ [CONTENT_NEELINE_SIGN].

(** The section's line with the new pair behind it. *)
Definition add_pair (k v t : list Z) : list Z :=
  t ++ k ++ [CONTENT_TAB_SIGN; CONTENT_EQUALITY_SIGN; CONTENT_TAB_SIGN] ++ v
    ++ [CONTENT_NEELINE_SIGN].

(** The line in front of the file. *)
Definition new_section (s : list Z) : list Z :=
  CONTENT_LEFT_BRACKET :: s ++ [CONTENT_RIGHT_BRACKET; 10; 10].

Lemma value_pos_le t e : (e < length t)%nat → (value_pos t e ≤ length t)%nat.
Proof.
  intros He. unfold value_pos. pose proof (span_len_le is_blank (drop (e + 1) t)) as H.
  rewrite length_drop in H. lia.
Qed.

Lemma fgets_zero t :
  (length t < INIFILE_MAX_CONTENT_LINELEN)%nat →
  fgets_into zero_line t = t ++ replicate (INIFILE_MAX_CONTENT_LINELEN - length t) 0.
Proof.
  intros H. unfold fgets_into.
  pose proof (print_zero [] t INIFILE_MAX_CONTENT_LINELEN) as P. cbn [app length] in P.
  rewrite mem_write_ok in P by (rewrite length_replicate, length_app; cbn; lia).
  specialize (P ltac:(lia)). by injection P.
Qed.

Lemma c_str_padded s n : nonzero s → (0 < n)%nat → c_str (s ++ replicate n 0) = Done s.
Proof. intros Hs Hn. destruct n; [lia|]. by apply c_str_app. Qed.

Lemma length_padded s n :
  (length s ≤ n)%nat → length (s ++ replicate (n - length s) 0) = n.
Proof. intros H. rewrite length_app, length_replicate. lia. Qed.

(** A zeroed buffer that holds [s]. *)
Definition padded (s : list Z) : list Z :=
  s ++ replicate (INIFILE_MAX_CONTENT_LINELEN - length s) 0.

Section padded.
Implicit Types s x : list Z.

Lemma padded_str s :
  nonzero s → (length s < INIFILE_MAX_CONTENT_LINELEN)%nat → c_str (padded s) = Done s.
Proof. intros Hs Hl. apply c_str_padded; [done|lia]. Qed.

Lemma length_padded_line s :
  (length s ≤ INIFILE_MAX_CONTENT_LINELEN)%nat →
  length (padded s) = INIFILE_MAX_CONTENT_LINELEN.
Proof. apply length_padded. Qed.

(** Printing behind the string. *)
Lemma padded_print s x :
  (length s + length x < INIFILE_MAX_CONTENT_LINELEN)%nat →
  mem_write (padded s) (length s) (x ++ [0]) = Done (padded (s ++ x)).
Proof.
  intros H. unfold padded. rewrite print_zero by lia.
  rewrite <- app_assoc, length_app. do 4 f_equal. lia.
Qed.

Lemma padded_char s c :
  (length s < INIFILE_MAX_CONTENT_LINELEN)%nat →
  mem_write (padded s) (length s) [c] = Done (padded (s ++ [c])).
Proof.
  intros H. unfold padded. rewrite print_zero_char by lia.
  rewrite length_app. cbn [length]. do 3 f_equal. lia.
Qed.

Lemma padded_end p s :
  nonzero s → (length s < INIFILE_MAX_CONTENT_LINELEN)%nat → (p ≤ length s)%nat →
  find_frist_endchar (padded s) p = Done (length s).
Proof.
  intros Hs Hl Hp. unfold find_frist_endchar.
  rewrite (str_scan_len_spec _ (drop p s)).
  - cbn. rewrite length_drop. f_equal. lia.
  - by apply c_str_drop; [apply padded_str|].
Qed.

Lemma padded_zero : zero_line = padded [].
Proof. unfold padded. cbn [length app]. by rewrite Nat.sub_0_r. Qed.

(** A string argument printed with [snprintf]. *)
Lemma padded_snprintf p len v s :
  str_arg p len v →
  (length s + length v < INIFILE_MAX_CONTENT_LINELEN)%nat →
  (b ← non_null p; snprintf_at (padded s) (length s) (Z.of_nat (length v) + 1) b) =
  Done (padded (s ++ v)).
Proof. intros Hv Hl. rewrite (str_arg_snprintf _ _ _ _ _ Hv). by apply padded_print. Qed.
End padded.

(** Sequencing after a sequence. *)
Lemma bind_assoc {A B C} (m : outcome A) (f : A → outcome B) (g : B → outcome C) :
  ((m ≫= f) ≫= g) = (m ≫= λ x, f x ≫= g).
Proof. by destruct m. Qed.

Lemma bind_two {A B C} (m : outcome A) (f : A → outcome B) (g : B → outcome C) b :
  (m ≫= f) = Done b → (m ≫= λ x, f x ≫= g) = g b.
Proof. intros H. by rewrite <- bind_assoc, H. Qed.

(** The old comment behind a tab. *)
Definition comment_text (o : option nat) (t : list Z) : list Z :=
  match o with Some c => CONTENT_TAB_SIGN :: drop c t | None => [] end.

Lemma print_comment line t s o :
  c_str line = Done t → nonzero s →
  (length (s ++ comment_text o t) < INIFILE_MAX_CONTENT_LINELEN)%nat →
  (∀ c, o = Some c → (c < length t)%nat) →
  match o with
  | Some c => e ← find_frist_endchar (padded s) 0;
              x ← c_str (drop c line);
              sprintf_at (padded s) e (CONTENT_TAB_SIGN :: x)
  | None => mret (padded s)
  end = Done (padded (s ++ comment_text o t)).
Proof.
  intros Ht Hs Hlen Ho. destruct o as [c|]; cbn [comment_text] in *.
  - specialize (Ho c eq_refl). rewrite length_app in Hlen.
    rewrite (bind_done _ _ _ (padded_end 0 _ Hs ltac:(lia) ltac:(lia))).
    rewrite (bind_done _ _ _ (c_str_drop _ _ c Ht ltac:(lia))).
    by apply padded_print.
  - by rewrite app_nil_r.
Qed.

Lemma comment_nonzero o t : nonzero t → nonzero (comment_text o t).
Proof. intros H. destruct o; [constructor; [done|by apply Forall_drop]|constructor]. Qed.

Section edited.
Context (par : INI_PARAMETER) (k v : list Z).
Hypothesis Hv : str_arg (par_value par) (par_value_len par) v.
Hypothesis Hvl : par_value_len par = Z.of_nat (length v).

Lemma str_arg_nonzero p len s : str_arg p len s → nonzero s.
Proof. intros (b & _ & Hb & _). by eapply c_str_nonzero. Qed.

(** The new value and the old comment. *)
Lemma update_value_line_spec line t e :
  c_str line = Done t → length line = INIFILE_MAX_CONTENT_LINELEN →
  index_of CONTENT_EQUALITY_SIGN t = Some e →
  (length t + length v + 3 ≤ INIFILE_MAX_CONTENT_LINELEN)%nat →
  ∃ line', update_value_line par line e = Done line' ∧ c_str line' = Done (edit_value v t e).
Proof using Hv Hvl.
  intros Ht Hll He Hlen. pose proof (index_of_lt _ _ _ He) as Hlt.
  pose proof (value_pos_le t e Hlt) as Hp. pose proof (c_str_nonzero _ _ Ht) as Hnz.
  pose proof (str_arg_nonzero _ _ _ Hv) as Hvn.
  assert (c_str (drop (e + 1) line) = Done (drop (e + 1) t)) as Hd by (apply c_str_drop; [done|lia]).
  unfold update_value_line. rewrite (bind_done _ _ _ (skip_fwd_spec is_blank _ _ (e + 1) Hd eq_refl)).
  fold (value_pos t e). set (p := value_pos t e) in *.
  assert (take p line = take p t) as Htk.
  { apply c_str_inv in Ht as (r & -> & _). by rewrite take_app_le. }
  rewrite mem_read_ok by lia. rewrite Nat2Z.id, Htk. cbn [mbind outcome_bind].
  assert (length (take p t) = p) as Hpl by (rewrite length_take; lia).
  assert (nonzero (take p t)) as Hpn by by apply Forall_take.
  rewrite mem_write_ok by (unfold zero_line; rewrite length_replicate; lia).
  cbn [mbind outcome_bind].
  assert (splice zero_line 0 (take p t) = padded (take p t)) as ->.
  { unfold splice, padded, zero_line. rewrite take_0, drop_replicate, Nat.add_0_l. done. }
  rewrite (bind_done _ _ _ (padded_end 0 _ Hpn ltac:(lia) ltac:(lia))).
  rewrite Hvl. rewrite (bind_two _ _ _ _ (padded_snprintf _ _ _ (take p t) Hv ltac:(lia))).
  assert (c_str (drop p line) = Done (drop p t)) as Hdp by by apply c_str_drop.
  unfold str_frist_constchar. rewrite (str_scan_chr_spec _ _ CONTENT_COMMA_SIGN p Hdp).
  cbn [mbind outcome_bind]. unfold edit_value. fold p.
  set (o := (λ i, p + i)%nat <$> index_of CONTENT_COMMA_SIGN (drop p t)).
  assert (∀ c, o = Some c → (p ≤ c < length t)%nat) as Ho.
  { intros c (i & Hi & ->)%fmap_Some. apply index_of_lt in Hi. rewrite length_drop in Hi. lia. }
  assert (nonzero (take p t ++ v)) as Hpv by by apply Forall_app.
  assert (length ((take p t ++ v) ++ comment_text o t) + 2 ≤ INIFILE_MAX_CONTENT_LINELEN)%nat
  as Hl.
  { rewrite !length_app. destruct o as [c|]; cbn; [specialize (Ho c eq_refl)|lia].
  rewrite length_drop. lia. }
  assert (nonzero ((take p t ++ v) ++ comment_text o t)) as Hall
  by (apply Forall_app; split; [done|by apply comment_nonzero]).
  rewrite (bind_done _ _ _ (print_comment line t _ o Ht Hpv ltac:(lia)
                            ltac:(intros c Hc; by apply Ho))).
  rewrite (bind_done _ _ _ (padded_str _ Hall ltac:(lia))).
  unfold sprintf_at. rewrite padded_zero.
  rewrite (padded_print [] (_ ++ [CONTENT_NEELINE_SIGN])) by (rewrite length_app; cbn [length]; lia).
  eexists. split; [done|]. cbn [app].
  rewrite padded_str.
  - rewrite <- !app_assoc. subst o. by destruct (index_of _ (drop p t)).
  - apply Forall_app. split; [done|]. by repeat constructor.
  - rewrite length_app. cbn [length]. lia.
Qed.
End edited.

(** The new pair behind the section's line. *)
Lemma add_keyvalue_line_spec par k v t p :
  str_arg (par_key par) (par_key_len par) k → par_key_len par = Z.of_nat (length k) →
  str_arg (par_value par) (par_value_len par) v → par_value_len par = Z.of_nat (length v) →
  nonzero t → (p ≤ length t)%nat →
  (length t + length k + length v + 4 < INIFILE_MAX_CONTENT_LINELEN)%nat →
  ∃ line', add_keyvalue_line par (padded t) p = Done line' ∧
    c_str line' = Done (add_pair k v t).
Proof.
  intros Hk Hkl Hv Hvl Ht Hp Hlen. unfold add_keyvalue_line.
  pose proof (str_arg_nonzero _ _ _ Hk) as Hkn. pose proof (str_arg_nonzero _ _ _ Hv) as Hvn.
  rewrite (bind_done _ _ _ (padded_end p t Ht ltac:(lia) Hp)), Hkl, Hvl.
  rewrite (bind_two _ _ _ _ (padded_snprintf _ _ _ t Hk ltac:(lia))).
  set (tk := t ++ k). assert (nonzero tk) as Htk by by apply Forall_app.
  assert (length tk = length t + length k)%nat as Htkl by (unfold tk; by rewrite length_app).
  rewrite (bind_done _ _ _ (padded_end (length t) tk Htk ltac:(lia) ltac:(lia))).
  unfold sprintf_at. rewrite (padded_print tk) by (cbn [length]; lia). cbn [mbind outcome_bind].
  set (te := tk ++ _). assert (nonzero te) as Hte.
  { apply Forall_app. split; [done|]. by repeat constructor. }
  assert (length te = length tk + 3)%nat as Htel by (unfold te; rewrite length_app; done).
  rewrite (bind_done _ _ _ (padded_end (length tk) te Hte ltac:(lia) ltac:(lia))).
  rewrite (bind_two _ _ _ _ (padded_snprintf _ _ _ te Hv ltac:(lia))).
  assert (nonzero (te ++ v)) as Htv by by apply Forall_app.
  rewrite (bind_done _ _ _ (padded_end (length te) _ Htv ltac:(rewrite length_app; lia)
                              ltac:(rewrite length_app; lia))).
  rewrite padded_char by (rewrite length_app; lia).
  eexists. split; [done|]. rewrite padded_str.
  - unfold te, tk, add_pair. by rewrite <- !app_assoc.
  - apply Forall_app. split; [done|]. by repeat constructor.
  - rewrite !length_app. cbn [length]. lia.
Qed.

Lemma add_section_line_spec par s :
  str_arg (par_section par) (par_section_len par) s →
  par_section_len par = Z.of_nat (length s) →
  (length s + 4 < INIFILE_MAX_CONTENT_LINELEN)%nat →
  add_section_line par = Done (new_section s).
Proof.
  intros Hs Hsl Hlen. unfold add_section_line. pose proof (str_arg_nonzero _ _ _ Hs) as Hsn.
  rewrite padded_zero, (padded_char []) by (cbn; lia). cbn [app mbind outcome_bind]. rewrite Hsl.
  set (b := [CONTENT_LEFT_BRACKET]). change 1%nat with (length b) at 1.
  rewrite (bind_two _ _ _ _ (padded_snprintf _ _ _ b Hs ltac:(cbn [length b]; lia))).
  assert (nonzero (b ++ s)) as Hbn by (apply Forall_app; split; [by repeat constructor|done]).
  assert (length (b ++ s) = 1 + length s)%nat as Hbl by done.
  rewrite (bind_done _ _ _ (padded_end 1 _ Hbn ltac:(lia) ltac:(lia))).
  unfold sprintf_at. rewrite padded_print by (cbn [length]; lia). cbn [mbind outcome_bind].
  rewrite (fwrite_spec _ ((b ++ s) ++ [CONTENT_RIGHT_BRACKET; 10; 10])).
  - unfold new_section, b. by rewrite <- app_assoc.
  - apply padded_str.
    + apply Forall_app. split; [done|]. by repeat constructor.
    + rewrite length_app. cbn [length]. lia.
Qed.

(** ** The loops *)

(** Every line is a string that leaves [n] bytes of the buffer. *)
Definition lines_room (n : nat) (lines : list (list Z)) : Prop :=
  Forall (λ t, nonzero t ∧ (length t + n < INIFILE_MAX_CONTENT_LINELEN)%nat) lines.
#[export] Instance lines_room_dec n lines : Decision (lines_room n lines).
Proof. unfold lines_room. apply _. Defined.

Definition before_out (s : list Z) (r : Z * list Z) : Z * list Z := (r.1, s ++ r.2).

(** [rewrite_after_update]: from the section's line on, the first line of
    the key gets the new value. *)
Fixpoint text_update (s k v : list Z) (inside : bool) (lines : list (list Z)) : Z * list Z :=
  match lines with
  | [] => (0, [])
  | t :: ts =>
      match line_kind t with
      | LINE_SECTION => before_out t (text_update s k v (inside || section_hit s t) ts)
      | LINE_KEYVALUE =>
          if inside && key_hit k t
          then (0, edit_value v t (default O (index_of CONTENT_EQUALITY_SIGN t)) ++ concat ts)
          else before_out t (text_update s k v inside ts)
      | LINE_NOTE | LINE_BLANK => before_out t (text_update s k v inside ts)
      | LINE_ERROR => (INIFILE_FORMAT_ERROR, [])
      end
  end.

(** [rewrite_after_add]: the pair goes behind the section's line. *)
Fixpoint text_add (s k v : list Z) (lines : list (list Z)) : Z * list Z :=
  match lines with
  | [] => (0, [])
  | t :: ts =>
      match line_kind t with
      | LINE_SECTION => if section_hit s t then (0, add_pair k v t ++ concat ts)
                        else before_out t (text_add s k v ts)
      | LINE_KEYVALUE | LINE_NOTE | LINE_BLANK => before_out t (text_add s k v ts)
      | LINE_ERROR => (INIFILE_FORMAT_ERROR, [])
      end
  end.

Lemma update_lines_done par inside lines out n :
  lines_room n lines →
  update_lines par (inside, true) lines out = Done (0, out ++ concat lines).
Proof.
  intros Hl. revert out. induction Hl as [|t ts [Ht Hlt] _ IH]; intros out.
  - cbn. by rewrite app_nil_r.
  - cbn [update_lines update_line].
    rewrite (fwrite_spec _ t) by (apply fgets_into_str; [done|lia]).
    cbn [mbind outcome_bind mret outcome_ret concat]. rewrite IH. by rewrite <- app_assoc.
Qed.

Lemma add_lines_done par lines out n :
  lines_room n lines → add_lines par true lines out = Done (0, out ++ concat lines).
Proof.
  intros Hl. revert out. induction Hl as [|t ts [Ht Hlt] _ IH]; intros out.
  - cbn. by rewrite app_nil_r.
  - cbn [add_lines add_line].
    rewrite (fwrite_spec _ t) by (apply fgets_into_str; [done|lia]).
    cbn [mbind outcome_bind mret outcome_ret concat]. rewrite IH. by rewrite <- app_assoc.
Qed.
Section loops.
Context (par : INI_PARAMETER) (s k v : list Z).
Hypothesis Hs : name_arg (par_section par) (par_section_len par) s.
Hypothesis Hk : str_arg (par_key par) (par_key_len par) k.
Hypothesis Hkl : par_key_len par = Z.of_nat (length k).
Hypothesis Hv : str_arg (par_value par) (par_value_len par) v.
Hypothesis Hvl : par_value_len par = Z.of_nat (length v).


(** [rewrite_after_update] writes [text_update] of the lines. *)
Lemma update_lines_spec inside lines out :
  lines_room (length s + length k + length v + 3) lines →
  update_lines par (inside, false) lines out =
  Done (before_out out (text_update s k v inside lines)).
Proof using All.
  intros Hl. revert inside out. induction Hl as [|t ts [Ht Hlt] Hts IH]; intros inside out.
  { cbn. unfold before_out. cbn. by rewrite app_nil_r. }
  assert (c_str (fgets_into zero_line t) = Done t) as Hc by (apply fgets_into_str; [done|lia]).
  assert (length (fgets_into zero_line t) = INIFILE_MAX_CONTENT_LINELEN) as Hll.
  { rewrite length_fgets_into; unfold zero_line; rewrite length_replicate; [done|lia]. }
  assert (∀ i r, r = before_out (out ++ t) (text_update s k v i ts) →
  (s' ← fwrite_line (fgets_into zero_line t);
   update_lines par (i, false) ts (out ++ s')) = Done r) as Hwrite.
  { intros i r ->. rewrite (bind_done _ _ _ (fwrite_spec _ _ Hc)). apply IH. }
  assert (∀ i, before_out (out ++ t) (text_update s k v i ts) =
             before_out out (before_out t (text_update s k v i ts))) as Hcat.
  { intros i. unfold before_out. cbn. by rewrite app_assoc. }
  cbn [update_lines update_line text_update].
  rewrite (bind_done _ _ _ (judge_line_kind _ _ Hc)).
  destruct (line_kind t) eqn:Ekind.
  - destruct (line_kind_section _ Ekind) as [b Hb].
  destruct (section_test_spec _ _ Hc par s 0 b Hs Hb ltac:(lia)) as (r & Hr & _).
  rewrite Hr. cbn [mbind outcome_bind]. rewrite bind_assoc. by apply Hwrite.
  - destruct inside; cbn [andb]; [|rewrite bind_assoc; by apply Hwrite].
  destruct (line_kind_keyvalue _ Ekind) as [e He].
  rewrite (bind_done _ _ _ (chr_at _ _ Hc _)), He.
  rewrite (bind_done _ _ _ (skip_fwd_spec is_blank _ _ 0 Hc eq_refl)), Nat.add_0_l.
  destruct (key_test_spec _ _ Hc par k 0) as (r & Hr & _); [|lia|].
  { rewrite Hkl. by eapply str_arg_name_arg. }
  rewrite Hr. cbn [mbind outcome_bind fst]. destruct (key_hit k t).
  + destruct (update_value_line_spec par v Hv Hvl _ t e Hc Hll He ltac:(lia))
      as (line' & Hrun & Hc').
    rewrite Hrun. cbn [mbind outcome_bind]. rewrite (fwrite_spec _ _ Hc').
    cbn [mbind outcome_bind mret outcome_ret default].
    rewrite (update_lines_done _ _ _ _ _ Hts). unfold before_out. cbn.
    by rewrite <- app_assoc.
  + rewrite bind_assoc. by apply Hwrite.
  - rewrite bind_assoc. by apply Hwrite.
  - rewrite bind_assoc. by apply Hwrite.
  - cbn. unfold before_out. cbn. by rewrite app_nil_r.
Qed.

(** [rewrite_after_add] writes [text_add] of the lines. *)
Lemma add_lines_spec lines out :
  lines_room (length s + length k + length v + 4) lines →
  add_lines par false lines out = Done (before_out out (text_add s k v lines)).
Proof using All.
  intros Hl. revert out. induction Hl as [|t ts [Ht Hlt] Hts IH]; intros out.
  { cbn. unfold before_out. cbn. by rewrite app_nil_r. }
  assert (c_str (fgets_into zero_line t) = Done t) as Hc by (apply fgets_into_str; [done|lia]).
  assert (length (fgets_into zero_line t) = INIFILE_MAX_CONTENT_LINELEN) as Hll.
  { rewrite length_fgets_into; unfold zero_line; rewrite length_replicate; [done|lia]. }
  assert ((s' ← fwrite_line (fgets_into zero_line t); add_lines par false ts (out ++ s')) =
        Done (before_out out (before_out t (text_add s k v ts)))) as Hwrite.
  { rewrite (bind_done _ _ _ (fwrite_spec _ _ Hc)), IH. unfold before_out. cbn.
  by rewrite app_assoc. }
  cbn [add_lines add_line text_add].
  rewrite (bind_done _ _ _ (judge_line_kind _ _ Hc)).
  destruct (line_kind t) eqn:Ekind; try (rewrite bind_assoc; by apply Hwrite).
  - destruct (line_kind_section _ Ekind) as [b Hb]. pose proof (index_of_lt _ _ _ Hb).
  destruct (section_test_spec _ _ Hc par s 0 b Hs Hb ltac:(lia)) as (r & Hr & _).
  rewrite Hr. cbn [mbind outcome_bind]. rewrite (chr_at _ _ Hc _), Hb.
  cbn [mbind outcome_bind]. destruct (section_hit s t).
  2: { rewrite (bind_done (mret _) _ _ eq_refl), bind_assoc. by apply Hwrite. }
  rewrite (fgets_zero t) by lia. fold (padded t).
  destruct (add_keyvalue_line_spec par k v t (b + 1) Hk Hkl Hv Hvl Ht ltac:(lia) ltac:(lia))
    as (line' & Hrun & Hc').
  cbn [default from_option id]. rewrite bind_assoc, Hrun. cbn [mbind outcome_bind]. rewrite (fwrite_spec _ _ Hc').
  cbn [mbind outcome_bind mret outcome_ret].
  rewrite (add_lines_done _ _ _ _ Hts). unfold before_out. cbn. by rewrite <- app_assoc.
  - cbn. unfold before_out. cbn. by rewrite app_nil_r.
Qed.
End loops.

(** [rewrite_after_delete].  [found]: the section, or the key, was removed. *)
Fixpoint text_delete (s : list Z) (ko : option (list Z)) (flag : delete_flag) (found : bool)
    (lines : list (list Z)) : (Z + bool) * list Z :=
  match lines with
  | [] => (inr found, [])
  | t :: ts =>
      let keep f := (let r := text_delete s ko f found ts in (r.1, t ++ r.2)) in
      if decide (flag = DEL_DONE) then keep flag
      else
        match line_kind t, flag with
        | LINE_SECTION, DEL_SEARCH =>
            if section_hit s t then
              match ko with
              | Some _ => text_delete s ko DEL_KEY found ts
              | None => text_delete s ko DEL_SECTION true ts
              end
            else keep flag
        | LINE_SECTION, _ => keep DEL_DONE
        | LINE_KEYVALUE, DEL_SECTION => text_delete s ko flag found ts
        | LINE_KEYVALUE, DEL_KEY =>
            if key_hit (default [] ko) t then text_delete s ko DEL_DONE true ts else keep flag
        | LINE_KEYVALUE, _ | LINE_NOTE, _ | LINE_BLANK, _ => keep flag
        | LINE_ERROR, _ => (inl INIFILE_FORMAT_ERROR, [])
        end
  end.

(** The loop's state against what was found so far. *)
Record del_inv (s : list Z) (ko : option (list Z)) (par : INI_PARAMETER) (flag : delete_flag)
    (found : bool) (ret : Z) : Prop := {
  di_section : name_arg (par_section par) (par_section_len par) s;
  di_search : flag = DEL_SEARCH → found = false ∧
    match ko with
    | Some k => ∃ b, par_key par = Some b ∧ names b (par_key_len par) k
    | None => par_key par = None
    end;
  di_key : flag = DEL_KEY → found = false ∧
    ∃ k, ko = Some k ∧ name_arg (par_key par) (par_key_len par) k;
  di_found : found = true → ret = 0;
}.

(** What the loop returns, against [text_delete]. *)
Definition delete_result (s : list Z) (ko : option (list Z)) (flag : delete_flag)
    (found : bool) (lines : list (list Z)) (out : list Z)
    (r : outcome (Z * list Z * INI_PARAMETER)) : Prop :=
  let td := text_delete s ko flag found lines in
  ∃ ret par, r = Done (ret, out ++ td.2, par) ∧
    match td.1 with inl e => ret = e | inr b => b = true → ret = 0 end.

Section delete_loop.
Context (s : list Z) (ko : option (list Z)).

Definition delete_turn (lines : list (list Z)) (out line : list Z)
  (r : Z + (delete_flag * Z * INI_PARAMETER * option (list Z))) (par : INI_PARAMETER)
  : outcome (Z * list Z * INI_PARAMETER) :=
  match r with
  | inl e => mret (e, out, par)
  | inr (flag', ret', par', Some x) => delete_lines par' flag' ret' zero_line lines (out ++ x)
  | inr (flag', ret', par', None) => delete_lines par' flag' ret' line lines out
  end.

(** The claim for the lines to come. *)
Definition rest_ok (ts : list (list Z)) : Prop :=
  ∀ par flag found ret buf out, length buf = INIFILE_MAX_CONTENT_LINELEN →
  del_inv s ko par flag found ret →
  delete_result s ko flag found ts out (delete_lines par flag ret buf ts out).

(** A line that is kept. *)
Lemma delete_keep ts t line par par0 flag found ret out :
  rest_ok ts → c_str line = Done t → del_inv s ko par flag found ret →
  let td := text_delete s ko flag found ts in
  ∃ ret' par', ((x ← fwrite_line line; mret (inr (flag, ret, par, Some x))) ≫=
    λ r, delete_turn ts out line r par0) = Done (ret', out ++ t ++ td.2, par') ∧
  match td.1 with inl e => ret' = e | inr b => b = true → ret' = 0 end.
Proof using Type.
  intros IH Hc Hinv td. rewrite bind_assoc, (bind_done _ _ _ (fwrite_spec _ _ Hc)).
  cbn [mbind outcome_bind mret outcome_ret delete_turn].
  destruct (IH par flag found ret zero_line (out ++ t)) as (ret' & par' & Hrun & Hres).
  - unfold zero_line. apply length_replicate.
  - done.
  - exists ret', par'. rewrite Hrun, <- app_assoc. done.
Qed.
End delete_loop.

(** The flag changes without a line. *)
Lemma del_inv_found s ko par flag ret :
  del_inv s ko par flag true ret → flag = DEL_SECTION ∨ flag = DEL_DONE.
Proof. intros [_ H1 H2 _]. destruct flag; [by destruct H1|by left|by destruct H2|by right]. Qed.

Section delete_loop_spec.
Context (s : list Z) (ko : option (list Z)).

Lemma delete_lines_spec lines :
  lines_room (length s + length (default [] ko)) lines → rest_ok s ko lines.
Proof using Type.
  intros Hl. induction Hl as [|t ts [Ht Hlt] _ IH];
  intros par flag found ret buf out Hbuf Hinv.
  { exists ret, par. cbn. rewrite app_nil_r. split; [done|]. apply Hinv. }
  set (line := fgets_into buf t).
  assert (c_str line = Done t) as Hc by (apply fgets_into_c_str; [done|lia]).
  assert (length line = INIFILE_MAX_CONTENT_LINELEN) as Hll
  by (unfold line; rewrite length_fgets_into; [done|lia]).
  unfold delete_result. cbn [delete_lines text_delete]. fold line.
  change (∃ ret0 par0, delete_line par flag ret line ≫= (λ r, delete_turn ts out line r par) =
  Done (ret0, out ++ (text_delete s ko flag found (t :: ts)).2, par0) ∧
  match (text_delete s ko flag found (t :: ts)).1 with
  | inl e => ret0 = e | inr b => b = true → ret0 = 0 end).
  pose proof (λ par' flag' found' ret', delete_keep s ko ts t line par' par flag' found' ret' out IH Hc)
  as Hkeep.
  assert (∀ par' flag' found' ret', del_inv s ko par' flag' found' ret' →
  ∃ ret0 par0, delete_turn ts out line (inr (flag', ret', par', None)) par =
    Done (ret0, out ++ (text_delete s ko flag' found' ts).2, par0) ∧
    match (text_delete s ko flag' found' ts).1 with
    | inl e => ret0 = e | inr b => b = true → ret0 = 0 end) as Hdrop.
  { intros par' flag' found' ret' H'. by apply IH. }
  cbn [text_delete]. unfold delete_line. case_decide as Edone; [by apply Hkeep|].
  rewrite (bind_done _ _ _ (judge_line_kind _ _ Hc)).
  destruct (line_kind t) eqn:Ekind; [| |by apply Hkeep|by apply Hkeep|].
  - destruct (line_kind_section _ Ekind) as [b Hb].
  destruct flag; [|rewrite (chr_at _ _ Hc _), Hb; cbn [mbind outcome_bind]; apply Hkeep ..|done].
  2: { split; [apply Hinv|done|done|]. apply Hinv. }
  2: { split; [apply Hinv|done|done|]. apply Hinv. }
  destruct Hinv as [Hsec Hsearch _ Hfound]. destruct (Hsearch eq_refl) as [-> Hko].
  destruct (section_test_spec _ _ Hc par s ret b Hsec Hb ltac:(lia)) as (r & Hr & Hz).
  rewrite Hr. cbn [mbind outcome_bind]. destruct (section_hit s t).
  + rewrite (Hz eq_refl). destruct ko as [k|].
    * destruct Hko as (kb & Hkb & Hkn). unfold fill_key_len. rewrite Hkb.
      rewrite (fill_len_names _ _ _ Hkn). cbn [mbind outcome_bind mret outcome_ret].
      apply Hdrop. split; [apply Hsec|done| |done]. intros _. split; [done|].
      exists k. split; [done|]. cbn. rewrite Hkb. by eapply name_arg_names.
    * rewrite Hko. cbn [mbind outcome_bind mret outcome_ret]. apply Hdrop.
      split; [apply Hsec|done|done|done].
  + apply Hkeep. split; [done|by intros _|done|done].
  - destruct flag; try by apply Hkeep.
  + cbn [mbind outcome_bind mret outcome_ret]. by apply Hdrop.
  + destruct (line_kind_keyvalue _ Ekind) as [e He].
    rewrite (bind_done _ _ _ (chr_at _ _ Hc _)), He.
    rewrite (bind_done _ _ _ (skip_fwd_spec is_blank _ _ 0 Hc eq_refl)), Nat.add_0_l.
    destruct Hinv as [Hsec _ Hkey Hfound]. destruct (Hkey eq_refl) as (-> & k & -> & Hk).
    cbn [default from_option id] in *.
    destruct (key_test_spec _ _ Hc par k ret Hk ltac:(lia)) as (r & Hr & Hz).
    rewrite Hr. cbn [mbind outcome_bind fst snd]. destruct (key_hit k t).
    * cbn [mbind outcome_bind mret outcome_ret]. apply Hdrop.
      split; [done|done|done|]. intros _. by apply Hz.
    * apply Hkeep. split; [done|done| |done]. intros _. split; [done|]. by exists k.
  - cbn. rewrite app_nil_r. exists INIFILE_FORMAT_ERROR, par. done.
Qed.
End delete_loop_spec.

(** ** The text of the rewritten file *)

Definition updated_text (s k v c : list Z) : Z * list Z :=
  text_update s k v false (fgets_lines INIFILE_MAX_CONTENT_LINELEN c).
Definition added_text (s k v c : list Z) : Z * list Z :=
  text_add s k v (fgets_lines INIFILE_MAX_CONTENT_LINELEN c).
Definition deleted_text (s : list Z) (ko : option (list Z)) (c : list Z) : (Z + bool) * list Z :=
  text_delete s ko DEL_SEARCH false (fgets_lines INIFILE_MAX_CONTENT_LINELEN c).

(** The return code of deleting: an error, or 0 when the line was found. *)
Definition delete_code (r : Z + bool) (ret : Z) : Prop :=
  match r with inl e => ret = e | inr b => b = true → ret = 0 end.

(** The key of a call, if it names one. *)
Definition key_opt (par : INI_PARAMETER) (ko : option (list Z)) : Prop :=
  match ko with
  | Some k => ∃ b, par_key par = Some b ∧ names b (par_key_len par) k
  | None => par_key par = None
  end.

Lemma delete_body_ok par sb s ko c :
  par_section par = Some sb → names sb (par_section_len par) s → key_opt par ko →
  lines_room (length s + length (default [] ko)) (fgets_lines INIFILE_MAX_CONTENT_LINELEN c) →
  ∃ ret par', delete_lines (set_section_len (Z.of_nat (length s)) par) DEL_SEARCH 0 zero_line
      (fgets_lines INIFILE_MAX_CONTENT_LINELEN c) [] = Done (ret, (deleted_text s ko c).2, par') ∧
    delete_code (deleted_text s ko c).1 ret.
Proof.
  intros Hsb Hs Hko Hroom.
  destruct (delete_lines_spec s ko _ Hroom (set_section_len (Z.of_nat (length s)) par)
    DEL_SEARCH false 0 zero_line []) as (ret & par' & Hrun & Hcode).
  - unfold zero_line. apply length_replicate.
  - split; [|by intros _|done|done]. cbn. rewrite Hsb. by eapply name_arg_names.
  - by exists ret, par'.
Qed.
