(* ===== verification/V2Add.v ===== *)
(** * inifile v2.0.0: the changing operations against the document

    Deleting a pair, deleting a section, closing a file, and then updating and
    adding: what the calls
    return, and the document and the file on disk they leave. *)

From S2P Require Import Prelude CString DList FileSys V2Data V2Line V2Rewrite V2Api V2Rep V2Parse IniSpec V2Layout V2Refine V2Clear V2Link V2Text V2Edit.
From stdpp Require Import gmap strings.

Open Scope Z_scope.

(** ** What every operation starts with *)

Section prologue.
Context (w : world) (fl : list file_entry) (fd : nat) (name : list Z) (l : list sec_entry).
Hypothesis Hw : world_rep w fl.
Hypothesis Hf : fl !! fd = Some (Some (name, l)).
Hypothesis Hlock : FILE_LOCK fd ∉ w_held w.

Lemma locked_rep : world_rep (locked fd w) fl.
Proof using Hw. by apply world_rep_held. Qed.

(** Locking the file, reading its cell and searching the section. *)
Lemma open_section {B} sb slen s (k : option nat → M world B) :
  names sb slen s →
  (pthread_mutex_lock (FILE_LOCK fd) ;;
  file ← get_file fd;
  p_section ← find_inifile_section (file_head file) (Some sb) slen;
  k p_section) w = k (se_id <$> find_sec s l) (locked fd w).
Proof using Hw Hf Hlock.
  intros Hs. run (lock_file fd w Hlock).
  destruct (locate_file _ _ _ _ _ locked_rep Hf) as (n & Hn & _).
  run (get_file_ok _ _ _ Hn).
  run (locate_section _ _ _ _ _ locked_rep Hf n sb _ s Hn Hs). done.
Qed.

(** Reading a section's cell and searching the key. *)
Lemma open_key {B} e kb klen k (f : option nat → M world B) :
  e ∈ l → names kb klen k →
  (sec ← get_sec (se_id e);
  p_keyval ← find_keyvalue_unsect (sec_head sec) (Some kb) klen;
  f p_keyval) (locked fd w) = f (ke_id <$> find_kv k (se_kvs e)) (locked fd w).
Proof using Hw Hf.
  intros He Hk. destruct (locate_sec_cell _ _ _ _ _ locked_rep Hf e He) as (sc & Hsc & _).
  run (get_sec_ok _ _ _ Hsc). run (locate_key _ _ _ _ _ locked_rep Hf e sc kb _ k He Hsc Hk).
  done.
Qed.
End prologue.

(** The cell of the file after a step. *)
Lemma stepped_file w fl fd name l f :
  world_rep w (<[fd := Some (name, l)]> fl) → fl !! fd = Some f →
  ∃ n, w_files w !! fd = Some n ∧ pool_str (w_pool w) (file_name n) = Done name.
Proof.
  intros Hw Hf. destruct (locate_file w (<[fd := Some (name, l)]> fl) fd name l Hw)
    as (n & Hn & _ & [Hname _] & _); [|eauto].
  apply list_lookup_insert_eq. by eapply lookup_lt_Some.
Qed.

(** The error code of a failed search. *)
Definition not_found (d : doc) (s : list Z) : Z :=
  match alookup s d with
  | Some _ => INIFILE_KEYVALUE_NOFOUND
  | None => INIFILE_SECTION_NOFOUND
  end.

Lemma find_sec_alookup_is s l :
  is_Some (find_sec s l) ↔ is_Some (alookup s (doc_of l)).
Proof. rewrite <- find_sec_alookup. by rewrite fmap_is_Some. Qed.

Lemma world_eta_unlock fd w h :
  w_held w = FILE_LOCK fd :: h →
  pthread_mutex_unlock (FILE_LOCK fd) w = Done (tt, set_held h w).
Proof. apply unlock_ok. Qed.

(** ** [delete_value_ofkey] *)

(** C36: deleting a key the document does not have reports which part is
    missing and changes nothing. *)
Theorem delete_value_ofkey_missing `{Shell} w fl fd name l par s k :
  world_rep w fl → fl !! fd = Some (Some (name, l)) →
  FILE_LOCK fd ∉ w_held w → call_names par s k →
  doc_get (doc_of l) s k = None →
  delete_value_ofkey (Z.of_nat fd) (Some par) w =
  Done ((not_found (doc_of l) s, Some par), w).
Proof.
  intros Hw Hf Hlock [(sb & Hsb & Hs) (kb & Hkb & Hk)] Hnone.
  unfold delete_value_ofkey. rewrite Hsb, Hkb, (bad_fd_ok _ _ _ _ Hw Hf), Nat2Z.id.
  rewrite (open_section w fl fd name l Hw Hf Hlock _ _ s) by done.
  rewrite doc_get_find in Hnone. unfold not_found. rewrite <- find_sec_alookup.
  destruct (find_sec s l) as [e|] eqn:Ee; cbn [fmap option_fmap option_map] in *.
  - destruct (find_sec_elem _ _ _ Ee) as [He _].
    erewrite M_bind_done.
    2:{ rewrite (open_key w fl fd name l Hw Hf e _ _ k) by done.
        destruct (find_kv k (se_kvs e)); [done|reflexivity]. }
    by run (unlock_locked fd w).
  - rewrite M_bind_ret. by run (unlock_locked fd w).
Qed.

(** C8: deleting a key the document has removes it from the in-memory
    document, reports what the rewriting of the file reports, and the file
    gets the rewritten lines (or keeps its content when rewriting failed). *)
Theorem delete_value_ofkey_doc `{ShellLaws} w fl fd name l par s k c :
  world_rep w fl → fl !! fd = Some (Some (name, l)) →
  FILE_LOCK fd ∉ w_held w → call_names par s k →
  is_Some (doc_get (doc_of l) s k) → disk_ok (w_fs w) name c →
  lines_room (length s + length k) (fgets_lines INIFILE_MAX_CONTENT_LINELEN c) →
  ∃ ret par' w' l', delete_value_ofkey (Z.of_nat fd) (Some par) w = Done ((ret, Some par'), w') ∧
    world_rep w' (<[fd := Some (name, l')]> fl) ∧
    doc_of l' = doc_del_key (doc_of l) s k ∧
    w_fs w' = replaced (w_fs w) name ret (deleted_text s (Some k) c).2 ∧
    w_held w' = w_held w ∧ delete_code (deleted_text s (Some k) c).1 ret.
Proof.
  intros Hw Hf Hlock [(sb & Hsb & Hs) (kb & Hkb & Hk)] Hsome Hdisk Hroom.
  destruct (delete_body_ok par sb s (Some k) c Hsb Hs (ex_intro _ kb (conj Hkb Hk)) Hroom)
    as (ret & par' & Hbody & Hcode).
  set (out := (deleted_text s (Some k) c).2) in *. exists ret, par'.
  unfold delete_value_ofkey. rewrite Hsb, Hkb, (bad_fd_ok _ _ _ _ Hw Hf), Nat2Z.id.
  rewrite (open_section w fl fd name l Hw Hf Hlock _ _ s) by done.
  rewrite doc_get_find in Hsome.
  destruct (find_sec s l) as [e|] eqn:Ee; [|by destruct Hsome].
  destruct (find_kv k (se_kvs e)) as [x|] eqn:Ex; [|by destruct Hsome].
  apply find_sec_Some in Ee as (L1 & L2 & -> & <- & HL1).
  pose proof Ex as Hx. apply find_kv_Some in Hx as (l1 & l2 & He & <- & Hl1).
  destruct (unlink_keyval_rep (locked fd w) fl fd name L1 e L2 l1 x l2
              (locked_rep _ _ _ Hw) Hf He) as [Hrun Hrep].
  set (w1 := set_kvs _ _) in Hrun, Hrep.
  destruct (stepped_file _ _ _ _ _ _ Hrep Hf) as (n & Hn & Hname).
  exists (set_fs (replaced (w_fs w) name ret out) (set_held (w_held w) w1)); eexists.
  split; [|split; [apply world_rep_fs, world_rep_held; exact Hrep|]].
  - erewrite M_bind_done.
    2:{ cbn [fmap option_fmap option_map].
        rewrite (open_key w fl fd name _ Hw Hf e _ _ (ke_key x)) by set_solver.
        rewrite Ex. cbn [fmap option_fmap option_map].
        run Hrun. run (get_file_ok _ _ _ Hn).
        unfold rewrite_after_delete. rewrite Hsb.
        erewrite M_bind_lift by (by eapply fill_section_len_names).
        by eapply rewrite_file_ok. }
    by erewrite M_bind_done by (by apply world_eta_unlock).
  - split; [by apply doc_of_unlink|done].
Qed.

(** ** [delete_ini_section] *)

(** What removing the first section of a name does to the document. *)
Lemma doc_of_remove L1 e L2 :
  se_name e ∉ se_name <$> L1 →
  doc_of (L1 ++ L2) = doc_del_sec (doc_of (L1 ++ e :: L2)) (se_name e).
Proof.
  intros HL. unfold doc_del_sec, doc_of. rewrite !fmap_app, fmap_cons.
  unfold entry_sec at 4. rewrite alist_delete_middle; [done|].
  by rewrite <- list_fmap_compose.
Qed.

(** C14: deleting a section removes it, with all its pairs, from the
    in-memory document; the file gets the rewritten lines. *)
Theorem delete_ini_section_doc `{ShellLaws} w fl fd name l par s sb ko c :
  world_rep w fl → fl !! fd = Some (Some (name, l)) →
  FILE_LOCK fd ∉ w_held w →
  par_section par = Some sb → names sb (par_section_len par) s →
  is_Some (alookup s (doc_of l)) → disk_ok (w_fs w) name c → key_opt par ko →
  lines_room (length s + length (default [] ko)) (fgets_lines INIFILE_MAX_CONTENT_LINELEN c) →
  ∃ ret par' w' l', delete_ini_section (Z.of_nat fd) (Some par) w = Done ((ret, Some par'), w') ∧
    world_rep w' (<[fd := Some (name, l')]> fl) ∧
    doc_of l' = doc_del_sec (doc_of l) s ∧
    w_fs w' = replaced (w_fs w) name ret (deleted_text s ko c).2 ∧
    w_held w' = w_held w ∧ delete_code (deleted_text s ko c).1 ret.
Proof.
  intros Hw Hf Hlock Hsb Hs Hsome Hdisk Hko Hroom.
  destruct (delete_body_ok par sb s ko c Hsb Hs Hko Hroom) as (ret & par' & Hbody & Hcode).
  set (out := (deleted_text s ko c).2) in *. exists ret, par'.
  unfold delete_ini_section. rewrite Hsb, (bad_fd_ok _ _ _ _ Hw Hf), Nat2Z.id.
  rewrite (open_section w fl fd name l Hw Hf Hlock _ _ s) by done.
  apply find_sec_alookup_is in Hsome as [e Ee]. rewrite Ee.
  apply find_sec_Some in Ee as (L1 & L2 & -> & <- & HL1).
  destruct (unlink_section_rep (locked fd w) fl fd name (locked_rep _ _ _ Hw) L1 e L2 Hf)
    as (w1 & Hrun & Hrep & Hfs & Hheld).
  destruct (stepped_file _ _ _ _ _ _ Hrep Hf) as (n & Hn & Hname).
  exists (set_fs (replaced (w_fs w) name ret out) (set_held (w_held w) w1)), (L1 ++ L2).
  split; [|split; [by apply world_rep_fs, world_rep_held|]].
  - erewrite M_bind_done.
    2:{ cbn [fmap option_fmap option_map]. run Hrun. run (get_file_ok _ _ _ Hn).
        unfold rewrite_after_delete. rewrite Hsb.
        erewrite M_bind_lift by (by eapply fill_section_len_names).
        eapply rewrite_file_ok; [done| |done]. rewrite Hfs. exact Hdisk. }
    erewrite M_bind_done by (apply world_eta_unlock with (h := w_held w); exact Hheld).
    by rewrite Hfs.
  - split; [by apply doc_of_remove|done].
Qed.

(** Closing an open file frees its cell, its sections and their pairs;
    every other open file keeps its document. *)
Theorem destroy_ini_source_frees w fl fd name l :
  world_rep w fl → fl !! fd = Some (Some (name, l)) →
  ∃ w', destroy_ini_source (Z.of_nat fd) w = Done (tt, w') ∧
    world_rep w' (<[fd := None]> fl) ∧ w_fs w' = w_fs w ∧ w_held w' = w_held w.
Proof. intros Hw Hf. by apply (destroy_rep w fl fd name Hw l). Qed.

(** ** inifile v2.0.0: the adding and updating operations against the document

    Adding a pair or a section prints it into a line and parses the line
    back; updating a pair stores a new value.  What the calls return, and the
    document and the file on disk they leave. *)

(** ** The lines to parse back *)

(** "key=value" *)
Lemma key_value_line_ok par k v :
  str_arg (par_key par) (par_key_len par) k → par_key_len par = Z.of_nat (length k) →
  str_arg (par_value par) (par_value_len par) v → par_value_len par = Z.of_nat (length v) →
  (length k + length v + 2 ≤ INIFILE_MAX_CONTENT_LINELEN)%nat →
  ∃ line, key_value_line par = Done line ∧ c_str line = Done (pair_text k v).
Proof.
  intros Hk Hkl Hv Hvl Hlen. unfold key_value_line.
  assert (nonzero k) as Hkn by (destruct Hk as (b & _ & Hb & _); by eapply c_str_nonzero).
  assert (nonzero v) as Hvn by (destruct Hv as (b & _ & Hb & _); by eapply c_str_nonzero).
  pose proof (print_zero [] k INIFILE_MAX_CONTENT_LINELEN ltac:(lia)) as P1.
  pose proof Hk as (kb & Hkb & Hkc & _). pose proof Hv as (vb & Hvb & Hvc & _).
  rewrite Hkb, Hkl. cbn [non_null]. rewrite (bind_done (Done kb) _ kb) by done.
  unfold snprintf_at.
  erewrite bind_done; [|rewrite (snprintf_s_full k _ kb Hkc eq_refl); cbn; exact P1].
  cbn [app length] in *.
  erewrite bind_done by (apply (endchar_zero [] k); [done|lia]). cbn [length Nat.add].
  erewrite bind_done by (apply print_zero_char; lia).
  rewrite Hvb, Hvl. cbn [non_null]. rewrite (bind_done (Done vb) _ vb) by done.
  rewrite (snprintf_s_full v _ vb Hvc eq_refl). cbn [mbind outcome_bind].
  replace (length k + 1)%nat with (length (k ++ [CONTENT_EQUALITY_SIGN]))
    by (rewrite length_app; done).
  rewrite print_zero by lia. eexists. split; [done|].
  unfold pair_text. rewrite <- app_assoc. cbn [app].
  rewrite app_comm_cons, app_assoc.
  destruct (_ - _ - _ - _)%nat as [|m] eqn:E; [lia|]. cbn [replicate].
  apply c_str_app. apply Forall_app. split; [done|]. by constructor.
Qed.

(** "[section]" *)
Lemma section_line_ok par s :
  str_arg (par_section par) (par_section_len par) s →
  par_section_len par = Z.of_nat (length s) →
  (length s + 3 ≤ INIFILE_MAX_CONTENT_LINELEN)%nat →
  ∃ line, section_line par = Done line ∧ c_str line = Done (section_text s).
Proof.
  intros Hs Hsl Hlen. unfold section_line.
  assert (nonzero s) as Hsn by (destruct Hs as (b & _ & Hb & _); by eapply c_str_nonzero).
  pose proof (print_zero_char [] CONTENT_LEFT_BRACKET INIFILE_MAX_CONTENT_LINELEN
    ltac:(unfold INIFILE_MAX_CONTENT_LINELEN; lia)) as P1.
  cbn [app length] in P1. rewrite zero_line_eq. rewrite (bind_done _ _ _ P1).
  pose proof Hs as (sb & Hsb & Hsc & _). rewrite Hsb, Hsl. cbn [non_null].
  rewrite (bind_done (Done sb) _ sb) by done.
  pose proof (print_zero [CONTENT_LEFT_BRACKET] s (INIFILE_MAX_CONTENT_LINELEN - 1)
    ltac:(lia)) as P2. cbn [length] in P2.
  erewrite bind_done.
  2:{ unfold snprintf_at. rewrite (snprintf_s_full s _ sb Hsc eq_refl). exact P2. }
  erewrite bind_done by (apply (endchar_zero [CONTENT_LEFT_BRACKET] s); [done|lia]).
  rewrite app_assoc. rewrite <- length_app.
  rewrite print_zero_char by lia. eexists. split; [done|].
  destruct (_ - _ - _ - _)%nat as [|m] eqn:E; [lia|]. cbn [replicate].
  apply (c_str_app (section_text s)). constructor; [done|].
  apply Forall_app. split; [done|]. by constructor.
Qed.

(** ** Linking, run *)

Section run_link.
Context (w w1 : world) (fl : list file_entry) (fd : nat) (name : list Z).
Hypothesis Hw : world_rep w fl.

(** Lines 1299-1309, and 672-681 but for a redundant assignment. *)
Lemma link_pair_run L1 e L2 i k v room :
  fl !! fd = Some (Some (name, L1 ++ e :: L2)) →
  first_unused kv_flag (w_kvs w) = Some i → grown w w1 room → kv_stored w w1 i k v →
  ∃ sc, w_secs w1 !! se_id e = Some sc ∧
  (match sec_head sc with
   | Some h => p_key_end ← last_keyval h;
               with_kv p_key_end (kv_set_last (Some i)) ;;
               with_kv i (kv_set_pre (Some p_key_end))
   | None => with_sec (se_id e) (sec_set_head (Some i))
   end) w1 =
  Done (tt, set_kvs (linked (w_kvs w1) (ke_id <$> se_kvs e) i)
    (set_secs (alter (sec_set_head (head_or (ke_id <$> se_kvs e) (Some i))) (se_id e)
                 (w_secs w1)) w1)).
Proof using Hw.
  intros Hf Hi Hg Hst.
  destruct (unused_kv _ _ _ Hw Hi) as [Hni (c & Hc & Hcf & Hcp & Hcl)].
  destruct (link_fresh w fl fd name L1 e L2 i Hw Hf Hi) as [Hnl _].
  assert (e ∈ L1 ++ e :: L2) as He by set_solver.
  destruct (locate_sec_cell _ _ _ _ _ Hw Hf e He) as (sc & Hsc & _ & _ & [Hd _]).
  destruct (file_ids_nodup _ _ _ _ _ Hw Hf) as [_ Hnd]. apply sec_ids_nodup in Hnd.
  assert (i ∉ ke_id <$> se_kvs e) as Hie by (intros Hin; by apply Hnl, in_section_ids).
  pose proof Hst as [Hsec (kp & vp & _ & _ & Hkvs)].
  exists sc. split; [by rewrite Hsec|].
  assert (length (w_kvs w1) = length (w_kvs w)) as Hlen by (rewrite Hkvs; apply length_alter).
  assert (i < length (w_kvs w1))%nat as Hilt by (rewrite Hlen; by eapply lookup_lt_Some).
  pose proof (dseg_head _ _ _ _ _ Hd) as Hh.
  assert (dlist (kv_links (w_kvs w1)) (sec_head sc) (ke_id <$> se_kvs e)) as Hd1.
  { eapply dseg_frame; [|exact Hd]. intros j Hj. unfold kv_links, cell_links, links_of.
  rewrite Hkvs, list_lookup_alter_ne; [done|]. by intros <-. }
  destruct (sec_head sc) as [h|] eqn:Esc.
  - assert (∃ x, last (ke_id <$> se_kvs e) = Some x) as [x Hx].
  { destruct (last (ke_id <$> se_kvs e)) eqn:E; [eauto|].
    apply last_None in E. by rewrite E in Hh. }
  assert (x ∈ ke_id <$> se_kvs e) as Hxin
    by (apply last_Some in Hx as [? ->]; set_solver).
  assert (last_keyval h w1 = Done (x, w1)) as Hlast.
  { eapply last_keyval_ok; [rewrite Hlen; apply Hw|exact Hd1|done|done]. }
  run Hlast. assert (x < length (w_kvs w1))%nat by (by eapply cell_valid).
  cell_step. cell_last. unfold linked. rewrite Hx.
  rewrite (alter_same (sec_set_head _) _ _ sc); [done|by rewrite Hsec|].
  destruct sc. cbn in *. rewrite Esc. rewrite Hh. by destruct (ke_id <$> se_kvs e).
  - destruct (se_kvs e); [|done].
  erewrite with_sec_ok by (rewrite Hsec; by eapply lookup_lt_Some).
  cbn [fmap list_fmap]. unfold linked. by destruct w1.
Qed.

(** Lines 1474-1482, and 641-651. *)
Lemma link_section_run l i s room :
  fl !! fd = Some (Some (name, l)) →
  first_unused sec_flag (w_secs w) = Some i → grown w w1 room → sec_stored w w1 i s →
  ∃ fc, w_files w1 !! fd = Some fc ∧
  (match file_head fc with
   | None => with_file fd (file_set_head (Some i))
   | Some h => p_sec_end ← last_section h;
               with_sec p_sec_end (sec_set_last (Some i)) ;;
               with_sec i (sec_set_pre (Some p_sec_end))
   end) w1 =
  Done (tt, set_secs (linked (w_secs w1) (se_id <$> l) i)
    (set_files (alter (file_set_head (head_or (se_id <$> l) (Some i))) fd
                 (w_files w1)) w1)).
Proof using Hw.
  intros Hf Hi Hg Hst.
  destruct (unused_sec _ _ _ Hw Hi) as [Hni (c & Hc & _)].
  destruct (link_sec_fresh w fl fd name l i Hw Hf Hi) as [Hnl _].
  destruct (locate_file _ _ _ _ _ Hw Hf) as (n & Hn & _ & _ & [Hd _]).
  destruct (file_ids_nodup _ _ _ _ _ Hw Hf) as [Hnd _].
  pose proof Hst as [Hkv (p & _ & Hsecs)]. pose proof (gr_files _ _ _ Hg) as Hfiles.
  exists n. split; [by rewrite Hfiles|].
  assert (length (w_secs w1) = length (w_secs w)) as Hlen
  by (rewrite Hsecs; apply length_alter).
  assert (i < length (w_secs w1))%nat as Hilt by (rewrite Hlen; by eapply lookup_lt_Some).
  pose proof (dseg_head _ _ _ _ _ Hd) as Hh.
  assert (dlist (sec_links (w_secs w1)) (file_head n) (se_id <$> l)) as Hd1.
  { eapply dseg_frame; [|exact Hd]. intros j Hj. unfold sec_links, cell_links, links_of.
  rewrite Hsecs, list_lookup_alter_ne; [done|]. by intros <-. }
  destruct (file_head n) as [h|] eqn:En.
  - assert (∃ x, last (se_id <$> l) = Some x) as [x Hx].
  { destruct (last (se_id <$> l)) eqn:E; [eauto|].
    apply last_None in E. by rewrite E in Hh. }
  assert (x ∈ se_id <$> l) as Hxin by (apply last_Some in Hx as [? ->]; set_solver).
  assert (last_section h w1 = Done (x, w1)) as Hlast.
  { eapply last_section_ok; [rewrite Hlen; apply Hw|exact Hd1|done|done]. }
  run Hlast. assert (x < length (w_secs w1))%nat by (by eapply cell_valid).
  cell_step. cell_last. unfold linked. rewrite Hx.
  rewrite (alter_same (file_set_head _) _ _ n); [done|by rewrite Hfiles|].
  destruct n. cbn in *. rewrite En. rewrite Hh. by destruct (se_id <$> l).
  - destruct l; [|done].
  erewrite with_file_ok by (rewrite Hfiles; by eapply lookup_lt_Some).
  cbn [fmap list_fmap]. unfold linked. by destruct w1.
Qed.
End run_link.

(** ** [add_value_ofkey] *)

(** The parameters with every length filled in. *)
Definition filled (par : INI_PARAMETER) (s k v : list Z) : INI_PARAMETER :=
  set_section_len (Z.of_nat (length s))
    (set_value_len (Z.of_nat (length v)) (set_key_len (Z.of_nat (length k)) par)).

Lemma fill_filled par s k v :
  str_arg (par_key par) (par_key_len par) k →
  str_arg (par_value par) (par_value_len par) v →
  fill_key_len (filled par s k v) = Done (filled par s k v) ∧
  fill_value_len (filled par s k v) = Done (filled par s k v).
Proof.
  intros Hk%str_arg_filled Hv%str_arg_filled. unfold fill_key_len, fill_value_len, filled.
  cbn. rewrite (str_arg_fill _ _ _ Hk), (str_arg_fill _ _ _ Hv). done.
Qed.

(** The loops of the rewriting on the filled parameters. *)
Section bodies.
Context (par : INI_PARAMETER) (s k v c : list Z).
Hypothesis Hs : str_arg (par_section par) (par_section_len par) s.
Hypothesis Hk : str_arg (par_key par) (par_key_len par) k.
Hypothesis Hv : str_arg (par_value par) (par_value_len par) v.

Lemma update_body_ok :
  lines_room (length s + length k + length v + 3) (fgets_lines INIFILE_MAX_CONTENT_LINELEN c) →
  update_lines (filled par s k v) (false, false) (fgets_lines INIFILE_MAX_CONTENT_LINELEN c) []
  = Done (updated_text s k v c).
Proof using Hs Hk Hv.
  intros Hroom. rewrite (update_lines_spec (filled par s k v) s k v).
  - by destruct (updated_text s k v c) eqn:E; unfold updated_text in E; rewrite E.
  - by eapply str_arg_name_arg.
  - by eapply str_arg_filled.
  - done.
  - by eapply str_arg_filled.
  - done.
  - done.
Qed.

Lemma add_body_ok :
  lines_room (length s + length k + length v + 4) (fgets_lines INIFILE_MAX_CONTENT_LINELEN c) →
  add_lines (filled par s k v) false (fgets_lines INIFILE_MAX_CONTENT_LINELEN c) []
  = Done (added_text s k v c).
Proof using Hs Hk Hv.
  intros Hroom. rewrite (add_lines_spec (filled par s k v) s k v).
  - by destruct (added_text s k v c) eqn:E; unfold added_text in E; rewrite E.
  - by eapply str_arg_name_arg.
  - by eapply str_arg_filled.
  - done.
  - by eapply str_arg_filled.
  - done.
  - done.
Qed.
End bodies.

(** Room for one more line of text: a free cell, and space in the pool. *)
Definition pool_room (pm : MEMORY_POOL) (n : nat) : Prop :=
  pm_curr_len pm + (Z.of_nat n + 1) < INIFILE_SIZE_SPACE.

Section link_new.
Context (w : world) (fl : list file_entry) (fd : nat) (name : list Z).
Hypothesis Hw : world_rep w fl.
Hypothesis Hplock : POOL_LOCK ∉ w_held w.

(** Parsing "key=value" back and linking the pair. *)
Lemma link_new_keyval_rep L1 e L2 i line k v :
  fl !! fd = Some (Some (name, L1 ++ e :: L2)) → KEYVAL_ARRAY_LOCK ∉ w_held w →
  first_unused kv_flag (w_kvs w) = Some i → c_str line = Done (pair_text k v) →
  key_ok k → value_ok v → pool_room (w_pool w) (length (pair_text k v)) →
  ∃ w', link_new_keyval (se_id e) line w = Done (Z.of_nat i, w') ∧
  world_rep w' (<[fd := Some (name, L1 ++ sec_with e (se_kvs e ++ [KV i k v]) :: L2)]> fl) ∧
  w_held w' = w_held w ∧ w_fs w' = w_fs w.
Proof using Hw Hplock.
  intros Hf Hlock Hi Hline Hk Hv Hroom.
  destruct (init_line_key_val_run w line _ i (wr_pool _ _ Hw) Hplock Hlock Hi Hline Hroom)
  as (w1 & Hrun & Hg & Hst); [by apply key_text_ok_print|].
  rewrite parse_pair_print in Hrun, Hst by done.
  destruct (link_pair_run w w1 fl fd name Hw L1 e L2 i k v _ Hf Hi Hg Hst)
  as (sc & Hsc & Hlink).
  unfold link_new_keyval. run Hrun. rewrite (proj2 (Z.ltb_ge (Z.of_nat i) 0)) by lia.
  rewrite Nat2Z.id. run (get_sec_ok _ _ _ Hsc). run Hlink.
  eexists. split; [done|]. split; [|split; apply Hg].
  by eapply link_pair_rep.
Qed.

(** Parsing "[section]" back and linking the section. *)
Lemma link_new_section_rep l i line s :
  fl !! fd = Some (Some (name, l)) → SECTION_ARRAY_LOCK ∉ w_held w →
  first_unused sec_flag (w_secs w) = Some i → c_str line = Done (section_text s) →
  section_ok s → pool_room (w_pool w) (length (section_text s)) →
  ∃ w', link_new_section fd line w = Done (Z.of_nat i, w') ∧
  world_rep w' (<[fd := Some (name, l ++ [SEC i s []])]> fl) ∧
  w_held w' = w_held w ∧ w_fs w' = w_fs w.
Proof using Hw Hplock.
  intros Hf Hlock Hi Hline Hs Hroom.
  destruct (init_line_section_run w line _ i (wr_pool _ _ Hw) Hplock Hlock Hi Hline Hroom)
  as (w1 & Hrun & Hg & Hst).
  rewrite parse_section_print in Hrun, Hst by done.
  destruct (link_section_run w w1 fl fd name Hw l i s _ Hf Hi Hg Hst) as (fc & Hfc & Hlink).
  unfold link_new_section. run Hrun. rewrite (proj2 (Z.ltb_ge (Z.of_nat i) 0)) by lia.
  rewrite Nat2Z.id. run (get_file_ok _ _ _ Hfc). run Hlink.
  eexists. split; [done|]. split; [|split; apply Hg].
  by eapply link_section_rep.
Qed.
End link_new.

Lemma locked_other m fd w : m ≠ FILE_LOCK fd → m ∉ w_held w → m ∉ w_held (locked fd w).
Proof. intros Hm Hn. cbn. by apply not_elem_of_cons. Qed.

(** C7: adding a key the section does not have, with a free cell and room in
    the pool, appends the pair to the section of the in-memory document; the
    file gets the rewritten lines. *)
Theorem add_value_ofkey_doc `{ShellLaws} w fl fd name l par s k v c i :
  world_rep w fl → fl !! fd = Some (Some (name, l)) → w_held w = [] →
  str_arg (par_section par) (par_section_len par) s →
  str_arg (par_key par) (par_key_len par) k →
  str_arg (par_value par) (par_value_len par) v →
  key_ok k → value_ok v →
  (length k + length v + 2 ≤ INIFILE_MAX_CONTENT_LINELEN)%nat →
  is_Some (alookup s (doc_of l)) → doc_get (doc_of l) s k = None →
  first_unused kv_flag (w_kvs w) = Some i →
  pool_room (w_pool w) (length (pair_text k v)) → disk_ok (w_fs w) name c →
  lines_room (length s + length k + length v + 4) (fgets_lines INIFILE_MAX_CONTENT_LINELEN c) →
  let '(ret, out) := added_text s k v c in
  ∃ w' l', add_value_ofkey (Z.of_nat fd) (Some par) w =
      Done ((ret, Some (filled par s k v)), w') ∧
    world_rep w' (<[fd := Some (name, l')]> fl) ∧
    doc_of l' = doc_add_key (doc_of l) s k v ∧
    w_fs w' = replaced (w_fs w) name ret out ∧ w_held w' = w_held w.
Proof.
  intros Hw Hf Hheld Hs Hk Hv Hkok Hvok Hlen Hsome Hnone Hi Hroom Hdisk Hlines.
  pose proof (add_body_ok par s k v c Hs Hk Hv Hlines) as Hbody.
  destruct (added_text s k v c) as [ret out].
  destruct (str_arg_names _ _ _ Hs) as (sb & Hsb & Hsn & _).
  destruct (str_arg_names _ _ _ Hk) as (kb & Hkb & Hkn & _).
  destruct (str_arg_names _ _ _ Hv) as (vb & Hvb & _ & _).
  assert (FILE_LOCK fd ∉ w_held w) as Hlock by (rewrite Hheld; apply not_elem_of_nil).
  unfold add_value_ofkey. rewrite Hsb, Hkb, Hvb, (bad_fd_ok _ _ _ _ Hw Hf), Nat2Z.id.
  rewrite (open_section w fl fd name l Hw Hf Hlock _ _ s) by done.
  apply find_sec_alookup_is in Hsome as [e Ee]. rewrite doc_get_find, Ee in Hnone.
  apply fmap_None in Hnone. rewrite Ee. cbn [fmap option_fmap option_map].
  apply find_sec_Some in Ee as (L1 & L2 & -> & <- & HL1).
  set (par2 := set_value_len (Z.of_nat (length v)) (set_key_len (Z.of_nat (length k)) par)).
  assert (fill_key_len par = Done (set_key_len (Z.of_nat (length k)) par)) as Hfk
    by (unfold fill_key_len; by rewrite (str_arg_fill _ _ _ Hk)).
  assert (fill_value_len (set_key_len (Z.of_nat (length k)) par) = Done par2) as Hfv
    by (unfold fill_value_len; cbn [par_value par_value_len set_key_len];
        by rewrite (str_arg_fill _ _ _ Hv)).
  destruct (key_value_line_ok par2 k v) as (line & Hline & Hlstr); try done;
    [by eapply str_arg_filled|by eapply str_arg_filled|].
  destruct (link_new_keyval_rep (locked fd w) fl fd name (locked_rep _ _ _ Hw)
    ltac:(apply locked_other; [done|rewrite Hheld; apply not_elem_of_nil]) L1 e L2 i line k v)
    as (w1 & Hrun & Hrep & Hh & Hfs); try done.
  { apply locked_other; [done|rewrite Hheld; apply not_elem_of_nil]. }
  destruct (stepped_file _ _ _ _ _ _ Hrep Hf) as (n & Hn & Hname).
  exists (set_fs (replaced (w_fs w) name ret out) (set_held (w_held w) w1)).
  eexists. split; [|split; [apply world_rep_fs, world_rep_held; exact Hrep|]].
  - erewrite M_bind_done.
    2:{ rewrite (open_key w fl fd name _ Hw Hf e _ _ k) by set_solver.
        rewrite Hnone. cbn [fmap option_fmap option_map].
        rewrite (M_bind_lift _ _ _ _ Hfk), (M_bind_lift _ _ _ _ Hfv),
          (M_bind_lift _ _ _ _ Hline).
        run Hrun. rewrite (proj2 (Z.ltb_ge (Z.of_nat i) 0)) by lia.
        run (get_file_ok _ _ _ Hn). unfold rewrite_after_add.
        cbn [par_section par2 set_value_len set_key_len]. rewrite Hsb.
        erewrite M_bind_lift by (unfold fill_section_len;
          cbn [par_section par_section_len par2 set_value_len set_key_len];
          rewrite (str_arg_fill _ _ _ Hs); reflexivity).
        eapply rewrite_file_ok; [done|rewrite Hfs; exact Hdisk|].
        cbn [par_key par2 set_section_len set_value_len set_key_len]. rewrite Hkb.
        destruct (fill_filled par (se_name e) k v Hk Hv) as [F1 F2].
        change (set_section_len _ par2) with (filled par (se_name e) k v).
        rewrite (bind_done _ _ _ F1), (bind_done _ _ _ F2).
        rewrite Hbody. reflexivity. }
    erewrite M_bind_done by (apply world_eta_unlock with (h := w_held w); exact Hh).
    by rewrite Hfs.
  - split; [by apply doc_of_link_pair|done].
Qed.

(** ** [add_ini_section] *)

(** Adding a section the file does not have, with a free cell and room in
    the pool, appends an empty section to the in-memory document; the new
    header goes in front of the file's lines. *)
Theorem add_ini_section_doc `{ShellLaws} w fl fd name l par s c i :
  world_rep w fl → fl !! fd = Some (Some (name, l)) → w_held w = [] →
  str_arg (par_section par) (par_section_len par) s → par_key par = None →
  section_ok s → (length s + 4 < INIFILE_MAX_CONTENT_LINELEN)%nat →
  alookup s (doc_of l) = None →
  first_unused sec_flag (w_secs w) = Some i →
  pool_room (w_pool w) (length (section_text s)) → disk_ok (w_fs w) name c →
  lines_room 0 (fgets_lines INIFILE_MAX_CONTENT_LINELEN c) →
  ∃ w' l', add_ini_section (Z.of_nat fd) (Some par) w =
      Done ((0, Some (set_section_len (Z.of_nat (length s)) par)), w') ∧
    world_rep w' (<[fd := Some (name, l')]> fl) ∧
    doc_of l' = doc_add_sec (doc_of l) s ∧
    w_fs w' = replaced (w_fs w) name 0 (new_section s ++ c) ∧ w_held w' = w_held w.
Proof.
  intros Hw Hf Hheld Hs Hkey Hsok Hlen Hnone Hi Hroom Hdisk Hlines.
  pose proof (add_section_line_spec (set_section_len (Z.of_nat (length s)) par) s
    (str_arg_filled _ _ _ Hs) eq_refl Hlen) as Hhdr.
  pose proof (add_lines_done (set_section_len (Z.of_nat (length s)) par) _ (new_section s) _
    Hlines) as Hbody.
  rewrite fgets_lines_concat in Hbody by (unfold INIFILE_MAX_CONTENT_LINELEN; lia).
  destruct (str_arg_names _ _ _ Hs) as (sb & Hsb & Hsn & _).
  assert (FILE_LOCK fd ∉ w_held w) as Hlock by (rewrite Hheld; apply not_elem_of_nil).
  unfold add_ini_section. rewrite Hsb, (bad_fd_ok _ _ _ _ Hw Hf), Nat2Z.id.
  rewrite (open_section w fl fd name l Hw Hf Hlock _ _ s) by done.
  rewrite <- find_sec_alookup in Hnone. apply fmap_None in Hnone. rewrite Hnone.
  cbn [fmap option_fmap option_map].
  set (par2 := set_section_len (Z.of_nat (length s)) par) in *.
  assert (fill_section_len par = Done par2) as Hfs2
    by (unfold fill_section_len; by rewrite (str_arg_fill _ _ _ Hs)).
  destruct (section_line_ok par2 s) as (line & Hline & Hlstr); try done;
    [by eapply str_arg_filled|lia|].
  destruct (link_new_section_rep (locked fd w) fl fd name (locked_rep _ _ _ Hw)
    ltac:(apply locked_other; [done|rewrite Hheld; apply not_elem_of_nil]) l i line s)
    as (w1 & Hrun & Hrep & Hh & Hfs); try done.
  { apply locked_other; [done|rewrite Hheld; apply not_elem_of_nil]. }
  destruct (stepped_file _ _ _ _ _ _ Hrep Hf) as (n & Hn & Hname).
  exists (set_fs (replaced (w_fs w) name 0 (new_section s ++ c)) (set_held (w_held w) w1)).
  eexists. split; [|split; [apply world_rep_fs, world_rep_held; exact Hrep|]].
  - erewrite M_bind_done.
    2:{ rewrite (M_bind_lift _ _ _ _ Hfs2), (M_bind_lift _ _ _ _ Hline).
        run Hrun. rewrite (proj2 (Z.ltb_ge (Z.of_nat i) 0)) by lia.
        run (get_file_ok _ _ _ Hn). unfold rewrite_after_add.
        cbn [par_section par2 set_section_len]. rewrite Hsb.
        erewrite M_bind_lift by (unfold fill_section_len;
          cbn [par_section par_section_len par2 set_section_len];
          rewrite (str_arg_fill _ _ _ (str_arg_filled _ _ _ Hs)); reflexivity).
        change (set_section_len _ par2) with par2.
        eapply rewrite_file_ok; [done|rewrite Hfs; exact Hdisk|].
        cbn [par_key par2 set_section_len]. rewrite Hkey.
        rewrite (bind_done _ _ _ Hhdr), Hbody. reflexivity. }
    erewrite M_bind_done by (apply world_eta_unlock with (h := w_held w); exact Hh).
    by rewrite Hfs.
  - split; [by apply doc_of_link_section|done].
Qed.

(** ** [update_value_ofkey] *)

Section new_value.
Context (w : world) (fl : list file_entry) (fd : nat) (name : list Z).
Context (L1 : list sec_entry) (e : sec_entry) (L2 : list sec_entry).
Context (l1 : list kv_entry) (x : kv_entry) (l2 : list kv_entry).
Context (p : pool_ptr) (pm : MEMORY_POOL) (v : list Z).
Hypothesis Hw : world_rep w fl.
Hypothesis Hf : fl !! fd = Some (Some (name, L1 ++ e :: L2)).
Hypothesis He : se_kvs e = l1 ++ x :: l2.
Hypothesis Hok : pool_ok pm.
Hypothesis Hext : pool_ext (w_pool w) pm.
Hypothesis Hv : str_at pm p v.

Let x' := KV (ke_id x) (ke_key x) v.
Let kvs' := alter (kv_set_value p) (ke_id x) (w_kvs w).

(** The cell's links and those of all others are as before. *)
Lemma new_value_rep :
  world_rep (set_kvs kvs' (set_pool pm w))
  (<[fd := Some (name, L1 ++ sec_with e (l1 ++ x' :: l2) :: L2)]> fl).
Proof using Hw Hf He Hok Hext Hv.
  destruct (locate_file _ _ _ _ _ Hw Hf) as (n & Hn & Hflag & Hname & Hd & Hl).
  destruct (world_rep_ids _ _ _ _ Hw Hf) as (Hsi & Hki & Hfs & Hfk). cbn in *.
  destruct (file_ids_nodup _ _ _ _ _ Hw Hf) as [_ Hknd].
  pose proof (kv_ids_disjoint L1 e L2 Hknd) as Hdisj.
  pose proof (sec_ids_nodup _ _ _ Hknd) as Hke.
  assert (ke_id x ∈ ke_id <$> se_kvs e) as Hxe
  by (rewrite He; apply list_elem_of_fmap_2; set_solver).
  assert (ke_id <$> l1 ++ x' :: l2 = ke_id <$> se_kvs e) as Hids
  by (rewrite He, !fmap_app; done).
  assert (∀ j, j ≠ ke_id x → kvs' !! j = w_kvs w !! j) as Hsame
  by (intros j Hj; by apply list_lookup_alter_ne, not_eq_sym).
  assert (∀ O, ke_id <$> (((L1 ++ sec_with e (l1 ++ x' :: l2) :: L2) ++ O) ≫= se_kvs) ≡ₚ
             ke_id <$> (((L1 ++ e :: L2) ++ O) ≫= se_kvs)) as Hperm
  by (intros O; by rewrite !kv_ids_middle; cbn [se_kvs sec_with]; rewrite Hids).
  eapply world_rep_step; [done|by eapply lookup_lt_Some|]. split; cbn; try done.
  - by unfold kvs'; rewrite length_alter.
  - exists n. split; [done|]. split; [done|]. split; [by apply Hext|]. split.
  + by rewrite sec_with_ids.
  + rewrite Forall_app, Forall_cons in Hl |- *. destruct Hl as (Hl1 & Hse & Hl2).
    assert (∀ y, y ∈ L1 ++ L2 → sec_rep (w_pool w) (w_kvs w) (w_secs w) y →
              sec_rep pm kvs' (w_secs w) y) as Hother.
    { intros y Hy. apply sec_rep_frame; [done| |done].
      intros j Hj. apply Hsame. intros ->. by apply (Hdisj y Hy (ke_id x)). }
    split; [|split].
    * rewrite Forall_forall in Hl1 |- *. intros y Hy. apply Hother; [set_solver|auto].
    * destruct Hse as (sc & Hsc & Hscf & Hnm & Hkd & Hkl). exists sc.
      split; [done|]. split; [done|]. split; [by apply Hext|]. cbn. split.
      -- rewrite Hids. eapply dseg_frame; [|exact Hkd]. intros j _.
         unfold kv_links, kvs'. by apply cell_links_alter_data.
      -- rewrite He, Forall_app, Forall_cons in Hkl. rewrite Forall_app, Forall_cons.
         destruct Hkl as (K1 & (m & Hm & Hmf & Hmk & _) & K2).
         rewrite He in Hke. destruct (ids_middle _ _ _ _ Hke) as (N1 & N2 & _).
         split; [|split].
         ++ rewrite Forall_forall in K1 |- *. intros y Hy.
            eapply kv_rep_frame; [done| |by apply K1]. apply Hsame. intros E.
            apply N1. rewrite <- E. by apply list_elem_of_fmap_2.
         ++ exists (kv_set_value p m). unfold kvs'. cbn [ke_id x'].
            rewrite list_lookup_alter_eq, Hm. split; [done|]. split; [done|].
            split; [by apply Hext|done].
         ++ rewrite Forall_forall in K2 |- *. intros y Hy.
            eapply kv_rep_frame; [done| |by apply K2]. apply Hsame. intros E.
            apply N2. rewrite <- E. by apply list_elem_of_fmap_2.
    * rewrite Forall_forall in Hl2 |- *. intros y Hy. apply Hother; [set_solver|auto].
  - intros j Hj. apply Hsame. intros ->.
  rewrite kv_ids_middle in Hki. apply NoDup_app in Hki as (_ & Hki & _).
  apply (Hki (ke_id x) Hxe). rewrite !bind_app, !fmap_app, !elem_of_app. auto.
  - rewrite fmap_app, sec_with_ids, <- fmap_app. done.
  - by rewrite Hperm.
  - intros j m Hm Hj. rewrite fmap_app, sec_with_ids, <- fmap_app in Hj. by eapply Hfs.
  - intros j m Hm Hj. rewrite Hperm in Hj. rewrite Hsame in Hm; [by eapply Hfk|].
  intros ->. apply Hj. rewrite kv_ids_middle. apply elem_of_app. by left.
Qed.
End new_value.

Lemma doc_of_new_value L1 e L2 l1 x l2 v :
  se_kvs e = l1 ++ x :: l2 → se_name e ∉ se_name <$> L1 → ke_key x ∉ ke_key <$> l1 →
  doc_of (L1 ++ sec_with e (l1 ++ KV (ke_id x) (ke_key x) v :: l2) :: L2) =
  doc_set (doc_of (L1 ++ e :: L2)) (se_name e) (ke_key x) v.
Proof.
  intros He HL Hl. unfold doc_set, doc_of. rewrite !fmap_app, !fmap_cons.
  unfold entry_sec at 2 5. cbn. rewrite alist_alter_middle.
  - rewrite He, !fmap_app, !fmap_cons. unfold entry_pair at 5.
    rewrite alist_alter_middle; [done|]. by rewrite <- list_fmap_compose.
  - by rewrite <- list_fmap_compose.
Qed.

(** C3: updating a key the document has, with room in the pool, gives it the
    new value in the in-memory document and leaves every other key alone;
    the file gets the rewritten lines. *)
Theorem update_value_ofkey_doc `{ShellLaws} w fl fd name l par s k v c :
  world_rep w fl → fl !! fd = Some (Some (name, l)) → w_held w = [] →
  str_arg (par_section par) (par_section_len par) s →
  str_arg (par_key par) (par_key_len par) k →
  str_arg (par_value par) (par_value_len par) v →
  is_Some (doc_get (doc_of l) s k) →
  pool_room (w_pool w) (length v) → disk_ok (w_fs w) name c →
  lines_room (length s + length k + length v + 3) (fgets_lines INIFILE_MAX_CONTENT_LINELEN c) →
  let '(ret, out) := updated_text s k v c in
  ∃ w' l', update_value_ofkey (Z.of_nat fd) (Some par) w =
      Done ((ret, Some (filled par s k v)), w') ∧
    world_rep w' (<[fd := Some (name, l')]> fl) ∧
    doc_of l' = doc_set (doc_of l) s k v ∧
    w_fs w' = replaced (w_fs w) name ret out ∧ w_held w' = w_held w.
Proof.
  intros Hw Hf Hheld Hs Hk Hv Hsome Hroom Hdisk Hlines.
  pose proof (update_body_ok par s k v c Hs Hk Hv Hlines) as Hbody.
  destruct (updated_text s k v c) as [ret out].
  destruct (str_arg_names _ _ _ Hs) as (sb & Hsb & Hsn & _).
  destruct (str_arg_names _ _ _ Hk) as (kb & Hkb & Hkn & _).
  destruct (str_arg_names _ _ _ Hv) as (vb & Hvb & Hvn & Hvc).
  assert (FILE_LOCK fd ∉ w_held w) as Hlock by (rewrite Hheld; apply not_elem_of_nil).
  unfold update_value_ofkey. rewrite Hsb, Hkb, Hvb, (bad_fd_ok _ _ _ _ Hw Hf), Nat2Z.id.
  rewrite (open_section w fl fd name l Hw Hf Hlock _ _ s) by done.
  rewrite doc_get_find in Hsome.
  destruct (find_sec s l) as [e|] eqn:Ee; [|by destruct Hsome].
  destruct (find_kv k (se_kvs e)) as [x|] eqn:Ex; [|by destruct Hsome].
  apply find_sec_Some in Ee as (L1 & L2 & -> & <- & HL1).
  pose proof Ex as Hx. apply find_kv_Some in Hx as (l1 & l2 & He & <- & Hl1).
  destruct (names_len _ _ _ Hvn) as (_ & Hvnz & Hmem).
  assert (dest_valid (DValue (ke_id x)) (locked fd w)) as Hvalid.
  { destruct (locate_sec_cell _ _ _ _ _ Hw Hf e) as (_ & _ & _ & _ & _ & Hkl); [set_solver|].
    rewrite Forall_forall in Hkl. destruct (Hkl x) as (m & Hm & _); [rewrite He; set_solver|].
    by eapply lookup_lt_Some. }
  destruct (store_ok (DValue (ke_id x)) vb (Z.of_nat (length v)) v (locked fd w))
    as (p & pm & Hst & Hpok & Hext & Hat & _); try done; [apply Hw| |].
  { apply locked_other; [done|rewrite Hheld; apply not_elem_of_nil]. }
  pose proof (new_value_rep (locked fd w) fl fd name L1 e L2 l1 x l2 p pm v
    (locked_rep _ _ _ Hw) Hf He Hpok Hext Hat) as Hrep.
  set (w1 := set_kvs _ _) in Hrep.
  destruct (stepped_file _ _ _ _ _ _ Hrep Hf) as (n & Hn & Hname).
  exists (set_fs (replaced (w_fs w) name ret out) (set_held (w_held w) w1)).
  eexists. split; [|split; [apply world_rep_fs, world_rep_held; exact Hrep|]].
  - erewrite M_bind_done.
    2:{ cbn [fmap option_fmap option_map].
        rewrite (open_key w fl fd name _ Hw Hf e _ _ (ke_key x)) by set_solver.
        rewrite Ex. cbn [fmap option_fmap option_map].
        erewrite M_bind_lift by (unfold fill_value_len; rewrite (str_arg_fill _ _ _ Hv);
          reflexivity).
        cbn [par_value_len set_value_len]. run Hst. cbn [Z.ltb Z.compare].
        change (dest_set (DValue (ke_id x)) p (set_pool pm (locked fd w))) with w1.
        run (get_file_ok _ _ _ Hn). unfold rewrite_after_update.
        cbn [par_section par_key par_value set_value_len]. rewrite Hsb, Hkb, Hvb.
        erewrite M_bind_lift by (unfold fill_section_len;
          cbn [par_section par_section_len set_value_len];
          rewrite (str_arg_fill _ _ _ Hs); reflexivity).
        erewrite M_bind_lift by (unfold fill_key_len;
          cbn [par_key par_key_len set_value_len set_section_len];
          rewrite (str_arg_fill _ _ _ Hk); reflexivity).
        change (set_key_len _ _) with (filled par (se_name e) (ke_key x) v).
        destruct (fill_filled par (se_name e) (ke_key x) v Hk Hv) as [_ F2].
        erewrite M_bind_lift by exact F2.
        eapply rewrite_file_ok; [done|exact Hdisk|]. rewrite Hbody. reflexivity. }
    by erewrite M_bind_done by (apply world_eta_unlock with (h := w_held w); reflexivity).
  - split; [by apply doc_of_new_value|done].
Qed.
