(* ===== verification/V2Read.v ===== *)
(** * inifile v2.0.0: reading a file into the document

    [line_kind] is the classification of a line's text and [doc_line] what
    the line adds to a document; [judge_ini_file_linetype] computes the first
    and [init_every_line_inifile] performs the second, so that reading a file
    builds the document of its lines ([parse_doc]) or reports the line that
    is not well formed. *)

From S2P Require Import Prelude CString DList FileSys V2Data V2Line V2Rewrite V2Api V2Rep V2Parse IniSpec V2Layout V2Refine V2Clear V2Link V2Text V2Edit V2Add.
From stdpp Require Import gmap strings.

Open Scope Z_scope.

(** ** What a line adds to the document *)

(** The pair goes to the last section. *)
Definition doc_add_last (d : doc) (k v : list Z) : doc :=
  alter (λ x : list Z * pairs, (x.1, x.2 ++ [(k, v)])) (pred (length d)) d.

Definition doc_line (d : doc) (t : list Z) : option doc :=
  match line_kind t with
  | LINE_NOTE | LINE_BLANK => Some d
  | LINE_ERROR => None
  | LINE_SECTION =>
      s ← parse_section t;
      if decide (s ∈ d.*1) then None else Some (doc_add_sec d s)
  | LINE_KEYVALUE =>
      x ← last d;
      kv ← parse_pair t;
      if decide (kv.1 ∈ (x.2).*1) then None else Some (doc_add_last d kv.1 kv.2)
  end.

(** The document of the lines, [None] at the first line that is not well
    formed. *)
Fixpoint parse_doc (d : doc) (lines : list (list Z)) : option doc :=
  match lines with
  | [] => Some d
  | t :: lines' => d' ← doc_line d t; parse_doc d' lines'
  end.

Lemma doc_add_last_snoc d s kvs k v :
  doc_add_last (d ++ [(s, kvs)]) k v = d ++ [(s, kvs ++ [(k, v)])].
Proof.
  unfold doc_add_last. rewrite length_app. cbn [length].
  replace (pred (length d + 1)) with (length d + 0)%nat by lia.
  exact (list.alter_app_r (λ x : list Z * pairs, (x.1, x.2 ++ [(k, v)])) d [(s, kvs)] 0).
Qed.

(** ** Cells and strings are there *)

Lemma free_kv_exists w fl :
  world_rep w fl → (length (all_kv_ids fl) < INIFILE_KEYVALUE_ARRAY_LEN)%nat →
  ∃ i, first_unused kv_flag (w_kvs w) = Some i.
Proof.
  intros Hw Hlt. destruct (first_unused kv_flag (w_kvs w)) as [i|] eqn:E; [eauto|].
  exfalso. rewrite <- (wr_nkvs _ _ Hw) in Hlt.
  assert (length (seq 0 (length (w_kvs w))) ≤ length (all_kv_ids fl))%nat as Hle.
  { apply submseteq_length, NoDup_submseteq; [apply NoDup_seq|].
    intros i Hi%elem_of_seq. destruct (w_kvs w !! i) as [n|] eqn:En;
      [|apply lookup_ge_None in En; lia].
    destruct (decide (i ∈ all_kv_ids fl)) as [|Hni]; [done|].
    destruct (wr_free_kvs _ _ Hw i n En Hni) as [Hf _].
    by destruct (first_unused_None _ _ _ _ E En). }
  rewrite length_seq in Hle. lia.
Qed.

Lemma free_sec_exists w fl :
  world_rep w fl → (length (all_sec_ids fl) < MAX_INIFILE_SECTION_NUM)%nat →
  ∃ i, first_unused sec_flag (w_secs w) = Some i.
Proof.
  intros Hw Hlt. destruct (first_unused sec_flag (w_secs w)) as [i|] eqn:E; [eauto|].
  exfalso. rewrite <- (wr_nsecs _ _ Hw) in Hlt.
  assert (length (seq 0 (length (w_secs w))) ≤ length (all_sec_ids fl))%nat as Hle.
  { apply submseteq_length, NoDup_submseteq; [apply NoDup_seq|].
    intros i Hi%elem_of_seq. destruct (w_secs w !! i) as [n|] eqn:En;
      [|apply lookup_ge_None in En; lia].
    destruct (decide (i ∈ all_sec_ids fl)) as [|Hni]; [done|].
    destruct (wr_free_secs _ _ Hw i n En Hni) as [Hf _].
    by destruct (first_unused_None _ _ _ _ E En). }
  rewrite length_seq in Hle. lia.
Qed.

(** A pool pointer as the name of a search. *)
Lemma str_at_names pm p s :
  str_at pm p s → ∃ b, pool_bytes pm p = Some b ∧ names b 0 s.
Proof. intros H. destruct (str_at_bytes _ _ _ H) as (b & Hb & Hc). by exists b. Qed.

(** ** Section lines *)

(** The searched lists are as before the line. *)
Lemma secl_rep_stored w w1 fl fd name l n room i s :
  world_rep w fl → fl !! fd = Some (Some (name, l)) →
  w_files w !! fd = Some n → first_unused sec_flag (w_secs w) = Some i →
  grown w w1 room → sec_stored w w1 i s →
  secl_rep (w_pool w1) (w_kvs w1) (w_secs w1) (file_head n) l.
Proof.
  intros Hw Hf Hn Hi Hg [Hk (p & _ & Hs)].
  destruct (locate_file _ _ _ _ _ Hw Hf) as (n' & Hn' & _ & _ & Hl).
  assert (n' = n) as -> by congruence.
  destruct (link_sec_fresh w fl fd name l i Hw Hf Hi) as [Hni _].
  eapply secl_rep_frame; [apply Hg| | |exact Hl].
  - intros j _. by rewrite Hk.
  - intros j Hj. rewrite Hs. apply list_lookup_alter_ne. by intros <-.
Qed.

Definition curr (w : world) : Z := pm_curr_len (w_pool w).

(** What a step of the loop leaves besides the document. *)
Record line_step (w w' : world) (n : Z) : Prop := {
  ls_held : w_held w' = w_held w;
  ls_fs : w_fs w' = w_fs w;
  ls_room : curr w' <= curr w + n;
}.

Lemma line_step_grown w w1 w' n :
  grown w w1 n → w_pool w' = w_pool w1 → w_held w' = w_held w1 → w_fs w' = w_fs w1 →
  line_step w w' n.
Proof.
  intros Hg Hp Hh Hf. split.
  - rewrite Hh. apply Hg.
  - rewrite Hf. apply Hg.
  - unfold curr. rewrite Hp. apply Hg.
Qed.

Lemma find_sec_None s l : find_sec s l = None ↔ s ∉ (doc_of l).*1.
Proof. rewrite <- alist_None, <- find_sec_alookup. by rewrite fmap_None. Qed.

Lemma find_kv_None k l : find_kv k l = None ↔ k ∉ (entry_pair <$> l).*1.
Proof. rewrite <- alist_None, <- find_kv_alookup. by rewrite fmap_None. Qed.

Section one_line.
Context (w : world) (fl : list file_entry) (fd : nat) (name : list Z) (l : list sec_entry).
Context (line t : list Z).
Hypothesis Hw : world_rep w fl.
Hypothesis Hf : fl !! fd = Some (Some (name, l)).
Hypothesis Hplock : POOL_LOCK ∉ w_held w.
Hypothesis Hslock : SECTION_ARRAY_LOCK ∉ w_held w.
Hypothesis Hklock : KEYVAL_ARRAY_LOCK ∉ w_held w.
Hypothesis Ht : c_str line = Done t.
Hypothesis Hroom : pool_room (w_pool w) (length t).

Lemma init_every_section_run i :
  first_unused sec_flag (w_secs w) = Some i →
  ∃ w', line_step w w' (Z.of_nat (length t) + 1) ∧
  match parse_section t with
  | Some s =>
      if decide (s ∈ (doc_of l).*1)
      then init_every_section fd line w = Done (INIFILE_FORMAT_ERROR, w') ∧ world_rep w' fl
      else init_every_section fd line w = Done (Z.of_nat i, w') ∧
           world_rep w' (<[fd := Some (name, l ++ [SEC i s []])]> fl)
  | None => init_every_section fd line w = Done (INIFILE_FORMAT_ERROR, w') ∧ world_rep w' fl
  end.
Proof using Hw Hf Hplock Hslock Hklock Ht Hroom.
  intros Hi. destruct (locate_file _ _ _ _ _ Hw Hf) as (n & Hn & _ & _ & Hsl).
  destruct (init_line_section_run w line t i (wr_pool _ _ Hw) Hplock Hslock Hi Ht Hroom)
  as (w1 & Hrun & Hg & Hst).
  unfold init_every_section. rewrite (M_bind_done _ _ _ _ _ (get_file_ok _ _ _ Hn)).
  rewrite (M_bind_done _ _ _ _ _ Hrun).
  destruct (parse_section t) as [s|]; cycle 1.
  { exists w1. split; [by eapply line_step_grown|]. split; [done|].
  by eapply world_rep_rejected_sec. }
  rewrite (proj2 (Z.leb_le 0 (Z.of_nat i))) by lia. rewrite Nat2Z.id.
  destruct (link_new_sec w w1 fl i s Hw Hi Hst) as (c & Hc & Hcp & Hcl & Hch & Hcf & Hcs).
  rewrite (M_bind_done _ _ _ _ _ (get_sec_ok _ _ _ Hc)), M_bind_gets.
  destruct (str_at_names _ _ _ Hcs) as (b & -> & Hb).
  pose proof (secl_rep_stored w w1 fl fd name l n _ i s Hw Hf Hn Hi Hg Hst) as Hsl1.
  destruct (file_ids_nodup _ _ _ _ _ Hw Hf) as [Hnd _].
  pose proof (find_section_spec w1 b 0 s Hb _ _ Hsl1
  (secl_rep_length _ _ _ _ Hw Hsl Hnd)) as Hfind.
  rewrite (M_bind_done _ _ _ _ _ Hfind).
  destruct (decide (s ∈ (doc_of l).*1)) as [Hin|Hin].
  - destruct (find_sec s l) as [e|] eqn:Ee; [|by apply find_sec_None in Ee].
  cbn [fmap option_fmap option_map].
  erewrite M_bind_done by (apply with_sec_ok; by eapply lookup_lt_Some).
  eexists. split; [|split; [done|]].
  { by eapply line_step_grown. }
  eapply (world_rep_rejected_sec w _ fl (Z.of_nat (length t) + 1)); [done| | |exact Hi].
  + split; apply Hg.
  + destruct Hst as [Hk (p & _ & Hs)]. split; [done|]. cbn. rewrite Hs, alter_twice.
    eexists. split; [done|]. intros m Hm. cbn. by rewrite Hm.
  - apply find_sec_None in Hin. rewrite Hin. cbn [fmap option_fmap option_map].
  destruct (link_section_run w w1 fl fd name Hw l i s _ Hf Hi Hg Hst) as (fc & Hfc & Hlink).
  assert (fc = n) as -> by (rewrite (gr_files _ _ _ Hg) in Hfc; congruence).
  pose proof (link_section_rep w w1 fl fd name l i s _ Hw Hf Hi Hg Hst) as Hrep.
  set (w2 := set_secs _ _) in Hlink, Hrep.
  exists w2. split; [by eapply line_step_grown|]. split; [|done].
  destruct (file_head n) as [h|]; [|by rewrite (M_bind_done _ _ _ _ _ Hlink)].
  assert (with_sec i (sec_set_last None) w2 = Done (tt, w2)) as Hlast.
  { destruct (locate_sec_cell _ _ _ _ _ Hrep
      (list_lookup_insert_eq _ _ _ (lookup_lt_Some _ _ _ Hf)) (SEC i s []))
      as (m & Hm & _); [apply elem_of_app; right; by left|]. cbn in Hm.
    rewrite with_sec_ok by (by eapply lookup_lt_Some).
    rewrite (alter_same _ _ _ m); [by destruct w2|done|].
    destruct (locate_file _ _ _ _ _ Hrep
      (list_lookup_insert_eq _ _ _ (lookup_lt_Some _ _ _ Hf))) as (? & _ & _ & _ & Hd & _).
    rewrite fmap_app in Hd. destruct (cell_at _ _ _ _ _ _ Hd) as (m' & Hm' & _ & Hml).
    cbn in Hm', Hml. assert (m' = m) as -> by congruence. destruct m. cbn in *. by subst. }
  by rewrite (M_bind_done _ _ _ _ _ (M_bind_tail _ _ _ _ _ _ _ Hlink Hlast)).
Qed.

Lemma init_every_keyvalue_none :
  l = [] → init_every_keyvalue fd line w = Done (INIFILE_FORMAT_ERROR, w).
Proof using Hw Hf.
  intros ->. destruct (locate_file _ _ _ _ _ Hw Hf) as (n & Hn & _ & _ & [Hd _]).
  unfold init_every_keyvalue. rewrite (M_bind_done _ _ _ _ _ (get_file_ok _ _ _ Hn)).
  cbn in Hd. by rewrite Hd.
Qed.

(** The searched list is as before the line. *)
Lemma kvl_rep_stored w1 L1 e L2 sc i k v room :
  l = L1 ++ e :: L2 → w_secs w !! se_id e = Some sc →
  first_unused kv_flag (w_kvs w) = Some i → grown w w1 room → kv_stored w w1 i k v →
  kvl_rep (w_pool w1) (w_kvs w1) (sec_head sc) (se_kvs e).
Proof using Hw Hf.
  intros -> Hsc Hi Hg [Hs (kp & vp & _ & _ & Hk)].
  destruct (locate_sec_cell _ _ _ _ _ Hw Hf e) as (sc' & Hsc' & _ & _ & Hl);
  [apply elem_of_app; right; by left|].
  assert (sc' = sc) as -> by congruence.
  destruct (link_fresh w fl fd name L1 e L2 i Hw Hf Hi) as [Hni _].
  eapply kvl_rep_frame; [apply Hg| |exact Hl].
  intros j Hj. rewrite Hk. apply list_lookup_alter_ne. intros <-.
  by apply Hni, in_section_ids.
Qed.

Lemma init_every_keyvalue_run L1 e i :
  l = L1 ++ [e] → key_text_ok t → first_unused kv_flag (w_kvs w) = Some i →
  ∃ w', line_step w w' (Z.of_nat (length t) + 1) ∧
  match parse_pair t with
  | Some (k, v) =>
      if decide (k ∈ (entry_pair <$> se_kvs e).*1)
      then init_every_keyvalue fd line w = Done (INIFILE_FORMAT_ERROR, w') ∧
           world_rep w' fl
      else init_every_keyvalue fd line w = Done (Z.of_nat i, w') ∧
           world_rep w'
             (<[fd := Some (name, L1 ++ [sec_with e (se_kvs e ++ [KV i k v])])]> fl)
  | None => init_every_keyvalue fd line w = Done (INIFILE_FORMAT_ERROR, w') ∧
            world_rep w' fl
  end.
Proof using Hw Hf Hplock Hslock Hklock Ht Hroom.
  intros El Hkt Hi. pose proof Hf as Hf'. rewrite El in Hf'.
  destruct (locate_file _ _ _ _ _ Hw Hf') as (n & Hn & _ & _ & Hsl).
  destruct (file_ids_nodup _ _ _ _ _ Hw Hf') as [Hsnd Hknd].
  destruct (locate_sec_cell _ _ _ _ _ Hw Hf' e) as (sc & Hsc & _ & _ & Hkvl);
  [set_solver|].
  unfold init_every_keyvalue. rewrite (M_bind_done _ _ _ _ _ (get_file_ok _ _ _ Hn)).
  destruct Hsl as [Hd _]. pose proof (dseg_head _ _ _ _ _ Hd) as Hh.
  destruct (file_head n) as [h|]; [|rewrite fmap_app in Hh; by destruct L1].
  assert (last_section h w = Done (se_id e, w)) as Hlast.
  { eapply last_section_ok; [apply Hw|exact Hd|done|]. rewrite fmap_app. apply last_snoc. }
  rewrite (M_bind_done _ _ _ _ _ Hlast), (M_bind_done _ _ _ _ _ (get_sec_ok _ _ _ Hsc)).
  destruct (init_line_key_val_run w line t i (wr_pool _ _ Hw) Hplock Hklock Hi Ht Hroom Hkt)
  as (w1 & Hrun & Hg & Hst).
  rewrite (M_bind_done _ _ _ _ _ Hrun).
  destruct (parse_pair t) as [[k v]|]; cycle 1.
  { exists w1. split; [by eapply line_step_grown|]. split; [done|].
  by eapply world_rep_rejected_kv. }
  rewrite (proj2 (Z.leb_le 0 (Z.of_nat i))) by lia. rewrite Nat2Z.id.
  destruct (link_new_cell w w1 fl i k v Hw Hi Hst) as (c & Hc & Hcp & Hcl & Hcf & Hck & _).
  rewrite (M_bind_done _ _ _ _ _ (get_kv_ok _ _ _ Hc)), M_bind_gets.
  destruct (str_at_names _ _ _ Hck) as (b & -> & Hb).
  pose proof (kvl_rep_stored w1 L1 e [] sc i k v _ El Hsc Hi Hg Hst) as Hkvl1.
  pose proof (sec_ids_nodup _ _ _ Hknd) as Hend.
  pose proof (find_keyvalue_spec w1 b 0 k Hb _ _ Hkvl1
  (kvl_rep_length _ _ _ _ Hw Hkvl Hend)) as Hfind.
  rewrite (M_bind_done _ _ _ _ _ Hfind).
  destruct (decide (k ∈ (entry_pair <$> se_kvs e).*1)) as [Hin|Hin].
  - destruct (find_kv k (se_kvs e)) as [x|] eqn:Ex; [|by apply find_kv_None in Ex].
  cbn [fmap option_fmap option_map].
  erewrite M_bind_done by (apply with_kv_ok; by eapply lookup_lt_Some).
  eexists. split; [|split; [done|]].
  { by eapply line_step_grown. }
  eapply (world_rep_rejected_kv w _ fl (Z.of_nat (length t) + 1)); [done| | |exact Hi].
  + split; apply Hg.
  + destruct Hst as [Hk (kp & vp & _ & _ & Hs)]. split; [done|]. cbn.
    rewrite Hs, alter_twice. eexists. split; [done|]. intros m Hm. cbn. by rewrite Hm.
  - apply find_kv_None in Hin. rewrite Hin. cbn [fmap option_fmap option_map].
  destruct (link_pair_run w w1 fl fd name Hw L1 e [] i k v _ Hf' Hi Hg Hst)
    as (sc' & Hsc' & Hlink).
  assert (sc' = sc) as -> by (destruct Hst as [Hs _]; rewrite Hs in Hsc'; congruence).
  pose proof (link_pair_rep w w1 fl fd name L1 e [] i k v _ Hw Hf' Hi Hg Hst) as Hrep.
  set (w2 := set_kvs _ _) in Hlink, Hrep.
  exists w2. split; [by eapply line_step_grown|]. split; [|done].
  destruct (sec_head sc) as [h'|]; [|by rewrite (M_bind_done _ _ _ _ _ Hlink)].
  assert (with_kv i (kv_set_last None) w2 = Done (tt, w2)) as Hlst.
  { destruct (locate_sec_cell _ _ _ _ _ Hrep
      (list_lookup_insert_eq _ _ _ (lookup_lt_Some _ _ _ Hf))
      (sec_with e (se_kvs e ++ [KV i k v]))) as (m & _ & _ & _ & Hkd & Hkl);
      [apply elem_of_app; right; by left|].
    cbn [se_kvs sec_with] in Hkd, Hkl. rewrite fmap_app in Hkd.
    destruct (cell_at _ _ _ _ _ _ Hkd) as (m' & Hm' & _ & Hml). cbn in Hm', Hml.
    rewrite with_kv_ok by (by eapply lookup_lt_Some).
    rewrite (alter_same _ _ _ m'); [by destruct w2|done|]. destruct m'. cbn in *. by subst. }
  by rewrite (M_bind_done _ _ _ _ _ (M_bind_tail _ _ _ _ _ _ _ Hlink Hlst)).
Qed.
End one_line.

(** ** Any line *)

(** Text the parser handles without reading in front of the line. *)
Definition line_ok (t : list Z) : Prop :=
  nonzero t ∧ (length t < INIFILE_MAX_CONTENT_LINELEN)%nat ∧
  (line_kind t = LINE_KEYVALUE → key_text_ok t).

#[export] Instance key_text_ok_dec t : Decision (key_text_ok t).
Proof. unfold key_text_ok. repeat (case_match; try apply _). Defined.
#[export] Instance line_ok_dec t : Decision (line_ok t).
Proof. unfold line_ok. apply _. Defined.

Definition kv_need (t : list Z) : nat := if decide (line_kind t = LINE_KEYVALUE) then 1 else 0.
Definition sec_need (t : list Z) : nat := if decide (line_kind t = LINE_SECTION) then 1 else 0.

(** Free cells and pool space for the lines to come. *)
Record capacity (w : world) (fl : list file_entry) (kvs secs : nat) (chars : Z) : Prop := {
  cap_kvs : (length (all_kv_ids fl) + kvs ≤ INIFILE_KEYVALUE_ARRAY_LEN)%nat;
  cap_secs : (length (all_sec_ids fl) + secs ≤ MAX_INIFILE_SECTION_NUM)%nat;
  cap_chars : curr w + chars < INIFILE_SIZE_SPACE;
}.

Lemma ids_length fl fd f f' :
  fl !! fd = Some f →
  length (all_kv_ids (<[fd := f']> fl)) =
    (length (file_secs f' ≫= se_kvs) + length (other_secs fd fl ≫= se_kvs))%nat ∧
  length (all_sec_ids (<[fd := f']> fl)) =
    (length (file_secs f') + length (other_secs fd fl))%nat.
Proof.
  intros Hf. pose proof (all_secs_split fd fl f' (lookup_lt_Some _ _ _ Hf)) as Hp.
  unfold all_kv_ids, all_sec_ids. rewrite !length_fmap. split.
  - by rewrite Hp, bind_app, length_app.
  - by rewrite Hp, length_app.
Qed.

Lemma ids_length_at fl fd f :
  fl !! fd = Some f →
  length (all_kv_ids fl) =
    (length (file_secs f ≫= se_kvs) + length (other_secs fd fl ≫= se_kvs))%nat ∧
  length (all_sec_ids fl) = (length (file_secs f) + length (other_secs fd fl))%nat.
Proof.
  intros Hf. pose proof (ids_length fl fd f f Hf) as H. by rewrite list_insert_id in H.
Qed.

Lemma line_step_refl w n : 0 <= n → line_step w w n.
Proof. intros H. split; [done|done|lia]. Qed.

Section any_line.
Context (w : world) (fl : list file_entry) (fd : nat) (name : list Z) (l : list sec_entry).
Context (line t : list Z) (ks ss : nat) (cs : Z).
Hypothesis Hw : world_rep w fl.
Hypothesis Hf : fl !! fd = Some (Some (name, l)).
Hypothesis Hplock : POOL_LOCK ∉ w_held w.
Hypothesis Hslock : SECTION_ARRAY_LOCK ∉ w_held w.
Hypothesis Hklock : KEYVAL_ARRAY_LOCK ∉ w_held w.
Hypothesis Ht : c_str line = Done t.
Hypothesis Hok : line_ok t.
Hypothesis Hcs : 0 <= cs.
Hypothesis Hcap : capacity w fl (kv_need t + ks) (sec_need t + ss)
                  (Z.of_nat (length t) + 1 + cs).

(** The line's effect is [doc_line]; what is left is enough for the rest. *)
Lemma init_every_line_run :
  ∃ w', line_step w w' (Z.of_nat (length t) + 1) ∧
  match doc_line (doc_of l) t with
  | Some d => ∃ l' r, init_every_line_inifile fd line w = Done (r, w') ∧ 0 <= r ∧
      world_rep w' (<[fd := Some (name, l')]> fl) ∧ doc_of l' = d ∧
      capacity w' (<[fd := Some (name, l')]> fl) ks ss cs
  | None => init_every_line_inifile fd line w = Done (INIFILE_FORMAT_ERROR, w') ∧
      world_rep w' fl
  end.
Proof using Hw Hf Hplock Hslock Hklock Ht Hok Hcs Hcap.
  destruct Hok as (_ & _ & Hkt). destruct Hcap as [C1 C2 C3].
  assert (pool_room (w_pool w) (length t)) as Hroom by (unfold pool_room, curr in *; lia).
  unfold init_every_line_inifile, doc_line.
  rewrite (M_bind_lift _ _ _ _ (judge_line_kind line t Ht)).
  unfold kv_need, sec_need in *. assert (∀ l', length (all_kv_ids (<[fd := Some (name, l')]> fl)) =
    (length (l' ≫= se_kvs) + length (other_secs fd fl ≫= se_kvs))%nat ∧
  length (all_sec_ids (<[fd := Some (name, l')]> fl)) =
    (length l' + length (other_secs fd fl))%nat) as Hids
  by (intros l'; exact (ids_length fl fd _ (Some (name, l')) Hf)).
  pose proof (ids_length_at fl fd _ Hf) as [A1 A2]. cbn in A1, A2.
  assert (∃ w', line_step w w' (Z.of_nat (length t) + 1) ∧
  ∃ l' r, (mret 0 : M world Z) w = Done (r, w') ∧ 0 <= r ∧
      world_rep w' (<[fd := Some (name, l')]> fl) ∧ doc_of l' = doc_of l ∧
      capacity w' (<[fd := Some (name, l')]> fl) ks ss cs) as Hskip.
  { exists w. split; [apply line_step_refl; lia|]. exists l, 0.
  rewrite list_insert_id by done.
  split; [done|]. split; [done|]. split; [done|]. split; [done|].
  split; [repeat case_decide; lia|repeat case_decide; lia|clear -C3; lia]. }
  destruct (line_kind t) eqn:Ek; try exact Hskip; cycle 2.
  { exists w. split; [apply line_step_refl; lia|done]. }
  - (* a section *)
  rewrite decide_True in C2 by done. rewrite decide_False in C1 by done.
  destruct (free_sec_exists w fl Hw) as [i Hi]; [lia|].
  destruct (init_every_section_run w fl fd name l line t Hw Hf Hplock Hslock Hklock Ht
    Hroom i Hi) as (w' & Hstep & Hres). exists w'. split; [done|].
  destruct (parse_section t) as [s|]; cbn [mbind option_bind]; [|done].
  destruct (decide (s ∈ (doc_of l).*1)) as [Hin|Hin]; [done|].
  destruct Hres as [Hrun Hrep]. exists (l ++ [SEC i s []]), (Z.of_nat i).
  split; [done|]. split; [lia|]. split; [done|].
  split; [apply doc_of_link_section|].
  destruct (Hids (l ++ [SEC i s []])) as [B1 B2].
  rewrite bind_app, !length_app in B1. rewrite length_app in B2.
  cbn in B1, B2. pose proof (ls_room _ _ _ Hstep). split; [lia|lia|lia].
  - (* a pair *)
  rewrite decide_False in C2 by done. rewrite decide_True in C1 by done.
  destruct l as [|e L1 _] using rev_ind.
  { exists w. split; [apply line_step_refl; lia|]. cbn.
    split; [by eapply init_every_keyvalue_none|done]. }
  destruct (free_kv_exists w fl Hw) as [i Hi]; [lia|].
  destruct (init_every_keyvalue_run w fl fd name _ line t Hw Hf Hplock Hslock Hklock Ht
    Hroom L1 e i eq_refl (Hkt eq_refl) Hi) as (w' & Hstep & Hres).
  exists w'. split; [done|]. unfold doc_of in *. rewrite fmap_app. cbn [fmap list_fmap].
  rewrite last_snoc. cbn [mbind option_bind].
  destruct (parse_pair t) as [[k v]|]; cbn [mbind option_bind fst snd]; [|done].
  cbn [entry_sec snd] in *.
  destruct (decide (k ∈ (entry_pair <$> se_kvs e).*1)) as [Hin|Hin]; [done|].
  destruct Hres as [Hrun Hrep].
  exists (L1 ++ [sec_with e (se_kvs e ++ [KV i k v])]), (Z.of_nat i).
  split; [done|]. split; [lia|]. split; [done|].
  split.
  { pose proof (doc_add_last_snoc (entry_sec <$> L1) (se_name e) (entry_pair <$> se_kvs e)
      k v) as Hsnoc. unfold entry_sec in *. cbn [fst snd] in *. symmetry.
    etrans; [apply Hsnoc|]. rewrite fmap_app. cbn. by rewrite fmap_app. }
  destruct (Hids (L1 ++ [sec_with e (se_kvs e ++ [KV i k v])])) as [B1 B2].
  rewrite bind_app, !length_app in A1, B1.
  rewrite length_app in A2, B2. cbn in A1, A2, B1, B2. rewrite app_nil_r in A1, B1.
  rewrite length_app in B1. cbn in B1.
  pose proof (ls_room _ _ _ Hstep). split; [lia|lia|lia].
Qed.
End any_line.

(** ** All lines *)

Definition needs (f : list Z → nat) (ts : list (list Z)) : nat := foldr (λ t n, f t + n)%nat 0%nat ts.
Definition chars_need (ts : list (list Z)) : Z :=
  foldr (λ t n, Z.of_nat (length t) + 1 + n) 0 ts.

Lemma chars_need_nonneg ts : 0 <= chars_need ts.
Proof.
  unfold chars_need. induction ts as [|t ts IH]; [done|]. cbn [foldr]. lia.
Qed.

(** The locks a line takes are free. *)
Definition array_locks_free (w : world) : Prop :=
  POOL_LOCK ∉ w_held w ∧ SECTION_ARRAY_LOCK ∉ w_held w ∧ KEYVAL_ARRAY_LOCK ∉ w_held w.

Lemma analys_lines_run ts w fl fd name l r0 :
  world_rep w fl → fl !! fd = Some (Some (name, l)) → array_locks_free w →
  Forall line_ok ts →
  capacity w fl (needs kv_need ts) (needs sec_need ts) (chars_need ts) → 0 <= r0 →
  ∃ w' l', w_held w' = w_held w ∧ w_fs w' = w_fs w ∧
    world_rep w' (<[fd := Some (name, l')]> fl) ∧
    match parse_doc (doc_of l) ts with
    | Some d => ∃ r, analys_lines fd ts r0 w = Done (r, w') ∧ 0 <= r ∧ doc_of l' = d
    | None => analys_lines fd ts r0 w = Done (INIFILE_FORMAT_ERROR, w')
    end.
Proof.
  revert w fl l r0; induction ts as [|t ts IH]; intros w fl l r0 Hw Hf Hlk Hok Hcap Hr.
  { exists w, l. rewrite list_insert_id by done. cbn. eauto 10. }
  apply Forall_cons in Hok as [Ht Hok]. destruct Hlk as (Hl1 & Hl2 & Hl3).
  pose proof Ht as (Hnz & Hlen & _).
  destruct (init_every_line_run w fl fd name l (fgets_into zero_line t) t
    (needs kv_need ts) (needs sec_need ts) (chars_need ts) Hw Hf Hl1 Hl2 Hl3
    (fgets_into_str _ Hnz Hlen) Ht (chars_need_nonneg ts) Hcap) as (w1 & Hstep & Hres).
  cbn [analys_lines parse_doc].
  destruct (doc_line (doc_of l) t) as [d|]; cbn [mbind option_bind].
  - destruct Hres as (l1 & r & Hrun & Hr1 & Hrep & <- & Hcap1).
    rewrite (M_bind_done _ _ _ _ _ Hrun). rewrite (proj2 (Z.ltb_ge r 0)) by done.
    destruct (IH w1 (<[fd := Some (name, l1)]> fl) l1 r) as (w' & l' & H1 & H2 & H3 & H4);
      try done.
    + apply list_lookup_insert_eq. by eapply lookup_lt_Some.
    + unfold array_locks_free. by rewrite (ls_held _ _ _ Hstep).
    + exists w', l'. rewrite list_insert_insert_eq in H3.
      rewrite H1, H2, (ls_held _ _ _ Hstep), (ls_fs _ _ _ Hstep). done.
  - destruct Hres as [Hrun Hrep]. exists w1, l. rewrite list_insert_id by done.
    rewrite (ls_held _ _ _ Hstep), (ls_fs _ _ _ Hstep).
    split; [done|]. split; [done|]. split; [done|].
    by rewrite (M_bind_done _ _ _ _ _ Hrun).
Qed.

(** ** Opening a file *)

Lemma world_rep_free_file w fl fd :
  world_rep w fl → first_unused file_flag (w_files w) = Some fd → fl !! fd = Some None.
Proof.
  intros Hw (n & Hn & Hfl)%first_unused_Some. pose proof (wr_files _ _ Hw) as H.
  eapply Forall2_lookup_l in H; [|exact Hn]. destruct H as (f & Hf & Hr).
  destruct f as [[name l]|]; [|done]. destruct Hr as (Hu & _). by rewrite Hu in Hfl.
Qed.

(** A file cell with a name and no section. *)
Lemma new_file_rep w fl fd p pm name :
  world_rep w fl → fl !! fd = Some None → pool_ok pm → pool_ext (w_pool w) pm →
  str_at pm p name →
  world_rep (set_files (alter (file_set_name p) fd
               (alter (file_set_flag STRUCT_NODE_IN_USED) fd (w_files w))) (set_pool pm w))
    (<[fd := Some (name, [])]> fl).
Proof.
  intros Hw Hf Hok Hext Hat. destruct (world_rep_file _ _ _ _ Hw Hf) as (n & Hn & Hrep).
  cbn in Hrep. subst n. destruct (world_rep_ids _ _ _ _ Hw Hf) as (H1 & H2 & H3 & H4).
  eapply world_rep_step; [done|by eapply lookup_lt_Some|]. split; cbn; try done.
  - by rewrite !length_alter.
  - intros i Hi. by rewrite !list_lookup_alter_ne.
  - eexists. rewrite !list_lookup_alter_eq, Hn. split; [done|]. split; [done|].
    split; [done|]. by split; [|constructor].
Qed.

Lemma memory_init_done w :
  pool_ok (w_pool w) → ini_file_memory_init w = Done (tt, w).
Proof.
  intros Hok. destruct (po_cur _ Hok) as (k & off & Hc & _).
  unfold ini_file_memory_init. rewrite M_bind_gets. by rewrite Hc.
Qed.

(** The file's bytes can be read and written by the process. *)
Definition file_readable (fs : filesystem) (name c : list Z) : Prop :=
  fs_files fs !! name = Some c ∧ fs_read_ok fs name = true ∧ fs_write_ok fs name = true.

(** Opening a file: the document of its lines, or the format error with
    nothing left allocated. *)
Lemma init_ini_file_run w fl fd nm len name c :
  world_rep w fl → w_held w = [] → str_arg (Some nm) len name →
  first_unused file_flag (w_files w) = Some fd → file_readable (w_fs w) name c →
  let lines := fgets_lines INIFILE_MAX_CONTENT_LINELEN c in
  Forall line_ok lines →
  capacity w fl (needs kv_need lines) (needs sec_need lines)
    (Z.of_nat (length name) + 1 + chars_need lines) →
  ∃ w', w_held w' = [] ∧ w_fs w' = w_fs w ∧
    match parse_doc [] lines with
    | Some d => ∃ l, init_ini_file (Some nm) len w = Done (Z.of_nat fd, w') ∧
        world_rep w' (<[fd := Some (name, l)]> fl) ∧ doc_of l = d
    | None => init_ini_file (Some nm) len w = Done (INIFILE_FORMAT_ERROR, w') ∧
        world_rep w' fl
    end.
Proof.
  intros Hw Hheld Harg Hfd (Hc & Hrd & Hwr) lines Hok Hcap.
  pose proof (world_rep_free_file _ _ _ Hw Hfd) as Hf.
  destruct (first_unused_Some _ _ _ Hfd) as (n & Hn & _).
  pose proof (lookup_lt_Some _ _ _ Hn) as Hflt. pose proof (lookup_lt_Some _ _ _ Hf) as Hfl.
  assert (∀ m, m ∉ w_held w) as Hfree by (intros m; rewrite Hheld; apply not_elem_of_nil).
  pose proof (chars_need_nonneg lines) as Hcn. destruct Hcap as [C1 C2 C3].
  destruct (str_arg_names _ _ _ Harg) as (b & [= <-] & Hnm & Hstr).
  destruct (names_len _ _ _ Hnm) as (_ & Hnz & Hread).
  set (w1 := set_files (alter (file_set_flag STRUCT_NODE_IN_USED) fd (w_files w)) w).
  destruct (store_ok (DName fd) nm (Z.of_nat (length name)) name w1)
    as (p & pm & Hst & Hpok & Hext & Hat & Hroom); try done.
  { apply Hw. } { cbn. by rewrite length_alter. } { unfold curr in C3. cbn [w_pool w1 set_files]. lia. }
  pose proof (new_file_rep w fl fd p pm name Hw Hf Hpok Hext Hat) as Hrep2.
  set (w2 := dest_set (DName fd) p (set_pool pm w1)) in *.
  change (set_files _ (set_pool pm w)) with w2 in Hrep2.
  destruct (analys_lines_run lines w2 (<[fd := Some (name, [])]> fl) fd name [] 0 Hrep2)
    as (w3 & l3 & Hh3 & Hfs3 & Hrep3 & Hres).
  { by apply list_lookup_insert_eq. }
  { split; [|split]; apply Hfree. }
  { done. }
  { destruct (ids_length_at fl fd _ Hf) as [A1 A2].
    destruct (ids_length fl fd _ (Some (name, [])) Hf) as [B1 B2]. cbn in A1, A2, B1, B2.
    split; [etrans; [|exact C1]; rewrite A1; apply Nat.add_le_mono_r; by rewrite <- B1
           |etrans; [|exact C2]; rewrite A2; apply Nat.add_le_mono_r; by rewrite <- B2|].
    unfold curr in *. cbn [w_pool w2 w1 dest_set set_files set_pool] in *. lia. }
  { done. }
  rewrite list_insert_insert_eq in Hrep3.
  assert (∀ k : Z → M world Z, (ret ← read_analys_ini_file fd nm; k ret) w2 =
    (ret ← analys_lines fd lines 0; k ret) w2) as Hanalys.
  { intros k. unfold mbind, M_bind, read_analys_ini_file.
    unfold mbind, M_bind, lift. rewrite Hstr. unfold gets, mret, M_ret.
    change (w_fs w2) with (w_fs w). unfold access_rw, fname.
    rewrite Hc, Hrd, Hwr. cbn [andb negb Z.eqb]. unfold fopen_r, fname. rewrite Hrd, Hc. done. }
  unfold init_ini_file. run (memory_init_done w (wr_pool _ _ Hw)).
  run (get_index_ini_file_ok _ _ (Hfree FILE_ARRAY_LOCK) Hfd).
  rewrite (proj2 (Z.ltb_ge (Z.of_nat fd) 0)) by lia. rewrite Nat2Z.id. fold w1.
  rewrite (M_bind_done _ _ _ _ _ (names_len_M _ _ _ w1 Hnm)).
  run Hst. cbn [Z.ltb Z.compare]. fold w2. rewrite Hanalys.
  cbn [doc_of fmap list_fmap] in Hres.
  destruct (parse_doc [] lines) as [d|].
  - destruct Hres as (r & Hrun & Hr & Hd). run Hrun.
    rewrite (proj2 (Z.ltb_ge r 0)) by done. exists w3.
    split; [by rewrite Hh3|]. split; [by rewrite Hfs3|]. by exists l3.
  - run Hres. cbn [Z.ltb Z.compare INIFILE_FORMAT_ERROR].
    destruct (destroy_rep w3 _ fd name Hrep3 l3) as (w4 & Hdes & Hrep4 & Hfs4 & Hh4).
    { by apply list_lookup_insert_eq. }
    run Hdes. exists w4. split; [by rewrite Hh4, Hh3|]. split; [by rewrite Hfs4, Hfs3|].
    split; [done|]. rewrite list_insert_insert_eq in Hrep4. by rewrite list_insert_id in Hrep4.
Qed.

