(* ===== verification/V2Witness.v ===== *)
(** * inifile v2.0.0: the state at program start, examples, findings

    The zeroed arrays represent no file.  [demo_world] is the state after
    opening a small file; the theorems and the findings run on it. *)

From S2P Require Import Prelude CString DList FileSys V2Data V2Line V2Rewrite V2Api V2Rep V2Parse IniSpec V2Layout V2Refine V2Text V2Edit V2Add V2Read.
From stdpp Require Import gmap strings.

Open Scope Z_scope.

(** The state of the first call, after [ini_file_memory_init]. *)
Definition world1 (fs : filesystem) : world :=
  set_pool (set_curr_len 0 (set_current (Some (POOL, O)) pool0)) (world0 fs).

Lemma memory_init_world0 fs : ini_file_memory_init (world0 fs) = Done (tt, world1 fs).
Proof. reflexivity. Qed.

Lemma world0_init fs nm len : init_ini_file nm len (world0 fs) = init_ini_file nm len (world1 fs).
Proof. reflexivity. Qed.

Lemma lookup_replicate_eq {A} n (x y : A) i : replicate n x !! i = Some y → y = x.
Proof. by intros [-> _]%lookup_replicate. Qed.

Definition no_files : list file_entry := replicate MAX_OPERATION_FILE_NUM None.

Lemma world1_rep fs : world_rep (world1 fs) no_files.
Proof.
  split.
  - split.
    + intros []; apply length_replicate.
    + exists POOL, O. split; [done|]. split; [done|]. split; [done|].
      split; [by unfold INIFILE_SIZE_SPACE|].
      cbn [pool_of pm_pool]. by rewrite drop_0, Nat.sub_0_r.
  - apply length_replicate.
  - apply length_replicate.
  - apply length_replicate.
  - apply Forall2_replicate. done.
  - constructor.
  - constructor.
  - intros i n Hn%lookup_replicate_eq _. by subst.
  - intros i n Hn%lookup_replicate_eq _. by subst.
Qed.

(** ** A small file, opened *)

Definition nl : string := String (Ascii.ascii_of_nat 10) "".
Definition demo_name : list Z := bytes "net.ini".
Definition demo_text : list Z :=
  bytes ("; network" +:+ nl +:+ "[server]" +:+ nl +:+ "host = example.org ; main" +:+ nl +:+
         "port=8080" +:+ nl +:+ "[client]" +:+ nl +:+ "retry = 3" +:+ nl).
Definition demo_fs : filesystem :=
  FileSys.FS {[demo_name := demo_text]} (λ _, true) (λ _, true).

Definition demo_doc : doc :=
  [(bytes "server", [(bytes "host", bytes "example.org"); (bytes "port", bytes "8080")]);
   (bytes "client", [(bytes "retry", bytes "3")])].

(** The document of the text. *)
Example demo_parse :
  parse_doc [] (fgets_lines INIFILE_MAX_CONTENT_LINELEN demo_text) = Some demo_doc.
Proof. vm_compute. reflexivity. Qed.

Definition demo_world : world :=
  match init_ini_file (Some (c_lit "net.ini")) 0 (world0 demo_fs) with
  | Done (_, w) => w
  | _ => world0 demo_fs
  end.

Lemma demo_arg : str_arg (Some (c_lit "net.ini")) 0 demo_name.
Proof. exists (c_lit "net.ini"). split; [done|]. split; [reflexivity|]. by left. Qed.

Lemma demo_capacity :
  let lines := fgets_lines INIFILE_MAX_CONTENT_LINELEN demo_text in
  capacity (world1 demo_fs) no_files (needs kv_need lines) (needs sec_need lines)
    (Z.of_nat (length demo_name) + 1 + chars_need lines).
Proof.
  intros lines. split; [apply Nat.leb_le; vm_compute; reflexivity| |vm_compute; reflexivity].
  apply Nat.leb_le; vm_compute; reflexivity.
Qed.

Lemma demo_lines_ok : Forall line_ok (fgets_lines INIFILE_MAX_CONTENT_LINELEN demo_text).
Proof. apply (bool_decide_unpack _). vm_compute. reflexivity. Qed.

Lemma demo_rep : ∃ l,
  world_rep demo_world (<[O := Some (demo_name, l)]> no_files) ∧ doc_of l = demo_doc ∧
  w_held demo_world = [] ∧ w_fs demo_world = demo_fs.
Proof.
  destruct (init_ini_file_run (world1 demo_fs) no_files 0 (c_lit "net.ini") 0 demo_name demo_text
    (world1_rep _) eq_refl demo_arg eq_refl)
    as (w' & Hh & Hfs & Hres).
  { split; [reflexivity|done]. }
  { apply demo_lines_ok. }
  { apply demo_capacity. }
  rewrite demo_parse in Hres. destruct Hres as (l & Hrun & Hrep & Hd).
  exists l. unfold demo_world. rewrite world0_init, Hrun. cbv iota beta.
  split; [exact Hrep|split; [exact Hd|split; [exact Hh|exact Hfs]]].
Qed.

(** ** inifile v2.0.0: the theorems at work on the small file

    Each example applies one theorem of the development to [demo_world], the
    state after opening the file of V2Witness.v, with its hypotheses checked by
    computation. *)

(** The parameter structures of the calls. *)
Definition demo_par (s k v : string) : INI_PARAMETER :=
  Build_INI_PARAMETER (Some (c_lit s)) 0 (Some (c_lit k)) 0 (Some (c_lit v)) 0.
Definition demo_sec_par (s : string) : INI_PARAMETER :=
  Build_INI_PARAMETER (Some (c_lit s)) 0 None 0 None 0.

Lemma demo_names s : nonzero (bytes s) → names (c_lit s) 0 (bytes s).
Proof. intros H. unfold names. cbn. by apply c_str_lit. Qed.

Lemma demo_str_arg s : nonzero (bytes s) → str_arg (Some (c_lit s)) 0 (bytes s).
Proof. intros H. exists (c_lit s). split; [done|]. split; [by apply c_str_lit|by left]. Qed.

Lemma demo_call s k v : nonzero (bytes s) → nonzero (bytes k) →
  call_names (demo_par s k v) (bytes s) (bytes k).
Proof.
  intros Hs Hk. split; eexists; (split; [reflexivity|]); by apply demo_names.
Qed.

(** Strings of letters hold no NUL. *)
Ltac nz := apply (bool_decide_unpack _); vm_compute; reflexivity.

Lemma demo_disk : disk_ok demo_fs demo_name demo_text.
Proof. split; try reflexivity. apply Nat.leb_le. reflexivity. Qed.

Lemma demo_unlocked m (w : world) : w_held w = [] → m ∉ w_held w.
Proof. intros ->. apply not_elem_of_nil. Qed.

Lemma get_value_witness : ∃ p,
  get_value_ofkey 0 (Some (demo_par "server" "host" "")) demo_world = Done (p, demo_world) ∧
  str_at (w_pool demo_world) p (bytes "example.org").
Proof.
  destruct demo_rep as (l & Hw & Hd & Hh & _).
  destruct (get_value_ofkey_doc demo_world _ 0 demo_name l
    (demo_par "server" "host" "") (bytes "server") (bytes "host") Hw eq_refl
    (demo_unlocked _ _ Hh)) as (p & Hrun & Hp).
  { apply demo_call; nz. }
  exists p. split; [exact Hrun|]. rewrite Hd in Hp.
  exact Hp.
Defined.

Lemma delete_missing_witness :
  delete_value_ofkey 0 (Some (demo_par "server" "colour" "")) demo_world =
  Done ((INIFILE_KEYVALUE_NOFOUND, Some (demo_par "server" "colour" "")), demo_world).
Proof.
  destruct demo_rep as (l & Hw & Hd & Hh & _).
  pose proof (delete_value_ofkey_missing demo_world _ 0 demo_name l
    (demo_par "server" "colour" "") (bytes "server") (bytes "colour") Hw eq_refl
    (demo_unlocked _ _ Hh)) as H.
  rewrite Hd in H. apply H; [apply demo_call; nz|reflexivity].
Defined.

Lemma delete_value_witness : ∃ par' w' l',
  delete_value_ofkey 0 (Some (demo_par "client" "retry" "")) demo_world =
    Done ((0, Some par'), w') ∧
  world_rep w' (<[O := Some (demo_name, l')]> no_files) ∧
  doc_of l' = [(bytes "server", [(bytes "host", bytes "example.org");
                                 (bytes "port", bytes "8080")]); (bytes "client", [])] ∧
  fs_files (w_fs w') !! demo_name =
    Some (deleted_text (bytes "client") (Some (bytes "retry")) demo_text).2.
Proof.
  destruct demo_rep as (l & Hw & Hd & Hh & Hfs).
  destruct (delete_value_ofkey_doc demo_world _ 0 demo_name l
    (demo_par "client" "retry" "") (bytes "client") (bytes "retry") demo_text Hw
    eq_refl (demo_unlocked _ _ Hh)) as (ret & par' & w' & l' & Hrun & Hrep & Hdoc & Hdisk & _ & Hret).
  { apply demo_call; nz. }
  { rewrite Hd. vm_compute. eauto. }
  { rewrite Hfs. apply demo_disk. }
  { nz. }
  specialize (Hret eq_refl). subst ret. exists par', w', l'.
  split; [exact Hrun|]. rewrite list_insert_insert_eq in Hrep. split; [exact Hrep|].
  split; [rewrite Hdoc, Hd; reflexivity|]. rewrite Hdisk, replaced_lookup. reflexivity.
Defined.

Lemma delete_section_witness : ∃ par' w' l',
  delete_ini_section 0 (Some (demo_sec_par "server")) demo_world = Done ((0, Some par'), w') ∧
  world_rep w' (<[O := Some (demo_name, l')]> no_files) ∧
  doc_of l' = [(bytes "client", [(bytes "retry", bytes "3")])] ∧
  fs_files (w_fs w') !! demo_name = Some (deleted_text (bytes "server") None demo_text).2.
Proof.
  destruct demo_rep as (l & Hw & Hd & Hh & Hfs).
  destruct (delete_ini_section_doc demo_world _ 0 demo_name l
    (demo_sec_par "server") (bytes "server") (c_lit "server") None demo_text Hw
    eq_refl (demo_unlocked _ _ Hh) eq_refl)
    as (ret & par' & w' & l' & Hrun & Hrep & Hdoc & Hdisk & _ & Hret).
  { apply demo_names; nz. }
  { rewrite Hd. vm_compute. eauto. }
  { rewrite Hfs. apply demo_disk. }
  { reflexivity. }
  { nz. }
  specialize (Hret eq_refl). subst ret. exists par', w', l'.
  split; [exact Hrun|]. rewrite list_insert_insert_eq in Hrep. split; [exact Hrep|].
  split; [rewrite Hdoc, Hd; reflexivity|]. rewrite Hdisk, replaced_lookup. reflexivity.
Defined.

Lemma destroy_witness : ∃ w',
  destroy_ini_source 0 demo_world = Done (tt, w') ∧ world_rep w' no_files.
Proof.
  destruct demo_rep as (l & Hw & _).
  destruct (destroy_ini_source_frees demo_world _ 0 demo_name l Hw eq_refl)
    as (w' & Hrun & Hrep & _).
  exists w'. split; [exact Hrun|]. rewrite list_insert_insert_eq in Hrep. exact Hrep.
Defined.

Lemma demo_room n : (n ≤ 1000)%nat → pool_room (w_pool demo_world) n.
Proof.
  intros Hn. unfold pool_room.
  assert (pm_curr_len (w_pool demo_world) = 57) as -> by (vm_compute; reflexivity).
  unfold INIFILE_SIZE_SPACE. lia.
Qed.

Lemma add_value_witness : ∃ w' l',
  add_value_ofkey 0 (Some (demo_par "client" "wait" "15")) demo_world =
    Done ((0, Some (filled (demo_par "client" "wait" "15") (bytes "client") (bytes "wait")
                      (bytes "15"))), w') ∧
  world_rep w' (<[O := Some (demo_name, l')]> no_files) ∧
  doc_of l' = doc_add_key demo_doc (bytes "client") (bytes "wait") (bytes "15") ∧
  fs_files (w_fs w') !! demo_name =
    Some (added_text (bytes "client") (bytes "wait") (bytes "15") demo_text).2.
Proof.
  destruct demo_rep as (l & Hw & Hd & Hh & Hfs).
  pose proof (add_value_ofkey_doc demo_world _ 0 demo_name l (demo_par "client" "wait" "15")
    (bytes "client") (bytes "wait") (bytes "15") demo_text 3 Hw eq_refl Hh) as H.
  destruct H as (w' & l' & Hrun & Hrep & Hdoc & Hdisk & _);
    [apply demo_str_arg; nz|apply demo_str_arg; nz|apply demo_str_arg; nz|nz|nz
    |apply Nat.leb_le; reflexivity|rewrite Hd; vm_compute; eauto|rewrite Hd; reflexivity
    |vm_compute; reflexivity|apply demo_room, Nat.leb_le; reflexivity
    |rewrite Hfs; apply demo_disk|nz|].
  exists w', l'.
  split; [exact Hrun|]. rewrite list_insert_insert_eq in Hrep. split; [exact Hrep|].
  split; [by rewrite Hdoc, Hd|]. rewrite Hdisk, replaced_lookup. reflexivity.
Defined.

Lemma add_section_witness : ∃ w' l',
  add_ini_section 0 (Some (demo_sec_par "proxy")) demo_world =
    Done ((0, Some (set_section_len 5 (demo_sec_par "proxy"))), w') ∧
  world_rep w' (<[O := Some (demo_name, l')]> no_files) ∧
  doc_of l' = doc_add_sec demo_doc (bytes "proxy") ∧
  fs_files (w_fs w') !! demo_name = Some (bytes ("[proxy]" +:+ nl +:+ nl) ++ demo_text).
Proof.
  destruct demo_rep as (l & Hw & Hd & Hh & Hfs).
  destruct (add_ini_section_doc demo_world _ 0 demo_name l (demo_sec_par "proxy")
    (bytes "proxy") demo_text 2 Hw eq_refl Hh)
    as (w' & l' & Hrun & Hrep & Hdoc & Hdisk & _);
    [apply demo_str_arg; nz|reflexivity|nz|apply Nat.ltb_lt; reflexivity|rewrite Hd; reflexivity
    |vm_compute; reflexivity|apply demo_room, Nat.leb_le; reflexivity
    |rewrite Hfs; apply demo_disk|nz|].
  exists w', l'.
  split; [exact Hrun|]. rewrite list_insert_insert_eq in Hrep. split; [exact Hrep|].
  split; [by rewrite Hdoc, Hd|]. rewrite Hdisk, replaced_lookup. reflexivity.
Defined.

Lemma update_value_witness : ∃ w' l',
  update_value_ofkey 0 (Some (demo_par "server" "port" "443")) demo_world =
    Done ((0, Some (filled (demo_par "server" "port" "443") (bytes "server") (bytes "port")
                      (bytes "443"))), w') ∧
  world_rep w' (<[O := Some (demo_name, l')]> no_files) ∧
  doc_of l' = doc_set demo_doc (bytes "server") (bytes "port") (bytes "443") ∧
  fs_files (w_fs w') !! demo_name =
    Some (updated_text (bytes "server") (bytes "port") (bytes "443") demo_text).2.
Proof.
  destruct demo_rep as (l & Hw & Hd & Hh & Hfs).
  pose proof (update_value_ofkey_doc demo_world _ 0 demo_name l (demo_par "server" "port" "443")
    (bytes "server") (bytes "port") (bytes "443") demo_text Hw eq_refl Hh) as H.
  destruct H as (w' & l' & Hrun & Hrep & Hdoc & Hdisk & _);
    [apply demo_str_arg; nz|apply demo_str_arg; nz|apply demo_str_arg; nz
    |rewrite Hd; vm_compute; eauto|apply demo_room, Nat.leb_le; reflexivity
    |rewrite Hfs; apply demo_disk|nz|].
  exists w', l'.
  split; [exact Hrun|]. rewrite list_insert_insert_eq in Hrep. split; [exact Hrep|].
  split; [by rewrite Hdoc, Hd|]. rewrite Hdisk, replaced_lookup. reflexivity.
Defined.


(** ** inifile v2.0.0: behaviours the code does not mean

    Each theorem runs the translated code to a result that contradicts its
    purpose: text before the line is read, the rewritten file loses its
    section header, strings run together after the pool changes halves. *)

(** On a line whose text before the equality sign is all blanks, the
    backward scan for the end of the key leaves the line: the check that the
    key is empty comes too late. *)
Theorem blank_key_reads_before_line w line t e i :
  KEYVAL_ARRAY_LOCK ∉ w_held w → first_unused kv_flag (w_kvs w) = Some i →
  c_str line = Done t → index_of CONTENT_EQUALITY_SIGN t = Some (S e) →
  trim_r is_blank (take (S e) t) = [] →
  init_line_key_val line w = Fault OutOfBounds.
Proof.
  intros Hl Hi Ht He Hb. unfold init_line_key_val, str_frist_constchar. rewrite drop_0.
  rewrite (M_bind_lift _ _ _ _ (str_scan_chr_spec _ _ _ _ Ht)).
  rewrite (M_bind_lift _ _ _ _ (str_scan_chr_spec _ _ _ _ Ht)).
  rewrite !option_fmap_id, He, (index_of_before CONTENT_COMMA_SIGN t (S e)).
  assert (∀ c, c ∈ take (S e) t → is_blank c = true) as Hall.
  { clear -Hb. intros c Hc. induction (take (S e) t) as [|x s IH] using rev_ind; [by inversion Hc|].
    rewrite trim_r_snoc in Hb. destruct (is_blank x) eqn:Ex; [|by destruct s].
    apply elem_of_app in Hc as [Hc|Hc]; [by apply IH|]. apply list_elem_of_singleton in Hc.
    by subst. }
  rewrite bool_decide_eq_false_2 by (intros Hin%Hall; discriminate Hin).
  cbn [Nat.ltb Nat.leb]. run (get_index_ini_keyvalue_ok _ _ Hl Hi).
  rewrite (proj2 (Z.ltb_ge _ _)) by lia.
  rewrite (M_bind_lift _ _ _ _ (key_start line t Ht)).
  unfold mbind, M_bind, lift.
  by rewrite (key_end_off line t (S e) Ht He ltac:(lia) Hb).
Qed.

Lemma blank_key_witness :
  judge_ini_file_linetype (c_lit "  = x") = Done LINE_KEYVALUE ∧
  init_line_key_val (c_lit "  = x") (world1 demo_fs) = Fault OutOfBounds.
Proof.
  split; [reflexivity|].
  apply (blank_key_reads_before_line (world1 demo_fs) _ (bytes "  = x") 1 0);
    [apply not_elem_of_nil|reflexivity..].
Defined.

(** A section name of one byte. *)
Lemma parse_section_single c :
  c ≠ CONTENT_LEFT_BRACKET → c ≠ CONTENT_RIGHT_BRACKET → parse_section (section_text [c]) = None.
Proof.
  intros H1 H2. unfold parse_section, section_text. cbn [app index_of]. rewrite Z.eqb_refl.
  rewrite (proj2 (Z.eqb_neq c CONTENT_RIGHT_BRACKET)) by done. reflexivity.
Qed.

(** A section whose name is one byte long can neither be read from a
    file nor added: its line is classified as a section and then rejected. *)
Theorem one_byte_section_rejected w line c i :
  pool_ok (w_pool w) → POOL_LOCK ∉ w_held w → SECTION_ARRAY_LOCK ∉ w_held w →
  first_unused sec_flag (w_secs w) = Some i → pool_room (w_pool w) 3 →
  97 <= c <= 122 → c_str line = Done (section_text [c]) →
  judge_ini_file_linetype line = Done LINE_SECTION ∧
  ∃ w', init_line_section line w = Done (INIFILE_FORMAT_ERROR, w').
Proof.
  intros Hok Hp Hs Hi Hroom Hc Hline. split.
  - rewrite (judge_line_kind line _ Hline). unfold line_kind, section_text.
    cbn [app index_of span_len is_blank Z.eqb CONTENT_LEFT_BRACKET CONTENT_SPACE_SIGN
      CONTENT_TAB_SIGN Pos.eqb orb lookup list_lookup CONTENT_COMMA_SIGN
      CONTENT_EQUALITY_SIGN CONTENT_RIGHT_BRACKET CONTENT_NEELINE_SIGN].
    rewrite (proj2 (Z.eqb_neq c CONTENT_COMMA_SIGN)) by (unfold CONTENT_COMMA_SIGN; lia).
    rewrite (proj2 (Z.eqb_neq c CONTENT_EQUALITY_SIGN))
      by (unfold CONTENT_EQUALITY_SIGN; lia).
    rewrite (proj2 (Z.eqb_neq c CONTENT_RIGHT_BRACKET))
      by (unfold CONTENT_RIGHT_BRACKET; lia). reflexivity.
  - destruct (init_line_section_run w line _ i Hok Hp Hs Hi Hline Hroom) as (w' & Hrun & _).
    exists w'. rewrite parse_section_single in Hrun; [done|unfold CONTENT_LEFT_BRACKET; lia|].
    unfold CONTENT_RIGHT_BRACKET. lia.
Qed.

Lemma one_byte_section_witness :
  judge_ini_file_linetype (c_lit "[a]") = Done LINE_SECTION ∧
  ∃ w', init_line_section (c_lit "[a]") (world1 demo_fs) = Done (INIFILE_FORMAT_ERROR, w').
Proof.
  apply (one_byte_section_rejected (world1 demo_fs) _ 97 0);
    [apply (wr_pool _ _ (world1_rep _))|apply not_elem_of_nil|apply not_elem_of_nil
    |reflexivity|reflexivity|done|reflexivity].
Defined.

(** The content of the example's file afterwards. *)
Definition file_after {A} (r : outcome (A * world)) : option (list Z) :=
  match r with Done (_, w) => fs_files (w_fs w) !! demo_name | _ => None end.
(** The string a returned pointer stands for. *)
Definition value_after (r : outcome (pool_ptr * world)) : option (list Z) :=
  match r with
  | Done (p, w) => match pool_str (w_pool w) p with Done s => Some s | _ => None end
  | _ => None
  end.
Definition returned {A} (r : outcome ((Z * A) * world)) : option Z :=
  match r with Done ((z, _), _) => Some z | _ => None end.

(** Deleting a key succeeds, but the rewritten file has lost the
    section's header line, so that the file no longer parses (the first
    section) or the section's other keys belong to the section before. *)
Theorem delete_key_drops_header :
  returned (delete_value_ofkey 0 (Some (demo_par "server" "host" "")) demo_world) = Some 0 ∧
  file_after (delete_value_ofkey 0 (Some (demo_par "server" "host" "")) demo_world) =
    Some (bytes ("; network" +:+ nl +:+ "port=8080" +:+ nl +:+ "[client]" +:+ nl +:+
                 "retry = 3" +:+ nl)) ∧
  parse_doc [] (fgets_lines INIFILE_MAX_CONTENT_LINELEN (bytes
    ("; network" +:+ nl +:+ "port=8080" +:+ nl +:+ "[client]" +:+ nl +:+
     "retry = 3" +:+ nl))) = None.
Proof. vm_compute. done. Qed.

(** After a shorter value was stored and the pool changed halves twice,
    the value reads as the new string run together with what the half held
    before: moved strings get no terminator. *)
Theorem compaction_runs_strings_together :
  value_after ((_ ← update_value_ofkey 0 (Some (demo_par "server" "port" "443"));
                _ ← ini_file_memory_adjust; _ ← ini_file_memory_adjust;
                get_value_ofkey 0 (Some (demo_par "server" "port" ""))) demo_world) =
  Some (bytes "4430clienttretryy33net.ini").
Proof. vm_compute. done. Qed.

(** A second file beside the first. *)
Definition two_fs : filesystem :=
  FileSys.FS {[demo_name := demo_text; bytes "b.ini" := bytes ("[zone]" +:+ nl +:+ "id=7" +:+ nl)]}
    (λ _, true) (λ _, true).

(** With two files open, one change of halves leaves the second file's
    strings in the old half, and two changes destroy them: the loop over the
    files does not advance past an open one. *)
Theorem compaction_forgets_second_file :
  value_after ((_ ← init_ini_file (Some (c_lit "net.ini")) 0;
                _ ← init_ini_file (Some (c_lit "b.ini")) 0;
                get_value_ofkey 1 (Some (demo_par "zone" "id" ""))) (world0 two_fs)) =
    Some (bytes "7") ∧
  (∃ w' n, (_ ← init_ini_file (Some (c_lit "net.ini")) 0;
            _ ← init_ini_file (Some (c_lit "b.ini")) 0; ini_file_memory_adjust) (world0 two_fs) =
      Done (0, w') ∧
    pm_flag (w_pool w') = INI_FILE_MEMORY_POOL_BACK ∧ w_files w' !! 1%nat = Some n ∧
    file_name n = Some (POOL, 57%nat)).
Proof.
  split; [vm_compute; reflexivity|].
  eexists _, _. split; [vm_compute; reflexivity|]. split; [reflexivity|].
  split; reflexivity.
Qed.

(** Adding a section through a descriptor that is not open passes the
    NULL name of the free cell to the rewriting. *)
Theorem add_section_unopened_faults :
  add_ini_section 1 (Some (demo_sec_par "proxy")) demo_world = Fault NullDeref ∧
  add_ini_section 0 (Some (demo_sec_par "proxy")) (world1 demo_fs) = Fault NullDeref.
Proof. vm_compute. done. Qed.

(** The bytes written for a line that fits are the line. *)
Lemma fwrite_line_ok l :
  nonzero l → (length l < INIFILE_MAX_CONTENT_LINELEN)%nat →
  fwrite_line (fgets_into zero_line l) = Done l.
Proof.
  intros Hnz Hlen. pose proof (fgets_into_str l Hnz Hlen) as Hc.
  unfold fwrite_line, str_int_len. rewrite (str_scan_len_spec _ _ Hc).
  cbn [mbind outcome_bind mret outcome_ret]. apply c_str_inv in Hc as (r & -> & _).
  rewrite mem_read_ok by (rewrite length_app; lia).
  rewrite Nat2Z.id. by rewrite take_app_length.
Qed.

(** The copy [re_write_ini_file] makes has every line twice. *)
Theorem re_write_doubles_lines lines out :
  Forall (λ l, nonzero l ∧ (length l < INIFILE_MAX_CONTENT_LINELEN)%nat) lines →
  re_write_lines lines out = Done (out ++ concat ((λ l, l ++ l) <$> lines)).
Proof.
  intros Hl. revert out. induction Hl as [|l lines [Hnz Hlen] _ IH]; intros out;
    cbn [re_write_lines concat fmap list_fmap].
  - by rewrite app_nil_r.
  - rewrite (fwrite_line_ok l Hnz Hlen). cbn [mbind outcome_bind].
    rewrite IH. by rewrite <- !app_assoc.
Qed.

Lemma re_write_doubles_lines_witness :
  re_write_lines [bytes "a=1"; bytes "b=2"] []
  = Done (bytes "a=1" ++ bytes "a=1" ++ bytes "b=2" ++ bytes "b=2").
Proof.
  rewrite (re_write_doubles_lines [bytes "a=1"; bytes "b=2"] []); [reflexivity|].
  apply (bool_decide_unpack _). vm_compute. exact I.
Defined.
