(* ===== verification/Blocks.v ===== *)
(** * Linked blocks of the heap

    Version 1 links blocks of the heap.  For any block type with two links
    ([LinkedNode]) the section shows what taking a block out of its list and
    freeing it, appending one, and freeing a whole list do to the map that
    holds the blocks. *)

From S2P Require Import Prelude DList.
From stdpp Require Import gmap.

Open Scope nat_scope.

(** ** Freeing blocks *)

Definition kill {N} (ids : list nat) (m : gmap nat N) : gmap nat N := foldr delete m ids.

Lemma kill_out {N} ids (m : gmap nat N) j : j ∉ ids → kill ids m !! j = m !! j.
Proof.
  induction ids as [|i ids IH]; intros Hj; [done|]. cbn.
  rewrite lookup_delete_ne by set_solver. apply IH. set_solver.
Qed.

Lemma kill_in {N} ids (m : gmap nat N) j : j ∈ ids → kill ids m !! j = None.
Proof.
  induction ids as [|i ids IH]; intros Hj; [set_solver|]. cbn.
  destruct (decide (i = j)) as [->|Hne]; [by rewrite lookup_delete_eq|].
  rewrite lookup_delete_ne by done. apply IH. set_solver.
Qed.

Lemma kill_lookup {N} ids (m : gmap nat N) j :
  kill ids m !! j = if decide (j ∈ ids) then None else m !! j.
Proof. case_decide; [by apply kill_in|by apply kill_out]. Qed.

Lemma kill_app {N} ids1 ids2 (m : gmap nat N) :
  kill (ids1 ++ ids2) m = kill ids2 (kill ids1 m).
Proof.
  apply map_eq. intros j. rewrite !kill_lookup.
  repeat case_decide; set_solver.
Qed.

Lemma kill_cons {N} i ids (m : gmap nat N) : kill (i :: ids) m = kill ids (delete i m).
Proof. exact (kill_app [i] ids m). Qed.

(** Every walk over blocks that are there ends within the number of blocks;
    one more step of fuel reaches the first block that is not there. *)
Lemma ids_size {N} (m : gmap nat N) ids :
  NoDup ids → (∀ i, i ∈ ids → is_Some (m !! i)) → length ids ≤ S (size m).
Proof.
  intros Hnd Hin. rewrite <- size_dom, <- (size_list_to_set (C := gset nat)) by done.
  apply Nat.le_le_succ_r, subseteq_size. intros i Hi. apply elem_of_dom, Hin. set_solver.
Qed.

(** ** Lists of blocks *)

Section blocks.
Context {C : Type} `{!LinkedNode C}.
Implicit Types m : gmap nat C.

Definition block_links m : nat → option links := links_of ln_pre ln_last (λ i, m !! i).

Lemma block_at m prev h j1 j j2 :
  dseg (block_links m) prev h (j1 ++ j :: j2) None → ∃ n, m !! j = Some n ∧
  ln_pre n = last_or prev j1 ∧ ln_last n = head_or j2 None.
Proof.
  intros Hd. apply dseg_middle in Hd. apply fmap_Some in Hd as (n & Hn & [= -> ->]). eauto.
Qed.

Lemma block_there m prev h ids j :
  dseg (block_links m) prev h ids None → j ∈ ids → is_Some (m !! j).
Proof.
  intros Hd (l1 & l2 & ->)%list_elem_of_split.
  destruct (block_at _ _ _ _ _ _ Hd) as (n & Hn & _). eauto.
Qed.

Lemma block_links_frame m m' prev h ids t :
  (∀ i, i ∈ ids → m' !! i = m !! i) →
  dseg (block_links m) prev h ids t → dseg (block_links m') prev h ids t.
Proof.
  intros Hm. apply dseg_frame. intros i Hi. unfold block_links, links_of. by rewrite Hm.
Qed.

Lemma block_links_alter f m i j :
  (∀ n, ln_pre (f n) = ln_pre n) → (∀ n, ln_last (f n) = ln_last n) →
  block_links (alter f i m) j = block_links m j.
Proof.
  intros Hp Hl. unfold block_links, links_of. destruct (decide (i = j)) as [<-|].
  - rewrite lookup_alter_eq. destruct (m !! i); cbn; [by rewrite Hp, Hl|done].
  - by rewrite lookup_alter_ne.
Qed.

(** *** Taking a block out of its list and freeing it *)

Definition spliced m (i1 : list nat) (i : nat) (i2 : list nat) : gmap nat C :=
  let m := match last i1 with
         | Some p => alter (ln_set_last (head_or i2 None)) p m
         | None => m
         end in
  let m := match head i2 with
         | Some q => alter (ln_set_pre (last_or None i1)) q m
         | None => m
         end in
  delete i m.

Lemma spliced_lookup m i1 i i2 j :
  j ∉ i1 ++ i :: i2 → spliced m i1 i i2 !! j = m !! j.
Proof.
  intros Hj. unfold spliced. rewrite lookup_delete_ne by set_solver.
  destruct (last i1) as [p|] eqn:Ep, (head i2) as [q|] eqn:Eq;
  repeat rewrite lookup_alter_ne; try done;
  try (apply last_Some in Ep as [? ->]); try (apply head_Some in Eq as [? ->]);
  set_solver.
Qed.

Lemma spliced_self m i1 i i2 : spliced m i1 i i2 !! i = None.
Proof. apply lookup_delete_eq. Qed.

Lemma spliced_data {D} (d : C → D) m i1 i i2 j :
  (∀ v n, d (ln_set_pre v n) = d n) → (∀ v n, d (ln_set_last v n) = d n) →
  j ≠ i → d <$> spliced m i1 i i2 !! j = d <$> m !! j.
Proof.
  intros Hp Hl Hne. unfold spliced. rewrite lookup_delete_ne by done.
  assert (∀ f (m' : gmap nat C) p, (∀ n, d (f n) = d n) → d <$> alter f p m' !! j = d <$> m' !! j) as Ha.
  { intros f m' p Hf. destruct (decide (p = j)) as [<-|]; [|by rewrite lookup_alter_ne].
  rewrite lookup_alter_eq. destruct (m' !! p); cbn; [by rewrite Hf|done]. }
  destruct (last i1), (head i2); by rewrite ?Ha.
Qed.

Lemma spliced_dlist m h i1 i i2 :
  dlist (block_links m) h (i1 ++ i :: i2) → NoDup (i1 ++ i :: i2) →
  dlist (block_links (spliced m i1 i i2)) (head_or (i1 ++ i2) None) (i1 ++ i2).
Proof.
  intros Hd Hnd. destruct (nodup_middle _ _ _ Hnd) as (Hi1 & Hi2 & H12).
  eapply (dlist_unlink (block_links m)); [exact Hd|exact Hnd|..];
  unfold block_links, links_of.
  - intros p Hp. pose proof Hp as [l ->]%last_Some. unfold spliced.
  rewrite Hp, lookup_delete_ne by set_solver.
  destruct (head i2) as [q|] eqn:Eq.
  + apply head_Some in Eq as [i2' ->]. rewrite lookup_alter_ne by set_solver.
    rewrite lookup_alter_eq. destruct (m !! p); [|done]. cbn.
    by rewrite ln_pre_set_last, ln_last_set_last.
  + rewrite lookup_alter_eq. destruct (m !! p); [|done]. cbn.
    rewrite ln_pre_set_last, ln_last_set_last. by destruct i2.
  - intros q Hq. pose proof Hq as [l ->]%head_Some. unfold spliced.
  rewrite Hq, lookup_delete_ne by set_solver.
  rewrite lookup_alter_eq.
  destruct (last i1) as [p|] eqn:Ep.
  + apply last_Some in Ep as [i1' ->]. rewrite lookup_alter_ne by set_solver.
    destruct (m !! q); [|done]. cbn. by rewrite ln_pre_set_pre, ln_last_set_pre.
  + destruct (m !! q); [|done]. cbn. by rewrite ln_pre_set_pre, ln_last_set_pre.
  - intros j Hj Hp Hq. unfold spliced. rewrite lookup_delete_ne by set_solver.
  destruct (last i1) as [p|], (head i2) as [q|];
    repeat rewrite lookup_alter_ne by congruence; done.
Qed.

Lemma spliced_dom m i1 i i2 : dom (spliced m i1 i i2) = dom m ∖ {[i]}.
Proof.
  apply set_eq. intros j. rewrite elem_of_difference, elem_of_singleton, !elem_of_dom.
  unfold spliced. destruct (decide (i = j)) as [<-|Hj].
  - rewrite lookup_delete_eq. split; [by intros [? ?]|naive_solver].
  - rewrite lookup_delete_ne by done.
  destruct (last i1), (head i2); rewrite ?lookup_alter_is_Some; naive_solver.
Qed.

(** *** Appending a block *)

Definition appended m (ids : list nat) (j : nat) : gmap nat C :=
  alter (λ n, ln_set_last None (ln_set_pre (last ids) n)) j
  match last ids with
  | Some e => alter (ln_set_last (Some j)) e m
  | None => m
  end.

Lemma appended_lookup m ids j i :
  i ∉ ids → i ≠ j → appended m ids j !! i = m !! i.
Proof.
  intros Hi Hne. unfold appended. rewrite lookup_alter_ne by done.
  destruct (last ids) as [e|] eqn:Ee; [|done].
  apply last_Some in Ee as [l ->]. by rewrite lookup_alter_ne by set_solver.
Qed.

Lemma appended_data {D} (d : C → D) m ids j i :
  (∀ v n, d (ln_set_pre v n) = d n) → (∀ v n, d (ln_set_last v n) = d n) →
  d <$> appended m ids j !! i = d <$> m !! i.
Proof.
  intros Hp Hl. unfold appended.
  assert (∀ f (m' : gmap nat C) p, (∀ n, d (f n) = d n) → d <$> alter f p m' !! i = d <$> m' !! i) as Ha.
  { intros f m' p Hf. destruct (decide (p = i)) as [<-|]; [|by rewrite lookup_alter_ne].
  rewrite lookup_alter_eq. destruct (m' !! p); cbn; [by rewrite Hf|done]. }
  rewrite Ha by (intros n; by rewrite Hl, Hp). destruct (last ids); by rewrite ?Ha.
Qed.

Lemma appended_dlist m h ids j n :
  dlist (block_links m) h ids → NoDup ids → j ∉ ids → m !! j = Some n →
  dlist (block_links (appended m ids j)) (head_or ids (Some j)) (ids ++ [j]).
Proof.
  intros Hd Hnd Hj Hm. unfold appended.
  destruct ids as [|e ids _] using rev_ind.
  - cbn. split; [done|]. exists None. split; [|done].
  unfold block_links, links_of. rewrite lookup_alter_eq, Hm. cbn.
  by rewrite ln_pre_set_last, ln_pre_set_pre, ln_last_set_last.
  - pose proof (dseg_head _ _ _ _ _ Hd) as Hh. rewrite last_snoc.
  destruct (block_at _ _ _ ids e [] Hd) as (k & Hk & Hkp & Hkl).
  assert (e ≠ j) by set_solver.
  rewrite <- app_assoc, head_or_app in *. cbn in Hh |- *.
  replace (head_or ids (Some e)) with h by (by rewrite Hh).
  eapply (dlist_append (block_links m)); [exact Hd|..]; unfold block_links, links_of.
  + rewrite lookup_alter_ne, lookup_alter_eq, Hk by done. cbn.
    by rewrite ln_pre_set_last, ln_last_set_last, Hkp.
  + rewrite lookup_alter_eq, lookup_alter_ne, Hm by done. cbn.
    by rewrite ln_pre_set_last, ln_pre_set_pre, ln_last_set_last.
  + intros i Hi. rewrite lookup_alter_ne by set_solver.
    rewrite lookup_alter_ne; [done|].
    apply NoDup_app in Hnd as (_ & Hnd & _). intros <-. apply (Hnd e Hi). set_solver.
Qed.
End blocks.
