(* ===== verification/V1Data.v ===== *)
(** * inifile v1.0.0: heap, lists and searches

    Version 1 keeps its nodes in blocks of the heap ([malloc]/[free]); the
    strings are arrays inside the nodes.  A block is an entry of one of four
    maps, one per node type; access to an address that is not there is
    [Fault UseAfterFree], so a double [free] and a dangling pointer show up
    as faults.  [malloc] always returns a fresh address (the code does not
    handle failure).  Lines are those of v1.0.0/inifile.c. *)

From S2P Require Import Prelude CString DList FileSys.
From stdpp Require Import gmap strings.

Open Scope Z_scope.

(** ** Constants (inifile.h, lines 16-38) *)

Definition MAX_STRING_LEN : Z := 64.
Definition MAX_FILENAME_LEN : Z := 64.
Definition MAX_FILLINE_LEN : Z := 128.
Definition STRING_BUF : nat := 68.    (* char key[MAX_STRING_LEN+4] *)
Definition LINE_BUF : nat := 132.     (* char line[MAX_FILLINE_LEN+4] *)

Definition CONTENT_NEELINE : Z := 10.
Definition CONTENT_SPACE : Z := 32.
Definition CONTENT_TAB : Z := 9.
Definition CONTENT_NULL : Z := 0.
Definition CONTENT_SECTION : Z := 91.
Definition CONTENT_COMMA : Z := 59.
Definition CONTENT_EQUALITY : Z := 61.

(** [LineType] *)
Definition EMPTYLIST : Z := -5.
Definition WRITEERROR : Z := -4.
Definition REPEATNODEKEY : Z := -3.
Definition OPENFILEERROR : Z := -2.
Definition TOOLONG : Z := -1.
Definition ERRORTYPR : Z := 0.
Definition NODETYPE : Z := 1.
Definition KEYVALUE : Z := 2.
Definition NOTESTYPE : Z := 3.

Inductive METHOD_TYPE :=
  | initIniFile_type | getValueOfKey_type | updateValueOfKey_type | addValueOfKey_type
  | deleteValueOfKey_type | deleteSection_type | addSetction_type
  | exitOperationIniFile_type.

(** ** Blocks *)

Definition ptr : Type := option nat.

Record KeyValueNode := {
  k_key : list Z;
  k_value : list Z;
  k_isNote : Z;
  k_pre : ptr;
  k_next : ptr;
}.
Record ListkeyValueNode := { l_head : ptr; l_tail : ptr; l_len : Z }.
Record IniFileNode := {
  n_section : list Z;
  n_isNote : Z;
  n_list : ptr;
  n_pre : ptr;
  n_next : ptr;
}.
Record INI_FILE := {
  f_head : ptr;
  f_tail : ptr;
  f_fileName : list Z;
  f_len : Z;
}.

(** What the next call of [write] does: some bytes, an interrupt, an error;
    with none listed the whole buffer is written. *)
Inductive write_event := WBytes (n : nat) | WInterrupted | WError.

Record heap := Heap {
  h_files : gmap nat INI_FILE;
  h_nodes : gmap nat IniFileNode;
  h_lists : gmap nat ListkeyValueNode;
  h_kvs : gmap nat KeyValueNode;
  h_next : nat;                     (* addresses from here on are fresh *)
  h_fs : filesystem;
  h_writes : list write_event;
}.

Definition set_h_files m h := Heap m (h_nodes h) (h_lists h) (h_kvs h) (h_next h) (h_fs h) (h_writes h).
Definition set_h_nodes m h := Heap (h_files h) m (h_lists h) (h_kvs h) (h_next h) (h_fs h) (h_writes h).
Definition set_h_lists m h := Heap (h_files h) (h_nodes h) m (h_kvs h) (h_next h) (h_fs h) (h_writes h).
Definition set_h_kvs m h := Heap (h_files h) (h_nodes h) (h_lists h) m (h_next h) (h_fs h) (h_writes h).
Definition set_h_next n h := Heap (h_files h) (h_nodes h) (h_lists h) (h_kvs h) n (h_fs h) (h_writes h).
Definition set_h_fs f h := Heap (h_files h) (h_nodes h) (h_lists h) (h_kvs h) (h_next h) f (h_writes h).
Definition set_h_writes ws h := Heap (h_files h) (h_nodes h) (h_lists h) (h_kvs h) (h_next h) (h_fs h) ws.

(** Access to a block through a pointer. *)
Definition at_ptr {N} (get : heap → gmap nat N) (p : ptr) : M heap N := λ h,
  match p with
  | None => Fault NullDeref
  | Some i => match get h !! i with Some n => Done (n, h) | None => Fault UseAfterFree end
  end.
Definition upd_ptr {N} (get : heap → gmap nat N) (set : gmap nat N → heap → heap)
    (p : ptr) (f : N → N) : M heap unit := λ h,
  match p with
  | None => Fault NullDeref
  | Some i => match get h !! i with
              | Some n => Done (tt, set (<[i := f n]> (get h)) h)
              | None => Fault UseAfterFree
              end
  end.
(** [free(NULL)] does nothing. *)
Definition free_ptr {N} (get : heap → gmap nat N) (set : gmap nat N → heap → heap)
    (p : ptr) : M heap unit := λ h,
  match p with
  | None => Done (tt, h)
  | Some i => match get h !! i with
              | Some _ => Done (tt, set (delete i (get h)) h)
              | None => Fault UseAfterFree
              end
  end.
Definition malloc {N} (get : heap → gmap nat N) (set : gmap nat N → heap → heap)
    (n : N) : M heap nat := λ h,
  Done (h_next h, set_h_next (S (h_next h)) (set (<[h_next h := n]> (get h)) h)).

Definition get_kv := at_ptr h_kvs.
Definition upd_kv := upd_ptr h_kvs set_h_kvs.
Definition free_kv := free_ptr h_kvs set_h_kvs.
Definition malloc_kv := malloc h_kvs set_h_kvs.
Definition get_list := at_ptr h_lists.
Definition upd_list := upd_ptr h_lists set_h_lists.
Definition free_list := free_ptr h_lists set_h_lists.
Definition malloc_list := malloc h_lists set_h_lists.
Definition get_node := at_ptr h_nodes.
Definition upd_node := upd_ptr h_nodes set_h_nodes.
Definition free_node := free_ptr h_nodes set_h_nodes.
Definition malloc_node := malloc h_nodes set_h_nodes.
Definition get_file := at_ptr h_files.
Definition upd_file := upd_ptr h_files set_h_files.
Definition free_file := free_ptr h_files set_h_files.
Definition malloc_file := malloc h_files set_h_files.

(** Field assignments. *)
Definition k_set_key v n := Build_KeyValueNode v (k_value n) (k_isNote n) (k_pre n) (k_next n).
Definition k_set_value v n := Build_KeyValueNode (k_key n) v (k_isNote n) (k_pre n) (k_next n).
Definition k_set_isNote v n := Build_KeyValueNode (k_key n) (k_value n) v (k_pre n) (k_next n).
Definition k_set_pre v n := Build_KeyValueNode (k_key n) (k_value n) (k_isNote n) v (k_next n).
Definition k_set_next v n := Build_KeyValueNode (k_key n) (k_value n) (k_isNote n) (k_pre n) v.
Definition l_set_head v n := Build_ListkeyValueNode v (l_tail n) (l_len n).
Definition l_set_tail v n := Build_ListkeyValueNode (l_head n) v (l_len n).
Definition l_set_len v n := Build_ListkeyValueNode (l_head n) (l_tail n) v.
Definition n_set_section v n := Build_IniFileNode v (n_isNote n) (n_list n) (n_pre n) (n_next n).
Definition n_set_isNote v n := Build_IniFileNode (n_section n) v (n_list n) (n_pre n) (n_next n).
Definition n_set_list v n := Build_IniFileNode (n_section n) (n_isNote n) v (n_pre n) (n_next n).
Definition n_set_pre v n := Build_IniFileNode (n_section n) (n_isNote n) (n_list n) v (n_next n).
Definition n_set_next v n := Build_IniFileNode (n_section n) (n_isNote n) (n_list n) (n_pre n) v.
Definition f_set_head v n := Build_INI_FILE v (f_tail n) (f_fileName n) (f_len n).
Definition f_set_tail v n := Build_INI_FILE (f_head n) v (f_fileName n) (f_len n).
Definition f_set_len v n := Build_INI_FILE (f_head n) (f_tail n) (f_fileName n) v.

(** Blocks as [memset(p, 0, sizeof)] leaves them. *)
Definition zeros (n : nat) : list Z := replicate n 0.
Definition kv_zero : KeyValueNode :=
  Build_KeyValueNode (zeros STRING_BUF) (zeros STRING_BUF) 0 None None.
Definition node_zero : IniFileNode := Build_IniFileNode (zeros STRING_BUF) 0 None None None.

(** [len++] on an [int]. *)
Definition l_incr (n : ListkeyValueNode) : outcome ListkeyValueNode :=
  k ← int_add (l_len n) 1; mret (l_set_len k n).
Definition f_incr (n : INI_FILE) : outcome INI_FILE :=
  k ← int_add (f_len n) 1; mret (f_set_len k n).

(** ** Lists (lines 38-120) *)

(** The initialised blocks [listIniFileNode_init] and
    [listkeyValueNode_init] leave. *)
Definition listIniFileNode_init : INI_FILE :=
  Build_INI_FILE None None (zeros (Z.to_nat MAX_FILENAME_LEN)) 0.
Definition listkeyValueNode_init : ListkeyValueNode := Build_ListkeyValueNode None None 0.

(** True when the list is not empty. *)
Definition listIniFileNode_is_empty (l : INI_FILE) : bool :=
  match f_head l with None => false | Some _ => true end.
Definition listkeyValueNode_is_empty (l : ListkeyValueNode) : bool :=
  match l_head l with None => false | Some _ => true end.

Definition listIniFileNode_insert (list node : ptr) : M heap unit :=
  match list, node with
  | None, _ | _, None => mret tt
  | Some _, Some _ =>
      l ← get_file list;
      (if listIniFileNode_is_empty l then
         upd_node node (n_set_pre (f_tail l)) ;;
         upd_node (f_tail l) (n_set_next node) ;;
         upd_file list (f_set_tail node) ;;
         upd_node node (n_set_next None)
       else
         upd_file list (f_set_head node) ;;
         upd_file list (f_set_tail node) ;;
         upd_node node (n_set_pre None) ;;
         upd_node node (n_set_next None)) ;;
      l ← get_file list;
      l' ← lift (f_incr l);
      upd_file list (λ _, l')
  end.

Definition listkeyValueNode_insert (list node : ptr) : M heap unit :=
  match node, list with
  | None, _ | _, None => mret tt
  | Some _, Some _ =>
      l ← get_list list;
      (if listkeyValueNode_is_empty l then
         upd_kv node (k_set_pre (l_tail l)) ;;
         upd_kv (l_tail l) (k_set_next node) ;;
         upd_list list (l_set_tail node) ;;
         upd_kv node (k_set_next None)
       else
         upd_list list (l_set_head node) ;;
         upd_list list (l_set_tail node) ;;
         upd_kv node (k_set_pre None) ;;
         upd_kv node (k_set_next None)) ;;
      l ← get_list list;
      l' ← lift (l_incr l);
      upd_list list (λ _, l')
  end.

(** [while (p != NULL) { if (p == node) break; p = p->next; }] *)
Fixpoint find_ptr {N} (get : ptr → M heap N) (next : N → ptr) (fuel : nat) (p node : ptr)
  : M heap bool :=
  match p with
  | None => mret false
  | Some _ =>
      if decide (p = node) then mret true
      else match fuel with
           | O => λ _, NoFuel
           | S f => n ← get p; find_ptr get next f (next n) node
           end
  end.

(** The number of blocks bounds every walk over a list without a cycle; the
    extra step meets a pointer to a freed block. *)
Definition kv_fuel (h : heap) : nat := S (size (h_kvs h)).
Definition node_fuel (h : heap) : nat := S (size (h_nodes h)).

(** [listkeyValueNode_delete] (lines 124-177); the caller's pointer becomes
    NULL when the node was freed. *)
Definition listkeyValueNode_delete (list node : ptr) : M heap ptr :=
  match list, node with
  | None, _ | _, None => mret node
  | Some _, Some _ =>
      l ← get_list list;
      fuel ← gets kv_fuel;
      found ← find_ptr get_kv k_next fuel (l_head l) node;
      if negb found then mret node
      else if decide (l_head l = l_tail l ∧ l_head l ≠ None) then
        free_kv node ;;
        upd_list list (l_set_head None) ;;
        upd_list list (l_set_tail None) ;;
        mret None
      else
        n ← get_kv node;
        (match k_pre n with
         | Some _ => upd_kv (k_pre n) (k_set_next (k_next n))
         | None => upd_list list (l_set_head (k_next n)) ;;
                   upd_kv (k_next n) (k_set_pre None)
         end) ;;
        n ← get_kv node;
        (match k_next n with
         | Some _ => upd_kv (k_next n) (k_set_pre (k_pre n))
         | None => upd_list list (l_set_tail (k_pre n)) ;;
                   upd_kv (k_pre n) (k_set_next None)
         end) ;;
        free_kv node ;;
        mret None
  end.

(** The loop of [listkeyValueNode_deleteall]: free from the tail. *)
Fixpoint free_from_tail (fuel : nat) (list : ptr) : M heap unit :=
  l ← get_list list;
  (if decide (l_head l ≠ None ∧ l_head l ≠ l_tail l) then
     match fuel return M heap unit with
     | O => λ _, NoFuel
     | S f =>
         n ← get_kv (l_tail l);
         upd_list list (l_set_tail (k_pre n)) ;;
         free_kv (l_tail l) ;;
         free_from_tail f list
     end
   else mret tt).

(** [listkeyValueNode_deleteall] (lines 180-210) *)
Definition listkeyValueNode_deleteall (list : ptr) : M heap unit :=
  match list with
  | None => mret tt
  | Some _ =>
      l ← get_list list;
      if negb (listkeyValueNode_is_empty l) then free_list list
      else
        fuel ← gets kv_fuel;
        free_from_tail fuel list ;;
        l ← get_list list;
        free_kv (l_head l) ;;
        free_list list
  end.

(** [listIniFileNode_delete] (lines 213-258) *)
Definition listIniFileNode_delete (list node : ptr) : M heap unit :=
  match list, node with
  | None, _ | _, None => mret tt
  | Some _, Some _ =>
      l ← get_file list;
      fuel ← gets node_fuel;
      found ← find_ptr get_node n_next fuel (f_head l) node;
      if negb found then mret tt
      else if decide (f_head l = f_tail l) then free_node node
      else
        n ← get_node node;
        (match n_pre n with
         | Some _ => upd_node (n_pre n) (n_set_next (n_next n))
         | None => upd_file list (f_set_head (n_next n)) ;;
                   upd_node (n_next n) (n_set_pre None)
         end) ;;
        n ← get_node node;
        (match n_next n with
         | Some _ => upd_node (n_next n) (n_set_pre (n_pre n))
         | None => upd_file list (f_set_tail (n_pre n)) ;;
                   upd_node (n_pre n) (n_set_next None)
         end) ;;
        n ← get_node node;
        listkeyValueNode_deleteall (n_list n) ;;
        free_node node
  end.
