(* ===== verification/V1Ops.v ===== *)
(** * inifile v1.0.0: reading, writing and the operations

    The string helpers, the searches, the parsing of lines into nodes, the
    rewriting of the file from the lists, and the public operations
    (v1.0.0/inifile.c, lines 260-1105). *)

From S2P Require Import Prelude CString DList FileSys V1Data.
From stdpp Require Import gmap strings.

Open Scope Z_scope.

Definition is_blank1 (c : Z) : bool := (c =? CONTENT_SPACE) || (c =? CONTENT_TAB).

(** ** String helpers *)

(** The scan of [delete_spacetab_begin] from offset [p]. *)
Fixpoint spacetab_scan (s : list Z) (p : nat) : outcome (option nat) :=
  match s with
  | [] => Fault OutOfBounds
  | c :: s' =>
      if is_blank1 c then
        match s' with
        | [] => Fault OutOfBounds
        | c' :: _ => if c' =? CONTENT_NULL then Done None else spacetab_scan s' (S p)
        end
      else Done (Some p)
  end.

(** [delete_spacetab_begin] (lines 261-273): the offset of the first byte
    that is not blank. *)
Definition delete_spacetab_begin (line : list Z) : outcome (option nat) :=
  c ← rd line 0;
  if c =? CONTENT_NEELINE then mret None else spacetab_scan line 0.

(** [isKeyValueLine] (lines 276-290): the position of '=', 0 without one. *)
Fixpoint equality_scan (s : list Z) (index : Z) : outcome Z :=
  match s with
  | [] => Fault OutOfBounds
  | c :: s' =>
      if c =? CONTENT_EQUALITY then Done index
      else match s' with
           | [] => Fault OutOfBounds
           | c' :: _ => if c' =? 0 then Done 0 else equality_scan s' (index + 1)
           end
  end.
Definition isKeyValueLine (line : list Z) : outcome Z := equality_scan line 0.

Definition strlen (s : list Z) : outcome Z := n ← str_scan_len s; mret (Z.of_nat n).

(** [copyBeginEnd] (lines 294-299): [dest] after the [memcpy]. *)
Definition copyBeginEnd (dest sort : list Z) (begin : nat) (end_ : Z) : outcome (list Z) :=
  s ← mem_read (drop begin sort) (end_ - Z.of_nat begin); mem_write dest 0 s.

(** [strcpy] and [strcat] into an array. *)
Definition strcpy (dest src : list Z) : outcome (list Z) :=
  s ← c_str src; mem_write dest 0 (s ++ [0]).
Definition strcat (dest src : list Z) : outcome (list Z) :=
  e ← str_scan_len dest; s ← c_str src; mem_write dest e (s ++ [0]).

(** ** Searches (lines 302-387) *)

(** [while (com_len > len)]: only blanks are left. *)
Fixpoint rest_blank (stored : list Z) (p todo : nat) : outcome bool :=
  match todo with
  | O => Done true
  | S todo' => c ← rd stored p;
               if is_blank1 c then rest_blank stored (S p) todo' else Done false
  end.

(** The comparison both searches make: the name, then blanks. *)
Definition name_matches (name : list Z) (len : Z) (stored : list Z) : outcome bool :=
  r ← memcmp stored name len;
  if r =? 0 then
    com_len ← strlen stored;
    if com_len =? len then mret true
    else if len <? com_len then rest_blank stored (Z.to_nat len) (Z.to_nat (com_len - len))
    else mret false
  else mret false.

Fixpoint find_node {N} (get : ptr → M heap N) (next : N → ptr) (test : N → outcome bool)
    (fuel : nat) (p : ptr) : M heap ptr :=
  match p with
  | None => mret None
  | Some _ =>
      match fuel with
      | O => λ _, NoFuel
      | S f => n ← get p;
               b ← lift (test n);
               if (b : bool) then mret p else find_node get next test f (next n)
      end
  end.

Definition findIniKeyValue (iniFileNode : ptr) (key : option (list Z)) : M heap ptr :=
  match key with
  | None => fault_with NullDeref           (* strlen(NULL) *)
  | Some key =>
      len ← lift (strlen key);
      match iniFileNode with
      | None => mret None
      | Some _ =>
          n ← get_node iniFileNode;
          match n_list n with
          | None => mret None
          | Some _ =>
              l ← get_list (n_list n);
              if negb (listkeyValueNode_is_empty l) then mret None
              else
                fuel ← gets kv_fuel;
                find_node get_kv k_next (λ q, name_matches key len (k_key q)) fuel (l_head l)
          end
      end
  end.

Definition findIniFileNode (p_inifile : ptr) (section : option (list Z)) : M heap ptr :=
  match section with
  | None => fault_with NullDeref
  | Some section =>
      len ← lift (strlen section);
      match p_inifile with
      | None => mret None
      | Some _ =>
          f ← get_file p_inifile;
          if negb (listIniFileNode_is_empty f) then mret None
          else
            fuel ← gets node_fuel;
            find_node get_node n_next (λ p, name_matches section len (n_section p)) fuel
              (f_head f)
      end
  end.

(** ** Parsing lines (lines 390-530) *)

Definition initLineNode (p_inifile : ptr) (line : list Z) : M heap Z :=
  p ← malloc_node node_zero;
  let node := Some p in
  upd_node node (n_set_isNote 0) ;;
  len ← lift (strlen line);
  n ← get_node node;
  s ← lift (copyBeginEnd (n_section n) line 1 (len - 2));
  upd_node node (n_set_section s) ;;
  n ← get_node node;
  found ← findIniFileNode p_inifile (Some (n_section n));
  match found with
  | Some _ => free_node node ;; mret REPEATNODEKEY
  | None => listIniFileNode_insert p_inifile node ;; mret 0
  end.

(** A comment as a node, and as a pair. *)
Definition note_node (p_inifile : ptr) (line : list Z) : M heap unit :=
  p ← malloc_node node_zero;
  let node := Some p in
  upd_node node (n_set_isNote 1) ;;
  len ← lift (strlen line);
  n ← get_node node;
  s ← lift (copyBeginEnd (n_section n) line 1 len);
  upd_node node (n_set_section s) ;;
  listIniFileNode_insert p_inifile node.

Definition note_pair (list : ptr) (line : Datatypes.list Z) : M heap unit :=
  p ← malloc_kv kv_zero;
  let node := Some p in
  upd_kv node (k_set_isNote 1) ;;
  len ← lift (strlen line);
  n ← get_kv node;
  s ← lift (copyBeginEnd (k_key n) line 1 len);
  upd_kv node (k_set_key s) ;;
  listkeyValueNode_insert list node.

(** The node's list, allocated when there is none. *)
Definition ensure_list (node : ptr) : M heap unit :=
  n ← get_node node;
  match n_list n with
  | Some _ => mret tt
  | None => l ← malloc_list listkeyValueNode_init; upd_node node (n_set_list (Some l))
  end.

Definition initLineNotes (p_inifile : ptr) (line : list Z) : M heap unit :=
  f ← get_file p_inifile;
  match f_tail f with
  | None => note_node p_inifile line
  | Some _ =>
      t ← get_node (f_tail f);
      if n_isNote t =? 1 then note_node p_inifile line
      else
        ensure_list (f_tail f) ;;
        t ← get_node (f_tail f);
        note_pair (n_list t) line
  end.

(** The new pair: key before [index], value after it up to the last byte. *)
Definition pair_key (node : ptr) (line : list Z) (index : Z) : M heap unit :=
  n ← get_kv node;
  s ← lift (copyBeginEnd (k_key n) line 0 index);
  upd_kv node (k_set_key s).
Definition pair_value (node : ptr) (line : list Z) (index : Z) : M heap unit :=
  len ← lift (strlen line);
  n ← get_kv node;
  s ← lift (copyBeginEnd (k_value n) line (Z.to_nat (index + 1)) (len - 1));
  upd_kv node (k_set_value s).

Definition initLineKeyValue (p_inifile : ptr) (line : list Z) (index : Z) : M heap Z :=
  f ← get_file p_inifile;
  match f_tail f with
  | None => mret 0
  | Some _ =>
      t ← get_node (f_tail f);
      if n_isNote t =? 1 then mret 0
      else
        match n_list t with
        | None =>
            ensure_list (f_tail f) ;;
            p ← malloc_kv kv_zero;
            upd_kv (Some p) (k_set_isNote 0) ;;
            pair_key (Some p) line index ;;
            pair_value (Some p) line index ;;
            t ← get_node (f_tail f);
            listkeyValueNode_insert (n_list t) (Some p) ;;
            mret 0
        | Some _ =>
            p ← malloc_kv kv_zero;
            upd_kv (Some p) (k_set_isNote 0) ;;
            pair_key (Some p) line index ;;
            n ← get_kv (Some p);
            found ← findIniKeyValue (f_tail f) (Some (k_key n));
            match found with
            | Some _ => free_kv (Some p) ;; mret REPEATNODEKEY
            | None =>
                pair_value (Some p) line index ;;
                t ← get_node (f_tail f);
                listkeyValueNode_insert (n_list t) (Some p) ;;
                mret 0
            end
        end
  end.

Definition initLineContext (p_inifile : ptr) (line : list Z) : M heap Z :=
  p_char ← lift (delete_spacetab_begin line);
  match p_char with
  | None => mret ERRORTYPR
  | Some p =>
      let rest := drop p line in
      c ← lift (rd rest 0);
      c0 ← lift (rd line 0);
      if c =? CONTENT_NEELINE then mret ERRORTYPR
      else if c =? CONTENT_SECTION then
        len ← lift (strlen rest);
        if MAX_STRING_LEN + 2 <? len then mret TOOLONG
        else
          index ← initLineNode p_inifile rest;
          if index <? 0 then mret index else mret NODETYPE
      else if c0 =? CONTENT_COMMA then
        len ← lift (strlen line);
        if MAX_STRING_LEN <? len then mret TOOLONG
        else initLineNotes p_inifile line ;; mret NOTESTYPE
      else
        index ← lift (isKeyValueLine line);
        if 0 <? index then
          len ← lift (strlen line);
          if MAX_FILLINE_LEN <? len then mret TOOLONG
          else
            r ← initLineKeyValue p_inifile line index;
            if r <? 0 then mret r else mret KEYVALUE
        else mret ERRORTYPR
  end.

(** ** Reading the file (lines 546-566) *)

(** [fopen(name, "a+")]: creates the file when it is not there; reading
    starts at the beginning. *)
Definition fopen_a (fs : filesystem) (name : fname) : option (list Z * filesystem) :=
  if fs_read_ok fs name && fs_write_ok fs name then
    match fs_files fs !! name with
    | Some c => Some (c, fs)
    | None => Some ([], fs_set_files (<[name := []]> (fs_files fs)) fs)
    end
  else None.

(** The loop: every line is read into the zeroed array. *)
Fixpoint read_lines (p_inifile : ptr) (lines : list (list Z)) : M heap Z :=
  match lines with
  | [] => mret 0
  | l :: lines' =>
      result ← initLineContext p_inifile (fgets_into (zeros LINE_BUF) l);
      if result <? 0 then mret result else read_lines p_inifile lines'
  end.

Definition readIniFile (p_inifile : ptr) (filename : list Z) : M heap Z :=
  name ← lift (c_str filename);
  fs ← gets h_fs;
  match fopen_a fs name with
  | None => mret OPENFILEERROR
  | Some (content, fs') =>
      modify (set_h_fs fs') ;;
      read_lines p_inifile (fgets_lines (Z.to_nat MAX_FILLINE_LEN) content)
  end.

(** ** Freeing everything (lines 569-597) *)

Fixpoint destroy_from_tail (fuel : nat) (p_inifile : ptr) : M heap unit :=
  f ← get_file p_inifile;
  (if decide (f_tail f ≠ f_head f) then
     match fuel return M heap unit with
     | O => λ _, NoFuel
     | S fuel' =>
         n ← get_node (f_tail f);
         upd_file p_inifile (f_set_tail (n_pre n)) ;;
         listkeyValueNode_deleteall (n_list n) ;;
         free_node (f_tail f) ;;
         destroy_from_tail fuel' p_inifile
     end
   else mret tt).

Definition destoryListIniFileNode (p_inifile : ptr) : M heap unit :=
  match p_inifile with
  | None => mret tt
  | Some _ =>
      f ← get_file p_inifile;
      if negb (listIniFileNode_is_empty f) then free_file p_inifile
      else
        fuel ← gets node_fuel;
        destroy_from_tail fuel p_inifile ;;
        f ← get_file p_inifile;
        n ← get_node (f_head f);
        listkeyValueNode_deleteall (n_list n) ;;
        free_node (f_head f) ;;
        free_file p_inifile
  end.

(** ** Writing the file (lines 600-700) *)

(** One [write(fd, ptr, size)]: the bytes go to the end of the file. *)
Definition fs_append (name : fname) (s : list Z) (fs : filesystem) : filesystem :=
  fs_set_files (<[name := default [] (fs_files fs !! name) ++ s]> (fs_files fs)) fs.

Inductive write_result := Wrote (n : nat) | WroteIntr | WroteErr.

Definition write (name : fname) (s : list Z) : M heap write_result := λ h,
  match h_writes h with
  | [] => Done (Wrote (length s), set_h_fs (fs_append name s (h_fs h)) h)
  | WBytes n :: ws =>
      Done (Wrote (min n (length s)),
            set_h_writes ws (set_h_fs (fs_append name (take n s) (h_fs h)) h))
  | WInterrupted :: ws => Done (WroteIntr, set_h_writes ws h)
  | WError :: ws => Done (WroteErr, set_h_writes ws h)
  end.

(** [while (bytes_write = write(...))]: 0 when the loop is left, with all
    bytes written or with a [write] that wrote none. *)
Fixpoint write_loop (fuel : nat) (name : fname) (s : list Z) : M heap Z :=
  r ← write name s;
  match r return M heap Z with
  | WroteErr => mret WRITEERROR
  | WroteIntr => match fuel with O => λ _, NoFuel | S f => write_loop f name s end
  | Wrote n =>
      if decide (n = O ∨ n = length s) then mret 0
      else match fuel with O => λ _, NoFuel | S f => write_loop f name (drop n s) end
  end.

Definition write_buffer (name : fname) (buffer : list Z) : M heap Z :=
  s ← lift (c_str buffer);
  fuel ← gets (λ h, length (h_writes h));
  write_loop fuel name s.

(** The text of a node and of a pair, built in the 132-byte buffer. *)
Definition node_text (n : IniFileNode) : outcome (list Z) :=
  b ← strcpy (zeros LINE_BUF) (c_lit (String (Ascii.ascii_of_nat 10) ""));
  b ← (if n_isNote n =? 1 then
         b ← strcat b (c_lit ";"); b ← strcat b (n_section n);
         strcat b (c_lit (String (Ascii.ascii_of_nat 10) ""))
       else mret b);
  if n_isNote n =? 0 then
    b ← strcat b (c_lit "["); b ← strcat b (n_section n); b ← strcat b (c_lit "]");
    strcat b (c_lit (String (Ascii.ascii_of_nat 10) ""))
  else mret b.

Definition pair_text (q : KeyValueNode) : outcome (list Z) :=
  b ← (if k_isNote q =? 1 then
         b ← strcpy (zeros LINE_BUF) (c_lit ";"); b ← strcat b (k_key q);
         strcat b (c_lit (String (Ascii.ascii_of_nat 10) ""))
       else mret (zeros LINE_BUF));
  if k_isNote q =? 0 then
    b ← strcpy b (k_key q); b ← strcat b (c_lit "="); b ← strcat b (k_value q);
    strcat b (c_lit (String (Ascii.ascii_of_nat 10) ""))
  else mret b.

Fixpoint write_pairs (fuel : nat) (name : fname) (q : ptr) : M heap Z :=
  match q with
  | None => mret 0
  | Some _ =>
      match fuel with
      | O => λ _, NoFuel
      | S f =>
          n ← get_kv q;
          b ← lift (pair_text n);
          r ← write_buffer name b;
          if r <? 0 then mret r else write_pairs f name (k_next n)
      end
  end.

Fixpoint write_nodes (fuel kvfuel : nat) (name : fname) (p : ptr) : M heap Z :=
  match p with
  | None => mret 0
  | Some _ =>
      match fuel with
      | O => λ _, NoFuel
      | S f =>
          n ← get_node p;
          b ← lift (node_text n);
          r ← write_buffer name b;
          if r <? 0 then mret r
          else
            r ← (match n_list n with
                 | None => mret 0
                 | Some _ => l ← get_list (n_list n); write_pairs kvfuel name (l_head l)
                 end);
            if r <? 0 then mret r else write_nodes f kvfuel name (n_next n)
      end
  end.

(** [open(name, O_RDWR|O_TRUNC)] *)
Definition open_trunc (fs : filesystem) (name : fname) : option filesystem :=
  match fs_files fs !! name with
  | Some _ => if fs_read_ok fs name && fs_write_ok fs name
              then Some (fs_set_files (<[name := []]> (fs_files fs)) fs) else None
  | None => None
  end.

Definition updateIniFile (p_inifile : ptr) : M heap Z :=
  f ← get_file p_inifile;
  if negb (listIniFileNode_is_empty f) then mret EMPTYLIST
  else
    name ← lift (c_str (f_fileName f));
    fs ← gets h_fs;
    match open_trunc fs name with
    | None => mret OPENFILEERROR
    | Some fs' =>
        modify (set_h_fs fs') ;;
        fuel ← gets node_fuel;
        kvfuel ← gets kv_fuel;
        write_nodes fuel kvfuel name (f_head f)
    end.

(** ** Parameters (lines 702-839) *)

Record INI_PARAMETER := {
  p_section : option (list Z);
  p_section_len : Z;
  p_key : option (list Z);
  p_key_len : Z;
  p_value : option (list Z);
  p_value_len : Z;
}.

(** [len <= 0 || len > MAX_STRING_LEN] *)
Definition bad_len (len : Z) : bool := (len <=? 0) || (MAX_STRING_LEN <? len).
Definition is_null (p : option (list Z)) : bool :=
  match p with None => true | Some _ => false end.
(** [p_char = p + len; *p_char != '\0'] *)
Definition ends_at (p : option (list Z)) (len : Z) : outcome bool :=
  match p with
  | None => Fault NullDeref
  | Some b => if len <? 0 then Fault OutOfBounds
              else c ← rd b (Z.to_nat len); mret (c =? 0)
  end.

Definition ini_parameter_check (parameter : option INI_PARAMETER) (type : METHOD_TYPE)
  : outcome bool :=
  match parameter with
  | None => match type with
            | initIniFile_type | exitOperationIniFile_type => mret false
            | _ => Fault NullDeref
            end
  | Some p =>
      let sec_ok := ends_at (p_section p) (p_section_len p) in
      let key_ok := ends_at (p_key p) (p_key_len p) in
      let val_ok := ends_at (p_value p) (p_value_len p) in
      match type with
      | getValueOfKey_type | deleteValueOfKey_type =>
          if is_null (p_section p) || is_null (p_key p) || bad_len (p_section_len p)
             || bad_len (p_key_len p) then mret false
          else
            s ← sec_ok; if negb s then mret false else key_ok
      | updateValueOfKey_type | addValueOfKey_type =>
          if is_null (p_section p) || is_null (p_key p) || is_null (p_value p)
             || bad_len (p_section_len p) || bad_len (p_key_len p)
             || bad_len (p_value_len p) then mret false
          else
            s ← sec_ok; if negb s then mret false
            else k ← key_ok; if negb k then mret false else val_ok
      | deleteSection_type | addSetction_type =>
          if is_null (p_section p) || bad_len (p_section_len p) then mret false
          else
            s ← sec_ok; if negb s then mret false else key_ok
      | initIniFile_type | exitOperationIniFile_type => mret false
      end
  end.

(** ** The operations (lines 842-1105) *)

Definition initIniFile (fileName : option (list Z)) (len : Z) : M heap ptr :=
  match fileName with
  | None => mret None
  | Some name_buf =>
      if (MAX_FILENAME_LEN <? len) || (len <=? 0) then mret None
      else
        e ← lift (ends_at fileName len);
        if negb e then mret None
        else
          name ← lift (c_str name_buf);
          fs ← gets h_fs;
          if negb (access_rw fs name =? 0) then mret None
          else
            p ← malloc_file listIniFileNode_init;
            f ← get_file (Some p);
            s ← lift (mem_read name_buf len);
            b ← lift (mem_write (f_fileName f) 0 s);
            upd_file (Some p)
              (λ f, Build_INI_FILE (f_head f) (f_tail f) b (f_len f)) ;;
            result ← readIniFile (Some p) name_buf;
            if result <? 0 then mret None else mret (Some p)
  end.

(** [!p_inifile || !ini_parameter_check(...)] *)
Definition bad_call (p_inifile : ptr) (parameter : option INI_PARAMETER) (type : METHOD_TYPE)
  : M heap bool :=
  match p_inifile with
  | None => mret true
  | Some _ => b ← lift (ini_parameter_check parameter type); mret (negb b)
  end.
Definition the_section (par : option INI_PARAMETER) : option (list Z) := par ≫= p_section.
Definition the_key (par : option INI_PARAMETER) : option (list Z) := par ≫= p_key.

(** The returned [char *]: the pair and the offset in its value. *)
Definition getValueOfKey (p_inifile : ptr) (parameter : option INI_PARAMETER)
  : M heap (option (nat * nat)) :=
  bad ← bad_call p_inifile parameter getValueOfKey_type;
  if (bad : bool) then mret None
  else
    p ← findIniFileNode p_inifile (the_section parameter);
    match p with
    | None => mret None
    | Some _ =>
        q ← findIniKeyValue p (the_key parameter);
        match q with
        | None => mret None
        | Some i => n ← get_kv q;
                    off ← lift (delete_spacetab_begin (k_value n));
                    mret ((λ o, (i, o)) <$> off)
        end
    end.

(** [*p = ' '; memcpy(p + 1, value, len); p[1 + len] = '\n';] *)
Definition put_value (buf : list Z) (value : option (list Z)) (len : Z) : outcome (list Z) :=
  match value with
  | None => Fault NullDeref
  | Some v =>
      b ← mem_write buf 0 [CONTENT_SPACE];
      s ← mem_read v len;
      b ← mem_write b 1 s;
      mem_write b (1 + length s) [CONTENT_NEELINE]
  end.

Definition par_value (par : option INI_PARAMETER) : option (list Z) := par ≫= p_value.
Definition par_value_len (par : option INI_PARAMETER) : Z :=
  match par with Some p => p_value_len p | None => 0 end.
Definition par_key_len (par : option INI_PARAMETER) : Z :=
  match par with Some p => p_key_len p | None => 0 end.
Definition par_section_len (par : option INI_PARAMETER) : Z :=
  match par with Some p => p_section_len p | None => 0 end.

Definition updateValueOfKey (p_inifile : ptr) (parameter : option INI_PARAMETER) : M heap Z :=
  bad ← bad_call p_inifile parameter updateValueOfKey_type;
  if (bad : bool) then mret (-1)
  else
    p ← findIniFileNode p_inifile (the_section parameter);
    match p with
    | None => mret (-2)
    | Some _ =>
        q ← findIniKeyValue p (the_key parameter);
        match q with
        | None => mret (-3)
        | Some _ =>
            n ← get_kv q;
            b ← lift (mem_write (k_value n) 0 (zeros (Z.to_nat MAX_STRING_LEN)));
            b ← lift (put_value b (par_value parameter) (par_value_len parameter));
            upd_kv q (k_set_value b) ;;
            _ ← updateIniFile p_inifile;
            mret 0
        end
    end.

Definition addValueOfKey (p_inifile : ptr) (parameter : option INI_PARAMETER) : M heap Z :=
  bad ← bad_call p_inifile parameter addValueOfKey_type;
  if (bad : bool) then mret (-1)
  else
    p ← findIniFileNode p_inifile (the_section parameter);
    match p with
    | None => mret (-2)
    | Some _ =>
        q ← findIniKeyValue p (the_key parameter);
        match q with
        | Some _ => mret (-3)
        | None =>
            i ← malloc_kv kv_zero;
            n ← get_kv (Some i);
            s ← lift (match the_key parameter with
                      | None => Fault NullDeref
                      | Some k => mem_read k (par_key_len parameter)
                      end);
            b ← lift (mem_write (k_key n) 0 s);
            b ← lift (mem_write b (length s) [CONTENT_TAB]);
            upd_kv (Some i) (k_set_key b) ;;
            b ← lift (put_value (k_value n) (par_value parameter) (par_value_len parameter));
            upd_kv (Some i) (k_set_value b) ;;
            ensure_list p ;;
            m ← get_node p;
            listkeyValueNode_insert (n_list m) (Some i) ;;
            _ ← updateIniFile p_inifile;
            mret 0
        end
    end.

Definition deleteValueOfKey (p_inifile : ptr) (parameter : option INI_PARAMETER) : M heap Z :=
  bad ← bad_call p_inifile parameter deleteValueOfKey_type;
  if (bad : bool) then mret (-1)
  else
    p ← findIniFileNode p_inifile (the_section parameter);
    match p with
    | None => mret (-2)
    | Some _ =>
        q ← findIniKeyValue p (the_key parameter);
        match q with
        | None => mret (-3)
        | Some _ =>
            m ← get_node p;
            _ ← listkeyValueNode_delete (n_list m) q;
            _ ← updateIniFile p_inifile;
            mret 0
        end
    end.

Definition deleteSection (p_inifile : ptr) (parameter : option INI_PARAMETER) : M heap Z :=
  bad ← bad_call p_inifile parameter deleteSection_type;
  if (bad : bool) then mret (-1)
  else
    p ← findIniFileNode p_inifile (the_section parameter);
    match p with
    | None => mret (-2)
    | Some _ =>
        listIniFileNode_delete p_inifile p ;;
        _ ← updateIniFile p_inifile;
        mret 0
    end.

Definition addSetction (p_inifile : ptr) (parameter : option INI_PARAMETER) : M heap Z :=
  bad ← bad_call p_inifile parameter addSetction_type;
  if (bad : bool) then mret (-1)
  else
    p ← findIniFileNode p_inifile (the_section parameter);
    match p with
    | Some _ => mret (-2)
    | None =>
        i ← malloc_node node_zero;
        upd_node (Some i) (n_set_isNote 0) ;;
        n ← get_node (Some i);
        s ← lift (match the_section parameter with
                  | None => Fault NullDeref
                  | Some b => copyBeginEnd (n_section n) b 0 (par_section_len parameter)
                  end);
        upd_node (Some i) (n_set_section s) ;;
        found ← findIniFileNode p_inifile (Some s);
        match found with
        | Some _ => free_node (Some i) ;; mret (-1)
        | None =>
            listIniFileNode_insert p_inifile (Some i) ;;
            _ ← updateIniFile p_inifile;
            mret 0
        end
    end.

(** The caller's pointer is NULL afterwards. *)
Definition exitOperationIniFile (p_inifile : ptr) : M heap (Z * ptr) :=
  match p_inifile with
  | None => mret (-1, None)
  | Some _ => destoryListIniFileNode p_inifile ;; mret (0, None)
  end.
