(* ===== verification/V1Rep.v ===== *)
(** * inifile v1.0.0: what the blocks represent

    A file of version 1 is a list of nodes (sections and comments), each with
    an optional list of pairs.  [file_rep h fp name ns] relates the blocks
    reached from the file block [fp] to the abstract nodes [ns]; [list_ok]
    does so for one list of pairs.  The lemmas run the accesses of the code
    and show what an operation leaves alone. *)

From S2P Require Import Prelude CString DList Blocks FileSys V1Data.
From stdpp Require Import gmap.

Open Scope Z_scope.

(** ** The links of the two block types *)

#[export] Instance kv_linked : LinkedNode KeyValueNode := {|
  ln_pre := k_pre; ln_last := k_next; ln_set_pre := k_set_pre; ln_set_last := k_set_next;
  ln_zero := kv_zero;
  ln_pre_set_pre _ _ := eq_refl; ln_pre_set_last _ _ := eq_refl;
  ln_last_set_pre _ _ := eq_refl; ln_last_set_last _ _ := eq_refl;
|}.
#[export] Instance node_linked : LinkedNode IniFileNode := {|
  ln_pre := n_pre; ln_last := n_next; ln_set_pre := n_set_pre; ln_set_last := n_set_next;
  ln_zero := node_zero;
  ln_pre_set_pre _ _ := eq_refl; ln_pre_set_last _ _ := eq_refl;
  ln_last_set_pre _ _ := eq_refl; ln_last_set_last _ _ := eq_refl;
|}.

(** ** Accesses *)

Lemma insert_is_alter {N} (f : N → N) (m : gmap nat N) i n :
  m !! i = Some n → <[i := f n]> m = alter f i m.
Proof.
  intros Hn. apply map_eq. intros j. destruct (decide (i = j)) as [<-|].
  - by rewrite lookup_insert_eq, lookup_alter_eq, Hn.
  - by rewrite lookup_insert_ne, lookup_alter_ne.
Qed.

Section accesses.
Context {N : Type} (get : heap → gmap nat N) (set : gmap nat N → heap → heap).

Lemma at_ptr_ok h i n : get h !! i = Some n → at_ptr get (Some i) h = Done (n, h).
Proof. intros H. unfold at_ptr. by rewrite H. Qed.

Lemma upd_ptr_ok h i n f :
  get h !! i = Some n →
  upd_ptr get set (Some i) f h = Done (tt, set (alter f i (get h)) h).
Proof. intros H. unfold upd_ptr. by rewrite H, insert_is_alter. Qed.

Lemma free_ptr_ok h i n :
  get h !! i = Some n → free_ptr get set (Some i) h = Done (tt, set (delete i (get h)) h).
Proof. intros H. unfold free_ptr. by rewrite H. Qed.
End accesses.

Definition get_kv_ok := at_ptr_ok h_kvs.
Definition upd_kv_ok := upd_ptr_ok h_kvs set_h_kvs.
Definition free_kv_ok := free_ptr_ok h_kvs set_h_kvs.
Definition get_list_ok := at_ptr_ok h_lists.
Definition upd_list_ok := upd_ptr_ok h_lists set_h_lists.
Definition free_list_ok := free_ptr_ok h_lists set_h_lists.
Definition get_node_ok := at_ptr_ok h_nodes.
Definition upd_node_ok := upd_ptr_ok h_nodes set_h_nodes.
Definition free_node_ok := free_ptr_ok h_nodes set_h_nodes.
Definition get_file_ok := at_ptr_ok h_files.
Definition upd_file_ok := upd_ptr_ok h_files set_h_files.
Definition free_file_ok := free_ptr_ok h_files set_h_files.

(** ** Abstract nodes and pairs *)

Record pair1 := PAIR { e_id : nat; e_key : list Z; e_val : list Z; e_note : Z }.
Record node1 := NODE {
  s_id : nat;
  s_name : list Z;
  s_note : Z;
  s_list : option (nat * list pair1);
}.

Definition node_pairs (y : node1) : list pair1 :=
  match s_list y with Some (_, es) => es | None => [] end.
Definition node_lists (y : node1) : list nat :=
  match s_list y with Some (l, _) => [l] | None => [] end.
Definition list_ids (ns : list node1) : list nat := ns ≫= node_lists.
Definition pair_ids (ns : list node1) : list nat := ns ≫= λ y, e_id <$> node_pairs y.

(** What a pair's block holds besides its links. *)
Definition kv_content (q : KeyValueNode) := (k_key q, k_value q, k_isNote q).
Definition node_content (n : IniFileNode) := (n_section n, n_isNote n, n_list n).

(** A string array of 68 bytes that holds [s]. *)
Definition holds (b s : list Z) : Prop := c_str b = Done s ∧ length b = STRING_BUF.

Definition pair_ok (m : gmap nat KeyValueNode) (e : pair1) : Prop :=
  ∃ key value, kv_content <$> m !! e_id e = Some (key, value, e_note e) ∧
    holds key (e_key e) ∧ holds value (e_val e).

Definition list_ok (h : heap) (l : nat) (es : list pair1) : Prop :=
  ∃ L, h_lists h !! l = Some L ∧
    dlist (block_links (h_kvs h)) (l_head L) (e_id <$> es) ∧
    l_tail L = last (e_id <$> es) ∧ Forall (pair_ok (h_kvs h)) es.

Definition node_ok (h : heap) (y : node1) : Prop :=
  ∃ sec, node_content <$> h_nodes h !! s_id y = Some (sec, s_note y, fst <$> s_list y) ∧
    holds sec (s_name y) ∧
    match s_list y with Some (l, es) => list_ok h l es | None => True end.

(** The file block [fp] and everything reached from it. *)
Record file_rep (h : heap) (fp : nat) (name : list Z) (ns : list node1) : Prop := {
  fr_file : ∃ F, h_files h !! fp = Some F ∧
    dlist (block_links (h_nodes h)) (f_head F) (s_id <$> ns) ∧
    f_tail F = last (s_id <$> ns) ∧ c_str (f_fileName F) = Done name;
  fr_nodes : Forall (node_ok h) ns;
  fr_node_ids : NoDup (s_id <$> ns);
  fr_list_ids : NoDup (list_ids ns);
  fr_pair_ids : NoDup (pair_ids ns);
}.

(** ** Frames *)

Lemma pair_ok_frame m m' e :
  kv_content <$> m' !! e_id e = kv_content <$> m !! e_id e → pair_ok m e → pair_ok m' e.
Proof. intros H (k & v & Hq & Hk & Hv). exists k, v. by rewrite H. Qed.

Lemma list_ok_frame h h' l es :
  h_lists h' !! l = h_lists h !! l →
  (∀ i, i ∈ e_id <$> es → h_kvs h' !! i = h_kvs h !! i) →
  list_ok h l es → list_ok h' l es.
Proof.
  intros Hl Hk (L & HL & Hd & Ht & Hes). exists L. rewrite Hl. split; [done|].
  split; [by eapply block_links_frame|]. split; [done|].
  rewrite Forall_forall in *. intros e He. eapply pair_ok_frame; [|by apply Hes].
  rewrite Hk; [done|]. apply list_elem_of_fmap. eauto.
Qed.

Lemma node_ok_frame h h' y :
  node_content <$> h_nodes h' !! s_id y = node_content <$> h_nodes h !! s_id y →
  (∀ l, l ∈ node_lists y → h_lists h' !! l = h_lists h !! l) →
  (∀ i, i ∈ e_id <$> node_pairs y → h_kvs h' !! i = h_kvs h !! i) →
  node_ok h y → node_ok h' y.
Proof.
  intros Hn Hl Hk (sec & Hs & Hsec & Hlist). exists sec. rewrite Hn. split; [done|].
  split; [done|]. unfold node_lists, node_pairs in *. destruct (s_list y) as [[l es]|]; [|done].
  eapply list_ok_frame; [|done|done]. apply Hl. set_solver.
Qed.

(** ** Members *)

Lemma list_ids_app a b : list_ids (a ++ b) = list_ids a ++ list_ids b.
Proof. apply bind_app. Qed.
Lemma pair_ids_app a b : pair_ids (a ++ b) = pair_ids a ++ pair_ids b.
Proof. apply bind_app. Qed.
Lemma list_ids_cons y b : list_ids (y :: b) = node_lists y ++ list_ids b.
Proof. done. Qed.
Lemma pair_ids_cons y b : pair_ids (y :: b) = (e_id <$> node_pairs y) ++ pair_ids b.
Proof. done. Qed.

Lemma elem_of_list_ids ns y l : y ∈ ns → l ∈ node_lists y → l ∈ list_ids ns.
Proof. intros Hy Hl. apply list_elem_of_bind. eauto. Qed.
Lemma elem_of_pair_ids ns y i : y ∈ ns → i ∈ e_id <$> node_pairs y → i ∈ pair_ids ns.
Proof. intros Hy Hl. apply list_elem_of_bind. eauto. Qed.

(** What belongs to one node belongs to no other. *)
Lemma ids_apart a y b :
  NoDup (list_ids (a ++ y :: b)) → NoDup (pair_ids (a ++ y :: b)) →
  NoDup (e_id <$> node_pairs y) ∧
  (∀ z, z ∈ a ++ b → (∀ l, l ∈ node_lists z → l ∉ node_lists y) ∧
                     (∀ i, i ∈ e_id <$> node_pairs z → i ∉ e_id <$> node_pairs y)).
Proof.
  rewrite list_ids_app, pair_ids_app, list_ids_cons, pair_ids_cons. intros Hl Hp.
  apply NoDup_app in Hl as (_ & Hl1 & Hl2). apply NoDup_app in Hl2 as (_ & Hl2 & _).
  apply NoDup_app in Hp as (_ & Hp1 & Hp2). apply NoDup_app in Hp2 as (Hy & Hp2 & _).
  split; [done|]. intros z Hz. apply elem_of_app in Hz as [Hz|Hz]; split; intros i Hi Hiy.
  - apply (Hl1 i); [by eapply elem_of_list_ids|]. apply elem_of_app. by left.
  - apply (Hp1 i); [by eapply elem_of_pair_ids|]. apply elem_of_app. by left.
  - apply (Hl2 i); [done|by eapply elem_of_list_ids].
  - apply (Hp2 i); [done|by eapply elem_of_pair_ids].
Qed.

Lemma list_ok_ids h l es : list_ok h l es → ∀ i, i ∈ e_id <$> es → is_Some (h_kvs h !! i).
Proof. intros (L & _ & Hd & _) i Hi. by eapply block_there. Qed.

Lemma list_ok_fuel h l es :
  list_ok h l es → NoDup (e_id <$> es) → (length es ≤ kv_fuel h)%nat.
Proof.
  intros Hl Hnd. rewrite <- (length_fmap e_id). apply ids_size; [done|].
  by eapply list_ok_ids.
Qed.
