(* ===== verification/V1List.v ===== *)
(** * inifile v1.0.0: the list operations

    What inserting, deleting and freeing do to the heap: the run of each
    operation as one equation on the maps, for lists as [list_ok] and
    [file_rep] describe them. *)

From S2P Require Import Prelude CString DList FileSys Blocks V1Data V1Ops V1Rep.
From stdpp Require Import gmap.

Open Scope Z_scope.

(** ** Searching a block by its address *)

Section find_block.
Context {N : Type} `{!LinkedNode N} (get : heap → gmap nat N).

Lemma find_ptr_member fuel prev h0 ids i h :
  dseg (block_links (get h)) prev h0 ids None → i ∈ ids → (length ids ≤ fuel)%nat →
  find_ptr (at_ptr get) ln_last fuel h0 (Some i) h = Done (true, h).
Proof.
  revert prev h0 fuel; induction ids as [|j ids IH]; intros prev h0 fuel Hd Hi Hf; [set_solver|].
  destruct Hd as (-> & n & Hn & Hd). cbn in Hf. destruct fuel as [|fuel]; [lia|].
  cbn [find_ptr]. case_decide as E; [done|].
  apply fmap_Some in Hn as (m & Hm & [= _ ->]).
  run (at_ptr_ok get h j m Hm). apply (IH (Some j)); [done| |lia].
  apply elem_of_cons in Hi as [->|]; done.
Qed.
End find_block.

(** ** Deleting a pair from its list *)

(** In a list of two blocks or more the first is not the last. *)
Lemma head_ne_last (ids : list nat) :
  NoDup ids → (2 ≤ length ids)%nat → head_or ids None ≠ last ids.
Proof.
  destruct ids as [|x [|y l]]; cbn [length]; [lia..|]. intros [H _]%NoDup_cons _ E.
  rewrite last_cons_cons in E. symmetry in E. apply last_Some_elem_of in E. done.
Qed.

Lemma alter_idem {N} (f : N → N) (m : gmap nat N) i :
  (∀ n, f (f n) = f n) → alter f i (alter f i m) = alter f i m.
Proof.
  intros Hf. apply map_eq. intros j. destruct (decide (i = j)) as [<-|].
  - rewrite !lookup_alter_eq. destruct (m !! i); cbn; [by rewrite Hf|done].
  - by rewrite !lookup_alter_ne.
Qed.

(** Assigning the fields of one list block. *)
Lemma alter_list_block (f g : ListkeyValueNode → ListkeyValueNode)
    (m : gmap nat ListkeyValueNode) l L :
  m !! l = Some L → alter f l (alter g l m) = <[l := f (g L)]> m.
Proof.
  intros HL. apply map_eq. intros j. destruct (decide (l = j)) as [<-|].
  - by rewrite !lookup_alter_eq, HL, lookup_insert_eq.
  - by rewrite !lookup_alter_ne, lookup_insert_ne.
Qed.

Section delete_pair.
Context (h : heap) (l : nat) (L : ListkeyValueNode) (i1 : list nat) (i : nat) (i2 : list nat).
Hypothesis HL : h_lists h !! l = Some L.
Hypothesis Hd : dlist (block_links (h_kvs h)) (l_head L) (i1 ++ i :: i2).
Hypothesis Ht : l_tail L = last (i1 ++ i :: i2).
Hypothesis Hnd : NoDup (i1 ++ i :: i2).

(** The list block and the blocks of the pairs afterwards. *)
Definition list_without : ListkeyValueNode :=
  Build_ListkeyValueNode (head_or (i1 ++ i2) None) (last (i1 ++ i2)) (l_len L).
Definition heap_without : heap :=
  set_h_lists (<[l := list_without]> (h_lists h)) (set_h_kvs (spliced (h_kvs h) i1 i i2) h).

Lemma delete_found :
  find_ptr get_kv k_next (kv_fuel h) (l_head L) (Some i) h = Done (true, h).
Proof using Hd Hnd.
  apply (find_ptr_member h_kvs (kv_fuel h) None _ (i1 ++ i :: i2) i h Hd).
  { apply elem_of_app. right. by left. }
  apply ids_size; [done|]. intros j Hj. by eapply block_there.
Qed.

Lemma one_pair : i1 = [] → i2 = [] → l_head L = l_tail L ∧ l_head L ≠ None.
Proof using Hd Ht Hnd. intros -> ->. destruct Hd as [-> _]. by rewrite Ht. Qed.

Lemma more_pairs : (2 ≤ length (i1 ++ i :: i2))%nat → ¬ (l_head L = l_tail L ∧ l_head L ≠ None).
Proof using Hd Ht Hnd.
  intros Hlen [E _]. rewrite Ht, (dseg_head _ _ _ _ _ Hd) in E. by apply head_ne_last in E.
Qed.

Lemma pair_block : ∃ n, h_kvs h !! i = Some n ∧ k_pre n = last_or None i1 ∧ k_next n = head_or i2 None.
Proof using Hd. exact (block_at _ _ _ _ _ _ Hd). Qed.

(** A neighbour of the deleted pair. *)
Lemma neighbour j : j ∈ i1 ++ i2 → is_Some (h_kvs h !! j) ∧ i ≠ j.
Proof using Hd Hnd.
  intros Hj. split.
  - eapply block_there; [exact Hd|]. apply elem_of_app in Hj as [?|?]; apply elem_of_app;
    [by left|right; by right].
  - intros <-. destruct (nodup_middle _ _ _ Hnd) as (H1 & H2 & _).
  apply elem_of_app in Hj as [?|?]; done.
Qed.

(** *** The four places a pair can have in its list *)

Lemma delete_run_only :
  i1 = [] → i2 = [] → listkeyValueNode_delete (Some l) (Some i) h = Done (None, heap_without).
Proof using HL Hd Ht Hnd.
  intros E1 E2. destruct pair_block as (n & Hn & _).
  unfold listkeyValueNode_delete. run (get_list_ok h l L HL). rewrite M_bind_gets.
  run delete_found. cbn [negb]. rewrite (decide_True _ _ (one_pair E1 E2)).
  run (free_kv_ok h i n Hn).
  run (upd_list_ok (set_h_kvs (delete i (h_kvs h)) h) l L (l_set_head None) HL).
  erewrite M_bind_done by (eapply upd_list_ok; cbn; by rewrite lookup_alter_eq, HL).
  unfold mret, M_ret. do 2 f_equal. unfold heap_without, list_without, spliced, set_h_lists, set_h_kvs.
  rewrite E1, E2. cbn. by rewrite (alter_list_block _ _ _ _ _ HL).
Qed.

Lemma delete_run_first q b :
  i1 = [] → i2 = q :: b →
  listkeyValueNode_delete (Some l) (Some i) h = Done (None, heap_without).
Proof using HL Hd Ht Hnd.
  intros E1 E2. destruct pair_block as (n & Hn & Hnp & Hnn).
  destruct (neighbour q) as [[nq Hq] Hne].
  { rewrite E2. apply elem_of_app. right. by left. }
  unfold listkeyValueNode_delete. run (get_list_ok h l L HL). rewrite M_bind_gets.
  run delete_found. cbn [negb].
  rewrite decide_False by (apply more_pairs; rewrite E1, E2; cbn; lia).
  run (get_kv_ok h i n Hn). rewrite Hnp, Hnn, E1, E2. cbn [last_or last head_or].
  erewrite M_bind_done.
  2:{ run (upd_list_ok h l L (l_set_head (Some q)) HL).
    apply (upd_kv_ok (set_h_lists _ h) q nq (k_set_pre None) Hq). }
  erewrite M_bind_done.
  2:{ apply (get_kv_ok _ i n). cbn. by rewrite lookup_alter_ne. }
  rewrite Hnn, Hnp, E1, E2. cbn [last_or last head_or].
  erewrite M_bind_done.
  2:{ eapply upd_kv_ok. cbn. by rewrite lookup_alter_eq, Hq. }
  erewrite M_bind_done.
  2:{ eapply (free_kv_ok _ i n). cbn. by rewrite !lookup_alter_ne. }
  unfold mret, M_ret. do 2 f_equal. unfold heap_without, set_h_lists, set_h_kvs. cbn.
  rewrite alter_idem by done. f_equal.
  - rewrite <- (insert_is_alter _ _ _ _ HL). unfold list_without, l_set_head.
  rewrite Ht, E1, E2. cbn [app head_or]. by rewrite last_cons_cons.
  - unfold spliced. by rewrite E1, E2.
Qed.

Lemma delete_run_last p a :
  i1 = a ++ [p] → i2 = [] →
  listkeyValueNode_delete (Some l) (Some i) h = Done (None, heap_without).
Proof using HL Hd Ht Hnd.
  intros E1 E2. destruct pair_block as (n & Hn & Hnp & Hnn).
  destruct (neighbour p) as [[np Hp] Hne].
  { rewrite E1. apply elem_of_app. left. apply elem_of_app. right. by left. }
  unfold listkeyValueNode_delete. run (get_list_ok h l L HL). rewrite M_bind_gets.
  run delete_found. cbn [negb].
  rewrite decide_False by (apply more_pairs; rewrite E1, E2, !length_app; cbn; lia).
  run (get_kv_ok h i n Hn). rewrite Hnp, Hnn, E1, E2, last_or_snoc. cbn [head_or].
  run (upd_kv_ok h p np (k_set_next None) Hp).
  erewrite M_bind_done.
  2:{ apply (get_kv_ok _ i n). cbn. by rewrite lookup_alter_ne. }
  rewrite Hnn, Hnp, E1, E2, last_or_snoc. cbn [head_or].
  erewrite M_bind_done.
  2:{ run (upd_list_ok (set_h_kvs (alter (k_set_next None) p (h_kvs h)) h) l L
      (l_set_tail (Some p)) HL).
    eapply upd_kv_ok. cbn. by rewrite lookup_alter_eq, Hp. }
  erewrite M_bind_done.
  2:{ eapply (free_kv_ok _ i n). cbn. by rewrite !lookup_alter_ne. }
  unfold mret, M_ret. do 2 f_equal. unfold heap_without, set_h_lists, set_h_kvs. cbn.
  rewrite alter_idem by done. f_equal.
  - rewrite <- (insert_is_alter _ _ _ _ HL). unfold list_without. rewrite E1, E2, app_nil_r, last_snoc.
  pose proof (dseg_head _ _ _ _ _ Hd) as Hh. rewrite E1, E2 in Hh. unfold l_set_tail.
  rewrite Hh, <- app_assoc. by destruct a.
  - unfold spliced. by rewrite E1, E2, last_snoc.
Qed.

Lemma delete_run_middle p a q b :
  i1 = a ++ [p] → i2 = q :: b →
  listkeyValueNode_delete (Some l) (Some i) h = Done (None, heap_without).
Proof using HL Hd Ht Hnd.
  intros E1 E2. destruct pair_block as (n & Hn & Hnp & Hnn).
  destruct (neighbour p) as [[np Hp] Hnep].
  { rewrite E1. apply elem_of_app. left. apply elem_of_app. right. by left. }
  destruct (neighbour q) as [[nq Hq] Hneq].
  { rewrite E2. apply elem_of_app. right. by left. }
  assert (p ≠ q) as Hpq.
  { intros ->. destruct (nodup_middle _ _ _ Hnd) as (_ & _ & H). apply (H q).
  - rewrite E1. apply elem_of_app. right. by left.
  - rewrite E2. by left. }
  unfold listkeyValueNode_delete. run (get_list_ok h l L HL). rewrite M_bind_gets.
  run delete_found. cbn [negb].
  rewrite decide_False by (apply more_pairs; rewrite E1, E2, !length_app; cbn; lia).
  run (get_kv_ok h i n Hn). rewrite Hnp, Hnn, E1, E2, last_or_snoc. cbn [head_or].
  run (upd_kv_ok h p np (k_set_next (Some q)) Hp).
  erewrite M_bind_done.
  2:{ apply (get_kv_ok _ i n). cbn. by rewrite lookup_alter_ne. }
  rewrite Hnn, Hnp, E1, E2, last_or_snoc. cbn [head_or].
  erewrite M_bind_done.
  2:{ eapply (upd_kv_ok _ q nq). cbn. by rewrite lookup_alter_ne. }
  erewrite M_bind_done.
  2:{ eapply (free_kv_ok _ i n). cbn. by rewrite !lookup_alter_ne. }
  unfold mret, M_ret. do 2 f_equal. unfold heap_without, set_h_lists, set_h_kvs. cbn. f_equal.
  - rewrite insert_id; [done|]. rewrite HL. f_equal. unfold list_without.
  pose proof (dseg_head _ _ _ _ _ Hd) as Hh. rewrite E1, E2 in Hh, Ht |- *.
  rewrite last_app_cons, last_cons_cons, <- last_app_cons with (l1 := a ++ [p]) in Ht.
  destruct L as [hd tl len]. cbn in *. subst tl. f_equal. rewrite Hh, <- !app_assoc. by destruct a.
  - unfold spliced. by rewrite E1, E2, last_snoc, last_or_snoc.
Qed.

Lemma listkeyValueNode_delete_run :
  listkeyValueNode_delete (Some l) (Some i) h = Done (None, heap_without).
Proof using HL Hd Ht Hnd.
  assert (i1 = [] ∨ ∃ p a, i1 = a ++ [p]) as H1.
  { destruct (decide (i1 = [])) as [E|E]; [by left|]. right.
  destruct (exists_last E) as (a & p & Ep). eauto. }
  assert (i2 = [] ∨ ∃ q b, i2 = q :: b) as H2 by (destruct i2; eauto).
  destruct H1 as [E1|(p & a & E1)], H2 as [E2|(q & b & E2)].
  - by apply delete_run_only.
  - by apply (delete_run_first q b).
  - by apply (delete_run_last p a).
  - by apply (delete_run_middle p a q b).
Qed.
End delete_pair.

(** ** Freeing a list *)

(** The backward links, which are all the freeing loop follows. *)
Definition back_chain {N} `{!LinkedNode N} (m : gmap nat N) (ids : list nat) : Prop :=
  ∀ l1 i l2, ids = l1 ++ i :: l2 → ∃ n, m !! i = Some n ∧ ln_pre n = last_or None l1.

Lemma dlist_back_chain {N} `{!LinkedNode N} (m : gmap nat N) h ids :
  dlist (block_links m) h ids → back_chain m ids.
Proof.
  intros Hd l1 i l2 ->. destruct (block_at _ _ _ _ _ _ Hd) as (n & Hn & Hp & _). eauto.
Qed.

Lemma back_chain_frame {N} `{!LinkedNode N} (m m' : gmap nat N) ids :
  (∀ i, i ∈ ids → m' !! i = m !! i) → back_chain m ids → back_chain m' ids.
Proof.
  intros Hm H l1 i l2 E. destruct (H l1 i l2 E) as (n & Hn & Hp). exists n.
  rewrite Hm; [done|]. rewrite E. apply elem_of_app. right. by left.
Qed.

Lemma back_chain_prefix {N} `{!LinkedNode N} (m : gmap nat N) a b :
  back_chain m (a ++ b) → back_chain m a.
Proof. intros H l1 i l2 ->. apply (H l1 i (l2 ++ b)). by rewrite <- app_assoc. Qed.

Lemma last_or_cons_nat (i : nat) l : last_or None (i :: l) = last (i :: l).
Proof. unfold last_or. by destruct (last (i :: l)) as [?|] eqn:E; [|apply last_None in E]. Qed.

Lemma kill_snoc {N} ids i (m : gmap nat N) : kill ids (delete i m) = kill (ids ++ [i]) m.
Proof.
  apply map_eq. intros j. rewrite !kill_lookup. destruct (decide (i = j)) as [<-|].
  - rewrite lookup_delete_eq. repeat case_decide; set_solver.
  - rewrite lookup_delete_ne by done. repeat case_decide; set_solver.
Qed.

Lemma free_from_tail_run l i0 r : ∀ fuel h L,
  h_lists h !! l = Some L → l_head L = Some i0 → l_tail L = last (i0 :: r) →
  back_chain (h_kvs h) (i0 :: r) → NoDup (i0 :: r) → (length r ≤ fuel)%nat →
  free_from_tail fuel (Some l) h =
  Done (tt, set_h_lists (<[l := l_set_tail (Some i0) L]> (h_lists h))
              (set_h_kvs (kill r (h_kvs h)) h)).
Proof.
  induction r as [|x r IH] using rev_ind; intros fuel h L HL Hh Ht Hc Hnd Hf.
  - cbn in Ht. assert (free_from_tail fuel (Some l) h = Done (tt, h)) as ->.
    { destruct fuel; cbn [free_from_tail]; run (get_list_ok h l L HL);
        rewrite decide_False; try done; rewrite Hh, Ht; naive_solver. }
    do 2 f_equal. cbn [kill foldr]. destruct h. unfold set_h_lists, set_h_kvs. cbn in *.
    f_equal. rewrite insert_id; [done|]. rewrite HL. f_equal. destruct L. cbn in *. by subst.
  - rewrite app_comm_cons, last_snoc in Ht. rewrite length_app in Hf. cbn in Hf.
    destruct fuel as [|fuel]; [lia|]. cbn [free_from_tail]. run (get_list_ok h l L HL).
    rewrite decide_True.
    2:{ rewrite Hh, Ht. split; [done|]. intros [= ->]. apply NoDup_cons in Hnd as [Hnd _].
        apply Hnd, elem_of_app. right. by left. }
    destruct (Hc (i0 :: r) x [] eq_refl) as (n & Hn & Hp). cbn in Hp.
    rewrite Ht. run (get_kv_ok h x n Hn). rewrite Hp, last_or_cons_nat.
    run (upd_list_ok h l L (l_set_tail (last (i0 :: r))) HL).
    erewrite M_bind_done by by eapply free_kv_ok.
    rewrite app_comm_cons in Hnd. apply NoDup_app in Hnd as (Hnd & Hx & _).
    rewrite (IH fuel _ (l_set_tail (last (i0 :: r)) L)).
    + do 2 f_equal. unfold set_h_lists, set_h_kvs. cbn. f_equal.
      * rewrite <- (insert_is_alter _ _ _ _ HL), insert_insert_eq. done.
      * apply kill_snoc.
    + cbn. rewrite <- (insert_is_alter _ _ _ _ HL). apply lookup_insert_eq.
    + done.
    + done.
    + cbn. eapply back_chain_frame; [|eapply (back_chain_prefix _ _ [x]); exact Hc].
      intros i Hi. rewrite lookup_delete_ne; [done|]. intros <-. apply (Hx x Hi). by left.
    + done.
    + lia.
Qed.

(** [listkeyValueNode_deleteall] frees the list and its pairs, each once. *)
Lemma listkeyValueNode_deleteall_run h l es :
  list_ok h l es → NoDup (e_id <$> es) →
  listkeyValueNode_deleteall (Some l) h =
  Done (tt, set_h_lists (delete l (h_lists h)) (set_h_kvs (kill (e_id <$> es) (h_kvs h)) h)).
Proof.
  intros Hok Hnd. pose proof (list_ok_fuel _ _ _ Hok Hnd) as Hfuel.
  destruct Hok as (L & HL & Hd & Ht & _). rewrite <- (length_fmap e_id) in Hfuel.
  pose proof (dseg_head _ _ _ _ _ Hd) as Hh.
  unfold listkeyValueNode_deleteall. run (get_list_ok h l L HL).
  destruct (e_id <$> es) as [|i0 r] eqn:Eids; cbn [head_or] in Hh.
  - unfold listkeyValueNode_is_empty. rewrite Hh. cbn [negb].
    exact (free_list_ok h l L HL).
  - unfold listkeyValueNode_is_empty. rewrite Hh. cbn [negb]. rewrite M_bind_gets.
    cbn [length] in Hfuel.
    rewrite (M_bind_done _ _ _ _ _ (free_from_tail_run l i0 r (kv_fuel h) h L HL Hh Ht
               (dlist_back_chain _ _ _ Hd) Hnd ltac:(lia))).
    erewrite M_bind_done by (apply get_list_ok; cbn; apply lookup_insert_eq).
    cbn [l_head l_set_tail]. rewrite Hh.
    destruct (block_at _ _ _ [] i0 r Hd) as (n & Hn & _).
    apply NoDup_cons in Hnd as [Hi0 _].
    erewrite M_bind_done by (eapply free_kv_ok; cbn; by rewrite kill_out).
    etransitivity; [eapply free_list_ok; cbn; apply lookup_insert_eq|].
    do 2 f_equal. unfold set_h_lists, set_h_kvs. cbn. by rewrite delete_insert_eq.
Qed.

(** ** inifile v1.0.0: freeing and removing nodes

    Freeing a whole file ([destoryListIniFileNode]) and removing one node of
    several ([listIniFileNode_delete]) with the lists they own. *)

(** Without some pairs and lists. *)
Definition without_lists (ls ks : list nat) (h : heap) : heap :=
  set_h_lists (kill ls (h_lists h)) (set_h_kvs (kill ks (h_kvs h)) h).

(** Freeing the list a node owns, if it has one. *)
Lemma deleteall_node_run h y :
  node_ok h y → NoDup (e_id <$> node_pairs y) →
  listkeyValueNode_deleteall (fst <$> s_list y) h =
  Done (tt, without_lists (node_lists y) (e_id <$> node_pairs y) h).
Proof.
  intros (sec & _ & _ & Hl) Hnd. unfold without_lists, node_lists, node_pairs in *.
  destruct (s_list y) as [[l es]|]; cbn [fmap option_fmap option_map fst].
  - by apply listkeyValueNode_deleteall_run.
  - cbn. do 2 f_equal. by destruct h.
Qed.

Lemma node_ok_block h y :
  node_ok h y → ∃ n, h_nodes h !! s_id y = Some n ∧ n_list n = fst <$> s_list y.
Proof.
  intros (sec & Hn & _). apply fmap_Some in Hn as (n & Hn & [= _ _ Hl]). eauto.
Qed.

(** A node is not touched when blocks of others go. *)
Lemma node_ok_without h y ls ks :
  (∀ l, l ∈ node_lists y → l ∉ ls) → (∀ i, i ∈ e_id <$> node_pairs y → i ∉ ks) →
  node_ok h y → node_ok (without_lists ls ks h) y.
Proof.
  intros Hl Hk. apply node_ok_frame; cbn; [done|..].
  - intros l Hin. by apply kill_out, Hl.
  - intros i Hin. by apply kill_out, Hk.
Qed.

Lemma node_ok_free h y i :
  i ≠ s_id y → node_ok h y → node_ok (set_h_nodes (delete i (h_nodes h)) h) y.
Proof.
  intros Hi. apply node_ok_frame; cbn; [|done|done]. by rewrite lookup_delete_ne.
Qed.

Lemma node_ok_files h y m : node_ok h y → node_ok (set_h_files m h) y.
Proof. apply node_ok_frame; done. Qed.

(** The heap without the nodes [r] and what they own. *)
Definition without_nodes (r : list node1) (h : heap) : heap :=
  Heap (h_files h) (kill (s_id <$> r) (h_nodes h)) (kill (list_ids r) (h_lists h))
    (kill (pair_ids r) (h_kvs h)) (h_next h) (h_fs h) (h_writes h).

Lemma without_nodes_snoc r y h :
  without_nodes (r ++ [y]) h =
  without_nodes r (set_h_nodes (delete (s_id y) (h_nodes h))
    (without_lists (node_lists y) (e_id <$> node_pairs y) h)).
Proof.
  unfold without_nodes. cbn. f_equal.
  - rewrite fmap_app. cbn. by rewrite <- kill_snoc.
  - rewrite list_ids_app, list_ids_cons. cbn. rewrite app_nil_r.
    apply map_eq. intros j. rewrite !kill_lookup. repeat case_decide; set_solver.
  - rewrite pair_ids_app, pair_ids_cons. cbn. rewrite app_nil_r.
    apply map_eq. intros j. rewrite !kill_lookup. repeat case_decide; set_solver.
Qed.

Lemma without_nodes_cons r y h m :
  set_h_nodes (delete (s_id y) (h_nodes (without_nodes r h)))
    (without_lists (node_lists y) (e_id <$> node_pairs y) (set_h_files m (without_nodes r h))) =
  set_h_files m (without_nodes (y :: r) h).
Proof.
  unfold without_nodes, without_lists, set_h_nodes, set_h_lists, set_h_kvs, set_h_files.
  rewrite list_ids_cons, pair_ids_cons.
  cbn [h_files h_nodes h_lists h_kvs h_next h_fs h_writes fmap list_fmap kill foldr].
  f_equal; apply map_eq; intros j; rewrite !kill_lookup; repeat case_decide; set_solver.
Qed.

(** The three lists of ids without repetitions. *)
Definition ids_ok (ns : list node1) : Prop :=
  NoDup (s_id <$> ns) ∧ NoDup (list_ids ns) ∧ NoDup (pair_ids ns).

Lemma ids_ok_prefix a b : ids_ok (a ++ b) → ids_ok a.
Proof.
  unfold ids_ok. rewrite fmap_app, list_ids_app, pair_ids_app.
  intros (H1 & H2 & H3). by apply NoDup_app in H1 as [? _], H2 as [? _], H3 as [? _].
Qed.

Lemma ids_ok_last a y :
  ids_ok (a ++ [y]) →
  s_id y ∉ s_id <$> a ∧ NoDup (e_id <$> node_pairs y) ∧
  (∀ z, z ∈ a → (∀ l, l ∈ node_lists z → l ∉ node_lists y) ∧
                (∀ i, i ∈ e_id <$> node_pairs z → i ∉ e_id <$> node_pairs y)).
Proof.
  intros (H1 & H2 & H3). split.
  - rewrite fmap_app in H1. apply NoDup_app in H1 as (_ & H1 & _). intros Hin.
    apply (H1 _ Hin). by left.
  - destruct (ids_apart a y [] H2 H3) as [Hy Hz]. rewrite app_nil_r in Hz. done.
Qed.

Lemma destroy_from_tail_run fp y0 r : ∀ fuel h F,
  h_files h !! fp = Some F → f_head F = Some (s_id y0) →
  f_tail F = last (s_id <$> y0 :: r) → back_chain (h_nodes h) (s_id <$> y0 :: r) →
  Forall (node_ok h) (y0 :: r) → ids_ok (y0 :: r) → (length r ≤ fuel)%nat →
  destroy_from_tail fuel (Some fp) h =
  Done (tt, set_h_files (<[fp := f_set_tail (Some (s_id y0)) F]> (h_files h)) (without_nodes r h)).
Proof.
  induction r as [|y r IH] using rev_ind; intros fuel h F HF Hh Ht Hc Hok Hids Hf.
  - cbn in Ht. assert (destroy_from_tail fuel (Some fp) h = Done (tt, h)) as ->.
    { destruct fuel; cbn [destroy_from_tail]; run (get_file_ok h fp F HF);
        rewrite decide_False; try done; rewrite Hh, Ht; naive_solver. }
    do 2 f_equal. destruct h. unfold set_h_files, without_nodes. cbn in *.
    f_equal. rewrite insert_id; [done|]. rewrite HF. f_equal. destruct F. cbn in *. by subst.
  - rewrite app_comm_cons, fmap_app in Ht, Hc. cbn [fmap list_fmap] in Ht. rewrite last_snoc in Ht.
    rewrite length_app in Hf. cbn in Hf. destruct fuel as [|fuel]; [lia|].
    destruct (ids_ok_last (y0 :: r) y Hids) as (Hy & Hyp & Hyz).
    cbn [destroy_from_tail]. run (get_file_ok h fp F HF).
    rewrite decide_True.
    2:{ rewrite Hh, Ht. intros [= E]. apply Hy. rewrite E. by left. }
    destruct (Hc (s_id <$> y0 :: r) (s_id y) [] eq_refl) as (n & Hn & Hp).
    rewrite Ht. run (get_node_ok h (s_id y) n Hn). cbn in Hp. rewrite Hp, last_or_cons_nat.
    rewrite app_comm_cons in Hok. apply Forall_app in Hok as [Hok Hyok].
    apply Forall_cons in Hyok as [Hyok _].
    destruct (node_ok_block _ _ Hyok) as (n' & Hn' & Hl). assert (n' = n) as -> by congruence.
    set (F1 := f_set_tail (last (s_id y0 :: (s_id <$> r))) F).
    run (upd_file_ok h fp F (f_set_tail (last (s_id y0 :: (s_id <$> r)))) HF). rewrite Hl.
    run (deleteall_node_run (set_h_files (alter (f_set_tail (last (s_id y0 :: (s_id <$> r)))) fp
           (h_files h)) h) y (node_ok_files _ _ _ Hyok) Hyp).
    erewrite M_bind_done by by eapply free_node_ok.
    rewrite (IH fuel _ F1).
    + do 2 f_equal. rewrite without_nodes_snoc. unfold without_nodes, set_h_files. cbn. f_equal.
      rewrite <- (insert_is_alter _ _ _ _ HF), insert_insert_eq. done.
    + cbn. rewrite <- (insert_is_alter _ _ _ _ HF). apply lookup_insert_eq.
    + done.
    + done.
    + cbn [h_nodes set_h_nodes without_lists set_h_lists set_h_kvs set_h_files].
      eapply back_chain_frame; [|eapply (back_chain_prefix _ _ [s_id y]); exact Hc].
      intros i Hi. rewrite lookup_delete_ne; [done|]. by intros <-.
    + rewrite Forall_forall in Hok |- *. intros z Hz. apply node_ok_free.
      { intros E. apply Hy. rewrite E. by apply list_elem_of_fmap_2. }
      apply node_ok_without; [apply Hyz; done|apply Hyz; done|]. by apply node_ok_files, Hok.
    + by eapply ids_ok_prefix.
    + lia.
Qed.

Lemma file_rep_ids h fp name ns : file_rep h fp name ns → ids_ok ns.
Proof. intros []. done. Qed.

(** ** [exitOperationIniFile] *)

Lemma destory_run h fp name ns :
  file_rep h fp name ns →
  destoryListIniFileNode (Some fp) h =
  Done (tt, set_h_files (delete fp (h_files h)) (without_nodes ns h)).
Proof.
  intros Hrep. pose proof (file_rep_ids _ _ _ _ Hrep) as Hids.
  destruct Hrep as [(F & HF & Hd & Ht & _) Hok Hnd _ _].
  pose proof (dseg_head _ _ _ _ _ Hd) as Hh.
  assert (length ns ≤ node_fuel h)%nat as Hfuel.
  { rewrite <- (length_fmap s_id). apply ids_size; [done|]. intros i Hi. by eapply block_there. }
  unfold destoryListIniFileNode. run (get_file_ok h fp F HF).
  destruct ns as [|y0 r]; cbn [fmap list_fmap head_or] in Hh.
  - unfold listIniFileNode_is_empty. rewrite Hh. cbn [negb]. exact (free_file_ok h fp F HF).
  - unfold listIniFileNode_is_empty. rewrite Hh. cbn [negb]. rewrite M_bind_gets.
    cbn [length] in Hfuel.
    rewrite (M_bind_done _ _ _ _ _ (destroy_from_tail_run fp y0 r (node_fuel h) h F HF Hh Ht
               (dlist_back_chain _ _ _ Hd) Hok Hids ltac:(lia))).
    erewrite M_bind_done by (apply get_file_ok; cbn; apply lookup_insert_eq).
    cbn [f_head f_set_tail]. rewrite Hh.
    apply Forall_cons in Hok as [Hy0 _].
    destruct (node_ok_block _ _ Hy0) as (n & Hn & Hl).
    destruct Hids as (H1 & H2 & H3). apply NoDup_cons in H1 as [H1 _].
    destruct (ids_apart [] y0 r H2 H3) as [Hp0 Hz].
    assert (∀ l, l ∈ node_lists y0 → l ∉ list_ids r) as Hl0.
    { intros l Hl1 Hl2. apply list_elem_of_bind in Hl2 as (z & Hl2 & Hzr). by apply (Hz z Hzr) in Hl2. }
    assert (∀ i, i ∈ e_id <$> node_pairs y0 → i ∉ pair_ids r) as Hk0.
    { intros i Hi1 Hi2. apply list_elem_of_bind in Hi2 as (z & Hi2 & Hzr). by apply (Hz z Hzr) in Hi2. }
    erewrite M_bind_done by (eapply get_node_ok; cbn; by rewrite kill_out).
    rewrite Hl. erewrite M_bind_done.
    2:{ apply deleteall_node_run; [|done].
        apply node_ok_files. change (without_nodes r h) with
          (set_h_nodes (kill (s_id <$> r) (h_nodes h)) (without_lists (list_ids r) (pair_ids r) h)).
        eapply (node_ok_frame (without_lists (list_ids r) (pair_ids r) h)); cbn;
          [by rewrite kill_out|done|done|]. by apply node_ok_without. }
    erewrite M_bind_done by (eapply free_node_ok; cbn; by rewrite kill_out).
    etransitivity; [eapply free_file_ok; cbn; apply lookup_insert_eq|].
    do 2 f_equal. rewrite <- without_nodes_cons. unfold set_h_files, set_h_nodes. cbn. f_equal.
    by rewrite delete_insert_eq.
Qed.

(** ** Removing one node of several *)

Section delete_node.
Context (h : heap) (fp : nat) (F : INI_FILE) (i1 : list nat) (y : node1) (i2 : list nat).
Local Notation i := (s_id y).
Hypothesis HF : h_files h !! fp = Some F.
Hypothesis Hd : dlist (block_links (h_nodes h)) (f_head F) (i1 ++ i :: i2).
Hypothesis Ht : f_tail F = last (i1 ++ i :: i2).
Hypothesis Hnd : NoDup (i1 ++ i :: i2).
Hypothesis Hy : node_ok h y.
Hypothesis Hyp : NoDup (e_id <$> node_pairs y).

Definition file_without : INI_FILE :=
  Build_INI_FILE (head_or (i1 ++ i2) None) (last (i1 ++ i2)) (f_fileName F) (f_len F).
Definition heap_without_node : heap :=
  set_h_files (<[fp := file_without]> (h_files h))
  (set_h_nodes (spliced (h_nodes h) i1 i i2)
    (without_lists (node_lists y) (e_id <$> node_pairs y) h)).

Lemma node_found :
  find_ptr get_node n_next (node_fuel h) (f_head F) (Some i) h = Done (true, h).
Proof using Hd Hnd.
  apply (find_ptr_member h_nodes (node_fuel h) None _ (i1 ++ i :: i2) i h Hd).
  { apply elem_of_app. right. by left. }
  apply ids_size; [done|]. intros j Hj. by eapply block_there.
Qed.

Lemma more_nodes : (2 ≤ length (i1 ++ i :: i2))%nat → f_head F ≠ f_tail F.
Proof using Hd Ht Hnd.
  intros Hlen E. rewrite Ht, (dseg_head _ _ _ _ _ Hd) in E. by apply head_ne_last in E.
Qed.

Lemma node_block : ∃ n, h_nodes h !! i = Some n ∧ n_pre n = last_or None i1 ∧
  n_next n = head_or i2 None ∧ n_list n = fst <$> s_list y.
Proof using Hd Hy.
  destruct (block_at _ _ _ _ _ _ Hd) as (n & Hn & Hp & Hl). exists n.
  destruct (node_ok_block _ _ Hy) as (n' & Hn' & Hl'). assert (n' = n) as -> by congruence. done.
Qed.

Lemma node_neighbour j : j ∈ i1 ++ i2 → is_Some (h_nodes h !! j) ∧ i ≠ j.
Proof using Hd Hnd.
  intros Hj. split.
  - eapply block_there; [exact Hd|]. apply elem_of_app in Hj as [?|?]; apply elem_of_app;
    [by left|right; by right].
  - intros <-. destruct (nodup_middle _ _ _ Hnd) as (H1 & H2 & _).
  apply elem_of_app in Hj as [?|?]; done.
Qed.

(** The end of every case: the node, its links aside, is as it was. *)
Lemma delete_node_end m files n :
  node_content <$> m !! i = node_content <$> h_nodes h !! i → m !! i = Some n →
  (n ← get_node (Some i); listkeyValueNode_deleteall (n_list n) ;; free_node (Some i))
  (set_h_files files (set_h_nodes m h)) =
  Done (tt, set_h_files files (set_h_nodes (delete i m)
            (without_lists (node_lists y) (e_id <$> node_pairs y) h))).
Proof using Hy Hyp.
  intros Hm Hn. erewrite M_bind_done by by apply (get_node_ok _ i n).
  destruct (node_ok_block _ _ Hy) as (n' & Hn' & Hl).
  assert (node_content n = node_content n') as Hc.
  { rewrite Hn, Hn' in Hm. by apply (inj Some) in Hm. }
  assert (n_list n = fst <$> s_list y) as -> by (rewrite <- Hl; by injection Hc).
  erewrite M_bind_done.
  2:{ apply deleteall_node_run; [|exact Hyp].
    apply (node_ok_frame h); cbn; [by rewrite Hn, Hn'; cbn; rewrite Hc|done..]. }
  etransitivity; [eapply free_node_ok; cbn; exact Hn|]. done.
Qed.

(** Updates of a neighbour leave the node alone. *)
Lemma alter_other (f : IniFileNode → IniFileNode) (m : gmap nat IniFileNode) j n :
  i ≠ j → m !! i = Some n → alter f j m !! i = Some n.
Proof using Type. intros Hj Hm. by rewrite lookup_alter_ne. Qed.

Lemma delete_node_first q b :
  i1 = [] → i2 = q :: b →
  listIniFileNode_delete (Some fp) (Some i) h = Done (tt, heap_without_node).
Proof using HF Hd Ht Hnd Hy Hyp.
  intros E1 E2. destruct node_block as (n & Hn & Hnp & Hnn & _).
  destruct (node_neighbour q) as [[nq Hq] Hne].
  { rewrite E2. apply elem_of_app. right. by left. }
  unfold listIniFileNode_delete. run (get_file_ok h fp F HF). rewrite M_bind_gets.
  run node_found. cbn [negb].
  rewrite decide_False by (apply more_nodes; rewrite E1, E2; cbn; lia).
  run (get_node_ok h i n Hn). rewrite Hnp, Hnn, E1, E2. cbn [last_or last head_or].
  erewrite M_bind_done.
  2:{ run (upd_file_ok h fp F (f_set_head (Some q)) HF).
    apply (upd_node_ok (set_h_files _ h) q nq (n_set_pre None) Hq). }
  erewrite M_bind_done.
  2:{ apply (get_node_ok _ i n). by apply alter_other. }
  rewrite Hnn, Hnp, E1, E2. cbn [last_or last head_or].
  erewrite M_bind_done.
  2:{ eapply upd_node_ok. cbn. by rewrite lookup_alter_eq, Hq. }
  refine (eq_trans (delete_node_end (alter (n_set_pre None) q (alter (n_set_pre None) q (h_nodes h)))
           (alter (f_set_head (Some q)) fp (h_files h)) n _ _) _); [by rewrite !lookup_alter_ne..|].
  do 2 f_equal. unfold heap_without_node. rewrite alter_idem by done. f_equal.
  - rewrite <- (insert_is_alter _ _ _ _ HF). unfold file_without, f_set_head.
  rewrite Ht, E1, E2. cbn [app head_or]. by rewrite last_cons_cons.
  - unfold spliced. by rewrite E1, E2.
Qed.

Lemma delete_node_last p a :
  i1 = a ++ [p] → i2 = [] →
  listIniFileNode_delete (Some fp) (Some i) h = Done (tt, heap_without_node).
Proof using HF Hd Ht Hnd Hy Hyp.
  intros E1 E2. destruct node_block as (n & Hn & Hnp & Hnn & _).
  destruct (node_neighbour p) as [[np Hp] Hne].
  { rewrite E1. apply elem_of_app. left. apply elem_of_app. right. by left. }
  unfold listIniFileNode_delete. run (get_file_ok h fp F HF). rewrite M_bind_gets.
  run node_found. cbn [negb].
  rewrite decide_False by (apply more_nodes; rewrite E1, E2, !length_app; cbn; lia).
  run (get_node_ok h i n Hn). rewrite Hnp, Hnn, E1, E2, last_or_snoc. cbn [head_or].
  run (upd_node_ok h p np (n_set_next None) Hp).
  erewrite M_bind_done.
  2:{ apply (get_node_ok _ i n). by apply alter_other. }
  rewrite Hnn, Hnp, E1, E2, last_or_snoc. cbn [head_or].
  erewrite M_bind_done.
  2:{ run (upd_file_ok (set_h_nodes (alter (n_set_next None) p (h_nodes h)) h) fp F
      (f_set_tail (Some p)) HF).
    eapply upd_node_ok. cbn. by rewrite lookup_alter_eq, Hp. }
  refine (eq_trans (delete_node_end (alter (n_set_next None) p (alter (n_set_next None) p (h_nodes h)))
           (alter (f_set_tail (Some p)) fp (h_files h)) n _ _) _); [by rewrite !lookup_alter_ne..|].
  do 2 f_equal. unfold heap_without_node. rewrite alter_idem by done. f_equal.
  - rewrite <- (insert_is_alter _ _ _ _ HF). unfold file_without. rewrite E1, E2, app_nil_r, last_snoc.
  pose proof (dseg_head _ _ _ _ _ Hd) as Hh. rewrite E1, E2 in Hh. unfold f_set_tail.
  rewrite Hh, <- app_assoc. by destruct a.
  - unfold spliced. by rewrite E1, E2, last_snoc.
Qed.

Lemma delete_node_middle p a q b :
  i1 = a ++ [p] → i2 = q :: b →
  listIniFileNode_delete (Some fp) (Some i) h = Done (tt, heap_without_node).
Proof using HF Hd Ht Hnd Hy Hyp.
  intros E1 E2. destruct node_block as (n & Hn & Hnp & Hnn & _).
  destruct (node_neighbour p) as [[np Hp] Hnep].
  { rewrite E1. apply elem_of_app. left. apply elem_of_app. right. by left. }
  destruct (node_neighbour q) as [[nq Hq] Hneq].
  { rewrite E2. apply elem_of_app. right. by left. }
  assert (p ≠ q) as Hpq.
  { intros ->. destruct (nodup_middle _ _ _ Hnd) as (_ & _ & H). apply (H q).
  - rewrite E1. apply elem_of_app. right. by left.
  - rewrite E2. by left. }
  unfold listIniFileNode_delete. run (get_file_ok h fp F HF). rewrite M_bind_gets.
  run node_found. cbn [negb].
  rewrite decide_False by (apply more_nodes; rewrite E1, E2, !length_app; cbn; lia).
  run (get_node_ok h i n Hn). rewrite Hnp, Hnn, E1, E2, last_or_snoc. cbn [head_or].
  run (upd_node_ok h p np (n_set_next (Some q)) Hp).
  erewrite M_bind_done.
  2:{ apply (get_node_ok _ i n). by apply alter_other. }
  rewrite Hnn, Hnp, E1, E2, last_or_snoc. cbn [head_or].
  erewrite M_bind_done.
  2:{ eapply (upd_node_ok _ q nq). cbn. by rewrite lookup_alter_ne. }
  refine (eq_trans (delete_node_end (alter (n_set_pre (Some p)) q (alter (n_set_next (Some q)) p (h_nodes h)))
           (h_files h) n _ _) _); [by rewrite !lookup_alter_ne..|].
  do 2 f_equal. unfold heap_without_node. f_equal.
  - rewrite insert_id; [done|]. rewrite HF. f_equal. unfold file_without.
  pose proof (dseg_head _ _ _ _ _ Hd) as Hh. rewrite E1, E2 in Hh, Ht |- *.
  rewrite last_app_cons, last_cons_cons, <- last_app_cons with (l1 := a ++ [p]) in Ht.
  destruct F as [hd tl nm len]. cbn in *. subst tl. f_equal. rewrite Hh, <- !app_assoc. by destruct a.
  - unfold spliced. by rewrite E1, E2, last_snoc, last_or_snoc.
Qed.

(** [listIniFileNode_delete] on a node of several. *)
Lemma listIniFileNode_delete_run :
  (2 ≤ length (i1 ++ i :: i2))%nat →
  listIniFileNode_delete (Some fp) (Some i) h = Done (tt, heap_without_node).
Proof using HF Hd Ht Hnd Hy Hyp.
  intros Hlen. assert (i1 = [] ∨ ∃ p a, i1 = a ++ [p]) as H1.
  { destruct (decide (i1 = [])) as [E|E]; [by left|]. right.
  destruct (exists_last E) as (a & p & Ep). eauto. }
  assert (i2 = [] ∨ ∃ q b, i2 = q :: b) as H2 by (destruct i2; eauto).
  destruct H1 as [E1|(p & a & E1)], H2 as [E2|(q & b & E2)].
  - rewrite E1, E2 in Hlen. cbn in Hlen. lia.
  - by apply (delete_node_first q b).
  - by apply (delete_node_last p a).
  - by apply (delete_node_middle p a q b).
Qed.
End delete_node.
