(* ===== verification/V1Find.v ===== *)
(** * inifile v1.0.0: what the searches find and what is saved

    [findIniFileNode] and [findIniKeyValue] return the first node or pair
    whose stored name is the name asked for, followed by blanks only.  The
    second part is the text that [updateIniFile] writes. *)

From S2P Require Import Prelude CString DList FileSys Blocks V1Data V1Ops V1Rep.
From stdpp Require Import gmap strings.

Open Scope Z_scope.

(** The comparison of the searches, on strings. *)
Definition name_eq (s t : list Z) : bool :=
  bool_decide (take (length s) t = s) && forallb is_blank1 (drop (length s) t).

Lemma rest_blank_spec stored t p :
  c_str stored = Done t → (p ≤ length t)%nat →
  rest_blank stored p (length t - p) = Done (forallb is_blank1 (drop p t)).
Proof.
  intros Ht. remember (length t - p)%nat as n eqn:En. revert p En.
  induction n as [|n IH]; intros p En Hp; cbn [rest_blank].
  - by rewrite drop_ge by lia.
  - destruct (lookup_lt_is_Some_2 t p) as [c Hc]; [lia|].
    rewrite (bind_done _ _ c) by (apply rd_ok; rewrite (c_str_lookup _ _ _ Ht); [done|lia]).
    rewrite (drop_S _ _ _ Hc). cbn [forallb].
    destruct (is_blank1 c); cbn [andb]; [|done]. apply IH; lia.
Qed.

Lemma name_matches_spec b s stored t :
  c_str b = Done s → holds stored t → (length s ≤ STRING_BUF)%nat →
  name_matches b (Z.of_nat (length s)) stored = Done (name_eq s t).
Proof.
  intros Hb [Ht Hl] Hs. unfold name_matches, memcmp.
  pose proof (c_str_length _ _ Hb). pose proof (c_str_nonzero _ _ Hb) as Hnz.
  rewrite (mem_read_ok stored) by lia. cbn [mbind outcome_bind].
  rewrite (mem_read_ok b) by lia. cbn [mbind outcome_bind mret outcome_ret]. rewrite Nat2Z.id.
  assert (take (length s) b = s) as ->.
  { apply c_str_inv in Hb as (r & -> & _). apply take_app_length. }
  pose proof (bytes_cmp_eq (take (length s) stored) s) as Hcmp.
  rewrite length_take in Hcmp. specialize (Hcmp ltac:(lia)).
  assert (take (length s) stored = s → (length s ≤ length t)%nat) as Hle.
  { intros E. destruct (Nat.le_gt_cases (length s) (length t)) as [|Hgt]; [done|]. exfalso.
    rewrite <- E in Hnz. apply (proj1 (Forall_lookup _ _) Hnz (length t) 0); [|done].
    rewrite lookup_take_lt by done. by apply c_str_nul. }
  assert ((length s ≤ length t)%nat → take (length s) stored = take (length s) t) as Hpre.
  { intros Hst. apply c_str_inv in Ht as (r & -> & _). by rewrite take_app_le. }
  unfold name_eq. destruct (Z.eqb_spec (bytes_cmp (take (length s) stored) s) 0) as [E|E].
  - apply Hcmp in E. specialize (Hle E). rewrite (Hpre Hle) in E.
    rewrite bool_decide_true by done. cbn [andb].
    unfold strlen. rewrite (str_scan_len_spec _ _ Ht). cbn [mbind outcome_bind mret outcome_ret].
    destruct (Z.eqb_spec (Z.of_nat (length t)) (Z.of_nat (length s))) as [El|El].
    + by rewrite drop_ge by lia.
    + rewrite (proj2 (Z.ltb_lt _ _)) by lia.
      replace (Z.to_nat (Z.of_nat (length t) - Z.of_nat (length s)))
        with (length t - length s)%nat by lia.
      by apply rest_blank_spec.
  - rewrite bool_decide_false; [done|]. intros E'. apply E, Hcmp. rewrite <- E' at 2. apply Hpre.
    rewrite <- E', length_take. lia.
Qed.

(** ** The walk *)

Section find.
Context {N E : Type} `{!LinkedNode N} (get : heap → gmap nat N).
Context (id_of : E → nat) (test : N → outcome bool) (f : E → bool).

Lemma find_node_spec fuel prev h0 es h :
  dseg (block_links (get h)) prev h0 (id_of <$> es) None → (length es ≤ fuel)%nat →
  (∀ e n, e ∈ es → get h !! id_of e = Some n → test n = Done (f e)) →
  find_node (at_ptr get) ln_last test fuel h0 h = Done (id_of <$> List.find f es, h).
Proof using Type.
  revert fuel prev h0; induction es as [|e es IH]; intros fuel prev h0 Hd Hf Ht.
  - cbn in Hd. subst h0. by destruct fuel.
  - destruct Hd as (-> & n & Hn & Hd). apply fmap_Some in Hn as (m & Hm & [= _ ->]).
  cbn in Hf. destruct fuel as [|fuel]; [lia|]. cbn [find_node List.find].
  run (at_ptr_ok get h (id_of e) m Hm).
  rewrite (M_bind_lift _ _ _ _ (Ht e m ltac:(left) Hm)). destruct (f e); [done|].
  apply (IH fuel (Some (id_of e))); [done|lia|].
  intros e' n' He'. apply Ht. by right.
Qed.
End find.

Definition find_pair (k : list Z) (es : list pair1) : option pair1 :=
  List.find (λ e, name_eq k (e_key e)) es.
Definition find_sec (s : list Z) (ns : list node1) : option node1 :=
  List.find (λ y, name_eq s (s_name y)) ns.

Lemma findIniKeyValue_spec h y b k :
  node_ok h y → NoDup (e_id <$> node_pairs y) →
  c_str b = Done k → (length k ≤ STRING_BUF)%nat →
  findIniKeyValue (Some (s_id y)) (Some b) h = Done (e_id <$> find_pair k (node_pairs y), h).
Proof.
  intros (sec & Hn & _ & Hl) Hnd Hb Hk. unfold findIniKeyValue, strlen.
  rewrite (M_bind_lift _ _ h (Z.of_nat (length k)))
    by (by rewrite (str_scan_len_spec _ _ Hb)).
  apply fmap_Some in Hn as (n & Hn & [= _ _ Hlist]).
  run (get_node_ok h _ n Hn). rewrite <- Hlist. unfold node_pairs in *.
  destruct (s_list y) as [[l es]|]; [|done]. cbn [fmap option_fmap option_map fst].
  pose proof (list_ok_fuel _ _ _ Hl Hnd) as Hfuel. destruct Hl as (L & HL & Hd & Ht & Hes).
  run (get_list_ok h l L HL). unfold listkeyValueNode_is_empty.
  destruct (l_head L) as [hd|] eqn:Eh; cbn [negb].
  - rewrite M_bind_gets, <- Eh. rewrite <- Eh in Hd.
    refine (find_node_spec h_kvs e_id (λ q, name_matches b (Z.of_nat (length k)) (k_key q))
              (λ e, name_eq k (e_key e)) (kv_fuel h) None _ es h Hd Hfuel _).
    intros e q He Hq. rewrite Forall_forall in Hes. destruct (Hes e He) as (key & v & Hc & Hkey & _).
    rewrite Hq in Hc. injection Hc as -> _ _. by apply name_matches_spec.
  - apply dlist_None in Hd. by destruct es.
Qed.

Lemma findIniFileNode_spec h fp name ns b s :
  file_rep h fp name ns → c_str b = Done s → (length s ≤ STRING_BUF)%nat →
  findIniFileNode (Some fp) (Some b) h = Done (s_id <$> find_sec s ns, h).
Proof.
  intros [(F & HF & Hd & _) Hok Hnd _ _] Hb Hs. unfold findIniFileNode, strlen.
  rewrite (M_bind_lift _ _ h (Z.of_nat (length s)))
    by (by rewrite (str_scan_len_spec _ _ Hb)).
  run (get_file_ok h fp F HF). unfold listIniFileNode_is_empty.
  destruct (f_head F) as [hd|] eqn:Eh; cbn [negb].
  - rewrite M_bind_gets, <- Eh. rewrite <- Eh in Hd.
    refine (find_node_spec h_nodes s_id (λ q, name_matches b (Z.of_nat (length s)) (n_section q))
              (λ y, name_eq s (s_name y)) (node_fuel h) None _ ns h Hd _ _).
    + rewrite <- (length_fmap s_id). apply ids_size; [done|]. intros i Hi. by eapply block_there.
    + intros y n Hy Hn. rewrite Forall_forall in Hok. destruct (Hok y Hy) as (sec & Hc & Hsec & _).
      rewrite Hn in Hc. injection Hc as -> _ _. by apply name_matches_spec.
  - apply dlist_None in Hd. by destruct ns.
Qed.

Lemma find_pair_Some k es e :
  find_pair k es = Some e → ∃ l1 l2, es = l1 ++ e :: l2 ∧ name_eq k (e_key e) = true.
Proof.
  intros H. apply List.find_some in H as [Hin He].
  apply list_elem_of_In in Hin. apply list_elem_of_split in Hin as (l1 & l2 & ->). eauto.
Qed.

Lemma find_sec_split s ns y :
  find_sec s ns = Some y → ∃ l1 l2, ns = l1 ++ y :: l2 ∧ name_eq s (s_name y) = true.
Proof.
  intros H. apply List.find_some in H as [Hin He].
  apply list_elem_of_In in Hin. apply list_elem_of_split in Hin as (l1 & l2 & ->). eauto.
Qed.

(** ** inifile v1.0.0: writing the file

    [updateIniFile] truncates the file and writes the text of every node and
    pair ([render]).  Short writes and interrupts are retried; whatever
    [write] does, the call returns and touches no block. *)

Definition newline : list Z := [10].

(** ** The text *)

Definition node_str (y : node1) : list Z :=
  newline ++ (if s_note y =? 1 then bytes ";" ++ s_name y ++ newline else [])
    ++ (if s_note y =? 0 then bytes "[" ++ s_name y ++ bytes "]" ++ newline else []).
Definition pair_str (e : pair1) : list Z :=
  if e_note e =? 1 then bytes ";" ++ e_key e ++ newline
  else if e_note e =? 0 then e_key e ++ bytes "=" ++ e_val e ++ newline else [].
Definition render_node (y : node1) : list Z :=
  node_str y ++ concat (pair_str <$> node_pairs y).
Definition render (ns : list node1) : list Z := concat (render_node <$> ns).

(** The pair fits the 132-byte buffer with its terminator. *)
Definition pair_fits (e : pair1) : Prop := (length (pair_str e) < LINE_BUF)%nat.
Definition all_fit (ns : list node1) : Prop :=
  Forall (λ y, Forall pair_fits (node_pairs y)) ns.

(** ** The buffer *)

Definition line_is (b s : list Z) : Prop := c_str b = Done s ∧ length b = LINE_BUF.

Lemma write_str b p s x :
  c_str b = Done s → nonzero x → (p ≤ length s)%nat → (p + length x < length b)%nat →
  ∃ b', mem_write b p (x ++ [0]) = Done b' ∧ c_str b' = Done (take p s ++ x) ∧
    length b' = length b.
Proof.
  intros Hb Hx Hp Hl. eexists. split.
  { apply mem_write_ok. rewrite length_app. cbn. lia. }
  split; [|apply length_splice; rewrite length_app; cbn; lia].
  unfold splice. apply c_str_inv in Hb as (r & -> & Hnz).
  rewrite take_app_le by lia. rewrite <- (app_assoc x), (app_assoc (take p s)).
  apply c_str_app, Forall_app. split; [by apply Forall_take|done].
Qed.

Lemma strcpy_ok b s src x :
  line_is b s → c_str src = Done x → (length x < LINE_BUF)%nat →
  ∃ b', strcpy b src = Done b' ∧ line_is b' x.
Proof.
  intros [Hb Hl] Hx Hlen. unfold strcpy. rewrite (bind_done _ _ _ Hx).
  destruct (write_str b 0 s x Hb) as (b' & Hw & Hs & Hl'); [by eapply c_str_nonzero|lia|lia|].
  exists b'. split; [done|]. split; [done|lia].
Qed.

Lemma strcat_ok b s src x :
  line_is b s → c_str src = Done x → (length s + length x < LINE_BUF)%nat →
  ∃ b', strcat b src = Done b' ∧ line_is b' (s ++ x).
Proof.
  intros [Hb Hl] Hx Hlen. unfold strcat. rewrite (bind_done _ _ _ (str_scan_len_spec _ _ Hb)).
  rewrite (bind_done _ _ _ Hx).
  destruct (write_str b (length s) s x Hb) as (b' & Hw & Hs & Hl');
    [by eapply c_str_nonzero|lia|lia|].
  exists b'. split; [done|]. split; [by rewrite Hs, take_ge by lia|lia].
Qed.

Lemma line_zero : line_is (zeros LINE_BUF) [].
Proof. split; [done|apply length_replicate]. Qed.

Lemma holds_len b s : holds b s → c_str b = Done s ∧ (length s < STRING_BUF)%nat.
Proof. intros [Hb Hl]. split; [done|]. rewrite <- Hl. by apply c_str_length. Qed.

(** One more piece of text in the buffer. *)
Ltac cat x Hx :=
  let b := fresh "b" in let Hr := fresh "Hr" in let Hb := fresh "Hb" in
  match goal with
  | Hl : line_is ?b0 ?s |- context [strcat ?b0 ?src] =>
      destruct (strcat_ok b0 s src x Hl Hx) as (b & Hr & Hb);
      [rewrite ?length_app; cbn; unfold LINE_BUF, STRING_BUF in *; lia
      |rewrite (bind_done _ _ _ Hr) || rewrite Hr; clear Hl]
  end.

Lemma node_text_ok n y :
  holds (n_section n) (s_name y) → n_isNote n = s_note y →
  ∃ b, node_text n = Done b ∧ c_str b = Done (node_str y).
Proof.
  intros [Hs Hsl]%holds_len Hnote. unfold node_text, node_str. rewrite Hnote.
  destruct (strcpy_ok _ _ (c_lit (String (Ascii.ascii_of_nat 10) "")) newline line_zero eq_refl)
    as (b1 & Hr1 & Hb1); [apply Nat.ltb_lt; reflexivity|]. rewrite (bind_done _ _ _ Hr1).
  destruct (Z.eqb_spec (s_note y) 1) as [E1|E1]; [rewrite E1; cbn [Z.eqb]|].
  - cat (bytes ";") (eq_refl : c_str (c_lit ";") = Done (bytes ";")). cat (s_name y) Hs.
    cat newline (eq_refl : c_str (c_lit (String (Ascii.ascii_of_nat 10) "")) = Done newline).
    eexists. split; [reflexivity|]. match goal with H : line_is _ _ |- _ => rewrite (proj1 H) end. by rewrite !app_nil_r, <- !app_assoc.
  - cbn [mbind outcome_bind mret outcome_ret app].
    destruct (s_note y =? 0).
    + cat (bytes "[") (eq_refl : c_str (c_lit "[") = Done (bytes "[")). cat (s_name y) Hs.
      cat (bytes "]") (eq_refl : c_str (c_lit "]") = Done (bytes "]")).
      cat newline (eq_refl : c_str (c_lit (String (Ascii.ascii_of_nat 10) "")) = Done newline).
      eexists. split; [reflexivity|]. match goal with H : line_is _ _ |- _ => rewrite (proj1 H) end. by rewrite <- !app_assoc.
    + exists b1. split; [done|]. rewrite app_nil_r. apply Hb1.
Qed.

Lemma pair_text_ok q e :
  holds (k_key q) (e_key e) → holds (k_value q) (e_val e) → k_isNote q = e_note e →
  pair_fits e → ∃ b, pair_text q = Done b ∧ c_str b = Done (pair_str e).
Proof.
  intros [Hk Hkl]%holds_len [Hv Hvl]%holds_len Hnote Hfit.
  unfold pair_fits, pair_str, pair_text in *. rewrite Hnote.
  destruct (Z.eqb_spec (e_note e) 1) as [E1|E1]; [rewrite E1; cbn [Z.eqb]|].
  - destruct (strcpy_ok _ _ (c_lit ";") (bytes ";") line_zero eq_refl) as (b1 & Hr1 & Hb1);
      [apply Nat.ltb_lt; reflexivity|]. rewrite (bind_done _ _ _ Hr1). cat (e_key e) Hk.
    cat newline (eq_refl : c_str (c_lit (String (Ascii.ascii_of_nat 10) "")) = Done newline).
    eexists. split; [reflexivity|].
    match goal with H : line_is _ _ |- _ => rewrite (proj1 H) end. by rewrite <- !app_assoc.
  - cbn [mbind outcome_bind mret outcome_ret].
    destruct (e_note e =? 0).
    + rewrite !length_app in Hfit. cbn [length] in Hfit.
      change (length (bytes "=")) with 1%nat in Hfit. change (length newline) with 1%nat in Hfit.
      destruct (strcpy_ok _ _ (k_key q) (e_key e) line_zero Hk) as (b1 & Hr1 & Hb1); [lia|].
      rewrite (bind_done _ _ _ Hr1).
      cat (bytes "=") (eq_refl : c_str (c_lit "=") = Done (bytes "=")). cat (e_val e) Hv.
      cat newline (eq_refl : c_str (c_lit (String (Ascii.ascii_of_nat 10) "")) = Done newline).
      eexists. split; [reflexivity|].
      match goal with H : line_is _ _ |- _ => rewrite (proj1 H) end. by rewrite <- !app_assoc.
    + exists (zeros LINE_BUF). split; [done|]. apply line_zero.
Qed.

(** ** The writing loop *)

(** [write] fails with an error, or makes no progress. *)
Definition write_ok (e : write_event) : Prop :=
  match e with WBytes n => n ≠ O | WInterrupted => True | WError => False end.

(** The blocks are as before. *)
Definition same_blocks (h h' : heap) : Prop :=
  h' = set_h_writes (h_writes h') (set_h_fs (h_fs h') h).

Lemma same_blocks_refl h : same_blocks h h.
Proof. by destruct h. Qed.
Lemma same_blocks_trans a b c : same_blocks a b → same_blocks b c → same_blocks a c.
Proof. unfold same_blocks. intros -> ->. by destruct a, c. Qed.

Definition there (name : list Z) (h : heap) : Prop := is_Some (fs_files (h_fs h) !! name).

Lemma there_append name s h h' : h_fs h' = fs_append name s (h_fs h) → there name h'.
Proof. unfold there. intros ->. unfold fs_append. cbn. rewrite lookup_insert_eq. eauto. Qed.

(** What a completed sequence of writes did. *)
Record written (name s : list Z) (r : Z) (h h' : heap) : Prop := {
  wr_blocks : same_blocks h h';
  wr_code : r = 0 ∨ r = WRITEERROR;
  wr_all : Forall write_ok (h_writes h) → there name h →
    r = 0 ∧ h_fs h' = fs_append name s (h_fs h) ∧ Forall write_ok (h_writes h');
}.

Lemma fs_append_app name a b fs :
  fs_append name b (fs_append name a fs) = fs_append name (a ++ b) fs.
Proof.
  unfold fs_append, fs_set_files. cbn. rewrite lookup_insert_eq. cbn.
  by rewrite insert_insert_eq, app_assoc.
Qed.

Lemma written_app name a b h h1 h2 r :
  written name a 0 h h1 → written name b r h1 h2 → written name (a ++ b) r h h2.
Proof.
  intros [H1 _ H3] [K1 K2 K3]. split; [by eapply same_blocks_trans|done|].
  intros H Hn. destruct (H3 H Hn) as (_ & Hfs & Hw).
  destruct (K3 Hw (there_append _ _ _ _ Hfs)) as (-> & -> & Hw').
  by rewrite Hfs, fs_append_app.
Qed.

Lemma written_error name a h h' b :
  written name a WRITEERROR h h' → written name (a ++ b) WRITEERROR h h'.
Proof.
  intros [H1 _ H3]. split; [done|by right|]. intros H Hn. by destruct (H3 H Hn).
Qed.

(** The loop ends within the number of events [write] still has. *)
Lemma write_loop_ok name : ∀ fuel s h,
  (length (h_writes h) ≤ fuel)%nat →
  ∃ r h', write_loop fuel name s h = Done (r, h') ∧ written name s r h h'.
Proof.
  induction fuel as [|fuel IH]; intros s h Hf; cbn [write_loop].
  - destruct (h_writes h) as [|e ws] eqn:Ew; [|cbn in Hf; lia].
    erewrite M_bind_done by (unfold write; rewrite Ew; reflexivity).
    cbn beta iota. rewrite decide_True by by right. eexists 0, _. split; [done|].
    split; [by destruct h|by left|]. intros _ _. cbn. by rewrite Ew.
  - destruct (h_writes h) as [|[n| |] ws] eqn:Ew; cbn in Hf.
    + erewrite M_bind_done by (unfold write; rewrite Ew; reflexivity).
      cbn beta iota. rewrite decide_True by by right. eexists 0, _. split; [done|].
      split; [by destruct h|by left|]. intros _ _. cbn. by rewrite Ew.
    + erewrite M_bind_done by (unfold write; rewrite Ew; reflexivity). cbn beta iota.
      case_decide as E.
      * eexists 0, _. split; [done|]. split; [by destruct h|by left|].
        rewrite Ew. intros [Hn Hws]%Forall_cons _. cbn. split; [done|]. split; [|done].
        cbn in Hn. rewrite take_ge; [done|]. destruct s; cbn in *; lia.
      * destruct (IH (drop (n `min` length s) s)
          (set_h_writes ws (set_h_fs (fs_append name (take n s) (h_fs h)) h))) as (r & h' & Hr & Hw);
          [cbn; lia|].
        exists r, h'. split; [done|]. destruct Hw as [H1 H2 H3]. split.
        { eapply same_blocks_trans; [|exact H1]. by destruct h. }
        { done. }
        rewrite Ew. intros [Hn Hws]%Forall_cons _.
        destruct (H3 Hws ltac:(by eapply there_append)) as (-> & Hfs & Hw').
        split; [done|]. split; [|done]. rewrite Hfs. cbn. rewrite fs_append_app.
        replace (n `min` length s)%nat with n by lia. by rewrite take_drop.
    + erewrite M_bind_done by (unfold write; rewrite Ew; reflexivity). cbn beta iota.
      destruct (IH s (set_h_writes ws h)) as (r & h' & Hr & Hw); [cbn; lia|].
      exists r, h'. split; [done|]. destruct Hw as [H1 H2 H3]. split.
      { eapply same_blocks_trans; [|exact H1]. by destruct h. }
      { done. }
      rewrite Ew. intros [_ Hws]%Forall_cons Hn. by apply H3.
    + erewrite M_bind_done by (unfold write; rewrite Ew; reflexivity). cbn beta iota.
      eexists WRITEERROR, _. split; [done|]. split; [by destruct h|by right|].
      rewrite Ew. by intros [Hn _]%Forall_cons.
Qed.

Lemma write_buffer_ok name b s h :
  c_str b = Done s → ∃ r h', write_buffer name b h = Done (r, h') ∧ written name s r h h'.
Proof.
  intros Hb. unfold write_buffer. rewrite (M_bind_lift _ _ _ _ Hb), M_bind_gets.
  by apply write_loop_ok.
Qed.

Lemma written_nil name h : written name [] 0 h h.
Proof.
  split; [apply same_blocks_refl|by left|]. intros H [c Hc]. split; [done|].
  split; [|done]. unfold fs_append, fname in *. rewrite Hc. cbn.
  rewrite app_nil_r, insert_id by done. by destruct (h_fs h).
Qed.

(** ** The whole file *)

Lemma pair_ok_block m e :
  pair_ok m e → ∃ q, m !! e_id e = Some q ∧ holds (k_key q) (e_key e) ∧
    holds (k_value q) (e_val e) ∧ k_isNote q = e_note e.
Proof.
  intros (key & v & Hq & Hk & Hv). apply fmap_Some in Hq as (q & Hq & [= -> -> ->]). eauto.
Qed.

Lemma same_blocks_kvs h h' : same_blocks h h' → h_kvs h' = h_kvs h.
Proof. intros ->. done. Qed.
Lemma same_blocks_ok h h' y : same_blocks h h' → node_ok h y → node_ok h' y.
Proof. intros ->. apply node_ok_frame; done. Qed.

Lemma written_blocks name s r h h' : written name s r h h' → same_blocks h h'.
Proof. by intros []. Qed.

Lemma write_pairs_ok name es : ∀ fuel h prev p,
  dseg (block_links (h_kvs h)) prev p (e_id <$> es) None →
  Forall (pair_ok (h_kvs h)) es → Forall pair_fits es → (length es ≤ fuel)%nat →
  ∃ r h', write_pairs fuel name p h = Done (r, h') ∧
    written name (concat (pair_str <$> es)) r h h'.
Proof.
  induction es as [|e es IH]; intros fuel h prev p Hd Hok Hfit Hf.
  - cbn in Hd. subst p. exists 0, h. split; [by destruct fuel|]. apply written_nil.
  - destruct Hd as (-> & n & Hn & Hd). apply fmap_Some in Hn as (m & Hm & [= _ ->]).
    apply Forall_cons in Hok as [He Hok]. apply Forall_cons in Hfit as [Hfe Hfit].
    cbn in Hf. destruct fuel as [|fuel]; [lia|]. cbn [write_pairs].
    destruct (pair_ok_block _ _ He) as (q & Hq & Hk & Hv & Hnote).
    assert (q = m) as -> by congruence. run (get_kv_ok h _ m Hm).
    destruct (pair_text_ok m e Hk Hv Hnote Hfe) as (b & Hb & Hbs).
    rewrite (M_bind_lift _ _ _ _ Hb).
    destruct (write_buffer_ok name b _ h Hbs) as (r & h1 & Hr & Hw). run Hr.
    cbn [fmap list_fmap concat]. destruct (wr_code _ _ _ _ _ Hw) as [->| ->].
    + cbn [Z.ltb Z.compare]. rewrite <- (same_blocks_kvs h h1) in Hd, Hok by by eapply written_blocks.
      destruct (IH fuel h1 _ _ Hd Hok Hfit ltac:(lia)) as (r & h2 & Hr2 & Hw2).
      exists r, h2. split; [done|]. by eapply written_app.
    + exists WRITEERROR, h1. split; [done|]. by apply written_error.
Qed.

Lemma write_nodes_ok name ns : ∀ fuel kvfuel h prev p,
  dseg (block_links (h_nodes h)) prev p (s_id <$> ns) None →
  Forall (node_ok h) ns → all_fit ns → (length ns ≤ fuel)%nat →
  Forall (λ y, (length (node_pairs y) ≤ kvfuel)%nat) ns →
  ∃ r h', write_nodes fuel kvfuel name p h = Done (r, h') ∧ written name (render ns) r h h'.
Proof.
  induction ns as [|y ns IH]; intros fuel kvfuel h prev p Hd Hok Hfit Hf Hkf.
  - cbn in Hd. subst p. exists 0, h. split; [by destruct fuel|]. apply written_nil.
  - destruct Hd as (-> & n & Hn & Hd). apply fmap_Some in Hn as (m & Hm & [= _ ->]).
    apply Forall_cons in Hok as [Hy Hok]. apply Forall_cons in Hfit as [Hfy Hfit].
    apply Forall_cons in Hkf as [Hky Hkf].
    cbn in Hf. destruct fuel as [|fuel]; [lia|]. cbn [write_nodes].
    run (get_node_ok h _ m Hm). pose proof Hy as (sec & Hs & Hsec & Hl).
    rewrite Hm in Hs. injection Hs as <- Hnote Hlist.
    destruct (node_text_ok m y Hsec Hnote) as (b & Hb & Hbs).
    rewrite (M_bind_lift _ _ _ _ Hb).
    destruct (write_buffer_ok name b _ h Hbs) as (r & h1 & Hr & Hw). run Hr.
    unfold render. cbn [fmap list_fmap concat]. unfold render_node at 1.
    destruct (wr_code _ _ _ _ _ Hw) as [->| ->].
    2:{ exists WRITEERROR, h1. split; [done|]. rewrite <- app_assoc. by apply written_error. }
    cbn [Z.ltb Z.compare].
    assert (∃ r h2, (match n_list m with
        | None => mret 0
        | Some _ => l ← get_list (n_list m); write_pairs kvfuel name (l_head l)
        end) h1 = Done (r, h2) ∧ written name (concat (pair_str <$> node_pairs y)) r h1 h2)
      as (r2 & h2 & Hr2 & Hw2).
    { pose proof (written_blocks _ _ _ _ _ Hw) as Hsame. unfold node_pairs in *. rewrite Hlist.
      destruct (s_list y) as [[l es]|]; cbn [fmap option_fmap option_map fst].
      - destruct Hl as (L & HL & Hdl & _ & Hes).
        rewrite Hsame in *. run (get_list_ok (set_h_writes (h_writes h1) (set_h_fs (h_fs h1) h)) l L HL).
        by eapply write_pairs_ok.
      - exists 0, h1. split; [done|]. apply written_nil. }
    rewrite (M_bind_done _ _ _ _ _ Hr2).
    pose proof (written_app _ _ _ _ _ _ _ Hw Hw2) as Hw12.
    destruct (wr_code _ _ _ _ _ Hw2) as [->| ->].
    2:{ exists WRITEERROR, h2. split; [done|]. by apply written_error. }
    cbn [Z.ltb Z.compare].
    pose proof (written_blocks _ _ _ _ _ Hw12) as Hsame.
    destruct (IH fuel kvfuel h2 (Some (s_id y)) (n_next m)) as (r3 & h3 & Hr3 & Hw3); try done.
    + rewrite Hsame. exact Hd.
    + eapply Forall_impl; [exact Hok|]. intros z. by apply same_blocks_ok.
    + lia.
    + exists r3, h3. split; [done|]. by eapply written_app.
Qed.

Definition v1_disk (fs : filesystem) (name : list Z) : Prop :=
  is_Some (fs_files fs !! name) ∧ fs_read_ok fs name = true ∧ fs_write_ok fs name = true.

(** On a disk that works the file holds the text of the nodes afterwards. *)
Definition saved (name : list Z) (ns : list node1) (h h' : heap) : Prop :=
  ns ≠ [] → v1_disk (h_fs h) name → Forall write_ok (h_writes h) →
  h_fs h' = fs_set_files (<[name := render ns]> (fs_files (h_fs h))) (h_fs h).

Lemma updateIniFile_ok h fp name ns :
  file_rep h fp name ns → all_fit ns →
  ∃ r h', updateIniFile (Some fp) h = Done (r, h') ∧ same_blocks h h' ∧ saved name ns h h'.
Proof.
  intros [(F & HF & Hd & _ & Hname) Hok Hnd Hl Hp] Hfit. unfold updateIniFile, saved.
  run (get_file_ok h fp F HF). unfold listIniFileNode_is_empty.
  destruct (f_head F) as [hd|] eqn:Eh; cbn [negb].
  2:{ apply dlist_None in Hd. destruct ns; [|done]. exists EMPTYLIST, h. split; [done|].
      split; [apply same_blocks_refl|done]. }
  rewrite (M_bind_lift _ _ _ _ Hname), M_bind_gets.
  unfold open_trunc, v1_disk, fname in *.
  destruct (fs_files (h_fs h) !! name) as [c|] eqn:Ec.
  2:{ exists OPENFILEERROR, h. split; [done|]. split; [apply same_blocks_refl|].
      by intros _ [[? ?] _]. }
  destruct (fs_read_ok (h_fs h) name && fs_write_ok (h_fs h) name) eqn:Eok.
  2:{ exists OPENFILEERROR, h. split; [done|]. split; [apply same_blocks_refl|].
      intros _ (_ & H1 & H2). by rewrite H1, H2 in Eok. }
  rewrite M_bind_modify. set (h1 := set_h_fs _ h). rewrite !M_bind_gets.
  destruct (write_nodes_ok name ns (node_fuel h1) (kv_fuel h1) h1 None (Some hd))
    as (r & h' & Hr & Hw).
  - exact Hd.
  - eapply Forall_impl; [exact Hok|]. intros z. by apply node_ok_frame.
  - done.
  - rewrite <- (length_fmap s_id). apply ids_size; [done|]. intros i Hi. by eapply block_there.
  - rewrite Forall_forall in Hok |- *. intros y Hy. specialize (Hok y Hy).
    apply list_elem_of_split in Hy as (a & b & ->). destruct (ids_apart a y b Hl Hp) as [Hyp _].
    destruct Hok as (_ & _ & _ & Hlist). unfold node_pairs in *.
    destruct (s_list y) as [[l es]|]; [|cbn; lia]. by eapply (list_ok_fuel h l).
  - exists r, h'. split; [exact Hr|]. destruct Hw as [H1 _ H3]. split.
    { eapply same_blocks_trans; [|exact H1]. unfold h1. by destruct h. }
    intros _ _ Hwrite. destruct H3 as (_ & -> & _); [done| |].
    { unfold there, h1. cbn. rewrite lookup_insert_eq. eauto. }
    unfold fs_append, h1, fs_set_files. cbn. rewrite lookup_insert_eq. cbn.
    by rewrite insert_insert_eq.
Qed.

Lemma same_blocks_rep name ns h h' fp :
  same_blocks h h' → file_rep h fp name ns → file_rep h' fp name ns.
Proof.
  intros -> [(F & HF & Hd & Ht & Hn) Hok ? ? ?].
  split; [by exists F| |done..]. eapply Forall_impl; [exact Hok|]. intros z. by apply node_ok_frame.
Qed.
