(* ===== verification/V1Api.v ===== *)
(** * inifile v1.0.0: the operations against the abstract nodes

    What each public operation returns, the nodes it leaves, which blocks it
    frees and what the file on disk holds afterwards. *)

From S2P Require Import Prelude CString DList FileSys Blocks V1Data V1Ops V1Rep V1List V1Find.
From stdpp Require Import gmap.

Open Scope Z_scope.

(** ** The parameters *)

(** A string argument with its length. *)
Definition v1_arg (p : option (list Z)) (len : Z) (s : list Z) : Prop :=
  ∃ b, p = Some b ∧ c_str b = Done s ∧ len = Z.of_nat (length s) ∧ 0 < len <= MAX_STRING_LEN.

Lemma v1_arg_checks p len s :
  v1_arg p len s → is_null p = false ∧ bad_len len = false ∧ ends_at p len = Done true.
Proof.
  intros (b & -> & Hb & Hl & H1 & H2). split; [done|]. split.
  - unfold bad_len. by rewrite (proj2 (Z.leb_gt _ _) H1), (proj2 (Z.ltb_ge _ _) H2).
  - unfold ends_at. rewrite (proj2 (Z.ltb_ge _ _)) by lia. rewrite Hl, Nat2Z.id.
    by rewrite (bind_done _ _ 0 (rd_ok _ _ _ (c_str_nul _ _ Hb))).
Qed.

Lemma v1_arg_str p len s :
  v1_arg p len s → ∃ b, p = Some b ∧ c_str b = Done s ∧ (length s ≤ STRING_BUF)%nat.
Proof.
  intros (b & -> & Hb & Hl & H1 & H2). exists b. split; [done|]. split; [done|].
  unfold MAX_STRING_LEN, STRING_BUF in *. lia.
Qed.

(** The bytes an operation copies. *)
Lemma v1_arg_read p len s :
  v1_arg p len s → ∃ b, p = Some b ∧ mem_read b len = Done s ∧ nonzero s ∧
    (0 < length s ≤ Z.to_nat MAX_STRING_LEN)%nat ∧ len = Z.of_nat (length s).
Proof.
  intros (b & -> & Hb & Hl & H1 & H2). exists b. split; [done|]. split.
  - pose proof (c_str_length _ _ Hb). rewrite mem_read_ok by lia. rewrite Hl, Nat2Z.id.
    apply c_str_inv in Hb as (r & -> & _). by rewrite take_app_length.
  - split; [by eapply c_str_nonzero|]. unfold MAX_STRING_LEN in *. lia.
Qed.

Section checks.
Context (par : INI_PARAMETER) (s k v : list Z).
Hypothesis Hs : v1_arg (p_section par) (p_section_len par) s.

Lemma check_key :
  v1_arg (p_key par) (p_key_len par) k →
  ini_parameter_check (Some par) getValueOfKey_type = Done true ∧
  ini_parameter_check (Some par) deleteValueOfKey_type = Done true.
Proof using Hs.
  intros Hk. destruct (v1_arg_checks _ _ _ Hs) as (S1 & S2 & S3), (v1_arg_checks _ _ _ Hk) as (K1 & K2 & K3).
  unfold ini_parameter_check. by rewrite S1, S2, S3, K1, K2, K3.
Qed.

Lemma check_value :
  v1_arg (p_key par) (p_key_len par) k → v1_arg (p_value par) (p_value_len par) v →
  ini_parameter_check (Some par) updateValueOfKey_type = Done true ∧
  ini_parameter_check (Some par) addValueOfKey_type = Done true.
Proof using Hs.
  intros Hk Hv. destruct (v1_arg_checks _ _ _ Hs) as (S1 & S2 & S3), (v1_arg_checks _ _ _ Hk) as (K1 & K2 & K3),
  (v1_arg_checks _ _ _ Hv) as (W1 & W2 & W3).
  unfold ini_parameter_check. by rewrite S1, S2, S3, K1, K2, K3, W1, W2, W3.
Qed.

Lemma check_section :
  ends_at (p_key par) (p_key_len par) = Done true →
  ini_parameter_check (Some par) deleteSection_type = Done true ∧
  ini_parameter_check (Some par) addSetction_type = Done true.
Proof using Hs.
  intros Hk. destruct (v1_arg_checks _ _ _ Hs) as (S1 & S2 & S3).
  unfold ini_parameter_check. by rewrite S1, S2, S3, Hk.
Qed.
End checks.

(** The guard of every operation. *)
Lemma good_call fp par type h :
  ini_parameter_check par type = Done true → bad_call (Some fp) par type h = Done (false, h).
Proof. intros H. unfold bad_call. by rewrite (M_bind_lift _ _ _ _ H). Qed.

(** ** Reading a value *)

(** Where the returned string starts in a value. *)
Definition value_offset (v : list Z) : option nat :=
  match v with
  | [] => Some O
  | c :: _ => if c =? CONTENT_NEELINE then None
              else if bool_decide (span_len is_blank1 v = length v) then None
              else Some (span_len is_blank1 v)
  end.

Lemma spacetab_scan_spec b v p :
  c_str b = Done v →
  spacetab_scan b p = Done (if bool_decide (v ≠ [] ∧ span_len is_blank1 v = length v) then None
                            else Some (p + span_len is_blank1 v)%nat).
Proof.
  intros Hb. apply c_str_inv in Hb as (r & -> & Hnz). revert p.
  induction Hnz as [|c v Hc Hv IH]; intros p.
  - cbn. do 2 f_equal. lia.
  - cbn [app spacetab_scan span_len]. destruct (is_blank1 c) eqn:Eb.
    + destruct v as [|d v]; cbn [app].
      * rewrite Z.eqb_refl. done.
      * apply Forall_cons in Hv as [Hd _]. change CONTENT_NULL with 0.
        rewrite (proj2 (Z.eqb_neq d 0) Hd). specialize (IH (S p)). cbn [app] in IH. rewrite IH.
        f_equal. cbn [length]. repeat case_bool_decide; naive_solver lia || (try (f_equal; lia)).
    + rewrite bool_decide_false by (cbn; naive_solver lia). do 2 f_equal. lia.
Qed.

Lemma delete_spacetab_begin_spec b v :
  c_str b = Done v → delete_spacetab_begin b = Done (value_offset v).
Proof.
  intros Hb. unfold delete_spacetab_begin.
  assert (∃ c, b !! 0%nat = Some c ∧ (c =? CONTENT_NEELINE) =
    match v with [] => false | d :: _ => d =? CONTENT_NEELINE end) as (c & Hc & Hn).
  { destruct v as [|d v].
    - exists 0. split; [by apply (c_str_nul b [])|done].
    - exists d. split; [|done]. rewrite (c_str_lookup _ _ 0 Hb); [done|cbn; lia]. }
  rewrite (bind_done _ _ _ (rd_ok _ _ _ Hc)), Hn, (spacetab_scan_spec _ _ _ Hb).
  destruct v as [|d v]; [done|]. unfold value_offset. destruct (d =? CONTENT_NEELINE); [done|].
  rewrite Nat.add_0_l. f_equal. repeat case_bool_decide; naive_solver.
Qed.

(** ** One node of the file changes *)

Lemma bind_middle {A B} (f : A → list B) a x b : (a ++ x :: b) ≫= f = (a ≫= f) ++ f x ++ (b ≫= f).
Proof. by rewrite bind_app. Qed.

Lemma nodup_shrink (a x x' b : list nat) :
  NoDup (a ++ x ++ b) → NoDup x' → (∀ i, i ∈ x' → i ∈ x) → NoDup (a ++ x' ++ b).
Proof.
  intros (Ha & Hab & Hxb)%NoDup_app Hx' Hsub. apply NoDup_app in Hxb as (_ & Hxb & Hb).
  apply NoDup_app. split; [done|]. split.
  - intros i Hi Hin. apply (Hab i Hi). apply elem_of_app in Hin as [?|?]; apply elem_of_app; eauto.
  - apply NoDup_app. split; [done|]. split; [|done]. intros i Hi. by apply Hxb, Hsub.
Qed.

Section one_node.
Context (h h' : heap) (fp : nat) (name : list Z) (N1 : list node1) (y y' : node1) (N2 : list node1).
Hypothesis Hrep : file_rep h fp name (N1 ++ y :: N2).
Hypothesis Hid : s_id y' = s_id y.
Hypothesis Hfiles : h_files h' = h_files h.
Hypothesis Hlinks : ∀ j, block_links (h_nodes h') j = block_links (h_nodes h) j.
Hypothesis Hother : ∀ j, j ≠ s_id y → h_nodes h' !! j = h_nodes h !! j.
Hypothesis Hlists : ∀ l, l ∉ node_lists y → l ∉ node_lists y' → h_lists h' !! l = h_lists h !! l.
Hypothesis Hkvs : ∀ i, i ∉ e_id <$> node_pairs y → i ∉ e_id <$> node_pairs y' →
  h_kvs h' !! i = h_kvs h !! i.
Hypothesis Hnew : node_ok h' y'.
Hypothesis Hlids : NoDup (list_ids (N1 ++ y' :: N2)).
Hypothesis Hpids : NoDup (pair_ids (N1 ++ y' :: N2)).

Lemma file_rep_node : file_rep h' fp name (N1 ++ y' :: N2).
Proof using All.
  destruct Hrep as [(F & HF & Hd & Ht & Hn) Hok Hnd Hl Hp].
  assert (s_id <$> N1 ++ y' :: N2 = s_id <$> N1 ++ y :: N2) as Eids
  by (by rewrite !fmap_app, !fmap_cons, Hid).
  split; [| |by rewrite Eids|done|done].
  - exists F. rewrite Hfiles, Eids. split; [done|]. split; [|done].
  eapply dseg_frame; [|exact Hd]. intros i _. apply Hlinks.
  - destruct (ids_apart _ _ _ Hl Hp) as [_ Hz]. destruct (ids_apart _ _ _ Hlids Hpids) as [_ Hz'].
  apply Forall_app in Hok as [Hok1 Hok2]. apply Forall_cons in Hok2 as [_ Hok2].
  assert (∀ z, z ∈ N1 ++ N2 → node_ok h z → node_ok h' z) as Hframe.
  { intros z Hin. destruct (Hz z Hin) as [Hzl Hzp], (Hz' z Hin) as [Hzl' Hzp'].
    apply node_ok_frame.
    - rewrite Hother; [done|]. intros E. rewrite fmap_app, fmap_cons in Hnd.
      destruct (nodup_middle _ _ _ Hnd) as (H1 & H2 & _).
      apply elem_of_app in Hin as [Hin|Hin]; [apply H1|apply H2]; rewrite <- E;
        by apply list_elem_of_fmap_2.
    - intros l Hl'. apply Hlists; [by apply Hzl|by apply Hzl'].
    - intros i Hi. apply Hkvs; [by apply Hzp|by apply Hzp']. }
  rewrite Forall_forall in Hok1, Hok2. apply Forall_app. split; [|constructor; [done|]];
    apply Forall_forall; intros z Hin; apply Hframe; try apply elem_of_app; eauto.
Qed.
End one_node.

(** A node with other pairs. *)
Definition with_pairs (y : node1) (es : list pair1) : node1 :=
  NODE (s_id y) (s_name y) (s_note y) ((λ p, (fst p, es)) <$> s_list y).

Lemma with_pairs_pairs y es : is_Some (s_list y) → node_pairs (with_pairs y es) = es.
Proof. unfold node_pairs, with_pairs. by intros [[l es'] ->]. Qed.
Lemma with_pairs_lists y es : node_lists (with_pairs y es) = node_lists y.
Proof. unfold node_lists, with_pairs. cbn. by destruct (s_list y) as [[l es']|]. Qed.
Lemma node_pairs_some y e l1 l2 :
  node_pairs y = l1 ++ e :: l2 → ∃ l, s_list y = Some (l, l1 ++ e :: l2).
Proof. unfold node_pairs. destruct (s_list y) as [[l es]|]; [intros ->; eauto|by destruct l1]. Qed.

Lemma list_ids_with N1 y es N2 :
  list_ids (N1 ++ with_pairs y es :: N2) = list_ids (N1 ++ y :: N2).
Proof. by rewrite !list_ids_app, !list_ids_cons, with_pairs_lists. Qed.

(** ** [getValueOfKey] *)

Definition find_in (s k : list Z) (ns : list node1) : option pair1 :=
  find_sec s ns ≫= λ y, find_pair k (node_pairs y).

Lemma find_sec_ok h fp name ns s y :
  file_rep h fp name ns → find_sec s ns = Some y →
  node_ok h y ∧ NoDup (e_id <$> node_pairs y) ∧ ∃ N1 N2, ns = N1 ++ y :: N2.
Proof.
  intros [_ Hok _ Hl Hp] Hf. apply find_sec_split in Hf as (N1 & N2 & -> & _).
  destruct (ids_apart _ _ _ Hl Hp) as [Hy _]. apply Forall_app in Hok as [_ Hok].
  apply Forall_cons in Hok as [Hok _]. eauto.
Qed.

(** Both searches, as the operations run them. *)
Section lookup.
Context (h : heap) (fp : nat) (name : list Z) (ns : list node1) (par : INI_PARAMETER) (s k : list Z).
Hypothesis Hrep : file_rep h fp name ns.
Hypothesis Hs : v1_arg (p_section par) (p_section_len par) s.
Hypothesis Hk : v1_arg (p_key par) (p_key_len par) k.

Lemma run_find_section :
  findIniFileNode (Some fp) (the_section (Some par)) h = Done (s_id <$> find_sec s ns, h).
Proof using Hrep Hs.
  destruct (v1_arg_str _ _ _ Hs) as (b & Hb & Hbs & Hlen). unfold the_section. cbn [mbind option_bind].
  rewrite Hb. by eapply findIniFileNode_spec.
Qed.

Lemma run_find_key y :
  find_sec s ns = Some y →
  findIniKeyValue (Some (s_id y)) (the_key (Some par)) h =
  Done (e_id <$> find_pair k (node_pairs y), h).
Proof using Hrep Hk.
  intros Hy. destruct (find_sec_ok _ _ _ _ _ _ Hrep Hy) as (Hok & Hnd & _).
  destruct (v1_arg_str _ _ _ Hk) as (b & Hb & Hbs & Hlen). unfold the_key. cbn [mbind option_bind].
  rewrite Hb. by apply findIniKeyValue_spec.
Qed.
End lookup.

(** [getValueOfKey] of version 1 returns a pointer into the value of the
    first matching pair of the first matching section, past the leading
    blanks (NULL when there is none, or only blanks), and changes nothing. *)
Theorem getValueOfKey_finds h fp name ns par s k :
  file_rep h fp name ns →
  v1_arg (p_section par) (p_section_len par) s → v1_arg (p_key par) (p_key_len par) k →
  getValueOfKey (Some fp) (Some par) h =
  Done (find_in s k ns ≫= λ e, (λ o, (e_id e, o)) <$> value_offset (e_val e), h).
Proof.
  intros Hrep Hs Hk. unfold getValueOfKey.
  run (good_call fp (Some par) _ h (proj1 (check_key par s k Hs Hk))).
  run (run_find_section h fp name ns par s Hrep Hs). unfold find_in.
  destruct (find_sec s ns) as [y|] eqn:Ey; cbn [fmap option_fmap option_map mbind option_bind]; [|done].
  run (run_find_key h fp name ns par s k Hrep Hk y Ey).
  destruct (find_pair k (node_pairs y)) as [e|] eqn:Ee;
    cbn [fmap option_fmap option_map mbind option_bind]; [|done].
  destruct (find_sec_ok _ _ _ _ _ _ Hrep Ey) as (Hok & _).
  apply find_pair_Some in Ee as (l1 & l2 & He & _).
  destruct (node_pairs_some _ _ _ _ He) as (l & Hl).
  destruct Hok as (_ & _ & _ & Hlist). rewrite Hl in Hlist. destruct Hlist as (_ & _ & _ & _ & Hes).
  rewrite Forall_forall in Hes. destruct (Hes e) as (key & v & Hq & _ & [Hv _]).
  { apply elem_of_app. right. by left. }
  apply fmap_Some in Hq as (q & Hq & [= -> -> _]).
  run (get_kv_ok h (e_id e) q Hq).
  rewrite (M_bind_lift _ _ _ _ (delete_spacetab_begin_spec _ _ Hv)). done.
Qed.

(** ** [deleteValueOfKey] *)

(** The list after [listkeyValueNode_delete]. *)
Lemma list_ok_without h l L l1 e l2 :
  h_lists h !! l = Some L → dlist (block_links (h_kvs h)) (l_head L) (e_id <$> l1 ++ e :: l2) →
  Forall (pair_ok (h_kvs h)) (l1 ++ e :: l2) → NoDup (e_id <$> l1 ++ e :: l2) →
  list_ok (heap_without h l L (e_id <$> l1) (e_id e) (e_id <$> l2)) l (l1 ++ l2).
Proof.
  intros HL Hd Hes Hnd. rewrite fmap_app, fmap_cons in Hd, Hnd.
  exists (list_without L (e_id <$> l1) (e_id <$> l2)).
  split; [apply lookup_insert_eq|]. cbn [l_head l_tail list_without].
  rewrite fmap_app. split; [by eapply spliced_dlist|]. split; [done|].
  destruct (nodup_middle _ _ _ Hnd) as (H1 & H2 & _).
  rewrite Forall_forall in Hes. apply Forall_forall. intros x Hx.
  apply (pair_ok_frame (h_kvs h)).
  - cbn. apply (spliced_data kv_content); [done|done|]. intros E.
    apply elem_of_app in Hx as [Hx|Hx]; [apply H1|apply H2]; rewrite <- E;
      by apply list_elem_of_fmap_2.
  - apply Hes. apply elem_of_app in Hx as [Hx|Hx]; apply elem_of_app; [by left|right; by right].
Qed.

(** The file after one pair of the node [y] was removed. *)
Lemma delete_pair_rep h fp name N1 y N2 l L l1 e l2 :
  file_rep h fp name (N1 ++ y :: N2) → s_list y = Some (l, l1 ++ e :: l2) →
  h_lists h !! l = Some L → dlist (block_links (h_kvs h)) (l_head L) (e_id <$> l1 ++ e :: l2) →
  Forall (pair_ok (h_kvs h)) (l1 ++ e :: l2) →
  file_rep (heap_without h l L (e_id <$> l1) (e_id e) (e_id <$> l2)) fp name
    (N1 ++ with_pairs y (l1 ++ l2) :: N2).
Proof.
  intros Hrep Hl HL Hd Hes. pose proof Hrep as [_ Hok _ Hlid Hpid].
  destruct (ids_apart _ _ _ Hlid Hpid) as [Hnd _].
  assert (node_pairs y = l1 ++ e :: l2) as Hpy by (unfold node_pairs; by rewrite Hl).
  assert (node_lists y = [l]) as Hly by (unfold node_lists; by rewrite Hl).
  assert (node_pairs (with_pairs y (l1 ++ l2)) = l1 ++ l2) as Hpy'
    by (apply with_pairs_pairs; rewrite Hl; eauto).
  rewrite Hpy in Hnd.
  apply (file_rep_node h _ fp name N1 y (with_pairs y (l1 ++ l2)) N2 Hrep); try done.
  - intros l' H1 _. cbn. rewrite lookup_insert_ne; [done|]. intros <-. apply H1. rewrite Hly. by left.
  - intros i H1 _. cbn. apply spliced_lookup. rewrite Hpy, fmap_app, fmap_cons in H1. done.
  - apply Forall_app in Hok as [_ Hok]. apply Forall_cons in Hok as [(sec & Hn & Hsec & _) _].
    exists sec. cbn. split; [by rewrite Hn, Hl|]. split; [done|]. rewrite Hl.
    cbn [fmap option_fmap option_map fst]. by apply list_ok_without.
  - by rewrite list_ids_with.
  - rewrite pair_ids_app, pair_ids_cons, Hpy'. rewrite pair_ids_app, pair_ids_cons, Hpy in Hpid.
    eapply nodup_shrink; [exact Hpid|..].
    + rewrite fmap_app, fmap_cons in Hnd. rewrite fmap_app.
      apply NoDup_app in Hnd as (Ha & Hab & Hb). apply NoDup_cons in Hb as [_ Hb].
      apply NoDup_app. split; [done|]. split; [|done]. intros i Hi Hin. apply (Hab i Hi). by right.
    + intros i. rewrite !fmap_app, fmap_cons. set_solver.
Qed.

Lemma all_fit_middle N1 y N2 :
  all_fit (N1 ++ y :: N2) ↔ all_fit N1 ∧ Forall pair_fits (node_pairs y) ∧ all_fit N2.
Proof. unfold all_fit. by rewrite Forall_app, Forall_cons. Qed.

Lemma all_fit_without N1 y l1 e l2 N2 :
  all_fit (N1 ++ y :: N2) → node_pairs y = l1 ++ e :: l2 →
  all_fit (N1 ++ with_pairs y (l1 ++ l2) :: N2).
Proof.
  intros Hfit Hpy. apply all_fit_middle in Hfit as (F1 & F2 & F3). apply all_fit_middle.
  split; [done|]. split; [|done]. destruct (node_pairs_some _ _ _ _ Hpy) as (l & Hl).
  rewrite with_pairs_pairs by (rewrite Hl; eauto).
  rewrite Hpy, Forall_app, Forall_cons in F2. apply Forall_app. naive_solver.
Qed.

(** C30: [deleteValueOfKey] of version 1 removes the first matching pair,
    frees exactly its block, keeps every other block's strings, and rewrites
    the file from the remaining nodes. *)
Theorem deleteValueOfKey_removes h fp name N1 y N2 l1 e l2 par s k :
  file_rep h fp name (N1 ++ y :: N2) → all_fit (N1 ++ y :: N2) →
  v1_arg (p_section par) (p_section_len par) s → v1_arg (p_key par) (p_key_len par) k →
  find_sec s (N1 ++ y :: N2) = Some y → find_pair k (node_pairs y) = Some e →
  node_pairs y = l1 ++ e :: l2 →
  ∃ h', deleteValueOfKey (Some fp) (Some par) h = Done (0, h') ∧
    file_rep h' fp name (N1 ++ with_pairs y (l1 ++ l2) :: N2) ∧
    dom (h_kvs h') = dom (h_kvs h) ∖ {[e_id e]} ∧ dom (h_lists h') = dom (h_lists h) ∧
    h_nodes h' = h_nodes h ∧ h_files h' = h_files h ∧
    saved name (N1 ++ with_pairs y (l1 ++ l2) :: N2) h h'.
Proof.
  intros Hrep Hfit Hs Hk Hy He Hpy. pose proof Hrep as [_ Hok _ Hlid Hpid].
  destruct (ids_apart _ _ _ Hlid Hpid) as [Hnd _]. rewrite Hpy in Hnd.
  destruct (node_pairs_some _ _ _ _ Hpy) as (l & Hl).
  apply Forall_app in Hok as [_ Hok]. apply Forall_cons in Hok as [Hyok _].
  pose proof Hyok as (sec & Hn & _ & Hlist). rewrite Hl in Hlist.
  destruct Hlist as (L & HL & Hd & Ht & Hes).
  pose proof (delete_pair_rep h fp name N1 y N2 l L l1 e l2 Hrep Hl HL Hd Hes) as Hrep1.
  set (h1 := heap_without _ _ _ _ _ _) in Hrep1.
  destruct (updateIniFile_ok h1 fp name _ Hrep1) as (r & h' & Hr & Hsame & Hsaved).
  { by apply (all_fit_without N1 y l1 e l2 N2). }
  exists h'. split.
  - unfold deleteValueOfKey.
    run (good_call fp (Some par) _ h (proj2 (check_key par s k Hs Hk))).
    run (run_find_section h fp name _ par s Hrep Hs). rewrite Hy. cbn [fmap option_fmap option_map].
    run (run_find_key h fp name _ par s k Hrep Hk y Hy). rewrite He.
    cbn [fmap option_fmap option_map].
    destruct (node_ok_block _ _ Hyok) as (n & Hn' & Hnl).
    run (get_node_ok h _ n Hn'). rewrite Hnl, Hl. cbn [fmap option_fmap option_map fst].
    rewrite fmap_app, fmap_cons in Hd, Ht, Hnd.
    run (listkeyValueNode_delete_run h l L _ _ _ HL Hd Ht Hnd).
    by run Hr.
  - split; [by eapply same_blocks_rep|]. rewrite Hsame. split; [apply spliced_dom|].
    split; [|done]. cbn. rewrite dom_insert_L. apply elem_of_dom_2 in HL. set_solver.
Qed.

(** ** inifile v1.0.0: closing a file and deleting a section

    [exitOperationIniFile] frees every block of the file and nothing else;
    [deleteSection] removes one of several nodes with everything it owns. *)

(** C31: [exitOperationIniFile] of version 1 frees the file block, every node,
    every list and every pair, each exactly once, and no other block. *)
Theorem exitOperationIniFile_frees h fp name ns :
  file_rep h fp name ns →
  exitOperationIniFile (Some fp) h =
  Done ((0, None),
        Heap (delete fp (h_files h)) (kill (s_id <$> ns) (h_nodes h))
          (kill (list_ids ns) (h_lists h)) (kill (pair_ids ns) (h_kvs h))
          (h_next h) (h_fs h) (h_writes h)).
Proof.
  intros Hrep. unfold exitOperationIniFile. run (destory_run h fp name ns Hrep). done.
Qed.

(** ** [deleteSection] *)

Lemma delete_node_rep h fp name N1 y N2 F :
  file_rep h fp name (N1 ++ y :: N2) → h_files h !! fp = Some F →
  dlist (block_links (h_nodes h)) (f_head F) (s_id <$> N1 ++ y :: N2) →
  c_str (f_fileName F) = Done name →
  file_rep (heap_without_node h fp F (s_id <$> N1) y (s_id <$> N2)) fp name (N1 ++ N2).
Proof.
  intros [_ Hok Hnd Hl Hp] HF Hd Hname. rewrite fmap_app, fmap_cons in Hd, Hnd.
  destruct (ids_apart _ _ _ Hl Hp) as [_ Hz]. destruct (nodup_middle _ _ _ Hnd) as (H1 & H2 & _).
  split.
  - exists (file_without F (s_id <$> N1) (s_id <$> N2)). split; [apply lookup_insert_eq|].
    rewrite fmap_app. split; [by eapply spliced_dlist|]. done.
  - assert (∀ z, z ∈ N1 ++ N2 → node_ok h z →
      node_ok (heap_without_node h fp F (s_id <$> N1) y (s_id <$> N2)) z) as Hframe.
    { intros z Hin. destruct (Hz z Hin) as [Hzl Hzp]. apply node_ok_frame; cbn.
      - apply (spliced_data node_content); [done|done|]. intros E.
        apply elem_of_app in Hin as [Hin|Hin]; [apply H1|apply H2]; rewrite <- E;
          by apply list_elem_of_fmap_2.
      - intros l Hl'. by apply kill_out, Hzl.
      - intros i Hi. by apply kill_out, Hzp. }
    apply Forall_app in Hok as [Hok1 Hok2]. apply Forall_cons in Hok2 as [_ Hok2].
    rewrite Forall_forall in Hok1, Hok2. apply Forall_forall. intros z Hin. apply Hframe; [done|].
    apply elem_of_app in Hin as [?|?]; eauto.
  - rewrite fmap_app. apply NoDup_app in Hnd as (Ha & Hab & Hb). apply NoDup_cons in Hb as [_ Hb].
    apply NoDup_app. split; [done|]. split; [|done]. intros i Hi Hin. apply (Hab i Hi). by right.
  - rewrite list_ids_app, list_ids_cons in Hl. rewrite list_ids_app.
    apply (nodup_shrink _ _ [] _ Hl); [constructor|]. intros i Hi. by apply elem_of_nil in Hi.
  - rewrite pair_ids_app, pair_ids_cons in Hp. rewrite pair_ids_app.
    apply (nodup_shrink _ _ [] _ Hp); [constructor|]. intros i Hi. by apply elem_of_nil in Hi.
Qed.

(** C15: [deleteSection] of version 1 removes the first matching node when it
    is not the only one, frees its block, its list and its pairs, keeps the
    other nodes, and rewrites the file from them. *)
Theorem deleteSection_removes h fp name N1 y N2 par s :
  file_rep h fp name (N1 ++ y :: N2) → all_fit (N1 ++ y :: N2) → N1 ++ N2 ≠ [] →
  v1_arg (p_section par) (p_section_len par) s →
  ends_at (p_key par) (p_key_len par) = Done true →
  find_sec s (N1 ++ y :: N2) = Some y →
  ∃ h', deleteSection (Some fp) (Some par) h = Done (0, h') ∧
    file_rep h' fp name (N1 ++ N2) ∧
    dom (h_nodes h') = dom (h_nodes h) ∖ {[s_id y]} ∧
    h_lists h' = kill (node_lists y) (h_lists h) ∧
    h_kvs h' = kill (e_id <$> node_pairs y) (h_kvs h) ∧
    saved name (N1 ++ N2) h h'.
Proof.
  intros Hrep Hfit Hne Hs Hkey Hy. pose proof Hrep as [(F & HF & Hd & Ht & Hname) Hok Hnd Hl Hp].
  destruct (ids_apart _ _ _ Hl Hp) as [Hyp _].
  apply Forall_app in Hok as [_ Hok]. apply Forall_cons in Hok as [Hyok _].
  pose proof (delete_node_rep h fp name N1 y N2 F Hrep HF Hd Hname) as Hrep1.
  set (h1 := heap_without_node _ _ _ _ _ _) in Hrep1.
  destruct (updateIniFile_ok h1 fp name _ Hrep1) as (r & h' & Hr & Hsame & Hsaved).
  { apply all_fit_middle in Hfit as (F1 & _ & F2). by apply Forall_app. }
  rewrite fmap_app, fmap_cons in Hd, Ht, Hnd. exists h'. split.
  - unfold deleteSection.
    run (good_call fp (Some par) _ h (proj1 (check_section par s Hs Hkey))).
    run (run_find_section h fp name _ par s Hrep Hs). rewrite Hy. cbn [fmap option_fmap option_map].
    run (listIniFileNode_delete_run h fp F _ _ _ HF Hd Ht Hnd Hyok Hyp
      ltac:(destruct N1, N2; cbn in *; rewrite ?length_app, ?length_fmap; cbn; done || lia)).
    by run Hr.
  - split; [by eapply same_blocks_rep|]. rewrite Hsame. split; [apply spliced_dom|]. done.
Qed.
