(* ===== verification/V1Change.v ===== *)
(** * inifile v1.0.0: updating and adding

    [updateValueOfKey] overwrites the value of a pair, [addValueOfKey] appends
    a pair to a section and [addSetction] appends a section; each rewrites the
    file from the new nodes. *)

From S2P Require Import Prelude CString DList Blocks FileSys V1Data V1Ops V1Rep V1List V1Find V1Api.
From stdpp Require Import gmap.

Open Scope Z_scope.

(** ** The new value *)

(** A blank, the value, a newline. *)
Definition stored_value (v : list Z) : list Z := CONTENT_SPACE :: v ++ [CONTENT_NEELINE].
Definition stored_key (k : list Z) : list Z := k ++ [CONTENT_TAB].

Lemma zeros_app a b : zeros (a + b) = zeros a ++ zeros b.
Proof. apply replicate_add. Qed.

(** Writing into a buffer that is zero as far as the write reaches. *)
Lemma splice_zeros n r p x :
  (p + length x ≤ n)%nat →
  splice (zeros n ++ r) p x = zeros p ++ x ++ zeros (n - p - length x) ++ r.
Proof.
  intros H. unfold splice, zeros.
  rewrite take_app_le, take_replicate by (rewrite length_replicate; lia).
  rewrite drop_app_le, drop_replicate by (rewrite length_replicate; lia).
  rewrite Nat.min_l by lia. by rewrite Nat.sub_add_distr.
Qed.

(** What [put_value] leaves in a value array whose first [n] bytes are zero. *)
Lemma put_value_ok n r p len v :
  v1_arg p len v → (length v + 3 ≤ n)%nat →
  ∃ b, put_value (zeros n ++ r) p len = Done b ∧ c_str b = Done (stored_value v) ∧
    length b = (n + length r)%nat.
Proof.
  intros Hv Hn. destruct (v1_arg_read _ _ _ Hv) as (vb & -> & Hm & Hnz & Hl & ->).
  unfold put_value.
  rewrite mem_write_ok by (rewrite length_app; unfold zeros; rewrite length_replicate; cbn; lia).
  cbn [mbind outcome_bind]. rewrite (bind_done _ _ _ Hm).
  rewrite (splice_zeros n r 0 [CONTENT_SPACE]) by (cbn; lia). cbn [zeros replicate app length].
  rewrite mem_write_ok.
  2:{ cbn. rewrite length_app. unfold zeros. rewrite length_replicate. lia. }
  cbn [mbind outcome_bind].
  set (z := zeros (n - 0 - 1)).
  assert (∀ q x, splice (CONTENT_SPACE :: q) 1 x = CONTENT_SPACE :: splice q 0 x) as Hs1 by done.
  rewrite Hs1. unfold z. rewrite (splice_zeros _ r 0 v) by lia. cbn [zeros replicate app].
  rewrite mem_write_ok.
  2:{ cbn. rewrite !length_app. unfold zeros. rewrite length_replicate. lia. }
  assert (∀ q x, splice (CONTENT_SPACE :: v ++ q) (1 + length v) x =
                 CONTENT_SPACE :: v ++ splice q 0 x) as Hs2.
  { intros q x. unfold splice. cbn [app take drop plus length Nat.add]. f_equal.
    rewrite take_app_length, take_0, drop_app_ge by lia. cbn [app]. do 3 f_equal. lia. }
  rewrite Hs2, (splice_zeros _ r 0 [CONTENT_NEELINE]) by (cbn; lia). cbn [zeros replicate app length].
  eexists. split; [done|]. split.
  - destruct (n - 0 - 1 - 0 - length v - 0 - 1)%nat as [|m] eqn:E; [lia|].
    cbn [zeros replicate app].
    replace (CONTENT_SPACE :: v ++ CONTENT_NEELINE :: 0 :: replicate m 0 ++ r)
      with (stored_value v ++ 0 :: replicate m 0 ++ r)
      by (unfold stored_value; cbn; by rewrite <- app_assoc).
    apply c_str_app. constructor; [done|]. apply Forall_app. split; [done|]. by repeat constructor.
  - cbn. rewrite !length_app. cbn. rewrite length_app. unfold zeros. rewrite length_replicate. lia.
Qed.

(** ** [updateValueOfKey] *)

Definition with_value (e : pair1) (v : list Z) : pair1 :=
  PAIR (e_id e) (e_key e) (stored_value v) (e_note e).

Lemma new_value_list_ok h l L l1 e l2 q b v :
  h_lists h !! l = Some L → dlist (block_links (h_kvs h)) (l_head L) (e_id <$> l1 ++ e :: l2) →
  l_tail L = last (e_id <$> l1 ++ e :: l2) →
  Forall (pair_ok (h_kvs h)) (l1 ++ e :: l2) → NoDup (e_id <$> l1 ++ e :: l2) →
  h_kvs h !! e_id e = Some q → holds b (stored_value v) →
  list_ok (set_h_kvs (alter (k_set_value b) (e_id e) (h_kvs h)) h) l (l1 ++ with_value e v :: l2).
Proof.
  intros HL Hd Ht Hes Hnd Hq Hb.
  assert (e_id <$> l1 ++ with_value e v :: l2 = e_id <$> l1 ++ e :: l2) as Eids
    by by rewrite !fmap_app, !fmap_cons.
  exists L. split; [done|]. rewrite Eids. split.
  { eapply dseg_frame; [|exact Hd]. intros i _. by apply block_links_alter. }
  split; [done|]. rewrite fmap_app, fmap_cons in Hnd.
  destruct (nodup_middle _ _ _ Hnd) as (H1 & H2 & _).
  apply Forall_app in Hes as [He1 He2]. apply Forall_cons in He2 as [He He2].
  assert (∀ x, pair_ok (h_kvs h) x → e_id x ≠ e_id e →
    pair_ok (alter (k_set_value b) (e_id e) (h_kvs h)) x) as Hother.
  { intros x Hx Hne. eapply pair_ok_frame; [|exact Hx]. by rewrite lookup_alter_ne. }
  apply Forall_app. split; [|constructor].
  - rewrite Forall_forall in He1 |- *. intros x Hx. apply Hother; [by apply He1|].
    intros E. apply H1. rewrite <- E. by apply list_elem_of_fmap_2.
  - destruct He as (key & val & Hc & Hkey & _). rewrite Hq in Hc. injection Hc as <- _ Hn.
    exists (k_key q), b. cbn. rewrite lookup_alter_eq, Hq. cbn.
    unfold kv_content. cbn. by rewrite Hn.
  - rewrite Forall_forall in He2 |- *. intros x Hx. apply Hother; [by apply He2|].
    intros E. apply H2. rewrite <- E. by apply list_elem_of_fmap_2.
Qed.

Lemma new_value_file_rep h fp name N1 y N2 l1 e l2 q b v :
  file_rep h fp name (N1 ++ y :: N2) → node_pairs y = l1 ++ e :: l2 →
  h_kvs h !! e_id e = Some q → holds b (stored_value v) →
  file_rep (set_h_kvs (alter (k_set_value b) (e_id e) (h_kvs h)) h) fp name
    (N1 ++ with_pairs y (l1 ++ with_value e v :: l2) :: N2).
Proof.
  intros Hrep Hpy Hq Hb. pose proof Hrep as [_ Hok _ Hlid Hpid].
  destruct (ids_apart _ _ _ Hlid Hpid) as [Hnd _]. rewrite Hpy in Hnd.
  destruct (node_pairs_some _ _ _ _ Hpy) as (l & Hl).
  apply Forall_app in Hok as [_ Hok]. apply Forall_cons in Hok as [(sec & Hn & Hsec & Hlist) _].
  rewrite Hl in Hlist. destruct Hlist as (L & HL & Hd & Ht & Hes).
  apply (file_rep_node h _ fp name N1 y _ N2 Hrep); try done.
  - intros i Hi _. cbn. rewrite lookup_alter_ne; [done|]. intros <-. apply Hi.
    rewrite Hpy, fmap_app, fmap_cons. apply elem_of_app. right. by left.
  - exists sec. cbn. split; [by rewrite Hn, Hl|]. split; [done|]. rewrite Hl.
    cbn [fmap option_fmap option_map fst]. by eapply new_value_list_ok.
  - by rewrite list_ids_with.
  - rewrite pair_ids_app, pair_ids_cons, with_pairs_pairs by (rewrite Hl; eauto).
    rewrite pair_ids_app, pair_ids_cons, Hpy in Hpid.
    rewrite !fmap_app, !fmap_cons in *. done.
Qed.

(** [updateValueOfKey] of version 1, with a value of at most 61 bytes,
    stores a blank, the value and a newline as the value of the first
    matching pair, leaves every other pair alone and rewrites the file. *)
Theorem updateValueOfKey_sets h fp name N1 y N2 l1 e l2 par s k v :
  file_rep h fp name (N1 ++ y :: N2) → all_fit (N1 ++ y :: N2) →
  v1_arg (p_section par) (p_section_len par) s → v1_arg (p_key par) (p_key_len par) k →
  v1_arg (p_value par) (p_value_len par) v → (length v + 3 ≤ 64)%nat →
  find_sec s (N1 ++ y :: N2) = Some y → find_pair k (node_pairs y) = Some e →
  node_pairs y = l1 ++ e :: l2 → pair_fits (with_value e v) →
  ∃ h', updateValueOfKey (Some fp) (Some par) h = Done (0, h') ∧
    file_rep h' fp name (N1 ++ with_pairs y (l1 ++ with_value e v :: l2) :: N2) ∧
    saved name (N1 ++ with_pairs y (l1 ++ with_value e v :: l2) :: N2) h h'.
Proof.
  intros Hrep Hfit Hs Hk Hv Hlen Hy He Hpy Hfe. pose proof Hrep as [_ Hok _ Hlid Hpid].
  apply Forall_app in Hok as [_ Hok]. apply Forall_cons in Hok as [(sec & _ & _ & Hlist) _].
  destruct (node_pairs_some _ _ _ _ Hpy) as (l & Hl). rewrite Hl in Hlist.
  destruct Hlist as (L & HL & _ & _ & Hes).
  apply Forall_app in Hes as [_ Hes]. apply Forall_cons in Hes as [He' _].
  destruct (pair_ok_block _ _ He') as (q & Hq & _ & [_ Hvl] & _).
  destruct (put_value_ok 64 (drop 64 (k_value q)) _ _ v Hv Hlen) as (b & Hput & Hbs & Hbl).
  assert (holds b (stored_value v)) as Hb.
  { split; [done|]. rewrite Hbl, length_drop, Hvl. reflexivity. }
  pose proof (new_value_file_rep h fp name N1 y N2 l1 e l2 q b v Hrep Hpy Hq Hb) as Hrep1.
  set (h1 := set_h_kvs _ _) in Hrep1.
  destruct (updateIniFile_ok h1 fp name _ Hrep1) as (r & h' & Hr & Hsame & Hsaved).
  { apply all_fit_middle in Hfit as (F1 & F2 & F3). apply all_fit_middle. split; [done|].
    split; [|done]. rewrite with_pairs_pairs by (rewrite Hl; eauto).
    rewrite Hpy, Forall_app, Forall_cons in F2. apply Forall_app. rewrite Forall_cons. naive_solver. }
  exists h'. split; [|split; [by eapply same_blocks_rep|done]].
  unfold updateValueOfKey.
  run (good_call fp (Some par) _ h (proj1 (check_value par s k v Hs Hk Hv))).
  run (run_find_section h fp name _ par s Hrep Hs). rewrite Hy. cbn [fmap option_fmap option_map].
  run (run_find_key h fp name _ par s k Hrep Hk y Hy). rewrite He.
  cbn [fmap option_fmap option_map]. run (get_kv_ok h (e_id e) q Hq).
  rewrite (M_bind_lift _ _ h (zeros 64 ++ drop 64 (k_value q))).
  2:{ rewrite mem_write_ok by (rewrite Hvl; apply Nat.leb_le; reflexivity). reflexivity. }
  unfold par_value, par_value_len. cbn [mbind option_bind]. rewrite (M_bind_lift _ _ _ _ Hput).
  run (upd_kv_ok h (e_id e) q (k_set_value b) Hq). by run Hr.
Qed.

(** ** Appending *)

(** Addresses from [h_next] on are free. *)
Definition heap_fresh (h : heap) : Prop := ∀ i, (h_next h ≤ i)%nat →
  h_files h !! i = None ∧ h_nodes h !! i = None ∧ h_lists h !! i = None ∧ h_kvs h !! i = None.

(** The counters of the lists have room. *)
Definition lens_ok (h : heap) : Prop :=
  (∀ l L, h_lists h !! l = Some L → 0 <= l_len L < int_max) ∧
  (∀ f F, h_files h !! f = Some F → 0 <= f_len F < int_max).

Lemma appended_steps {N} `{!LinkedNode N} (m : gmap nat N) ids e i :
  last ids = Some e → e ≠ i →
  alter (ln_set_last None) i (alter (ln_set_last (Some i)) e (alter (ln_set_pre (Some e)) i m)) =
  appended m ids i.
Proof.
  intros He Hne. unfold appended. rewrite He. apply map_eq. intros j.
  destruct (decide (i = j)) as [<-|Hi].
  - rewrite lookup_alter_eq, lookup_alter_ne, !lookup_alter_eq, lookup_alter_ne by done.
    by destruct (m !! i).
  - rewrite !(lookup_alter_ne _ _ i) by done. destruct (decide (e = j)) as [<-|].
    + by rewrite !lookup_alter_eq, lookup_alter_ne.
    + by rewrite !lookup_alter_ne.
Qed.

Lemma appended_empty {N} `{!LinkedNode N} (m : gmap nat N) i :
  alter (ln_set_last None) i (alter (ln_set_pre None) i m) = appended m [] i.
Proof.
  unfold appended. cbn. apply map_eq. intros j. destruct (decide (i = j)) as [<-|].
  - rewrite !lookup_alter_eq. by destruct (m !! i).
  - by rewrite !lookup_alter_ne.
Qed.

Section insert_pair.
Context (h : heap) (l : nat) (L : ListkeyValueNode) (ids : list nat) (i : nat).
Hypothesis HL : h_lists h !! l = Some L.
Hypothesis Hd : dlist (block_links (h_kvs h)) (l_head L) ids.
Hypothesis Ht : l_tail L = last ids.
Hypothesis Hlen : 0 <= l_len L < int_max.
Hypothesis Hi : i ∉ ids.
Hypothesis Hq : is_Some (h_kvs h !! i).

Definition list_with : ListkeyValueNode :=
  Build_ListkeyValueNode (head_or ids (Some i)) (Some i) (l_len L + 1).
Definition heap_with : heap :=
  set_h_lists (<[l := list_with]> (h_lists h)) (set_h_kvs (appended (h_kvs h) ids i) h).

(** [len++] at the end. *)
Lemma insert_end h0 L0 :
  h_lists h0 !! l = Some L0 → l_len L0 = l_len L →
  (l0 ← get_list (Some l); l' ← lift (l_incr l0); upd_list (Some l) (λ _, l')) h0 =
  Done (tt, set_h_lists (<[l := l_set_len (l_len L + 1) L0]> (h_lists h0)) h0).
Proof using Hlen.
  intros H0 E. run (get_list_ok h0 l L0 H0). unfold l_incr. rewrite E.
  rewrite (M_bind_lift _ _ _ (l_set_len (l_len L + 1) L0)).
  2:{ by rewrite (bind_done _ _ _ (int_succ_ok _ Hlen)). }
  etransitivity; [exact (upd_list_ok h0 l L0 _ H0)|].
  by rewrite <- (insert_is_alter _ _ _ _ H0).
Qed.

Lemma listkeyValueNode_insert_run :
  listkeyValueNode_insert (Some l) (Some i) h = Done (tt, heap_with).
Proof using HL Hd Ht Hlen Hi Hq.
  destruct Hq as [q Hqi]. pose proof (dseg_head _ _ _ _ _ Hd) as Hh.
  unfold listkeyValueNode_insert. run (get_list_ok h l L HL).
  unfold listkeyValueNode_is_empty. rewrite Hh.
  destruct ids as [|x ids0] eqn:Eids; cbn [head_or].
  - erewrite M_bind_done.
  2:{ run (upd_list_ok h l L (l_set_head (Some i)) HL).
      erewrite M_bind_done by (eapply upd_list_ok; cbn; by rewrite lookup_alter_eq, HL).
      erewrite M_bind_done by (eapply upd_kv_ok; cbn; exact Hqi).
      eapply upd_kv_ok. cbn. by rewrite lookup_alter_eq, Hqi. }
  etransitivity.
  { eapply insert_end; cbn; [by rewrite !lookup_alter_eq, HL|done]. }
  do 2 f_equal. unfold heap_with, set_h_lists, set_h_kvs. cbn. f_equal.
  + rewrite (alter_list_block _ _ _ _ _ HL), insert_insert_eq. unfold list_with. by rewrite Eids.
  + rewrite Eids. exact (appended_empty (h_kvs h) i).
  - destruct (last (x :: ids0)) as [e|] eqn:Ee; [|by apply last_None in Ee].
  assert (e ∈ x :: ids0) as Hin by by apply last_Some_elem_of.
  assert (e ≠ i) as Hne by (intros ->; done).
  destruct (block_there _ _ _ _ _ Hd Hin) as [qe Hqe]. rewrite Ht.
  erewrite M_bind_done.
  2:{ run (upd_kv_ok h i q (k_set_pre (Some e)) Hqi).
      erewrite M_bind_done by (eapply upd_kv_ok; cbn; rewrite lookup_alter_ne by done; exact Hqe).
      erewrite M_bind_done by (eapply upd_list_ok; cbn; exact HL).
      eapply upd_kv_ok. cbn. rewrite lookup_alter_ne by done. by rewrite lookup_alter_eq, Hqi. }
  etransitivity.
  { eapply insert_end; cbn; [by rewrite lookup_alter_eq, HL|done]. }
  do 2 f_equal. unfold heap_with, set_h_lists, set_h_kvs. cbn. f_equal.
  + rewrite <- (insert_is_alter _ _ _ _ HL), insert_insert_eq. unfold list_with.
    unfold l_set_len, l_set_tail. cbn. by rewrite Hh, Eids.
  + rewrite Eids. exact (appended_steps (h_kvs h) (x :: ids0) e i Ee Hne).
Qed.
End insert_pair.

(** ** [addValueOfKey] *)

Lemma heap_rep_frame h h' fp name ns :
  h_files h' = h_files h → h_nodes h' = h_nodes h → h_lists h' = h_lists h →
  (∀ i, i ∈ pair_ids ns → h_kvs h' !! i = h_kvs h !! i) →
  file_rep h fp name ns → file_rep h' fp name ns.
Proof.
  intros Hf Hn Hl Hk [HF Hok ? ? ?]. split; [by rewrite Hf, Hn| |done..].
  rewrite Forall_forall in Hok |- *. intros y Hy. apply (node_ok_frame h); [by rewrite Hn| | |by apply Hok].
  - intros l _. by rewrite Hl.
  - intros i Hi. apply Hk. by eapply elem_of_pair_ids.
Qed.

(** The blocks of a file are blocks. *)
Lemma rep_pair_ids h fp name ns i :
  file_rep h fp name ns → i ∈ pair_ids ns → is_Some (h_kvs h !! i).
Proof.
  intros [_ Hok _ _ _] Hi. apply list_elem_of_bind in Hi as (y & Hi & Hy).
  rewrite Forall_forall in Hok. destruct (Hok y Hy) as (_ & _ & _ & Hl).
  unfold node_pairs in Hi. destruct (s_list y) as [[l es]|]; [|by apply elem_of_nil in Hi].
  by eapply list_ok_ids.
Qed.
Lemma rep_list_ids h fp name ns l :
  file_rep h fp name ns → l ∈ list_ids ns → is_Some (h_lists h !! l).
Proof.
  intros [_ Hok _ _ _] Hl. apply list_elem_of_bind in Hl as (y & Hl & Hy).
  rewrite Forall_forall in Hok. destruct (Hok y Hy) as (_ & _ & _ & Hlist).
  unfold node_lists in Hl. destruct (s_list y) as [[l' es]|]; [|by apply elem_of_nil in Hl].
  apply list_elem_of_singleton in Hl as ->. destruct Hlist as (L & HL & _). eauto.
Qed.

(** The node with the list it has, or is given. *)
Definition with_list (y : node1) (l : nat) : node1 :=
  NODE (s_id y) (s_name y) (s_note y) (Some (l, node_pairs y)).

Lemma block_links_set_list m i v j :
  block_links (alter (n_set_list v) i m) j = block_links m j.
Proof. by apply block_links_alter. Qed.

Lemma ensure_list_ok h fp name N1 y N2 :
  file_rep h fp name (N1 ++ y :: N2) → (∀ i, (h_next h ≤ i)%nat → h_lists h !! i = None) →
  lens_ok h →
  ∃ h1 l, ensure_list (Some (s_id y)) h = Done (tt, h1) ∧
    file_rep h1 fp name (N1 ++ with_list y l :: N2) ∧ lens_ok h1 ∧
    h_kvs h1 = h_kvs h ∧ h_fs h1 = h_fs h ∧ h_writes h1 = h_writes h ∧
    (l = h_next h ∨ s_list y = Some (l, node_pairs y)).
Proof.
  intros Hrep Hfresh Hlens. pose proof Hrep as [_ Hok _ Hlid Hpid].
  apply Forall_app in Hok as [_ Hok]. apply Forall_cons in Hok as [Hy _].
  destruct (node_ok_block _ _ Hy) as (n & Hn & Hnl). unfold ensure_list.
  destruct (s_list y) as [[l es]|] eqn:El.
  - exists h, l. run (get_node_ok h _ n Hn). rewrite Hnl. cbn [fmap option_fmap option_map fst].
    assert (node_pairs y = es) as Hes by (unfold node_pairs; by rewrite El).
    assert (with_list y l = y) as ->.
    { unfold with_list. rewrite Hes. destruct y. cbn in *. by rewrite El. }
    split; [done|]. split; [exact Hrep|]. split; [exact Hlens|]. do 3 (split; [done|]).
    right. by rewrite Hes.
  - assert (node_pairs y = []) as Hes by (unfold node_pairs; by rewrite El).
    assert (node_lists y = []) as Hls by (unfold node_lists; by rewrite El).
    run (get_node_ok h _ n Hn). rewrite Hnl. cbn [fmap option_fmap option_map].
    erewrite M_bind_done by (unfold malloc_list, malloc; reflexivity).
    set (h0 := set_h_next _ _).
    exists (set_h_nodes (alter (n_set_list (Some (h_next h))) (s_id y) (h_nodes h)) h0), (h_next h).
    split; [exact (upd_node_ok h0 (s_id y) n _ Hn)|].
    split; [|split; [|split; [done|split; [done|split; [done|by left]]]]].
    + apply (file_rep_node h _ fp name N1 y (with_list y (h_next h)) N2 Hrep); try done.
      * intros j. apply block_links_set_list.
      * intros j Hj. cbn. by rewrite lookup_alter_ne.
      * intros l _ Hl. cbn. rewrite lookup_insert_ne; [done|]. intros <-. apply Hl.
        unfold node_lists. cbn. by left.
      * destruct Hy as (sec & Hc & Hsec & _). exists sec. cbn [s_id s_note s_list s_name with_list].
        cbn [h_nodes set_h_nodes]. rewrite lookup_alter_eq, Hn in *. cbn in Hc |- *.
        unfold node_content in *. cbn. injection Hc as -> -> _. split; [done|]. split; [done|].
        rewrite Hes. exists listkeyValueNode_init. cbn. split; [apply lookup_insert_eq|]. done.
      * rewrite list_ids_app, list_ids_cons. rewrite list_ids_app, list_ids_cons, Hls in Hlid.
        assert (h_next h ∉ list_ids N1 ++ list_ids N2) as Hnew.
        { intros Hin. assert (h_next h ∈ list_ids (N1 ++ y :: N2)) as Hin'.
          { rewrite list_ids_app, list_ids_cons, Hls. done. }
          destruct (rep_list_ids _ _ _ _ _ Hrep Hin') as [? H]. by rewrite Hfresh in H by done. }
        unfold node_lists. cbn [s_list with_list app]. apply NoDup_app.
        apply NoDup_app in Hlid as (H1 & H2 & H3). split; [done|]. cbn in H2, H3. split.
        -- intros i Hi Hin. apply elem_of_cons in Hin as [->|Hin]; [|by apply (H2 i)].
           apply Hnew, elem_of_app. by left.
        -- constructor; [|done]. intros Hin. apply Hnew, elem_of_app. by right.
      * rewrite pair_ids_app, pair_ids_cons in Hpid |- *. done.
    + destruct Hlens as [Hl1 Hl2]. split; [|exact Hl2]. cbn. intros l L.
      destruct (decide (h_next h = l)) as [<-|Hne].
      * rewrite lookup_insert_eq. intros [= <-]. done.
      * rewrite lookup_insert_ne by done. apply Hl1.
Qed.

(** The node [y] with list [l] after a new pair [e] was appended to it. *)
Lemma insert_pair_rep h fp name N1 y N2 l L e :
  file_rep h fp name (N1 ++ y :: N2) → s_list y = Some (l, node_pairs y) →
  h_lists h !! l = Some L → dlist (block_links (h_kvs h)) (l_head L) (e_id <$> node_pairs y) →
  pair_ok (h_kvs h) e → e_id e ∉ pair_ids (N1 ++ y :: N2) →
  file_rep (heap_with h l L (e_id <$> node_pairs y) (e_id e)) fp name
    (N1 ++ with_pairs y (node_pairs y ++ [e]) :: N2).
Proof.
  intros Hrep Hl HL Hd He Hnew. pose proof Hrep as [_ Hok _ Hlid Hpid].
  destruct (ids_apart _ _ _ Hlid Hpid) as [Hnd _].
  assert (node_lists y = [l]) as Hly by (unfold node_lists; by rewrite Hl).
  assert (node_pairs (with_pairs y (node_pairs y ++ [e])) = node_pairs y ++ [e]) as Hpy'
    by (apply with_pairs_pairs; rewrite Hl; eauto).
  assert (e_id e ∉ e_id <$> node_pairs y) as Hne.
  { intros Hin. apply Hnew. rewrite pair_ids_app, pair_ids_cons. apply elem_of_app. right.
    apply elem_of_app. by left. }
  assert (∀ x, pair_ok (h_kvs h) x → pair_ok (appended (h_kvs h) (e_id <$> node_pairs y) (e_id e)) x)
    as Hframe.
  { intros x. apply pair_ok_frame. by apply (appended_data kv_content). }
  apply (file_rep_node h _ fp name N1 y _ N2 Hrep); try done.
  - intros l' H1 _. cbn. rewrite lookup_insert_ne; [done|]. intros <-. apply H1. rewrite Hly. by left.
  - intros i H1 H2. cbn. apply appended_lookup; [done|]. intros ->. apply H2.
    rewrite Hpy', fmap_app. apply elem_of_app. right. by left.
  - apply Forall_app in Hok as [_ Hok]. apply Forall_cons in Hok as [(sec & Hn & Hsec & Hlist) _].
    exists sec. cbn. split; [by rewrite Hn, Hl|]. split; [done|]. rewrite Hl in *.
    cbn [fmap option_fmap option_map fst]. destruct Hlist as (_ & _ & _ & _ & Hes).
    exists (list_with L (e_id <$> node_pairs y) (e_id e)). split; [apply lookup_insert_eq|].
    cbn [l_head l_tail list_with]. rewrite fmap_app. change (e_id <$> [e]) with [e_id e].
    destruct He as (key & v & Hq & Hkv).
    pose proof Hq as Hq0. apply fmap_Some in Hq0 as (q & Hq0 & _).
    split; [by eapply appended_dlist|]. split; [by rewrite last_snoc|].
    apply Forall_app. split; [|constructor; [|done]].
    + eapply Forall_impl; [exact Hes|]. exact Hframe.
    + apply Hframe. by exists key, v.
  - by rewrite list_ids_with.
  - rewrite pair_ids_app, pair_ids_cons in Hpid, Hnew. rewrite pair_ids_app, pair_ids_cons, Hpy'.
    rewrite fmap_app, <- app_assoc. cbn [fmap list_fmap app].
    rewrite <- (Permutation_middle (e_id <$> node_pairs y)), <- (Permutation_middle (pair_ids N1)).
    by constructor.
Qed.

(** The new pair's block: key and a tab, blank, value and newline. *)
Definition new_pair (i : nat) (k v : list Z) : pair1 := PAIR i (stored_key k) (stored_value v) 0.

Lemma new_key_ok len b k :
  mem_read b len = Done k → nonzero k → (length k ≤ 64)%nat →
  ∃ b1 b2, mem_write (k_key kv_zero) 0 k = Done b1 ∧
    mem_write b1 (length k) [CONTENT_TAB] = Done b2 ∧ holds b2 (stored_key k).
Proof.
  intros _ Hnz Hl. cbn [k_key kv_zero].
  rewrite mem_write_ok by (unfold zeros, STRING_BUF; rewrite length_replicate; lia).
  pose proof (splice_zeros STRING_BUF [] 0 k) as E1. rewrite !app_nil_r in E1.
  rewrite E1 by (unfold STRING_BUF; lia). cbn [zeros replicate app].
  eexists _, _. split; [done|].
  rewrite mem_write_ok by (rewrite length_app; unfold zeros, STRING_BUF; rewrite length_replicate; cbn; lia).
  split; [done|]. unfold splice. rewrite take_app_length, drop_app_ge by lia.
  replace (length k + length [CONTENT_TAB] - length k)%nat with 1%nat by (cbn; lia).
  unfold zeros. rewrite drop_replicate. split.
  - unfold STRING_BUF in *. destruct (68 - 0 - length k - 1)%nat as [|m] eqn:E; [lia|].
    cbn [replicate]. rewrite app_assoc. apply c_str_app. apply Forall_app. split; [done|].
    by repeat constructor.
  - rewrite !length_app, length_replicate. cbn. unfold STRING_BUF in *. lia.
Qed.

(** The heap with the new block, not yet linked. *)
Definition heap_new_pair (h : heap) (b1 b2 : list Z) : heap :=
  set_h_kvs (alter (k_set_value b2) (h_next h) (alter (k_set_key b1) (h_next h)
               (<[h_next h := kv_zero]> (h_kvs h)))) (set_h_next (S (h_next h)) h).

Lemma heap_new_pair_rep h fp name ns b1 b2 k v :
  file_rep h fp name ns → heap_fresh h → holds b1 (stored_key k) → holds b2 (stored_value v) →
  file_rep (heap_new_pair h b1 b2) fp name ns ∧
  pair_ok (h_kvs (heap_new_pair h b1 b2)) (new_pair (h_next h) k v) ∧ h_next h ∉ pair_ids ns.
Proof.
  intros Hrep Hfresh H1 H2.
  assert (h_next h ∉ pair_ids ns) as Hnew.
  { intros Hin. destruct (rep_pair_ids _ _ _ _ _ Hrep Hin) as [? H].
    destruct (Hfresh (h_next h) ltac:(lia)) as (_ & _ & _ & E). by rewrite E in H. }
  split; [|split; [|done]].
  - apply (heap_rep_frame h); try done. intros i Hi. cbn.
    assert (h_next h ≠ i) by (intros <-; done).
    by rewrite !lookup_alter_ne, lookup_insert_ne.
  - exists b1, b2. cbn. rewrite !lookup_alter_eq, lookup_insert_eq. cbn. done.
Qed.

(** The new pair linked into the section [y]. *)
Lemma link_new_pair h fp name N1 y N2 b1 b2 k v :
  file_rep h fp name (N1 ++ y :: N2) → heap_fresh h → lens_ok h →
  holds b1 (stored_key k) → holds b2 (stored_value v) →
  ∃ h' l, (ensure_list (Some (s_id y)) ;; m ← get_node (Some (s_id y));
           listkeyValueNode_insert (n_list m) (Some (h_next h))) (heap_new_pair h b1 b2) =
      Done (tt, h') ∧ h_fs h' = h_fs h ∧ h_writes h' = h_writes h ∧
    file_rep h' fp name
      (N1 ++ with_pairs (with_list y l) (node_pairs y ++ [new_pair (h_next h) k v]) :: N2).
Proof.
  intros Hrep Hfresh Hlens H1 H2.
  destruct (heap_new_pair_rep _ _ _ _ b1 b2 k v Hrep Hfresh H1 H2) as (Hrep1 & He & Hnew).
  destruct (ensure_list_ok (heap_new_pair h b1 b2) fp name N1 y N2 Hrep1) as
    (h2 & l & Hrun & Hrep2 & Hlens2 & Hkvs & Hfs & Hwr & _).
  { intros i Hi. cbn in Hi |- *. destruct (Hfresh i ltac:(lia)) as (_ & _ & E & _). exact E. }
  { exact Hlens. }
  run Hrun. pose proof Hrep2 as [_ Hok _ Hlid Hpid].
  apply Forall_app in Hok as [_ Hok]. apply Forall_cons in Hok as [Hy _].
  destruct (node_ok_block _ _ Hy) as (n & Hn & Hnl).
  pose proof Hy as (_ & _ & _ & Hlist). cbn in Hlist. destruct Hlist as (L & HL & Hd & Ht & Hes).
  exists (heap_with h2 l L (e_id <$> node_pairs y) (h_next h)), l.
  rewrite <- Hkvs in He.
  assert (h_next h ∉ pair_ids (N1 ++ with_list y l :: N2)) as Hnew2.
  { rewrite pair_ids_app, pair_ids_cons in Hnew |- *. done. }
  split; [|split; [exact Hfs|split; [exact Hwr|]]].
  - run (get_node_ok h2 _ n Hn). rewrite Hnl. cbn [fmap option_fmap option_map fst s_list with_list].
    apply listkeyValueNode_insert_run; try done.
    + by apply (proj1 Hlens2) in HL.
    + intros Hin. apply Hnew2. rewrite pair_ids_app, pair_ids_cons. apply elem_of_app. right.
      apply elem_of_app. by left.
    + destruct He as (key & val & Hq & _). apply fmap_Some in Hq as (q & Hq & _). eauto.
  - by apply (insert_pair_rep h2 fp name N1 (with_list y l) N2 l L (new_pair (h_next h) k v)).
Qed.

(** [addValueOfKey] of version 1, for a key the section does not have,
    appends a pair (the key and a tab; a blank, the value and a newline) to
    the first matching section, allocating the section's list when it has
    none, and rewrites the file. *)
Theorem addValueOfKey_appends h fp name N1 y N2 par s k v :
  file_rep h fp name (N1 ++ y :: N2) → all_fit (N1 ++ y :: N2) → heap_fresh h → lens_ok h →
  v1_arg (p_section par) (p_section_len par) s → v1_arg (p_key par) (p_key_len par) k →
  v1_arg (p_value par) (p_value_len par) v →
  find_sec s (N1 ++ y :: N2) = Some y → find_pair k (node_pairs y) = None →
  pair_fits (new_pair (h_next h) k v) →
  ∃ h' l, addValueOfKey (Some fp) (Some par) h = Done (0, h') ∧
    file_rep h' fp name
      (N1 ++ with_pairs (with_list y l) (node_pairs y ++ [new_pair (h_next h) k v]) :: N2) ∧
    saved name
      (N1 ++ with_pairs (with_list y l) (node_pairs y ++ [new_pair (h_next h) k v]) :: N2) h h'.
Proof.
  intros Hrep Hfit Hfresh Hlens Hs Hk Hv Hy Hnone Hfe.
  destruct (v1_arg_read _ _ _ Hk) as (kb & Hkb & Hkm & Hknz & Hkl & _).
  destruct (v1_arg_read _ _ _ Hv) as (_ & _ & _ & _ & Hvl & _).
  destruct (new_key_ok _ _ _ Hkm Hknz ltac:(unfold MAX_STRING_LEN in *; lia))
    as (b0 & b1 & Hw0 & Hw1 & Hb1).
  destruct (put_value_ok 68 [] _ _ v Hv ltac:(unfold MAX_STRING_LEN in *; lia))
    as (b2 & Hput & Hbs & Hbl). rewrite app_nil_r in Hput.
  assert (holds b2 (stored_value v)) as Hb2 by by split.
  destruct (link_new_pair h fp name N1 y N2 b1 b2 k v Hrep Hfresh Hlens Hb1 Hb2)
    as (h2 & l & Hlink & Hfs & Hwr & Hrep2).
  destruct (updateIniFile_ok h2 fp name _ Hrep2) as (r & h' & Hr & Hsame & Hsaved).
  { apply all_fit_middle in Hfit as (F1 & F2 & F3). apply all_fit_middle. split; [done|].
    split; [|done]. rewrite with_pairs_pairs by (cbn; eauto). apply Forall_app. split; [done|]. apply Forall_cons. by split. }
  exists h', l. split; [|split; [by eapply same_blocks_rep|]].
  2:{ unfold saved in *. by rewrite Hfs, Hwr in Hsaved. }
  unfold addValueOfKey.
  run (good_call fp (Some par) _ h (proj2 (check_value par s k v Hs Hk Hv))).
  run (run_find_section h fp name _ par s Hrep Hs). rewrite Hy. cbn [fmap option_fmap option_map].
  run (run_find_key h fp name _ par s k Hrep Hk y Hy). rewrite Hnone.
  cbn [fmap option_fmap option_map].
  erewrite M_bind_done by (unfold malloc_kv, malloc; reflexivity). cbn beta.
  erewrite M_bind_done by (apply get_kv_ok; cbn; apply lookup_insert_eq). cbn beta.
  unfold the_key, par_key_len, par_value, par_value_len. cbn [mbind option_bind]. rewrite Hkb.
  rewrite (M_bind_lift _ _ _ _ Hkm), (M_bind_lift _ _ _ _ Hw0), (M_bind_lift _ _ _ _ Hw1).
  erewrite M_bind_done by (eapply upd_kv_ok; cbn; apply lookup_insert_eq). cbn beta.
  rewrite (M_bind_lift _ _ _ _ Hput).
  erewrite M_bind_done by (eapply upd_kv_ok; cbn; by rewrite lookup_alter_eq, lookup_insert_eq).
  cbn beta. fold (heap_new_pair h b1 b2).
  apply M_bind_inv in Hlink as ([] & ha & Ha & Hlink). run Ha.
  apply M_bind_inv in Hlink as (m & hb & Hb & Hlink). run Hb. run Hlink. by run Hr.
Qed.
