(* ===== verification/V1Witness.v ===== *)
(** * inifile v1.0.0: the theorems at work on a small file, findings

    [old_heap] is the heap after [initIniFile] of a file of five lines; each
    example applies one theorem of version 1 to it, with its hypotheses
    checked by computation. *)

From S2P Require Import Prelude CString DList FileSys Blocks V1Data V1Ops V1Rep V1List V1Find V1Api V1Change.
From stdpp Require Import gmap strings.

Open Scope Z_scope.

Definition lf : string := String (Ascii.ascii_of_nat 10) "".
Definition old_name : list Z := bytes "net.ini".
Definition old_text : list Z :=
  bytes ("; network" +:+ lf +:+ "[server]" +:+ lf +:+ "host = example.org" +:+ lf +:+
         "port=8080" +:+ lf +:+ "[client]" +:+ lf +:+ "retry = 3" +:+ lf).
Definition old_fs (text : list Z) : filesystem :=
  FileSys.FS {[old_name := text]} (λ _, true) (λ _, true).
(** The heap at program start, and after opening a file with this text. *)
Definition heap0 (fs : filesystem) : heap := Heap ∅ ∅ ∅ ∅ 0 fs [].
Definition open_old (text : list Z) : outcome (ptr * heap) :=
  initIniFile (Some (c_lit "net.ini")) 7 (heap0 (old_fs text)).
Definition opened (text : list Z) : heap :=
  match open_old text with Done (_, h) => h | _ => heap0 (old_fs text) end.
Definition old_heap : heap := opened old_text.

Definition note_node : node1 := NODE 1 (bytes (" network" +:+ lf)) 1 None.
Definition host_pair : pair1 := PAIR 4 (bytes "host ") (bytes " example.org") 0.
Definition port_pair : pair1 := PAIR 5 (bytes "port") (bytes "8080") 0.
Definition server_node : node1 := NODE 2 (bytes "server") 0 (Some (3%nat, [host_pair; port_pair])).
Definition retry_pair : pair1 := PAIR 8 (bytes "retry ") (bytes " 3") 0.
Definition client_node : node1 := NODE 6 (bytes "client") 0 (Some (7%nat, [retry_pair])).
Definition old_nodes : list node1 := [note_node; server_node; client_node].

(** ** Checking the representation by computation *)

Fixpoint seg_b (lk : nat → option links) (prev h : option nat) (ids : list nat)
    (t : option nat) : bool :=
  match ids with
  | [] => bool_decide (h = t)
  | i :: ids' =>
      bool_decide (h = Some i) &&
      match lk i with
      | Some (p, n) => bool_decide (p = prev) && seg_b lk (Some i) n ids' t
      | None => false
      end
  end.

Lemma seg_b_ok lk ids : ∀ prev h t, seg_b lk prev h ids t = true → dseg lk prev h ids t.
Proof.
  induction ids as [|i ids IH]; intros prev h t H; cbn in H |- *.
  - by apply bool_decide_eq_true in H.
  - apply andb_prop in H as [H1 H2]. apply bool_decide_eq_true in H1. split; [done|].
    destruct (lk i) as [[p n]|]; [|done]. apply andb_prop in H2 as [H2 H3].
    apply bool_decide_eq_true in H2 as ->. eauto.
Qed.

Definition str_b (b s : list Z) : bool :=
  match c_str b with Done s' => bool_decide (s' = s) | _ => false end.
Definition holds_b (b s : list Z) : bool := str_b b s && bool_decide (length b = STRING_BUF).

Lemma str_b_ok b s : str_b b s = true → c_str b = Done s.
Proof. unfold str_b. destruct (c_str b) as [s'|f|]; [|done|done]. intros H. by apply bool_decide_eq_true in H as ->. Qed.
Lemma holds_b_ok b s : holds_b b s = true → holds b s.
Proof.
  intros [H1 H2]%andb_prop. split; [by apply str_b_ok|by apply bool_decide_eq_true in H2].
Qed.

Definition pair_b (m : gmap nat KeyValueNode) (e : pair1) : bool :=
  match m !! e_id e with
  | Some q => holds_b (k_key q) (e_key e) && holds_b (k_value q) (e_val e) &&
              bool_decide (k_isNote q = e_note e)
  | None => false
  end.
Definition list_b (h : heap) (l : nat) (es : list pair1) : bool :=
  match h_lists h !! l with
  | Some L => seg_b (block_links (h_kvs h)) None (l_head L) (e_id <$> es) None &&
              bool_decide (l_tail L = last (e_id <$> es)) && forallb (pair_b (h_kvs h)) es
  | None => false
  end.
Definition node_b (h : heap) (y : node1) : bool :=
  match h_nodes h !! s_id y with
  | Some n => holds_b (n_section n) (s_name y) && bool_decide (n_isNote n = s_note y) &&
              bool_decide (n_list n = fst <$> s_list y) &&
              match s_list y with Some (l, es) => list_b h l es | None => true end
  | None => false
  end.
Definition file_b (h : heap) (fp : nat) (name : list Z) (ns : list node1) : bool :=
  match h_files h !! fp with
  | Some F => seg_b (block_links (h_nodes h)) None (f_head F) (s_id <$> ns) None &&
              bool_decide (f_tail F = last (s_id <$> ns)) && str_b (f_fileName F) name
  | None => false
  end && forallb (node_b h) ns && bool_decide (NoDup (s_id <$> ns)) &&
  bool_decide (NoDup (list_ids ns)) && bool_decide (NoDup (pair_ids ns)).

Ltac split_andb :=
  repeat match goal with
  | H : (_ && _) = true |- _ => apply andb_prop in H as [? ?]
  | H : bool_decide _ = true |- _ => apply bool_decide_eq_true in H
  end.

Lemma forallb_Forall_impl {A} (f : A → bool) (Q : A → Prop) l :
  (∀ x, f x = true → Q x) → forallb f l = true → Forall Q l.
Proof.
  intros HQ H. apply Forall_forall. intros x Hx. apply HQ.
  apply (proj1 (List.forallb_forall f l) H). by apply list_elem_of_In.
Qed.

Lemma pair_b_ok m e : pair_b m e = true → pair_ok m e.
Proof.
  unfold pair_b, pair_ok. destruct (m !! e_id e) as [q|]; [|done]. intros H. split_andb.
  exists (k_key q), (k_value q). split; [|split; by apply holds_b_ok].
  cbn. unfold kv_content. by f_equal; f_equal.
Qed.
Lemma list_b_ok h l es : list_b h l es = true → list_ok h l es.
Proof.
  unfold list_b, list_ok. destruct (h_lists h !! l) as [L|]; [|done]. intros H. split_andb.
  exists L. split; [done|]. split; [by apply seg_b_ok|]. split; [done|].
  by eapply forallb_Forall_impl; [apply pair_b_ok|].
Qed.
Lemma node_b_ok h y : node_b h y = true → node_ok h y.
Proof.
  unfold node_b, node_ok. destruct (h_nodes h !! s_id y) as [n|]; [|done]. intros H. split_andb.
  exists (n_section n). split; [cbn; unfold node_content; by repeat f_equal|].
  split; [by apply holds_b_ok|]. destruct (s_list y) as [[l es]|]; [by apply list_b_ok|done].
Qed.
Lemma file_b_ok h fp name ns : file_b h fp name ns = true → file_rep h fp name ns.
Proof.
  unfold file_b. intros H. split_andb. destruct (h_files h !! fp) as [F|] eqn:EF; [|done].
  split_andb. split; [|..|done|done|done].
  - exists F. split; [done|]. split; [by apply seg_b_ok|]. split; [done|by apply str_b_ok].
  - by eapply forallb_Forall_impl; [apply node_b_ok|].
Qed.

Lemma old_open : open_old old_text = Done (Some O, old_heap).
Proof. vm_compute. reflexivity. Qed.

(** What [initIniFile] builds for the file. *)
Lemma old_rep : file_rep old_heap 0 old_name old_nodes.
Proof. apply file_b_ok. vm_compute. reflexivity. Qed.

Definition old_par (s k v : string) : INI_PARAMETER :=
  Build_INI_PARAMETER (Some (c_lit s)) (Z.of_nat (length (bytes s)))
    (Some (c_lit k)) (Z.of_nat (length (bytes k))) (Some (c_lit v)) (Z.of_nat (length (bytes v))).

Lemma old_arg s : nonzero (bytes s) → (0 < length (bytes s) ≤ 64)%nat →
  v1_arg (Some (c_lit s)) (Z.of_nat (length (bytes s))) (bytes s).
Proof.
  intros Hnz Hl. exists (c_lit s). split; [done|]. split; [by apply c_str_lit|].
  unfold MAX_STRING_LEN. lia.
Qed.

(** An argument: its bytes are not NUL and there are 1 to 64 of them. *)
Ltac arg := apply old_arg;
  [apply (bool_decide_unpack _); vm_compute; reflexivity|
   split; [apply Nat.ltb_lt|apply Nat.leb_le]; vm_compute; reflexivity].

Lemma old_fit : all_fit old_nodes.
Proof. repeat constructor; apply Nat.ltb_lt; vm_compute; reflexivity. Qed.

Definition below {N} (h : heap) (m : gmap nat N) : bool :=
  forallb (λ p, (p.1 <? h_next h)%nat) (map_to_list m).
Lemma below_fresh {N} h (m : gmap nat N) i : below h m = true → (h_next h ≤ i)%nat → m !! i = None.
Proof.
  intros H Hi. destruct (m !! i) as [n|] eqn:E; [|done]. exfalso.
  pose proof (proj1 (List.forallb_forall _ _) H (i, n)) as H'. cbn in H'.
  rewrite <- list_elem_of_In, elem_of_map_to_list in H'. apply H', Nat.ltb_lt in E. lia.
Qed.

Lemma old_fresh : heap_fresh old_heap.
Proof. intros i Hi. repeat split; (apply (below_fresh old_heap); [vm_compute; reflexivity|done]). Qed.

Definition lens_b {N} (len : N → Z) (m : gmap nat N) : bool :=
  forallb (λ p, (0 <=? len p.2) && (len p.2 <? int_max)) (map_to_list m).
Lemma lens_b_ok {N} (len : N → Z) (m : gmap nat N) i n :
  lens_b len m = true → m !! i = Some n → 0 <= len n < int_max.
Proof.
  intros H Hi. pose proof (proj1 (List.forallb_forall _ _) H (i, n)) as H'. cbn in H'.
  rewrite <- list_elem_of_In, elem_of_map_to_list in H'.
  apply H', andb_prop in Hi as [H1 H2]. apply Z.leb_le in H1. apply Z.ltb_lt in H2. lia.
Qed.
Lemma old_lens : lens_ok old_heap.
Proof. split; intros i n; (apply lens_b_ok; vm_compute; reflexivity). Qed.

Lemma old_disk : v1_disk (h_fs old_heap) old_name.
Proof. split; [|split; vm_compute; reflexivity]. eexists. vm_compute. reflexivity. Qed.

(** The text saved for these nodes, on the disk that works. *)
Lemma old_saved ns h' :
  ns ≠ [] → saved old_name ns old_heap h' →
  fs_files (h_fs h') !! old_name = Some (render ns).
Proof.
  intros Hne H. rewrite H; [|done|apply old_disk|vm_compute; constructor].
  cbn. apply lookup_insert_eq.
Qed.

(** ** The theorems *)

Lemma getValueOfKey_finds_witness :
  getValueOfKey (Some O) (Some (old_par "server" "host" "")) old_heap =
  Done (Some (4%nat, 1%nat), old_heap).
Proof.
  refine (eq_trans (getValueOfKey_finds old_heap 0 old_name old_nodes
    (old_par "server" "host" "") (bytes "server") (bytes "host") old_rep _ _) _); [arg|arg|].
  vm_compute. reflexivity.
Defined.

Lemma deleteValueOfKey_removes_witness : ∃ h',
  deleteValueOfKey (Some O) (Some (old_par "server" "host" "")) old_heap = Done (0, h') ∧
  fs_files (h_fs h') !! old_name =
    Some (render [note_node; with_pairs server_node [port_pair]; client_node]).
Proof.
  destruct (deleteValueOfKey_removes old_heap 0 old_name [note_node] server_node [client_node]
    [] host_pair [port_pair] (old_par "server" "host" "") (bytes "server") (bytes "host"))
    as (h' & Hrun & _ & _ & _ & _ & _ & Hs).
  - exact old_rep.
  - exact old_fit.
  - arg.
  - arg.
  - vm_compute. reflexivity.
  - vm_compute. reflexivity.
  - reflexivity.
  - exists h'. split; [exact Hrun|]. apply old_saved; [discriminate|exact Hs].
Defined.

Lemma exitOperationIniFile_frees_witness : ∃ h',
  exitOperationIniFile (Some O) old_heap = Done ((0, None), h') ∧
  (h_files h', h_nodes h', h_lists h', h_kvs h') = (∅, ∅, ∅, ∅).
Proof.
  eexists. split; [apply (exitOperationIniFile_frees old_heap 0 old_name old_nodes old_rep)|].
  vm_compute. reflexivity.
Defined.

Lemma deleteSection_removes_witness : ∃ h',
  deleteSection (Some O) (Some (old_par "server" "x" "")) old_heap = Done (0, h') ∧
  file_rep h' 0 old_name [note_node; client_node] ∧
  fs_files (h_fs h') !! old_name = Some (render [note_node; client_node]).
Proof.
  destruct (deleteSection_removes old_heap 0 old_name [note_node] server_node [client_node]
    (old_par "server" "x" "") (bytes "server")) as (h' & Hrun & Hrep & _ & _ & _ & Hs).
  - exact old_rep.
  - exact old_fit.
  - discriminate.
  - arg.
  - vm_compute. reflexivity.
  - vm_compute. reflexivity.
  - exists h'. split; [exact Hrun|]. split; [exact Hrep|].
    apply old_saved; [discriminate|exact Hs].
Defined.

Lemma updateValueOfKey_sets_witness : ∃ h',
  updateValueOfKey (Some O) (Some (old_par "client" "retry" "10")) old_heap = Done (0, h') ∧
  fs_files (h_fs h') !! old_name =
    Some (render [note_node; server_node;
                  with_pairs client_node [with_value retry_pair (bytes "10")]]).
Proof.
  destruct (updateValueOfKey_sets old_heap 0 old_name [note_node; server_node] client_node []
    [] retry_pair [] (old_par "client" "retry" "10") (bytes "client") (bytes "retry") (bytes "10"))
    as (h' & Hrun & _ & Hs).
  - exact old_rep.
  - exact old_fit.
  - arg.
  - arg.
  - arg.
  - apply Nat.leb_le. reflexivity.
  - vm_compute. reflexivity.
  - vm_compute. reflexivity.
  - reflexivity.
  - apply Nat.ltb_lt. vm_compute. reflexivity.
  - exists h'. split; [exact Hrun|]. apply old_saved; [discriminate|exact Hs].
Defined.

Lemma addValueOfKey_appends_witness : ∃ h' l,
  addValueOfKey (Some O) (Some (old_par "client" "mode" "fast")) old_heap = Done (0, h') ∧
  fs_files (h_fs h') !! old_name =
    Some (render [note_node; server_node;
      with_pairs (with_list client_node l) [retry_pair; new_pair 9 (bytes "mode") (bytes "fast")]]).
Proof.
  destruct (addValueOfKey_appends old_heap 0 old_name [note_node; server_node] client_node []
    (old_par "client" "mode" "fast") (bytes "client") (bytes "mode") (bytes "fast"))
    as (h' & l & Hrun & _ & Hs).
  - exact old_rep.
  - exact old_fit.
  - exact old_fresh.
  - exact old_lens.
  - arg.
  - arg.
  - arg.
  - vm_compute. reflexivity.
  - vm_compute. reflexivity.
  - apply Nat.ltb_lt. vm_compute. reflexivity.
  - exists h', l. split; [exact Hrun|]. apply old_saved; [discriminate|exact Hs].
Defined.

(** ** inifile v1.0.0: behaviours the code does not mean

    Each theorem runs the translated code to a result its purpose rules out:
    accesses outside of a buffer, to freed blocks or through NULL, bytes of
    the file that are lost, errors that are reported as success. *)

(** The file's text in a heap. *)
Definition text_of (h : heap) : list Z := default [] (fs_files (h_fs h) !! old_name).
Definition with_text {A} (r : outcome (A * heap)) : outcome (A * list Z) :=
  match r with Done (a, h) => Done (a, text_of h) | Fault f => Fault f | NoFuel => NoFuel end.
(** [n] copies of a character. *)
Definition copies (n : nat) (c : string) : string := String.concat "" (replicate n c).
Definition lines (l : list string) : list Z := bytes (String.concat "" ((λ s, s +:+ lf) <$> l)).

Lemma delete_single_node h fp F i n :
  h_files h !! fp = Some F → f_head F = Some i → f_tail F = Some i → h_nodes h !! i = Some n →
  listIniFileNode_delete (Some fp) (Some i) h = Done (tt, set_h_nodes (delete i (h_nodes h)) h).
Proof.
  intros HF Hh Ht Hn. unfold listIniFileNode_delete. run (get_file_ok h fp F HF).
  rewrite M_bind_gets, Hh, Ht. unfold node_fuel. cbn [find_ptr].
  erewrite M_bind_done by (rewrite decide_True by done; reflexivity). cbn [negb].
  rewrite decide_True by done. exact (free_node_ok h i n Hn).
Qed.

(** Deleting the only section of the file frees its node but leaves the
    list pointing at it; the rewrite that follows reads the freed node, after
    it has emptied the file. *)
Theorem deleteSection_only_node_dangles h fp name y par s :
  file_rep h fp name [y] → v1_disk (h_fs h) name →
  v1_arg (p_section par) (p_section_len par) s →
  ends_at (p_key par) (p_key_len par) = Done true → find_sec s [y] = Some y →
  deleteSection (Some fp) (Some par) h = Fault UseAfterFree.
Proof.
  intros Hrep (Hf & Hr & Hw) Hs Hkey Hy.
  pose proof Hrep as [(F & HF & (Hh & n' & Hd & _) & Ht & Hname) Hok _ _ _].
  apply Forall_cons in Hok as [Hyok _]. destruct (node_ok_block _ _ Hyok) as (n & Hn & _).
  unfold deleteSection. run (good_call fp (Some par) _ h (proj1 (check_section par s Hs Hkey))).
  run (run_find_section h fp name _ par s Hrep Hs). rewrite Hy. cbn [fmap option_fmap option_map].
  run (delete_single_node h fp F (s_id y) n HF Hh Ht Hn).
  set (h1 := set_h_nodes _ h).
  assert (updateIniFile (Some fp) h1 = Fault UseAfterFree) as E; [|unfold mbind, M_bind; by rewrite E].
  unfold updateIniFile. run (get_file_ok h1 fp F HF). unfold listIniFileNode_is_empty. rewrite Hh.
  cbn [negb]. rewrite (M_bind_lift _ _ _ _ Hname), M_bind_gets.
  destruct Hf as [c Hc].
  assert (open_trunc (h_fs h1) name = Some (fs_set_files (<[name:=[]]> (fs_files (h_fs h))) (h_fs h))) as ->.
  { unfold open_trunc, fname in *. cbn. by rewrite Hc, Hr, Hw. }
  erewrite M_bind_done by reflexivity. rewrite !M_bind_gets. unfold node_fuel. cbn [write_nodes].
  unfold mbind, M_bind, get_node, at_ptr. cbn. by rewrite lookup_delete_eq.
Qed.

(** The check of [deleteSection] and [addSetction] reads the byte at
    [key + key_len] although neither takes a key: without one it reads
    through NULL. *)
Theorem section_calls_read_key h fp par s :
  v1_arg (p_section par) (p_section_len par) s → p_key par = None →
  deleteSection (Some fp) (Some par) h = Fault NullDeref ∧
  addSetction (Some fp) (Some par) h = Fault NullDeref.
Proof.
  intros Hs Hk. destruct (v1_arg_checks _ _ _ Hs) as (S1 & S2 & S3).
  assert (∀ ty, ty = deleteSection_type ∨ ty = addSetction_type →
    bad_call (Some fp) (Some par) ty h = Fault NullDeref) as E.
  { intros ty Hty. unfold bad_call, ini_parameter_check, mbind, M_bind, lift.
    rewrite S1, S2, S3, Hk. by destruct Hty as [-> | ->]. }
  unfold deleteSection, addSetction, mbind, M_bind.
  split; rewrite E; auto.
Qed.

Definition only_text : list Z := lines ["[a]"; "k=v"]%string.

Lemma deleteSection_only_node_dangles_witness :
  deleteSection (Some O) (Some (old_par "a" "" "")) (opened only_text) = Fault UseAfterFree.
Proof.
  apply (deleteSection_only_node_dangles _ 0 old_name
    (NODE 1 (bytes "a") 0 (Some (2%nat, [PAIR 3 (bytes "k") (bytes "v") 0]))) _ (bytes "a")).
  - apply file_b_ok. vm_compute. reflexivity.
  - split; [|split; vm_compute; reflexivity]. eexists. vm_compute. reflexivity.
  - arg.
  - vm_compute. reflexivity.
  - vm_compute. reflexivity.
Defined.

Lemma section_calls_read_key_witness :
  deleteSection (Some O) (Some (Build_INI_PARAMETER (Some (c_lit "client")) 6 None 0 None 0)) old_heap =
  Fault NullDeref.
Proof.
  apply (section_calls_read_key old_heap 0
    (Build_INI_PARAMETER (Some (c_lit "client")) 6 None 0 None 0) (bytes "client")).
  - exact (old_arg "client" ltac:(apply (bool_decide_unpack _); vm_compute; reflexivity)
      ltac:(split; [apply Nat.ltb_lt|apply Nat.leb_le]; vm_compute; reflexivity)).
  - reflexivity.
Defined.

(** When the last line of a file does not end in a newline, its pair
    loses the last byte of the value, and a section line the last byte of
    the name; the next rewrite makes the loss permanent. *)
Theorem last_line_loses_a_byte :
  with_text (updateIniFile (Some O) (opened (bytes ("[ab]" +:+ lf +:+ "key=value")))) =
    Done (0, lines [""; "[ab]"; "key=valu"]%string) ∧
  with_text (updateIniFile (Some O) (opened (lines ["[ab]"; "k=v"]%string ++ bytes "[cd]"))) =
    Done (0, lines [""; "[ab]"; "k=v"; ""; "[c]"]%string).
Proof. split; vm_compute; reflexivity. Qed.

Definition is_out_of_bounds {A} (r : outcome A) : bool :=
  match r with Fault OutOfBounds => true | _ => false end.
Lemma is_out_of_bounds_ok {A} (r : outcome A) : is_out_of_bounds r = true → r = Fault OutOfBounds.
Proof. by destruct r as [|[]|]. Qed.

(** A line of up to 128 bytes is accepted with a key of any length: a
    key of more than 68 bytes is copied past the end of the 68-byte array. *)
Theorem long_keys_overflow :
  Forall (λ n, open_old (lines ["[a]"; (copies n "k" +:+ "=v")%string]) = Fault OutOfBounds)
    (seq 69 57).
Proof.
  eapply forallb_Forall_impl; [intros n; apply is_out_of_bounds_ok|vm_compute; reflexivity].
Qed.

(** The parameter check accepts a key and a value of 64 bytes each; the
    line they make does not fit the 132-byte buffer of the rewrite. *)
Theorem long_pair_overflows_line :
  let par := old_par "a" (copies 64 "k") (copies 64 "v") in
  ini_parameter_check (Some par) addValueOfKey_type = Done true ∧
  addValueOfKey (Some O) (Some par) (opened only_text) = Fault OutOfBounds.
Proof. split; vm_compute; reflexivity. Qed.

(** [updateValueOfKey] clears 64 of the 68 bytes of a value: a new value
    of 62 bytes keeps the end of a longer old one. *)
Theorem update_keeps_old_tail :
  with_text (updateValueOfKey (Some O) (Some (old_par "a" "k" (copies 62 "n")))
    (opened (lines ["[a]"; ("k=" +:+ copies 67 "o")%string]))) =
  Done (0, lines [""; "[a]"; ("k= " +:+ copies 62 "n")%string; "ooo"]%string).
Proof. vm_compute. reflexivity. Qed.

(** A failing [write] goes unreported: the file was emptied before, the
    operation returns 0. *)
Theorem write_error_is_success :
  with_text (updateValueOfKey (Some O) (Some (old_par "a" "k" "w"))
    (set_h_writes [WError] (opened only_text))) = Done (0, []).
Proof. vm_compute. reflexivity. Qed.

(** [initIniFile] of a file it rejects returns NULL and keeps the blocks
    it has allocated, which no pointer of the caller reaches. *)
Theorem rejected_file_leaks :
  match open_old (lines ["[a]"; "k=v"; "[a]"]%string) with
  | Done (p, h) => p = None ∧ (size (h_files h), size (h_nodes h), size (h_lists h), size (h_kvs h)) =
                              (1, 1, 1, 1)%nat
  | _ => False
  end.
Proof. vm_compute. done. Qed.
