(* ===== verification/MemPool.v ===== *)
(** * The memory pool (module_function/memory_pool.c)

    A pool is a chain of equal blocks taken from [malloc]; small requests are
    cut from the blocks, large ones are blocks of their own, listed in the
    pool; cleanup entries name what to do when the pool is destroyed.

    A pointer is a block of [malloc] and an offset in it.  [malloc] returns
    addresses aligned for every type (16 bytes on the 64-bit ABI assumed for
    the sizes below), so an address is aligned to 8 when its offset is
    ([align_address]).  The headers and list entries the code keeps inside
    the blocks are kept by address in maps; every access checks that the block
    is live and that the structure lies inside it.  The bytes callers store
    are not modelled. *)

From S2P Require Import Prelude.
From stdpp Require Import gmap.

Open Scope Z_scope.

Record addr := Addr { a_blk : nat; a_off : Z }.
#[export] Instance addr_eq_dec : EqDecision addr.
Proof. solve_decision. Defined.
#[export] Instance addr_countable : Countable addr.
Proof. by refine (inj_countable' (λ a, (a_blk a, a_off a)) (λ p, Addr p.1 p.2) _); intros []. Defined.

(** [size_t] and [uint] arithmetic. *)
Definition size_t (z : Z) : Z := z mod 2 ^ 64.
Definition uint (z : Z) : Z := z mod 2 ^ 32.

(** ** Constants and structures (memory_pool.h; 64-bit sizes) *)

Definition NGX_ALIGNMENT : Z := 8.
Definition NGX_MAX_ALLOC_FROM_POOL : Z := 4095.
Definition sizeof_pool_data : Z := 32.
Definition sizeof_pool : Z := 64.
Definition sizeof_large : Z := 16.
Definition sizeof_cleanup : Z := 24.
Definition sizeof_cleanup_file : Z := 16.

Definition ngx_align_ptr (p a : Z) : Z := Z.land (p + (a - 1)) (Z.lnot (a - 1)).

(** [last] and [end] point into the block itself: their offsets. *)
Record ngx_pool_data_t := PoolData {
  d_last : Z;
  d_end : Z;
  d_next : option nat;
  d_failed : Z;
}.
Record ngx_pool_s := Pool {
  p_max : Z;
  p_current : option nat;
  p_large : option addr;
  p_cleanup : option addr;
}.
Record ngx_pool_large_s := Large { l_next : option addr; l_alloc : option addr }.
(** [ngx_pool_cleanup_pt]: the two handlers of the file, and the functions of
    the users of the pool, which are told apart by a number. *)
Inductive cleanup_handler := ngx_pool_cleanup_file_h | ngx_pool_delete_file_h | user_handler (id : nat).
Record ngx_pool_cleanup_s := Cleanup {
  c_handler : option cleanup_handler;
  c_data : option addr;
  c_next : option addr;
}.
Record cleanup_file := CleanupFile { cf_fd : Z; cf_name : list Z }.

#[export] Instance cleanup_handler_eq_dec : EqDecision cleanup_handler.
Proof. solve_decision. Defined.

(** [m_fails] says which of the next calls of [malloc] return NULL. *)
Record mem := Mem {
  m_live : gmap nat Z;              (* the blocks in use and their sizes *)
  m_brk : nat;                      (* blocks from here on are fresh *)
  m_fails : list bool;
  m_data : gmap nat ngx_pool_data_t;
  m_pool : gmap nat ngx_pool_s;
  m_large : gmap addr ngx_pool_large_s;
  m_cleanup : gmap addr ngx_pool_cleanup_s;
  m_cfile : gmap addr cleanup_file;
  m_fds : gset Z;                   (* open descriptors *)
  m_names : gset (list Z);          (* files that exist *)
  m_calls : list (cleanup_handler * option addr);   (* the handlers called, with their arguments *)
}.

Definition set_alloc l b f m := Mem l b f (m_data m) (m_pool m) (m_large m) (m_cleanup m) (m_cfile m) (m_fds m) (m_names m) (m_calls m).
Definition set_live l m := set_alloc l (m_brk m) (m_fails m) m.
Definition set_data d m := Mem (m_live m) (m_brk m) (m_fails m) d (m_pool m) (m_large m) (m_cleanup m) (m_cfile m) (m_fds m) (m_names m) (m_calls m).
Definition set_pool p m := Mem (m_live m) (m_brk m) (m_fails m) (m_data m) p (m_large m) (m_cleanup m) (m_cfile m) (m_fds m) (m_names m) (m_calls m).
Definition set_large l m := Mem (m_live m) (m_brk m) (m_fails m) (m_data m) (m_pool m) l (m_cleanup m) (m_cfile m) (m_fds m) (m_names m) (m_calls m).
Definition set_cleanup c m := Mem (m_live m) (m_brk m) (m_fails m) (m_data m) (m_pool m) (m_large m) c (m_cfile m) (m_fds m) (m_names m) (m_calls m).
Definition set_files f n m := Mem (m_live m) (m_brk m) (m_fails m) (m_data m) (m_pool m) (m_large m) (m_cleanup m) (m_cfile m) f n (m_calls m).
Definition set_calls c m := Mem (m_live m) (m_brk m) (m_fails m) (m_data m) (m_pool m) (m_large m) (m_cleanup m) (m_cfile m) (m_fds m) (m_names m) c.

(** The [n] bytes at [a] lie inside a block in use. *)
Definition touch (a : addr) (n : Z) : M mem unit := λ m,
  match m_live m !! a_blk a with
  | None => Fault UseAfterFree
  | Some s => if (0 <=? a_off a) && (a_off a + n <=? s) then Done (tt, m) else Fault OutOfBounds
  end.
Definition found {N} (x : mem → option N) : M mem N := λ m,
  match x m with Some n => Done (n, m) | None => Fault Uninitialised end.
Definition at_addr {N} (get : mem → gmap addr N) (size : Z) (p : option addr) : M mem N :=
  match p with
  | None => fault_with NullDeref
  | Some a => touch a size ;; found (λ m, get m !! a)
  end.
Definition at_block {N} (get : mem → gmap nat N) (size : Z) (p : option nat) : M mem N :=
  match p with
  | None => fault_with NullDeref
  | Some b => touch (Addr b 0) size ;; found (λ m, get m !! b)
  end.
Definition get_data := at_block m_data sizeof_pool_data.
Definition get_pool := at_block m_pool sizeof_pool.
Definition get_large := at_addr m_large sizeof_large.
Definition get_cleanup := at_addr m_cleanup sizeof_cleanup.
Definition get_cfile := at_addr m_cfile sizeof_cleanup_file.
Definition put_data (b : nat) (d : ngx_pool_data_t) : M mem unit :=
  touch (Addr b 0) sizeof_pool_data ;; modify (λ m, set_data (<[b := d]> (m_data m)) m).
Definition put_pool (b : nat) (p : ngx_pool_s) : M mem unit :=
  touch (Addr b 0) sizeof_pool ;; modify (λ m, set_pool (<[b := p]> (m_pool m)) m).
Definition put_large (a : addr) (l : ngx_pool_large_s) : M mem unit :=
  touch a sizeof_large ;; modify (λ m, set_large (<[a := l]> (m_large m)) m).
Definition put_cleanup (a : addr) (c : ngx_pool_cleanup_s) : M mem unit :=
  touch a sizeof_cleanup ;; modify (λ m, set_cleanup (<[a := c]> (m_cleanup m)) m).

Definition malloc (size : Z) : M mem (option nat) := λ m,
  match m_fails m with
  | true :: fs => Done (None, set_alloc (m_live m) (m_brk m) fs m)
  | fs => Done (Some (m_brk m),
                set_alloc (<[m_brk m := size]> (m_live m)) (S (m_brk m)) (tail fs) m)
  end.
Definition free (p : option addr) : M mem unit := λ m,
  match p with
  | None => Done (tt, m)
  | Some a => if decide (a_off a = 0 ∧ is_Some (m_live m !! a_blk a))
              then Done (tt, set_live (delete (a_blk a) (m_live m)) m)
              else Fault UseAfterFree
  end.

Definition d_set_last v d := PoolData v (d_end d) (d_next d) (d_failed d).
Definition d_set_next v d := PoolData (d_last d) (d_end d) v (d_failed d).
Definition d_set_failed v d := PoolData (d_last d) (d_end d) (d_next d) v.
Definition p_set_current v p := Pool (p_max p) v (p_large p) (p_cleanup p).
Definition p_set_large v p := Pool (p_max p) (p_current p) v (p_cleanup p).
Definition p_set_cleanup v p := Pool (p_max p) (p_current p) (p_large p) v.

(** Walks over the blocks and the lists meet every entry at most once. *)
Definition block_fuel (m : mem) : nat := S (size (m_live m)).
Definition large_fuel (m : mem) : nat := S (size (m_large m)).
Definition cleanup_fuel (m : mem) : nat := S (size (m_cleanup m)).

(** ** Allocation *)

Definition ngx_alloc (size : Z) : M mem (option nat) := malloc size.

(** The cleared bytes are not modelled. *)
Definition ngx_calloc (size : Z) : M mem (option nat) :=
  p ← malloc size;
  match p with
  | None => mret None
  | Some b => touch (Addr b 0) size ;; mret (Some b)
  end.

Definition ngx_create_pool (size : Z) : M mem (option nat) :=
  p ← ngx_alloc size;
  match p with
  | None => mret None
  | Some b =>
      put_data b (PoolData sizeof_pool size None 0) ;;
      let room := size_t (size - sizeof_pool) in
      put_pool b (Pool (if room <? NGX_MAX_ALLOC_FROM_POOL then room else NGX_MAX_ALLOC_FROM_POOL)
                    (Some b) None None) ;;
      mret (Some b)
  end.

(** The loop over the blocks that looks for [size] bytes. *)
Fixpoint palloc_walk (fuel : nat) (p : option nat) (size : Z) (align : bool)
  : M mem (option addr) :=
  match p with
  | None => mret None
  | Some b =>
      d ← get_data p;
      let m := if align then ngx_align_ptr (d_last d) NGX_ALIGNMENT else d_last d in
      if size <=? size_t (d_end d - m) then
        put_data b (d_set_last (m + size) d) ;; mret (Some (Addr b m))
      else match fuel return M mem (option addr) with
           | O => λ _, NoFuel
           | S f => palloc_walk f (d_next d) size align
           end
  end.

(** The loop of [ngx_palloc_block] to the end of the chain: it counts the
    failures of the blocks it passes and moves [current] on. *)
Fixpoint bump_failed (fuel : nat) (pool p : nat) : M mem nat :=
  d ← get_data (Some p);
  match d_next d with
  | None => mret p
  | Some n =>
      put_data p (d_set_failed (uint (d_failed d + 1)) d) ;;
      (if 4 <? d_failed d then
         h ← get_pool (Some pool); put_pool pool (p_set_current (Some n) h)
       else mret tt) ;;
      match fuel return M mem nat with
      | O => λ _, NoFuel
      | S f => bump_failed f pool n
      end
  end.

Definition ngx_palloc_block (pool : nat) (size : Z) : M mem (option addr) :=
  d ← get_data (Some pool);
  let psize := size_t (d_end d) in
  p ← ngx_alloc psize;
  match p with
  | None => mret None
  | Some b =>
      let m := ngx_align_ptr sizeof_pool_data NGX_ALIGNMENT in
      put_data b (PoolData (m + size) psize None 0) ;;
      h ← get_pool (Some pool);
      match p_current h with
      | None => fault_with NullDeref
      | Some c =>
          fuel ← gets block_fuel;
          l ← bump_failed fuel pool c;
          dl ← get_data (Some l);
          put_data l (d_set_next (Some b) dl) ;;
          mret (Some (Addr b m))
      end
  end.

Definition ngx_palloc_small (pool : nat) (size : Z) (align : bool) : M mem (option addr) :=
  h ← get_pool (Some pool);
  match p_current h with
  | None => fault_with NullDeref
  | Some _ =>
      fuel ← gets block_fuel;
      r ← palloc_walk fuel (p_current h) size align;
      match r with
      | Some a => mret (Some a)
      | None => ngx_palloc_block pool size
      end
  end.

(** The loop of [ngx_palloc_large]: an entry without a block, among the
    first five. *)
Fixpoint large_slot (fuel : nat) (n : Z) (l : option addr) : M mem (option addr) :=
  match l with
  | None => mret None
  | Some a =>
      e ← get_large l;
      match l_alloc e with
      | None => mret (Some a)
      | Some _ =>
          if 3 <? n then mret None
          else match fuel return M mem (option addr) with
               | O => λ _, NoFuel
               | S f => large_slot f (uint (n + 1)) (l_next e)
               end
      end
  end.

(** A new entry for the block [b] at the head of the list. *)
Definition add_large (pool b : nat) : M mem (option addr) :=
  e ← ngx_palloc_small pool sizeof_large true;
  match e with
  | None => free (Some (Addr b 0)) ;; mret None
  | Some a =>
      h ← get_pool (Some pool);
      put_large a (Large (p_large h) (Some (Addr b 0))) ;;
      put_pool pool (p_set_large (Some a) h) ;;
      mret (Some (Addr b 0))
  end.

Definition ngx_palloc_large (pool : nat) (size : Z) : M mem (option addr) :=
  p ← ngx_alloc size;
  match p with
  | None => mret None
  | Some b =>
      h ← get_pool (Some pool);
      fuel ← gets large_fuel;
      s ← large_slot fuel 0 (p_large h);
      match s with
      | Some a =>
          e ← get_large (Some a);
          put_large a (Large (l_next e) (Some (Addr b 0))) ;; mret (Some (Addr b 0))
      | None => add_large pool b
      end
  end.

Definition ngx_palloc (pool : nat) (size : Z) : M mem (option addr) :=
  h ← get_pool (Some pool);
  if size <=? p_max h then ngx_palloc_small pool size true else ngx_palloc_large pool size.

Definition ngx_pnalloc (pool : nat) (size : Z) : M mem (option addr) :=
  h ← get_pool (Some pool);
  if size <=? p_max h then ngx_palloc_small pool size false else ngx_palloc_large pool size.

(** [mem_memalign_posix(alignment, size)] is [ngx_alloc(size)]. *)
Definition ngx_pmemalign (pool : nat) (size alignment : Z) : M mem (option addr) :=
  p ← ngx_alloc size;
  match p with
  | None => mret None
  | Some b => add_large pool b
  end.

(** The bytes [memset] clears must lie in the block. *)
Definition ngx_pcalloc (pool : nat) (size : Z) : M mem (option addr) :=
  p ← ngx_palloc pool size;
  match p with
  | None => mret None
  | Some a => touch a size ;; mret (Some a)
  end.

(** ** Freeing *)

Fixpoint pfree_walk (fuel : nat) (l : option addr) (p : addr) : M mem Z :=
  match l with
  | None => mret (-5)
  | Some a =>
      e ← get_large l;
      if decide (l_alloc e = Some p) then
        free (Some p) ;; put_large a (Large (l_next e) None) ;; mret 0
      else match fuel return M mem Z with
           | O => λ _, NoFuel
           | S f => pfree_walk f (l_next e) p
           end
  end.

Definition ngx_pfree (pool : nat) (p : addr) : M mem Z :=
  h ← get_pool (Some pool);
  fuel ← gets large_fuel;
  pfree_walk fuel (p_large h) p.

Fixpoint free_large (fuel : nat) (l : option addr) : M mem unit :=
  match l with
  | None => mret tt
  | Some _ =>
      e ← get_large l;
      free (l_alloc e) ;;
      match fuel return M mem unit with
      | O => λ _, NoFuel
      | S f => free_large f (l_next e)
      end
  end.

Fixpoint free_chain (fuel : nat) (p : nat) (n : option nat) : M mem unit :=
  free (Some (Addr p 0)) ;;
  match n with
  | None => mret tt
  | Some q =>
      d ← get_data n;
      match fuel return M mem unit with
      | O => λ _, NoFuel
      | S f => free_chain f q (d_next d)
      end
  end.

(** [close] of a descriptor that is not open is reported and ignored, as is
    [unlink] of a file that does not exist. *)
Definition ngx_pool_cleanup_file (data : option addr) : M mem unit :=
  c ← get_cfile data;
  modify (λ m, set_files (m_fds m ∖ {[cf_fd c]}) (m_names m) m).
Definition ngx_pool_delete_file (data : option addr) : M mem unit :=
  c ← get_cfile data;
  modify (λ m, set_files (m_fds m ∖ {[cf_fd c]}) (m_names m ∖ {[cf_name c]}) m).
(** [handler(data)].  A function of a user does its work outside of the pool;
    that it was called, and when, is on the list of the calls. *)
Definition run_handler (h : cleanup_handler) (data : option addr) : M mem unit :=
  modify (λ m, set_calls (m_calls m ++ [(h, data)]) m) ;;
  match h with
  | ngx_pool_cleanup_file_h => ngx_pool_cleanup_file data
  | ngx_pool_delete_file_h => ngx_pool_delete_file data
  | user_handler _ => mret tt
  end.

Fixpoint run_cleanups (fuel : nat) (c : option addr) : M mem unit :=
  match c with
  | None => mret tt
  | Some _ =>
      e ← get_cleanup c;
      (match c_handler e with Some h => run_handler h (c_data e) | None => mret tt end) ;;
      match fuel return M mem unit with
      | O => λ _, NoFuel
      | S f => run_cleanups f (c_next e)
      end
  end.

Definition ngx_destroy_pool (pool : nat) : M mem unit :=
  h ← get_pool (Some pool);
  cfuel ← gets cleanup_fuel;
  run_cleanups cfuel (p_cleanup h) ;;
  h ← get_pool (Some pool);
  lfuel ← gets large_fuel;
  free_large lfuel (p_large h) ;;
  d ← get_data (Some pool);
  bfuel ← gets block_fuel;
  free_chain bfuel pool (d_next d).

Fixpoint reset_chain (fuel : nat) (p : option nat) : M mem unit :=
  match p with
  | None => mret tt
  | Some b =>
      d ← get_data p;
      put_data b (PoolData sizeof_pool (d_end d) (d_next d) 0) ;;
      match fuel return M mem unit with
      | O => λ _, NoFuel
      | S f => reset_chain f (d_next d)
      end
  end.

Definition ngx_reset_pool (pool : nat) : M mem unit :=
  h ← get_pool (Some pool);
  lfuel ← gets large_fuel;
  free_large lfuel (p_large h) ;;
  bfuel ← gets block_fuel;
  reset_chain bfuel (Some pool) ;;
  h ← get_pool (Some pool);
  put_pool pool (Pool (p_max h) (Some pool) None (p_cleanup h)).

(** ** Cleanup entries *)

Definition ngx_pool_cleanup_add (p : nat) (size : Z) : M mem (option addr) :=
  c ← ngx_palloc p sizeof_cleanup;
  match c with
  | None => mret None
  | Some a =>
      data ← (if size =? 0 then mret (Some None)
              else d ← ngx_palloc p size; mret (Some <$> d));
      match data with
      | None => mret None
      | Some d =>
          h ← get_pool (Some p);
          put_cleanup a (Cleanup None d (p_cleanup h)) ;;
          put_pool p (p_set_cleanup (Some a) h) ;;
          mret (Some a)
      end
  end.

Fixpoint cleanup_file_walk (fuel : nat) (c : option addr) (fd : Z) : M mem unit :=
  match c with
  | None => mret tt
  | Some a =>
      e ← get_cleanup c;
      let step := match fuel return M mem unit with
                  | O => λ _, NoFuel
                  | S f => cleanup_file_walk f (c_next e) fd
                  end in
      if decide (c_handler e = Some ngx_pool_cleanup_file_h) then
        cf ← get_cfile (c_data e);
        if cf_fd cf =? fd then
          run_handler ngx_pool_cleanup_file_h (c_data e) ;;
          put_cleanup a (Cleanup None (c_data e) (c_next e))
        else step
      else step
  end.

Definition ngx_pool_run_cleanup_file (p : nat) (fd : Z) : M mem unit :=
  h ← get_pool (Some p);
  fuel ← gets cleanup_fuel;
  cleanup_file_walk fuel (p_cleanup h) fd.
