(* ===== verification/MemPoolSpec.v ===== *)
(** * The memory pool: invariant and allocation

    [pool_rep] relates the memory to the chain of blocks of a pool and to its
    list of large blocks; [owned] are the bytes it has handed out. *)

From S2P Require Import Prelude Blocks MemPool.
From stdpp Require Import gmap.

Open Scope Z_scope.

(** ** Alignment *)

Lemma ngx_align_ptr_div p : ngx_align_ptr p 8 = (p + 7) / 8 * 8.
Proof.
  unfold ngx_align_ptr. change (8 - 1) with (Z.ones 3). rewrite <- Z.ldiff_land.
  rewrite Z.ldiff_ones_r by lia. rewrite Z.shiftr_div_pow2, Z.shiftl_mul_pow2 by lia. done.
Qed.

Lemma align_ge p : p ≤ ngx_align_ptr p 8 < p + 8.
Proof.
  rewrite ngx_align_ptr_div. pose proof (Z_div_mod_eq_full (p + 7) 8).
  pose proof (Z.mod_pos_bound (p + 7) 8 ltac:(lia)). lia.
Qed.
Lemma align_mod p : ngx_align_ptr p 8 mod 8 = 0.
Proof. rewrite ngx_align_ptr_div. apply Z_mod_mult. Qed.

(** Aligning up stays below an aligned bound. *)
Lemma align_le p e : p ≤ e → e mod 8 = 0 → ngx_align_ptr p 8 ≤ e.
Proof.
  intros Hp He. pose proof (align_ge p). pose proof (align_mod p).
  pose proof (Z_div_mod_eq_full e 8). pose proof (Z_div_mod_eq_full (ngx_align_ptr p 8) 8). lia.
Qed.

(** In a block of [malloc] the offset decides the alignment of the address. *)
Lemma align_address base off :
  base mod 16 = 0 → ngx_align_ptr (base + off) 8 = base + ngx_align_ptr off 8.
Proof.
  intros Hb. rewrite !ngx_align_ptr_div. pose proof (Z_div_mod_eq_full base 16) as E.
  rewrite Hb in E. replace (base + off + 7) with (off + 7 + (2 * (base / 16)) * 8) by lia.
  rewrite Z_div_plus_full by lia. lia.
Qed.

Definition aligned (align : bool) (o : Z) : Z := if align then ngx_align_ptr o 8 else o.
Lemma aligned_bounds align o e :
  o ≤ e → e mod 8 = 0 → o ≤ aligned align o ≤ e.
Proof.
  intros H He. destruct align; cbn; [|lia]. pose proof (align_ge o).
  pose proof (align_le o e H He). lia.
Qed.

(** ** The chain of blocks *)

Fixpoint chain (dm : gmap nat ngx_pool_data_t) (p : option nat) (bs : list nat) : Prop :=
  match bs with
  | [] => p = None
  | b :: bs' => p = Some b ∧ ∃ d, dm !! b = Some d ∧ chain dm (d_next d) bs'
  end.

(** What the allocator keeps in a header besides the failure counter. *)
Definition limits (d : ngx_pool_data_t) := (d_last d, d_end d).

Definition block_ok (m : mem) (sz : Z) (b : nat) : Prop :=
  m_live m !! b = Some sz ∧
  ∃ d, m_data m !! b = Some d ∧ d_end d = sz ∧ sizeof_pool_data ≤ d_last d ≤ sz.

(** The bytes handed out from the blocks. *)
Definition used (m : mem) (bs : list nat) (a : addr) (n : Z) : Prop :=
  a_blk a ∈ bs ∧ ∃ d, m_data m !! a_blk a = Some d ∧
  sizeof_pool_data ≤ a_off a ∧ a_off a + n ≤ d_last d.

(** Two regions have no byte in common. *)
Definition apart (a : addr) (n : Z) (a' : addr) (n' : Z) : Prop :=
  a_blk a ≠ a_blk a' ∨ a_off a + n ≤ a_off a' ∨ a_off a' + n' ≤ a_off a.

Record pool_ok (m : mem) (pool : nat) (h : ngx_pool_s) (bs : list nat) (sz : Z) : Prop := {
  po_chain : chain (m_data m) (Some pool) bs;
  po_nodup : NoDup bs;
  po_blocks : Forall (block_ok m sz) bs;
  po_head : m_pool m !! pool = Some h;
  po_current : ∃ c, p_current h = Some c ∧ c ∈ bs;
  po_size : sizeof_pool ≤ sz < 2 ^ 63 ∧ sz mod 8 = 0;
  po_max : 0 ≤ p_max h ≤ sz - sizeof_pool;
  po_fresh : ∀ b, (m_brk m ≤ b)%nat → m_live m !! b = None;
}.

Lemma chain_middle dm p b1 b b2 :
  chain dm p (b1 ++ b :: b2) → chain dm (Some b) (b :: b2).
Proof.
  revert p; induction b1 as [|x b1 IH]; intros p; cbn [app chain].
  - intros [-> H]. done.
  - intros [_ (d & _ & H)]. by apply IH in H.
Qed.

Lemma chain_frame dm dm' p bs :
  (∀ b, b ∈ bs → d_next <$> dm' !! b = d_next <$> dm !! b) → chain dm p bs → chain dm' p bs.
Proof.
  revert p; induction bs as [|b bs IH]; intros p Hf; cbn; [done|].
  intros [-> (d & Hd & H)]. split; [done|].
  pose proof (Hf b ltac:(by left)) as E. rewrite Hd in E. cbn in E.
  apply fmap_Some in E as (d' & Hd' & E). exists d'. split; [done|]. rewrite <- E.
  apply IH; [|done]. intros x Hx. apply Hf. by right.
Qed.

Lemma chain_head dm p bs b : chain dm (Some p) bs → head bs = Some b → b = p.
Proof. destruct bs as [|x bs]; [done|]. intros [[= ->] _] [= ->]. done. Qed.

(** Appending a block to the chain. *)
Lemma pool_chain_snoc dm dm' p bs l b :
  chain dm p (bs ++ [l]) → NoDup (bs ++ [l]) →
  (∀ x, x ∈ bs → d_next <$> dm' !! x = d_next <$> dm !! x) →
  d_next <$> dm' !! l = Some (Some b) → d_next <$> dm' !! b = Some None →
  chain dm' p (bs ++ [l; b]).
Proof.
  revert p; induction bs as [|x bs IH]; intros p; cbn [app chain].
  - intros [-> _] _ _ Hl Hb. apply fmap_Some in Hl as (d & Hd & E).
    apply fmap_Some in Hb as (d' & Hd' & E').
    split; [done|]. exists d. split; [done|]. split; [done|]. eauto.
  - intros [-> (d & Hd & H)] [Hx Hnd]%NoDup_cons Hf Hl Hb. split; [done|].
    pose proof (Hf x ltac:(by left)) as E. rewrite Hd in E. apply fmap_Some in E as (d' & Hd' & E).
    exists d'. split; [done|]. rewrite <- E. apply IH; try done.
    intros y Hy. apply Hf. by right.
Qed.

(** ** Accesses *)

Lemma touch_ok m b o s n :
  m_live m !! b = Some s → 0 ≤ o → o + n ≤ s → touch (Addr b o) n m = Done (tt, m).
Proof.
  intros Hb H1 H2. unfold touch. cbn. rewrite Hb.
  by rewrite (proj2 (Z.leb_le _ _) H1), (proj2 (Z.leb_le _ _) H2).
Qed.

Section blocks.
Context (m : mem) (sz : Z) (b : nat).
Hypothesis Hlive : m_live m !! b = Some sz.

Lemma get_data_ok d : m_data m !! b = Some d → sizeof_pool_data ≤ sz →
  get_data (Some b) m = Done (d, m).
Proof using Hlive.
  intros Hd Hs. unfold get_data, at_block.
  run (touch_ok m b 0 sz sizeof_pool_data Hlive ltac:(lia) ltac:(lia)). unfold found. by rewrite Hd.
Qed.
Lemma put_data_ok d : sizeof_pool_data ≤ sz →
  put_data b d m = Done (tt, set_data (<[b := d]> (m_data m)) m).
Proof using Hlive.
  intros Hs. unfold put_data.
  by run (touch_ok m b 0 sz sizeof_pool_data Hlive ltac:(lia) ltac:(lia)).
Qed.
Lemma get_pool_ok h : m_pool m !! b = Some h → sizeof_pool ≤ sz →
  get_pool (Some b) m = Done (h, m).
Proof using Hlive.
  intros Hh Hs. unfold get_pool, at_block.
  run (touch_ok m b 0 sz sizeof_pool Hlive ltac:(lia) ltac:(lia)). unfold found. by rewrite Hh.
Qed.
Lemma put_pool_ok h : sizeof_pool ≤ sz →
  put_pool b h m = Done (tt, set_pool (<[b := h]> (m_pool m)) m).
Proof using Hlive.
  intros Hs. unfold put_pool.
  by run (touch_ok m b 0 sz sizeof_pool Hlive ltac:(lia) ltac:(lia)).
Qed.
End blocks.

(** ** Taking bytes from a block of the chain *)

Section walk.
Context (m : mem) (sz : Z).
Hypothesis Hsz : sizeof_pool ≤ sz < 2 ^ 63 ∧ sz mod 8 = 0.

Lemma block_size d : sz - d = size_t (sz - d) ∨ sz < d ∨ d < 0.
Proof using Hsz. unfold size_t. destruct (decide (0 ≤ d ≤ sz)); [left|lia]. rewrite Z.mod_small; lia. Qed.

Lemma palloc_walk_ok size align : 0 ≤ size → ∀ fuel p bs,
  chain (m_data m) p bs → Forall (block_ok m sz) bs → (length bs ≤ fuel)%nat →
  palloc_walk fuel p size align m = Done (None, m) ∨
  ∃ b d, b ∈ bs ∧ m_data m !! b = Some d ∧ let o := aligned align (d_last d) in
    o + size ≤ sz ∧
    palloc_walk fuel p size align m =
      Done (Some (Addr b o), set_data (<[b := d_set_last (o + size) d]> (m_data m)) m).
Proof using Hsz.
  intros Hsize. unfold sizeof_pool in Hsz. induction fuel as [|fuel IH]; intros p bs Hc Hok Hlen.
  - destruct bs; [|cbn in Hlen; lia]. cbn in Hc. subst p. by left.
  - destruct bs as [|b bs]; [cbn in Hc; subst p; by left|].
    destruct Hc as [-> (d & Hd & Hc)].
    apply Forall_cons in Hok as [(Hlive & d' & Hd' & He & Hl) Hok].
    assert (d' = d) as -> by congruence. unfold sizeof_pool_data in Hl.
    cbn [palloc_walk]. run (get_data_ok m sz b Hlive d Hd ltac:(unfold sizeof_pool_data; lia)).
    change (if align then ngx_align_ptr (d_last d) NGX_ALIGNMENT else d_last d)
      with (aligned align (d_last d)). rewrite He.
    pose proof (aligned_bounds align (d_last d) sz ltac:(lia) ltac:(tauto)) as Ho.
    destruct (block_size (aligned align (d_last d))) as [<-|E]; [|lia].
    destruct (Z.leb_spec size (sz - aligned align (d_last d))) as [Hle|Hgt].
    + right. exists b, d. split; [by left|]. split; [done|]. split; [lia|].
      by run (put_data_ok m sz b Hlive (d_set_last (aligned align (d_last d) + size) d)
                ltac:(unfold sizeof_pool_data; lia)).
    + destruct (IH _ bs Hc Hok ltac:(cbn in Hlen; lia)) as [E|(b' & d' & Hb & Hd2 & Ho2 & E)];
        [by left|right]. exists b', d'. split; [by right|]. done.
Qed.
End walk.

(** The memory after [n] bytes at [o] are taken from the block [b]. *)
Definition taken (m : mem) (b : nat) (d : ngx_pool_data_t) (o n : Z) : mem :=
  set_data (<[b := d_set_last (o + n) d]> (m_data m)) m.

Section take.
Context (m : mem) (pool : nat) (h : ngx_pool_s) (bs : list nat) (sz : Z) (b : nat)
  (d : ngx_pool_data_t) (o n : Z).
Hypothesis Hpool : pool_ok m pool h bs sz.
Hypothesis Hb : b ∈ bs.
Hypothesis Hd : m_data m !! b = Some d.
Hypothesis Hn : 0 ≤ n.
Hypothesis Ho : d_last d ≤ o ∧ o + n ≤ sz.

Lemma taken_block x : block_ok m sz x → block_ok (taken m b d o n) sz x.
Proof using Hd Hn Ho.
  intros (Hl & d' & Hd' & He & Hlast). split; [done|]. cbn.
  destruct (decide (b = x)) as [<-|Hne].
  - rewrite lookup_insert_eq. assert (d' = d) as -> by congruence.
    eexists. split; [done|]. cbn. split; [done|lia].
  - rewrite lookup_insert_ne by done. eauto.
Qed.

Lemma take_pool : pool_ok (taken m b d o n) pool h bs sz.
Proof using Hpool Hd Hn Ho.
  destruct Hpool as [Hc Hnd Hok Hh Hcur Hsz Hmax Hfresh]. split; try done.
  - eapply chain_frame; [|exact Hc]. intros x _. cbn.
    destruct (decide (b = x)) as [<-|Hne]; [by rewrite lookup_insert_eq, Hd|].
    by rewrite lookup_insert_ne.
  - eapply Forall_impl; [exact Hok|]. intros x. apply taken_block.
Qed.

Lemma take_used : used (taken m b d o n) bs (Addr b o) n.
Proof using Hpool Hb Hd Ho.
  split; [done|]. cbn. rewrite lookup_insert_eq. eexists. split; [done|]. cbn.
  destruct Hpool as [_ _ Hok _ _ _ _ _]. rewrite Forall_forall in Hok.
  destruct (Hok b Hb) as (_ & d' & Hd' & _ & Hl). assert (d' = d) as -> by congruence. lia.
Qed.

Lemma take_apart a k : used m bs a k → used (taken m b d o n) bs a k ∧ apart (Addr b o) n a k.
Proof using Hd Hn Ho.
  intros (Ha & d' & Hd' & H1 & H2). unfold used, apart. cbn.
  destruct (decide (b = a_blk a)) as [E|Hne].
  - rewrite <- E in *. assert (d' = d) as -> by congruence. rewrite lookup_insert_eq.
    split; [split; [done|eexists; split; [done|cbn; lia]]|]. right. right. lia.
  - rewrite lookup_insert_ne by done. split; [split; [done|eauto]|]. by left.
Qed.
End take.

(** ** A new block at the end of the chain *)

(** Only failure counters differ. *)
Definition same_blocks (dm dm' : gmap nat ngx_pool_data_t) : Prop :=
  ∀ b, (λ d, (limits d, d_next d)) <$> dm' !! b = (λ d, (limits d, d_next d)) <$> dm !! b.

Lemma same_blocks_parts dm dm' b :
  same_blocks dm dm' → limits <$> dm' !! b = limits <$> dm !! b ∧
                       d_next <$> dm' !! b = d_next <$> dm !! b.
Proof.
  intros Hs. pose proof (Hs b) as E. destruct (dm' !! b), (dm !! b); cbn in E |- *; try done.
  injection E as E1 E2 E3. unfold limits. by rewrite E1, E2, E3.
Qed.

Lemma mem_same_blocks_trans a b c : same_blocks a b → same_blocks b c → same_blocks a c.
Proof. intros H1 H2 x. by rewrite H2, H1. Qed.

Lemma same_blocks_failed dm b d f :
  dm !! b = Some d → same_blocks dm (<[b := d_set_failed f d]> dm).
Proof.
  intros Hd x. destruct (decide (b = x)) as [<-|Hne]; [by rewrite lookup_insert_eq, Hd|].
  by rewrite lookup_insert_ne.
Qed.

Lemma same_blocks_chain dm dm' p bs : same_blocks dm dm' → chain dm p bs → chain dm' p bs.
Proof.
  intros Hs. apply chain_frame. intros b _. by apply same_blocks_parts.
Qed.

(** What the loop over the chain changes: counters and [current], which
    stays among the blocks [cs]. *)
Definition bumped (pool : nat) (cs : list nat) (h : ngx_pool_s) (m m' : mem) : Prop :=
  ∃ dm c, same_blocks (m_data m) dm ∧ c ∈ cs ∧
    m' = set_pool (<[pool := p_set_current (Some c) h]> (m_pool m)) (set_data dm m).

Lemma set_same_current pool h m c :
  m_pool m !! pool = Some h → p_current h = Some c →
  set_pool (<[pool := p_set_current (Some c) h]> (m_pool m)) m = m.
Proof.
  intros Hh Hc. unfold p_set_current. rewrite <- Hc.
  replace (Pool _ _ _ _) with h by (by destruct h). rewrite insert_id by done. by destruct m.
Qed.

Lemma bumped_refl pool cs h m c :
  m_pool m !! pool = Some h → p_current h = Some c → c ∈ cs → bumped pool cs h m m.
Proof.
  intros Hh Hc Hin. exists (m_data m), c. split; [done|]. split; [done|].
  symmetry. refine (eq_trans _ (set_same_current pool h m c Hh Hc)). by destruct m.
Qed.

Lemma mem_same_blocks_ok m dm sz b :
  same_blocks (m_data m) dm → block_ok m sz b → block_ok (set_data dm m) sz b.
Proof.
  intros Hs (Hl & d & Hd & He & Hlast). split; [done|].
  destruct (same_blocks_parts _ _ b Hs) as [E _]. rewrite Hd in E.
  apply fmap_Some in E as (d' & Hd' & E). injection E as E1 E2.
  exists d'. split; [done|]. by rewrite <- E1, <- E2.
Qed.

Section bump.
Context (pool : nat) (sz : Z) (cs : list nat).
Hypothesis Hsz : sizeof_pool ≤ sz < 2 ^ 63 ∧ sz mod 8 = 0.

(** One round of the loop. *)
Lemma bump_step m h p d n :
  m_live m !! p = Some sz → m_data m !! p = Some d → m_live m !! pool = Some sz →
  m_pool m !! pool = Some h → is_Some (p_current h) → (∀ c, p_current h = Some c → c ∈ cs) →
  n ∈ cs → ∃ m', (put_data p (d_set_failed (uint (d_failed d + 1)) d) ;;
    (if 4 <? d_failed d then
       h ← get_pool (Some pool); put_pool pool (p_set_current (Some n) h)
     else mret tt)) m = Done (tt, m') ∧ bumped pool cs h m m'.
Proof using Hsz.
  intros Hl Hd Hlp Hh [c Hc] Hcs Hn. unfold sizeof_pool in Hsz.
  run (put_data_ok m sz p Hl (d_set_failed (uint (d_failed d + 1)) d)
         ltac:(unfold sizeof_pool_data; lia)).
  set (m1 := set_data _ m). destruct (4 <? d_failed d).
  - run (get_pool_ok m1 sz pool Hlp h Hh ltac:(unfold sizeof_pool; lia)).
    rewrite (put_pool_ok m1 sz pool Hlp) by (unfold sizeof_pool; lia).
    eexists. split; [done|]. eexists _, n. split; [by apply same_blocks_failed|]. done.
  - exists m1. split; [done|]. exists (m_data m1), c. split; [by apply same_blocks_failed|].
    split; [by apply Hcs|]. symmetry.
    refine (eq_trans _ (set_same_current pool h m1 c Hh Hc)). done.
Qed.

Lemma bump_failed_ok : ∀ fuel p bs m h,
  chain (m_data m) (Some p) bs → Forall (block_ok m sz) bs → (length bs ≤ S fuel)%nat →
  m_live m !! pool = Some sz → m_pool m !! pool = Some h →
  is_Some (p_current h) → (∀ c, p_current h = Some c → c ∈ cs) → (∀ b, b ∈ bs → b ∈ cs) →
  ∃ l bs0 m', bs = bs0 ++ [l] ∧ bump_failed fuel pool p m = Done (l, m') ∧ bumped pool cs h m m'.
Proof using Hsz.
  induction fuel as [|fuel IH]; intros p bs m h Hc Hok Hlen Hlp Hh Hcur Hcs Hbs;
    (destruct bs as [|b bs]; [done|]); destruct Hc as [[= ->] (d & Hd & Hc)];
    apply Forall_cons in Hok as [Hb Hok]; pose proof Hb as (Hl & _);
    pose proof (get_data_ok m sz b Hl d Hd) as Hget; cbn [bump_failed];
    run (Hget ltac:(unfold sizeof_pool, sizeof_pool_data in *; lia)).
  - destruct bs; [|cbn in Hlen; lia]. cbn in Hc. rewrite Hc.
    destruct Hcur as [c Hc']. exists b, [], m. split; [done|]. split; [done|].
    eapply bumped_refl; eauto.
  - destruct bs as [|n bs].
    { cbn in Hc. rewrite Hc. destruct Hcur as [c Hc']. exists b, [], m. split; [done|]. split; [done|].
      eapply bumped_refl; eauto. }
    pose proof Hc as [Hnx _]. rewrite Hnx. rewrite Hnx in Hc.
    destruct (bump_step m h b d n Hl Hd Hlp Hh Hcur Hcs) as (m1 & Hrun & Hb1).
    { apply Hbs. right. by left. }
    pose proof Hb1 as (dm & c1 & Hs1 & Hc1 & ->). set (m1 := set_pool _ _) in *.
    assert (Hh1 : m_pool m1 !! pool = Some (p_set_current (Some c1) h)) by apply lookup_insert_eq.
    destruct (IH n (n :: bs) m1 (p_set_current (Some c1) h)) as (l & bs0 & m2 & E & Hrun2 & Hb2).
    + by eapply same_blocks_chain.
    + eapply Forall_impl; [exact Hok|]. intros x Hx. by apply mem_same_blocks_ok.
    + cbn in Hlen |- *. lia.
    + exact Hlp.
    + exact Hh1.
    + by eexists.
    + intros c [= <-]. done.
    + intros x Hx. apply Hbs. by right.
    + exists l, (b :: bs0), m2. split; [by rewrite E|]. split.
      * revert Hrun. unfold mbind, M_bind. destruct (put_data _ _ m) as [[[] m0]| |]; try done.
        intros Hrun. by rewrite Hrun.
      * destruct Hb2 as (dm2 & c2 & Hs2 & Hc2 & ->). exists dm2, c2.
        split; [by eapply mem_same_blocks_trans|]. split; [done|].
        unfold m1. cbn. rewrite insert_insert_eq. done.
Qed.
End bump.

(** ** The result of a small request *)

(** The parts of the memory that a small request leaves alone. *)
Definition others (m : mem) := (m_large m, m_cleanup m, m_cfile m, m_fds m, m_names m, m_calls m).
Definition lists (h : ngx_pool_s) := (p_max h, p_large h, p_cleanup h).

Record gave (m m' : mem) (pool : nat) (h h' : ngx_pool_s) (bs bs' : list nat) (sz : Z)
    (a : addr) (n : Z) : Prop := {
  gv_pool : pool_ok m' pool h' bs' sz;
  gv_used : used m' bs' a n;
  gv_old : ∀ x k, used m bs x k → used m' bs' x k ∧ apart a n x k;
  gv_blocks : bs ⊆ bs' ∧ ∀ b, b ∈ bs' → b ∈ bs ∨ b = m_brk m;
  gv_live : ∀ b s, m_live m !! b = Some s → m_live m' !! b = Some s;
  gv_brk : (m_brk m ≤ m_brk m')%nat;
  gv_others : others m' = others m;
  gv_lists : lists h' = lists h;
}.

(** [malloc] returned NULL: only its answer is consumed. *)
Definition refused (m m' : mem) : Prop :=
  ∃ fs, m_fails m = true :: fs ∧ m' = set_alloc (m_live m) (m_brk m) fs m.

Lemma malloc_cases size m :
  (∃ m', malloc size m = Done (None, m') ∧ refused m m') ∨
  malloc size m = Done (Some (m_brk m),
    set_alloc (<[m_brk m := size]> (m_live m)) (S (m_brk m)) (tail (m_fails m)) m).
Proof.
  unfold malloc. destruct (m_fails m) as [|[] fs] eqn:E; [by right| |by right].
  left. eexists. split; [done|]. exists fs. by split.
Qed.

Section grow.
Context (m : mem) (pool : nat) (h : ngx_pool_s) (bs : list nat) (sz size : Z).
Hypothesis Hpool : pool_ok m pool h bs sz.
Hypothesis Hsize : 0 ≤ size ≤ sz - sizeof_pool.

(** The header of the new block, and the memory once it is there. *)
Definition new_data : ngx_pool_data_t := PoolData (32 + size) sz None 0.
Definition grown : mem :=
  set_data (<[m_brk m := new_data]> (m_data m))
    (set_alloc (<[m_brk m := sz]> (m_live m)) (S (m_brk m)) (tail (m_fails m)) m).

Lemma new_block_fresh : m_brk m ∉ bs.
Proof using Hpool.
  intros Hin. destruct Hpool as [_ _ Hok _ _ _ _ Hf]. rewrite Forall_forall in Hok.
  destruct (Hok _ Hin) as [Hl _]. by rewrite Hf in Hl.
Qed.

Lemma grown_block b : b ∈ bs → block_ok grown sz b.
Proof using Hpool.
  intros Hin. pose proof new_block_fresh. assert (m_brk m ≠ b) by (intros <-; done).
  destruct Hpool as [_ _ Hok _ _ _ _ _]. rewrite Forall_forall in Hok.
  destruct (Hok b Hin) as (Hl & d & Hd & He). split; cbn; rewrite lookup_insert_ne by done; eauto.
Qed.

Lemma grown_chain p bs' : bs' ⊆ bs → chain (m_data m) p bs' → chain (m_data grown) p bs'.
Proof using Hpool.
  intros Hsub. apply chain_frame. intros b Hb%Hsub. pose proof new_block_fresh.
  cbn. rewrite lookup_insert_ne; [done|]. by intros <-.
Qed.

(** Linking the new block behind the last one. *)
Definition linked (dm : gmap nat ngx_pool_data_t) (l : nat) (dl : ngx_pool_data_t) (c : nat) : mem :=
  set_data (<[l := d_set_next (Some (m_brk m)) dl]> dm)
    (set_pool (<[pool := p_set_current (Some c) h]> (m_pool m)) grown).

Context (dm : gmap nat ngx_pool_data_t) (l c : nat) (b1 : list nat) (dl : ngx_pool_data_t).
Hypothesis Hsame : same_blocks (m_data grown) dm.
Hypothesis Hbs : bs = b1 ++ [l].
Hypothesis Hc : c ∈ bs.
Hypothesis Hdl : dm !! l = Some dl.

Lemma linked_limits b : limits <$> m_data (linked dm l dl c) !! b = limits <$> m_data grown !! b.
Proof using Hsame Hdl.
  destruct (same_blocks_parts _ _ b Hsame) as [E _]. rewrite <- E.
  cbn [linked m_data set_data set_pool]. destruct (decide (l = b)) as [<-|Hne].
  - by rewrite lookup_insert_eq, Hdl.
  - by rewrite lookup_insert_ne.
Qed.

Lemma linked_next b : b ≠ l →
  d_next <$> m_data (linked dm l dl c) !! b = d_next <$> m_data grown !! b.
Proof using Hsame.
  intros Hne. destruct (same_blocks_parts _ _ b Hsame) as [_ E]. rewrite <- E.
  cbn [linked m_data set_data set_pool]. by rewrite lookup_insert_ne.
Qed.

Lemma linked_block b : block_ok grown sz b → block_ok (linked dm l dl c) sz b.
Proof using Hsame Hdl.
  intros (Hl & d & Hd & He & Hlast). split; [done|]. pose proof (linked_limits b) as E.
  rewrite Hd in E. apply fmap_Some in E as (d' & Hd' & E). injection E as E1 E2.
  exists d'. split; [done|]. by rewrite <- E1, <- E2.
Qed.

Lemma grown_new_block : block_ok grown sz (m_brk m).
Proof using Hpool Hsize.
  split; cbn; rewrite lookup_insert_eq; [done|]. eexists. split; [done|]. cbn.
  unfold sizeof_pool, sizeof_pool_data in *. lia.
Qed.

Lemma linked_pool : pool_ok (linked dm l dl c) pool (p_set_current (Some c) h) (bs ++ [m_brk m]) sz.
Proof using All.
  pose proof new_block_fresh as Hnew. pose proof Hpool as [Hch Hnd Hok Hh Hcur Hsz Hmax Hfresh].
  split; [| | | | |done|done|].
  - rewrite Hbs, <- app_assoc. cbn [app].
    assert (NoDup (b1 ++ [l])) as Hnd1 by (by rewrite <- Hbs).
    apply NoDup_app in Hnd1 as (_ & Hl & _). eapply pool_chain_snoc.
    + rewrite <- Hbs. by apply grown_chain.
    + by rewrite <- Hbs.
    + intros x Hx. apply linked_next. intros ->. apply (Hl l Hx). by left.
    + cbn. by rewrite lookup_insert_eq.
    + rewrite linked_next; [cbn; by rewrite lookup_insert_eq|].
      intros E. apply Hnew. rewrite Hbs, E. apply elem_of_app. right. by left.
  - apply NoDup_app. split; [done|]. split; [|apply NoDup_singleton].
    intros x Hx Hx'. apply list_elem_of_singleton in Hx' as ->. done.
  - apply Forall_app. split; [|apply Forall_singleton, linked_block, grown_new_block].
    apply Forall_forall. intros b Hb. by apply linked_block, grown_block.
  - apply lookup_insert_eq.
  - exists c. split; [done|]. apply elem_of_app. by left.
  - intros b Hb. cbn in Hb |- *. rewrite lookup_insert_ne by lia. apply Hfresh. lia.
Qed.

Lemma linked_gave :
  gave m (linked dm l dl c) pool h (p_set_current (Some c) h) bs (bs ++ [m_brk m]) sz
    (Addr (m_brk m) 32) size.
Proof using All.
  pose proof new_block_fresh as Hnew. pose proof linked_pool as Hp. split; [done| | | | | |done|done].
  - split; [apply elem_of_app; right; by left|]. cbn [a_blk a_off].
    pose proof (linked_limits (m_brk m)) as E. cbn [grown m_data set_data] in E.
    rewrite lookup_insert_eq in E. apply fmap_Some in E as (d & Hd & [= E1 E2]).
    exists d. split; [done|]. rewrite <- E1. unfold sizeof_pool_data. cbn. lia.
  - intros x k (Hx & d & Hd & H1 & H2).
    assert (m_brk m ≠ a_blk x) as Hne by (intros E0; rewrite E0 in Hnew; done). split.
    + split; [apply elem_of_app; by left|]. pose proof (linked_limits (a_blk x)) as E.
      cbn [grown m_data set_data] in E. rewrite lookup_insert_ne in E by done.
      rewrite Hd in E. apply fmap_Some in E as (d' & Hd' & [= E1 E2]).
      exists d'. split; [done|]. rewrite <- E1. done.
    + by left.
  - split; [intros x Hx; apply elem_of_app; by left|]. intros b [Hb|Hb]%elem_of_app; [by left|].
    right. by apply list_elem_of_singleton in Hb.
  - intros b s Hb. cbn. rewrite lookup_insert_ne; [done|]. intros <-.
    destruct Hpool as [_ _ _ _ _ _ _ Hf]. by rewrite Hf in Hb.
  - cbn. lia.
Qed.
End grow.
