(* ===== verification/MemPoolAlloc.v ===== *)
(** * The memory pool: small and large requests

    A small request returns bytes of a block of the pool, a large one a block
    of its own; in both cases no byte that was handed out before is handed
    out again. *)

From S2P Require Import Prelude Blocks MemPool MemPoolSpec.
From stdpp Require Import gmap.

Open Scope Z_scope.

Section small.
Context (m : mem) (pool : nat) (h : ngx_pool_s) (bs : list nat) (sz size : Z).
Hypothesis Hpool : pool_ok m pool h bs sz.
Hypothesis Hsize : 0 ≤ size ≤ sz - sizeof_pool.

Lemma pool_in : pool ∈ bs.
Proof using Hpool.
  destruct Hpool as [Hc _ _ _ (c & _ & Hin) _ _ _]. destruct bs as [|b l].
  - by apply elem_of_nil in Hin.
  - destruct Hc as [[= ->] _]. by left.
Qed.

Lemma pool_block : m_live m !! pool = Some sz.
Proof using Hpool.
  pose proof pool_in as Hin. destruct Hpool as [_ _ Hok _ _ _ _ _].
  rewrite Forall_forall in Hok. by destruct (Hok _ Hin).
Qed.

Lemma sz_size : size_t sz = sz.
Proof using Hpool.
  destruct Hpool as [_ _ _ _ _ [Hsz _] _ _]. unfold size_t, sizeof_pool in *.
  rewrite Z.mod_small; lia.
Qed.

Lemma chain_fuel : (length bs ≤ block_fuel m)%nat.
Proof using Hpool.
  destruct Hpool as [_ Hnd Hok _ _ _ _ _]. apply ids_size; [done|].
  intros b Hb. rewrite Forall_forall in Hok. destruct (Hok b Hb) as [-> _]. eauto.
Qed.

Lemma ngx_palloc_block_ok :
  (∃ m', ngx_palloc_block pool size m = Done (None, m') ∧ refused m m') ∨
  (∃ m' h' bs', ngx_palloc_block pool size m = Done (Some (Addr (m_brk m) 32), m') ∧
     gave m m' pool h h' bs bs' sz (Addr (m_brk m) 32) size).
Proof using All.
  pose proof pool_in as Hin. pose proof pool_block as Hpl. pose proof sz_size as Hsz_t.
  pose proof Hpool as [Hch Hnd Hok Hh (c & Hc & Hcin) Hsz Hmax Hfresh].
  unfold sizeof_pool in Hsz. rewrite Forall_forall in Hok.
  destruct (Hok pool Hin) as (_ & d & Hd & He & _).
  unfold ngx_palloc_block.
  run (get_data_ok m sz pool Hpl d Hd ltac:(unfold sizeof_pool_data; lia)).
  rewrite He, Hsz_t. unfold ngx_alloc.
  destruct (malloc_cases sz m) as [(m' & Hm & Hr)|Hm]; run Hm; [left; eauto|right].
  set (m1 := set_alloc _ _ _ m).
  change (ngx_align_ptr sizeof_pool_data NGX_ALIGNMENT) with 32.
  assert (m_live m1 !! m_brk m = Some sz) as Hl1 by apply lookup_insert_eq.
  run (put_data_ok m1 sz (m_brk m) Hl1 (PoolData (32 + size) sz None 0)
         ltac:(unfold sizeof_pool_data; lia)).
  change (set_data _ m1) with (grown m sz size).
  pose proof (new_block_fresh m pool h bs sz Hpool) as Hnew.
  assert (m_brk m ≠ pool) as Hne by (intros E; by rewrite E in Hnew).
  assert (m_live (grown m sz size) !! pool = Some sz) as Hpl1 by (cbn; by rewrite lookup_insert_ne).
  run (get_pool_ok (grown m sz size) sz pool Hpl1 h Hh ltac:(unfold sizeof_pool; lia)).
  rewrite Hc, M_bind_gets.
  apply list_elem_of_split in Hcin as (b1 & b2 & Hbs).
  destruct (bump_failed_ok pool sz bs ltac:(unfold sizeof_pool; lia)
    (block_fuel (grown m sz size)) c (c :: b2) (grown m sz size) h)
    as (l & b0 & m3 & El & Hrun & dm & c' & Hsame & Hc' & ->).
  - apply (grown_chain m pool h bs sz size Hpool).
    + rewrite Hbs. intros x Hx. apply elem_of_app. by right.
    + rewrite Hbs in Hch. by eapply chain_middle.
  - apply Forall_forall. intros b Hb. apply (grown_block m pool h bs sz size Hpool).
    rewrite Hbs. apply elem_of_app. by right.
  - pose proof chain_fuel as Hf. unfold block_fuel in *. rewrite Hbs, length_app in Hf.
    cbn in Hf |- *. rewrite map_size_insert_None by (by apply Hfresh). lia.
  - done.
  - done.
  - by rewrite Hc.
  - rewrite Hc. intros x [= <-]. rewrite Hbs. apply elem_of_app. right. by left.
  - intros b Hb. rewrite Hbs. apply elem_of_app. by right.
  - run Hrun. assert (bs = (b1 ++ b0) ++ [l]) as Hbs2 by (by rewrite <- app_assoc, <- El).
    assert (l ∈ bs) as Hlin by (rewrite Hbs2; apply elem_of_app; right; by left).
    set (m3 := set_pool _ _).
    destruct (grown_block m pool h bs sz size Hpool l Hlin) as (Hll & dl0 & Hdl0 & _).
    pose proof (Hsame l) as E. rewrite Hdl0 in E. apply fmap_Some in E as (dl & Hdl & _).
    run (get_data_ok m3 sz l Hll dl Hdl ltac:(unfold sizeof_pool_data; lia)).
    run (put_data_ok m3 sz l Hll (d_set_next (Some (m_brk m)) dl)
           ltac:(unfold sizeof_pool_data; lia)).
    eexists _, _, _. split; [reflexivity|].
    exact (linked_gave m pool h bs sz size Hpool Hsize dm l c' (b1 ++ b0) dl Hsame Hbs2 Hc' Hdl).
Qed.

Lemma ngx_palloc_small_ok align :
  (∃ m', ngx_palloc_small pool size align m = Done (None, m') ∧ refused m m') ∨
  (∃ a m' h' bs', ngx_palloc_small pool size align m = Done (Some a, m') ∧
     gave m m' pool h h' bs bs' sz a size ∧ (align = true → a_off a mod 8 = 0)).
Proof using All.
  pose proof pool_block as Hpl. pose proof chain_fuel as Hf.
  pose proof Hpool as [Hch Hnd Hok Hh (c & Hc & Hcin) Hsz Hmax Hfresh].
  unfold ngx_palloc_small. run (get_pool_ok m sz pool Hpl h Hh ltac:(lia)).
  rewrite Hc, M_bind_gets. apply list_elem_of_split in Hcin as (b1 & b2 & Hbs).
  destruct (palloc_walk_ok m sz Hsz size align ltac:(lia) (block_fuel m) (Some c) (c :: b2))
    as [Hw|(b & d & Hb & Hd & Ho & Hw)].
  - rewrite Hbs in Hch. by eapply chain_middle.
  - rewrite Hbs in Hok. by apply Forall_app in Hok as [_ Hok].
  - rewrite Hbs, length_app in Hf. lia.
  - run Hw. destruct ngx_palloc_block_ok as [(m' & E & Hr)|(m' & h' & bs' & E & Hg)]; [left; eauto|].
    right. eexists _, m', h', bs'. split; [exact E|]. split; [done|]. by intros _.
  - right. run Hw. eexists _, _, h, bs. split; [reflexivity|].
    assert (b ∈ bs) as Hbin by (rewrite Hbs; apply elem_of_app; by right).
    rewrite Forall_forall in Hok. destruct (Hok b Hbin) as (_ & d' & Hd' & _ & Hl).
    assert (d' = d) as -> by congruence.
    pose proof (aligned_bounds align (d_last d) sz ltac:(lia) ltac:(tauto)) as Hal.
    set (o := aligned align (d_last d)) in *. fold (taken m b d o size).
    split; [|intros ->; apply align_mod].
    split.
    + apply take_pool; try done; lia.
    + eapply take_used; eauto; lia.
    + intros x k Hu. apply (take_apart m bs sz b d o size); try done; lia.
    + split; [done|by left].
    + done.
    + done.
    + done.
    + done.
Qed.
End small.

(** ** The memory pool: the list of large blocks

    [pool_rep] adds the list of large blocks to the chain: its entries lie in
    bytes handed out by the pool, its blocks are live and are no blocks of
    the chain. *)

Definition block_addr (b : nat) : addr := Addr b 0.

Fixpoint larges (lm : gmap addr ngx_pool_large_s) (p : option addr)
    (ls : list (addr * option nat)) : Prop :=
  match ls with
  | [] => p = None
  | (a, o) :: ls' =>
      p = Some a ∧ ∃ e, lm !! a = Some e ∧ l_alloc e = block_addr <$> o ∧
      larges lm (l_next e) ls'
  end.

(** The large blocks in use. *)
Definition allocs (ls : list (addr * option nat)) : list nat := omap snd ls.

Record pool_rep (m : mem) (pool : nat) (h : ngx_pool_s) (bs : list nat) (sz : Z)
    (ls : list (addr * option nat)) : Prop := {
  pr_pool : pool_ok m pool h bs sz;
  pr_larges : larges (m_large m) (p_large h) ls;
  pr_addrs : NoDup ls.*1;
  pr_used : Forall (λ e, used m bs e.1 sizeof_large) ls;
  pr_nodup : NoDup (allocs ls);
  pr_live : ∀ b, b ∈ allocs ls → is_Some (m_live m !! b) ∧ b ∉ bs;
}.

(** The bytes the pool has handed out to its callers or uses itself. *)
Definition owned (m : mem) (bs : list nat) (ls : list (addr * option nat)) (a : addr) (n : Z) : Prop :=
  used m bs a n ∨
  ∃ s, a_blk a ∈ allocs ls ∧ m_live m !! a_blk a = Some s ∧ 0 ≤ a_off a ∧ a_off a + n ≤ s.

(** ** The list *)

Lemma larges_frame lm lm' p ls :
  (∀ a, a ∈ ls.*1 → lm' !! a = lm !! a) → larges lm p ls → larges lm' p ls.
Proof.
  revert p; induction ls as [|[a o] ls IH]; intros p Hf; cbn; [done|].
  intros (-> & e & He & Ho & H). split; [done|]. exists e.
  rewrite Hf by (by left). split; [done|]. split; [done|].
  apply IH; [|done]. intros x Hx. apply Hf. by right.
Qed.

(** Changing the block of one entry. *)
Lemma larges_set lm p l1 a o o' l2 e :
  larges lm p (l1 ++ (a, o) :: l2) → NoDup (l1 ++ (a, o) :: l2).*1 → lm !! a = Some e →
  larges (<[a := Large (l_next e) (block_addr <$> o')]> lm) p (l1 ++ (a, o') :: l2).
Proof.
  revert p; induction l1 as [|[x y] l1 IH]; intros p; cbn [app larges].
  - intros (-> & e' & He' & _ & H) Hnd He. assert (e' = e) as -> by congruence.
    split; [done|]. eexists. rewrite lookup_insert_eq. split; [done|]. split; [done|].
    cbn [l_next]. apply (larges_frame lm); [|done]. intros z Hz.
    rewrite lookup_insert_ne; [done|]. intros <-. by apply NoDup_cons in Hnd as [Ha _].
  - intros (-> & e' & He' & Hy & H) Hnd He. rewrite fmap_cons in Hnd. apply NoDup_cons in Hnd as [Hx Hnd].
    split; [done|]. exists e'.
    rewrite lookup_insert_ne; [eauto|]. intros <-. apply Hx. rewrite fmap_app.
    apply elem_of_app. right. by left.
Qed.

Lemma larges_lookup lm p l1 a o l2 :
  larges lm p (l1 ++ (a, o) :: l2) → ∃ e, lm !! a = Some e ∧ l_alloc e = block_addr <$> o.
Proof.
  revert p; induction l1 as [|[x y] l1 IH]; intros p; cbn [app larges].
  - intros (_ & e & He & Ho & _). eauto.
  - intros (_ & e & _ & _ & H). eauto.
Qed.

Lemma allocs_app l1 l2 : allocs (l1 ++ l2) = allocs l1 ++ allocs l2.
Proof. apply omap_app. Qed.

Lemma allocs_cons a o l : allocs ((a, o) :: l) = option_list o ++ allocs l.
Proof. unfold allocs. cbn. by destruct o. Qed.

(** Filling or clearing an entry. *)
Lemma allocs_entry l1 a b l2 :
  Permutation (allocs (l1 ++ (a, Some b) :: l2)) (b :: allocs (l1 ++ (a, None) :: l2)).
Proof. rewrite !allocs_app, !allocs_cons. cbn. by rewrite <- Permutation_middle. Qed.

(** ** Accesses *)

Section access.
Context (m : mem) (pool : nat) (h : ngx_pool_s) (bs : list nat) (sz : Z) (a : addr).
Hypothesis Hpool : pool_ok m pool h bs sz.
Hypothesis Hused : used m bs a sizeof_large.

Lemma touch_used : touch a sizeof_large m = Done (tt, m).
Proof using All.
  destruct Hused as (Hin & d & Hd & H1 & H2). destruct Hpool as [_ _ Hok _ _ _ _ _].
  rewrite Forall_forall in Hok. destruct (Hok _ Hin) as (Hl & d' & Hd' & _ & Hlast).
  assert (d' = d) as -> by congruence. destruct a as [b o]. cbn in *.
  unfold sizeof_pool_data in *. eapply touch_ok; [done|lia|lia].
Qed.

Lemma get_large_ok e : m_large m !! a = Some e → get_large (Some a) m = Done (e, m).
Proof using All.
  intros He. unfold get_large, at_addr. run touch_used. unfold found. by rewrite He.
Qed.

Lemma put_large_ok e : put_large a e m = Done (tt, set_large (<[a := e]> (m_large m)) m).
Proof using All. unfold put_large. by run touch_used. Qed.
End access.

(** The first entry without a block among those examined. *)
Lemma large_slot_ok m pool h bs sz : pool_ok m pool h bs sz → ∀ fuel n p ls,
  larges (m_large m) p ls → Forall (λ e, used m bs e.1 sizeof_large) ls → (length ls ≤ fuel)%nat →
  ∃ s, large_slot fuel n p m = Done (s, m) ∧
    ∀ a, s = Some a → ∃ l1 l2, ls = l1 ++ (a, None) :: l2.
Proof.
  intros Hpool. induction fuel as [|fuel IH]; intros n p ls Hl Hu Hlen;
    (destruct ls as [|[a o] ls]; [cbn in Hl; subst p; by exists None|]); [cbn in Hlen; lia|].
  destruct Hl as (-> & e & He & Ho & Hl). apply Forall_cons in Hu as [Ha Hu].
  cbn [large_slot]. run (get_large_ok m pool h bs sz a Hpool Ha e He). rewrite Ho.
  destruct o as [b|]; cbn [fmap option_fmap option_map].
  - destruct (3 <? n); [by exists None|].
    destruct (IH (uint (n + 1)) _ ls Hl Hu ltac:(cbn in Hlen; lia)) as (s & Hs & Hcase).
    exists s. split; [done|]. intros x Hx. destruct (Hcase x Hx) as (l1 & l2 & ->).
    by exists ((a, Some b) :: l1), l2.
  - exists (Some a). split; [done|]. intros x [= <-]. by exists [], ls.
Qed.

Lemma larges_there lm p ls a : larges lm p ls → a ∈ ls.*1 → is_Some (lm !! a).
Proof.
  intros H ([x o] & -> & Hin)%list_elem_of_fmap. apply list_elem_of_split in Hin as (l1 & l2 & ->).
  apply larges_lookup in H as (e & He & _). eauto.
Qed.

Lemma larges_fuel m p ls :
  larges (m_large m) p ls → NoDup ls.*1 → (length ls ≤ large_fuel m)%nat.
Proof.
  intros Hl Hnd. rewrite <- (length_fmap fst). unfold large_fuel.
  rewrite <- size_dom, <- (size_list_to_set (C := gset addr)) by done.
  apply Nat.le_le_succ_r, subseteq_size. intros a Ha. apply elem_of_dom.
  eapply larges_there; [done|]. by apply elem_of_list_to_set in Ha.
Qed.

(** ** Small changes of the memory *)

Section changes.
Context (m : mem) (pool : nat) (h : ngx_pool_s) (bs : list nat) (sz : Z).
Hypothesis Hpool : pool_ok m pool h bs sz.

Lemma pool_live b : b ∈ bs → m_live m !! b = Some sz.
Proof using Hpool.
  destruct Hpool as [_ _ Hok _ _ _ _ _]. rewrite Forall_forall in Hok. intros Hb. by apply Hok.
Qed.

(** Other blocks come and go. *)
Lemma pool_ok_live live brk fs :
  (∀ b, b ∈ bs → live !! b = Some sz) → (∀ b, (brk ≤ b)%nat → live !! b = None) →
  pool_ok (set_alloc live brk fs m) pool h bs sz.
Proof using Hpool.
  intros Hl Hf. destruct Hpool as [Hc Hnd Hok Hh Hcur Hsz Hmax _]. split; try done.
  rewrite Forall_forall in Hok |- *. intros b Hb. destruct (Hok b Hb) as [_ Hd].
  by split; [apply Hl|].
Qed.

Lemma pool_ok_free b : b ∉ bs → pool_ok (set_live (delete b (m_live m)) m) pool h bs sz.
Proof using Hpool.
  intros Hb. apply pool_ok_live.
  - intros x Hx. rewrite lookup_delete_ne; [by apply pool_live|]. by intros <-.
  - intros x Hx. rewrite lookup_delete_None. right. destruct Hpool as [_ _ _ _ _ _ _ Hf]. by apply Hf.
Qed.

Lemma pool_ok_large lm : pool_ok (set_large lm m) pool h bs sz.
Proof using Hpool. by destruct Hpool. Qed.

Lemma pool_ok_head h' :
  p_max h' = p_max h → p_current h' = p_current h →
  pool_ok (set_pool (<[pool := h']> (m_pool m)) m) pool h' bs sz.
Proof using Hpool.
  intros E1 E2. destruct Hpool as [Hc Hnd Hok Hh Hcur Hsz Hmax Hf].
  split; try done; [apply lookup_insert_eq|by rewrite E2|by rewrite E1].
Qed.
End changes.

(** The memory after [malloc] returned a block of [n] bytes. *)
Definition with_block (m : mem) (n : Z) : mem :=
  set_alloc (<[m_brk m := n]> (m_live m)) (S (m_brk m)) (tail (m_fails m)) m.

Section rep.
Context (m : mem) (pool : nat) (h : ngx_pool_s) (bs : list nat) (sz : Z)
  (ls : list (addr * option nat)).
Hypothesis Hrep : pool_rep m pool h bs sz ls.

Lemma brk_fresh b s : m_live m !! b = Some s → b ≠ m_brk m.
Proof using Hrep.
  intros Hb ->. destruct Hrep as [[_ _ _ _ _ _ _ Hf] _ _ _ _ _]. by rewrite Hf in Hb.
Qed.

Lemma owned_live a n : owned m bs ls a n → is_Some (m_live m !! a_blk a).
Proof using Hrep.
  intros [(Hb & _)|(s & _ & Hs & _)]; [|eauto].
  destruct Hrep as [Hp _ _ _ _ _]. rewrite (pool_live _ _ _ _ _ Hp _ Hb). eauto.
Qed.

Lemma with_block_rep n : pool_rep (with_block m n) pool h bs sz ls.
Proof using Hrep.
  pose proof brk_fresh as Hbf. destruct Hrep as [Hp Hl Ha Hu Hn Hlive].
  pose proof Hp as [_ _ _ _ _ _ _ Hf]. split; try done.
  - apply pool_ok_live; [done| |].
    + intros b Hb. pose proof (pool_live _ _ _ _ _ Hp b Hb) as H.
      rewrite lookup_insert_ne; [done|]. by apply not_eq_sym, (Hbf b sz).
    + intros b Hb. rewrite lookup_insert_ne by lia. apply Hf. lia.
  - intros b Hb. destruct (Hlive b Hb) as [[s Hs] Hnin]. split; [|done].
    exists s. cbn. rewrite lookup_insert_ne; [done|]. by apply not_eq_sym, (Hbf b s).
Qed.

Lemma with_block_owned n a k :
  owned m bs ls a k → owned (with_block m n) bs ls a k ∧ a_blk a ≠ m_brk m.
Proof using Hrep.
  intros Ho. destruct (owned_live _ _ Ho) as [s0 Hs0]. pose proof (brk_fresh _ _ Hs0) as Hne.
  split; [|done]. destruct Ho as [Hu|(s & Hin & Hs & H1 & H2)]; [by left|right].
  exists s. split; [done|]. cbn. by rewrite lookup_insert_ne by (by apply not_eq_sym).
Qed.

(** [malloc] failed. *)
Lemma refused_rep m' : refused m m' → pool_rep m' pool h bs sz ls.
Proof using Hrep.
  intros (fs & _ & ->). destruct Hrep as [Hp Hl Ha Hu Hn Hlive]. split; try done.
  pose proof Hp as [_ _ _ _ _ _ _ Hf]. apply pool_ok_live; [done| |done].
  intros b Hb. by apply (pool_live _ _ _ _ _ Hp).
Qed.

(** A small request keeps the list. *)
Lemma gave_rep m' h' bs' a n :
  gave m m' pool h h' bs bs' sz a n → pool_rep m' pool h' bs' sz ls.
Proof using Hrep.
  intros [Hp' Hu' Hold [Hsub Hnew] Hlive' _ Hoth Hlists].
  destruct Hrep as [Hp Hl Ha Hu Hn Hlive].
  injection Hoth as E1 _ _ _ _. injection Hlists as _ E2 _. split; try done.
  - by rewrite E1, E2.
  - eapply Forall_impl; [exact Hu|]. intros e He. by apply Hold.
  - intros b Hb. destruct (Hlive b Hb) as [[s Hs] Hnin]. split; [eauto|].
    intros Hin. destruct (Hnew b Hin) as [?| ->]; [done|]. by apply brk_fresh in Hs.
Qed.

Lemma gave_owned m' h' bs' a n x k :
  gave m m' pool h h' bs bs' sz a n → owned m bs ls x k →
  owned m' bs' ls x k ∧ apart a n x k.
Proof using Hrep.
  intros Hg [Hu|(s & Hin & Hs & H1 & H2)].
  - destruct Hg as [_ _ Hold _ _ _ _ _]. destruct (Hold x k Hu). split; [by left|done].
  - pose proof (gave_rep _ _ _ _ _ Hg) as [_ _ _ _ _ Hlive'].
    destruct Hg as [_ (Ha & _) _ _ Hl _ _ _]. split.
    + right. exists s. split; [done|]. split; [by apply Hl|done].
    + left. intros E. rewrite E in Ha. by apply Hlive' in Hin as [_ ?].
Qed.
End rep.

(** ** Large requests *)

(** The outcome of a request for [n] bytes: the pool and what it had handed
    out are as before, and the [n] bytes at [a] are new. *)
Definition granted (m m' : mem) (pool : nat) (bs : list nat) (sz : Z)
    (ls : list (addr * option nat)) (a : addr) (n : Z) : Prop :=
  ∃ h' bs' ls', pool_rep m' pool h' bs' sz ls' ∧ owned m' bs' ls' a n ∧
    ∀ x k, owned m bs ls x k → owned m' bs' ls' x k ∧ apart a n x k.

(** The request failed and the pool is as before. *)
Definition denied (m m' : mem) (pool : nat) (bs : list nat) (sz : Z)
    (ls : list (addr * option nat)) : Prop :=
  true ∈ m_fails m ∧ ∃ h', pool_rep m' pool h' bs sz ls ∧
    ∀ x k, owned m bs ls x k → owned m' bs ls x k.

Section large.
Context (m : mem) (pool : nat) (h : ngx_pool_s) (bs : list nat) (sz size : Z)
  (ls : list (addr * option nat)).
Hypothesis Hrep : pool_rep m pool h bs sz ls.
Hypothesis Hsize : 0 ≤ size.

Definition b0 : nat := m_brk m.
Definition m1 : mem := with_block m size.

(** The block put into an entry that had none. *)
Lemma reuse_entry l1 a l2 e :
  ls = l1 ++ (a, None) :: l2 → m_large m !! a = Some e →
  granted m (set_large (<[a := Large (l_next e) (Some (block_addr b0))]> (m_large m1)) m1)
    pool bs sz ls (block_addr b0) size.
Proof using Hrep Hsize.
  intros Els He. pose proof (with_block_rep _ _ _ _ _ _ Hrep size) as Hrep1.
  destruct Hrep1 as [Hp Hl Ha Hu Hn Hlive].
  assert (b0 ∉ allocs ls ∧ b0 ∉ bs) as [Hb1 Hb2].
  { destruct Hrep as [Hp0 _ _ _ _ Hlive0]. split; intros Hin.
    - destruct (Hlive0 _ Hin) as [[s Hs] _]. by apply (brk_fresh _ _ _ _ _ _ Hrep) in Hs.
    - apply (pool_live _ _ _ _ _ Hp0) in Hin. by apply (brk_fresh _ _ _ _ _ _ Hrep) in Hin. }
  set (ls' := l1 ++ (a, Some b0) :: l2).
  assert (Permutation (allocs ls') (b0 :: allocs ls)) as Hperm.
  { rewrite Els. apply allocs_entry. }
  exists h, bs, ls'. split; [|split].
  - split; [by apply pool_ok_large| | | | |].
    + unfold ls'. rewrite Els in Hl, Ha. exact (larges_set _ _ _ _ _ (Some b0) _ e Hl Ha He).
    + unfold ls'. rewrite Els, fmap_app in Ha. rewrite fmap_app. exact Ha.
    + unfold ls'. rewrite Els in Hu. apply Forall_app in Hu as [Hu1 Hu2].
      apply Forall_cons in Hu2 as [Hua Hu2]. apply Forall_app. split; [exact Hu1|].
      by apply Forall_cons.
    + rewrite Hperm. by apply NoDup_cons.
    + intros b Hb. rewrite Hperm in Hb. apply elem_of_cons in Hb as [->|Hb]; [|by apply Hlive].
      split; [|done]. exists size. apply lookup_insert_eq.
  - right. exists size. split; [rewrite Hperm; by left|]. split; [apply lookup_insert_eq|].
    cbn. lia.
  - intros x k Ho. destruct (with_block_owned _ _ _ _ _ _ Hrep size _ _ Ho) as [Ho1 Hne].
    split; [|left; by apply not_eq_sym].
    destruct Ho1 as [Hux|(s & Hin & H)]; [by left|right]. exists s. split; [|done].
    rewrite Hperm. by right.
Qed.

(** The block in a new entry at [a]. *)
Lemma new_entry m2 h2 bs2 a :
  gave m1 m2 pool h h2 bs bs2 sz a sizeof_large →
  granted m (set_pool (<[pool := p_set_large (Some a) h2]> (m_pool m2))
    (set_large (<[a := Large (p_large h2) (Some (block_addr b0))]> (m_large m2)) m2))
    pool bs sz ls (block_addr b0) size.
Proof using Hrep Hsize.
  intros Hg. pose proof (with_block_rep _ _ _ _ _ _ Hrep size) as Hrep1.
  pose proof (gave_rep _ _ _ _ _ _ Hrep1 _ _ _ _ _ Hg) as [Hp2 Hl2 Ha2 Hu2 Hn2 Hlive2].
  pose proof Hg as [_ Hua Hold [_ Hnew] Hl _ _ _].
  assert (b0 ∉ allocs ls) as Hb1.
  { intros Hin. destruct Hrep as [_ _ _ _ _ Hlive0].
    destruct (Hlive0 _ Hin) as [[s Hs] _]. by apply (brk_fresh _ _ _ _ _ _ Hrep) in Hs. }
  assert (m_live m2 !! b0 = Some size) as Hb0 by (apply Hl, lookup_insert_eq).
  assert (b0 ∉ bs2) as Hb2.
  { intros Hin. destruct (Hnew _ Hin) as [Hin'|E]; [|unfold b0, m1, with_block in E; cbn in E; lia].
    destruct Hrep as [Hp0 _ _ _ _ _]. apply (pool_live _ _ _ _ _ Hp0) in Hin'.
    by apply (brk_fresh _ _ _ _ _ _ Hrep) in Hin'. }
  assert (a ∉ ls.*1) as Hanew.
  { intros (e & -> & Hin)%list_elem_of_fmap. destruct Hrep1 as [_ _ _ Hu1 _ _].
    rewrite Forall_forall in Hu1. destruct (Hold _ _ (Hu1 _ Hin)) as [_ [?|[?|?]]];
      [done|unfold sizeof_large in *; lia..]. }
  exists (p_set_large (Some a) h2), bs2, ((a, Some b0) :: ls). split; [|split].
  - split.
    + by apply (pool_ok_head (set_large _ m2) pool h2 bs2 sz (pool_ok_large _ _ _ _ _ Hp2 _)).
    + split; [done|]. eexists. cbn. rewrite lookup_insert_eq. split; [done|]. split; [done|].
      cbn. apply (larges_frame (m_large m2)); [|done]. intros x Hx.
      rewrite lookup_insert_ne; [done|]. by intros <-.
    + rewrite fmap_cons. by apply NoDup_cons.
    + apply Forall_cons. by split.
    + rewrite allocs_cons. cbn. by apply NoDup_cons.
    + intros b Hb. rewrite allocs_cons in Hb. cbn in Hb.
      apply elem_of_cons in Hb as [->|Hb]; [|by apply Hlive2]. split; [|done]. by exists size.
  - right. exists size. split; [rewrite allocs_cons; by left|]. split; [done|]. cbn. lia.
  - intros x k Ho. destruct (with_block_owned _ _ _ _ _ _ Hrep size _ _ Ho) as [Ho1 Hne].
    destruct (gave_owned _ _ _ _ _ _ Hrep1 _ _ _ _ _ _ _ Hg Ho1) as [Ho2 _].
    split; [|left; by apply not_eq_sym].
    destruct Ho2 as [Hux|(s & Hin & H)]; [by left|right]. exists s. split; [|done].
    rewrite allocs_cons. by right.
Qed.
End large.
