(* ===== verification/MemPoolThms.v ===== *)
(** * The memory pool: freeing, the theorems, examples

    Destroying a pool runs its cleanup handlers and frees exactly the blocks
    the pool took; resetting it frees the large blocks and empties the
    others; [ngx_pfree] frees one large block. *)

From S2P Require Import Prelude Blocks MemPool MemPoolSpec MemPoolAlloc.
From stdpp Require Import gmap.

Open Scope Z_scope.

(** ** The large blocks *)

(** The [n] bytes at [a] can be accessed, in a block outside of [out]. *)
Definition inside (m : mem) (out : list nat) (n : Z) (a : addr) : Prop :=
  ∃ s, m_live m !! a_blk a = Some s ∧ a_blk a ∉ out ∧ 0 ≤ a_off a ∧ a_off a + n ≤ s.

Lemma touch_inside m out n a : inside m out n a → touch a n m = Done (tt, m).
Proof. intros (s & Hs & _ & H1 & H2). destruct a. by eapply touch_ok. Qed.

Lemma free_block_ok m b : is_Some (m_live m !! b) →
  free (Some (block_addr b)) m = Done (tt, set_live (delete b (m_live m)) m).
Proof. intros Hb. unfold free. by rewrite decide_True. Qed.

Lemma set_live_same m : set_live (m_live m) m = m.
Proof. by destruct m. Qed.

Lemma inside_delete m out b n a :
  b ∈ out → inside m out n a → inside (set_live (delete b (m_live m)) m) out n a.
Proof.
  intros Hb (s & Hs & Hout & H). exists s. split; [|done]. cbn.
  rewrite lookup_delete_ne; [done|]. intros E. by rewrite E in Hb.
Qed.

Lemma free_large_ok : ∀ fuel ls m p out,
  larges (m_large m) p ls → (length ls ≤ fuel)%nat → Forall (inside m out sizeof_large) ls.*1 →
  NoDup (allocs ls) → allocs ls ⊆ out → (∀ b, b ∈ allocs ls → is_Some (m_live m !! b)) →
  free_large fuel p m = Done (tt, set_live (kill (allocs ls) (m_live m)) m).
Proof.
  induction fuel as [|fuel IH]; intros ls m p out Hl Hlen Hin Hnd Hout Hlive;
    (destruct ls as [|[a o] ls]; [cbn in Hl; subst p; cbn; by rewrite set_live_same|]);
    [cbn in Hlen; lia|].
  destruct Hl as (-> & e & He & Ho & Hl). rewrite fmap_cons in Hin.
  apply Forall_cons in Hin as [Ha Hin]. rewrite allocs_cons in *. cbn [free_large].
  erewrite M_bind_done.
  2:{ unfold get_large, at_addr. run (touch_inside _ _ _ _ Ha). unfold found. by rewrite He. }
  cbn beta. rewrite Ho. destruct o as [b|]; cbn [fmap option_fmap option_map option_list app] in *.
  - apply NoDup_cons in Hnd as [Hb Hnd].
    run (free_block_ok m b (Hlive b ltac:(by left))).
    set (m' := set_live _ m). rewrite (IH ls m' _ out Hl).
    + change (option_list (Some b) ++ allocs ls) with (b :: allocs ls). by rewrite kill_cons.
    + cbn in Hlen. lia.
    + eapply Forall_impl; [exact Hin|]. intros x. apply inside_delete, Hout. by left.
    + done.
    + intros x Hx. apply Hout. by right.
    + intros x Hx. cbn. rewrite lookup_delete_ne; [apply Hlive; by right|]. by intros ->.
  - erewrite M_bind_done by reflexivity. apply (IH ls m _ out); try done. cbn in Hlen. lia.
Qed.

(** ** The chain *)

Lemma free_chain_ok sz : sizeof_pool ≤ sz → ∀ fuel bs m p n,
  chain (m_data m) n bs → NoDup (p :: bs) → (length bs ≤ fuel)%nat →
  (∀ b, b ∈ p :: bs → m_live m !! b = Some sz) →
  free_chain fuel p n m = Done (tt, set_live (kill (p :: bs) (m_live m)) m).
Proof.
  intros Hsz. induction fuel as [|fuel IH]; intros bs m p n Hc Hnd Hlen Hlive;
    cbn [free_chain]; run (free_block_ok m p ltac:(eexists; apply Hlive; by left)).
  - destruct bs; [|cbn in Hlen; lia]. cbn in Hc. subst n. done.
  - destruct bs as [|b bs]; [cbn in Hc; subst n; done|].
    destruct Hc as [-> (d & Hd & Hc)]. set (m' := set_live _ m).
    apply NoDup_cons in Hnd as [Hp Hnd].
    assert (∀ x, x ∈ b :: bs → m_live m' !! x = Some sz) as Hlive'.
    { intros x Hx. cbn. rewrite lookup_delete_ne; [apply Hlive; by right|]. by intros <-. }
    run (get_data_ok m' sz b (Hlive' b ltac:(by left)) d Hd
           ltac:(unfold sizeof_pool, sizeof_pool_data in *; lia)).
    rewrite (IH bs m' b (d_next d) Hc Hnd ltac:(cbn in Hlen; lia) Hlive').
    rewrite (kill_cons p). done.
Qed.

(** ** The cleanup list *)

Definition cleanup_ready (m : mem) (out : list nat) (e : addr * ngx_pool_cleanup_s) : Prop :=
  inside m out sizeof_cleanup e.1 ∧ m_cleanup m !! e.1 = Some e.2 ∧
  match c_handler e.2 with
  | Some ngx_pool_cleanup_file_h | Some ngx_pool_delete_file_h =>
      ∃ d f, c_data e.2 = Some d ∧ m_cfile m !! d = Some f ∧ inside m out sizeof_cleanup_file d
  | _ => True
  end.

Fixpoint cleanups (p : option addr) (cs : list (addr * ngx_pool_cleanup_s)) : Prop :=
  match cs with
  | [] => p = None
  | (a, c) :: cs' => p = Some a ∧ cleanups (c_next c) cs'
  end.

(** The call an entry stands for. *)
Definition call_of (e : addr * ngx_pool_cleanup_s) : option (cleanup_handler * option addr) :=
  (λ h, (h, c_data e.2)) <$> c_handler e.2.
(** What running one entry does: the call, and to descriptors and files. *)
Definition cleaned (m : mem) (e : addr * ngx_pool_cleanup_s) : mem :=
  let m := set_calls (m_calls m ++ option_list (call_of e)) m in
  match c_handler e.2, c_data e.2 ≫= λ d, m_cfile m !! d with
  | Some ngx_pool_cleanup_file_h, Some f => set_files (m_fds m ∖ {[cf_fd f]}) (m_names m) m
  | Some ngx_pool_delete_file_h, Some f =>
      set_files (m_fds m ∖ {[cf_fd f]}) (m_names m ∖ {[cf_name f]}) m
  | _, _ => m
  end.

(** Everything but descriptors, files and calls. *)
Definition store (m : mem) :=
  (m_live m, m_brk m, m_fails m, m_data m, m_pool m, m_large m, m_cleanup m, m_cfile m).

Lemma cleaned_store m e : store (cleaned m e) = store m.
Proof.
  unfold cleaned. destruct (c_handler e.2) as [[]|]; try done; by destruct (_ ≫= _).
Qed.

Lemma cleaned_calls cs : ∀ m, m_calls (foldl cleaned m cs) = m_calls m ++ omap call_of cs.
Proof.
  induction cs as [|e cs IH]; intros m; [by rewrite app_nil_r|]. cbn [foldl omap list_omap]. rewrite IH.
  assert (m_calls (cleaned m e) = m_calls m ++ option_list (call_of e)) as ->
    by (unfold cleaned; destruct (c_handler e.2) as [[]|]; try done; by destruct (_ ≫= _)).
  rewrite <- app_assoc. by destruct (call_of e).
Qed.

Lemma ready_store m m' out e : store m' = store m → cleanup_ready m out e → cleanup_ready m' out e.
Proof.
  intros E. injection E as E1 _ _ _ _ _ E2 E3. unfold cleanup_ready, inside.
  by rewrite E1, E2, E3.
Qed.

Lemma run_handler_ok m out a c h :
  cleanup_ready m out (a, c) → c_handler c = Some h →
  run_handler h (c_data c) m = Done (tt, cleaned m (a, c)).
Proof.
  intros (_ & _ & Hd) Hh. cbn [snd] in Hd. rewrite Hh in Hd. unfold run_handler. rewrite M_bind_modify.
  unfold cleaned, call_of. cbn [snd]. rewrite Hh. cbn [fmap option_fmap option_map option_list].
  set (m1 := set_calls _ m).
  assert (∀ d f, m_cfile m !! d = Some f → inside m out sizeof_cleanup_file d → get_cfile (Some d) m1 = Done (f, m1)) as Hg.
  { intros d f Hf Hi. unfold get_cfile, at_addr. run (touch_inside m1 out sizeof_cleanup_file d Hi). unfold found.
    by rewrite (Hf : m_cfile m1 !! d = Some f). }
  destruct h; [| |done]; destruct Hd as (d & f & Ed & Hf & Hi); rewrite Ed; cbn [mbind option_bind];
    rewrite ?(Hf : m_cfile m1 !! d = Some f); unfold ngx_pool_cleanup_file, ngx_pool_delete_file; by run (Hg d f Hf Hi).
Qed.

Lemma run_cleanups_ok out : ∀ fuel cs m p,
  cleanups p cs → (length cs ≤ fuel)%nat → Forall (cleanup_ready m out) cs →
  run_cleanups fuel p m = Done (tt, foldl cleaned m cs).
Proof.
  induction fuel as [|fuel IH]; intros cs m p Hc Hlen Hr;
    (destruct cs as [|[a c] cs]; [cbn in Hc; by subst p|]); [cbn in Hlen; lia|].
  destruct Hc as [-> Hc]. apply Forall_cons in Hr as [Ha Hr]. cbn [run_cleanups foldl].
  pose proof Ha as (Hi & Hg & _). cbn [fst snd] in Hi, Hg. erewrite M_bind_done.
  2:{ unfold get_cleanup, at_addr. run (touch_inside _ _ _ _ Hi). unfold found. by rewrite Hg. }
  cbn beta. cbn [fst snd].
  assert ((match c_handler c with Some h => run_handler h (c_data c) | None => mret tt end) m =
    Done (tt, cleaned m (a, c))) as Hrun.
  { destruct (c_handler c) as [h|] eqn:Eh; [by eapply run_handler_ok|].
    unfold cleaned, call_of. cbn [snd]. rewrite Eh. cbn [fmap option_fmap option_map option_list].
    rewrite app_nil_r. by destruct m. }
  run Hrun. apply IH; [done|cbn in Hlen; lia|].
  eapply Forall_impl; [exact Hr|]. intros e. apply ready_store, cleaned_store.
Qed.

Lemma cleaned_all_store cs m : store (foldl cleaned m cs) = store m.
Proof.
  revert m; induction cs as [|e cs IH]; intros m; [done|]. cbn. by rewrite IH, cleaned_store.
Qed.

Lemma cleanups_fuel out cs m :
  NoDup cs.*1 → Forall (cleanup_ready m out) cs → (length cs ≤ cleanup_fuel m)%nat.
Proof.
  intros Hnd Hr. rewrite <- (length_fmap fst). unfold cleanup_fuel.
  rewrite <- size_dom, <- (size_list_to_set (C := gset addr)) by done.
  apply Nat.le_le_succ_r, subseteq_size. intros a Ha. apply elem_of_list_to_set in Ha.
  apply list_elem_of_fmap in Ha as (e & -> & Hin). rewrite Forall_forall in Hr.
  destruct (Hr e Hin) as (_ & He & _). apply elem_of_dom. eauto.
Qed.

(** ** The memory pool: the operations

    Creating a pool, every kind of request, freeing one large block,
    destroying and resetting the pool. *)

Section request.
Context (m : mem) (pool : nat) (h : ngx_pool_s) (bs : list nat) (sz size : Z)
  (ls : list (addr * option nat)).
Hypothesis Hrep : pool_rep m pool h bs sz ls.
Hypothesis Hsz : sizeof_pool + sizeof_large ≤ sz.
Hypothesis Hsize : 0 ≤ size.

Lemma pool_rep_head : get_pool (Some pool) m = Done (h, m).
Proof using Hrep Hsz.
  destruct Hrep as [Hp _ _ _ _ _]. pose proof Hp as [_ _ _ Hh _ _ _ _].
  eapply get_pool_ok; [eapply pool_block, Hp|done|unfold sizeof_large in *; lia].
Qed.

(** What a request that did not fail leaves. *)
Lemma denied_early m' : refused m m' → denied m m' pool bs sz ls.
Proof using Hrep.
  intros Hr. pose proof Hr as (fs & Hf & ->). split; [rewrite Hf; by left|]. exists h.
  split; [by eapply refused_rep|]. intros x k [Hu|Hl]; [by left|by right].
Qed.

Lemma denied_late m' :
  refused (with_block m size) m' →
  denied m (set_live (delete (m_brk m) (m_live m')) m') pool bs sz ls.
Proof using Hrep.
  intros (fs & Hf & ->). cbn in Hf. split.
  { destruct (m_fails m) as [|f fs']; [done|]. cbn in Hf. subst fs'. right. by left. }
  destruct Hrep as [Hp Hl Ha Hu Hn Hlive]. pose proof Hp as [_ _ _ _ _ _ _ Hf'].
  assert (delete (m_brk m) (<[m_brk m := size]> (m_live m)) = m_live m) as E
    by (apply delete_insert_id, Hf'; lia).
  exists h. split.
  - split; try done.
    + unfold set_live. cbn. rewrite E.
      assert (pool_ok (set_alloc (m_live m) (S (m_brk m)) fs m) pool h bs sz) as H.
      { apply pool_ok_live; [done|intros b Hb; by apply (pool_live _ _ _ _ _ Hp)|].
        intros b Hb. apply Hf'. lia. }
      by destruct H.
    + intros b Hb. unfold set_live. cbn. rewrite E. by apply Hlive.
  - intros x k [Hu'|(s & H1 & H2)]; [by left|]. right. exists s. cbn. by rewrite E.
Qed.

Definition outcome_of (r : option addr) (m' : mem) : Prop :=
  match r with
  | None => denied m m' pool bs sz ls
  | Some a => granted m m' pool bs sz ls a size ∧ a_off a = 0
  end.

Lemma add_large_ok : ∃ r m',
  add_large pool (m_brk m) (with_block m size) = Done (r, m') ∧ outcome_of r m'.
Proof using All.
  pose proof (with_block_rep _ _ _ _ _ _ Hrep size) as Hrep1. pose proof Hrep1 as [Hp1 _ _ _ _ _].
  unfold add_large.
  destruct (ngx_palloc_small_ok _ pool h bs sz sizeof_large Hp1
    ltac:(unfold sizeof_large in *; lia) true)
    as [(m2 & E & Hr)|(a & m2 & h2 & bs2 & E & Hg & _)]; run E.
  - exists None, (set_live (delete (m_brk m) (m_live m2)) m2). split; [|by apply denied_late].
    pose proof Hr as (fs & _ & ->). unfold mbind, M_bind, free. cbn.
    rewrite decide_True by (split; [done|rewrite lookup_insert_eq; eauto]). done.
  - pose proof (gave_rep _ _ _ _ _ _ Hrep1 _ _ _ _ _ Hg) as [Hp2 _ _ _ _ _].
    pose proof Hg as [_ Hua _ _ _ _ _ _]. pose proof Hp2 as [_ _ _ Hh2 _ _ _ _].
    pose proof (pool_block _ _ _ _ _ Hp2) as Hpl.
    run (get_pool_ok m2 sz pool Hpl h2 Hh2 ltac:(unfold sizeof_large in *; lia)).
    run (put_large_ok m2 pool h2 bs2 sz a Hp2 Hua (Large (p_large h2) (Some (Addr (m_brk m) 0)))).
    set (m3 := set_large _ m2).
    run (put_pool_ok m3 sz pool Hpl (p_set_large (Some a) h2) ltac:(unfold sizeof_large in *; lia)).
    exists (Some (block_addr (m_brk m))). eexists. split; [reflexivity|].
    split; [|done]. exact (new_entry m pool h bs sz size ls Hrep Hsize m2 h2 bs2 a Hg).
Qed.

Lemma ngx_palloc_large_ok : ∃ r m',
  ngx_palloc_large pool size m = Done (r, m') ∧ outcome_of r m'.
Proof using All.
  unfold ngx_palloc_large, ngx_alloc.
  destruct (malloc_cases size m) as [(m' & Hm & Hr)|Hm]; run Hm.
  { exists None, m'. split; [done|]. by apply denied_early. }
  fold (with_block m size).
  pose proof (with_block_rep _ _ _ _ _ _ Hrep size) as [Hp1 Hl1 Ha1 Hu1 _ _].
  pose proof Hp1 as [_ _ _ Hh1 _ _ _ _]. pose proof (pool_block _ _ _ _ _ Hp1) as Hpl.
  run (get_pool_ok _ sz pool Hpl h Hh1 ltac:(unfold sizeof_large in *; lia)).
  rewrite M_bind_gets.
  destruct (large_slot_ok _ _ _ _ _ Hp1 (large_fuel (with_block m size)) 0 _ ls Hl1 Hu1
    (larges_fuel _ _ _ Hl1 Ha1)) as (s & Hs & Hcase). run Hs.
  destruct s as [a|]; [|apply add_large_ok].
  destruct (Hcase a eq_refl) as (l1 & l2 & Els).
  assert (used (with_block m size) bs a sizeof_large) as Hua.
  { rewrite Els in Hu1. apply Forall_app in Hu1 as [_ Hu1]. by apply Forall_cons in Hu1 as [? _]. }
  rewrite Els in Hl1. destruct (larges_lookup _ _ _ _ _ _ Hl1) as (e & He & _).
  run (get_large_ok _ pool h bs sz a Hp1 Hua e He).
  run (put_large_ok _ pool h bs sz a Hp1 Hua (Large (l_next e) (Some (Addr (m_brk m) 0)))).
  eexists (Some _), _. split; [reflexivity|]. split; [|done].
  exact (reuse_entry m pool h bs sz size ls Hrep Hsize l1 a l2 e Els He).
Qed.
End request.

(** Both kinds of request: [align] tells [ngx_palloc] from [ngx_pnalloc]. *)
Definition palloc (align : bool) (pool : nat) (size : Z) : M mem (option addr) :=
  if align then ngx_palloc pool size else ngx_pnalloc pool size.

Lemma palloc_grants m pool h bs sz ls align size :
  pool_rep m pool h bs sz ls → sizeof_pool + sizeof_large ≤ sz → 0 ≤ size →
  ∃ r m', palloc align pool size m = Done (r, m') ∧
    match r with
    | None => denied m m' pool bs sz ls
    | Some a => granted m m' pool bs sz ls a size ∧
                (align = true ∨ p_max h < size → a_off a mod 8 = 0)
    end.
Proof.
  intros Hrep Hsz Hsize.
  assert (palloc align pool size m =
    (if size <=? p_max h then ngx_palloc_small pool size align m else ngx_palloc_large pool size m)) as ->.
  { unfold palloc, ngx_palloc, ngx_pnalloc.
    destruct align; rewrite (M_bind_done _ _ _ _ _ (pool_rep_head _ _ _ _ _ _ Hrep Hsz));
      by destruct (size <=? p_max h). }
  destruct (Z.leb_spec size (p_max h)) as [Hle|Hgt].
  - pose proof Hrep as [Hp _ _ _ _ _]. pose proof Hp as [_ _ _ _ _ _ Hmax _].
    destruct (ngx_palloc_small_ok m pool h bs sz size Hp ltac:(lia) align)
      as [(m' & E & Hr)|(a & m' & h' & bs' & E & Hg & Hal)].
    + exists None, m'. split; [done|]. by eapply denied_early.
    + exists (Some a), m'. split; [done|]. split; [|intros [?|?]; [by apply Hal|lia]].
      exists h', bs', ls. split; [by eapply gave_rep|]. split; [left; apply Hg|].
      intros x k Hx. by eapply gave_owned.
  - destruct (ngx_palloc_large_ok m pool h bs sz size ls Hrep Hsz Hsize) as (r & m' & E & H).
    exists r, m'. split; [done|]. destruct r as [a|]; [|done]. destruct H as [Hg Ho].
    split; [done|]. intros _. by rewrite Ho.
Qed.

(** C9: a request to a pool either fails because [malloc] failed, and the
    pool and all it had handed out are as before, or it returns [size] bytes
    in live memory that belong to the pool and share no byte with anything
    handed out before; [ngx_palloc] and every large request return an
    address that is a multiple of 8. *)
Theorem palloc_fresh m pool h bs sz ls align size :
  pool_rep m pool h bs sz ls → sizeof_pool + sizeof_large ≤ sz → 0 ≤ size →
  ∃ r m', palloc align pool size m = Done (r, m') ∧
    match r with
    | None => denied m m' pool bs sz ls
    | Some a => granted m m' pool bs sz ls a size ∧
                (align = true ∨ p_max h < size → a_off a mod 8 = 0)
    end.
Proof. apply palloc_grants. Qed.

(** ** Creating *)

(** The memory with a new pool. *)
Definition new_pool (m : mem) (size : Z) : mem :=
  let room := size_t (size - sizeof_pool) in
  set_pool (<[m_brk m := Pool (if room <? NGX_MAX_ALLOC_FROM_POOL then room
      else NGX_MAX_ALLOC_FROM_POOL) (Some (m_brk m)) None None]> (m_pool m))
    (set_data (<[m_brk m := PoolData sizeof_pool size None 0]> (m_data m)) (with_block m size)).

Lemma new_pool_rep m size :
  (∀ b, (m_brk m ≤ b)%nat → m_live m !! b = None) →
  sizeof_pool ≤ size < 2 ^ 63 → size mod 8 = 0 →
  ∃ h, pool_rep (new_pool m size) (m_brk m) h [m_brk m] size [] ∧ p_cleanup h = None.
Proof.
  intros Hf Hs H8. eexists (Pool _ _ _ _). split; [|reflexivity].
  split; [|done|constructor|constructor|constructor|by intros b Hb%elem_of_nil]. split.
  - split; [done|]. cbn. rewrite lookup_insert_eq. eexists. by split.
  - apply NoDup_singleton.
  - apply Forall_singleton. split; [apply lookup_insert_eq|]. cbn. rewrite lookup_insert_eq.
    eexists. split; [done|]. cbn. unfold sizeof_pool, sizeof_pool_data in *. lia.
  - apply lookup_insert_eq.
  - eexists. split; [done|]. by left.
  - done.
  - cbn. unfold size_t, NGX_MAX_ALLOC_FROM_POOL, sizeof_pool in *.
    rewrite Z.mod_small by lia. destruct (Z.ltb_spec (size - 64) 4095); lia.
  - intros b Hb. cbn in Hb |- *. rewrite lookup_insert_ne by lia. apply Hf. lia.
Qed.

(** A pool of a multiple of 8 bytes, at least its header, starts as one
    block of that size with nothing but its header in use; when [malloc] fails
    the result is NULL and nothing is kept. *)
Theorem ngx_create_pool_new m size :
  (∀ b, (m_brk m ≤ b)%nat → m_live m !! b = None) →
  sizeof_pool ≤ size < 2 ^ 63 → size mod 8 = 0 →
  ∃ r m', ngx_create_pool size m = Done (r, m') ∧
    match r with
    | None => m_live m' = m_live m
    | Some b => b = m_brk m ∧ (∃ h, pool_rep m' b h [b] size [] ∧ p_cleanup h = None) ∧
        m_live m' = <[b := size]> (m_live m) ∧
        ∀ a n, owned m' [b] [] a n → a_off a + n ≤ sizeof_pool
    end.
Proof.
  intros Hf Hs H8. unfold ngx_create_pool, ngx_alloc.
  destruct (malloc_cases size m) as [(m' & Hm & fs & _ & ->)|Hm]; run Hm.
  { eexists None, _. split; reflexivity. }
  fold (with_block m size).
  assert (m_live (with_block m size) !! m_brk m = Some size) as Hl by apply lookup_insert_eq.
  run (put_data_ok _ size (m_brk m) Hl (PoolData sizeof_pool size None 0)
         ltac:(unfold sizeof_pool, sizeof_pool_data in *; lia)).
  set (m2 := set_data _ _).
  erewrite M_bind_done by (apply (put_pool_ok m2 size (m_brk m) Hl); lia). cbn beta.
  eexists (Some _), _. split; [reflexivity|]. change (set_pool _ m2) with (new_pool m size).
  split; [done|]. split; [by apply new_pool_rep|]. split; [done|].
  intros a n [(Ha & d & Hd & H1 & H2)|(s & Ha & _)]; [|by apply elem_of_nil in Ha].
  apply list_elem_of_singleton in Ha. rewrite Ha in Hd. cbn in Hd. rewrite lookup_insert_eq in Hd.
  by injection Hd as <-.
Qed.

(** ** Destroying *)

Lemma pool_rep_store m m' pool h bs sz ls :
  store m' = store m → pool_rep m pool h bs sz ls → pool_rep m' pool h bs sz ls.
Proof.
  destruct m, m'. intros [= -> -> -> -> -> -> -> ->] [[H1 H2 H3 H4 H5 H6 H7 H8] Hl Ha Hu Hn Hlive].
  by split.
Qed.

Lemma used_inside m pool h bs sz ls a n :
  pool_rep m pool h bs sz ls → used m bs a n → inside m (allocs ls) n a.
Proof.
  intros [Hp _ _ _ _ Hlive] (Hb & d & Hd & H1 & H2). pose proof Hp as [_ _ Hok _ _ _ _ _].
  rewrite Forall_forall in Hok. destruct (Hok _ Hb) as (Hl & d' & Hd' & _ & Hlast).
  assert (d' = d) as -> by congruence. exists sz. split; [done|].
  unfold sizeof_pool_data in *. split; [|lia]. intros Hin. by apply Hlive in Hin as [_ ?].
Qed.

(** The loop over the large blocks, as both operations run it. *)
Lemma free_all_large m pool h bs sz ls :
  pool_rep m pool h bs sz ls →
  free_large (large_fuel m) (p_large h) m = Done (tt, set_live (kill (allocs ls) (m_live m)) m).
Proof.
  intros Hrep. pose proof Hrep as [_ Hl Ha Hu Hn Hlive].
  apply (free_large_ok _ _ _ _ (allocs ls)); try done.
  - by eapply larges_fuel.
  - apply Forall_fmap. eapply Forall_impl; [exact Hu|]. intros e He. by eapply used_inside.
  - intros b Hb. by apply Hlive.
Qed.

Lemma kill_large_pool m pool h bs sz ls :
  pool_rep m pool h bs sz ls → pool_ok (set_live (kill (allocs ls) (m_live m)) m) pool h bs sz.
Proof.
  intros [Hp _ _ _ _ Hlive]. pose proof Hp as [_ _ _ _ _ _ _ Hf].
  apply pool_ok_live; [done| |].
  - intros b Hb. rewrite kill_out; [by apply (pool_live _ _ _ _ _ Hp)|].
    intros Hin. by apply Hlive in Hin as [_ ?].
  - intros b Hb. rewrite kill_lookup. case_decide; [done|]. by apply Hf.
Qed.

(** C33: destroying a pool calls the handlers of its cleanup entries with their
    data, in the order of the list and once each, with what the two handlers of
    the file do to descriptors and files, and then frees every block the pool
    took, each exactly once, and no other block. *)
Theorem ngx_destroy_pool_frees m pool h bs sz ls cs :
  pool_rep m pool h bs sz ls → cleanups (p_cleanup h) cs → NoDup cs.*1 →
  Forall (cleanup_ready m []) cs →
  ∃ m', ngx_destroy_pool pool m = Done (tt, m') ∧
    m' = set_live (kill (allocs ls ++ bs) (m_live m)) (foldl cleaned m cs) ∧
    m_calls m' = m_calls m ++ omap call_of cs.
Proof.
  intros Hrep Hc Hnd Hr. eexists. split; [|split; [done|exact (cleaned_calls cs m)]]. unfold ngx_destroy_pool.
  pose proof Hrep as [Hp _ _ _ _ _]. pose proof Hp as [_ _ _ _ _ [Hsz _] _ _].
  assert (∀ m0, pool_ok m0 pool h bs sz → get_pool (Some pool) m0 = Done (h, m0)) as Hget.
  { intros m0 H0. pose proof H0 as [_ _ _ Hh _ _ _ _].
    eapply get_pool_ok; [eapply pool_block, H0|done|lia]. }
  run (Hget m Hp). rewrite M_bind_gets.
  run (run_cleanups_ok [] _ cs m _ Hc (cleanups_fuel [] cs m Hnd Hr) Hr).
  pose proof (cleaned_all_store cs m) as Hst. set (m1 := foldl cleaned m cs) in *.
  pose proof (pool_rep_store _ _ _ _ _ _ _ Hst Hrep) as Hrep1.
  pose proof Hrep1 as [Hp1 _ _ _ _ _]. run (Hget m1 Hp1). rewrite M_bind_gets.
  run (free_all_large _ _ _ _ _ _ Hrep1).
  pose proof (kill_large_pool _ _ _ _ _ _ Hrep1) as Hp2. set (m2 := set_live _ m1) in *.
  pose proof Hp2 as [Hch Hnd2 _ _ _ _ _ _].
  destruct bs as [|b bs']; [discriminate Hch|]. destruct Hch as [[= <-] (d & Hd & Hch)].
  run (get_data_ok m2 sz pool (pool_block _ _ _ _ _ Hp2) d Hd
         ltac:(unfold sizeof_pool, sizeof_pool_data in *; lia)).
  rewrite M_bind_gets, (free_chain_ok sz (proj1 Hsz) _ bs').
  - unfold m2. rewrite kill_app. by injection Hst as -> _ _ _ _ _ _ _.
  - done.
  - done.
  - pose proof (chain_fuel _ _ _ _ _ Hp2) as Hf. cbn in Hf |- *. lia.
  - apply (pool_live _ _ _ _ _ Hp2).
Qed.

(** ** Resetting *)

Lemma reset_chain_ok sz : sizeof_pool ≤ sz → ∀ fuel bs m p,
  chain (m_data m) p bs → NoDup bs → (length bs ≤ fuel)%nat → Forall (block_ok m sz) bs →
  ∃ dm, reset_chain fuel p m = Done (tt, set_data dm m) ∧
    (∀ b, b ∈ bs → ∃ d, m_data m !! b = Some d ∧
       dm !! b = Some (PoolData sizeof_pool sz (d_next d) 0)) ∧
    (∀ b, b ∉ bs → dm !! b = m_data m !! b).
Proof.
  intros Hsz. induction fuel as [|fuel IH]; intros bs m p Hc Hnd Hlen Hok;
    (destruct bs as [|b bs]; [cbn in Hc; subst p; exists (m_data m); split; [by destruct m|];
      split; [by intros b Hb%elem_of_nil|done]|]); [cbn in Hlen; lia|].
  destruct Hc as [-> (d & Hd & Hc)]. apply NoDup_cons in Hnd as [Hb Hnd].
  apply Forall_cons in Hok as [(Hl & d' & Hd' & He & _) Hok]. assert (d' = d) as -> by congruence.
  cbn [reset_chain].
  run (get_data_ok m sz b Hl d Hd ltac:(unfold sizeof_pool, sizeof_pool_data in *; lia)).
  run (put_data_ok m sz b Hl (PoolData sizeof_pool (d_end d) (d_next d) 0)
         ltac:(unfold sizeof_pool, sizeof_pool_data in *; lia)).
  set (m1 := set_data _ m).
  assert (∀ x, x ≠ b → m_data m1 !! x = m_data m !! x) as Hother.
  { intros x Hx. cbn. by rewrite lookup_insert_ne. }
  destruct (IH bs m1 (d_next d)) as (dm & Hrun & Hin & Hout).
  - eapply chain_frame; [|exact Hc]. intros x Hx. rewrite Hother; [done|]. by intros ->.
  - done.
  - cbn in Hlen. lia.
  - rewrite Forall_forall in Hok |- *. intros x Hx. destruct (Hok x Hx) as (H1 & H2).
    split; [done|]. rewrite Hother; [done|]. by intros ->.
  - exists dm. split; [exact Hrun|]. split.
    + intros x [->|Hx]%elem_of_cons.
      * exists d. split; [done|]. rewrite (Hout b Hb). cbn. by rewrite lookup_insert_eq, He.
      * destruct (Hin x Hx) as (d1 & Hd1 & E). exists d1. rewrite <- Hother by (by intros ->). done.
    + intros x Hx. rewrite not_elem_of_cons in Hx. rewrite Hout by tauto. apply Hother. tauto.
Qed.

Lemma reset_pool_ok m pool h bs sz ls :
  pool_rep m pool h bs sz ls →
  ∃ m', ngx_reset_pool pool m = Done (tt, m') ∧
    pool_rep m' pool (Pool (p_max h) (Some pool) None (p_cleanup h)) bs sz [] ∧
    m_live m' = kill (allocs ls) (m_live m) ∧
    ∀ a n, owned m' bs [] a n → a_off a + n ≤ sizeof_pool.
Proof.
  intros Hrep. unfold ngx_reset_pool. pose proof Hrep as [Hp _ _ _ _ _].
  pose proof Hp as [_ _ _ Hh _ [Hsz _] _ _].
  run (get_pool_ok m sz pool (pool_block _ _ _ _ _ Hp) h Hh ltac:(lia)). rewrite M_bind_gets.
  run (free_all_large _ _ _ _ _ _ Hrep).
  pose proof (kill_large_pool _ _ _ _ _ _ Hrep) as Hp2. set (m2 := set_live _ m) in *.
  pose proof Hp2 as [Hch2 Hnd2 Hok2 Hh2 Hcur2 Hsz2 Hmax2 Hf2]. rewrite M_bind_gets.
  destruct (reset_chain_ok sz (proj1 Hsz) (block_fuel m2) bs m2 (Some pool) Hch2 Hnd2
    (chain_fuel _ _ _ _ _ Hp2) Hok2) as (dm & Hrun & Hin & _). run Hrun.
  set (m3 := set_data dm m2).
  assert (m_live m3 !! pool = Some sz) as Hl3 by exact (pool_block _ _ _ _ _ Hp2).
  run (get_pool_ok m3 sz pool Hl3 h Hh2 ltac:(lia)).
  rewrite (put_pool_ok m3 sz pool Hl3) by lia. eexists. split; [reflexivity|].
  split; [|split; [done|]].
  - split; [|done|constructor|constructor|constructor|by intros b Hb%elem_of_nil].
    split; try done.
    + eapply chain_frame; [|exact Hch2]. intros b Hb. cbn.
      destruct (Hin b Hb) as (d & Hd & ->). cbn in Hd. by rewrite Hd.
    + apply Forall_forall. intros b Hb. rewrite Forall_forall in Hok2.
      destruct (Hok2 b Hb) as (Hl & _). split; [done|]. destruct (Hin b Hb) as (d & _ & Hd).
      exists (PoolData sizeof_pool sz (d_next d) 0). split; [done|]. cbn.
      unfold sizeof_pool, sizeof_pool_data in *. lia.
    + apply lookup_insert_eq.
    + exists pool. split; [done|]. apply (pool_in _ _ _ _ _ Hp).
  - intros a n [(Ha & d & Hd & _ & H2)|(s & Ha & _)]; [|by apply elem_of_nil in Ha].
    destruct (Hin _ Ha) as (d0 & _ & Hd0). cbn in Hd. assert (d = PoolData sizeof_pool sz (d_next d0) 0)
      as -> by congruence. done.
Qed.

(** C37: resetting a pool frees its large blocks and makes every block of the
    chain empty again; the chain itself is kept. *)
Theorem ngx_reset_pool_empties m pool h bs sz ls :
  pool_rep m pool h bs sz ls →
  ∃ m', ngx_reset_pool pool m = Done (tt, m') ∧
    pool_rep m' pool (Pool (p_max h) (Some pool) None (p_cleanup h)) bs sz [] ∧
    m_live m' = kill (allocs ls) (m_live m) ∧
    ∀ a n, owned m' bs [] a n → a_off a + n ≤ sizeof_pool.
Proof. apply reset_pool_ok. Qed.

(** ** Freeing one large block *)

Lemma pool_entry m pool h bs sz ls l1 a o l2 :
  pool_rep m pool h bs sz ls → ls = l1 ++ (a, o) :: l2 →
  ∃ e, m_large m !! a = Some e ∧ l_alloc e = block_addr <$> o ∧ used m bs a sizeof_large.
Proof.
  intros [_ Hl _ Hu _ _] ->. destruct (larges_lookup _ _ _ _ _ _ Hl) as (e & He & Ho).
  exists e. split; [done|]. split; [done|]. apply Forall_app in Hu as [_ Hu].
  by apply Forall_cons in Hu as [Ha _].
Qed.

(** The walk passes the entries whose block is not [p]. *)
Lemma pfree_walk_skip m pool h bs sz p : pool_ok m pool h bs sz → ∀ l1 fuel q l2,
  larges (m_large m) q (l1 ++ l2) → Forall (λ e, used m bs e.1 sizeof_large) l1 →
  Forall (λ e, block_addr <$> e.2 ≠ Some p) l1 → (length l1 ≤ fuel)%nat →
  ∃ q', pfree_walk fuel q p m = pfree_walk (fuel - length l1) q' p m ∧
    larges (m_large m) q' l2.
Proof.
  intros Hp. induction l1 as [|[a o] l1 IH]; intros fuel q l2 Hl Hu Hne Hlen.
  - exists q. by rewrite Nat.sub_0_r.
  - destruct Hl as (-> & e & He & Ho & Hl). apply Forall_cons in Hu as [Ha Hu].
    apply Forall_cons in Hne as [Hp1 Hne]. destruct fuel as [|fuel]; [cbn in Hlen; lia|].
    destruct (IH fuel _ l2 Hl Hu Hne ltac:(cbn in Hlen; lia)) as (q' & E & Hl').
    exists q'. split; [|done]. cbn [pfree_walk length].
    run (get_large_ok m pool h bs sz a Hp Ha e He). rewrite decide_False; [exact E|].
    rewrite Ho. exact Hp1.
Qed.

(** [ngx_pfree] frees the block when it is one of the pool's large blocks:
    its entry can take another block and everything else stays. *)
Theorem ngx_pfree_large m pool h bs sz ls l1 a b l2 :
  pool_rep m pool h bs sz ls → ls = l1 ++ (a, Some b) :: l2 →
  ∃ m', ngx_pfree pool (block_addr b) m = Done (0, m') ∧
    pool_rep m' pool h bs sz (l1 ++ (a, None) :: l2) ∧ m_live m' = delete b (m_live m).
Proof.
  intros Hrep Els. destruct (pool_entry _ _ _ _ _ _ _ _ _ _ Hrep Els) as (e & He & Ho & Hua).
  pose proof Hrep as [Hp Hl Ha Hu Hn Hlive]. pose proof Hp as [_ _ _ Hh _ [Hsz _] _ _].
  pose proof (larges_fuel _ _ _ Hl Ha) as Hfuel. rewrite Els in Hl, Ha, Hu, Hn, Hlive, Hfuel.
  rewrite length_app in Hfuel. cbn in Hfuel.
  assert (∀ x, x ∈ allocs l1 → x ≠ b) as Hl1b.
  { rewrite allocs_app, allocs_cons in Hn. apply NoDup_app in Hn as (_ & Hn & _).
    intros x Hx ->. apply (Hn b Hx). by left. }
  pose proof (allocs_entry l1 a b l2) as Hperm.
  rewrite Hperm in Hn. apply NoDup_cons in Hn as [Hbn Hn].
  unfold ngx_pfree. run (get_pool_ok m sz pool (pool_block _ _ _ _ _ Hp) h Hh ltac:(lia)).
  rewrite M_bind_gets. apply Forall_app in Hu as [Hu1 Hu2].
  destruct (pfree_walk_skip m pool h bs sz (block_addr b) Hp l1 (large_fuel m) (p_large h)
    ((a, Some b) :: l2) Hl Hu1) as (q & E & Hl'); [|lia|].
  { apply Forall_forall. intros [x o] Hx. cbn. intros Eo. destruct o as [y|]; [|done].
    injection Eo as ->. apply (Hl1b b); [|done]. apply list_elem_of_omap. by exists (x, Some b). }
  rewrite E. destruct Hl' as (-> & e' & He' & _). assert (e' = e) as -> by congruence.
  assert (∃ f, large_fuel m - length l1 = S f)%nat as [f ->] by (exists (large_fuel m - length l1 - 1)%nat; lia).
  cbn [pfree_walk]. run (get_large_ok m pool h bs sz a Hp Hua e He). rewrite decide_True by done.
  destruct (Hlive b) as [Hb Hbbs]; [rewrite Hperm; by left|].
  run (free_block_ok m b Hb). set (m1 := set_live _ m).
  assert (pool_ok m1 pool h bs sz) as Hp1 by (by apply pool_ok_free).
  run (put_large_ok m1 pool h bs sz a Hp1 Hua (Large (l_next e) None)).
  eexists. split; [reflexivity|]. split; [|done]. split.
  - by apply pool_ok_large.
  - exact (larges_set _ _ _ _ _ None _ e Hl Ha He).
  - rewrite fmap_app in Ha |- *. exact Ha.
  - apply Forall_app. split; [exact Hu1|]. apply Forall_cons in Hu2 as [H1 H2]. by apply Forall_cons.
  - done.
  - intros x Hx. destruct (Hlive x) as [Hx1 Hx2]; [rewrite Hperm; by right|]. split; [|done].
    cbn. rewrite lookup_delete_ne; [done|]. by intros <-.
Qed.

(** Any other pointer is refused. *)
Lemma ngx_pfree_unknown m pool h bs sz ls p :
  pool_rep m pool h bs sz ls → (∀ b, b ∈ allocs ls → block_addr b ≠ p) →
  ngx_pfree pool p m = Done (-5, m).
Proof.
  intros Hrep Hno. pose proof Hrep as [Hp Hl Ha Hu Hn Hlive]. pose proof Hp as [_ _ _ Hh _ [Hsz _] _ _].
  unfold ngx_pfree. run (get_pool_ok m sz pool (pool_block _ _ _ _ _ Hp) h Hh ltac:(lia)).
  rewrite M_bind_gets. rewrite <- (app_nil_r ls) in Hl.
  destruct (pfree_walk_skip m pool h bs sz p Hp ls (large_fuel m) (p_large h) [] Hl Hu)
    as (q & E & Hq).
  - apply Forall_forall. intros [x o] Hx. cbn. intros Eo. destruct o as [y|]; [|done].
    injection Eo as Eo. apply (Hno y); [|done]. apply list_elem_of_omap. by exists (x, Some y).
  - eapply larges_fuel; [|done]. rewrite app_nil_r in Hl. exact Hl.
  - rewrite E. cbn in Hq. subst q. by destruct (large_fuel m - length ls)%nat.
Qed.

(** ** The memory pool: the theorems at work, and what they exclude

    [demo_mem] is the memory after creating a pool of 1024 bytes and asking it
    for 5000: one block of the chain, one large block.  The findings are runs
    the theorems' hypotheses exclude. *)

Definition mem0 : mem := Mem ∅ 0 [] ∅ ∅ ∅ ∅ ∅ ∅ ∅ [].
Definition state_of {A} (r : outcome (A * mem)) : mem :=
  match r with Done (_, m) => m | _ => mem0 end.
Definition demo_mem : mem :=
  state_of ((_ ← ngx_create_pool 1024; ngx_palloc 0 5000) mem0).
Definition demo_head : ngx_pool_s := Pool 960 (Some O) (Some (Addr 0 64)) None.
Definition demo_larges : list (addr * option nat) := [(Addr 0 64, Some 1%nat)].

Lemma demo_pool : pool_ok demo_mem 0 demo_head [O] 1024.
Proof.
  split.
  - split; [done|]. eexists. split; vm_compute; reflexivity.
  - apply NoDup_singleton.
  - apply Forall_singleton. split; [vm_compute; reflexivity|]. eexists.
    split; [vm_compute; reflexivity|]. split; [done|]. cbn. unfold sizeof_pool_data. lia.
  - vm_compute. reflexivity.
  - exists O. split; [done|]. by left.
  - unfold sizeof_pool. split; [lia|done].
  - cbn. unfold sizeof_pool. lia.
  - assert (m_live demo_mem = <[1%nat := 5000]> {[O := 1024]}) as -> by (vm_compute; reflexivity).
    assert (m_brk demo_mem = 2%nat) as -> by (vm_compute; reflexivity).
    intros b Hb. rewrite lookup_insert_ne, lookup_singleton_ne; [done|lia|lia].
Qed.

Lemma demo_pool_rep : pool_rep demo_mem 0 demo_head [O] 1024 demo_larges.
Proof.
  split.
  - exact demo_pool.
  - split; [done|]. eexists. split; [vm_compute; reflexivity|]. done.
  - apply NoDup_singleton.
  - apply Forall_singleton. split; [by left|]. eexists. split; [vm_compute; reflexivity|].
    cbn. unfold sizeof_pool_data, sizeof_large. lia.
  - apply NoDup_singleton.
  - intros b Hb. apply list_elem_of_singleton in Hb as ->. split; [vm_compute; eauto|].
    intros Hin. apply list_elem_of_singleton in Hin. done.
Qed.

(** ** The theorems *)

Lemma palloc_fresh_witness : ∃ m',
  ngx_palloc 0 100 demo_mem = Done (Some (Addr 0 80), m') ∧
  granted demo_mem m' 0 [O] 1024 demo_larges (Addr 0 80) 100.
Proof.
  destruct (palloc_fresh demo_mem 0 demo_head [O] 1024 demo_larges true 100 demo_pool_rep)
    as (r & m' & Hrun & Hr).
  - unfold sizeof_pool, sizeof_large. lia.
  - lia.
  - assert (r = Some (Addr 0 80)) as ->.
    { assert (fst <$> (match palloc true 0 100 demo_mem with Done p => Some p | _ => None end) =
        Some (Some (Addr 0 80))) as E by (vm_compute; reflexivity).
      rewrite Hrun in E. by injection E. }
    exists m'. split; [exact Hrun|apply Hr].
Defined.

Lemma ngx_create_pool_new_witness : ∃ m',
  ngx_create_pool 1024 mem0 = Done (Some O, m') ∧ ∃ h, pool_rep m' 0 h [O] 1024 [].
Proof.
  destruct (ngx_create_pool_new mem0 1024) as (r & m' & Hrun & Hr).
  - intros b _. apply lookup_empty.
  - unfold sizeof_pool. lia.
  - reflexivity.
  - destruct r as [b|].
    + destruct Hr as (-> & (h & Hrep & _) & _). exists m'. split; [exact Hrun|eauto].
    + exfalso. revert Hrun. vm_compute. discriminate.
Defined.

(** A pool with two cleanup entries: a file to delete, and a function of the
    user that was added later and is called first. *)
Definition set_handler (c : option addr) (f : cleanup_handler) : M mem unit :=
  match c with
  | None => fault_with NullDeref
  | Some a => e ← get_cleanup c; put_cleanup a (Cleanup (Some f) (c_data e) (c_next e))
  end.
Definition demo_file : cleanup_file := CleanupFile 5 [97].
Definition put_file (a : addr) (f : cleanup_file) (m : mem) : mem :=
  Mem (m_live m) (m_brk m) (m_fails m) (m_data m) (m_pool m) (m_large m) (m_cleanup m) (<[a := f]> (m_cfile m))
    {[5]} {[ [97] ]} (m_calls m).
Definition demo_cleanups : mem :=
  state_of ((_ ← ngx_create_pool 1024;
             c ← ngx_pool_cleanup_add 0 sizeof_cleanup_file; set_handler c ngx_pool_delete_file_h ;;
             modify (put_file (Addr 0 88) demo_file) ;;
             c ← ngx_pool_cleanup_add 0 0; set_handler c (user_handler 7)) mem0).
Definition demo_entries : list (addr * ngx_pool_cleanup_s) :=
  [(Addr 0 104, Cleanup (Some (user_handler 7)) None (Some (Addr 0 64)));
   (Addr 0 64, Cleanup (Some ngx_pool_delete_file_h) (Some (Addr 0 88)) None)].

Lemma demo_cleanups_rep : pool_rep demo_cleanups 0 (Pool 960 (Some O) None (Some (Addr 0 104))) [O] 1024 [].
Proof.
  split; [|done|constructor|constructor|constructor|by intros b Hb%elem_of_nil]. split.
  - split; [done|]. eexists. split; vm_compute; reflexivity.
  - apply NoDup_singleton.
  - apply Forall_singleton. split; [vm_compute; reflexivity|]. eexists.
    split; [vm_compute; reflexivity|]. split; [done|]. cbn. unfold sizeof_pool_data. lia.
  - vm_compute. reflexivity.
  - exists O. split; [done|]. by left.
  - unfold sizeof_pool. split; [lia|done].
  - cbn. unfold sizeof_pool. lia.
  - assert (m_live demo_cleanups = {[O := 1024]}) as -> by (vm_compute; reflexivity).
    assert (m_brk demo_cleanups = 1%nat) as -> by (vm_compute; reflexivity).
    intros b Hb. rewrite lookup_singleton_ne; [done|lia].
Qed.

Lemma demo_entries_ready : Forall (cleanup_ready demo_cleanups []) demo_entries.
Proof.
  assert (∀ a n, a_blk a = O → 0 <= a_off a → a_off a + n <= 1024 → inside demo_cleanups [] n a) as Hi.
  { intros a n Ha H1 H2. unfold inside. rewrite Ha.
    exists 1024. split; [vm_compute; reflexivity|]. split; [apply not_elem_of_nil|lia]. }
  apply Forall_cons. split; [|apply Forall_singleton]; (split; [apply Hi; cbn; unfold sizeof_cleanup; lia|]);
    (split; [vm_compute; reflexivity|]); cbn; [done|].
  exists (Addr 0 88), demo_file. split; [done|]. split; [vm_compute; reflexivity|].
  apply Hi; cbn; unfold sizeof_cleanup_file; lia.
Qed.

Lemma ngx_destroy_pool_frees_witness : ∃ m',
  ngx_destroy_pool 0 demo_cleanups = Done (tt, m') ∧ m_live m' = ∅ ∧ m_fds m' = ∅ ∧ m_names m' = ∅ ∧
  m_calls m' = [(user_handler 7, None); (ngx_pool_delete_file_h, Some (Addr 0 88))].
Proof.
  destruct (ngx_destroy_pool_frees demo_cleanups 0 (Pool 960 (Some O) None (Some (Addr 0 104))) [O] 1024 [] demo_entries
      demo_cleanups_rep) as (m' & E & Em & Ec).
  - repeat split; reflexivity.
  - apply (bool_decide_unpack _). vm_compute. exact I.
  - exact demo_entries_ready.
  - exists m'. split; [exact E|]. rewrite Ec, Em. repeat split; vm_compute; reflexivity.
Defined.

Lemma ngx_reset_pool_empties_witness : ∃ m',
  ngx_reset_pool 0 demo_mem = Done (tt, m') ∧ m_live m' = {[O := 1024]}.
Proof.
  destruct (ngx_reset_pool_empties demo_mem 0 demo_head [O] 1024 demo_larges demo_pool_rep)
    as (m' & Hrun & _ & Hl & _).
  exists m'. split; [exact Hrun|]. rewrite Hl. vm_compute. reflexivity.
Defined.

Lemma ngx_pfree_large_witness : ∃ m',
  ngx_pfree 0 (Addr 1 0) demo_mem = Done (0, m') ∧ m_live m' = {[O := 1024]}.
Proof.
  destruct (ngx_pfree_large demo_mem 0 demo_head [O] 1024 demo_larges [] (Addr 0 64) 1 []
    demo_pool_rep eq_refl) as (m' & Hrun & _ & Hl).
  exists m'. split; [exact Hrun|]. rewrite Hl. vm_compute. reflexivity.
Defined.

(** ** What the hypotheses exclude *)

(** In a pool whose size is no multiple of 8, aligning up can pass the end
    of the block; the remaining room, a difference of [size_t], is then huge,
    and the request gets bytes outside of the block. *)
Theorem unaligned_pool_overflows :
  (_ ← ngx_create_pool 100; _ ← ngx_pnalloc 0 35; ngx_pcalloc 0 1) mem0 = Fault OutOfBounds.
Proof. vm_compute. reflexivity. Qed.

(** Resetting a pool keeps its cleanup list, whose entries lie in the
    bytes the pool then hands out again. *)
Theorem reset_reuses_cleanup :
  match (_ ← ngx_create_pool 1024; c ← ngx_pool_cleanup_add 0 16; ngx_reset_pool 0 ;;
         a ← ngx_palloc 0 24; h ← get_pool (Some O); mret (c, a, p_cleanup h)) mem0 with
  | Done ((c, a, l), _) => c = Some (Addr 0 64) ∧ a = c ∧ l = c
  | _ => False
  end.
Proof. vm_compute. done. Qed.

(** [ngx_create_pool] does not check its argument: with less than the 64
    bytes of the header it writes past the block. *)
Lemma small_pool_overflows :
  Forall (λ size, ngx_create_pool (Z.of_nat size) mem0 = Fault OutOfBounds) (seq 0 64).
Proof. by repeat constructor. Qed.
