(* ===== verification/ThreadPool.v ===== *)
(** * The thread pool (module_function/frame_thread_pool.c)

    Workers take jobs from a ring of cells that clients fill; two semaphores
    count free and filled cells.  The state is the static [thread_pool_] with
    the program counters of all threads; a step runs one access to shared
    data of one thread, so that the runs are the interleavings of the
    threads.  [step] is a function of the thread that moves: [None] when the
    thread waits or has ended, a fault when its access is undefined. *)

From S2P Require Import Prelude.
From stdpp Require Import list functions.

Open Scope nat_scope.

(** ** The shared state *)

(** A pointer in a cell: memory of [malloc] not yet written, NULL, or a
    function or argument, which are numbered. *)
Inductive field := Undef | Null | Val (n : nat).
#[export] Instance field_eq_dec : EqDecision field.
Proof. solve_decision. Defined.

Record THREAD_POOL_JOB := Job { j_call : field; j_arg : field }.

Inductive lock := pool_lock | job_free_lock | job_valid_lock.
#[export] Instance lock_eq_dec : EqDecision lock.
Proof. solve_decision. Defined.

(** [t_lock] gives the thread that holds a mutex; [t_q_head] is [None] once
    the ring was freed (or never allocated); [t_ran] lists the calls made. *)
Record FRAME_THREAD_POOL := ThreadPool {
  t_max_thread_num : nat;
  t_lock : lock → option nat;
  t_sleep_thread_num : Z;
  t_is_quit : bool;
  t_job_free_sem : nat;
  t_job_valid_sem : nat;
  t_push_index : nat;
  t_pop_index : nat;
  t_job_queue_size : nat;
  t_q_head : option (list THREAD_POOL_JOB);
  t_ran : list (nat * field);
}.

Definition set_lock (l : lock) (v : option nat) p := ThreadPool (t_max_thread_num p) (<[l := v]> (t_lock p)) (t_sleep_thread_num p) (t_is_quit p) (t_job_free_sem p) (t_job_valid_sem p) (t_push_index p) (t_pop_index p) (t_job_queue_size p) (t_q_head p) (t_ran p).
Definition set_sleep v p := ThreadPool (t_max_thread_num p) (t_lock p) v (t_is_quit p) (t_job_free_sem p) (t_job_valid_sem p) (t_push_index p) (t_pop_index p) (t_job_queue_size p) (t_q_head p) (t_ran p).
Definition set_quit p := ThreadPool (t_max_thread_num p) (t_lock p) (t_sleep_thread_num p) true (t_job_free_sem p) (t_job_valid_sem p) (t_push_index p) (t_pop_index p) (t_job_queue_size p) (t_q_head p) (t_ran p).
Definition set_free_sem v p := ThreadPool (t_max_thread_num p) (t_lock p) (t_sleep_thread_num p) (t_is_quit p) v (t_job_valid_sem p) (t_push_index p) (t_pop_index p) (t_job_queue_size p) (t_q_head p) (t_ran p).
Definition set_valid_sem v p := ThreadPool (t_max_thread_num p) (t_lock p) (t_sleep_thread_num p) (t_is_quit p) (t_job_free_sem p) v (t_push_index p) (t_pop_index p) (t_job_queue_size p) (t_q_head p) (t_ran p).
Definition set_push v p := ThreadPool (t_max_thread_num p) (t_lock p) (t_sleep_thread_num p) (t_is_quit p) (t_job_free_sem p) (t_job_valid_sem p) v (t_pop_index p) (t_job_queue_size p) (t_q_head p) (t_ran p).
Definition set_pop v p := ThreadPool (t_max_thread_num p) (t_lock p) (t_sleep_thread_num p) (t_is_quit p) (t_job_free_sem p) (t_job_valid_sem p) (t_push_index p) v (t_job_queue_size p) (t_q_head p) (t_ran p).
Definition set_q q p := ThreadPool (t_max_thread_num p) (t_lock p) (t_sleep_thread_num p) (t_is_quit p) (t_job_free_sem p) (t_job_valid_sem p) (t_push_index p) (t_pop_index p) (t_job_queue_size p) q (t_ran p).
Definition add_ran r p := ThreadPool (t_max_thread_num p) (t_lock p) (t_sleep_thread_num p) (t_is_quit p) (t_job_free_sem p) (t_job_valid_sem p) (t_push_index p) (t_pop_index p) (t_job_queue_size p) (t_q_head p) (t_ran p ++ [r]).

(** A cell of the ring. *)
Definition get_cell (i : nat) (p : FRAME_THREAD_POOL) : outcome THREAD_POOL_JOB :=
  match t_q_head p with
  | None => Fault UseAfterFree
  | Some q => match q !! i with Some c => Done c | None => Fault OutOfBounds end
  end.
Definition set_cell (i : nat) (f : THREAD_POOL_JOB → THREAD_POOL_JOB) (p : FRAME_THREAD_POOL)
  : outcome FRAME_THREAD_POOL :=
  c ← get_cell i p; Done (set_q (<[i := f c]> <$> t_q_head p) p).
Definition put_call v c := Job v (j_arg c).
Definition put_arg v c := Job (j_call c) v.

(** ** Threads *)

(** Where a thread is in [get_free_job_index] or [get_valid_job_index], and in
    [frame_threadpool_sleep] or [frame_threadpool_wakeup]. *)
Inductive gpc := GWait | GLock | GTake | GUnlock (i : nat).
Inductive mpc := MLock | MBody | MUnlock.

(** [thread_routine] *)
Inductive wpc :=
  | WSleep (m : mpc) | WGet (g : gpc) | WWake (i : nat) (m : mpc)
  | WTest (i : nat) | WCall (i : nat) | WClearCall (i : nat) | WClearArg (i : nat)
  | WPost | WQuit | WExit.

(** [frame_add_job_queue] *)
Inductive cpc := CStart | CGet (g : gpc) | CArg (i : nat) | CCall (i : nat) | CPost.

(** [frame_threadpool_destroy], with the posts still to do. *)
Inductive dpc := DIdle | DPost (n : nat) | DFree | DEnd.

(** A client adds the jobs of its list in order, and counts those refused. *)
Inductive thread :=
  | Worker (pc : wpc)
  | Client (jobs : list THREAD_POOL_JOB) (refused : nat) (pc : cpc)
  | Destroyer (pc : dpc).

(** [index++; if (index == job_queue_size) index = 0;] *)
Definition next_index (i size : nat) : nat := if decide (S i = size) then O else S i.

(** [pthread_mutex_lock] by the thread [t]: it waits while the mutex is held. *)
Definition acquire {A} (t : nat) (l : lock) (pc : A) (p : FRAME_THREAD_POOL)
  : option (outcome (A * FRAME_THREAD_POOL)) :=
  match t_lock p l with
  | None => Some (Done (pc, set_lock l (Some t) p))
  | Some _ => None
  end.
Definition release {A} (l : lock) (pc : A) (p : FRAME_THREAD_POOL)
  : option (outcome (A * FRAME_THREAD_POOL)) := Some (Done (pc, set_lock l None p)).
Definition go {A} (pc : A) (p : FRAME_THREAD_POOL) : option (outcome (A * FRAME_THREAD_POOL)) :=
  Some (Done (pc, p)).

(** The result of one part of the program as a result of a larger one. *)
Definition wrap {A B} (f : A → B) (r : option (outcome (A * FRAME_THREAD_POOL)))
  : option (outcome (B * FRAME_THREAD_POOL)) :=
  match r with
  | Some (Done (x, p)) => Some (Done (f x, p))
  | Some (Fault e) => Some (Fault e)
  | Some NoFuel => Some NoFuel
  | None => None
  end.

(** ** The functions *)

Definition post_job_free_num (p : FRAME_THREAD_POOL) : FRAME_THREAD_POOL :=
  set_free_sem (S (t_job_free_sem p)) p.
Definition post_job_valid_num (p : FRAME_THREAD_POOL) : FRAME_THREAD_POOL :=
  set_valid_sem (S (t_job_valid_sem p)) p.

(** The index it returns, or where it is next. *)
Definition get_free_job_index (t : nat) (g : gpc) (p : FRAME_THREAD_POOL)
  : option (outcome ((gpc + nat) * FRAME_THREAD_POOL)) :=
  match g with
  | GWait => match t_job_free_sem p with
             | O => None
             | S n => go (inl GLock) (set_free_sem n p)
             end
  | GLock => acquire t job_free_lock (inl GTake) p
  | GTake => go (inl (GUnlock (t_push_index p)))
               (set_push (next_index (t_push_index p) (t_job_queue_size p)) p)
  | GUnlock i => release job_free_lock (inr i) p
  end.

Definition get_valid_job_index (t : nat) (g : gpc) (p : FRAME_THREAD_POOL)
  : option (outcome ((gpc + nat) * FRAME_THREAD_POOL)) :=
  match g with
  | GWait => match t_job_valid_sem p with
             | O => None
             | S n => go (inl GLock) (set_valid_sem n p)
             end
  | GLock => acquire t job_valid_lock (inl GTake) p
  | GTake => go (inl (GUnlock (t_pop_index p)))
               (set_pop (next_index (t_pop_index p) (t_job_queue_size p)) p)
  | GUnlock i => release job_valid_lock (inr i) p
  end.

(** [None] when it has returned. *)
Definition frame_threadpool_sleep (t : nat) (m : mpc) (p : FRAME_THREAD_POOL)
  : option (outcome (option mpc * FRAME_THREAD_POOL)) :=
  match m with
  | MLock => acquire t pool_lock (Some MBody) p
  | MBody => go (Some MUnlock) (set_sleep (t_sleep_thread_num p + 1)%Z p)
  | MUnlock => release pool_lock None p
  end.

Definition frame_threadpool_wakeup (t : nat) (m : mpc) (p : FRAME_THREAD_POOL)
  : option (outcome (option mpc * FRAME_THREAD_POOL)) :=
  match m with
  | MLock => acquire t pool_lock (Some MBody) p
  | MBody => go (Some MUnlock) (set_sleep (t_sleep_thread_num p - 1)%Z p)
  | MUnlock => release pool_lock None p
  end.

Definition thread_routine (t : nat) (pc : wpc) (p : FRAME_THREAD_POOL)
  : option (outcome (wpc * FRAME_THREAD_POOL)) :=
  match pc with
  | WSleep m => wrap (λ r, match r with Some m' => WSleep m' | None => WGet GWait end)
                  (frame_threadpool_sleep t m p)
  | WGet g => wrap (λ r, match r with inl g' => WGet g' | inr i => WWake i MLock end)
                (get_valid_job_index t g p)
  | WWake i m => wrap (λ r, match r with Some m' => WWake i m' | None => WTest i end)
                   (frame_threadpool_wakeup t m p)
  | WTest i =>
      Some (c ← get_cell i p;
            match j_call c with
            | Undef => Fault Uninitialised
            | Null => Done (WClearCall i, p)
            | Val _ => Done (WCall i, p)
            end)
  | WCall i =>
      Some (c ← get_cell i p;
            match j_call c with
            | Undef => Fault Uninitialised
            | Null => Fault NullDeref
            | Val f => Done (WClearCall i, add_ran (f, j_arg c) p)
            end)
  | WClearCall i => Some (p' ← set_cell i (put_call Null) p; Done (WClearArg i, p'))
  | WClearArg i => Some (p' ← set_cell i (put_arg Null) p; Done (WPost, p'))
  | WPost => go WQuit (post_job_free_num p)
  | WQuit => go (if t_is_quit p then WExit else WSleep MLock) p
  | WExit => None
  end.

(** After the post the function ends without returning a value. *)
Definition frame_add_job_queue (t : nat) (jobs : list THREAD_POOL_JOB) (refused : nat) (pc : cpc)
    (p : FRAME_THREAD_POOL) : option (outcome (thread * FRAME_THREAD_POOL)) :=
  match jobs with
  | [] => None
  | j :: rest =>
      match pc with
      | CStart => if t_is_quit p then go (Client rest (S refused) CStart) p
                  else go (Client jobs refused (CGet GWait)) p
      | CGet g => wrap (λ r, Client jobs refused (match r with inl g' => CGet g' | inr i => CArg i end))
                    (get_free_job_index t g p)
      | CArg i => Some (p' ← set_cell i (put_arg (j_arg j)) p; Done (Client jobs refused (CCall i), p'))
      | CCall i => Some (p' ← set_cell i (put_call (j_call j)) p; Done (Client jobs refused CPost, p'))
      | CPost => go (Client rest refused CStart) (post_job_valid_num p)
      end
  end.

Definition frame_threadpool_destroy (pc : dpc) (p : FRAME_THREAD_POOL)
  : option (outcome (dpc * FRAME_THREAD_POOL)) :=
  match pc with
  | DIdle => go (DPost (t_job_queue_size p)) (set_quit p)
  | DPost O => go DFree p
  | DPost (S n) => go (DPost n) (post_job_valid_num p)
  | DFree => go DEnd (set_q None p)
  | DEnd => None
  end.

(** ** Steps *)

Record state := State { s_pool : FRAME_THREAD_POOL; s_threads : list thread }.

Definition thread_step (t : nat) (th : thread) (p : FRAME_THREAD_POOL)
  : option (outcome (thread * FRAME_THREAD_POOL)) :=
  match th with
  | Worker pc => wrap Worker (thread_routine t pc p)
  | Client jobs r pc => frame_add_job_queue t jobs r pc p
  | Destroyer pc => wrap Destroyer (frame_threadpool_destroy pc p)
  end.

(** A step of the thread number [t]. *)
Definition step (t : nat) (s : state) : option (outcome state) :=
  match s_threads s !! t with
  | None => None
  | Some th =>
      match thread_step t th (s_pool s) with
      | Some (Done (th', p')) => Some (Done (State p' (<[t := th']> (s_threads s))))
      | Some (Fault f) => Some (Fault f)
      | Some NoFuel => Some NoFuel
      | None => None
      end
  end.

(** Some thread moves. *)
Inductive steps_to (s s' : state) : Prop :=
  | steps_by t : step t s = Some (Done s') → steps_to s s'.

(** A schedule names the threads in the order they move. *)
Fixpoint run_schedule (ts : list nat) (s : state) : option (outcome state) :=
  match ts with
  | [] => Some (Done s)
  | t :: ts' => match step t s with
                | Some (Done s') => run_schedule ts' s'
                | r => r
                end
  end.

(** ** Starting the pool *)

Definition pool_zero : FRAME_THREAD_POOL := ThreadPool 0 (λ _, None) 0 false 0 0 0 0 0 None [].

(** [pthread_create] succeeds for the first [created] threads. *)
Definition frame_threadpool_init (thread_size : nat) (ids_ok queue_ok : bool) (created : nat)
  : Z * FRAME_THREAD_POOL * list thread :=
  let p := ThreadPool thread_size (λ _, None) 0 false 0 0 0 0 0 None [] in
  if negb ids_ok then ((-1)%Z, p, [])
  else if negb queue_ok then ((-1)%Z, p, [])
  else
    let p := ThreadPool thread_size (λ _, None) 0 false thread_size 0 0 0 thread_size
               (Some (replicate thread_size (Job Undef Undef))) [] in
    if created <? thread_size then ((-1)%Z, set_q None p, replicate created (Worker (WSleep MLock)))
    else (0%Z, p, replicate thread_size (Worker (WSleep MLock))).

Definition frame_threadpool_sleep_num (p : FRAME_THREAD_POOL) : Z := t_sleep_thread_num p.

(** A started pool of [n] workers with its clients; the last thread may
    destroy it. *)
Definition start (n : nat) (clients : list (list THREAD_POOL_JOB)) : state :=
  let '(_, p, ws) := frame_threadpool_init n true true n in
  State p (ws ++ ((λ js, Client js 0 CStart) <$> clients) ++ [Destroyer DIdle]).
