(* ===== verification/ThreadPoolSpec.v ===== *)
(** * The thread pool: what every interleaving keeps

    The counts of the semaphores, the number of sleeping threads, the holders
    of the mutexes and the indices, for any number of workers and clients. *)

From S2P Require Import Prelude ThreadPool.
From stdpp Require Import list functions relations.

Open Scope Z_scope.

(** ** Sums over the threads *)

Definition sum_of (f : thread → Z) (ts : list thread) : Z := foldr (λ th a, f th + a) 0 ts.

Lemma sum_insert f ts t th th' :
  ts !! t = Some th → sum_of f (<[t := th']> ts) = sum_of f ts - f th + f th'.
Proof.
  unfold sum_of. revert t; induction ts as [|x ts IH]; intros [|t] H; [done|done| |].
  - injection H as ->. cbn. lia.
  - change (<[S t:=th']> (x :: ts)) with (x :: <[t:=th']> ts). cbn in *. rewrite (IH t H). lia.
Qed.

Lemma sum_app f a b : sum_of f (a ++ b) = sum_of f a + sum_of f b.
Proof. unfold sum_of. induction a as [|x a IH]; cbn; [done|]. rewrite IH. lia. Qed.

Lemma sum_zero f ts : (∀ th, th ∈ ts → f th = 0) → sum_of f ts = 0.
Proof.
  unfold sum_of. induction ts as [|x ts IH]; intros H; [done|]. cbn.
  rewrite (H x) by (by left). rewrite IH; [done|]. intros th Hth. apply H. by right.
Qed.

(** ** What a thread holds *)

(** A cell of the ring, between the two semaphores. *)
Definition holds_cell (th : thread) : Z :=
  match th with
  | Worker (WGet (GLock | GTake | GUnlock _) | WWake _ _ | WTest _
            | WCall _ | WClearCall _ | WClearArg _ | WPost) => 1
  | Client (_ :: _) _ (CGet (GLock | GTake | GUnlock _) | CArg _ | CCall _ | CPost) => 1
  | _ => 0
  end.

(** The posts the destroying thread has done without a job. *)
Definition posted (size : nat) (th : thread) : Z :=
  match th with
  | Destroyer (DPost n) => Z.of_nat size - Z.of_nat n
  | Destroyer (DFree | DEnd) => Z.of_nat size
  | _ => 0
  end.

(** Counted in [sleep_thread_num]. *)
Definition sleeps (th : thread) : Z :=
  match th with
  | Worker (WSleep MUnlock | WGet _ | WWake _ (MLock | MBody)) => 1
  | _ => 0
  end.

(** Between locking and unlocking. *)
Definition in_section (l : lock) (th : thread) : bool :=
  match l, th with
  | pool_lock, Worker (WSleep (MBody | MUnlock) | WWake _ (MBody | MUnlock)) => true
  | job_valid_lock, Worker (WGet (GTake | GUnlock _)) => true
  | job_free_lock, Client (_ :: _) _ (CGet (GTake | GUnlock _)) => true
  | _, _ => false
  end.

(** The index a thread has taken from the ring. *)
Definition index_of (th : thread) : option nat :=
  match th with
  | Worker (WGet (GUnlock i) | WWake i _ | WTest i | WCall i | WClearCall i
            | WClearArg i) => Some i
  | Client (_ :: _) _ (CGet (GUnlock i) | CArg i | CCall i) => Some i
  | _ => None
  end.

(** ** One step of one thread *)

Ltac unfold_steps H :=
  unfold thread_step, wrap, thread_routine, frame_add_job_queue, frame_threadpool_destroy,
    get_free_job_index, get_valid_job_index, frame_threadpool_sleep, frame_threadpool_wakeup,
    post_job_free_num, post_job_valid_num, acquire, release, go, set_cell, get_cell,
    mbind, outcome_bind in H.
Ltac step_cases H :=
  unfold_steps H; repeat first [progress simplify_eq | progress cbn in * | case_match].

Lemma step_counts t th p th' p' :
  thread_step t th p = Some (Done (th', p')) →
  let size := t_job_queue_size p in
  t_job_queue_size p' = size ∧
  Z.of_nat (t_job_free_sem p') + Z.of_nat (t_job_valid_sem p') + holds_cell th' + posted size th =
    Z.of_nat (t_job_free_sem p) + Z.of_nat (t_job_valid_sem p) + holds_cell th + posted size th' ∧
  t_sleep_thread_num p' + sleeps th = t_sleep_thread_num p + sleeps th'.
Proof. intros H. step_cases H; try lia; try (repeat split; repeat case_match; cbn; lia).
Qed.

(** A mutex is taken, given back, or left alone. *)
Lemma step_locks l t th p th' p' :
  thread_step t th p = Some (Done (th', p')) →
  (t_lock p' l = t_lock p l ∧ in_section l th' = in_section l th) ∨
  (t_lock p l = None ∧ t_lock p' l = Some t ∧ in_section l th = false ∧ in_section l th' = true) ∨
  (in_section l th = true ∧ in_section l th' = false ∧ t_lock p' l = None).
Proof.
  intros H. step_cases H; try (left; split; [done|by destruct l]);
    destruct l; cbn; rewrite ?fn_lookup_insert, ?fn_lookup_insert_ne by done; repeat case_match; auto 6.
Qed.

Definition indices_ok (size : nat) (p : FRAME_THREAD_POOL) : Prop :=
  (t_push_index p < size)%nat ∧ (t_pop_index p < size)%nat ∧
  ∀ q, t_q_head p = Some q → length q = size.

Lemma next_index_lt i size : (i < size)%nat → (next_index i size < size)%nat.
Proof. unfold next_index. case_decide; lia. Qed.

Lemma step_indices t th p th' p' :
  thread_step t th p = Some (Done (th', p')) → indices_ok (t_job_queue_size p) p →
  (∀ i, index_of th = Some i → (i < t_job_queue_size p)%nat) →
  indices_ok (t_job_queue_size p) p' ∧ ∀ i, index_of th' = Some i → (i < t_job_queue_size p)%nat.
Proof.
  intros H (Hpush & Hpop & Hq) Hi. unfold indices_ok.
  step_cases H; (split; [split_and!|intros j Hj]); try done; try (by apply next_index_lt);
    try (by apply Hi); try (intros ? E; simplify_eq); try (rewrite length_insert; by apply Hq);
    repeat case_match; simplify_eq; auto.
Qed.

(** Before the pool is destroyed no worker has left its loop. *)
Definition before_quit (p : FRAME_THREAD_POOL) (th : thread) : Prop :=
  t_is_quit p = false → th ≠ Worker WExit ∧ ∀ pc, th = Destroyer pc → pc = DIdle.

Lemma step_quit t th p th' p' :
  thread_step t th p = Some (Done (th', p')) → before_quit p th →
  before_quit p' th' ∧ (t_is_quit p' = false → t_is_quit p = false).
Proof.
  intros H Hb. unfold before_quit in *.
  step_cases H; (split; [intros Hq|intros Hq]); try done; try congruence;
    try (split; [done|by intros ? [= <-]]);
    try (destruct (Hb Hq) as [_ E]; by specialize (E _ eq_refl)).
Qed.

(** Threads stay of their kind. *)
Definition is_worker (th : thread) : bool := match th with Worker _ => true | _ => false end.
Lemma step_kind t th p th' p' :
  thread_step t th p = Some (Done (th', p')) → is_worker th' = is_worker th.
Proof. intros H. by step_cases H. Qed.

(** ** The invariant *)

Record inv (size : nat) (s : state) : Prop := {
  iv_size : t_job_queue_size (s_pool s) = size;
  iv_cells : Z.of_nat (t_job_free_sem (s_pool s)) + Z.of_nat (t_job_valid_sem (s_pool s)) +
    sum_of holds_cell (s_threads s) = Z.of_nat size + sum_of (posted size) (s_threads s);
  iv_sleep : t_sleep_thread_num (s_pool s) = sum_of sleeps (s_threads s);
  iv_locks : ∀ l t, t_lock (s_pool s) l = Some t ↔
    ∃ th, s_threads s !! t = Some th ∧ in_section l th = true;
  iv_indices : indices_ok size (s_pool s);
  iv_index : ∀ t th i, s_threads s !! t = Some th → index_of th = Some i → (i < size)%nat;
  iv_quit : ∀ t th, s_threads s !! t = Some th → before_quit (s_pool s) th;
  iv_worker : ∃ th, s_threads s !! O = Some th ∧ is_worker th = true;
}.

Lemma step_inv t s s' size : step t s = Some (Done s') → inv size s → inv size s'.
Proof.
  unfold step. destruct (s_threads s !! t) as [th|] eqn:Ht; [|done].
  destruct (thread_step t th (s_pool s)) as [[[th' p']| |]|] eqn:Hstep; try done.
  intros [= <-] [Hsize Hcells Hsleep Hlocks Hind Hi Hq Hw].
  destruct (step_counts _ _ _ _ _ Hstep) as (E1 & E2 & E3).
  assert (t < length (s_threads s))%nat as Hlt by (by eapply lookup_lt_Some).
  assert (∀ t0 th0, <[t:=th']> (s_threads s) !! t0 = Some th0 →
    (t0 = t ∧ th0 = th') ∨ (t0 ≠ t ∧ s_threads s !! t0 = Some th0)) as Hcase.
  { intros t0 th0. destruct (decide (t0 = t)) as [->|Hne].
    - rewrite list_lookup_insert_eq by done. intros [= <-]. by left.
    - rewrite list_lookup_insert_ne by done. by right. }
  rewrite Hsize in *. rewrite <- Hsize in Hind.
  destruct (step_indices _ _ _ _ _ Hstep Hind) as [Hind' Hi'].
  { rewrite Hsize. intros i. by apply (Hi t th). }
  destruct (step_quit _ _ _ _ _ Hstep (Hq t th Ht)) as [Hq' Hmono].
  split; cbn [s_pool s_threads].
  - done.
  - rewrite !(sum_insert _ _ _ _ _ Ht). lia.
  - rewrite (sum_insert _ _ _ _ _ Ht). lia.
  - intros l t0. destruct (step_locks l _ _ _ _ _ Hstep) as [[L1 L2]|[(L1 & L2 & L3 & L4)|(L1 & L2 & L3)]].
    + rewrite L1, (Hlocks l t0). split; intros (th0 & H1 & H2).
      * destruct (decide (t0 = t)) as [->|Hne].
        -- exists th'. rewrite list_lookup_insert_eq by done. split; [done|].
           rewrite L2. congruence.
        -- exists th0. by rewrite list_lookup_insert_ne.
      * apply Hcase in H1 as [[-> ->]|[_ H1]]; [|eauto]. exists th. by rewrite <- L2.
    + rewrite L2. split.
      * intros [= <-]. exists th'. by rewrite list_lookup_insert_eq.
      * intros (th0 & H1 & H2). apply Hcase in H1 as [[-> _]|[_ H1]]; [done|].
        assert (t_lock (s_pool s) l = Some t0) as E by (apply Hlocks; eauto). congruence.
    + rewrite L3. split; [done|]. intros (th0 & H1 & H2).
      assert (t_lock (s_pool s) l = Some t) as E by (apply Hlocks; eauto).
      apply Hcase in H1 as [[-> ->]|[Hne H1]]; [congruence|].
      assert (t_lock (s_pool s) l = Some t0) by (apply Hlocks; eauto). congruence.
  - by rewrite <- Hsize.
  - intros t0 th0 i H0. apply Hcase in H0 as [[_ ->]|[_ H0]]; [rewrite <- Hsize; apply Hi'|by apply (Hi t0)].
  - intros t0 th0 H0. apply Hcase in H0 as [[_ ->]|[_ H0]]; [done|].
    intros Hf. by apply (Hq t0 th0 H0), Hmono.
  - destruct Hw as (th0 & H0 & Hk). destruct (decide (t = O)) as [->|Hne].
    + exists th'. rewrite list_lookup_insert_eq by done. split; [done|].
      rewrite (step_kind _ _ _ _ _ Hstep). congruence.
    + exists th0. by rewrite list_lookup_insert_ne.
Qed.
