(* ===== verification/ThreadPoolThms.v ===== *)
(** * The thread pool: theorems and runs

    What holds in every state the threads can reach, under any interleaving. *)

From S2P Require Import Prelude ThreadPool ThreadPoolSpec.
From stdpp Require Import list functions relations.

Open Scope Z_scope.

(** ** The invariant of all runs *)

Lemma start_eq n clients :
  start n clients = State (ThreadPool n (λ _, None) 0 false n 0 0 0 n
      (Some (replicate n (Job Undef Undef))) [])
    (replicate n (Worker (WSleep MLock)) ++ ((λ js, Client js 0 CStart) <$> clients) ++ [Destroyer DIdle]).
Proof. unfold start, frame_threadpool_init. cbn [negb]. by rewrite Nat.ltb_irrefl. Qed.

Lemma start_threads n clients th :
  th ∈ s_threads (start n clients) →
  th = Worker (WSleep MLock) ∨ (∃ js, th = Client js 0 CStart) ∨ th = Destroyer DIdle.
Proof.
  rewrite start_eq. cbn. intros [H|[H|H]%elem_of_app]%elem_of_app.
  - apply elem_of_replicate in H as [-> _]. auto.
  - apply list_elem_of_fmap in H as (js & -> & _). right. left. eauto.
  - apply list_elem_of_singleton in H as ->. auto.
Qed.

Lemma start_inv n clients : (0 < n)%nat → inv n (start n clients).
Proof.
  intros Hn.
  assert (∀ f, (∀ th, th = Worker (WSleep MLock) ∨ (∃ js, th = Client js 0 CStart) ∨
    th = Destroyer DIdle → f th = 0) → sum_of f (s_threads (start n clients)) = 0) as Hzero.
  { intros f Hf. apply sum_zero. intros th Hth. by eapply Hf, start_threads. }
  assert (∀ t th, s_threads (start n clients) !! t = Some th →
    th = Worker (WSleep MLock) ∨ (∃ js, th = Client js 0 CStart) ∨ th = Destroyer DIdle) as Hth.
  { intros t th Ht. eapply start_threads. by eapply list_elem_of_lookup_2. }
  assert (s_pool (start n clients) = ThreadPool n (λ _, None) 0 false n 0 0 0 n
    (Some (replicate n (Job Undef Undef))) []) as Hp by (by rewrite start_eq).
  split; rewrite ?Hp; cbn.
  - done.
  - rewrite !Hzero; [lia| |]; intros th [->|[[js ->]| ->]]; try done. by destruct js.
  - symmetry. apply Hzero. by intros th [->|[[js ->]| ->]].
  - intros l t. split; [done|]. intros (th & Ht & Hl). exfalso. revert Hl.
    destruct (Hth _ _ Ht) as [->|[[js ->]| ->]]; destruct l; cbn; try done; by destruct js.
  - split_and!; cbn; [lia|lia|]. intros q [= <-]. apply length_replicate.
  - intros t th i Ht Hi. destruct (Hth _ _ Ht) as [->|[[js ->]| ->]]; try done. by destruct js.
  - intros t th Ht _. destruct (Hth _ _ Ht) as [->|[[js ->]| ->]]; (split; [done|]); intros pc E; by inversion E.
  - exists (Worker (WSleep MLock)). split; [|done]. rewrite start_eq. by destruct n; [lia|].
Qed.

Lemma reachable_inv n clients s : (0 < n)%nat → rtc steps_to (start n clients) s → inv n s.
Proof.
  intros Hn Hr. assert (∀ s0, rtc steps_to s0 s → inv n s0 → inv n s) as H.
  { intros s0 H0. induction H0 as [|s0 s1 s2 [t Ht] _ IH]; [done|].
    intros Hs0. by eapply IH, step_inv. }
  by apply (H _ Hr), start_inv.
Qed.

(** C10: in every state that the threads reach, under any interleaving, every
    cell of the ring is accounted for: the two semaphores, the threads between
    them and the posts of a destroying thread add up; [sleep_thread_num] is
    the number of threads that sleep; both indices and every index a thread
    took lie in the ring. *)
Theorem thread_pool_counts n clients s :
  (0 < n)%nat → rtc steps_to (start n clients) s →
  Z.of_nat (t_job_free_sem (s_pool s)) + Z.of_nat (t_job_valid_sem (s_pool s)) +
    sum_of holds_cell (s_threads s) = Z.of_nat n + sum_of (posted n) (s_threads s) ∧
  frame_threadpool_sleep_num (s_pool s) = sum_of sleeps (s_threads s) ∧
  (t_push_index (s_pool s) < n)%nat ∧ (t_pop_index (s_pool s) < n)%nat ∧
  ∀ t th i, s_threads s !! t = Some th → index_of th = Some i → (i < n)%nat.
Proof.
  intros Hn Hr. destruct (reachable_inv _ _ _ Hn Hr) as [_ Hc Hs _ (H1 & H2 & _) Hi _ _].
  split_and!; done.
Qed.

(** At most one thread at a time is between locking and unlocking each of
    the three mutexes. *)
Theorem mutexes_exclude n clients s l t1 t2 th1 th2 :
  (0 < n)%nat → rtc steps_to (start n clients) s →
  s_threads s !! t1 = Some th1 → in_section l th1 = true →
  s_threads s !! t2 = Some th2 → in_section l th2 = true → t1 = t2.
Proof.
  intros Hn Hr H1 S1 H2 S2. destruct (reachable_inv _ _ _ Hn Hr) as [_ _ _ Hl _ _ _ _].
  assert (t_lock (s_pool s) l = Some t1) by (apply Hl; eauto).
  assert (t_lock (s_pool s) l = Some t2) by (apply Hl; eauto). congruence.
Qed.

(** ** Waiting *)

Lemma section_moves l t th p : in_section l th = true → thread_step t th p ≠ None.
Proof. intros Hs Hn. unfold in_section in Hs. by step_cases Hn. Qed.

(** Why a thread waits when no mutex is held. *)
Lemma waits t th p :
  thread_step t th p = None → (∀ l, t_lock p l = None) →
  match th with
  | Worker pc => pc = WExit ∨ (pc = WGet GWait ∧ t_job_valid_sem p = O)
  | Client js _ pc => js = [] ∨ (pc = CGet GWait ∧ t_job_free_sem p = O)
  | Destroyer _ => True
  end.
Proof.
  intros H Hl. step_cases H; auto;
    exfalso; by match goal with E : t_lock p ?l = Some _ |- _ => rewrite (Hl l) in E end.
Qed.

Lemma sum_nonzero f ts : sum_of f ts ≠ 0 → ∃ th, th ∈ ts ∧ f th ≠ 0.
Proof.
  intros H. destruct (decide (Exists (λ th, f th ≠ 0) ts)) as [He|He].
  - apply Exists_exists in He as (th & Hin & Hf). eauto.
  - exfalso. apply H, sum_zero. intros th Hth. apply not_Exists_Forall in He; [|apply _].
    rewrite Forall_forall in He. by destruct (decide (f th = 0)); [|destruct (He th Hth)].
Qed.

(** C19: the pool does not get stuck.  When, before it is destroyed, no worker
    and no client can move, every client has handed over all its jobs and
    every worker waits for a job. *)
Theorem no_deadlock n clients s :
  (0 < n)%nat → rtc steps_to (start n clients) s → t_is_quit (s_pool s) = false →
  (∀ t th, s_threads s !! t = Some th → (∀ pc, th ≠ Destroyer pc) → step t s = None) →
  t_job_valid_sem (s_pool s) = O ∧
  ∀ t th, s_threads s !! t = Some th →
    match th with
    | Worker pc => pc = WGet GWait
    | Client js _ _ => js = []
    | Destroyer pc => pc = DIdle
    end.
Proof.
  intros Hn Hr Hquit Hstuck.
  destruct (reachable_inv _ _ _ Hn Hr) as [Hsize Hcells _ Hlocks _ _ Hq (w & Hw & Hk)].
  assert (∀ t th, s_threads s !! t = Some th → (∀ pc, th ≠ Destroyer pc) →
    thread_step t th (s_pool s) = None) as Hnone.
  { intros t th Ht Hd. pose proof (Hstuck t th Ht Hd) as H. unfold step in H. rewrite Ht in H.
    by destruct (thread_step t th (s_pool s)) as [[[? ?]| |]|]. }
  assert (∀ l, t_lock (s_pool s) l = None) as Hfree.
  { intros l. destruct (t_lock (s_pool s) l) as [t|] eqn:E; [|done]. exfalso.
    apply Hlocks in E as (th & Ht & Hs). apply (section_moves l t th (s_pool s) Hs), Hnone; [done|].
    intros pc ->. by destruct l. }
  assert (∀ t th, s_threads s !! t = Some th → match th with
    | Worker pc => pc = WGet GWait ∧ t_job_valid_sem (s_pool s) = O
    | Client js _ pc => js = [] ∨ (pc = CGet GWait ∧ t_job_free_sem (s_pool s) = O)
    | Destroyer pc => pc = DIdle end) as Hall.
  { intros t th Ht. destruct (Hq t th Ht Hquit) as [Hx Hd].
    destruct th as [pc|js r pc|pc]; [| |by apply Hd].
    - destruct (waits _ _ _ (Hnone t _ Ht ltac:(done)) Hfree) as [->|H]; done.
    - exact (waits _ _ _ (Hnone t _ Ht ltac:(done)) Hfree). }
  assert (t_job_valid_sem (s_pool s) = O) as Hv.
  { pose proof (Hall _ _ Hw) as H. destruct w; try done. apply H. }
  split; [done|]. intros t th Ht. pose proof (Hall t th Ht) as H.
  destruct th as [pc|js r pc|pc]; [apply H| |exact H]. destruct H as [?|[_ Hf]]; [done|].
  exfalso. rewrite Hv, Hf in Hcells.
  assert (sum_of holds_cell (s_threads s) = 0 ∧ sum_of (posted n) (s_threads s) = 0) as [E1 E2]; [|lia].
  split; apply sum_zero; intros x [i Hi]%list_elem_of_lookup; pose proof (Hall i x Hi) as Hx;
    destruct x as [pcx|jsx rx pcx|pcx]; try done; [by destruct Hx as [-> _]| |by subst pcx].
  by destruct Hx as [->|[-> _]]; [|destruct jsx].
Qed.

(** ** The thread pool: runs

    Schedules for the examples of the theorems, and the interleavings in
    which a job is lost, an unwritten cell is read, and the freed ring is
    used. *)

Open Scope nat_scope.

Lemma run_schedule_rtc ts s s' :
  run_schedule ts s = Some (Done s') → rtc steps_to s s'.
Proof.
  revert s; induction ts as [|t ts IH]; intros s; cbn; [by intros [= ->]|].
  destruct (step t s) as [[s1| |]|] eqn:E; try done. intros H.
  eapply rtc_l; [by exists t|by apply IH].
Qed.

Definition final (ts : list nat) (s : state) : state :=
  match run_schedule ts s with Some (Done s') => s' | _ => s end.

Definition job (n : nat) : THREAD_POOL_JOB := Job (Val n) (Val (10 + n)).
(** The steps of one addition, and of one round of a worker. *)
Definition adds (t : nat) : list nat := replicate 8 t.
Definition round (t : nat) : list nat := replicate 16 t.

(** No worker and no client can move. *)
Definition stuck (s : state) : bool :=
  forallb (λ t, match s_threads s !! t with
                | None | Some (Destroyer _) => true
                | Some _ => match step t s with None => true | Some _ => false end
                end) (seq 0 (length (s_threads s))).

Lemma stuck_ok s : stuck s = true → ∀ t th,
  s_threads s !! t = Some th → (∀ pc, th ≠ Destroyer pc) → step t s = None.
Proof.
  intros H t th Ht Hd. pose proof (proj1 (List.forallb_forall _ _) H t) as E. cbn beta in E.
  rewrite Ht in E. destruct th as [| |pc]; [| |by destruct (Hd pc)];
    (destruct (step t s); [|done]); exfalso;
    assert (false = true) by (apply E, List.in_seq; apply lookup_lt_Some in Ht; lia); done.
Qed.

(** One worker, one client with one job: the job is run. *)
Definition small_start : state := start 1 [[job 1]].
Definition small_run : list nat := adds 1 ++ round 0 ++ replicate 3 0.
Definition small_end : state := final small_run small_start.

Lemma small_reached : rtc steps_to small_start small_end.
Proof. apply (run_schedule_rtc small_run). vm_compute. reflexivity. Qed.

Lemma thread_pool_counts_witness :
  (Z.of_nat (t_job_free_sem (s_pool small_end)) + Z.of_nat (t_job_valid_sem (s_pool small_end)) +
   sum_of holds_cell (s_threads small_end) = 1)%Z.
Proof.
  destruct (thread_pool_counts 1 [[job 1]] small_end ltac:(lia) small_reached) as [H _].
  rewrite H. vm_compute. reflexivity.
Defined.

Definition locked_state : state := final [0] small_start.

Lemma mutexes_exclude_witness : (0 : nat) = 0.
Proof.
  apply (mutexes_exclude 1 [[job 1]] locked_state pool_lock 0 0 (Worker (WSleep MBody)) (Worker (WSleep MBody))).
  - lia.
  - apply (run_schedule_rtc [0]). vm_compute. reflexivity.
  - vm_compute. reflexivity.
  - reflexivity.
  - vm_compute. reflexivity.
  - reflexivity.
Defined.

Lemma no_deadlock_witness :
  t_ran (s_pool small_end) = [(1, Val 11)] ∧ t_job_valid_sem (s_pool small_end) = 0.
Proof.
  split; [vm_compute; reflexivity|].
  refine (proj1 (no_deadlock 1 [[job 1]] small_end ltac:(lia) small_reached _ _)).
  - vm_compute. reflexivity.
  - apply stuck_ok. vm_compute. reflexivity.
Defined.

(** ** Runs that go wrong *)

(** The first worker is still inside its job when the second finishes: the
    slot that comes free is not the one [push_index] names. *)
Definition loss : list nat :=
  adds 2 ++ adds 2 ++ replicate 12 0 ++ round 1 ++ adds 2 ++
  replicate 4 0 ++ replicate 15 1 ++ replicate 3 0 ++ replicate 3 1.

(** Jobs can be lost.  With two workers and one client there is a run that
    ends with all three jobs accepted and every worker waiting, in which only
    the first two jobs were called: the third was written into a cell whose
    worker then cleared it. *)
Theorem job_can_be_lost :
  ∃ s, rtc steps_to (start 2 [[job 1; job 2; job 3]]) s ∧
    s_threads s !! 2 = Some (Client [] 0 CStart) ∧ stuck s = true ∧
    t_is_quit (s_pool s) = false ∧ t_ran (s_pool s) = [(1, Val 11); (2, Val 12)].
Proof.
  exists (final loss (start 2 [[job 1; job 2; job 3]])).
  split; [apply (run_schedule_rtc loss); vm_compute; reflexivity|].
  split_and!; vm_compute; reflexivity.
Qed.

(** The second client posts the cell the first has only taken. *)
Definition race : list nat := replicate 5 2 ++ adds 3 ++ replicate 10 0.
Definition early_free : list nat := replicate 4 1 ++ replicate 10 0.

(** With two clients a worker can read a cell that no client has written:
    the cells are posted in another order than they were taken. *)
Theorem unwritten_cell_is_read :
  ∃ s, rtc steps_to (start 2 [[job 1]; [job 2]]) s ∧ step 0 s = Some (Fault Uninitialised).
Proof.
  exists (final race (start 2 [[job 1]; [job 2]])).
  split; [apply (run_schedule_rtc race); vm_compute; reflexivity|]. vm_compute. reflexivity.
Qed.

(** Destroying the pool wakes the workers and frees the ring they then
    read. *)
Theorem destroy_frees_ring_in_use :
  ∃ s, rtc steps_to (start 1 []) s ∧ step 0 s = Some (Fault UseAfterFree).
Proof.
  exists (final early_free (start 1 [])).
  split; [apply (run_schedule_rtc early_free); vm_compute; reflexivity|]. vm_compute. reflexivity.
Qed.
