(* ===== verification/PsText.v ===== *)
(** * Text and numbers (portscan)

    What the scanner uses of the C library on strings: [strtok] with a single
    separator, [atoi], the search for a character and the formats [%d] and
    [%d.%d.%d.%d].  A [char *] argument is the text
    up to its NUL. *)

From S2P Require Import Prelude CString.
From stdpp Require Import strings.

Open Scope Z_scope.

Definition is_digit (c : Z) : bool := (48 <=? c) && (c <=? 57).
Definition is_space (c : Z) : bool := (c =? 32) || ((9 <=? c) && (c <=? 13)).

(** ** [atoi] *)

Fixpoint drop_spaces (s : list Z) : list Z :=
  match s with c :: s' => if is_space c then drop_spaces s' else s | [] => [] end.
Fixpoint digits_val (s : list Z) (acc : Z) : Z :=
  match s with
  | c :: s' => if is_digit c then digits_val s' (acc * 10 + (c - 48)) else acc
  | [] => acc
  end.
Definition signed_val (s : list Z) : Z :=
  match drop_spaces s with
  | c :: s' => if c =? 45 then - digits_val s' 0
               else if c =? 43 then digits_val s' 0 else digits_val (c :: s') 0
  | [] => 0
  end.
(** Undefined when the value is no [int]. *)
Definition atoi (s : list Z) : outcome Z := int_add (signed_val s) 0.

(** ** [strtok] *)

Fixpoint drop_seps (sep : Z) (s : list Z) : list Z :=
  match s with c :: s' => if c =? sep then drop_seps sep s' else s | [] => [] end.
(** The next token and what is left for the following call. *)
Definition strtok (sep : Z) (s : list Z) : option (list Z * list Z) :=
  match drop_seps sep s with
  | [] => None
  | s' => let n := span_len (λ c, negb (c =? sep)) s' in Some (take n s', drop (S n) s')
  end.
(** The text left in the buffer, whose separators behind the tokens are NULs
    after the calls: up to the end of the first token. *)
Definition strtok_left (sep : Z) (s : list Z) : list Z :=
  let n := span_len (λ c, c =? sep) s in
  take (n + span_len (λ c, negb (c =? sep)) (drop n s)) s.

(** ** Formats *)

Fixpoint dec_go (fuel : nat) (n : Z) (acc : list Z) : list Z :=
  match fuel with
  | O => acc
  | S f => let acc' := (48 + n mod 10) :: acc in
           if n <? 10 then acc' else dec_go f (n / 10) acc'
  end.
(** [%d] of an [int] that is not negative (ten digits at most). *)
Definition dec (n : Z) : list Z := dec_go 10 n [].
(** [%d] of any [int]. *)
Definition sdec (n : Z) : list Z := if n <? 0 then 45 :: dec (- n) else dec n.
Definition dotted (ip : list Z) : list Z :=
  match ip with
  | [a; b; c; d] => dec a ++ 46 :: dec b ++ 46 :: dec c ++ 46 :: dec d
  | _ => []
  end.

(** ** Lemmas *)

Lemma digits_val_dec_go f : ∀ n acc, 0 <= n < 10 ^ Z.of_nat f →
  digits_val (dec_go f n acc) 0 = digits_val acc n.
Proof.
  induction f as [|f IH]; intros n acc Hn.
  - change (10 ^ Z.of_nat 0) with 1 in Hn. replace n with 0 by lia. done.
  - cbn [dec_go]. pose proof (Z.mod_pos_bound n 10 ltac:(lia)) as Hm.
    assert (is_digit (48 + n mod 10) = true) as Hd.
    { unfold is_digit. rewrite (proj2 (Z.leb_le _ _)), (proj2 (Z.leb_le _ _)) by lia. done. }
    destruct (Z.ltb_spec n 10).
    + cbn [digits_val]. rewrite Hd. f_equal. rewrite Z.mod_small; lia.
    + rewrite IH.
      * cbn [digits_val]. rewrite Hd. f_equal. pose proof (Z.div_mod n 10). lia.
      * rewrite Nat2Z.inj_succ, Z.pow_succ_r in Hn by lia.
        split; [apply Z.div_pos; lia|apply Z.div_lt_upper_bound; lia].
Qed.

Lemma dec_go_app f : ∀ n acc, dec_go f n acc = dec_go f n [] ++ acc.
Proof.
  induction f as [|f IH]; intros n acc; [done|]. cbn [dec_go]. destruct (n <? 10); [done|].
  rewrite IH, (IH _ [_]), <- app_assoc. done.
Qed.

Lemma dec_go_digits f : ∀ n acc, 0 <= n → Forall (λ c, is_digit c = true) acc →
  Forall (λ c, is_digit c = true) (dec_go f n acc).
Proof.
  induction f as [|f IH]; intros n acc Hn Hacc; [done|]. cbn [dec_go].
  pose proof (Z.mod_pos_bound n 10 ltac:(lia)) as Hm.
  assert (Forall (λ c, is_digit c = true) (48 + n mod 10 :: acc)) as H.
  { constructor; [|done]. unfold is_digit. rewrite (proj2 (Z.leb_le _ _)), (proj2 (Z.leb_le _ _)) by lia. done. }
  destruct (n <? 10); [done|]. apply IH; [apply Z.div_pos; lia|done].
Qed.

Lemma dec_digits n : 0 <= n → Forall (λ c, is_digit c = true) (dec n).
Proof. intros H. by apply dec_go_digits. Qed.

Lemma dec_go_length f : ∀ n acc, (length (dec_go f n acc) ≤ f + length acc)%nat.
Proof.
  induction f as [|f IH]; intros n acc; cbn [dec_go]; [done|].
  destruct (n <? 10); [cbn; lia|]. etransitivity; [apply IH|cbn; lia].
Qed.
Lemma dec_length n : (length (dec n) ≤ 10)%nat.
Proof. unfold dec. etransitivity; [apply dec_go_length|done]. Qed.
Lemma dec_nonzero n : 0 <= n → nonzero (dec n).
Proof. intros H. eapply Forall_impl; [by apply dec_digits|]. intros c Hc. unfold is_digit in Hc. bool_to_prop. lia. Qed.
Lemma dec_not_nil n : dec n ≠ [].
Proof.
  change (dec n) with (if n <? 10 then [48 + n mod 10] else dec_go 9 (n / 10) [48 + n mod 10]).
  destruct (n <? 10); [done|]. rewrite dec_go_app. intros [_ [=]]%app_eq_nil.
Qed.

Lemma is_digit_range c : is_digit c = true ↔ 48 <= c <= 57.
Proof. unfold is_digit. rewrite andb_true_iff, !Z.leb_le. done. Qed.

(** [atoi] reads back what [%d] wrote, up to the first other character. *)
Lemma atoi_dec n r :
  0 <= n <= int_max → match r with c :: _ => is_digit c = false | [] => True end →
  atoi (dec n ++ r) = Done n.
Proof.
  intros Hn Hr. unfold atoi, signed_val. change int_max with 2147483647 in Hn.
  pose proof (dec_digits n ltac:(lia)) as Hd.
  assert (digits_val (dec n ++ r) 0 = n) as Hv.
  { unfold dec. rewrite <- dec_go_app, digits_val_dec_go by (cbn; lia).
    destruct r as [|c r]; [done|]. cbn. by rewrite Hr. }
  destruct (dec n) as [|c l] eqn:E; [by apply dec_not_nil in E|].
  pose proof (proj1 (is_digit_range c) (Forall_inv Hd)) as Hc. cbn [app drop_spaces] in *. unfold is_space.
  rewrite (proj2 (Z.eqb_neq c 32)), (proj2 (Z.leb_le 9 c)), (proj2 (Z.leb_gt c 13)) by lia. cbn [orb andb].
  rewrite (proj2 (Z.eqb_neq c 45)), (proj2 (Z.eqb_neq c 43)), Hv by lia.
  rewrite int_add_ok, Z.add_0_r; [done|]. change int_max with 2147483647. change int_min with (-2147483648). lia.
Qed.

Lemma drop_seps_stop sep c s : c ≠ sep → drop_seps sep (c :: s) = c :: s.
Proof. intros H. cbn. by rewrite (proj2 (Z.eqb_neq c sep)). Qed.

(** A token in front of a separator, and a last one. *)
Lemma strtok_sep sep t r : t ≠ [] → sep ∉ t → strtok sep (t ++ sep :: r) = Some (t, r).
Proof.
  intros Hne Hni. destruct t as [|c t]; [done|]. unfold strtok. cbn [app].
  rewrite drop_seps_stop by (intros ->; apply Hni; left).
  change (c :: t ++ sep :: r) with ((c :: t) ++ sep :: r).
  rewrite span_len_stop; [| |by rewrite Z.eqb_refl].
  - rewrite take_app_length, (drop_app_ge (c :: t)) by lia.
    rewrite Nat.sub_succ_l, Nat.sub_diag by lia. done.
  - apply Forall_forall. intros x Hx. apply negb_true_iff, Z.eqb_neq. congruence.
Qed.

Lemma strtok_last sep t : t ≠ [] → sep ∉ t → strtok sep t = Some (t, []).
Proof.
  intros Hne Hni. destruct t as [|c t]; [done|]. unfold strtok.
  rewrite drop_seps_stop by (intros ->; apply Hni; left).
  assert (span_len (λ x, negb (x =? sep)) (c :: t) = length (c :: t)) as ->.
  { revert Hni. generalize (c :: t). intros l. induction l as [|x l IH]; intros Hni; [done|].
    cbn. rewrite not_elem_of_cons in Hni. destruct Hni as [H1 H2].
    rewrite (proj2 (Z.eqb_neq x sep)) by done. cbn. by rewrite IH. }
  rewrite take_ge, drop_ge by lia. done.
Qed.

Lemma strtok_nil sep : strtok sep [] = None.
Proof. done. Qed.

(** What is left is shorter, so the loops over tokens end. *)
Lemma strtok_shorter sep s t r : strtok sep s = Some (t, r) → (length r < length s)%nat.
Proof.
  unfold strtok. assert (length (drop_seps sep s) ≤ length s)%nat as Hl.
  { induction s as [|c s IH]; cbn; [lia|]. destruct (c =? sep); cbn; lia. }
  destruct (drop_seps sep s) as [|c s'] eqn:E; [done|]. intros [= <- <-].
  rewrite length_drop. cbn [length] in *. lia.
Qed.
