(* ===== verification/FrameTool.v ===== *)
(** * Tools (module_function/frame_tool.c)

    The string scans, the copy of a file, the listing of a folder, the lock
    file and the small queries of the system.  A [char *] parameter is the
    bytes readable from it, a returned one an offset in them; what the system
    answers ([open], [flock], [stat], [getpwuid], [opendir]) is an argument. *)

From S2P Require Import Prelude CString FileSys PsText.
From stdpp Require Import gmap strings.

Open Scope Z_scope.

(** ** The lock file (lines 8-37) *)

(** [flock] returned [rc] with [errno] equal to [EWOULDBLOCK] or not; the new
    value of [mutex_filelock] and the result. *)
Definition lock_mutex_file (fd rc : Z) (would_block : bool) : Z * Z :=
  if negb (rc =? 0) && would_block then (fd, rc) else (fd, 0).

(** The new value of [mutex_filelock], and the descriptor unlocked and closed. *)
Definition release_mutex_file (mutex_filelock : Z) : Z * option Z :=
  if 0 <? mutex_filelock then (0, Some mutex_filelock) else (mutex_filelock, None).

(** ** Queries of the system (lines 39-71) *)

(** The bytes of an [int] in memory, lowest address first. *)
Definition int_bytes (little : bool) (a : Z) : list Z :=
  let le := [a mod 256; a / 256 mod 256; a / 65536 mod 256; a / 16777216 mod 256] in
  if little then le else rev le.
Definition cpu_isbig_endian (little : bool) : outcome Z :=
  b ← rd (int_bytes little 1) 0; mret (if b =? 1 then 0 else 1).

(** [(int)st_size] *)
Definition to_int (z : Z) : Z := (z + 2 ^ 31) mod 2 ^ 32 - 2 ^ 31.
(** [None]: [stat] failed. *)
Definition get_local_file_size (st_size : option Z) : Z :=
  match st_size with
  | None => 0
  | Some n => if to_int n <=? 0 then 0 else to_int n
  end.

(** ** Strings (lines 73-231) *)

Definition frame_end_charstr (buff : option (list Z)) : outcome nat :=
  match buff with None => Fault NullDeref | Some b => str_scan_len b end.

Definition frame_strlen (str : option (list Z)) : outcome Z :=
  match str with
  | None => Done 0
  | Some b => n ← str_scan_len b; mret (Z.of_nat n)
  end.

(** The loop: a sign counts only as the first byte. *)
Fixpoint isall_digital_loop (s : list Z) (flag : Z) : outcome Z :=
  match s with
  | [] => Fault OutOfBounds
  | c :: s' =>
      if c =? 0 then Done flag
      else if (c =? 43) || (c =? 45) then
        if flag =? 0 then
          match s' with
          | [] => Fault OutOfBounds
          | d :: s'' => if is_digit d then isall_digital_loop s'' (flag + 1 + 1) else Done 0
          end
        else Done 0
      else if is_digit c then isall_digital_loop s' (flag + 1) else Done 0
  end.
Definition framestr_isall_digital (str : option (list Z)) : outcome Z :=
  match str with None => Fault NullDeref | Some b => isall_digital_loop b 0 end.

Definition framestr_frist_constchar (str : option (list Z)) (c : Z) : outcome (option nat) :=
  match str with None => Done None | Some b => str_scan_chr b c 0 end.

Definition framestr_start_digital_char (dig_str : option (list Z)) : outcome (option nat) :=
  match dig_str with
  | None => Done None
  | Some b => n ← skip_fwd (λ c, negb (c =? 0) && negb (is_digit c)) b 0; mret (Some n)
  end.

Definition framestr_end_digital_char (dig_str : option (list Z)) : outcome (option nat) :=
  match dig_str with
  | None => Done None
  | Some b => n ← skip_fwd (λ c, negb (c =? 0) && is_digit c) b 0; mret (Some n)
  end.

(** From the end down to the first byte. *)
Fixpoint last_char_from (b : list Z) (c : Z) (p : nat) : outcome (option nat) :=
  x ← rd b p;
  if x =? c then mret (Some p)
  else match p with O => mret None | S p' => last_char_from b c p' end.
Definition framestr_last_constchar (str : option (list Z)) (c : Z) : outcome (option nat) :=
  match str with
  | None => Done None
  | Some b => e ← frame_end_charstr (Some b); last_char_from b c e
  end.

(** The [for] loop: how many of the first [n] bytes agree. *)
Fixpoint agree_loop (n : nat) (p q : list Z) : outcome nat :=
  match n with
  | O => Done O
  | S n' => x ← rd p 0; y ← rd q 0;
            if x =? y then k ← agree_loop n' (drop 1 p) (drop 1 q); mret (S k) else Done O
  end.

(** The [do] loop on the rest of [str] from the offset [p]. *)
Fixpoint first_str_loop (fuel : nat) (s tar : list Z) (tar_fri : Z) (q_len : nat) (p : nat)
  : outcome (option nat) :=
  f ← str_scan_chr s tar_fri 0;
  match f with
  | None => mret None
  | Some d =>
      let s' := drop d s in
      p_len ← str_scan_len s';
      if (p_len <? q_len)%nat then mret None
      else
        i ← agree_loop q_len s' tar;
        if (i =? q_len)%nat then mret (Some (p + d)%nat)
        else match fuel with
             | O => NoFuel
             | S fuel' => first_str_loop fuel' (drop 1 s') tar tar_fri q_len (p + d + 1)
             end
  end.

(** [*tar] is read before [str] is checked. *)
Definition framestr_first_conststr (str tar : option (list Z)) : outcome (option nat) :=
  match tar with
  | None => Fault NullDeref
  | Some t =>
      tar_fri ← rd t 0;
      match str with
      | None => mret None
      | Some s =>
          p_len ← frame_strlen (Some s);
          q_len ← frame_strlen (Some t);
          if p_len <? q_len then mret None
          else first_str_loop (Z.to_nat p_len) s t tar_fri (Z.to_nat q_len) 0
      end
  end.

(** [name] after the call and whether it is returned; [pw_name] is what
    [getpwuid] gives. *)
Definition current_user_name (pw_name : option (list Z)) (name : list Z) (len : Z)
  : outcome (list Z * bool) :=
  match pw_name with
  | None => Fault NullDeref
  | Some pw =>
      name_len ← frame_strlen (Some pw);
      if len <=? name_len then mret (name, false)
      else s ← c_str pw; b ← mem_write name 0 (s ++ [0]); mret (b, true)
  end.

(** ** Copying a file (lines 305-344) *)

Definition COPY_BUF : nat := 1024.

(** [fread] and [fwrite] of at most 1024 bytes until [fread] gives none. *)
Fixpoint copy_loop (fuel : nat) (rest out : list Z) : outcome (list Z) :=
  match take COPY_BUF rest with
  | [] => Done out
  | chunk => match fuel with
             | O => NoFuel
             | S f => copy_loop f (drop COPY_BUF rest) (out ++ chunk)
             end
  end.

(** Opening the target (["wab"]: created or truncated) comes after opening
    the source, whose bytes are read afterwards. *)
Definition copy_file_to_targetfile (src_file dest_file : fname) (fs : filesystem)
  : outcome filesystem :=
  match fs_files fs !! src_file with
  | None => Done fs
  | Some _ =>
      match fopen_r fs src_file with
      | None => Done fs
      | Some _ =>
          match fopen_w fs dest_file with
          | None => Done fs
          | Some fs' =>
              let content := default [] (fs_files fs' !! src_file) in
              out ← copy_loop (length content) content [];
              mret (fclose_w fs' dest_file out)
          end
      end
  end.

(** ** Listing a folder (lines 346-390) *)

Definition MAC_FULL_PATH_LEN : nat := 1024.

Inductive dir_kind := DIR_ENTRY | OTHER_ENTRY.

(** The buffer [folder_path]: the path with a slash at its end. *)
Definition folder_path (dir_path : list Z) : outcome (list Z) :=
  len ← str_scan_len dir_path;
  s ← mem_read dir_path (Z.of_nat len);
  b ← mem_write (replicate MAC_FULL_PATH_LEN 0) 0 s;
  match len with
  | O => Fault OutOfBounds
  | S l => c ← rd b l; if c =? 47 then mret b else mem_write b len [47]
  end.

(** What is printed for an entry: its name, and for files the size, looked up
    under the path and the name put together, unless they are too long. *)
Definition list_entry (dir_path : list Z) (stat : list Z → option Z) (e : dir_kind * list Z)
  : list Z * option Z :=
  match e.1 with
  | DIR_ENTRY => (e.2, None)
  | OTHER_ENTRY =>
      let full := dir_path ++ e.2 in
      (e.2, if (length full <? MAC_FULL_PATH_LEN)%nat then Some (get_local_file_size (stat full))
            else None)
  end.

(** [opendir] gives the entries, or NULL, on which [readdir] is undefined. *)
Definition foreach_filedir_under_folder (dir_path : option (list Z))
    (opendir : list Z → option (list (dir_kind * list Z))) (stat : list Z → option Z)
  : outcome (list (list Z * option Z)) :=
  match dir_path with
  | None => Done []
  | Some d =>
      len ← frame_strlen (Some d);
      if Z.of_nat MAC_FULL_PATH_LEN - 1 <=? len then mret []
      else
        b ← folder_path d;
        folder ← c_str b;
        path ← c_str d;
        match opendir folder with
        | None => Fault NullDeref
        | Some es => mret (list_entry path stat <$> es)
        end
  end.

(** ** Tools: what the string scans and the copy compute *)

(** ** Numbers *)

(** An optional sign and at least one digit. *)
Definition is_integer (s : list Z) : bool :=
  match s with
  | [] => false
  | c :: ds => if (c =? 43) || (c =? 45) then negb (bool_decide (ds = [])) && forallb is_digit ds
               else forallb is_digit s
  end.

Lemma isall_loop_digits b s flag :
  c_str b = Done s → 0 < flag →
  isall_digital_loop b flag =
    Done (if forallb is_digit s then flag + Z.of_nat (length s) else 0).
Proof.
  intros H Hf. apply c_str_inv in H as (r & -> & Hnz). revert flag Hf.
  induction Hnz as [|c s Hc Hnz IH]; intros flag Hf; cbn [app isall_digital_loop forallb length].
  - f_equal. cbn. lia.
  - rewrite (proj2 (Z.eqb_neq c 0) Hc). destruct ((c =? 43) || (c =? 45)) eqn:Es.
    + rewrite (proj2 (Z.eqb_neq flag 0)) by lia.
      assert (is_digit c = false) as ->; [|done]. unfold is_digit.
      apply orb_prop in Es as [E|E]; apply Z.eqb_eq in E as ->; done.
    + destruct (is_digit c); [|done]. rewrite IH by lia. cbn [andb].
      destruct (forallb is_digit s); [f_equal; lia|done].
Qed.

(** [framestr_isall_digital] returns the length of a string that is a
    decimal integer with an optional sign, and 0 for every other string. *)
Theorem framestr_isall_digital_spec b s :
  c_str b = Done s →
  framestr_isall_digital (Some b) = Done (if is_integer s then Z.of_nat (length s) else 0).
Proof.
  intros H. apply c_str_inv in H as (r & -> & Hnz). unfold framestr_isall_digital.
  destruct Hnz as [|c s Hc Hnz]; [done|]. cbn [app isall_digital_loop is_integer].
  rewrite (proj2 (Z.eqb_neq c 0) Hc). destruct ((c =? 43) || (c =? 45)); cbn [Z.eqb].
  - destruct Hnz as [|d s Hd Hnz]; [done|]. cbn [app forallb]. rewrite bool_decide_eq_false_2 by done.
    cbn [negb andb]. destruct (is_digit d); [|done].
    rewrite (isall_loop_digits _ s) by (done || by apply c_str_app). cbn [andb].
    destruct (forallb is_digit s); [f_equal; cbn [length]; lia|done].
  - cbn [forallb]. destruct (is_digit c); [|done].
    rewrite (isall_loop_digits _ s) by (done || by apply c_str_app). cbn [andb].
    destruct (forallb is_digit s); [f_equal; cbn [length]; lia|done].
Qed.

Lemma framestr_isall_digital_witness :
  framestr_isall_digital (Some (c_lit "-42")) = Done 3.
Proof.
  rewrite (framestr_isall_digital_spec _ (bytes "-42")); [reflexivity|].
  apply c_str_lit, (bool_decide_unpack _). vm_compute. reflexivity.
Defined.

(** ** Substrings *)

(** The first position at which [t] occurs in [s]. *)
Fixpoint find_sub (t s : list Z) : option nat :=
  if bool_decide (take (length t) s = t) then Some O
  else match s with [] => None | _ :: s' => S <$> find_sub t s' end.

Lemma find_sub_spec t s i :
  find_sub t s = Some i → take (length t) (drop i s) = t ∧
  ∀ j, (j < i)%nat → take (length t) (drop j s) ≠ t.
Proof.
  revert i; induction s as [|x s IH]; intros i; cbn [find_sub].
  - case_bool_decide as E; [|done]. intros [= <-]. split; [done|lia].
  - case_bool_decide as E; [intros [= <-]; split; [done|lia]|].
    intros (k & Hk & ->)%fmap_Some. destruct (IH k Hk) as [H1 H2]. split; [done|].
    intros [|j] Hj; [done|]. apply H2. lia.
Qed.

Lemma agree_loop_spec : ∀ t s r q,
  (length t ≤ length s)%nat → ∃ i, agree_loop (length t) (s ++ r) (t ++ q) = Done i ∧
    (i =? length t)%nat = bool_decide (take (length t) s = t).
Proof.
  induction t as [|y t IH]; intros s r q Hlen; [exists O; split; [done|]|].
  - by rewrite bool_decide_eq_true_2.
  - destruct s as [|x s]; [cbn in Hlen; lia|]. cbn [length agree_loop app].
    unfold rd. cbn [lookup list_lookup mbind outcome_bind]. destruct (Z.eqb_spec x y) as [->|Hne].
    + cbn [drop]. rewrite (drop_0 (s ++ r)), (drop_0 (t ++ q)).
      destruct (IH s r q ltac:(cbn in Hlen; lia)) as (i & E & Ei).
      exists (S i). rewrite E. split; [done|]. cbn [Nat.eqb]. rewrite Ei.
      apply bool_decide_ext. cbn [take]. split; [by intros ->|by intros [= ->]].
    + exists O. split; [done|]. rewrite bool_decide_eq_false_2; [done|]. cbn. congruence.
Qed.

(** Positions before the first [c] hold no occurrence of a string that starts
    with [c]. *)
Lemma find_sub_skip c t s d :
  index_of c s = Some d → find_sub (c :: t) s = (λ i, d + i)%nat <$> find_sub (c :: t) (drop d s).
Proof.
  revert d; induction s as [|x s IH]; intros d; [done|]. cbn [index_of].
  destruct (Z.eqb_spec x c) as [->|Hne].
  - intros [= <-]. rewrite drop_0. generalize (find_sub (c :: t) (c :: s)). by intros [].
  - intros (k & Hk & ->)%fmap_Some. cbn [find_sub drop].
    rewrite bool_decide_eq_false_2 by (cbn; intros [= ? ?]; done). rewrite (IH k Hk).
    by destruct (find_sub (c :: t) (drop k s)).
Qed.

Lemma find_sub_fresh c t u w : c ∉ u → find_sub (c :: t) (u ++ (c :: t) ++ w) = Some (length u).
Proof.
  intros Hu. rewrite (find_sub_skip c t _ (length u)) by by apply index_of_fresh.
  rewrite drop_app_length. cbn [app find_sub]. cbn [length take]. rewrite take_app_length.
  rewrite bool_decide_eq_true_2 by done. cbn. f_equal. lia.
Qed.

(** Where a string occurs at all. *)
Lemma find_sub_None t s : find_sub t s = None ↔ ∀ i, take (length t) (drop i s) ≠ t.
Proof.
  induction s as [|x s IH]; cbn [find_sub]; case_bool_decide as E.
  - split; [done|]. intros Hall. by destruct (Hall O).
  - split; [intros _ i; by rewrite drop_nil|done].
  - split; [done|]. intros Hall. by destruct (Hall O).
  - rewrite fmap_None, IH. split; [|intros Hall i; apply (Hall (S i))]. intros Hall [|i]; [done|apply (Hall i)].
Qed.

Lemma find_sub_none_infix t a b c : t ≠ [] → find_sub t (a ++ b ++ c) = None → find_sub t b = None.
Proof.
  rewrite !find_sub_None. intros Hne Hall i E. assert (length t ≤ length b - i)%nat as Hl.
  { rewrite <- E at 1. rewrite length_take, length_drop. lia. }
  assert (i ≤ length b)%nat as Hi by (destruct t; [done|cbn in Hl; lia]).
  apply (Hall (length a + i)%nat). rewrite <- drop_drop, drop_app_length, drop_app_le by done.
  by rewrite take_app_le by (rewrite length_drop; lia).
Qed.

(** The first occurrence stays when the text goes on. *)
Lemma find_sub_app_some t v : ∀ s i, find_sub t s = Some i → find_sub t (s ++ v) = Some i.
Proof.
  induction s as [|x s IH]; intros i.
  - cbn [find_sub]. case_bool_decide as E; [|done]. rewrite take_nil in E. subst t. intros [= <-].
    by destruct v.
  - intros H. pose proof (find_sub_spec _ _ _ H) as [Ht _]. cbn [app find_sub] in *.
    assert (length t ≤ length (x :: s))%nat as Hl by (rewrite <- Ht, length_take, length_drop; lia).
    rewrite app_comm_cons, take_app_le by done. case_bool_decide; [done|].
    apply fmap_Some in H as (k & Hk & ->). by rewrite (IH _ Hk).
Qed.

Lemma find_sub_none c t s : index_of c s = None → find_sub (c :: t) s = None.
Proof.
  induction s as [|x s IH]; [done|]. cbn [index_of]. destruct (Z.eqb_spec x c) as [->|Hne]; [done|].
  intros H%fmap_None. cbn [find_sub]. rewrite bool_decide_eq_false_2 by (cbn; intros [= ? ?]; done).
  by rewrite IH.
Qed.

Lemma find_sub_long t s : (length s < length t)%nat → find_sub t s = None.
Proof.
  induction s as [|x s IH]; intros Hlen; cbn [find_sub].
  - case_bool_decide as E; [|done]. rewrite take_nil in E. subst t. cbn in Hlen. lia.
  - case_bool_decide as E; [|by rewrite IH by (cbn in Hlen; lia)].
    apply (f_equal length) in E. rewrite length_take in E. lia.
Qed.

Lemma first_str_loop_spec c t q : c ≠ 0 → ∀ fuel s r p,
  nonzero s → (length s ≤ fuel)%nat →
  first_str_loop fuel (s ++ 0 :: r) ((c :: t) ++ 0 :: q) c (length (c :: t)) p =
  Done ((λ i, p + i)%nat <$> find_sub (c :: t) s).
Proof.
  intros Hc. induction fuel as [|fuel IH]; intros s r p Hnz Hlen;
    pose proof (c_str_app s r Hnz) as Hs; cbn [first_str_loop];
    rewrite (str_scan_chr_spec _ _ c 0 Hs);
    (destruct (index_of c s) as [d|] eqn:Ed; cbn [fmap option_fmap option_map mbind outcome_bind];
      [|by rewrite (find_sub_none c t s Ed)]).
  { destruct s; [done|cbn in Hlen; lia]. }
  pose proof (index_of_lt _ _ _ Ed) as Hd. cbn [Nat.add].
  rewrite (find_sub_skip c t s d Ed), drop_app_le by lia.
  pose proof (str_scan_len_spec _ _ (c_str_drop _ _ d Hs ltac:(lia))) as Hl.
  rewrite drop_app_le in Hl by lia. rewrite Hl. cbn [mbind outcome_bind].
  set (s' := drop d s) in *.
  destruct (Nat.ltb_spec (length s') (length (c :: t))) as [Hlt|Hge].
  { rewrite find_sub_long by done. done. }
  destruct (agree_loop_spec (c :: t) s' (0 :: r) (0 :: q) Hge) as (i & Hi & Ei).
  rewrite Hi. cbn [mbind outcome_bind]. rewrite Ei.
  assert (s' = c :: drop 1 s') as Es'.
  { apply index_of_Some in Ed as [Ed _]. unfold s'. rewrite (drop_S s c d Ed). done. }
  case_bool_decide as Eq.
  { rewrite Es' in Eq |- *. cbn [find_sub]. rewrite bool_decide_eq_true_2 by done. cbn. do 2 f_equal. lia. }
  assert (drop 1 (s' ++ 0 :: r) = drop 1 s' ++ 0 :: r) as -> by (rewrite Es'; done).
  rewrite IH.
  - rewrite Es' at 2. rewrite Es' in Eq. cbn [find_sub]. rewrite bool_decide_eq_false_2 by done.
    destruct (find_sub (c :: t) (drop 1 s')); cbn; do 2 f_equal; lia.
  - unfold s'. by do 2 apply Forall_drop.
  - unfold s'. rewrite !length_drop. lia.
Qed.

Lemma first_conststr_find bs bt s t :
  c_str bs = Done s → c_str bt = Done t → t ≠ [] →
  framestr_first_conststr (Some bs) (Some bt) = Done (find_sub t s).
Proof.
  intros Hs Ht Hne. apply c_str_inv in Hs as (r & -> & Hnz).
  apply c_str_inv in Ht as (q & -> & Hnt). destruct t as [|c t]; [done|].
  pose proof (Forall_inv Hnt) as Hc. cbn beta in Hc. unfold framestr_first_conststr, frame_strlen.
  rewrite (str_scan_len_spec _ _ (c_str_app s r Hnz)).
  rewrite (str_scan_len_spec _ _ (c_str_app (c :: t) q Hnt)).
  unfold rd. cbn [app lookup list_lookup mbind outcome_bind mret outcome_ret].
  destruct (Z.ltb_spec (Z.of_nat (length s)) (Z.of_nat (length (c :: t)))) as [Hlt|Hge].
  { rewrite find_sub_long by lia. done. }
  rewrite !Nat2Z.id. change (c :: t ++ 0 :: q) with ((c :: t) ++ 0 :: q).
  rewrite (first_str_loop_spec c t q Hc (length s) s r 0 Hnz ltac:(lia)).
  by destruct (find_sub (c :: t) s).
Qed.

(** [framestr_first_conststr] returns the first occurrence of a string
    that is not empty, NULL when there is none; its loop ends. *)
Theorem framestr_first_conststr_spec bs bt s t :
  c_str bs = Done s → c_str bt = Done t → t ≠ [] →
  framestr_first_conststr (Some bs) (Some bt) = Done (find_sub t s).
Proof. apply first_conststr_find. Qed.

Lemma framestr_first_conststr_witness :
  framestr_first_conststr (Some (c_lit "aababc")) (Some (c_lit "abc")) = Done (Some 3%nat).
Proof.
  rewrite (framestr_first_conststr_spec _ _ (bytes "aababc") (bytes "abc"));
    [reflexivity| | |discriminate];
    apply c_str_lit, (bool_decide_unpack _); vm_compute; reflexivity.
Defined.

(** Unlike [strstr] it finds no empty string. *)
Lemma first_conststr_empty bs s q : c_str bs = Done s →
  framestr_first_conststr (Some bs) (Some (0 :: q)) = Done None.
Proof.
  intros Hs. unfold framestr_first_conststr, frame_strlen.
  rewrite (str_scan_len_spec _ _ Hs). cbn [rd lookup list_lookup mbind outcome_bind str_scan_len mret outcome_ret].
  unfold rd. cbn. rewrite (proj2 (Z.ltb_ge _ _)) by lia.
  destruct (Z.to_nat (Z.of_nat (length s))); cbn [first_str_loop];
    rewrite (str_scan_chr_spec _ _ 0 0 Hs);
    (rewrite (proj2 (index_of_None 0 s)); [done|]);
    intros Hin; apply c_str_nonzero in Hs; by eapply (Forall_forall _ s) in Hs; [|exact Hin].
Qed.

(** ** Single bytes *)

(** The last position of [c]. *)
Definition last_index (c : Z) (s : list Z) : option nat :=
  (λ i, length s - 1 - i)%nat <$> index_of c (rev s).

Lemma last_char_from_spec c s r : ∀ p, (p < length s)%nat →
  last_char_from (s ++ r) c p = Done (last_index c (take (S p) s)).
Proof.
  induction p as [|p IH]; intros Hp; cbn [last_char_from];
    (destruct (lookup_lt_is_Some_2 s _ Hp) as [x Hx];
     rewrite (bind_done _ _ x) by (apply rd_ok; by rewrite lookup_app_l)).
  - rewrite (take_S_r s 0 x Hx). change (take 0 s ++ [x]) with [x]. unfold last_index. cbn. by destruct (x =? c).
  - rewrite (take_S_r s (S p) x Hx). unfold last_index. rewrite rev_app_distr, length_app. cbn [rev app index_of length].
    destruct (x =? c); cbn.
    + rewrite length_take. do 2 f_equal. lia.
    + rewrite IH by lia. unfold last_index. rewrite length_take.
      destruct (index_of c (rev (take (S p) s))); cbn; [do 2 f_equal; lia|done].
Qed.

Lemma framestr_last_constchar_spec b s c :
  c_str b = Done s → c ≠ 0 → framestr_last_constchar (Some b) c = Done (last_index c s).
Proof.
  intros H Hc. apply c_str_inv in H as (r & -> & Hnz). unfold framestr_last_constchar, frame_end_charstr.
  rewrite (bind_done _ _ _ (str_scan_len_spec _ _ (c_str_app s r Hnz))).
  destruct s as [|x s] using rev_ind.
  { change ((if 0 =? c then mret (Some O) else mret None) = Done (A := option nat) None).
    by rewrite (proj2 (Z.eqb_neq 0 c)). }
  rewrite length_app, Nat.add_comm. cbn [length Nat.add last_char_from].
  rewrite (bind_done _ _ 0).
  2:{ apply rd_ok. rewrite lookup_app_r by (rewrite length_app; cbn; lia).
      rewrite length_app. cbn. by rewrite Nat.add_1_r, Nat.sub_diag. }
  cbn beta. rewrite (proj2 (Z.eqb_neq 0 c)) by done.
  rewrite last_char_from_spec by (rewrite length_app; cbn; lia).
  rewrite take_ge by (rewrite length_app; cbn; lia). done.
Qed.

(** Digits from a position on. *)
Lemma framestr_digit_scans b s :
  c_str b = Done s →
  framestr_start_digital_char (Some b) = Done (Some (span_len (λ c, negb (is_digit c)) s)) ∧
  framestr_end_digital_char (Some b) = Done (Some (span_len is_digit s)).
Proof.
  intros H. pose proof (c_str_nonzero _ _ H) as Hnz.
  assert (∀ f, span_len (λ c, negb (c =? 0) && f c) s = span_len f s) as E.
  { intros f. clear H. induction Hnz as [|c s Hc Hnz IH]; [done|]. cbn.
    rewrite (proj2 (Z.eqb_neq c 0) Hc), IH. done. }
  unfold framestr_start_digital_char, framestr_end_digital_char.
  rewrite !(skip_fwd_spec _ _ s) by done. cbn [mbind outcome_bind Nat.add]. by rewrite !E.
Qed.

(** ** Buffers and files *)

(** [current_user_name] returns the name when it fits with its NUL, and
    otherwise leaves the buffer alone; it never writes past [len] bytes. *)
Theorem current_user_name_bounds pw s name len :
  c_str pw = Done s → len ≤ Z.of_nat (length name) →
  (Z.of_nat (length s) < len → ∃ b, current_user_name (Some pw) name len = Done (b, true) ∧
     c_str b = Done s ∧ length b = length name ∧ drop (Z.to_nat len) b = drop (Z.to_nat len) name) ∧
  (len ≤ Z.of_nat (length s) → current_user_name (Some pw) name len = Done (name, false)).
Proof.
  intros Hs Hlen. unfold current_user_name, frame_strlen.
  rewrite (str_scan_len_spec _ _ Hs). cbn [mbind outcome_bind mret outcome_ret]. split; intros H.
  - rewrite (proj2 (Z.leb_gt _ _)) by lia. rewrite Hs. cbn [mbind outcome_bind].
    rewrite mem_write_ok by (rewrite length_app; cbn; lia). eexists. split; [done|].
    split; [|split].
    + unfold splice. cbn [take app]. rewrite <- app_assoc. cbn [app].
      apply c_str_app. by eapply c_str_nonzero.
    + apply length_splice. rewrite length_app. cbn. lia.
    + apply drop_splice_ge; [lia|]. rewrite length_app. cbn. lia.
  - by rewrite (proj2 (Z.leb_le _ _)).
Qed.

Lemma current_user_name_witness : ∃ b,
  current_user_name (Some (c_lit "root")) (replicate 8 1) 5 = Done (b, true) ∧
  c_str b = Done (bytes "root").
Proof.
  destruct (current_user_name_bounds (c_lit "root") (bytes "root") (replicate 8 1) 5) as [H _].
  - reflexivity.
  - cbn. lia.
  - destruct H as (b & E & Hb & _); [cbn; lia|]. by exists b.
Defined.

Lemma copy_loop_spec : ∀ fuel rest out,
  (length rest ≤ fuel)%nat → copy_loop fuel rest out = Done (out ++ rest).
Proof.
  induction fuel as [|fuel IH]; intros [|c rest] out Hlen; try (cbn in Hlen; lia);
    try (cbn; by rewrite app_nil_r).
  cbn [copy_loop]. unfold COPY_BUF. cbn [take drop].
  rewrite IH by (rewrite length_drop; cbn in Hlen; lia).
  rewrite <- app_assoc. cbn [app]. by rewrite take_drop.
Qed.

(** [copy_file_to_targetfile] gives the target the bytes of the source,
    creating or replacing it, and changes no other file; it does nothing when
    the source cannot be read or the target not written.  Copying a file onto
    itself empties it. *)
Theorem copy_file_to_targetfile_copies src dst fs :
  copy_file_to_targetfile src dst fs =
  Done (match fopen_r fs src with
        | Some c =>
            if fs_write_ok fs dst then
              fs_set_files (<[dst := if decide (src = dst) then [] else c]> (fs_files fs)) fs
            else fs
        | None => fs
        end).
Proof.
  unfold copy_file_to_targetfile, fopen_r, fopen_w, fname in *.
  destruct (fs_files fs !! src) as [c|] eqn:E; [|by destruct (fs_read_ok fs src)].
  destruct (fs_read_ok fs src); [|done]. destruct (fs_write_ok fs dst); [|done].
  cbn [fs_files fs_set_files].
  assert (default [] (<[dst:=[]]> (fs_files fs) !! src) = if decide (src = dst) then [] else c) as ->.
  { case_decide as Hd; [subst; by rewrite lookup_insert_eq|].
    rewrite lookup_insert_ne by congruence. by rewrite E. }
  rewrite copy_loop_spec by done. cbn. unfold fclose_w, fs_set_files. cbn. by rewrite insert_insert_eq.
Qed.

(** The size is right below 2^31, and wrong for the files above. *)
Lemma get_local_file_size_small n : 0 <= n < 2 ^ 31 → get_local_file_size (Some n) = n.
Proof.
  intros H. unfold get_local_file_size, to_int. rewrite Z.mod_small by lia.
  destruct (Z.leb_spec (n + 2 ^ 31 - 2 ^ 31) 0); lia.
Qed.
Lemma get_local_file_size_wraps :
  get_local_file_size (Some (2 ^ 31)) = 0 ∧ get_local_file_size (Some (2 ^ 32 + 5)) = 5.
Proof. split; reflexivity. Qed.

(** An empty path: the byte before the buffer is read. *)
Lemma empty_folder_reads_before opendir stat :
  foreach_filedir_under_folder (Some (c_lit "")) opendir stat = Fault OutOfBounds.
Proof. reflexivity. Qed.

(** A lock file that cannot be opened is reported as locked. *)
Lemma lock_without_file : lock_mutex_file (-1) (-1) false = (-1, 0).
Proof. reflexivity. Qed.
