(* ===== verification/PsBytes.v ===== *)
(** * Bytes of integers (portscan)

    Integers as the scanner copies them between byte arrays and variables
    ([memcpy], [htobe32], the fields of packet headers), with the bitwise
    operations taken byte by byte. *)

From S2P Require Import Prelude.
From stdpp Require Import list.

Open Scope Z_scope.

Fixpoint le_val (bs : list Z) : Z :=
  match bs with [] => 0 | b :: bs' => b + 256 * le_val bs' end.
Fixpoint le_bytes (n : nat) (z : Z) : list Z :=
  match n with O => [] | S n' => z mod 256 :: le_bytes n' (z / 256) end.
(** Network byte order. *)
Definition be_bytes (n : nat) (z : Z) : list Z := rev (le_bytes n z).
Definition be_val (bs : list Z) : Z := le_val (rev bs).

Definition is_byte (b : Z) : Prop := 0 <= b < 256.
#[export] Instance is_byte_dec b : Decision (is_byte b).
Proof. unfold is_byte. solve_decision. Defined.

Lemma length_le_bytes n z : length (le_bytes n z) = n.
Proof. revert z; induction n as [|n IH]; intros z; cbn; [done|by rewrite IH]. Qed.

Lemma length_be_bytes n z : length (be_bytes n z) = n.
Proof. unfold be_bytes. by rewrite length_rev, length_le_bytes. Qed.

Lemma le_bytes_byte n z : Forall is_byte (le_bytes n z).
Proof.
  revert z; induction n as [|n IH]; intros z; cbn; constructor; [|done].
  apply Z.mod_pos_bound. lia.
Qed.

Lemma be_bytes_byte n z : Forall is_byte (be_bytes n z).
Proof. unfold be_bytes. apply Forall_rev. apply le_bytes_byte. Qed.

Lemma le_bytes_val bs : Forall is_byte bs → le_bytes (length bs) (le_val bs) = bs.
Proof.
  induction 1 as [|b bs Hb _ IH]; [done|]. cbn. unfold is_byte in Hb.
  rewrite Z.mul_comm, Z.mod_add, Z.mod_small, Z.div_add, Z.div_small, Z.add_0_l, IH by lia. done.
Qed.

Lemma le_val_bytes n z : 0 <= z < 256 ^ Z.of_nat n → le_val (le_bytes n z) = z.
Proof.
  revert z; induction n as [|n IH]; intros z Hz; [change (256 ^ Z.of_nat 0) with 1 in Hz; cbn; lia|].
  rewrite Nat2Z.inj_succ, Z.pow_succ_r in Hz by lia. cbn. rewrite IH.
  - pose proof (Z.div_mod z 256). lia.
  - split; [apply Z.div_pos; lia|apply Z.div_lt_upper_bound; lia].
Qed.

Lemma le_val_bound bs : Forall is_byte bs → 0 <= le_val bs < 256 ^ Z.of_nat (length bs).
Proof.
  induction 1 as [|b bs Hb _ IH]; [cbn; lia|].
  cbn [le_val length]. rewrite Nat2Z.inj_succ, Z.pow_succ_r by lia. unfold is_byte in Hb. lia.
Qed.

(** ** Bits of the lowest byte and of the rest *)

Lemma byte_bits x y n :
  is_byte x → 0 <= n → Z.testbit (x + 256 * y) n = if n <? 8 then Z.testbit x n else Z.testbit y (n - 8).
Proof.
  unfold is_byte. intros Hx Hn. destruct (Z.ltb_spec n 8) as [Hlt|Hge].
  - rewrite <- (Z.mod_pow2_bits_low (x + 256 * y) 8 n) by lia. change (2 ^ 8) with 256.
    by rewrite Z.mul_comm, Z.mod_add, Z.mod_small by lia.
  - replace n with ((n - 8) + 8) at 1 by lia. rewrite <- Z.div_pow2_bits by lia. change (2 ^ 8) with 256.
    by rewrite Z.mul_comm, Z.div_add, Z.div_small, Z.add_0_l by lia.
Qed.

Lemma byte_high_bit x n : is_byte x → 8 <= n → Z.testbit x n = false.
Proof.
  intros Hx Hn. rewrite <- (Z.add_0_r x), <- (Z.mul_0_r 256), byte_bits by (done || lia).
  rewrite (proj2 (Z.ltb_ge n 8)), Z.bits_0 by lia. done.
Qed.

(** A bitwise operation: it acts on each bit, and keeps 0. *)
Definition bitwise (f : Z → Z → Z) : Prop :=
  ∃ g, g false false = false ∧ (∀ x z, 0 <= x → 0 <= z → 0 <= f x z) ∧
       ∀ x z n, 0 <= n → Z.testbit (f x z) n = g (Z.testbit x n) (Z.testbit z n).

Lemma bitwise_land : bitwise Z.land.
Proof. exists andb. split; [done|]. split; [intros; apply Z.land_nonneg; lia|]. intros. apply Z.land_spec. Qed.
Lemma bitwise_lor : bitwise Z.lor.
Proof. exists orb. split; [done|]. split; [intros; apply Z.lor_nonneg; lia|]. intros. apply Z.lor_spec. Qed.

Section bitwise.
Context (f : Z → Z → Z) (Hf : bitwise f).

Lemma bitwise_byte x z : is_byte x → is_byte z → is_byte (f x z).
Proof.
  destruct Hf as (g & Hg & Hpos & Hbits). intros Hx Hz. pose proof (Hpos x z) as H0. unfold is_byte in *.
  split; [lia|]. change 256 with (2 ^ 8). apply Z.bounded_iff_bits_nonneg; [lia|lia|]. intros k Hk.
  rewrite Hbits, !byte_high_bit by (unfold is_byte; lia). done.
Qed.

Lemma bitwise_split x y z w :
  is_byte x → is_byte z → f (x + 256 * y) (z + 256 * w) = f x z + 256 * f y w.
Proof.
  intros Hx Hz. pose proof (bitwise_byte x z Hx Hz) as Hb. destruct Hf as (g & Hg & Hpos & Hbits).
  apply Z.bits_inj'. intros n Hn. rewrite Hbits, !byte_bits by done.
  destruct (Z.ltb_spec n 8); rewrite Hbits by lia; done.
Qed.

Lemma bitwise_0 : f 0 0 = 0.
Proof.
  destruct Hf as (g & Hg & Hpos & Hbits). apply Z.bits_inj'. intros n Hn.
  by rewrite Hbits, Z.bits_0, Hg by done.
Qed.

Lemma bitwise_le_val a b :
  Forall is_byte a → Forall is_byte b → length a = length b →
  f (le_val a) (le_val b) = le_val (zip_with f a b).
Proof.
  intros Ha; revert b; induction Ha as [|x a Hx Ha IH]; intros b Hb Hlen.
  - destruct b; [apply bitwise_0|done].
  - destruct Hb as [|z b Hz Hb]; [done|]. cbn [le_val zip_with]. rewrite bitwise_split by done.
    rewrite IH; [done|done|]. cbn in Hlen. lia.
Qed.

Lemma bitwise_bytes a b :
  Forall is_byte a → Forall is_byte b → length a = length b → Forall is_byte (zip_with f a b).
Proof.
  intros Ha; revert b; induction Ha as [|x a Hx Ha IH]; intros b Hb Hlen; [constructor|].
  destruct Hb as [|z b Hz Hb]; [done|]. cbn. constructor; [by apply bitwise_byte|].
  apply IH; [done|]. cbn in Hlen. lia.
Qed.

Lemma zip_with_rev a b :
  length a = length b → zip_with f (rev a) (rev b) = rev (zip_with f a b).
Proof.
  revert b; induction a as [|x a IH]; intros [|z b] Hlen; try done. cbn in *.
  rewrite zip_with_app by (rewrite !length_rev; lia). by rewrite IH by lia.
Qed.

Lemma bitwise_be_val a b :
  Forall is_byte a → Forall is_byte b → length a = length b →
  be_val (zip_with f a b) = f (be_val a) (be_val b).
Proof.
  intros Ha Hb Hlen. unfold be_val. rewrite bitwise_le_val, zip_with_rev;
    [done|done|by apply Forall_rev|by apply Forall_rev|].
  by rewrite !length_rev.
Qed.
End bitwise.

(** ** Masks *)

Lemma multiple_bit_low k q n : 0 <= n < k → Z.testbit (2 ^ k * q) n = false.
Proof. intros H. rewrite Z.mul_comm, Z.mul_pow2_bits_low by lia. done. Qed.

Lemma small_bit_high k i n : 0 <= i < 2 ^ k → 0 <= k <= n → Z.testbit i n = false.
Proof. intros Hi Hn. rewrite <- (Z.mod_small i (2 ^ k)) by done. by rewrite Z.mod_pow2_bits_high by lia. Qed.

(** A multiple of [2^k] and a number below it. *)
Lemma lor_low_part k q i : 0 <= k → 0 <= i < 2 ^ k → Z.lor (2 ^ k * q) i = 2 ^ k * q + i.
Proof.
  intros Hk Hi. assert (Z.land (2 ^ k * q) i = 0) as E.
  { apply Z.bits_inj'. intros n Hn. rewrite Z.land_spec, Z.bits_0.
    destruct (Z.lt_ge_cases n k); [by rewrite multiple_bit_low by lia|].
    rewrite (small_bit_high k i) by lia. apply andb_false_r. }
  rewrite Z.add_nocarry_lxor by done. by rewrite Z.lxor_lor.
Qed.

Lemma land_high_part m k x :
  0 <= k <= m → 0 <= x < 2 ^ m → Z.land x (2 ^ m - 2 ^ k) = 2 ^ k * (x / 2 ^ k).
Proof.
  intros Hk Hx. assert (2 ^ m - 2 ^ k = 2 ^ k * Z.ones (m - k)) as ->.
  { rewrite Z.ones_equiv. assert (2 ^ m = 2 ^ k * 2 ^ (m - k)) as -> by (rewrite <- Z.pow_add_r by lia; f_equal; lia). lia. }
  apply Z.bits_inj'. intros n Hn. rewrite Z.land_spec.
  destruct (Z.lt_ge_cases n k) as [Hlt|Hge].
  - rewrite !multiple_bit_low by lia. apply andb_false_r.
  - rewrite !(Z.mul_comm (2 ^ k)), !Z.mul_pow2_bits, Z.div_pow2_bits by lia.
    replace (n - k + k) with n by lia. destruct (Z.lt_ge_cases n m) as [H|H].
    + rewrite Z.ones_spec_low by lia. apply andb_true_r.
    + by rewrite (small_bit_high m x) by lia.
Qed.
