(* ===== verification/PsList.v ===== *)
(** * Singly linked lists in the heap (portscan, key_value_part)

    The port scanner keeps addresses, ports, jobs and results in lists of
    [malloc]ed nodes that are pushed in front and freed from the front; the
    key-value lists of KeyValue.v are chains of the same kind.  A heap
    maps addresses to nodes; reading or freeing an address that is not there is
    [Fault UseAfterFree].  [malloc] returns an address not in use (the code does
    not handle its failure).  A list is its top pointer and its counter over
    such a heap; [chain] says which nodes a pointer leads through. *)

From S2P Require Import Prelude.
From stdpp Require Import gmap fin_maps.

Open Scope Z_scope.

Definition ptr : Type := option positive.

Record node (A : Type) := Node { n_data : A; n_next : ptr }.
Arguments Node {A} _ _.
Arguments n_data {A} _.
Arguments n_next {A} _.

(** [top] and [count] with the nodes of their type: [ip_list_top] and
    [ip_list_count], for example. *)
Record lst (A : Type) := Lst { cells : gmap positive (node A); list_top : ptr; count : Z }.
Arguments Lst {A} _ _ _.
Arguments cells {A} _.
Arguments list_top {A} _.
Arguments count {A} _.

Definition empty_lst {A} : lst A := Lst ∅ None 0.

Section ops.
Context {A : Type}.
Implicit Types (h : gmap positive (node A)) (L : lst A) (p : ptr).

Definition deref h p : outcome (node A) :=
  match p with
  | None => Fault NullDeref
  | Some a => match h !! a with Some n => Done n | None => Fault UseAfterFree end
  end.

(** The address [malloc] returns. *)
Definition new_addr h : positive := fresh ((map_to_list h).*1).

(** [newnode->next = top; top = newnode; count++] *)
Definition push (x : A) L : outcome (lst A) :=
  c ← int_add (count L) 1;
  let a := new_addr (cells L) in
  mret (Lst (<[a := Node x (list_top L)]> (cells L)) (Some a) c).

(** [free(node)] *)
Definition free_node p h : outcome (gmap positive (node A)) :=
  match p with
  | None => Done h
  | Some a => if bool_decide (is_Some (h !! a)) then Done (delete a h) else Fault UseAfterFree
  end.

(** [while (node != NULL) { prev_node = node; node = node->next; free(prev_node); }] *)
Fixpoint free_from (fuel : nat) p h : outcome (gmap positive (node A)) :=
  match p with
  | None => Done h
  | Some _ =>
      match fuel with
      | O => NoFuel
      | S fuel' => n ← deref h p; h' ← free_node p h; free_from fuel' (n_next n) h'
      end
  end.

(** The nodes a pointer leads through, with their data. *)
Fixpoint chain h p (l : list (positive * A)) : Prop :=
  match l with
  | [] => p = None
  | (a, x) :: l' => p = Some a ∧ ∃ q, h !! a = Some (Node x q) ∧ chain h q l'
  end.

(** A list represents [l]: the counter counts, no node occurs twice. *)
Record lst_rep L (l : list (positive * A)) : Prop := {
  rep_chain : chain (cells L) (list_top L) l;
  rep_nodup : NoDup l.*1;
  rep_count : count L = Z.of_nat (length l);
}.

Lemma new_addr_fresh h : h !! new_addr h = None.
Proof.
  apply eq_None_not_Some. intros [n Hn]. apply (infinite_is_fresh ((map_to_list h).*1)).
  apply list_elem_of_fmap. exists (new_addr h, n). split; [done|]. by apply elem_of_map_to_list.
Qed.

Lemma chain_in h p l a : chain h p l → a ∈ l.*1 → is_Some (h !! a).
Proof.
  revert p; induction l as [|[b x] l IH]; intros p; cbn.
  - intros _ H. by apply not_elem_of_nil in H.
  - intros (-> & q & Hb & Hl) [->|H]%elem_of_cons; [eauto|eauto].
Qed.

Lemma chain_ext h h' p l :
  (∀ a, a ∈ l.*1 → h' !! a = h !! a) → chain h p l → chain h' p l.
Proof.
  revert p; induction l as [|[b x] l IH]; intros p E; cbn; [done|].
  intros (-> & q & Hb & Hl). split; [done|]. exists q. split.
  - rewrite E; [done|]. cbn. left.
  - apply IH; [|done]. intros a Ha. apply E. cbn. by right.
Qed.

Lemma chain_insert h p l a n : a ∉ l.*1 → chain h p l → chain (<[a := n]> h) p l.
Proof. intros H. apply chain_ext. intros b Hb. rewrite lookup_insert_ne; [done|congruence]. Qed.

Lemma chain_delete h p l a : a ∉ l.*1 → chain h p l → chain (delete a h) p l.
Proof. intros H. apply chain_ext. intros b Hb. rewrite lookup_delete_ne; [done|congruence]. Qed.

Lemma chain_fresh h p l : chain h p l → new_addr h ∉ l.*1.
Proof. intros H Hin. destruct (chain_in _ _ _ _ H Hin) as [n Hn]. by rewrite new_addr_fresh in Hn. Qed.

Lemma chain_size h p l : chain h p l → NoDup l.*1 → (length l ≤ size h)%nat.
Proof.
  intros H Hnd. rewrite <- (length_fmap fst l), <- size_dom, <- (size_list_to_set (C := gset positive) _ Hnd).
  apply subseteq_size. intros a Ha%elem_of_list_to_set. apply elem_of_dom. eauto using chain_in.
Qed.

Lemma chain_unique h : ∀ l1 l2 p, chain h p l1 → chain h p l2 → l1 = l2.
Proof.
  induction l1 as [|[a x] l1 IH]; intros [|[b y] l2] q; cbn.
  - done.
  - by intros -> [? _].
  - by intros [-> _] ?.
  - intros (-> & q1 & Ha & Hl2) ([= ->] & q2 & Hb & Hl'). rewrite Ha in Hb. injection Hb as -> ->.
    f_equal. by apply (IH l2 q2).
Qed.

Lemma deref_ok h a n : h !! a = Some n → deref h (Some a) = Done n.
Proof. intros H. unfold deref. by rewrite H. Qed.

Lemma push_ok x L l :
  lst_rep L l → Z.of_nat (length l) < int_max →
  ∃ L', push x L = Done L' ∧ lst_rep L' ((new_addr (cells L), x) :: l) ∧
    (∀ q l', chain (cells L) q l' → chain (cells L') q l').
Proof.
  intros [Hc Hnd Hn] Hlt. unfold push. rewrite Hn, int_succ_ok by lia. cbn [mbind outcome_bind].
  eexists. split; [done|]. pose proof (chain_fresh _ _ _ Hc) as Hfr. split; [split|]; cbn.
  - split; [done|]. eexists. split; [apply lookup_insert_eq|]. by apply chain_insert.
  - by apply NoDup_cons.
  - lia.
  - intros q l' Hq. apply chain_insert; [|done]. by eapply chain_fresh.
Qed.

(** Overwriting the data of a node, its pointer kept. *)
Lemma chain_set l1 a x l2 : ∀ h p y,
  chain h p (l1 ++ (a, x) :: l2) → NoDup (l1 ++ (a, x) :: l2).*1 →
  ∃ q, h !! a = Some (Node x q) ∧ chain (<[a := Node y q]> h) p (l1 ++ (a, y) :: l2).
Proof.
  induction l1 as [|[b z] l1 IH]; intros h p y; cbn [app chain fmap list_fmap].
  - intros (-> & q & Ha & Hl) [Hni _]%NoDup_cons. exists q. split; [done|]. split; [done|].
    exists q. split; [apply lookup_insert_eq|]. by apply chain_insert.
  - intros (-> & q & Hb & Hl) [Hni Hnd]%NoDup_cons. destruct (IH h q y Hl Hnd) as (q' & Ha & Hc).
    exists q'. split; [done|]. split; [done|]. exists q. split; [|done].
    rewrite lookup_insert_ne; [done|]. intros ->. apply Hni. rewrite fmap_app, fmap_cons.
    apply elem_of_app. right. by left.
Qed.

(** Hanging a node behind the last one. *)
Lemma chain_snoc : ∀ l h p a x q b y,
  chain h p (l ++ [(a, x)]) → NoDup (l ++ [(a, x)]).*1 → b ∉ (l ++ [(a, x)]).*1 →
  h !! b = Some (Node y None) → q = Some b →
  h !! a = Some (Node x None) ∧ chain (<[a := Node x q]> h) p (l ++ [(a, x); (b, y)]).
Proof.
  induction l as [|[c z] l IH]; intros h p a x q b y; cbn [app chain fmap list_fmap].
  - intros (-> & q0 & Ha & ->) _ Hb Hhb ->. split; [done|]. split; [done|]. exists (Some b).
    split; [apply lookup_insert_eq|]. split; [done|]. exists None. split; [|done].
    rewrite lookup_insert_ne; [done|]. intros ->. apply Hb. left.
  - intros (-> & q0 & Hc & Hl) [Hni Hnd]%NoDup_cons [Hbc Hb]%not_elem_of_cons Hhb ->.
    destruct (IH h q0 a x (Some b) b y Hl Hnd Hb Hhb eq_refl) as (Ha & Hch). split; [done|]. split; [done|].
    exists q0. split; [|done]. rewrite lookup_insert_ne; [done|]. intros ->. apply Hni.
    rewrite fmap_app. apply elem_of_app. right. left.
Qed.

(** Freeing a chain frees its nodes and no other. *)
Lemma free_from_ok l : ∀ fuel h p,
  chain h p l → NoDup l.*1 → (length l ≤ fuel)%nat →
  ∃ h', free_from fuel p h = Done h' ∧
    ∀ a, h' !! a = if bool_decide (a ∈ l.*1) then None else h !! a.
Proof.
  induction l as [|[b x] l IH]; intros fuel h p.
  - cbn [chain]. intros -> _ _. exists h. split; [by destruct fuel|done].
  - cbn [chain length fmap list_fmap]. intros (-> & q & Hb & Hl) [Hni Hnd]%NoDup_cons Hf.
    destruct fuel as [|fuel]; [lia|]. cbn [free_from]. rewrite (deref_ok _ _ _ Hb). cbn [mbind outcome_bind].
    unfold free_node. rewrite bool_decide_eq_true_2 by eauto. cbn [mbind outcome_bind n_next].
    destruct (IH fuel (delete b h) q) as (h' & E & Hh); [by apply chain_delete|done|lia|].
    exists h'. split; [done|]. intros a. rewrite Hh. cbn.
    destruct (decide (a = b)) as [->|Hne].
    + rewrite (bool_decide_eq_false_2 (b ∈ l.*1)) by done.
      by rewrite bool_decide_eq_true_2, lookup_delete_eq by left.
    + rewrite lookup_delete_ne by done. erewrite bool_decide_ext; [done|].
      rewrite elem_of_cons. naive_solver.
Qed.

Lemma free_all_ok L l :
  lst_rep L l → (∀ a n, cells L !! a = Some n → a ∈ l.*1) →
  free_from (S (size (cells L))) (list_top L) (cells L) = Done ∅.
Proof.
  intros [Hc Hnd _] Hall. pose proof (chain_size _ _ _ Hc Hnd) as Hs.
  destruct (free_from_ok l (S (size (cells L))) _ _ Hc Hnd ltac:(lia)) as (h' & -> & Hh).
  f_equal. apply map_eq. intros a. rewrite Hh, lookup_empty. case_bool_decide as Hi; [done|].
  destruct (cells L !! a) as [n|] eqn:E; [|done]. by apply Hall in E.
Qed.
End ops.

(** Chains in concrete heaps. *)
Ltac solve_chain :=
  repeat (cbn [chain list_top cells];
          match goal with |- ∃ _, _ => eexists | |- _ ∧ _ => split; [done|] end); done.
