(* ===== verification/PsSetup.v ===== *)
(** * Scan configuration: addresses, ports, jobs, results (portscan/ps_setup.c)

    The global lists of the scanner and the functions that fill and free them.
    Lists hold what their nodes hold: the 16 bytes of [ip], the port, a job, a
    result.  [gethostbyname] is a parameter: for a name it gives NULL, or the
    bytes of the buffer in which [inet_ntoa] writes the first address.  Line
    numbers are those of ps_setup.c. *)

From S2P Require Import Prelude CString FileSys PsText PsBytes PsList.
From stdpp Require Import gmap strings.

Open Scope Z_scope.

(** ** Constants and nodes (ps_setup.h) *)

Definition INET_ADDRSTRLEN : Z := 16.
Definition MAX_SERVICE_NAME : nat := 80.
Definition MAX_ARG_SIZE : nat := 100.
Definition MAX_PORTS : Z := 1024.

Definition R_OPEN : Z := 0.
Definition R_CLOSED : Z := 1.
Definition R_FILTERED : Z := 2.
Definition R_OPN_FIL : Z := 3.
Definition R_UNFILTERED : Z := 4.

Definition SYN_SCAN : Z := 0.
Definition NULL_SCAN : Z := 1.
Definition FIN_SCAN : Z := 2.
Definition XMAS_SCAN : Z := 3.
Definition ACK_SCAN : Z := 4.
Definition UDP_SCAN : Z := 5.

Definition UNASSIGNED : Z := -1.
Definition NONE : Z := -2.
Definition FAILURE : Z := 1.

Record job_t := Job { j_ip : list Z; j_portno : Z; j_scan_type : Z }.

(** [result] is an array of (signed) [char]; [scan_type] is not always set. *)
Record result_t := Result {
  r_ip : list Z;
  r_service : list Z;
  r_result : list Z;
  r_conclusion : Z;
  r_portno : Z;
  r_scan_type : option Z;
}.

(** ** Global variables (lines 25-38) *)

Record ps_state := PS {
  ip_list : lst (list Z);
  port_list : lst Z;
  job_masterlist : lst job_t;
  job_list_top : ptr;
  job_list_count : Z;
  result_list : lst result_t;
  scan : list Z;
  scan_mode : Z;
  no_of_threads : Z;
}.
Definition ps_zero : ps_state :=
  PS empty_lst empty_lst empty_lst None 0 empty_lst (replicate 6 0) UNASSIGNED 0.

Definition set_ip_list x s := PS x (port_list s) (job_masterlist s) (job_list_top s) (job_list_count s) (result_list s) (scan s) (scan_mode s) (no_of_threads s).
Definition set_port_list x s := PS (ip_list s) x (job_masterlist s) (job_list_top s) (job_list_count s) (result_list s) (scan s) (scan_mode s) (no_of_threads s).
Definition set_job_masterlist x s := PS (ip_list s) (port_list s) x (job_list_top s) (job_list_count s) (result_list s) (scan s) (scan_mode s) (no_of_threads s).
Definition set_job_list t c s := PS (ip_list s) (port_list s) (job_masterlist s) t c (result_list s) (scan s) (scan_mode s) (no_of_threads s).
Definition set_result_list x s := PS (ip_list s) (port_list s) (job_masterlist s) (job_list_top s) (job_list_count s) x (scan s) (scan_mode s) (no_of_threads s).
Definition set_scan x s := PS (ip_list s) (port_list s) (job_masterlist s) (job_list_top s) (job_list_count s) (result_list s) x (scan_mode s) (no_of_threads s).
Definition set_scan_mode x s := PS (ip_list s) (port_list s) (job_masterlist s) (job_list_top s) (job_list_count s) (result_list s) (scan s) x (no_of_threads s).
Definition set_no_of_threads x s := PS (ip_list s) (port_list s) (job_masterlist s) (job_list_top s) (job_list_count s) (result_list s) (scan s) (scan_mode s) x.

(** The end of a call: it returns, or the process ends with [exit(code)]. *)
Inductive exits (A : Type) := Returns (a : A) | Exits (code : Z).
Arguments Returns {A} a.
Arguments Exits {A} code.

Section setup.
Context (gethostbyname : list Z → option (list Z)).

(** ** Pushing (lines 433-496) *)

Definition push_ip (data : list Z) : M ps_state unit :=
  match gethostbyname data with
  | None => mret tt
  | Some b =>
      ip ← lift (mem_read b INET_ADDRSTRLEN);
      L ← gets ip_list; L' ← lift (push ip L); modify (set_ip_list L')
  end.

Definition push_port (data : Z) : M ps_state unit :=
  if (MAX_PORTS <? data) || (data <? 1) then mret tt
  else L ← gets port_list; L' ← lift (push data L); modify (set_port_list L').

(** The 16 bytes of an address are copied, whatever is behind them. *)
Definition push_job (data : list Z) (port scan : Z) : M ps_state unit :=
  ip ← lift (mem_read data INET_ADDRSTRLEN);
  L ← gets job_masterlist; L' ← lift (push (Job ip port scan) L); modify (set_job_masterlist L').

(** ** Ports (lines 220-263) *)

(** [for (i = init_val; i <= end_val; i++) push_port(i);] *)
Fixpoint port_range_loop (fuel : nat) (i end_val : Z) : M ps_state unit :=
  if i <=? end_val then
    match fuel with
    | O => λ _, NoFuel
    | S f => push_port i;; i' ← lift (int_add i 1); port_range_loop f i' end_val
    end
  else mret tt.

(** Without a [-], [strstr] gives NULL, which is incremented and read. *)
Definition get_ports_range (word : list Z) : M ps_state unit :=
  init_val ← lift (atoi word);
  match index_of 45 word with
  | None => fault_with NullDeref
  | Some i => end_val ← lift (atoi (drop (S i) word));
              port_range_loop (Z.to_nat (end_val - init_val + 1)) init_val end_val
  end.

Fixpoint get_ports_loop (fuel : nat) (s : list Z) : M ps_state unit :=
  match strtok 44 s with
  | None => mret tt
  | Some (word, rest) =>
      match fuel with
      | O => λ _, NoFuel
      | S f =>
          match index_of 45 word with
          | Some _ => get_ports_range word
          | None => v ← lift (atoi word); push_port v
          end;; get_ports_loop f rest
      end
  end.
Definition get_ports (port_args : list Z) : M ps_state unit :=
  get_ports_loop (length port_args) port_args.

(** ** The addresses of a network (lines 265-352) *)

(** [(int)pow(2, 32 - prefix)] is undefined when it is no [int]. *)
Definition get_hostcount (prefix : Z) : outcome (exits Z) :=
  if 32 <? prefix then Done (Exits FAILURE)
  else
    let d := 2 ^ (32 - prefix) in
    if d <=? int_max then Done (Returns (d - 2)) else Fault IntOverflow.

(** The index [byte] and the bit cleared in the round [i]. *)
Definition mask_byte (i : Z) : Z :=
  let byte := (32 - i) / 8 in
  if i =? 0 then byte - 1
  else if (0 <? i) && (i mod 8 =? 0) then byte - i / 8 else byte.
Definition clear_bit (netmask : list Z) (byte bit : Z) : outcome (list Z) :=
  if (0 <=? byte) && (byte <? 4) then
    b ← rd netmask (Z.to_nat byte);
    mret (<[Z.to_nat byte := Z.land b (Z.lnot (Z.shiftl 1 bit))]> netmask)
  else Fault OutOfBounds.
(** [for (i = n - 1; i >= 0; i--)] *)
Fixpoint netmask_loop (n : nat) (netmask : list Z) : outcome (list Z) :=
  match n with
  | O => Done netmask
  | S n' => let i := Z.of_nat n' in
            m ← clear_bit netmask (mask_byte i) (i mod 8); netmask_loop n' m
  end.
Definition get_netmask (prefix : Z) : outcome (list Z) :=
  netmask_loop (Z.to_nat (32 - prefix)) [255; 255; 255; 255].

(** [atoi] of each of the first four words between dots, cut to a byte. *)
Fixpoint ip_bytes_loop (n : nat) (s ip : list Z) (i : nat) : outcome (list Z) :=
  match n with
  | O => Done ip
  | S n' => match strtok 46 s with
            | None => Done ip
            | Some (word, rest) => v ← atoi word; ip_bytes_loop n' rest (<[i := v mod 256]> ip) (S i)
            end
  end.
Definition ip_bytes (ipAddress : list Z) : outcome (list Z) := ip_bytes_loop 4 ipAddress [0; 0; 0; 0] 0.

(** The bytes of [newip] on a little-endian machine: [htole32] is the
    identity, [htobe32(i)] swaps the bytes. *)
Definition host_address (host : list Z) (i : Z) : list Z :=
  le_bytes 4 (Z.lor (le_val host) (le_val (be_bytes 4 i))).

(** [for (i = i; i <= hostcount; i++)], [n] rounds *)
Fixpoint hosts_loop (n : nat) (host : list Z) (i : Z) : M ps_state unit :=
  match n with
  | O => mret tt
  | S n' =>
      let newIPAddress := dotted (host_address host i) in
      match gethostbyname newIPAddress with
      | Some _ => push_ip newIPAddress
      | None => mret tt
      end;; hosts_loop n' host (i + 1)
  end.

Definition get_ipAdresses (ipAddress : list Z) (prefix : Z) : M ps_state (exits unit) :=
  ip ← lift (ip_bytes ipAddress);
  hc ← lift (get_hostcount prefix);
  match hc with
  | Exits c => mret (Exits c)
  | Returns hostcount =>
      netmask ← lift (get_netmask prefix);
      let host := zip_with Z.land ip netmask in
      hosts_loop (Z.to_nat hostcount) host 1;; mret (Returns tt)
  end.

(** ** Addresses from a file (lines 393-429) *)

(** The line up to its newline, or a NUL before. *)
Definition line_text (l : list Z) : list Z :=
  take (span_len (λ c, negb (c =? 10) && negb (c =? 0)) l) l.
Fixpoint read_lines_loop (lines : list (list Z)) : M ps_state unit :=
  match lines with
  | [] => mret tt
  | l :: lines' =>
      match gethostbyname (line_text l) with
      | Some _ => push_ip (line_text l)
      | None => mret tt
      end;; read_lines_loop lines'
  end.
(** Opened twice: for reading and writing, then for reading; [getline] has
    no limit. *)
Definition read_ipAddresses (fs : filesystem) (filename : fname) : M ps_state Z :=
  if access_rw fs filename =? 0 then
    match fopen_r fs filename with
    | None => fault_with NullDeref
    | Some c => read_lines_loop (fgets_lines (S (S (length c))) c);; mret 0
    end
  else mret FAILURE.

(** ** Destroying (lines 533-587, 919-934) *)

Definition destroy_iplist : M ps_state unit :=
  L ← gets ip_list;
  h ← lift (free_from (S (size (cells L))) (list_top L) (cells L)); modify (set_ip_list (Lst h None 0)).
Definition destroy_portlist : M ps_state unit :=
  L ← gets port_list;
  h ← lift (free_from (S (size (cells L))) (list_top L) (cells L)); modify (set_port_list (Lst h None 0)).
Definition destroy_joblist (masterlist_top : ptr) : M ps_state unit :=
  L ← gets job_masterlist;
  h ← lift (free_from (S (size (cells L))) masterlist_top (cells L));
  modify (set_job_masterlist (Lst h None 0));; modify (set_job_list None 0).
Definition destroy_results : M ps_state unit :=
  L ← gets result_list;
  h ← lift (free_from (S (size (cells L))) (list_top L) (cells L)); modify (set_result_list (Lst h None 0)).

(** ** Jobs (lines 354-390, 499-529) *)

Fixpoint job_ports_loop (fuel : nat) (ip : list Z) (p : ptr) (i : Z) : M ps_state unit :=
  match p with
  | None => mret tt
  | Some _ =>
      match fuel with
      | O => λ _, NoFuel
      | S f => L ← gets port_list; n ← lift (deref (cells L) p);
               push_job ip (n_data n) i;; job_ports_loop f ip (n_next n) i
      end
  end.
Fixpoint job_ips_loop (fuel : nat) (p : ptr) (i : Z) : M ps_state unit :=
  match p with
  | None => mret tt
  | Some _ =>
      match fuel with
      | O => λ _, NoFuel
      | S f => L ← gets ip_list; n ← lift (deref (cells L) p);
               P ← gets port_list;
               job_ports_loop (S (size (cells P))) (n_data n) (list_top P) i;;
               job_ips_loop f (n_next n) i
      end
  end.
(** [for (i = i; i < 6; i++)], [n] rounds *)
Fixpoint job_scans_loop (n : nat) (i : nat) : M ps_state unit :=
  match n with
  | O => mret tt
  | S n' =>
      sc ← gets scan; f ← lift (rd sc i);
      (if f =? 0 then mret tt
       else L ← gets ip_list; job_ips_loop (S (size (cells L))) (list_top L) (Z.of_nat i));;
      job_scans_loop n' (S i)
  end.
Definition create_jobs : M ps_state (exits unit) :=
  job_scans_loop 6 0;;
  J ← gets job_masterlist;
  match list_top J with
  | None => destroy_iplist;; destroy_portlist;; mret (Exits FAILURE)
  | Some _ => mret (Returns tt)
  end.

Definition change_scan_mode (scantype : Z) : M ps_state unit :=
  (if negb (scantype =? NONE) then
     J ← gets job_masterlist; modify (set_job_list (list_top J) (count J))
   else mret tt);;
  modify (set_scan_mode scantype).

(** The node stays allocated: [main] frees all nodes at the end. *)
Definition get_next_job : M ps_state ptr :=
  J ← gets job_masterlist;
  match list_top J with
  | None => mret None
  | Some _ => n ← lift (deref (cells J) (list_top J));
              modify (set_job_masterlist (Lst (cells J) (n_next n) (count J - 1)));;
              mret (list_top J)
  end.

(** ** Results (lines 659-729) *)

(** [strcmp] of two [ip] arrays is 0. *)
Definition ip_eq (a b : list Z) : outcome bool :=
  x ← c_str a; y ← c_str b; mret (bool_decide (x = y)).

Fixpoint find_result (fuel : nat) (h : gmap positive (node result_t)) (p : ptr) (r : result_t)
  : outcome ptr :=
  match p with
  | None => Done None
  | Some _ =>
      match fuel with
      | O => NoFuel
      | S f =>
          n ← deref h p;
          same ← (if r_portno (n_data n) =? r_portno r then ip_eq (r_ip (n_data n)) (r_ip r) else Done false : outcome bool);
          if (same : bool) then mret p else find_result f h (n_next n) r
      end
  end.

Definition new_result (r : result_t) : result_t :=
  Result (r_ip r) (r_service r) (replicate 6 NONE) 10 (r_portno r) None.

(** [MIN] over the results that are set, from the present conclusion. *)
Definition conclude (results : list Z) (conclusion : Z) : Z :=
  foldl (λ c x, if negb (x =? NONE) then (if c <? x then c else x) else c) conclusion results.

(** The update of [temp_result] from [result]. *)
Definition update_result (t r : result_t) : outcome result_t :=
  match r_scan_type r with
  | None => Fault Uninitialised
  | Some st =>
      if (0 <=? st) && (st <? 6) then
        x ← rd (r_result r) (Z.to_nat st);
        let res := <[Z.to_nat st := x]> (r_result t) in
        mret (Result (r_ip t) (r_service t) res (conclude res (r_conclusion t)) (r_portno t) (r_scan_type t))
      else Fault OutOfBounds
  end.

Definition push_result (result : ptr) : M ps_state unit :=
  L ← gets result_list;
  r ← lift (deref (cells L) result);
  found ← lift (find_result (S (size (cells L))) (cells L) (list_top L) (n_data r));
  (match found with
   | None => L' ← lift (push (new_result (n_data r)) L); modify (set_result_list L')
   | Some _ => mret tt
   end);;
  L1 ← gets result_list;
  let temp_result := match found with None => list_top L1 | Some _ => found end in
  t ← lift (deref (cells L1) temp_result);
  t' ← lift (update_result (n_data t) (n_data r));
  let h := match temp_result with
           | Some a => <[a := Node t' (n_next t)]> (cells L1)
           | None => cells L1
           end in
  h' ← lift (free_node result h);
  modify (set_result_list (Lst h' (list_top L1) (count L1))).
End setup.
