(* ===== verification/PsJobs.v ===== *)
(** * Ports and jobs (properties of PsSetup)

    What [get_ports] pushes, for arguments made of ports and ranges; and the
    lemmas on lists without their addresses that the scanner's files share; then the list of jobs. *)

From S2P Require Import Prelude CString PsText PsList PsSetup.
From stdpp Require Import gmap strings.

Open Scope Z_scope.

(** ** Lists without their addresses *)

Definition lst_data {A} (L : lst A) (xs : list A) : Prop := ∃ l, lst_rep L l ∧ l.*2 = xs.

Lemma push_data {A} (x : A) L xs :
  lst_data L xs → Z.of_nat (length xs) < int_max → ∃ L', push x L = Done L' ∧ lst_data L' (x :: xs).
Proof.
  intros (l & Hl & <-) Hlt. rewrite length_fmap in Hlt.
  destruct (push_ok x L l Hl Hlt) as (L' & E & HL & _). exists L'. split; [done|]. eexists. by split.
Qed.

Lemma empty_data {A} : lst_data (@empty_lst A) [].
Proof. exists []. split; [|done]. split; [done|apply NoDup_nil_2|done]. Qed.

(** A list all of whose allocated nodes are linked. *)
Definition lst_exact {A} (L : lst A) (xs : list A) : Prop :=
  ∃ l, lst_rep L l ∧ l.*2 = xs ∧ ∀ a n, cells L !! a = Some n → a ∈ l.*1.

Lemma exact_data {A} (L : lst A) xs : lst_exact L xs → lst_data L xs.
Proof. intros (l & H & E & _). by exists l. Qed.

Lemma push_exact {A} (x : A) L xs :
  lst_exact L xs → Z.of_nat (length xs) < int_max → ∃ L', push x L = Done L' ∧ lst_exact L' (x :: xs).
Proof.
  intros (l & Hl & <- & Hall) Hlt. rewrite length_fmap in Hlt. destruct (push_ok x L l Hl Hlt) as (L' & E & HL & _).
  exists L'. split; [done|]. eexists. split; [done|]. split; [done|]. intros a n.
  unfold push in E. rewrite (rep_count _ _ Hl), int_succ_ok in E by lia. injection E as <-. cbn [cells fmap list_fmap fst].
  rewrite lookup_insert_Some, elem_of_cons. intros [[<- _]|[_ Ha]]; [by left|right; by eapply Hall].
Qed.

Lemma empty_exact {A} : lst_exact (@empty_lst A) [].
Proof. exists []. split; [split; [done|apply NoDup_nil_2|done]|]. by split. Qed.

(** A bind in the middle of a sequence. *)
Lemma M_seq {S A} (m : M S unit) (k : M S A) s s' : m s = Done (tt, s') → (m ;; k) s = k s'.
Proof. intros H. by rewrite (M_bind_done _ _ _ _ _ H). Qed.

(** ** Port arguments *)

Inductive port_item := Single (n : Z) | Range (a b : Z).

Definition render_item (i : port_item) : list Z :=
  match i with Single n => dec n | Range a b => dec a ++ 45 :: dec b end.
Fixpoint render (its : list port_item) : list Z :=
  match its with
  | [] => []
  | [i] => render_item i
  | i :: its' => render_item i ++ 44 :: render its'
  end.

Definition item_valid (i : port_item) : Prop :=
  match i with
  | Single n => 0 <= n <= int_max
  | Range a b => 0 <= a <= int_max ∧ 0 <= b < int_max
  end.

Definition scanned_port (p : Z) : Prop := 1 <= p <= MAX_PORTS.
#[export] Instance scanned_port_dec p : Decision (scanned_port p).
Proof. unfold scanned_port. solve_decision. Defined.

Definition item_ports (i : port_item) : list Z :=
  filter scanned_port (match i with Single n => [n] | Range a b => seqZ a (b - a + 1) end).
Definition ports_of (its : list port_item) : list Z := concat (item_ports <$> its).

(** ** Pushing ports *)

Lemma push_port_ok v s xs :
  lst_data (port_list s) xs → Z.of_nat (length xs) < int_max →
  ∃ L', push_port v s = Done (tt, set_port_list L' s) ∧
        lst_data L' (filter scanned_port [v] ++ xs).
Proof.
  intros H Hlt. unfold push_port. rewrite filter_cons, filter_nil.
  destruct (Z.ltb_spec MAX_PORTS v), (Z.ltb_spec v 1); cbn [orb];
    try (rewrite decide_False by (unfold scanned_port; lia); exists (port_list s);
         split; [by destruct s|done]).
  rewrite decide_True by (unfold scanned_port; lia). rewrite M_bind_gets.
  destruct (push_data v _ _ H Hlt) as (L' & E & HL). rewrite (M_bind_lift _ _ _ _ E).
  exists L'. by split.
Qed.

Lemma port_range_ok : ∀ fuel i e s xs,
  0 <= i → e < int_max → (Z.to_nat (e - i + 1) ≤ fuel)%nat →
  lst_data (port_list s) xs →
  Z.of_nat (length xs) + Z.of_nat (length (filter scanned_port (seqZ i (e - i + 1)))) <= int_max →
  ∃ L', port_range_loop fuel i e s = Done (tt, set_port_list L' s) ∧
        lst_data L' (rev (filter scanned_port (seqZ i (e - i + 1))) ++ xs).
Proof.
  induction fuel as [|fuel IH]; intros i e s xs Hi He Hf H Hlen; cbn [port_range_loop];
    destruct (Z.leb_spec i e) as [Hle|Hgt]; try lia;
    try (rewrite seqZ_nil by lia; exists (port_list s); split; [by destruct s|done]).
  rewrite seqZ_cons in * by lia. rewrite filter_cons in *.
  assert (Z.succ i = i + 1 ∧ Z.pred (e - i + 1) = e - (i + 1) + 1) as [E1 E2] by lia.
  rewrite E1, E2 in *.
  assert (Z.of_nat (length xs) < int_max ∨ filter scanned_port [i] = []) as Hor.
  { rewrite filter_cons, filter_nil. case_decide; [left; cbn in Hlen; lia|by right]. }
  assert (∃ L', push_port i s = Done (tt, set_port_list L' s) ∧
    lst_data L' (filter scanned_port [i] ++ xs)) as (L1 & P1 & H1).
  { destruct Hor as [Hlt|Hnil]; [by apply push_port_ok|]. rewrite Hnil. exists (port_list s).
    split; [|done]. unfold push_port. rewrite filter_cons, filter_nil in Hnil.
    case_decide as Hd; [done|]. unfold scanned_port in Hd.
    destruct (Z.ltb_spec MAX_PORTS i), (Z.ltb_spec i 1); try lia; by destruct s. }
  rewrite (M_seq _ _ _ _ P1), (M_bind_lift _ _ _ _ (int_succ_ok i ltac:(lia))).
  destruct (IH (i + 1) e (set_port_list L1 s) (filter scanned_port [i] ++ xs)) as (L2 & P2 & H2);
    [lia|done|lia|done| |].
  { rewrite length_app, filter_cons, filter_nil. case_decide; cbn in Hlen |- *; lia. }
  exists L2. split; [done|]. rewrite filter_cons, filter_nil in H2.
  case_decide; cbn [rev app] in *; [by rewrite <- app_assoc|done].
Qed.

Lemma index_of_dec c n r : 0 <= n → is_digit c = false → index_of c (dec n ++ c :: r) = Some (length (dec n)).
Proof.
  intros Hn Hc. apply index_of_fresh. intros Hin. pose proof (dec_digits n Hn) as Hd.
  rewrite Forall_forall in Hd. apply Hd in Hin. congruence.
Qed.

Lemma dec_no_char c n : 0 <= n → is_digit c = false → c ∉ dec n.
Proof.
  intros Hn Hc Hin. pose proof (dec_digits n Hn) as Hd.
  rewrite Forall_forall in Hd. apply Hd in Hin. congruence.
Qed.

Lemma get_ports_range_ok a b s xs :
  item_valid (Range a b) → lst_data (port_list s) xs →
  Z.of_nat (length xs) + Z.of_nat (length (item_ports (Range a b))) <= int_max →
  ∃ L', get_ports_range (render_item (Range a b)) s = Done (tt, set_port_list L' s) ∧
        lst_data L' (rev (item_ports (Range a b)) ++ xs).
Proof.
  intros [Ha Hb] H Hlen. unfold get_ports_range. cbn [render_item].
  rewrite (M_bind_lift _ _ _ _ (atoi_dec a (45 :: dec b) ltac:(lia) eq_refl)).
  rewrite index_of_dec by (done || lia).
  assert (drop (S (length (dec a))) (dec a ++ 45 :: dec b) = dec b ++ []) as ->.
  { rewrite app_nil_r, drop_app_ge by lia. rewrite Nat.sub_succ_l, Nat.sub_diag by lia. done. }
  rewrite (M_bind_lift _ _ _ _ (atoi_dec b [] ltac:(lia) I)).
  apply port_range_ok; (done || lia).
Qed.

Lemma render_item_token i : item_valid i → render_item i ≠ [] ∧ 44 ∉ render_item i.
Proof.
  destruct i as [n|a b]; cbn.
  - intros Hn. split; [apply dec_not_nil|apply dec_no_char; [lia|done]].
  - intros [Ha Hb]. split.
    + intros [E _]%app_eq_nil. by apply dec_not_nil in E.
    + rewrite elem_of_app, elem_of_cons. intros [H|[H|H]]; [|done|];
        (apply dec_no_char in H; [done|lia|done]).
Qed.

(** One token of the argument. *)
Lemma item_step i s xs :
  item_valid i → lst_data (port_list s) xs →
  Z.of_nat (length xs) + Z.of_nat (length (item_ports i)) <= int_max →
  (match i with Single _ => Z.of_nat (length xs) < int_max | _ => True end) →
  ∃ L', (match index_of 45 (render_item i) with
         | Some _ => get_ports_range (render_item i)
         | None => v ← lift (atoi (render_item i)); push_port v
         end) s = Done (tt, set_port_list L' s) ∧ lst_data L' (rev (item_ports i) ++ xs).
Proof.
  intros Hi H Hlen Hlt. destruct i as [n|a b].
  - cbn [render_item item_valid] in *.
    rewrite (proj2 (index_of_None 45 _)) by (apply dec_no_char; [lia|done]).
    rewrite <- (app_nil_r (dec n)), (M_bind_lift _ _ _ _ (atoi_dec n [] ltac:(lia) I)).
    destruct (push_port_ok n s xs H Hlt) as (L' & E & HL). exists L'. split; [done|].
    unfold item_ports. rewrite filter_cons, filter_nil in *. by case_decide.
  - pose proof (index_of_dec 45 a (dec b) ltac:(destruct Hi; lia) eq_refl) as Hix.
    cbn [render_item]. rewrite Hix. by apply get_ports_range_ok.
Qed.

Lemma get_ports_loop_ok : ∀ its fuel s xs,
  Forall item_valid its → (length (render its) ≤ fuel)%nat →
  lst_data (port_list s) xs → Z.of_nat (length xs) + Z.of_nat (length (ports_of its)) < int_max →
  ∃ L', get_ports_loop fuel (render its) s = Done (tt, set_port_list L' s) ∧
        lst_data L' (rev (ports_of its) ++ xs).
Proof.
  induction its as [|i its IH]; intros fuel s xs Hv Hf H Hlen.
  { exists (port_list s). split; [|done]. destruct fuel; cbn; by destruct s. }
  pose proof (Forall_inv Hv) as Hi. apply Forall_inv_tail in Hv.
  destruct (render_item_token i Hi) as [Hne Hni].
  assert (∃ rest, strtok 44 (render (i :: its)) = Some (render_item i, rest) ∧ rest = render its) as (rest & Et & ->).
  { destruct its as [|j its]; [exists []; split; [by apply strtok_last|done]|].
    exists (render (j :: its)). split; [by apply strtok_sep|done]. }
  pose proof (strtok_shorter _ _ _ _ Et) as Hsh. destruct fuel as [|fuel]; [lia|].
  cbn [get_ports_loop]. rewrite Et. unfold ports_of in *. cbn [fmap list_fmap concat] in *.
  rewrite length_app in Hlen.
  destruct (item_step i s xs Hi H ltac:(lia) ltac:(destruct i; [lia|done])) as (L1 & P1 & H1).
  rewrite (M_seq _ _ _ _ P1).
  destruct (IH fuel (set_port_list L1 s) (rev (item_ports i) ++ xs) Hv ltac:(lia) H1) as (L2 & P2 & H2).
  { rewrite length_app, length_rev. lia. }
  exists L2. split; [done|]. by rewrite rev_app_distr, <- app_assoc.
Qed.

(** C39: reading back a printed list of ports and ranges: [get_ports] ends and
    pushes exactly the ports between 1 and 1024 that it names, in order. *)
Theorem get_ports_pushes its s xs :
  Forall item_valid its → lst_data (port_list s) xs →
  Z.of_nat (length xs) + Z.of_nat (length (ports_of its)) < int_max →
  ∃ L', get_ports (render its) s = Done (tt, set_port_list L' s) ∧
        lst_data L' (rev (ports_of its) ++ xs).
Proof. intros Hv H Hlen. by apply get_ports_loop_ok. Qed.

Lemma get_ports_pushes_witness : ∃ L',
  get_ports (bytes "1,5-7,1024,2000") ps_zero = Done (tt, set_port_list L' ps_zero) ∧
  lst_data L' [1024; 7; 6; 5; 1].
Proof.
  destruct (get_ports_pushes [Single 1; Range 5 7; Single 1024; Single 2000] ps_zero [])
    as (L' & E & H).
  - repeat constructor; cbn; unfold int_max; lia.
  - apply empty_data.
  - reflexivity.
  - exists L'. split; [exact E|exact H].
Defined.

(** A word with a leading [-] is a range from a negative number. *)
Lemma leading_minus_is_a_range :
  ∃ s, get_ports (bytes "-3") ps_zero = Done (tt, s) ∧ count (port_list s) = 3.
Proof. eexists. split; [vm_compute; reflexivity|reflexivity]. Qed.

(** ** The job list (properties of PsSetup)

    [create_jobs] pushes one job for each selected scan, address and port;
    [get_next_job] takes them from the front; [destroy_joblist], called with
    the saved top, frees them all, those taken included. *)

(** ** Creating jobs *)

Definition jobs_of_ip (ports : list Z) (i : Z) (ip : list Z) : list job_t :=
  (λ port, Job ip port i) <$> ports.
Definition jobs_of_scan (ips : list (list Z)) (ports : list Z) (i : Z) : list job_t :=
  concat (jobs_of_ip ports i <$> ips).
(** In the order in which they are created. *)
Definition all_jobs (sc : list Z) (ips : list (list Z)) (ports : list Z) : list job_t :=
  concat (imap (λ i f, if f =? 0 then [] else jobs_of_scan ips ports (Z.of_nat i)) sc).

(** What is known of the job list, as long as [push] keeps it. *)
Section jobs.
Context (D : lst job_t → list job_t → Prop).
Context (push_D : ∀ x L xs, D L xs → Z.of_nat (length xs) < int_max → ∃ L', push x L = Done L' ∧ D L' (x :: xs)).

Lemma push_job_ok ip port i s js :
  Z.of_nat (length ip) = INET_ADDRSTRLEN → D (job_masterlist s) js →
  Z.of_nat (length js) < int_max →
  ∃ J, push_job ip port i s = Done (tt, set_job_masterlist J s) ∧ D J (Job ip port i :: js).
Proof.
  intros Hip H Hlt. unfold push_job.
  assert (mem_read ip INET_ADDRSTRLEN = Done ip) as E.
  { rewrite mem_read_ok by (unfold INET_ADDRSTRLEN in *; lia). rewrite <- Hip, Nat2Z.id, take_ge by lia. done. }
  rewrite (M_bind_lift _ _ _ _ E), M_bind_gets.
  destruct (push_D (Job ip port i) _ _ H Hlt) as (J & EJ & HJ).
  rewrite (M_bind_lift _ _ _ _ EJ). by exists J.
Qed.

(** The state during the loops: only the job list changes. *)
Lemma job_ports_loop_ok ip i : Z.of_nat (length ip) = INET_ADDRSTRLEN → ∀ l fuel p s js,
  chain (cells (port_list s)) p l → (length l ≤ fuel)%nat →
  D (job_masterlist s) js → Z.of_nat (length js) + Z.of_nat (length l) <= int_max →
  ∃ J, job_ports_loop fuel ip p i s = Done (tt, set_job_masterlist J s) ∧
       D J (rev (jobs_of_ip l.*2 i ip) ++ js).
Proof.
  intros Hip. induction l as [|[a x] l IH]; intros fuel p s js; cbn [chain length].
  - intros -> _ H _. exists (job_masterlist s). split; [|done]. destruct fuel; by destruct s.
  - intros (-> & q & Ha & Hl) Hf H Hlen. destruct fuel as [|fuel]; [lia|]. cbn [job_ports_loop].
    rewrite M_bind_gets, (M_bind_lift _ _ _ _ (deref_ok _ _ _ Ha)). cbn [n_data n_next].
    destruct (push_job_ok ip x i s js Hip H ltac:(lia)) as (J1 & E1 & H1). rewrite (M_seq _ _ _ _ E1).
    destruct (IH fuel q (set_job_masterlist J1 s) (Job ip x i :: js) Hl ltac:(lia) H1) as (J2 & E2 & H2);
      [cbn; lia|].
    exists J2. split; [done|]. unfold jobs_of_ip in *. cbn [fmap list_fmap rev snd]. by rewrite <- app_assoc.
Qed.

Lemma job_ips_loop_ok i ports : ∀ l fuel p s js,
  chain (cells (ip_list s)) p l → (length l ≤ fuel)%nat →
  Forall (λ ip, Z.of_nat (length ip) = INET_ADDRSTRLEN) l.*2 →
  lst_data (port_list s) ports → D (job_masterlist s) js →
  Z.of_nat (length js) + Z.of_nat (length (jobs_of_scan l.*2 ports i)) <= int_max →
  ∃ J, job_ips_loop fuel p i s = Done (tt, set_job_masterlist J s) ∧
       D J (rev (jobs_of_scan l.*2 ports i) ++ js).
Proof.
  induction l as [|[a x] l IH]; intros fuel p s js; cbn [chain length].
  - intros -> _ _ _ H _. exists (job_masterlist s). split; [|done]. destruct fuel; by destruct s.
  - intros (-> & q & Ha & Hl) Hf [Hx Hips]%Forall_cons HP H Hlen. destruct fuel as [|fuel]; [lia|].
    unfold jobs_of_scan in *. cbn [fmap list_fmap concat snd] in *. rewrite length_app in Hlen.
    cbn [job_ips_loop].
    rewrite M_bind_gets, (M_bind_lift _ _ _ _ (deref_ok _ _ _ Ha)), M_bind_gets. cbn [n_data n_next].
    destruct HP as (lp & HP & <-). unfold jobs_of_ip at 1 in Hlen. rewrite !length_fmap in Hlen.
    destruct (job_ports_loop_ok x i Hx lp (S (size (cells (port_list s)))) (list_top (port_list s)) s js)
      as (J1 & E1 & H1); [apply HP| |done|lia|].
    { pose proof (chain_size _ _ _ (rep_chain _ _ HP) (rep_nodup _ _ HP)). lia. }
    rewrite (M_seq _ _ _ _ E1).
    destruct (IH fuel q (set_job_masterlist J1 s) (rev (jobs_of_ip lp.*2 i x) ++ js)) as (J2 & E2 & H2);
      [done|lia|done|by exists lp|done| |].
    { rewrite length_app, length_rev. unfold jobs_of_ip at 1. rewrite !length_fmap. lia. }
    exists J2. split; [done|]. by rewrite rev_app_distr, <- app_assoc.
Qed.

Lemma job_scans_loop_ok ips ports : ∀ sc i s js,
  drop i (scan s) = sc →
  Forall (λ ip, Z.of_nat (length ip) = INET_ADDRSTRLEN) ips →
  lst_data (ip_list s) ips → lst_data (port_list s) ports → D (job_masterlist s) js →
  let new := concat (imap (λ k f, if f =? 0 then [] else jobs_of_scan ips ports (Z.of_nat (i + k))) sc) in
  Z.of_nat (length js) + Z.of_nat (length new) <= int_max →
  ∃ J, job_scans_loop (length sc) i s = Done (tt, set_job_masterlist J s) ∧ D J (rev new ++ js).
Proof.
  induction sc as [|f sc IH]; intros i s js Hd Hips HI HP H new Hlen; subst new.
  { exists (job_masterlist s). split; [by destruct s|done]. }
  cbn [imap concat length job_scans_loop] in *. rewrite Nat.add_0_r in *. rewrite M_bind_gets.
  assert (scan s !! i = Some f) as Hf by (by rewrite <- (Nat.add_0_r i), <- lookup_drop, Hd).
  rewrite (M_bind_lift _ _ _ _ (rd_ok _ _ _ Hf)). rewrite length_app in Hlen.
  set (mine := if f =? 0 then [] else jobs_of_scan ips ports (Z.of_nat i)) in *.
  assert (∃ J, (if f =? 0 then mret tt
       else L ← gets ip_list; job_ips_loop (S (size (cells L))) (list_top L) (Z.of_nat i)) s =
       Done (tt, set_job_masterlist J s) ∧ D J (rev mine ++ js)) as (J1 & E1 & H1).
  { unfold mine in *. destruct (f =? 0); [exists (job_masterlist s); split; [by destruct s|done]|].
    rewrite M_bind_gets. destruct HI as (li & HI & <-).
    apply job_ips_loop_ok; [apply HI| |done|done|done|lia].
    pose proof (chain_size _ _ _ (rep_chain _ _ HI) (rep_nodup _ _ HI)). lia. }
  rewrite (M_seq _ _ _ _ E1).
  assert (∀ k, (i + S k = S i + k)%nat) as Hs by lia.
  assert (concat (imap ((λ k g, if g =? 0 then [] else jobs_of_scan ips ports (Z.of_nat (i + k))) ∘ S) sc) =
          concat (imap (λ k g, if g =? 0 then [] else jobs_of_scan ips ports (Z.of_nat (S i + k))) sc)) as Ei.
  { f_equal. apply imap_ext. intros k g _. cbn [compose]. by rewrite Hs. }
  rewrite Ei in *.
  destruct (IH (S i) (set_job_masterlist J1 s) (rev mine ++ js)) as (J2 & E2 & H2);
    [|done|done|done|done| |].
  { cbn [scan set_job_masterlist]. by rewrite <- (Nat.add_1_r i), <- drop_drop, Hd. }
  { rewrite length_app, length_rev. lia. }
  exists J2. split; [done|]. by rewrite rev_app_distr, <- app_assoc.
Qed.
End jobs.

Lemma exact_free {A} (L : lst A) xs :
  lst_exact L xs → free_from (S (size (cells L))) (list_top L) (cells L) = Done ∅.
Proof. intros (l & Hl & _ & Hall). by apply (free_all_ok L l). Qed.

Lemma destroy_iplist_ok s ips :
  lst_exact (ip_list s) ips → destroy_iplist s = Done (tt, set_ip_list empty_lst s).
Proof. intros H. unfold destroy_iplist. by rewrite M_bind_gets, (M_bind_lift _ _ _ _ (exact_free _ _ H)). Qed.
Lemma destroy_portlist_ok s ports :
  lst_exact (port_list s) ports → destroy_portlist s = Done (tt, set_port_list empty_lst s).
Proof. intros H. unfold destroy_portlist. by rewrite M_bind_gets, (M_bind_lift _ _ _ _ (exact_free _ _ H)). Qed.
Lemma destroy_results_ok s rs :
  lst_exact (result_list s) rs → destroy_results s = Done (tt, set_result_list empty_lst s).
Proof. intros H. unfold destroy_results. by rewrite M_bind_gets, (M_bind_lift _ _ _ _ (exact_free _ _ H)). Qed.

(** C38: [create_jobs] makes one job for every selected scan, address and port,
    in that order; when that leaves no job, it frees the two lists and ends the
    process with [FAILURE].  Its loops end. *)
Theorem create_jobs_product s ips ports js :
  length (scan s) = 6%nat → Forall (λ ip, Z.of_nat (length ip) = INET_ADDRSTRLEN) ips →
  lst_exact (ip_list s) ips → lst_exact (port_list s) ports → lst_data (job_masterlist s) js →
  let new := rev (all_jobs (scan s) ips ports) ++ js in
  Z.of_nat (length new) <= int_max →
  ∃ J, lst_data J new ∧
    create_jobs s =
      Done (if decide (new = [])
            then (Exits FAILURE, set_port_list empty_lst (set_ip_list empty_lst (set_job_masterlist J s)))
            else (Returns tt, set_job_masterlist J s)).
Proof.
  intros Hsc Hips HI HP H new Hlen. unfold new in Hlen. rewrite length_app, length_rev in Hlen.
  destruct (job_scans_loop_ok lst_data push_data ips ports (scan s) 0 s js eq_refl Hips
    (exact_data _ _ HI) (exact_data _ _ HP) H ltac:(unfold all_jobs in Hlen; cbn [Nat.add]; lia)) as (J & E & HJ).
  change (lst_data J new) in HJ.
  rewrite Hsc in E. exists J. split; [done|]. unfold create_jobs.
  rewrite (M_seq _ _ _ _ E), M_bind_gets. cbn [job_masterlist set_job_masterlist]. destruct HJ as (l & HJ & <-).
  pose proof (rep_chain _ _ HJ) as Hc. destruct l as [|[a x] l].
  - cbn in Hc. rewrite Hc, decide_True by done.
    rewrite (M_seq _ _ _ _ (destroy_iplist_ok (set_job_masterlist J s) _ HI)).
    by rewrite (M_seq _ _ _ _
      (destroy_portlist_ok (set_ip_list empty_lst (set_job_masterlist J s)) _ HP)).
  - cbn in Hc. destruct Hc as (-> & _). by rewrite decide_False.
Qed.

(** ** Taking and freeing jobs *)

(** Call [get_next_job] until it gives NULL. *)
Fixpoint drain (fuel : nat) : M ps_state (list positive) :=
  j ← get_next_job;
  match j with
  | None => mret []
  | Some a => match fuel return M ps_state (list positive) with
              | O => λ _, NoFuel | S f => r ← drain f; mret (a :: r)
              end
  end.

Lemma get_next_job_ok s a x l :
  lst_rep (job_masterlist s) ((a, x) :: l) → ∃ J,
  get_next_job s = Done (Some a, set_job_masterlist J s) ∧ lst_rep J l ∧
  cells J = cells (job_masterlist s).
Proof.
  intros [(Ht & q & Ha & Hl) Hnd Hc]. unfold get_next_job. rewrite M_bind_gets, Ht.
  rewrite (M_bind_lift _ _ _ _ (deref_ok _ _ _ Ha)), M_bind_modify. eexists. split; [done|].
  split; [|done]. cbn [fmap list_fmap] in Hnd. apply NoDup_cons in Hnd as [_ Hnd].
  split; [done|done|]. cbn [count]. rewrite Hc. cbn [length]. lia.
Qed.

Lemma drain_ok : ∀ l fuel s,
  lst_rep (job_masterlist s) l → (length l ≤ fuel)%nat → ∃ J,
  drain fuel s = Done (l.*1, set_job_masterlist J s) ∧ lst_rep J [] ∧
  cells J = cells (job_masterlist s).
Proof.
  induction l as [|[a x] l IH]; intros fuel s H Hf.
  - exists (job_masterlist s). split; [|done]. pose proof (rep_chain _ _ H) as Hc. cbn in Hc.
    assert (get_next_job s = Done (None, s)) as E by (unfold get_next_job; by rewrite M_bind_gets, Hc).
    destruct fuel; cbn [drain]; rewrite (M_bind_done _ _ _ _ _ E); by destruct s.
  - cbn [length] in Hf. destruct fuel as [|fuel]; [lia|]. cbn [drain].
    destruct (get_next_job_ok s a x l H) as (J1 & E1 & H1 & C1). rewrite (M_bind_done _ _ _ _ _ E1).
    destruct (IH fuel (set_job_masterlist J1 s) H1 ltac:(lia)) as (J2 & E2 & H2 & C2).
    rewrite (M_bind_done _ _ _ _ _ E2). exists J2. split; [done|]. split; [done|]. by rewrite C2.
Qed.

(** The scanner takes every job once, the last created first, and
    [destroy_joblist] with the top saved before the scan then frees all of
    them, and each once. *)
Theorem jobs_taken_and_freed s l :
  lst_rep (job_masterlist s) l → (∀ a n, cells (job_masterlist s) !! a = Some n → a ∈ l.*1) →
  ∃ s', drain (length l) s = Done (l.*1, s') ∧ list_top (job_masterlist s') = None ∧
    destroy_joblist (list_top (job_masterlist s)) s' =
      Done (tt, set_job_list None 0 (set_job_masterlist empty_lst s)).
Proof.
  intros H Hall. destruct (drain_ok l (length l) s H ltac:(lia)) as (J & E & HJ & C).
  eexists. split; [done|]. split; [apply HJ|]. unfold destroy_joblist. rewrite M_bind_gets.
  cbn [job_masterlist set_job_masterlist]. rewrite C, (M_bind_lift _ _ _ _ (free_all_ok _ _ H Hall)).
  by rewrite M_bind_modify.
Qed.

(** ** Witnesses *)

Definition ip_cell (ip : string) : list Z := let b := bytes ip in b ++ replicate (16 - length b) 0.
Definition sample_ips : lst (list Z) :=
  Lst {[ 1%positive := Node (ip_cell "10.0.0.1") (Some 2%positive);
         2%positive := Node (ip_cell "10.0.0.2") None ]} (Some 1%positive) 2.
Definition sample_ports : lst Z := Lst {[ 7%positive := Node 80 None ]} (Some 7%positive) 1.
Definition sample_state : ps_state :=
  PS sample_ips sample_ports empty_lst None 0 empty_lst [1; 0; 0; 0; 0; 1] UNASSIGNED 0.

Lemma sample_ips_exact : lst_exact sample_ips [ip_cell "10.0.0.1"; ip_cell "10.0.0.2"].
Proof.
  exists [(1%positive, ip_cell "10.0.0.1"); (2%positive, ip_cell "10.0.0.2")]. split; [|split; [done|]].
  - split; [solve_chain|apply (bool_decide_unpack _); vm_compute; done|done].
  - intros a n H. cbn. rewrite !elem_of_cons. cbn in H.
    apply lookup_insert_Some in H as [[<- _]|[_ H]]; [by left|].
    apply lookup_singleton_Some in H as [<- _]. right. by left.
Qed.

Lemma sample_ports_exact : lst_exact sample_ports [80].
Proof.
  exists [(7%positive, 80)]. split; [|split; [done|]].
  - split; [solve_chain|apply (bool_decide_unpack _); vm_compute; done|done].
  - intros a n H. cbn in H; apply lookup_singleton_Some in H as [<- _]. cbn. by left.
Qed.

Lemma create_jobs_product_witness : ∃ J,
  lst_data J [Job (ip_cell "10.0.0.2") 80 5; Job (ip_cell "10.0.0.1") 80 5;
              Job (ip_cell "10.0.0.2") 80 0; Job (ip_cell "10.0.0.1") 80 0] ∧
  create_jobs sample_state = Done (Returns tt, set_job_masterlist J sample_state).
Proof.
  destruct (create_jobs_product sample_state [ip_cell "10.0.0.1"; ip_cell "10.0.0.2"] [80] [])
    as (J & HJ & E).
  - reflexivity.
  - apply (bool_decide_unpack _). vm_compute. reflexivity.
  - apply sample_ips_exact.
  - apply sample_ports_exact.
  - apply empty_data.
  - vm_compute. discriminate.
  - exists J. split; [exact HJ|]. rewrite E, decide_False by discriminate. reflexivity.
Defined.

Definition taken_jobs : lst job_t :=
  Lst {[ 1%positive := Node (Job (ip_cell "10.0.0.1") 80 0) (Some 2%positive);
         2%positive := Node (Job (ip_cell "10.0.0.1") 22 0) None ]} (Some 1%positive) 2.

Lemma jobs_taken_and_freed_witness : ∃ s',
  drain 2 (set_job_masterlist taken_jobs ps_zero) = Done ([1%positive; 2%positive], s') ∧
  destroy_joblist (Some 1%positive) s' = Done (tt, set_job_list None 0 ps_zero).
Proof.
  destruct (jobs_taken_and_freed (set_job_masterlist taken_jobs ps_zero)
    [(1%positive, Job (ip_cell "10.0.0.1") 80 0); (2%positive, Job (ip_cell "10.0.0.1") 22 0)])
    as (s' & E & _ & D).
  - split; [solve_chain|apply (bool_decide_unpack _); vm_compute; done|done].
  - intros a n H. cbn. rewrite !elem_of_cons. cbn in H.
    apply lookup_insert_Some in H as [[<- _]|[_ H]]; [by left|].
    apply lookup_singleton_Some in H as [<- _]. right. by left.
  - exists s'. split; [exact E|exact D].
Defined.
