(* ===== verification/PsNet.v ===== *)
(** * The addresses of a network (properties of PsSetup)

    For a prefix of 16 bits or more [get_netmask] gives the mask of the prefix
    and [get_ipAdresses] pushes the host addresses of the network that resolve,
    the network address and the broadcast address left out.  For 8 to 15 bits
    the mask is wrong, for 7 or fewer the code writes before the array. *)

From S2P Require Import Prelude CString PsText PsBytes PsList PsSetup PsJobs.
From stdpp Require Import gmap strings.

Open Scope Z_scope.

(** ** The mask *)

Lemma get_netmask_spec p :
  16 <= p <= 32 → get_netmask p = Done (be_bytes 4 (2 ^ 32 - 2 ^ (32 - p))).
Proof.
  intros Hp. assert (Forall (λ p, get_netmask p = Done (be_bytes 4 (2 ^ 32 - 2 ^ (32 - p)))) (seqZ 16 17)) as H
    by (apply (bool_decide_unpack _); vm_compute; done).
  rewrite Forall_forall in H. apply H, elem_of_seqZ. lia.
Qed.

Lemma get_netmask_wrong p :
  8 <= p < 16 → ∃ m, get_netmask p = Done m ∧ m ≠ be_bytes 4 (2 ^ 32 - 2 ^ (32 - p)).
Proof.
  intros Hp. assert (Forall (λ p, is_done (get_netmask p) ∧
      get_netmask p ≠ Done (be_bytes 4 (2 ^ 32 - 2 ^ (32 - p)))) (seqZ 8 8)) as H
    by (apply (bool_decide_unpack _); vm_compute; done).
  rewrite Forall_forall in H. destruct (H p) as [Hd Hne]; [apply elem_of_seqZ; lia|].
  destruct (get_netmask p) as [m| |]; try done. exists m. split; [done|congruence].
Qed.

Lemma get_netmask_out_of_bounds p : 0 <= p < 8 → get_netmask p = Fault OutOfBounds.
Proof.
  intros Hp. assert (Forall (λ p, get_netmask p = Fault OutOfBounds) (seqZ 0 8)) as H
    by (apply (bool_decide_unpack _); vm_compute; done).
  rewrite Forall_forall in H. apply H, elem_of_seqZ. lia.
Qed.

(** ** Reading an address *)

Lemma ip_bytes_dotted ip :
  length ip = 4%nat → Forall is_byte ip → ip_bytes (dotted ip) = Done ip.
Proof.
  destruct ip as [|a [|b [|c [|d []]]]]; try done. intros _ H.
  repeat (apply Forall_cons in H as [? H]). unfold is_byte in *.
  assert (∀ n r, 0 <= n < 256 → strtok 46 (dec n ++ 46 :: r) = Some (dec n, r)) as Hs.
  { intros n r Hn. apply strtok_sep; [apply dec_not_nil|apply dec_no_char; [lia|done]]. }
  assert (∀ n, 0 <= n < 256 → atoi (dec n) = Done n) as Ha.
  { intros n Hn. rewrite <- (app_nil_r (dec n)). apply atoi_dec; [unfold int_max; lia|done]. }
  unfold ip_bytes. cbn [dotted ip_bytes_loop]. rewrite !Hs by done.
  rewrite strtok_last by (apply dec_not_nil || (apply dec_no_char; [lia|done])).
  rewrite !Ha by done. cbn [mbind outcome_bind insert list_insert]. by rewrite !Z.mod_small by lia.
Qed.

(** ** Host addresses *)

(** The network of an address, as a number. *)
Definition network (ip : list Z) (prefix : Z) : Z :=
  2 ^ (32 - prefix) * (be_val ip / 2 ^ (32 - prefix)).

Lemma be_val_bytes n z : 0 <= z < 256 ^ Z.of_nat n → be_val (be_bytes n z) = z.
Proof. intros H. unfold be_val, be_bytes. rewrite rev_involutive. by apply le_val_bytes. Qed.

Lemma be_val_bound bs : Forall is_byte bs → 0 <= be_val bs < 256 ^ Z.of_nat (length bs).
Proof. intros H. unfold be_val. rewrite <- length_rev. apply le_val_bound. by apply Forall_rev. Qed.

Lemma be_bytes_val bs : Forall is_byte bs → be_bytes (length bs) (be_val bs) = bs.
Proof.
  intros H. unfold be_bytes, be_val. rewrite <- (length_rev bs), le_bytes_val by (by apply Forall_rev).
  apply rev_involutive.
Qed.

Lemma host_network ip p :
  length ip = 4%nat → Forall is_byte ip → 16 <= p <= 32 →
  let host := zip_with Z.land ip (be_bytes 4 (2 ^ 32 - 2 ^ (32 - p))) in
  length host = 4%nat ∧ Forall is_byte host ∧ be_val host = network ip p.
Proof.
  intros Hlen Hip Hp host. pose proof (be_bytes_byte 4 (2 ^ 32 - 2 ^ (32 - p))) as Hm.
  assert (2 ^ (32 - p) <= 2 ^ 16) as Hpow by (apply Z.pow_le_mono_r; lia).
  assert (0 < 2 ^ (32 - p)) as Hpos by (apply Z.pow_pos_nonneg; lia).
  assert (length ip = length (be_bytes 4 (2 ^ 32 - 2 ^ (32 - p)))) as Hl by by rewrite length_be_bytes.
  split; [|split].
  - unfold host. rewrite length_zip_with_l_eq; done.
  - unfold host. apply (bitwise_bytes _ bitwise_land); done.
  - unfold host. rewrite (bitwise_be_val _ bitwise_land) by done.
    rewrite be_val_bytes by (change (256 ^ Z.of_nat 4) with (2 ^ 32); lia).
    apply land_high_part; [lia|]. pose proof (be_val_bound ip Hip) as Hb. by rewrite Hlen in Hb.
Qed.

Lemma host_address_ok host i :
  length host = 4%nat → Forall is_byte host → 0 <= i < 2 ^ 32 →
  host_address host i = be_bytes 4 (Z.lor (be_val host) i).
Proof.
  intros Hlen Hh Hi. unfold host_address.
  pose proof (be_bytes_byte 4 i) as Hb. assert (length host = length (be_bytes 4 i)) as Hl by by rewrite length_be_bytes.
  rewrite (bitwise_le_val _ bitwise_lor) by done.
  assert (length (zip_with Z.lor host (be_bytes 4 i)) = 4%nat) as Hz by (rewrite length_zip_with_l_eq; done).
  pose proof (bitwise_bytes _ bitwise_lor _ _ Hh Hb Hl) as Hzb.
  rewrite <- Hz at 1. rewrite le_bytes_val by done.
  rewrite <- (be_val_bytes 4 i Hi) at 2. rewrite <- (bitwise_be_val _ bitwise_lor) by done.
  rewrite <- Hz at 2. by rewrite be_bytes_val.
Qed.

Section hosts.
Context (gethostbyname : list Z → option (list Z)).
(** [inet_ntoa] writes into a buffer of at least 16 bytes. *)
Context (Hbuf : ∀ name b, gethostbyname name = Some b → (16 ≤ length b)%nat).

(** The 16 bytes stored for a name, if it resolves. *)
Definition resolved (name : list Z) : option (list Z) := take 16 <$> gethostbyname name.

Lemma push_ip_ok name s xs :
  lst_data (ip_list s) xs → Z.of_nat (length xs) < int_max → ∃ L,
  push_ip gethostbyname name s = Done (tt, set_ip_list L s) ∧
  lst_data L (option_list (resolved name) ++ xs).
Proof.
  intros H Hlt. unfold push_ip, resolved. destruct (gethostbyname name) as [b|] eqn:E; cbn [fmap option_fmap option_map].
  - apply Hbuf in E.
    assert (mem_read b INET_ADDRSTRLEN = Done (take 16 b)) as Er by (apply mem_read_ok; unfold INET_ADDRSTRLEN; lia).
    rewrite (M_bind_lift _ _ _ _ Er), M_bind_gets.
    destruct (push_data (take 16 b) _ _ H Hlt) as (L & EL & HL). rewrite (M_bind_lift _ _ _ _ EL).
    by exists L.
  - exists (ip_list s). split; [by destruct s|done].
Qed.

Lemma resolve_push_ok name s xs :
  lst_data (ip_list s) xs → Z.of_nat (length xs) < int_max → ∃ L,
  match gethostbyname name with Some _ => push_ip gethostbyname name | None => mret tt end s =
    Done (tt, set_ip_list L s) ∧ lst_data L (option_list (resolved name) ++ xs).
Proof.
  intros H Hlt. destruct (gethostbyname name) as [b|] eqn:E; [by apply push_ip_ok|].
  exists (ip_list s). split; [by destruct s|]. unfold resolved. by rewrite E.
Qed.

Lemma rev_omap_cons {A B} (f : A → option B) x l :
  rev (omap f (x :: l)) = rev (omap f l) ++ option_list (f x).
Proof. cbn. destruct (f x); cbn; [done|by rewrite app_nil_r]. Qed.

Lemma hosts_loop_ok host : ∀ n i s xs,
  lst_data (ip_list s) xs → Z.of_nat (length xs) + Z.of_nat n <= int_max → ∃ L,
  hosts_loop gethostbyname n host i s = Done (tt, set_ip_list L s) ∧
  lst_data L (rev (omap resolved ((λ k, dotted (host_address host k)) <$> seqZ i (Z.of_nat n))) ++ xs).
Proof.
  induction n as [|n IH]; intros i s xs H Hlen.
  - exists (ip_list s). split; [by destruct s|]. rewrite seqZ_nil by lia. done.
  - rewrite seqZ_cons by lia. cbn [fmap list_fmap hosts_loop]. rewrite rev_omap_cons, <- app_assoc.
    destruct (resolve_push_ok (dotted (host_address host i)) s xs H ltac:(lia)) as (L1 & E1 & H1).
    rewrite (M_seq _ _ _ _ E1).
    destruct (IH (i + 1) (set_ip_list L1 s) _ H1) as (L2 & E2 & H2).
    { rewrite length_app. destruct (resolved _); cbn; lia. }
    exists L2. split; [done|]. replace (Z.pred (Z.of_nat (S n))) with (Z.of_nat n) by lia. done.
Qed.

(** The host addresses of a network: all but the first and the last. *)
Definition host_names (ip : list Z) (p : Z) : list (list Z) :=
  (λ k, dotted (be_bytes 4 (network ip p + k))) <$> seqZ 1 (2 ^ (32 - p) - 2).

Lemma get_hostcount_ok p : 16 <= p <= 32 → get_hostcount p = Done (Returns (2 ^ (32 - p) - 2)).
Proof.
  intros Hp. unfold get_hostcount. rewrite (proj2 (Z.ltb_ge _ _)) by lia.
  assert (2 ^ (32 - p) <= 2 ^ 16) as Hpow by (apply Z.pow_le_mono_r; lia).
  rewrite (proj2 (Z.leb_le _ _)); [done|]. unfold int_max. lia.
Qed.

(** For a prefix of 16 to 32 bits [get_ipAdresses] pushes, in order, the
    addresses of the network's hosts (from the second to the last but one)
    that resolve. *)
Theorem get_ipAdresses_hosts ip p s xs :
  length ip = 4%nat → Forall is_byte ip → 16 <= p <= 32 → lst_data (ip_list s) xs →
  Z.of_nat (length xs) + 2 ^ (32 - p) <= int_max → ∃ L,
  get_ipAdresses gethostbyname (dotted ip) p s = Done (Returns tt, set_ip_list L s) ∧
  lst_data L (rev (omap resolved (host_names ip p)) ++ xs).
Proof.
  intros Hlen Hip Hp H Hmax. unfold get_ipAdresses.
  assert (0 < 2 ^ (32 - p)) as Hpos by (apply Z.pow_pos_nonneg; lia).
  assert (2 ^ (32 - p) <= 2 ^ 16) as Hpow by (apply Z.pow_le_mono_r; lia).
  rewrite (M_bind_lift _ _ _ _ (ip_bytes_dotted ip Hlen Hip)), (M_bind_lift _ _ _ _ (get_hostcount_ok p Hp)),
    (M_bind_lift _ _ _ _ (get_netmask_spec p Hp)).
  destruct (host_network ip p Hlen Hip Hp) as (Hl & Hb & Hn).
  set (host := zip_with Z.land ip (be_bytes 4 (2 ^ 32 - 2 ^ (32 - p)))) in *.
  destruct (hosts_loop_ok host (Z.to_nat (2 ^ (32 - p) - 2)) 1 s xs H ltac:(lia)) as (L & E & HL).
  cbn zeta. rewrite (M_seq _ _ _ _ E). exists L. split; [done|].
  assert (host_names ip p = (λ k, dotted (host_address host k)) <$> seqZ 1 (Z.of_nat (Z.to_nat (2 ^ (32 - p) - 2))))
    as ->; [|done]. unfold host_names.
  destruct (Z.le_gt_cases (2 ^ (32 - p) - 2) 0) as [Hz|Hz].
  { rewrite !seqZ_nil by lia. done. }
  rewrite Z2Nat.id by lia. apply list_fmap_ext. intros k x Hx.
  apply lookup_seqZ in Hx as [-> Hk]. f_equal.
  rewrite host_address_ok by (done || lia). rewrite Hn. unfold network. rewrite lor_low_part by lia. done.
Qed.
End hosts.

(** ** Witness and limits *)

(** A resolver that knows the addresses below 10.0.0.0/24 by their dotted form. *)
Definition sample_resolver (name : list Z) : option (list Z) :=
  if bool_decide (take 7 name = bytes "10.0.0.") then Some (name ++ replicate 16 0) else None.

Lemma sample_resolver_buffer name b : sample_resolver name = Some b → (16 ≤ length b)%nat.
Proof.
  unfold sample_resolver. case_bool_decide; [|done]. intros [= <-]. rewrite length_app. cbn. lia.
Qed.

Lemma get_ipAdresses_hosts_witness : ∃ L,
  get_ipAdresses sample_resolver (bytes "10.0.0.9") 30 ps_zero = Done (Returns tt, set_ip_list L ps_zero) ∧
  lst_data L [ip_cell "10.0.0.10"; ip_cell "10.0.0.9"].
Proof.
  destruct (get_ipAdresses_hosts sample_resolver sample_resolver_buffer [10; 0; 0; 9] 30 ps_zero [])
    as (L & E & H).
  - reflexivity.
  - apply (bool_decide_unpack _). vm_compute. reflexivity.
  - lia.
  - apply empty_data.
  - vm_compute. discriminate.
  - exists L. split; [exact E|exact H].
Defined.

(** Below 16 bits the mask is never the one of the prefix. *)
Lemma netmask_right_iff p :
  0 <= p <= 32 → get_netmask p = Done (be_bytes 4 (2 ^ 32 - 2 ^ (32 - p))) ↔ 16 <= p.
Proof.
  intros Hp. split; [|intros; apply get_netmask_spec; lia]. intros E.
  destruct (Z.lt_ge_cases p 16) as [Hlt|]; [|lia]. destruct (Z.lt_ge_cases p 8).
  - rewrite get_netmask_out_of_bounds in E by lia. done.
  - destruct (get_netmask_wrong p ltac:(lia)) as (m & Em & Hne). rewrite Em in E. congruence.
Qed.
