(* ===== verification/PsResults.v ===== *)
(** * The result table (properties of PsSetup)

    [push_result] keeps one entry per address and port, holding the last value
    of each scan and the least value seen, and frees the result it was given. *)

From S2P Require Import Prelude CString PsText PsList PsSetup PsJobs.
From stdpp Require Import gmap strings.

Open Scope Z_scope.

(** ** The table as a list *)

Definition ip_text (ip : list Z) : list Z := take (span_len (λ c, negb (c =? 0)) ip) ip.

Definition key_of (r : result_t) : Z * list Z := (r_portno r, ip_text (r_ip r)).

(** An entry after one more result of the scan [st]. *)
Definition merge_entry (st : nat) (v : Z) (t : result_t) : result_t :=
  let res := <[st := v]> (r_result t) in
  Result (r_ip t) (r_service t) res (conclude res (r_conclusion t)) (r_portno t) (r_scan_type t).

Fixpoint alter_first (k : Z * list Z) (f : result_t → result_t) (ts : list result_t)
  : option (list result_t) :=
  match ts with
  | [] => None
  | t :: ts' => if decide (key_of t = k) then Some (f t :: ts') else (t ::.) <$> alter_first k f ts'
  end.
Definition record (r : result_t) (st : nat) (v : Z) (ts : list result_t) : list result_t :=
  match alter_first (key_of r) (merge_entry st v) ts with
  | Some ts' => ts'
  | None => merge_entry st v (new_result r) :: ts
  end.

(** What the code needs of the results it compares. *)
Definition ip_ok (r : result_t) : Prop := 0 ∈ r_ip r.
Definition entry_ok (r : result_t) : Prop := ip_ok r ∧ length (r_result r) = 6%nat.

(** ** Lemmas *)

Lemma c_str_ip_text ip : 0 ∈ ip → c_str ip = Done (ip_text ip).
Proof.
  unfold ip_text. induction ip as [|c ip IH]; intros H; [by apply not_elem_of_nil in H|].
  cbn. destruct (Z.eqb_spec c 0) as [->|Hc]; [done|]. cbn. rewrite IH; [done|].
  apply elem_of_cons in H as [H|H]; [by subst|done].
Qed.

Lemma ip_eq_spec a b : 0 ∈ a → 0 ∈ b → ip_eq a b = Done (bool_decide (ip_text a = ip_text b)).
Proof. intros Ha Hb. unfold ip_eq. by rewrite !c_str_ip_text. Qed.

Lemma find_result_spec h r l : ip_ok r → ∀ fuel p,
  chain h p l → Forall ip_ok l.*2 → (length l ≤ fuel)%nat →
  match alter_first (key_of r) id l.*2 with
  | None => find_result fuel h p r = Done None
  | Some _ => ∃ l1 a t l2, l = l1 ++ (a, t) :: l2 ∧ find_result fuel h p r = Done (Some a) ∧
      ∀ f, alter_first (key_of r) f l.*2 = Some (l1.*2 ++ f t :: l2.*2)
  end.
Proof.
  intros Hr. induction l as [|[a t] l IH]; intros fuel p; cbn [chain length].
  { intros -> _ _. by destruct fuel. }
  intros (-> & q & Ha & Hl) [Ht Hts]%Forall_cons Hf. destruct fuel as [|fuel]; [lia|].
  cbn [find_result fmap list_fmap alter_first fst snd]. rewrite (deref_ok _ _ _ Ha). cbn [mbind outcome_bind n_data n_next].
  assert ((if r_portno t =? r_portno r then ip_eq (r_ip t) (r_ip r) else Done false) =
    Done (bool_decide (key_of t = key_of r))) as ->.
  { unfold key_of. destruct (Z.eqb_spec (r_portno t) (r_portno r)) as [E|E].
    - rewrite ip_eq_spec by done. f_equal. apply bool_decide_ext. rewrite E. split; [by intros ->|by intros [= ->]].
    - rewrite bool_decide_eq_false_2; [done|congruence]. }
  cbn [mbind outcome_bind]. destruct (decide (key_of t = key_of r)) as [E|E].
  - rewrite bool_decide_eq_true_2 by done. exists [], a, t, l. split; [done|]. split; [done|]. intros f. done.
  - rewrite bool_decide_eq_false_2 by done. specialize (IH fuel q Hl Hts ltac:(lia)).
    destruct (alter_first (key_of r) id l.*2) as [y|]; cbn [fmap option_fmap option_map]; [|done].
    destruct IH as (l1 & b & u & l2 & -> & E1 & E2). exists ((a, t) :: l1), b, u, l2.
    split; [done|]. split; [done|]. intros f. by rewrite E2.
Qed.

Lemma update_result_spec t r st v :
  r_scan_type r = Some (Z.of_nat st) → (st < 6)%nat → r_result r !! st = Some v →
  update_result t r = Done (merge_entry st v t).
Proof.
  intros Hs Hlt Hv. unfold update_result. rewrite Hs.
  rewrite (proj2 (Z.leb_le _ _)), (proj2 (Z.ltb_lt _ _)) by lia. cbn [andb].
  rewrite Nat2Z.id, (rd_ok _ _ _ Hv). done.
Qed.

Lemma merge_ok st v t : entry_ok t → entry_ok (merge_entry st v t).
Proof. intros [H1 H2]. split; [done|]. cbn. by rewrite length_insert. Qed.

Lemma new_result_ok r : ip_ok r → entry_ok (new_result r).
Proof. by split. Qed.

Lemma alter_first_ok k f ts ts' :
  (∀ t, entry_ok t → entry_ok (f t)) → alter_first k f ts = Some ts' →
  Forall entry_ok ts → Forall entry_ok ts'.
Proof.
  intros Hf. revert ts'; induction ts as [|t ts IH]; intros ts'; cbn; [done|].
  case_decide.
  - intros [= <-] [H1 H2]%Forall_cons. by constructor; [apply Hf|].
  - intros (y & Hy & ->)%fmap_Some [H1 H2]%Forall_cons. constructor; [done|by apply IH].
Qed.

Lemma record_ok r st v ts : ip_ok r → Forall entry_ok ts → Forall entry_ok (record r st v ts).
Proof.
  intros Hr Hts. unfold record. destruct (alter_first _ _ _) as [ts'|] eqn:E.
  - eapply alter_first_ok; [|done|done]. intros t. apply merge_ok.
  - constructor; [|done]. by apply merge_ok, new_result_ok.
Qed.

(** ** [push_result] *)

(** The last part: update the entry [a], free the result [p]. *)
Lemma finish_push p r q0 st v l1 a t l2 L s :
  r_scan_type r = Some (Z.of_nat st) → (st < 6)%nat → r_result r !! st = Some v →
  chain (cells L) (list_top L) (l1 ++ (a, t) :: l2) → NoDup (l1 ++ (a, t) :: l2).*1 →
  p ∉ (l1 ++ (a, t) :: l2).*1 → cells L !! p = Some (Node r q0) →
  count L = Z.of_nat (length (l1 ++ (a, t) :: l2)) →
  ∃ L', (u ← lift (deref (cells L) (Some a));
         t' ← lift (update_result (n_data u) r);
         h' ← lift (free_node (Some p) (<[a := Node t' (n_next u)]> (cells L)));
         modify (set_result_list (Lst h' (list_top L) (count L)))) s = Done (tt, set_result_list L' s) ∧
    lst_rep L' (l1 ++ (a, merge_entry st v t) :: l2) ∧ cells L' !! p = None ∧
    ∀ b, b ≠ p → b ≠ a → cells L' !! b = cells L !! b.
Proof.
  intros Hs Hlt Hv Hc Hnd Hp Hpr Hcount.
  destruct (chain_set l1 a t l2 (cells L) (list_top L) (merge_entry st v t) Hc Hnd) as (q & Ha & Hc').
  assert (a ≠ p) as Hap by congruence || (intros ->; apply Hp; rewrite fmap_app, fmap_cons; apply elem_of_app; right; by left).
  rewrite (M_bind_lift _ _ _ _ (deref_ok _ _ _ Ha)). cbn [n_data n_next].
  rewrite (M_bind_lift _ _ _ _ (update_result_spec t r st v Hs Hlt Hv)).
  unfold free_node. rewrite bool_decide_eq_true_2 by (rewrite lookup_insert_ne by congruence; eauto).
  rewrite (M_bind_lift _ _ _ _ eq_refl). eexists. split; [done|].
  assert ((l1 ++ (a, merge_entry st v t) :: l2).*1 = (l1 ++ (a, t) :: l2).*1) as Ek by (by rewrite !fmap_app).
  split; [split|split]; cbn [cells list_top count].
  - apply chain_delete; [by rewrite Ek|done].
  - by rewrite Ek.
  - rewrite Hcount. f_equal. by rewrite !length_app.
  - apply lookup_delete_eq.
  - intros b Hb1 Hb2. by rewrite lookup_delete_ne, lookup_insert_ne by congruence.
Qed.

(** [push_result] records the value of the scan in the entry of the
    address and port, which it creates when there is none, frees the result it
    was given and touches no other node. *)
Lemma push_result_records s l p r q st v :
  lst_rep (result_list s) l → Forall entry_ok l.*2 →
  p ∉ l.*1 → cells (result_list s) !! p = Some (Node r q) → ip_ok r →
  r_scan_type r = Some (Z.of_nat st) → (st < 6)%nat → r_result r !! st = Some v →
  Z.of_nat (length l) < int_max →
  ∃ L' l', push_result (Some p) s = Done (tt, set_result_list L' s) ∧ lst_rep L' l' ∧
    l'.*2 = record r st v l.*2 ∧ (∀ b, b ∈ l.*1 → b ∈ l'.*1) ∧ cells L' !! p = None ∧
    ∀ b, b ≠ p → b ∉ l'.*1 → cells L' !! b = cells (result_list s) !! b.
Proof.
  intros HL Hok Hp Hpr Hr Hs Hlt Hv Hlen. destruct HL as [Hc Hnd Hn].
  unfold push_result. rewrite M_bind_gets, (M_bind_lift _ _ _ _ (deref_ok _ _ _ Hpr)). cbn [n_data].
  pose proof (find_result_spec (cells (result_list s)) r l Hr (S (size (cells (result_list s))))
    (list_top (result_list s)) Hc) as Hfind.
  assert (Forall ip_ok l.*2) as Hips by (eapply Forall_impl; [done|]; by intros ? []).
  specialize (Hfind Hips ltac:(pose proof (chain_size _ _ _ Hc Hnd); lia)). unfold record.
  destruct (alter_first (key_of r) id l.*2) as [y|] eqn:Ealt.
  - destruct Hfind as (l1 & a & t & l2 & -> & Ef & Hf). rewrite (M_bind_lift _ _ _ _ Ef), M_bind_ret, M_bind_gets.
    destruct (finish_push p r q st v l1 a t l2 (result_list s) s Hs Hlt Hv Hc Hnd Hp Hpr Hn)
      as (L' & E & HL' & Hfree & Hother).
    exists L', (l1 ++ (a, merge_entry st v t) :: l2). split; [done|]. split; [done|]. rewrite Hf, !fmap_app.
    split; [done|]. split; [done|]. split; [done|]. intros b Hb Hni. apply Hother; [done|]. intros ->. apply Hni.
    rewrite fmap_cons. apply elem_of_app. right. by left.
  - rewrite (M_bind_lift _ _ _ _ Hfind).
    destruct (push_ok (new_result r) (result_list s) l ltac:(by split) Hlen)
      as (L1 & E1 & [Hc1 Hnd1 Hn1] & _).
    set (a := new_addr (cells (result_list s))) in *.
    assert (cells L1 = <[a := Node (new_result r) (list_top (result_list s))]> (cells (result_list s)) ∧
            list_top L1 = Some a) as [Ecells Etop].
    { unfold push in E1. rewrite Hn, int_succ_ok in E1 by lia. by injection E1 as <-. }
    assert (p ≠ a) as Hpa.
    { intros ->. pose proof (new_addr_fresh (cells (result_list s))) as Hfr. fold a in Hfr. congruence. }
    assert (((L' ← lift (push (new_result r) (result_list s)); modify (set_result_list L')) : M ps_state unit) s =
            Done (tt, set_result_list L1 s)) as Epush by by rewrite (M_bind_lift _ _ _ _ E1).
    rewrite (M_seq _ _ _ _ Epush), M_bind_gets. cbn [result_list set_result_list].
    destruct (finish_push p r q st v [] a (new_result r) l L1 (set_result_list L1 s) Hs Hlt Hv Hc1 Hnd1)
      as (L' & E & HL' & Hfree & Hother); [|by rewrite Ecells, lookup_insert_ne|done|].
    { cbn. by apply not_elem_of_cons. }
    rewrite Etop in *. exists L', ((a, merge_entry st v (new_result r)) :: l). split; [done|]. split; [done|].
    assert (alter_first (key_of r) (merge_entry st v) l.*2 = None) as ->.
    { clear -Ealt. revert Ealt. generalize (l.*2). intros ts. induction ts as [|t ts IH]; [done|]. cbn.
      case_decide; [done|]. intros Hn. destruct (alter_first (key_of r) id ts); [done|]. by rewrite IH. }
    split; [done|]. split; [intros b Hb; by right|]. split; [done|]. intros b Hb Hni. cbn in Hni. apply not_elem_of_cons in Hni as [Hba _].
    rewrite Hother by done. by rewrite Ecells, lookup_insert_ne.
Qed.

(** ** The table against the history of pushes *)

Definition push_event : Type := (Z * list Z) * (nat * Z).

Definition values_for (h : list push_event) (k : Z * list Z) : list Z :=
  omap (λ e, if decide (e.1 = k) then Some e.2.2 else None) h.
Definition scan_values (h : list push_event) (k : Z * list Z) (i : nat) : list Z :=
  omap (λ e, if decide (e.1 = k ∧ e.2.1 = i) then Some e.2.2 else None) h.
(** The least value that is set, 10 when there is none. *)
Definition least (vs : list Z) : Z := foldr Z.min 10 (filter (λ v, v ≠ NONE) vs).

Definition entry_for (h : list push_event) (t : result_t) : Prop :=
  r_conclusion t = least (values_for h (key_of t)) ∧
  ∀ i, (i < 6)%nat → r_result t !! i = Some (default NONE (last (scan_values h (key_of t) i))).

Record table_for (h : list push_event) (ts : list result_t) : Prop := {
  table_entries : Forall (λ t, entry_ok t ∧ entry_for h t) ts;
  table_nodup : NoDup (key_of <$> ts);
  table_keys : ∀ k, k ∈ key_of <$> ts ↔ k ∈ h.*1;
}.

Lemma foldr_min_snoc b vs v : foldr Z.min b (vs ++ [v]) = Z.min v (foldr Z.min b vs).
Proof. induction vs as [|x vs IH]; cbn; [lia|]. rewrite IH. lia. Qed.

Lemma foldr_min_le b vs v : v ∈ vs → foldr Z.min b vs <= v.
Proof. induction 1; cbn; lia. Qed.

Lemma least_snoc vs v : least (vs ++ [v]) = if decide (v = NONE) then least vs else Z.min v (least vs).
Proof.
  unfold least. rewrite filter_app, filter_cons, filter_nil. case_decide; case_decide; try done.
  - by rewrite foldr_min_snoc.
  - by rewrite app_nil_r.
Qed.

Lemma least_le vs v : v ∈ vs → v ≠ NONE → least vs <= v.
Proof. intros Hin Hv. apply foldr_min_le. by apply list_elem_of_filter. Qed.

Lemma conclude_above xs : ∀ c, (∀ x, x ∈ xs → x ≠ NONE → c <= x) → conclude xs c = c.
Proof.
  unfold conclude. induction xs as [|x xs IH]; intros c H; [done|]. cbn [foldl].
  assert ((if negb (x =? NONE) then if c <? x then c else x else c) = c) as ->.
  { destruct (Z.eqb_spec x NONE) as [|Hx]; [done|]. cbn. destruct (Z.ltb_spec c x); [done|].
    pose proof (H x ltac:(left) Hx). lia. }
  apply IH. intros y Hy. apply H. by right.
Qed.

Lemma conclude_insert xs st v c :
  (st < length xs)%nat → (∀ x, x ∈ xs → x ≠ NONE → c <= x) →
  conclude (<[st := v]> xs) c = if decide (v = NONE) then c else Z.min v c.
Proof.
  intros Hlt H. rewrite insert_take_drop by done. unfold conclude. rewrite foldl_app. cbn [foldl].
  change (foldl _ c (take st xs)) with (conclude (take st xs) c).
  rewrite conclude_above by (intros x Hx; apply H; rewrite <- (take_drop st xs); apply elem_of_app; by left).
  assert (∀ x, x ∈ drop (S st) xs → x ≠ NONE → c <= x) as Hd
    by (intros x Hx; apply H; rewrite <- (take_drop (S st) xs); apply elem_of_app; by right).
  destruct (Z.eqb_spec v NONE) as [E|E].
  - rewrite decide_True by done. by apply conclude_above.
  - rewrite decide_False by done. cbn [negb].
    assert ((if c <? v then c else v) = Z.min v c) as -> by (destruct (Z.ltb_spec c v); lia).
    apply conclude_above. intros x Hx Hn. pose proof (Hd x Hx Hn). lia.
Qed.

Lemma alter_first_split k f ts :
  match alter_first k f ts with
  | Some ts' => ∃ t1 t t2, ts = t1 ++ t :: t2 ∧ key_of t = k ∧ ts' = t1 ++ f t :: t2
  | None => k ∉ key_of <$> ts
  end.
Proof.
  induction ts as [|t ts IH]; cbn [alter_first]; [apply not_elem_of_nil|]. case_decide as E.
  - by exists [], t, ts.
  - destruct (alter_first k f ts) as [ts'|]; cbn [fmap option_fmap option_map].
    + destruct IH as (t1 & u & t2 & -> & Hk & ->). by exists (t :: t1), u, t2.
    + cbn. apply not_elem_of_cons. split; [congruence|done].
Qed.

Lemma values_snoc h k e :
  values_for (h ++ [e]) k = values_for h k ++ (if decide (e.1 = k) then [e.2.2] else []).
Proof. unfold values_for. rewrite omap_app. cbn. by case_decide. Qed.
Lemma scan_values_snoc h k e i :
  scan_values (h ++ [e]) k i = scan_values h k i ++ (if decide (e.1 = k ∧ e.2.1 = i) then [e.2.2] else []).
Proof. unfold scan_values. rewrite omap_app. cbn. by case_decide. Qed.

Lemma scan_value_in h k i v : last (scan_values h k i) = Some v → v ∈ values_for h k.
Proof.
  intros H. apply last_Some_elem_of in H. unfold scan_values, values_for in *.
  apply list_elem_of_omap in H as (e & He & Hv). apply list_elem_of_omap. exists e. split; [done|].
  case_decide as Hd; [|done]. destruct Hd. by rewrite decide_True.
Qed.

(** An entry of another key, and the entry of the key pushed. *)
Lemma entry_other h e t : key_of t ≠ e.1 → entry_for h t → entry_for (h ++ [e]) t.
Proof.
  intros Hne [H1 H2]. split.
  - by rewrite values_snoc, decide_False, app_nil_r by congruence.
  - intros i Hi. rewrite scan_values_snoc, decide_False, app_nil_r by (intros [? _]; congruence). by apply H2.
Qed.

Lemma entry_merge h st v t :
  (st < 6)%nat → entry_ok t → entry_for h t → entry_for (h ++ [(key_of t, (st, v))]) (merge_entry st v t).
Proof.
  intros Hst [_ Hlen] [H1 H2]. split.
  - change (key_of (merge_entry st v t)) with (key_of t). cbn [merge_entry r_conclusion].
    rewrite values_snoc, decide_True, least_snoc by done. cbn [snd]. rewrite conclude_insert.
    + by rewrite H1.
    + by rewrite Hlen.
    + intros x [i Hi]%list_elem_of_lookup Hx. rewrite H1.
      assert (i < 6)%nat as Hi6 by (rewrite <- Hlen; by eapply lookup_lt_Some). rewrite H2 in Hi by done.
      injection Hi as Hi. destruct (last (scan_values h (key_of t) i)) as [w|] eqn:E; cbn in Hi; [subst w|congruence].
      apply least_le; [|done]. by eapply scan_value_in.
  - intros i Hi. change (key_of (merge_entry st v t)) with (key_of t). cbn [merge_entry r_result].
    rewrite scan_values_snoc. cbn [fst snd]. destruct (decide (i = st)) as [->|Hne].
    + rewrite decide_True, last_snoc by done. rewrite list_lookup_insert_eq by lia. done.
    + rewrite decide_False, app_nil_r by (intros [_ ?]; congruence).
      rewrite list_lookup_insert_ne by congruence. by apply H2.
Qed.

Lemma entry_new h r st v :
  (st < 6)%nat → ip_ok r → key_of r ∉ h.*1 →
  entry_for (h ++ [(key_of r, (st, v))]) (merge_entry st v (new_result r)).
Proof.
  intros Hst Hr Hni. apply (entry_merge h st v (new_result r)); [done|by apply new_result_ok|].
  assert (values_for h (key_of r) = [] ∧ ∀ i, scan_values h (key_of r) i = []) as [Hv Hs].
  { unfold values_for, scan_values. induction h as [|e h IH]; [done|]. cbn in Hni.
    apply not_elem_of_cons in Hni as [Hne Hni]. destruct (IH Hni) as [E1 E2]. cbn.
    rewrite decide_False by congruence. split; [done|]. intros i.
    rewrite decide_False by (intros [? _]; congruence). apply E2. }
  split; change (key_of (new_result r)) with (key_of r); [by rewrite Hv|]. intros i Hi. rewrite Hs.
  change (replicate 6 NONE !! i = Some NONE). by apply lookup_replicate_2.
Qed.

Lemma record_table h ts r st v :
  (st < 6)%nat → ip_ok r → table_for h ts → table_for (h ++ [(key_of r, (st, v))]) (record r st v ts).
Proof.
  intros Hst Hr [He Hnd Hk]. pose proof (alter_first_split (key_of r) (merge_entry st v) ts) as Hsplit.
  assert (∀ t, key_of t ≠ key_of r → entry_ok t ∧ entry_for h t →
    entry_ok t ∧ entry_for (h ++ [(key_of r, (st, v))]) t) as Hother.
  { intros t Hne [H1 H2]. split; [done|]. by apply entry_other. }
  unfold record. destruct (alter_first (key_of r) (merge_entry st v) ts) as [ts'|].
  - destruct Hsplit as (t1 & t & t2 & -> & Et & ->).
    assert (key_of <$> (t1 ++ merge_entry st v t :: t2) = key_of <$> (t1 ++ t :: t2)) as Ek by (by rewrite !fmap_app).
    apply Forall_app in He as [H1 [[Ht1 Ht2] H2]%Forall_cons].
    assert (∀ u, u ∈ t1 ∨ u ∈ t2 → key_of u ≠ key_of r) as Hne.
    { rewrite fmap_app, fmap_cons in Hnd. apply NoDup_app in Hnd as (_ & Hd & [Hni _]%NoDup_cons).
      intros u [Hu|Hu] E.
      - apply (Hd (key_of u)); [by apply list_elem_of_fmap_2|]. rewrite E, <- Et. left.
      - apply Hni. rewrite Et, <- E. by apply list_elem_of_fmap_2. }
    split.
    + apply Forall_app. split; [|apply Forall_cons; split].
      * rewrite Forall_forall in H1 |- *. intros u Hu. apply Hother; [apply Hne; by left|by apply H1].
      * split; [by apply merge_ok|]. rewrite <- Et. by apply entry_merge.
      * rewrite Forall_forall in H2 |- *. intros u Hu. apply Hother; [apply Hne; by right|by apply H2].
    + by rewrite Ek.
    + intros k. rewrite Ek, (fmap_app fst h), elem_of_app, Hk. cbn. rewrite list_elem_of_singleton. split; [by left|].
      intros [Hin|E]; [done|]. rewrite E. apply Hk. rewrite <- Et.
      apply list_elem_of_fmap_2, elem_of_app. right. left.
  - split.
    + constructor; [split; [by apply merge_ok, new_result_ok|apply entry_new; [done|done|by rewrite <- Hk]]|].
      rewrite Forall_forall in He |- *. intros u Hu. apply Hother; [|by apply He].
      intros E. apply Hsplit. rewrite <- E. by apply list_elem_of_fmap_2.
    + cbn. apply NoDup_cons. by split.
    + intros k. rewrite fmap_app, elem_of_app. cbn. rewrite elem_of_cons, Hk, list_elem_of_singleton.
      change (key_of (merge_entry st v (new_result r))) with (key_of r). naive_solver.
Qed.

(** The results of a state hold the history [h]. *)
Definition results_hold (s : ps_state) (h : list push_event) : Prop :=
  ∃ l, lst_rep (result_list s) l ∧ table_for h l.*2.

Lemma no_results s : result_list s = empty_lst → results_hold s [].
Proof.
  intros E. exists []. rewrite E. split; [split; [done|apply NoDup_nil_2|done]|].
  split; [constructor|apply NoDup_nil_2|done].
Qed.

(** The same with the list of entries in view. *)
Definition table_at (L : lst result_t) (l : list (positive * result_t)) (h : list push_event) : Prop :=
  lst_rep L l ∧ table_for h l.*2.

Lemma push_result_table s l h p r q st v :
  table_at (result_list s) l h → cells (result_list s) !! p = Some (Node r q) → p ∉ l.*1 →
  Z.of_nat (length l) < int_max →
  ip_ok r → r_scan_type r = Some (Z.of_nat st) → (st < 6)%nat → r_result r !! st = Some v →
  ∃ L' l', push_result (Some p) s = Done (tt, set_result_list L' s) ∧
    table_at L' l' (h ++ [(key_of r, (st, v))]) ∧ (∀ b, b ∈ l.*1 → b ∈ l'.*1) ∧ cells L' !! p = None ∧
    ∀ b, b ≠ p → b ∉ l'.*1 → cells L' !! b = cells (result_list s) !! b.
Proof.
  intros [HL Ht] Hp Hpl Hlen Hr Hs Hst Hv.
  assert (Forall entry_ok l.*2) as Hok by (eapply Forall_impl; [apply Ht|]; by intros ? []).
  destruct (push_result_records s l p r q st v HL Hok Hpl Hp Hr Hs Hst Hv Hlen)
    as (L' & l' & E & HL' & El' & Hgrow & Hgone & Hother).
  exists L', l'. split; [done|]. split; [|done]. split; [done|]. rewrite El'. by apply record_table.
Qed.

(** There are no more entries than pushes. *)
Lemma table_length h ts : table_for h ts → (length ts ≤ length h)%nat.
Proof.
  intros [_ Hnd Hk]. unfold push_event in *. rewrite <- (length_fmap key_of ts), <- (length_fmap fst h).
  apply submseteq_length, NoDup_submseteq; [done|]. intros k. apply Hk.
Qed.

(** C21: after any pushes there is exactly one entry for each address and port
    pushed, it holds the last value of each scan, and its conclusion is the
    least value that is not [NONE] (10 before any); [push_result] preserves
    this, and frees the result it is given and no node that was not its own. *)
Theorem push_result_history s h p r q st v :
  results_hold s h → cells (result_list s) !! p = Some (Node r q) →
  (∀ l, lst_rep (result_list s) l → p ∉ l.*1 ∧ Z.of_nat (length l) < int_max) →
  ip_ok r → r_scan_type r = Some (Z.of_nat st) → (st < 6)%nat → r_result r !! st = Some v →
  ∃ L', push_result (Some p) s = Done (tt, set_result_list L' s) ∧
    results_hold (set_result_list L' s) (h ++ [(key_of r, (st, v))]) ∧
    cells L' !! p = None ∧
    ∀ b l', lst_rep L' l' → b ≠ p → b ∉ l'.*1 → cells L' !! b = cells (result_list s) !! b.
Proof.
  intros (l & HL & Ht) Hp Hfree Hr Hs Hst Hv. destruct (Hfree l HL) as [Hpl Hlen].
  destruct (push_result_table s l h p r q st v ltac:(by split) Hp Hpl Hlen Hr Hs Hst Hv)
    as (L' & l' & E & [HL' Ht'] & _ & Hgone & Hother).
  exists L'. split; [done|]. split; [by exists l'|]. split; [done|]. intros b l2 Hl2 Hb Hni.
  apply Hother; [done|]. by rewrite (chain_unique _ _ _ _ (rep_chain _ _ HL') (rep_chain _ _ Hl2)).
Qed.

(** ** Witness *)

Definition sample_result (port : Z) (st : nat) (v : Z) : result_t :=
  Result (ip_cell "10.0.0.1") (replicate 80 0) (<[st := v]> (replicate 6 NONE)) NONE port (Some (Z.of_nat st)).
Definition sample_results : lst result_t :=
  Lst {[ 3%positive := Node (sample_result 80 0 R_FILTERED) None ]} None 0.

Lemma push_result_history_witness : ∃ L',
  push_result (Some 3%positive) (set_result_list sample_results ps_zero) =
    Done (tt, set_result_list L' ps_zero) ∧
  results_hold (set_result_list L' ps_zero) [((80, bytes "10.0.0.1"), (0%nat, R_FILTERED))].
Proof.
  destruct (push_result_history (set_result_list sample_results ps_zero) [] 3%positive
    (sample_result 80 0 R_FILTERED) None 0 R_FILTERED) as (L' & E & H & _).
  - exists []. split; [split; [done|apply NoDup_nil_2|done]|]. split; [constructor|apply NoDup_nil_2|done].
  - reflexivity.
  - intros [|[a x] l] [Hc _ Hn]; [|by destruct Hc]. split; [apply not_elem_of_nil|reflexivity].
  - apply (bool_decide_unpack _). vm_compute. reflexivity.
  - reflexivity.
  - lia.
  - reflexivity.
  - exists L'. split; [exact E|exact H].
Defined.
