(* ===== verification/PsReport.v ===== *)
(** * The report (portscan/ps_setup.c, print functions)

    What [print_record] and [print_results] write to the standard output, as
    bytes; lists are read through [list_nodes], which follows the pointers as
    the loops do. *)

From S2P Require Import Prelude CString PsText PsList PsSetup PsJobs PsResults.
From stdpp Require Import gmap strings.

Open Scope Z_scope.

(** ** Formats *)

(** [%-ns] *)
Definition pad (n : nat) (s : list Z) : list Z := s ++ replicate (n - length s) 32.
(** [%.ns]: at most [n] bytes are read. *)
Definition prec (n : nat) (buf : list Z) : list Z :=
  take (span_len (λ c, negb (c =? 0)) (take n buf)) buf.
(** [PRINT_N(a, n)] *)
Definition PRINT_N (c n : Z) : list Z := replicate (Z.to_nat n) c.

(** ** One line of the table (lines 734-835) *)

Definition scan_name (i : Z) : list Z :=
  if i =? SYN_SCAN then bytes "SYN"
  else if i =? NULL_SCAN then bytes "NULL"
  else if i =? FIN_SCAN then bytes "FIN"
  else if i =? XMAS_SCAN then bytes "XMAS"
  else if i =? ACK_SCAN then bytes "ACK"
  else if i =? UDP_SCAN then bytes "UDP" else [].
Definition value_name (v : Z) : list Z :=
  if v =? R_OPEN then bytes "(Open) "
  else if v =? R_CLOSED then bytes "(Closed) "
  else if v =? R_FILTERED then bytes "(Filtered) "
  else if v =? R_OPN_FIL then bytes "(Open|Filtered) "
  else if v =? R_UNFILTERED then bytes "(Unfiltered) " else [].
Definition conclusion_name (v : Z) : list Z :=
  if v =? R_OPEN then pad 15 (bytes "Open")
  else if v =? R_CLOSED then pad 15 (bytes "Closed")
  else if v =? R_FILTERED then pad 15 (bytes "Filtered")
  else if v =? R_OPN_FIL then pad 15 (bytes "Open|Filtered")
  else if v =? R_UNFILTERED then pad 15 (bytes "Unfiltered") else [].

(** What a round of the loop prints and the new [ret]: after 50 characters
    the rest goes to a new line. *)
Definition record_round (i v : Z) (acc : list Z * Z) : list Z * Z :=
  let text := (if negb (v =? NONE) then scan_name i else []) ++ value_name v in
  let out := acc.1 ++ text in
  let ret := acc.2 + Z.of_nat (length text) in
  if 50 <=? ret then (out ++ 10 :: replicate 40 32, 0) else (out, ret).
Definition record_rounds (results : list Z) (acc : list Z * Z) : list Z * Z :=
  foldl (λ acc '(i, v), record_round i v acc) acc (imap (λ i v, (Z.of_nat i, v)) results).

Definition print_record (r : result_t) : list Z :=
  let start := pad 10 (sdec (r_portno r)) ++ pad 30 (prec 30 (r_service r)) in
  let '(out, ret) := record_rounds (r_result r) (start, 0) in
  out ++ PRINT_N 32 (60 - ret) ++ conclusion_name (r_conclusion r) ++ [10].

(** ** The report (lines 838-915) *)

Fixpoint list_nodes {A} (fuel : nat) (h : gmap positive (node A)) (p : ptr) : outcome (list A) :=
  match p with
  | None => Done []
  | Some _ => match fuel with
              | O => NoFuel
              | S f => n ← deref h p; l ← list_nodes f h (n_next n); mret (n_data n :: l)
              end
  end.
Definition lst_nodes {A} (L : lst A) : outcome (list A) :=
  list_nodes (S (size (cells L))) (cells L) (list_top L).

(** The parts of the report. *)
Inductive piece :=
  | PAddress (ip : list Z)
  | POpenHeader
  | PClosedHeader
  | PRecord (r : result_t)
  | PEnd.
Definition table_head : list Z :=
  pad 10 (bytes "Port") ++ pad 30 (bytes "Service Name (if applicable)") ++ pad 60 (bytes "Results") ++
  pad 20 (bytes "Conclusion") ++ 10 :: PRINT_N 45 120 ++ [10].
Definition piece_bytes (p : piece) : list Z :=
  match p with
  | PAddress ip => bytes "IP address: " ++ prec (length ip) ip ++ [10]
  | POpenHeader => bytes "Open ports:" ++ 10 :: table_head
  | PClosedHeader => 10 :: bytes "Closed/Filtered/Unfiltered ports:" ++ 10 :: table_head
  | PRecord r => print_record r
  | PEnd => [10]
  end.

(** Output so far, [printhdr_opn], [printhdr_cld]. *)
Definition report : Type := list piece * bool * bool.

Fixpoint foldM {A B} (f : B → A → outcome B) (l : list A) (b : B) : outcome B :=
  match l with [] => Done b | x :: l' => b' ← f b x; foldM f l' b' end.

Definition visit_result (ip : list Z) (i port : Z) (acc : report) (rt : result_t) : outcome report :=
  same ← ip_eq ip (r_ip rt);
  if (same : bool) && (r_conclusion rt =? i) && (r_portno rt =? port) then
    let '(out, opn, cld) := acc in
    let '(out, opn, cld) :=
      if (i =? R_OPEN) && opn then (out ++ [POpenHeader], false, cld)
      else if negb (i =? R_OPEN) && cld then (out ++ [PClosedHeader], opn, false)
      else (out, opn, cld) in
    mret (out ++ [PRecord rt], opn, cld)
  else mret acc.
Definition visit_port (rts : list result_t) (ip : list Z) (i : Z) (acc : report) (port : Z) : outcome report :=
  foldM (visit_result ip i port) rts acc.
Definition visit_conclusion (ports : list Z) (rts : list result_t) (ip : list Z) (acc : report) (i : Z)
  : outcome report :=
  foldM (visit_port rts ip i) ports acc.
Definition visit_ip (ports : list Z) (rts : list result_t) (out : list piece) (ip : list Z) : outcome (list piece) :=
  acc ← foldM (visit_conclusion ports rts ip) [0; 1; 2; 3; 4; 5] (out ++ [PAddress ip], true, true);
  mret (acc.1.1 ++ [PEnd]).
Definition print_results (s : ps_state) : outcome (list piece) :=
  ips ← lst_nodes (ip_list s);
  ports ← lst_nodes (port_list s);
  rts ← lst_nodes (result_list s);
  foldM (visit_ip ports rts) ips [].

(** ** The lists (lines 592-656) *)

Definition print_ip (s : ps_state) : outcome (list Z) :=
  ips ← lst_nodes (ip_list s);
  foldM (λ out ip, t ← c_str ip; mret (out ++ bytes "ipAddress : " ++ t ++ [10])) ips [].
Definition print_port (s : ps_state) : outcome (list Z) :=
  ports ← lst_nodes (port_list s);
  mret (concat ((λ p, bytes "port : " ++ sdec p ++ [10]) <$> ports)).
Definition print_jobs (s : ps_state) : outcome (list Z) :=
  jobs ← lst_nodes (job_masterlist s);
  foldM (λ out j, t ← c_str (j_ip j);
           mret (out ++ bytes "ipAddress : " ++ t ++ 10 :: bytes "port : " ++ sdec (j_portno j) ++ [10])) jobs [].

(** ** The configuration (lines 939-978) *)

Definition MAX_THREADS : Z := 25.

Definition print_configurations (s : ps_state) : outcome (list Z) :=
  head ← (if count (ip_list s) =? 1 then
            n ← deref (cells (ip_list s)) (list_top (ip_list s)); t ← c_str (n_data n);
            mret (bytes "Target Ip-Address          : " ++ t ++ [10])
          else mret (bytes "No of Ip-Addresses to scan : " ++ dec (count (ip_list s)) ++ [10])) ;
  let scans := concat (imap (λ i f, if f =? 0 then []
                 else scan_name (Z.of_nat i) ++ (if Z.of_nat i =? UDP_SCAN then [] else [32])) (take 6 (scan s))) in
  mret (bytes "Scan Configurations" ++ 10 :: head ++
        bytes "No of Ports to scan        : " ++ dec (count (port_list s)) ++ 10 ::
        bytes "Scans to be performed      : " ++ scans ++ 10 ::
        (if no_of_threads s =? 0 then []
         else bytes "No of threads              : " ++
              sdec (Z.min (no_of_threads s) MAX_THREADS) ++ [10])).

Definition print_results_dummy (s : ps_state) : outcome (list Z) :=
  rts ← lst_nodes (result_list s);
  foldM (λ out r, t ← c_str (r_ip r);
           mret (out ++ bytes "IP   : " ++ t ++ 10 :: bytes "port : " ++ sdec (r_portno r) ++ 10 ::
                 bytes "Conclusion : " ++ sdec (r_conclusion r) ++ 32 ::
                 conclusion_name (r_conclusion r) ++ [10])) rts [].

(** ** What the report shows (properties of PsPrint)

    Every result of a scanned address and port is printed exactly once, and
    the columns of the table line up whatever is printed in them. *)

(** ** Which results are printed *)

Definition records_of (out : list piece) : list result_t :=
  omap (λ p, match p with PRecord r => Some r | _ => None end) out.

Lemma records_of_app a b : records_of (a ++ b) = records_of a ++ records_of b.
Proof. apply omap_app. Qed.

Definition shown (ip : list Z) (i port : Z) (r : result_t) : Prop :=
  r_portno r = port ∧ r_conclusion r = i ∧ ip_text (r_ip r) = ip_text ip.
#[export] Instance shown_dec ip i port r : Decision (shown ip i port r).
Proof. unfold shown. apply _. Defined.

Lemma list_nodes_ok {A} (h : gmap positive (node A)) l : ∀ fuel p,
  chain h p l → (length l ≤ fuel)%nat → list_nodes fuel h p = Done l.*2.
Proof.
  induction l as [|[a x] l IH]; intros fuel p; cbn [chain length].
  - intros -> _. by destruct fuel.
  - intros (-> & q & Ha & Hl) Hf. destruct fuel as [|fuel]; [lia|]. cbn [list_nodes].
    rewrite (deref_ok _ _ _ Ha). cbn [mbind outcome_bind n_data n_next]. rewrite (IH fuel q Hl) by lia. done.
Qed.

Lemma lst_nodes_ok {A} (L : lst A) xs : lst_data L xs → lst_nodes L = Done xs.
Proof.
  intros (l & [Hc Hnd _] & <-). unfold lst_nodes. apply list_nodes_ok; [done|].
  pose proof (chain_size _ _ _ Hc Hnd). lia.
Qed.

(** A loop whose rounds add records. *)
Lemma foldM_records {X B} (recs : B → list result_t) (f : B → X → outcome B) (g : X → list result_t) l :
  (∀ b x, x ∈ l → ∃ b', f b x = Done b' ∧ recs b' = recs b ++ g x) →
  ∀ b, ∃ b', foldM f l b = Done b' ∧ recs b' = recs b ++ (l ≫= g).
Proof.
  induction l as [|x l IH]; intros H b; cbn.
  - exists b. by rewrite app_nil_r.
  - destruct (H b x ltac:(left)) as (b1 & -> & E1).
    destruct (IH ltac:(intros; apply H; by right) b1) as (b2 & E & E2). exists b2. split; [done|].
    by rewrite E2, E1, <- app_assoc.
Qed.

Definition report_records (acc : report) : list result_t := records_of acc.1.1.

Lemma visit_result_ok ip i port acc r :
  0 ∈ ip → ip_ok r → ∃ acc', visit_result ip i port acc r = Done acc' ∧
    report_records acc' = report_records acc ++ (if decide (shown ip i port r) then [r] else []).
Proof.
  intros Hip Hr. unfold visit_result. rewrite ip_eq_spec by done. cbn [mbind outcome_bind].
  destruct acc as [[out opn] cld]. unfold report_records. cbn [fst].
  destruct (decide (shown ip i port r)) as [(H1 & H2 & H3)|Hn].
  - rewrite bool_decide_eq_true_2, (proj2 (Z.eqb_eq _ _)), (proj2 (Z.eqb_eq _ _)) by done. cbn [andb].
    destruct ((i =? R_OPEN) && opn); [|destruct (negb (i =? R_OPEN) && cld)];
      (eexists; split; [done|]; cbn [fst]; by rewrite !records_of_app, ?app_nil_r).
  - destruct (bool_decide (ip_text ip = ip_text (r_ip r)) && (r_conclusion r =? i) && (r_portno r =? port)) eqn:E.
    + rewrite !andb_true_iff, bool_decide_eq_true, !Z.eqb_eq in E. destruct E as [[E1 E2] E3].
      destruct Hn. by split; [|split].
    + eexists. split; [done|]. by rewrite app_nil_r.
Qed.

Section report.
Context (ips : list (list Z)) (ports : list Z) (rts : list result_t).
Context (Hips : Forall (λ ip, 0 ∈ ip) ips) (Hrts : Forall ip_ok rts).

Definition port_records (ip : list Z) (i port : Z) : list result_t := filter (shown ip i port) rts.
Definition ip_records (ip : list Z) : list result_t :=
  [0; 1; 2; 3; 4; 5] ≫= λ i, ports ≫= port_records ip i.

Lemma bind_filter (P : result_t → Prop) `{!∀ r, Decision (P r)} l :
  (l ≫= λ r, if decide (P r) then [r] else []) = filter P l.
Proof. induction l as [|x l IH]; [done|]. rewrite filter_cons, <- IH. cbn. by case_decide. Qed.

Lemma visit_port_ok ip i acc port :
  0 ∈ ip → ∃ acc', visit_port rts ip i acc port = Done acc' ∧
    report_records acc' = report_records acc ++ port_records ip i port.
Proof using Hrts.
  intros Hip. unfold visit_port, port_records. rewrite <- bind_filter. apply foldM_records.
  intros b r Hr. apply visit_result_ok; [done|]. by eapply Forall_forall in Hr.
Qed.

Lemma visit_ip_ok out ip :
  0 ∈ ip → ∃ out', visit_ip ports rts out ip = Done out' ∧ records_of out' = records_of out ++ ip_records ip.
Proof using Hrts.
  intros Hip. unfold visit_ip.
  destruct (foldM_records report_records (visit_conclusion ports rts ip) (λ i, ports ≫= port_records ip i)
    [0; 1; 2; 3; 4; 5]) with (b := (out ++ [PAddress ip], true, true)) as (acc & E & Er).
  { intros b i _. apply foldM_records. intros b' port _. by apply visit_port_ok. }
  rewrite E. cbn [mbind outcome_bind]. eexists. split; [done|]. rewrite records_of_app.
  change (records_of acc.1.1) with (report_records acc). rewrite Er. unfold report_records. cbn [fst].
  by rewrite records_of_app, !app_nil_r.
Qed.

Lemma visit_ips_ok : ∃ out, foldM (visit_ip ports rts) ips [] = Done out ∧ records_of out = ips ≫= ip_records.
Proof using Hips Hrts.
  apply (foldM_records records_of (visit_ip ports rts) ip_records ips). intros out ip Hip.
  apply visit_ip_ok. by eapply Forall_forall in Hip.
Qed.

(** *** Partitioning by a key *)

Lemma bind_perm {X Y} (f g : X → list Y) l : (∀ x, x ∈ l → f x ≡ₚ g x) → (l ≫= f) ≡ₚ (l ≫= g).
Proof.
  induction l as [|x l IH]; intros H; [done|]. cbn. rewrite (H x) by left.
  rewrite IH; [done|]. intros; apply H; by right.
Qed.

Lemma filter_key_perm {K} `{EqDecision K} (key : result_t → K) xs l :
  NoDup xs → (xs ≫= λ x, filter (λ r, key r = x) l) ≡ₚ filter (λ r, key r ∈ xs) l.
Proof.
  induction 1 as [|x xs Hx Hnd IH]; cbn.
  - induction l as [|r l IH]; [done|]. rewrite filter_cons, decide_False by apply not_elem_of_nil. done.
  - rewrite IH. clear IH. induction l as [|r l IH]; [done|]. rewrite !filter_cons.
    destruct (decide (key r = x)) as [E|E].
    + rewrite decide_False by congruence. rewrite decide_True by (rewrite E; left). cbn. by rewrite IH.
    + destruct (decide (key r ∈ xs)) as [H|H].
      * rewrite decide_True by (by right). rewrite <- Permutation_middle. by rewrite IH.
      * rewrite decide_False; [done|]. by intros [?|?]%elem_of_cons.
Qed.

Lemma filter_shown ip i port :
  port_records ip i port = filter (λ r, r_portno r = port) (filter (λ r, r_conclusion r = i)
    (filter (λ r, ip_text (r_ip r) = ip_text ip) rts)).
Proof. unfold port_records. rewrite !list_filter_filter. apply list_filter_iff. intros r. unfold shown. tauto. Qed.

Lemma printed_perm :
  NoDup (ip_text <$> ips) → NoDup ports →
  (ips ≫= ip_records) ≡ₚ filter (λ r, (r_portno r ∈ ports ∧ 0 <= r_conclusion r <= 5) ∧
                                     ip_text (r_ip r) ∈ ip_text <$> ips) rts.
Proof.
  intros Hi Hp.
  transitivity (ips ≫= λ ip, filter (λ r, r_portno r ∈ ports ∧ 0 <= r_conclusion r <= 5)
    (filter (λ r, ip_text (r_ip r) = ip_text ip) rts)).
  - apply bind_perm. intros ip _. unfold ip_records.
    rewrite (bind_perm _ (λ i, filter (λ r, r_portno r ∈ ports) (filter (λ r, r_conclusion r = i)
      (filter (λ r, ip_text (r_ip r) = ip_text ip) rts)))).
    2:{ intros i _. rewrite (list_bind_ext (port_records ip i) _ ports ports (λ p, filter_shown ip i p) eq_refl).
        by apply filter_key_perm. }
    rewrite (bind_perm _ (λ i, filter (λ r, r_conclusion r = i) (filter (λ r, r_portno r ∈ ports)
      (filter (λ r, ip_text (r_ip r) = ip_text ip) rts)))).
    2:{ intros i _. rewrite !list_filter_filter. erewrite list_filter_iff; [done|]. intros r. cbn. tauto. }
    rewrite filter_key_perm by (apply (bool_decide_unpack _); vm_compute; done).
    rewrite !list_filter_filter. erewrite list_filter_iff; [done|]. intros r. cbn.
    assert (r_conclusion r ∈ [0; 1; 2; 3; 4; 5] ↔ 0 <= r_conclusion r <= 5) as Hr
      by (rewrite !elem_of_cons, elem_of_nil; lia).
    tauto.
  - transitivity (ips ≫= λ ip, filter (λ r, ip_text (r_ip r) = ip_text ip)
      (filter (λ r, r_portno r ∈ ports ∧ 0 <= r_conclusion r <= 5) rts)).
    { apply bind_perm. intros ip _. rewrite !list_filter_filter. erewrite list_filter_iff; [done|].
      intros r. cbn. tauto. }
    transitivity ((ip_text <$> ips) ≫= λ x, filter (λ r, ip_text (r_ip r) = x)
      (filter (λ r, r_portno r ∈ ports ∧ 0 <= r_conclusion r <= 5) rts)).
    { by rewrite list_fmap_bind. }
    rewrite filter_key_perm by done. rewrite list_filter_filter. erewrite list_filter_iff; [done|].
    intros r. cbn. tauto.
Qed.
End report.

(** With addresses and ports listed once, [print_results] prints every
    result of a scanned address and port that has a conclusion exactly once,
    and no other. *)
Theorem print_results_once s ips ports rts :
  lst_data (ip_list s) ips → lst_data (port_list s) ports → lst_data (result_list s) rts →
  Forall (λ ip, 0 ∈ ip) ips → Forall ip_ok rts → NoDup (ip_text <$> ips) → NoDup ports →
  ∃ out, print_results s = Done out ∧
    records_of out ≡ₚ filter (λ r, (r_portno r ∈ ports ∧ 0 <= r_conclusion r <= 5) ∧
                                   ip_text (r_ip r) ∈ ip_text <$> ips) rts.
Proof.
  intros HI HP HR Hips Hrts Hi Hp. unfold print_results.
  rewrite (lst_nodes_ok _ _ HI), (lst_nodes_ok _ _ HP), (lst_nodes_ok _ _ HR). cbn [mbind outcome_bind].
  destruct (visit_ips_ok ips ports rts Hips Hrts) as (out & E & Er). exists out. split; [done|].
  rewrite Er. by apply printed_perm.
Qed.

(** ** Columns *)

(** The text ends in a line [cur], which may follow others. *)
Definition last_line (out cur : list Z) : Prop :=
  10 ∉ cur ∧ (out = cur ∨ ∃ pre, out = pre ++ 10 :: cur).

Lemma last_line_app out cur t : last_line out cur → 10 ∉ t → last_line (out ++ t) (cur ++ t).
Proof.
  intros [H1 H2] Ht. split; [by rewrite not_elem_of_app|]. destruct H2 as [->|[pre ->]]; [by left|].
  right. exists pre. by rewrite <- app_assoc.
Qed.

Lemma no_newline_blanks n : 10 ∉ replicate n 32.
Proof. intros H%elem_of_replicate_inv. done. Qed.

Ltac no_newline := apply (bool_decide_unpack _); vm_compute; exact I.

Lemma scan_name_line i : 10 ∉ scan_name i.
Proof. unfold scan_name. repeat case_match; no_newline. Qed.
Lemma value_name_line v : 10 ∉ value_name v.
Proof. unfold value_name. repeat case_match; no_newline. Qed.
Lemma conclusion_name_line v : 10 ∉ conclusion_name v.
Proof. unfold conclusion_name. repeat case_match; no_newline. Qed.

(** [cur] starts at the second column and holds [ret] characters of the third. *)
Definition in_column (acc : list Z * Z) : Prop :=
  0 <= acc.2 < 50 ∧ ∃ cur, last_line acc.1 cur ∧ Z.of_nat (length cur) = 40 + acc.2.

Lemma record_round_column i v acc : in_column acc → in_column (record_round i v acc).
Proof.
  destruct acc as [out ret]. intros (Hret & cur & Hl & Hc). cbn in Hret, Hc, Hl. unfold record_round.
  set (text := (if negb (v =? NONE) then scan_name i else []) ++ value_name v).
  assert (10 ∉ text) as Ht.
  { unfold text. rewrite not_elem_of_app. split; [|apply value_name_line].
    destruct (negb (v =? NONE)); [apply scan_name_line|apply not_elem_of_nil]. }
  cbn [fst snd]. destruct (Z.leb_spec 50 (ret + Z.of_nat (length text))) as [Hge|Hlt].
  - split; [cbn; lia|]. exists (replicate 40 32). split; [|done]. split; [no_newline|].
    right. by eexists.
  - split; [cbn; lia|]. exists (cur ++ text). cbn [fst snd]. split; [by apply last_line_app|].
    rewrite length_app. lia.
Qed.

Lemma record_rounds_column results acc : in_column acc → in_column (record_rounds results acc).
Proof.
  unfold record_rounds. generalize (imap (λ (i : nat) (v : Z), (Z.of_nat i, v)) results).
  intros l. revert acc. induction l as [|[i v] l IH]; intros acc H; [done|]. cbn [foldl].
  by apply IH, record_round_column.
Qed.

Lemma length_pad n s : (length s ≤ n)%nat → length (pad n s) = n.
Proof. intros H. unfold pad. rewrite length_app, length_replicate. lia. Qed.

Lemma length_dec_go f : ∀ n acc, (length (dec_go f n acc) ≤ f + length acc)%nat.
Proof.
  induction f as [|f IH]; intros n acc; cbn [dec_go]; [lia|].
  destruct (n <? 10); cbn [length]; [lia|]. specialize (IH (n / 10) (48 + n mod 10 :: acc)). cbn in IH. lia.
Qed.

(** Whatever a record holds, the last line [print_record] writes for it is
    115 characters wide: the conclusion stands in its column. *)
Theorem print_record_aligned r :
  0 <= r_portno r → 10 ∉ prec 30 (r_service r) → 0 <= r_conclusion r <= 4 →
  ∃ text line, print_record r = text ++ [10] ∧ last_line text line ∧ length line = 115%nat.
Proof.
  intros Hp Hs Hc. unfold print_record.
  set (start := pad 10 (sdec (r_portno r)) ++ pad 30 (prec 30 (r_service r))).
  assert (in_column (start, 0)) as Hstart.
  { split; [cbn; lia|]. exists start. cbn [fst snd]. unfold start, sdec. rewrite (proj2 (Z.ltb_ge _ _)) by lia.
    assert (length (dec (r_portno r)) ≤ 10)%nat as Hd by (unfold dec; pose proof (length_dec_go 10 (r_portno r) []) as H; cbn [length] in H; lia).
    assert (length (prec 30 (r_service r)) ≤ 30)%nat as Hl.
    { unfold prec. rewrite length_take. pose proof (span_len_le (λ c, negb (c =? 0)) (take 30 (r_service r))) as H.
      rewrite length_take in H. lia. }
    split.
    - split; [|by left]. unfold pad. rewrite !not_elem_of_app. repeat split; try apply no_newline_blanks; [|done].
      apply dec_no_char; [lia|done].
    - rewrite length_app, !length_pad by done. done. }
  destruct (record_rounds_column (r_result r) (start, 0) Hstart) as (Hret & cur & Hl & Hcur).
  destruct (record_rounds (r_result r) (start, 0)) as [out ret]. cbn in Hret, Hl, Hcur.
  exists (out ++ PRINT_N 32 (60 - ret) ++ conclusion_name (r_conclusion r)),
    (cur ++ PRINT_N 32 (60 - ret) ++ conclusion_name (r_conclusion r)).
  split; [by rewrite <- !app_assoc|]. split.
  - apply last_line_app; [done|]. rewrite not_elem_of_app. split; [apply no_newline_blanks|apply conclusion_name_line].
  - rewrite !length_app. unfold PRINT_N. rewrite length_replicate.
    assert (length (conclusion_name (r_conclusion r)) = 15%nat) as ->; [|lia].
    assert (Forall (λ v, length (conclusion_name v) = 15%nat) (seqZ 0 5)) as H
      by (apply (bool_decide_unpack _); vm_compute; done).
    rewrite Forall_forall in H. apply H, elem_of_seqZ. lia.
Qed.

(** ** Witnesses *)

Definition report_results : lst result_t :=
  Lst {[ 1%positive := Node (merge_entry 0 R_OPEN (new_result (sample_result 80 0 R_OPEN))) None ]} (Some 1%positive) 1.
Definition report_state : ps_state := set_result_list report_results sample_state.

Lemma print_results_once_witness : ∃ out,
  print_results report_state = Done out ∧
  records_of out ≡ₚ [merge_entry 0 R_OPEN (new_result (sample_result 80 0 R_OPEN))].
Proof.
  destruct (print_results_once report_state [ip_cell "10.0.0.1"; ip_cell "10.0.0.2"] [80]
    [merge_entry 0 R_OPEN (new_result (sample_result 80 0 R_OPEN))]) as (out & E & H).
  - apply exact_data, sample_ips_exact.
  - apply exact_data, sample_ports_exact.
  - exists [(1%positive, merge_entry 0 R_OPEN (new_result (sample_result 80 0 R_OPEN)))]. split; [|done].
    split; [solve_chain|apply (bool_decide_unpack _); vm_compute; done|done].
  - apply (bool_decide_unpack _). vm_compute. reflexivity.
  - apply (bool_decide_unpack _). vm_compute. reflexivity.
  - apply (bool_decide_unpack _). vm_compute. reflexivity.
  - apply (bool_decide_unpack _). vm_compute. reflexivity.
  - exists out. split; [exact E|]. etransitivity; [exact H|]. reflexivity.
Defined.

Lemma print_record_aligned_witness : ∃ text line,
  print_record (merge_entry 0 R_OPEN (new_result (sample_result 80 0 R_OPEN))) = text ++ [10] ∧
  length line = 115%nat ∧ last_line text line.
Proof.
  destruct (print_record_aligned (merge_entry 0 R_OPEN (new_result (sample_result 80 0 R_OPEN))))
    as (text & line & E & Hl & Hn).
  - cbn. lia.
  - apply (bool_decide_unpack _). vm_compute. reflexivity.
  - vm_compute. split; discriminate.
  - exists text, line. split; [exact E|split; [exact Hn|exact Hl]].
Defined.
