(* ===== verification/PsArgs.v ===== *)
(** * The command line (portscan/ps_setup.c, parse_args)

    [getopt_long] is a library function: its successive results, the options
    in order and the words that are no options, are an argument here.  The
    local arrays that [strcpy] fills have 100 bytes; [scan_args] and the
    pointer [ip] are [None] until they are written. *)

From S2P Require Import Prelude CString FileSys PsText PsBytes PsList PsSetup PsJobs.
From stdpp Require Import gmap strings.

Open Scope Z_scope.

(** What one call of [getopt_long] returns, with [optarg]. *)
Inductive option_t :=
  | OptHelp
  | OptPorts (optarg : list Z)
  | OptIp (optarg : list Z)
  | OptPrefix (optarg : list Z)
  | OptFile (optarg : list Z)
  | OptSpeedup (optarg : list Z)
  | OptLogfile (optarg : list Z)
  | OptVerbose
  | OptScan (optarg : list Z)
  | OptUnknown.

Record locals := Locals {
  port_args : list Z;
  scan_args : option (list Z);
  prefix_ : Z;
}.

(** [strcpy] into an array of [MAX_ARG_SIZE] bytes. *)
Definition strcpy_arg (s : list Z) : outcome (list Z) :=
  if (length s <? MAX_ARG_SIZE)%nat then Done s else Fault OutOfBounds.
(** [strcat] behind what the array holds. *)
Definition strcat_arg (dest : option (list Z)) (s : list Z) : outcome (option (list Z)) :=
  match dest with
  | None => Fault Uninitialised
  | Some d => r ← strcpy_arg (d ++ s); mret (Some r)
  end.

(** The first [n] tokens. *)
Fixpoint tokens (n : nat) (sep : Z) (s : list Z) : list (list Z) :=
  match n with
  | O => []
  | S n' => match strtok sep s with
            | None => []
            | Some (word, rest) => word :: tokens n' sep rest
            end
  end.

Section args.
Context (gethostbyname : list Z → option (list Z)) (fs : filesystem).

(** One round of the [switch] (lines 111-171).  An address given with
    [--prefix] is only set by a token; its use without one counts as the use of
    an uninitialised variable, also when an earlier option had set it. *)
Definition parse_option (o : option_t) (l : locals) : M ps_state (exits locals) :=
  match o with
  | OptHelp => mret (Exits 0)
  | OptPorts a =>
      p ← lift (strcpy_arg a);
      get_ports p;;
      mret (Returns (Locals (strtok_left 44 p) (scan_args l) (prefix_ l)))
  | OptIp a =>
      ip_args ← lift (strcpy_arg a);
      match gethostbyname ip_args with Some _ => push_ip gethostbyname ip_args | None => mret tt end;;
      mret (Returns l)
  | OptPrefix a =>
      prefix_args ← lift (strcpy_arg a);
      match tokens 3 47 prefix_args with
      | [] => fault_with Uninitialised
      | ip :: more =>
          p ← lift (match more with [] => Done (prefix_ l) | word :: _ => atoi word end);
          r ← get_ipAdresses gethostbyname ip p;
          match r with
          | Exits c => mret (Exits c)
          | Returns _ => mret (Returns (Locals (port_args l) (scan_args l) p))
          end
      end
  | OptFile a => read_ipAddresses gethostbyname fs a;; mret (Returns l)
  | OptSpeedup a => n ← lift (atoi a); modify (set_no_of_threads n);; mret (Returns l)
  | OptLogfile _ | OptVerbose | OptUnknown => mret (Returns l)
  | OptScan a =>
      sa ← lift (strcpy_arg a);
      modify (set_scan (replicate 6 0));;
      mret (Returns (Locals (port_args l) (Some sa) (prefix_ l)))
  end.

Fixpoint parse_options (os : list option_t) (l : locals) : M ps_state (exits locals) :=
  match os with
  | [] => mret (Returns l)
  | o :: os' =>
      r ← parse_option o l;
      match r with Exits c => mret (Exits c) | Returns l' => parse_options os' l' end
  end.

(** Lines 174-178: the other words, each behind a semicolon. *)
Fixpoint cat_words (ws : list (list Z)) (d : option (list Z)) : outcome (option (list Z)) :=
  match ws with
  | [] => Done d
  | w :: ws' => d1 ← strcat_arg d [59]; d2 ← strcat_arg d1 w; cat_words ws' d2
  end.

(** Lines 187-204. *)
Definition scan_index (word : list Z) : option nat :=
  if bool_decide (word = bytes "SYN") then Some 0%nat
  else if bool_decide (word = bytes "NULL") then Some 1%nat
  else if bool_decide (word = bytes "FIN") then Some 2%nat
  else if bool_decide (word = bytes "XMAS") then Some 3%nat
  else if bool_decide (word = bytes "ACK") then Some 4%nat
  else if bool_decide (word = bytes "UDP") then Some 5%nat else None.
Definition select_scans (words : list (list Z)) (sc : list Z) : list Z :=
  foldl (λ sc w, match scan_index w with Some i => <[i := 1]> sc | None => sc end) sc words.

Definition parse_args (os : list option_t) (words : list (list Z)) : M ps_state (exits unit) :=
  modify (set_scan (replicate 6 1));;
  modify (set_no_of_threads 0);;
  r ← parse_options os (Locals (bytes "1-1024") None 0);
  match r with
  | Exits c => mret (Exits c)
  | Returns l =>
      sa ← lift (cat_words words (scan_args l));
      P ← gets port_list;
      (match list_top P with None => get_ports_range (port_args l) | Some _ => mret tt end);;
      match sa with
      | None => fault_with Uninitialised
      | Some text =>
          sc ← gets scan;
          modify (set_scan (select_scans (tokens 7 59 text) sc));; mret (Returns tt)
      end
  end.
End args.

(** ** What the command line selects (properties of PsArgs) *)

(** ** The words of [--scan] *)

(** [scan_args] for a first word and those that follow. *)
Definition joined (w : list Z) (ws : list (list Z)) : list Z := w ++ concat ((59 ::.) <$> ws).
Definition word_ok (w : list Z) : Prop := w ≠ [] ∧ 59 ∉ w.

Lemma tokens_joined : ∀ ws w n, Forall word_ok (w :: ws) → tokens n 59 (joined w ws) = take n (w :: ws).
Proof.
  induction ws as [|u ws IH]; intros w [|n] Hw; try done; cbn [tokens];
    apply Forall_cons in Hw as [[Hne Hni] Hw].
  - unfold joined. cbn. rewrite app_nil_r, strtok_last by done. cbn. destruct n; done.
  - unfold joined. cbn [fmap list_fmap concat]. cbn [app].
    change (concat ((59 ::.) <$> ws)) with (concat ((59 ::.) <$> ws)).
    rewrite strtok_sep by done. cbn [take]. f_equal. by apply (IH u n).
Qed.

Lemma strcpy_arg_ok s : (length s < MAX_ARG_SIZE)%nat → strcpy_arg s = Done s.
Proof. intros H. unfold strcpy_arg. by rewrite (proj2 (Nat.ltb_lt _ _)). Qed.

Lemma cat_words_ok : ∀ ws w, (length (joined w ws) < MAX_ARG_SIZE)%nat →
  cat_words ws (Some w) = Done (Some (joined w ws)).
Proof.
  induction ws as [|u ws IH]; intros w Hlen; cbn [cat_words].
  - unfold joined. cbn. by rewrite app_nil_r.
  - assert (joined w (u :: ws) = joined ((w ++ [59]) ++ u) ws) as Ej.
    { unfold joined. cbn. by rewrite <- !app_assoc. }
    rewrite Ej in *. assert (length ((w ++ [59%Z]) ++ u) ≤ length (joined ((w ++ [59%Z]) ++ u) ws))%nat as Hl
      by (unfold joined; rewrite !length_app; lia).
    unfold strcat_arg. rewrite strcpy_arg_ok by (rewrite length_app in Hl; lia). cbn [mbind outcome_bind mret outcome_ret].
    rewrite strcpy_arg_ok by lia. cbn [mbind outcome_bind]. by apply IH.
Qed.

Lemma scan_index_lt w i : scan_index w = Some i → (i < 6)%nat.
Proof. unfold scan_index. repeat case_match; intros [= <-]; lia. Qed.

Lemma select_scans_spec ws : ∀ sc i, (i < 6)%nat → length sc = 6%nat →
  select_scans ws sc !! i = if decide (Some i ∈ scan_index <$> ws) then Some 1 else sc !! i.
Proof.
  induction ws as [|w ws IH]; intros sc i Hi Hsc; cbn [fmap list_fmap].
  - by rewrite decide_False by apply not_elem_of_nil.
  - change (select_scans (w :: ws) sc) with
      (select_scans ws (match scan_index w with Some j => <[j := 1]> sc | None => sc end)).
    rewrite IH; [|done|by destruct (scan_index w); rewrite ?length_insert].
    destruct (decide (Some i ∈ scan_index <$> ws)) as [H|H].
    + by rewrite decide_True by (by right).
    + destruct (scan_index w) as [j|] eqn:Ej.
      * destruct (decide (i = j)) as [->|Hne].
        { rewrite decide_True by left. by rewrite list_lookup_insert_eq by lia. }
        rewrite list_lookup_insert_ne, decide_False; [done| |done].
        intros [[= ?]|?]%elem_of_cons; [done|done].
      * rewrite decide_False; [done|]. intros [[=]|?]%elem_of_cons. done.
Qed.

Section args.
Context (gethostbyname : list Z → option (list Z)) (fs : filesystem).

Lemma parse_options_scan w l s :
  (length w < MAX_ARG_SIZE)%nat →
  parse_options gethostbyname fs [OptScan w] l s =
  Done (Returns (Locals (port_args l) (Some w) (prefix_ l)), set_scan (replicate 6 0) s).
Proof.
  intros Hw. cbn [parse_options].
  assert (parse_option gethostbyname fs (OptScan w) l s =
    Done (Returns (Locals (port_args l) (Some w) (prefix_ l)), set_scan (replicate 6 0) s)) as E.
  { cbn [parse_option]. by rewrite (M_bind_lift _ _ _ _ (strcpy_arg_ok w Hw)), M_bind_modify. }
  by rewrite (M_bind_done _ _ _ _ _ E).
Qed.

(** With [--scan] and the names of scans the command line selects those
    scans and no other, and, without [--ports], the ports 1 to 1024. *)
Theorem parse_args_scans w ws :
  Forall word_ok (w :: ws) → (length (w :: ws) ≤ 7)%nat → (length (joined w ws) < MAX_ARG_SIZE)%nat →
  ∃ P sc, parse_args gethostbyname fs [OptScan w] ws ps_zero =
      Done (Returns tt, PS empty_lst P empty_lst None 0 empty_lst sc UNASSIGNED 0) ∧
    lst_data P (rev (seqZ 1 1024)) ∧
    ∀ i, (i < 6)%nat → sc !! i = Some (if decide (Some i ∈ scan_index <$> w :: ws) then 1 else 0).
Proof.
  intros Hw Hn Hlen. unfold parse_args. rewrite !M_bind_modify.
  assert (length w < MAX_ARG_SIZE)%nat as Hlw by (unfold joined in Hlen; rewrite length_app in Hlen; lia).
  rewrite (M_bind_done _ _ _ _ _ (parse_options_scan w _ _ Hlw)). cbn [scan_args port_args prefix_].
  set (s1 := set_scan (replicate 6 0) (set_no_of_threads 0 (set_scan (replicate 6 1) ps_zero))).
  destruct (get_ports_range_ok 1 1024 s1 []) as (P & EP & HP); [cbn; unfold int_max; lia|apply empty_data|vm_compute; done|].
  change (render_item (Range 1 1024)) with (bytes "1-1024") in EP.
  exists P, (select_scans (w :: ws) (replicate 6 0)). split; [|split].
  - rewrite (M_bind_lift _ _ _ _ (cat_words_ok ws w Hlen)), M_bind_gets.
    change (list_top (port_list s1)) with (@None positive). cbn iota. rewrite (M_seq _ _ _ _ EP).
    rewrite M_bind_gets, M_bind_modify, tokens_joined, take_ge by done. reflexivity.
  - exact HP.
  - intros i Hi. rewrite select_scans_spec by done. case_decide; [done|]. by apply lookup_replicate_2.
Qed.

(** ** Without [--scan] *)

Definition is_scan (o : option_t) : bool := match o with OptScan _ => true | _ => false end.

Lemma parse_option_keeps o l s l' s' :
  is_scan o = false → parse_option gethostbyname fs o l s = Done (Returns l', s') → scan_args l' = scan_args l.
Proof.
  destruct o; try done; intros _; cbn [parse_option]; intros H;
    repeat match goal with
    | H : (_ ≫= _) _ = Done _ |- _ => apply M_bind_inv in H as (? & ? & _ & H)
    | H : (match ?x with _ => _ end) _ = Done _ |- _ => destruct x
    | H : mret _ _ = Done _ |- _ => injection H as <-; try done
    | H : fault_with _ _ = Done _ |- _ => discriminate H
    end; done.
Qed.

Lemma parse_options_keeps os : ∀ l s l' s',
  forallb (negb ∘ is_scan) os = true →
  parse_options gethostbyname fs os l s = Done (Returns l', s') → scan_args l' = scan_args l.
Proof.
  induction os as [|o os IH]; intros l s l' s'; cbn [parse_options forallb compose].
  - by intros _ [= -> ->].
  - intros [Ho Hos]%andb_true_iff ([l1|c] & s1 & E1 & E)%M_bind_inv; [|done].
    apply (IH _ _ _ _ Hos) in E. apply negb_true_iff in Ho. apply (parse_option_keeps _ _ _ _ _ Ho) in E1. congruence.
Qed.

(** No command line without [--scan] is accepted: the array that holds its
    words is read before anything was written to it. *)
Theorem scan_option_required os words s s' :
  forallb (negb ∘ is_scan) os = true →
  parse_args gethostbyname fs os words s ≠ Done (Returns tt, s').
Proof.
  intros Hos. unfold parse_args. rewrite !M_bind_modify.
  intros ([l|c] & s1 & E1 & E)%M_bind_inv; [|done].
  apply (parse_options_keeps _ _ _ _ _ Hos) in E1. cbn in E1. rewrite E1 in E.
  apply M_bind_inv in E as (sa & s2 & Ew & E). destruct words as [|w ws]; [|done].
  injection Ew as <- <-. apply M_bind_inv in E as (P & s3 & _ & E).
  apply M_bind_inv in E as (u & s4 & _ & E). done.
Qed.
End args.

Definition no_files : filesystem := FileSys.FS ∅ (λ _, true) (λ _, true).
Definition no_hosts (name : list Z) : option (list Z) := None.

Lemma parse_args_scans_witness : ∃ P sc,
  parse_args no_hosts no_files [OptScan (bytes "SYN")] [bytes "UDP"] ps_zero =
    Done (Returns tt, PS empty_lst P empty_lst None 0 empty_lst sc UNASSIGNED 0) ∧
  sc !! 5%nat = Some 1 ∧ sc !! 1%nat = Some 0.
Proof.
  destruct (parse_args_scans no_hosts no_files (bytes "SYN") [bytes "UDP"]) as (P & sc & E & _ & H).
  - repeat constructor; (discriminate || (apply (bool_decide_unpack _); vm_compute; reflexivity)).
  - cbn. lia.
  - cbn. unfold MAX_ARG_SIZE. lia.
  - exists P, sc. split; [exact E|]. split; [exact (H 5%nat ltac:(lia))|exact (H 1%nat ltac:(lia))].
Defined.

Lemma scan_option_required_witness s' :
  parse_args no_hosts no_files [OptVerbose] [] ps_zero ≠ Done (Returns tt, s').
Proof. apply scan_option_required. reflexivity. Defined.

(** [--ports 2000]: the port is dropped, and the default that is then used is
    the argument itself, in which there is no range. *)
Lemma port_out_of_range_crashes :
  parse_args no_hosts no_files [OptScan (bytes "SYN"); OptPorts (bytes "2000")] [] ps_zero = Fault NullDeref.
Proof. vm_compute. reflexivity. Qed.
