(* ===== verification/PsPacket.v ===== *)
(** * Packets (portscan/ps_prepare.c)

    The TCP probe with its two checksums, the DNS query and the UDP payload, as
    the bytes of the buffers on a little-endian machine with the bit fields of
    gcc.  [inet_addr] is a parameter: the four bytes it stores. *)

From S2P Require Import Prelude CString PsText PsBytes PsSetup.
From stdpp Require Import strings.

Open Scope Z_scope.

Definition TYPE_A : Z := 1.
Definition IPPROTO_TCP : Z := 6.

(** ** The checksum (lines 181-202) *)

(** The loop over 16-bit words and the last byte; [csum] is a [uint32_t]. *)
Fixpoint csum_loop (fuel : nat) (p : list Z) (pktlen csum : Z) : outcome Z :=
  if 1 <? pktlen then
    match fuel with
    | O => NoFuel
    | S f => lo ← rd p 0; hi ← rd p 1;
             csum_loop f (drop 2 p) (pktlen - 2) ((csum + (lo + 256 * hi)) mod 2 ^ 32)
    end
  else if pktlen =? 1 then b ← rd p 0; Done ((csum + b) mod 2 ^ 32)
  else Done csum.

Definition calculate_tcpcsum (ptr : list Z) (pktlen : Z) : outcome Z :=
  csum ← csum_loop (Z.to_nat pktlen) ptr pktlen 0;
  let csum := Z.shiftr csum 16 + Z.land csum 65535 in
  let csum := csum + Z.shiftr csum 16 in
  mret (Z.lnot csum mod 2 ^ 16).

(** ** The TCP probe (lines 14-97) *)

(** [struct iphdr]: version and header length share a byte; [tot_len] is
    stored in host order. *)
Definition ip_header (tot_len check : Z) (saddr daddr : list Z) : list Z :=
  [16 * 4 + 5; 0] ++ le_bytes 2 tot_len ++ be_bytes 2 9999 ++ [0; 0] ++ [64; IPPROTO_TCP] ++
  le_bytes 2 check ++ saddr ++ daddr.

(** The flags of a scan: FIN 1, SYN 2, RST 4, PSH 8, ACK 16, URG 32. *)
Definition tcp_flags (scan_type : Z) : Z :=
  if scan_type =? SYN_SCAN then 2
  else if scan_type =? NULL_SCAN then 0
  else if scan_type =? FIN_SCAN then 1
  else if scan_type =? XMAS_SCAN then 1 + 8 + 32
  else if scan_type =? ACK_SCAN then 16 else 0.
(** [struct tcphdr] *)
Definition tcp_header (src_port dst_port flags check : Z) : list Z :=
  be_bytes 2 src_port ++ be_bytes 2 dst_port ++ be_bytes 4 9999999 ++ [0; 0; 0; 0] ++
  [16 * 5; flags] ++ be_bytes 2 14600 ++ le_bytes 2 check ++ [0; 0].
(** [struct pseudo_header_tcp] *)
Definition pseudo_header_tcp (saddr daddr tcp : list Z) : list Z :=
  saddr ++ daddr ++ [0; IPPROTO_TCP] ++ be_bytes 2 20 ++ tcp.

Definition prepare_tcp_pkt (inet_addr : list Z → list Z) (dst_ip : list Z) (dst_port : Z)
    (src_ip : list Z) (src_port scan_type : Z) : outcome (list Z) :=
  let saddr := inet_addr src_ip in
  let daddr := inet_addr dst_ip in
  let tot_len := 20 + 20 in
  let datagram := ip_header tot_len 0 saddr daddr ++ replicate (4096 - 20) 0 in
  check ← calculate_tcpcsum datagram (Z.shiftr tot_len 1);
  let tcp := tcp_header src_port dst_port (tcp_flags scan_type) 0 in
  tcp_check ← calculate_tcpcsum (pseudo_header_tcp saddr daddr tcp) 32;
  mret (ip_header tot_len check saddr daddr ++
        tcp_header src_port dst_port (tcp_flags scan_type) tcp_check ++ replicate (4096 - 40) 0).

(** ** The DNS query (lines 102-152) *)

(** A byte of 1-bit and wider fields, the first in the lowest bits. *)
Definition bit_fields (fs : list (Z * Z)) : Z :=
  foldr (λ '(width, v) rest, v + 2 ^ width * rest) 0 fs.
(** [struct DNS]: [qr], [opcode], [aa], [tc], [rd] are declared in this order. *)
Definition dns_header : list Z :=
  be_bytes 2 1234 ++
  [bit_fields [(1, 0); (4, 0); (1, 0); (1, 0); (1, 1)]; bit_fields [(1, 0); (1, 0); (4, 0)]] ++
  be_bytes 2 1 ++ replicate 6 0.

(** The buffer and [pktlen]. *)
Definition prepare_dnsquery_pkt (host : list Z) (query_type : Z) : outcome (list Z * Z) :=
  b ← mem_write (dns_header ++ replicate (4096 - 12) 0) 12 (host ++ [0]);
  b ← mem_write b (12 + (length host + 1)) (be_bytes 2 query_type ++ be_bytes 2 1);
  mret (b, 12 + (Z.of_nat (length host) + 1) + 4).

(** ** The UDP payload (lines 156-169) *)

Definition prepare_udp_pkt_with_payload : outcome (list Z) :=
  Nat.iter 20 (λ b, x ← b; mem_write x 0 (bytes "a" ++ [0])) (Done (replicate 30 0)).

(** ** The packets verify (properties of PsPacket)

    The checksum is the complement of the one's complement sum of RFC 1071, so
    that both checksums of the TCP probe verify at the receiver. *)

(** ** The one's complement sum *)

(** The 16-bit words, the last byte padded with zero. *)
Fixpoint words16 (p : list Z) : list Z :=
  match p with
  | lo :: hi :: p' => (lo + 256 * hi) :: words16 p'
  | [b] => [b]
  | [] => []
  end.
(** Addition with the carry added at the other end. *)
Definition oc_add (a b : Z) : Z := if a + b <? 65536 then a + b else a + b - 65535.
Definition oc_sum (ws : list Z) : Z := foldl oc_add 0 ws.

(** The one's complement sum as a function of the plain sum. *)
Definition oc_red (s : Z) : Z := if s =? 0 then 0 else 1 + (s - 1) mod 65535.

Definition is_word (w : Z) : Prop := 0 <= w < 65536.
Definition sum_list (ws : list Z) : Z := foldr Z.add 0 ws.

Lemma oc_red_range s : 0 <= s → 0 <= oc_red s <= 65535.
Proof.
  intros H. unfold oc_red. destruct (s =? 0); [lia|]. pose proof (Z.mod_pos_bound (s - 1) 65535). lia.
Qed.

Lemma oc_red_unique s k r : 0 < s → 1 <= r <= 65535 → s = 65535 * k + r → oc_red s = r.
Proof.
  intros Hs Hr E. unfold oc_red. rewrite (proj2 (Z.eqb_neq s 0)) by lia.
  rewrite <- (Z.mod_unique (s - 1) 65535 k (r - 1)); lia.
Qed.

Lemma oc_red_split s : 0 < s → ∃ k, s = 65535 * k + oc_red s ∧ 1 <= oc_red s.
Proof.
  intros Hs. unfold oc_red. rewrite (proj2 (Z.eqb_neq s 0)) by lia.
  exists ((s - 1) / 65535). pose proof (Z.div_mod (s - 1) 65535). pose proof (Z.mod_pos_bound (s - 1) 65535). lia.
Qed.

Lemma oc_red_add s w : 0 <= s → is_word w → oc_add (oc_red s) w = oc_red (s + w).
Proof.
  unfold is_word. intros Hs Hw. pose proof (oc_red_range s Hs) as Hr.
  destruct (Z.eq_dec s 0) as [->|Hne].
  - change (oc_red 0) with 0. unfold oc_add. rewrite (proj2 (Z.ltb_lt _ _)) by lia. cbn [Z.add].
    destruct (Z.eq_dec w 0) as [->|]; [done|]. symmetry. apply (oc_red_unique w 0); lia.
  - destruct (oc_red_split s ltac:(lia)) as (k & E & H1). unfold oc_add. symmetry.
    destruct (Z.ltb_spec (oc_red s + w) 65536).
    + apply (oc_red_unique _ k); lia.
    + apply (oc_red_unique _ (k + 1)); lia.
Qed.

Lemma oc_sum_red ws : Forall is_word ws → oc_sum ws = oc_red (sum_list ws).
Proof.
  intros H. unfold oc_sum. assert (∀ s, 0 <= s → foldl oc_add (oc_red s) ws = oc_red (s + sum_list ws)) as Hg.
  { induction H as [|w ws Hw Hws IH]; intros s Hs; cbn; [by rewrite Z.add_0_r|].
    rewrite oc_red_add by done. rewrite IH by (unfold is_word in Hw; lia). f_equal. unfold sum_list. cbn. lia. }
  apply (Hg 0). lia.
Qed.

Lemma sum_list_bound ws : Forall is_word ws → 0 <= sum_list ws <= 65535 * Z.of_nat (length ws).
Proof. unfold is_word. induction 1; cbn [sum_list foldr length]; [lia|]. unfold sum_list in *. lia. Qed.

Lemma sum_list_app a b : sum_list (a ++ b) = sum_list a + sum_list b.
Proof. induction a as [|x a IH]; cbn; [done|]. unfold sum_list in *. lia. Qed.

(** Folding the carries of a 32-bit sum twice. *)
Lemma fold_carries s :
  0 <= s < 2 ^ 32 →
  let c := Z.shiftr s 16 + Z.land s 65535 in
  Z.lnot (c + Z.shiftr c 16) mod 2 ^ 16 = 65535 - oc_red s.
Proof.
  intros Hs c.
  assert (c = s / 65536 + s mod 65536) as Ec.
  { unfold c. rewrite Z.shiftr_div_pow2 by lia. change 65535 with (Z.ones 16). by rewrite Z.land_ones by lia. }
  pose proof (Z.div_mod s 65536 ltac:(lia)) as Hd. pose proof (Z.mod_pos_bound s 65536 ltac:(lia)) as Hm.
  assert (0 <= s / 65536 < 65536) as Hq
    by (split; [apply Z.div_pos; lia|apply Z.div_lt_upper_bound; lia]).
  rewrite Z.shiftr_div_pow2 by lia. change (2 ^ 16) with 65536.
  assert (Z.lnot (c + c / 65536) = - (c + c / 65536) - 1) as -> by (unfold Z.lnot; lia).
  assert (0 <= oc_red s <= 65535) as Hr by (apply oc_red_range; lia).
  symmetry. destruct (Z.lt_ge_cases c 65536) as [Hlt|Hge].
  - rewrite Z.div_small, Z.add_0_r by lia.
    assert (oc_red s = c) as ->; [|apply (Z.mod_unique _ 65536 (-1)); lia].
    destruct (Z.eq_dec s 0) as [->|Hne]; [by rewrite Ec|]. apply (oc_red_unique s (s / 65536)); lia.
  - assert (c / 65536 = 1) as -> by (symmetry; apply (Z.div_unique _ _ 1 (c - 65536)); lia).
    assert (oc_red s = c - 65535) as -> by (apply (oc_red_unique s (s / 65536 + 1)); lia).
    apply (Z.mod_unique _ 65536 (-2)); lia.
Qed.

(** ** The loop *)

Lemma byte_word lo hi : is_byte lo → is_byte hi → is_word (lo + 256 * hi).
Proof. unfold is_byte, is_word. lia. Qed.

Lemma words16_words n : ∀ p, (length p ≤ n)%nat → Forall is_byte p → Forall is_word (words16 p).
Proof.
  induction n as [|n IH]; intros [|lo [|hi p]] Hn Hp; cbn in Hn |- *; try lia; try apply Forall_nil_2.
  - apply Forall_cons in Hp as [Hlo _]. apply Forall_singleton. unfold is_byte, is_word in *. lia.
  - apply Forall_cons in Hp as [Hlo Hp]. apply Forall_cons in Hp as [Hhi Hp].
    apply Forall_cons. split; [by apply byte_word|]. apply IH; [lia|done].
Qed.

Lemma words16_length n : ∀ p, (length p ≤ n)%nat → (2 * length (words16 p) ≤ S (length p))%nat.
Proof.
  induction n as [|n IH]; intros [|lo [|hi p]] Hn; cbn in *; try lia. specialize (IH p ltac:(lia)). lia.
Qed.

Lemma csum_loop_spec : ∀ fuel p r s,
  Forall is_byte p → (length p ≤ fuel)%nat → 0 <= s → s + sum_list (words16 p) < 2 ^ 32 →
  csum_loop fuel (p ++ r) (Z.of_nat (length p)) s = Done (s + sum_list (words16 p)).
Proof.
  induction fuel as [|fuel IH]; intros p r s Hp Hf Hs Hb.
  { destruct p; [|cbn in Hf; lia]. cbn. by rewrite Z.add_0_r. }
  destruct p as [|lo [|hi p]].
  - cbn. by rewrite Z.add_0_r.
  - apply Forall_cons in Hp as [Hlo _]. unfold is_byte in Hlo. cbn in Hb |- *. rewrite Z.add_0_r in *.
    rewrite Z.mod_small; [done|]. change (2 ^ 32) with 4294967296 in *. lia.
  - apply Forall_cons in Hp as [Hlo Hp]. apply Forall_cons in Hp as [Hhi Hp].
    assert (0 <= sum_list (words16 p)) as Hpos by (eapply sum_list_bound, words16_words; done).
    unfold is_byte in Hlo, Hhi. cbn [words16 sum_list foldr] in Hb |- *.
    change (foldr Z.add 0 (words16 p)) with (sum_list (words16 p)) in *. cbn [length app csum_loop].
    rewrite (proj2 (Z.ltb_lt _ _)) by lia. unfold rd. cbn [lookup list_lookup mbind outcome_bind drop].
    rewrite drop_0, Z.mod_small by lia. replace (Z.of_nat (S (S (length p))) - 2) with (Z.of_nat (length p)) by lia.
    cbn in Hf. rewrite IH; [f_equal; lia|done|lia|lia|lia].
Qed.

Lemma words16_small p : Z.of_nat (length p) <= 131072 → Forall is_byte p → 0 <= sum_list (words16 p) < 2 ^ 32.
Proof.
  intros Hl Hp. pose proof (sum_list_bound _ (words16_words _ p (le_n _) Hp)) as Hb.
  pose proof (words16_length _ p (le_n _)) as Hw. change (2 ^ 32) with 4294967296. lia.
Qed.

Lemma tcpcsum_oc p r :
  Forall is_byte p → Z.of_nat (length p) <= 131072 →
  calculate_tcpcsum (p ++ r) (Z.of_nat (length p)) = Done (65535 - oc_sum (words16 p)).
Proof.
  intros Hp Hl. pose proof (words16_small p Hl Hp) as Hs. unfold calculate_tcpcsum.
  rewrite Nat2Z.id, (csum_loop_spec _ _ _ _ Hp (le_n _)) by lia. cbn [mbind outcome_bind].
  rewrite Z.add_0_l. cbn zeta. rewrite fold_carries by done.
  by rewrite oc_sum_red by (eapply words16_words; done).
Qed.

(** C24: on up to 128 KiB [calculate_tcpcsum] is the complement of the one's
    complement sum of the 16-bit words; its loop ends and the 32-bit
    accumulator does not wrap. *)
Theorem calculate_tcpcsum_spec p r :
  Forall is_byte p → Z.of_nat (length p) <= 131072 →
  calculate_tcpcsum (p ++ r) (Z.of_nat (length p)) = Done (65535 - oc_sum (words16 p)).
Proof. apply tcpcsum_oc. Qed.

Lemma calculate_tcpcsum_witness :
  calculate_tcpcsum [69; 0; 1; 7; 255] 5 = Done (65535 - oc_sum [69; 1793; 255]).
Proof.
  apply (calculate_tcpcsum_spec [69; 0; 1; 7; 255] []).
  - apply (bool_decide_unpack _). vm_compute. reflexivity.
  - cbn. lia.
Defined.

(** ** Filling in a checksum *)

Lemma words16_app_even n : ∀ a b, length a = (2 * n)%nat → words16 (a ++ b) = words16 a ++ words16 b.
Proof.
  induction n as [|n IH]; intros [|x [|y a]] b Hl; cbn in Hl; try lia; [done|].
  cbn [app words16]. by rewrite IH by lia.
Qed.

(** The sum of words with a checksum in place of a zero word is all ones. *)
Lemma checksum_verifies n a b c :
  Forall is_byte (a ++ b) → length a = (2 * n)%nat → c = 65535 - oc_sum (words16 (a ++ [0; 0] ++ b)) →
  oc_sum (words16 (a ++ le_bytes 2 c ++ b)) = 65535 ∧ is_word c.
Proof.
  intros [Ha Hb]%Forall_app Hl Hc.
  assert (∀ x y, is_byte x → is_byte y → Forall is_byte (a ++ [x; y] ++ b)) as Hall.
  { intros x y Hx Hy. apply Forall_app. split; [done|]. by repeat apply Forall_cons_2. }
  assert (∀ x y, sum_list (words16 (a ++ [x; y] ++ b)) = sum_list (words16 a) + sum_list (words16 b) + (x + 256 * y)) as Hsum.
  { intros x y. rewrite (words16_app_even n) by done. rewrite sum_list_app. cbn [app words16].
    change (sum_list ((x + 256 * y) :: words16 b)) with (x + 256 * y + sum_list (words16 b)). lia. }
  assert (is_byte 0) as H0 by (unfold is_byte; lia).
  rewrite oc_sum_red, Hsum in Hc by (eapply words16_words; [reflexivity|by apply Hall]).
  set (s := sum_list (words16 a) + sum_list (words16 b)) in *. rewrite Z.mul_0_r, !Z.add_0_r in Hc.
  assert (0 <= s) as Hs.
  { unfold s. pose proof (sum_list_bound _ (words16_words _ a (le_n _) Ha)).
    pose proof (sum_list_bound _ (words16_words _ b (le_n _) Hb)). lia. }
  pose proof (oc_red_range s Hs) as Hr. assert (is_word c) as Hw by (unfold is_word; lia). split; [|done].
  pose proof (le_bytes_byte 2 c) as Hcb. pose proof (le_val_bytes 2 c) as Hcv.
  change (256 ^ Z.of_nat 2) with 65536 in Hcv. specialize (Hcv Hw). revert Hcb Hcv.
  change (le_bytes 2 c) with [c mod 256; c / 256 mod 256]. set (x := c mod 256). set (y := c / 256 mod 256).
  intros Hcb Hcv. cbn [le_val] in Hcv. apply Forall_cons in Hcb as [Hx Hcb]. apply Forall_cons in Hcb as [Hy _].
  rewrite oc_sum_red, Hsum by (eapply words16_words; [reflexivity|by apply Hall]). fold s.
  destruct (Z.eq_dec s 0) as [E|E].
  - rewrite E in Hc |- *. change (oc_red 0) with 0 in Hc. apply (oc_red_unique _ 0); lia.
  - destruct (oc_red_split s ltac:(lia)) as (k & Ek & Hk). apply (oc_red_unique _ k); lia.
Qed.

(** ** The TCP probe *)

Lemma tcp_flags_byte st : is_byte (tcp_flags st).
Proof. unfold tcp_flags, is_byte. repeat case_match; lia. Qed.

(** The probe has the header fields of the scan and both of its checksums
    verify: the one's complement sums over the IP header, and over the pseudo
    header and the TCP header, are all ones. *)
Lemma prepare_tcp_pkt_ok inet_addr dst_ip dst_port src_ip src_port st :
  (∀ ip, length (inet_addr ip) = 4%nat ∧ Forall is_byte (inet_addr ip)) →
  ∃ check tcp_check,
    let ip := ip_header 40 check (inet_addr src_ip) (inet_addr dst_ip) in
    let tcp := tcp_header src_port dst_port (tcp_flags st) tcp_check in
    prepare_tcp_pkt inet_addr dst_ip dst_port src_ip src_port st =
      Done (ip ++ tcp ++ replicate 4056 0) ∧
    oc_sum (words16 ip) = 65535 ∧
    oc_sum (words16 (pseudo_header_tcp (inet_addr src_ip) (inet_addr dst_ip) tcp)) = 65535.
Proof.
  intros Hinet. destruct (Hinet src_ip) as [Hsl Hsb], (Hinet dst_ip) as [Hdl Hdb].
  unfold prepare_tcp_pkt. cbn zeta. change (20 + 20) with 40. change (Z.shiftr 40 1) with 20.
  set (sa := inet_addr src_ip) in *. set (da := inet_addr dst_ip) in *.
  (* the IP header *)
  set (a1 := [16 * 4 + 5; 0] ++ le_bytes 2 40 ++ be_bytes 2 9999 ++ [0; 0] ++ [64; IPPROTO_TCP]).
  assert (∀ c, ip_header 40 c sa da = a1 ++ le_bytes 2 c ++ sa ++ da) as Eip by done.
  assert (Forall is_byte (a1 ++ sa ++ da)) as Hb1.
  { rewrite !Forall_app. split; [|done]. apply (bool_decide_unpack _). vm_compute. exact I. }
  assert (Forall is_byte (ip_header 40 0 sa da)) as Hb1'.
  { rewrite Eip, !Forall_app in *. destruct Hb1 as (? & ? & ?). repeat split; try done. apply le_bytes_byte. }
  assert (length (ip_header 40 0 sa da) = 20%nat) as Hl1 by (rewrite Eip, !length_app, Hsl, Hdl; done).
  pose proof (tcpcsum_oc (ip_header 40 0 sa da) (replicate (4096 - 20) 0) Hb1' ltac:(rewrite Hl1; lia)) as E1.
  rewrite Hl1 in E1. change (Z.of_nat 20) with 20 in E1. rewrite (bind_done _ _ _ E1).
  (* the TCP header *)
  set (a2 := sa ++ da ++ [0; IPPROTO_TCP] ++ be_bytes 2 20 ++ be_bytes 2 src_port ++ be_bytes 2 dst_port ++
             be_bytes 4 9999999 ++ [0; 0; 0; 0] ++ [16 * 5; tcp_flags st] ++ be_bytes 2 14600).
  assert (∀ c, pseudo_header_tcp sa da (tcp_header src_port dst_port (tcp_flags st) c) = a2 ++ le_bytes 2 c ++ [0; 0]) as Etcp.
  { intros c. unfold pseudo_header_tcp, tcp_header, a2. by rewrite <- !app_assoc. }
  assert (Forall is_byte (a2 ++ [0; 0])) as Hb2.
  { unfold a2. rewrite !Forall_app. pose proof (tcp_flags_byte st).
    repeat split; try apply be_bytes_byte; try done; try (by apply (bool_decide_unpack _); vm_compute);
      repeat (apply Forall_cons; split; [by (apply tcp_flags_byte || (unfold is_byte; lia))|]); apply Forall_nil_2. }
  assert (length a2 = (2 * 14)%nat) as Hla2.
  { unfold a2. rewrite !length_app, !length_be_bytes, Hsl, Hdl. done. }
  assert (Forall is_byte (a2 ++ le_bytes 2 0 ++ [0; 0])) as Hb2'.
  { rewrite !Forall_app in *. destruct Hb2. split; [done|split; [apply le_bytes_byte|done]]. }
  pose proof (tcpcsum_oc _ [] Hb2' ltac:(rewrite !length_app, Hla2; cbn; lia)) as E2.
  rewrite app_nil_r, <- Etcp in E2.
  assert (length (pseudo_header_tcp sa da (tcp_header src_port dst_port (tcp_flags st) 0)) = 32%nat) as Hl2
    by (rewrite Etcp, !length_app, Hla2; done).
  rewrite Hl2 in E2. change (Z.of_nat 32) with 32 in E2. rewrite (bind_done _ _ _ E2).
  do 2 eexists. split; [reflexivity|]. rewrite Eip, !Etcp. split.
  - eapply (checksum_verifies 5); [done|done|by rewrite Eip].
  - eapply (checksum_verifies 14); [done|done|done].
Qed.


(** ** The DNS query *)

(** The bit fields of [struct DNS] are declared from the most significant bit
    down, as the protocol draws them; gcc fills them from the least significant
    one: recursion desired is sent as "response". *)
Lemma dns_query_is_response : dns_header !! 2%nat = Some 128.
Proof. reflexivity. Qed.

(** The name is sent as it is written, not as labels. *)
Lemma dns_name_is_not_encoded :
  ∃ b, prepare_dnsquery_pkt (bytes "www.google.com") TYPE_A = Done (b, 31) ∧
    take 15 (drop 12 b) = c_lit "www.google.com".
Proof. eexists. split; vm_compute; reflexivity. Qed.
