(* ===== verification/PsScan.v ===== *)
(** * Scanning (portscan/ps_scan.c)

    How answers and timeouts become results: [prepare_rslt], [got_packet], the
    loop of [ps_default] over the jobs, [timeval_diff].  What arrives is an
    argument: for each job and each of its rounds a timeout, a packet or a
    failure.  [getservbyport] is a parameter. *)

From S2P Require Import Prelude CString PsText PsBytes PsList PsSetup.
From stdpp Require Import gmap strings.

Open Scope Z_scope.

Definition MIN_IP_HEADER_LEN : Z := 20.
Definition SIZE_ETHERNET : nat := 14.
Definition MAX_RETRY_COUNT : Z := 3.

(** ** Time (lines 338-360) *)

(** Seconds and microseconds of the difference, and the result. *)
Fixpoint borrow_loop (fuel : nat) (sec usec : Z) : outcome (Z * Z) :=
  if usec <? 0 then
    match fuel with O => NoFuel | S f => borrow_loop f (sec - 1) (usec + 1000000) end
  else Done (sec, usec).
Definition timeval_diff (end_time start_time : Z * Z) : outcome (Z * Z * Z) :=
  let sec := end_time.1 - start_time.1 in
  let usec := end_time.2 - start_time.2 in
  '(sec, usec) ← borrow_loop (Z.to_nat (Z.abs usec)) sec usec;
  mret (sec, usec, 1000000 * sec + usec).

Section scan.
Context (getservbyport : Z → bool → option (list Z)).

(** ** Results (lines 300-334) *)

Definition strncpy_service (s : list Z) : list Z :=
  take MAX_SERVICE_NAME (s ++ replicate MAX_SERVICE_NAME 0).

(** A new node that is in no list; [scan_type] is left unset. *)
Definition prepare_rslt (ip : list Z) (portno scn_mode : Z) : M ps_state ptr :=
  b ← lift (mem_read ip INET_ADDRSTRLEN);
  let service := match getservbyport portno (scn_mode =? UDP_SCAN) with
                 | Some s_name => strncpy_service s_name
                 | None => strncpy_service (bytes "Unassigned")
                 end in
  L ← gets result_list;
  let a := new_addr (cells L) in
  modify (set_result_list (Lst (<[a := Node (Result b service (replicate 6 NONE) NONE portno None) None]> (cells L))
                               (list_top L) (count L)));;
  mret (Some a).

(** An assignment to the fields of a result. *)
Definition edit_result (p : ptr) (f : result_t → outcome result_t) : M ps_state unit :=
  L ← gets result_list;
  n ← lift (deref (cells L) p);
  r ← lift (f (n_data n));
  match p with
  | None => fault_with NullDeref
  | Some a => modify (set_result_list (Lst (<[a := Node r (n_next n)]> (cells L)) (list_top L) (count L)))
  end.
Definition assign_scan_type (p : ptr) (st : Z) : M ps_state unit :=
  edit_result p (λ r, Done (Result (r_ip r) (r_service r) (r_result r) (r_conclusion r) (r_portno r) (Some st))).
Definition assign_result (p : ptr) (st v : Z) : M ps_state unit :=
  edit_result p (λ r,
    if (0 <=? st) && (st <? 6) then
      Done (Result (r_ip r) (r_service r) (<[Z.to_nat st := v]> (r_result r)) (r_conclusion r) (r_portno r) (r_scan_type r))
    else Fault OutOfBounds).

(** [prepare_rslt], the assignments to [scan_type] and [result], and
    [push_result], as they stand in every branch. *)
Definition report_value (ip : list Z) (portno st v : Z) : M ps_state unit :=
  p ← prepare_rslt ip portno st;
  assign_scan_type p st;; assign_result p st v;; push_result p.

(** ** A packet (lines 784-928) *)

Definition bit (b n : Z) : bool := Z.testbit b n.

(** [stack] is what the array [ipadd] holds before [sprintf]; [header] says
    whether the packet starts with an Ethernet header. *)
Definition got_packet (stack : list Z) (currentjob : job_t) (header : bool) (packet : list Z) : M ps_state unit :=
  let iph := if header then SIZE_ETHERNET else O in
  vihl ← lift (rd packet iph);
  let iph_len := vihl mod 16 * 4 in
  if iph_len <? MIN_IP_HEADER_LEN then mret tt
  else
    src ← lift (mem_read (drop (iph + 12) packet) 4);
    text ← lift (c_str (j_ip currentjob));
    ipadd ← lift (mem_write stack 0 (text ++ [0]));
    protocol ← lift (rd packet (iph + 9));
    let body := (iph + Z.to_nat iph_len)%nat in
    let st := j_scan_type currentjob in
    if protocol =? 1 then
      type ← lift (rd packet body);
      if type =? 3 then
        code ← lift (rd packet (body + 1));
        if (code =? 1) || (code =? 2) || (code =? 9) || (code =? 10) || (code =? 13) then
          report_value ipadd (j_portno currentjob) st R_FILTERED
        else if code =? 3 then
          report_value ipadd (j_portno currentjob) st (if st =? UDP_SCAN then R_CLOSED else R_OPN_FIL)
        else mret tt
      else mret tt
    else if protocol =? 6 then
      doff ← lift (rd packet (body + 12));
      if doff / 16 * 4 <? 20 then mret tt
      else
        s1 ← lift (rd packet body); s0 ← lift (rd packet (body + 1));
        let source := 256 * s1 + s0 in
        current_result ← prepare_rslt ipadd source st;
        assign_scan_type current_result st;;
        flags ← lift (rd packet (body + 13));
        (if bit flags 1 && bit flags 4 then assign_result current_result st R_OPEN else mret tt);;
        (if bit flags 2 then
           assign_result current_result st (if st =? ACK_SCAN then R_UNFILTERED else R_CLOSED)
         else mret tt);;
        push_result current_result
    else if protocol =? 17 then
      s1 ← lift (rd packet body); s0 ← lift (rd packet (body + 1));
      if 256 * s1 + s0 =? j_portno currentjob then
        report_value ipadd (j_portno currentjob) st R_OPEN
      else mret tt
    else mret tt.

(** ** The jobs, one after the other (lines 107-295) *)

(** A round: [sendto] fails, [pcap_dispatch] is broken by the alarm, or
    returns after a packet ([got_packet] has been called) or without one. *)
Inductive round := RSendFails | RTimeout | RPacket (packet : list Z) | RNothing.

(** The result when the last retry has timed out (lines 219-263). *)
Definition timeout_value (st : Z) : option Z :=
  if (st =? NULL_SCAN) || (st =? FIN_SCAN) || (st =? XMAS_SCAN) || (st =? UDP_SCAN) then Some R_OPN_FIL
  else if (st =? SYN_SCAN) || (st =? ACK_SCAN) then Some R_FILTERED else None.
Definition timeout_result (job : job_t) : M ps_state unit :=
  let st := j_scan_type job in
  p ← prepare_rslt (j_ip job) (j_portno job) st;
  assign_scan_type p st;;
  match timeout_value st with Some v => assign_result p st v | None => mret tt end;;
  push_result p.

(** [do { ... } while (count < MAX_RETRY_COUNT)]; [rounds i] is the round with
    [count] equal to [i]. *)
Fixpoint retry_loop (fuel : nat) (stack : list Z) (job : job_t) (rounds : Z → round) (count : Z) : M ps_state unit :=
  match rounds count with
  | RSendFails | RNothing => mret tt
  | RPacket packet => got_packet stack job true packet
  | RTimeout =>
      let count := count + 1 in
      (if count =? MAX_RETRY_COUNT then timeout_result job else mret tt);;
      if count <? MAX_RETRY_COUNT then
        match fuel return M ps_state unit with
        | O => λ _, NoFuel
        | S f => retry_loop f stack job rounds count
        end
      else mret tt
  end.

(** The probe of a job is modelled in PsMain and the version detection in
    PsVersion; the rounds of the [k]-th job are [rounds k]. *)
Fixpoint ps_default (fuel : nat) (stack : list Z) (rounds : nat → Z → round) (k : nat) : M ps_state unit :=
  p ← get_next_job;
  match p with
  | None => mret tt
  | Some _ =>
      match fuel return M ps_state unit with
      | O => λ _, NoFuel
      | S f =>
          J ← gets job_masterlist; job ← lift (deref (cells J) p);
          retry_loop 3 stack (n_data job) (rounds k) 0;;
          ps_default f stack rounds (S k)
      end
  end.
End scan.
