(* ===== verification/PsScanSpec.v ===== *)
(** * Every answer and every silence becomes a result (properties of PsScan)

    [verdict] is the table of what a packet says about a port, [job_events]
    what the rounds of a job add; [ps_default] takes every job and records
    exactly these. *)

From S2P Require Import Prelude CString PsText PsBytes PsList PsSetup PsJobs PsResults PsScan.
From stdpp Require Import gmap strings.

Open Scope Z_scope.

(** ** What is recorded *)

Definition event (job : job_t) (port v : Z) : push_event :=
  ((port, ip_text (j_ip job)), (Z.to_nat (j_scan_type job), v)).

Definition verdict (job : job_t) (header : bool) (pkt : list Z) : list push_event :=
  let iph := if header then SIZE_ETHERNET else O in
  let iph_len := byte_at pkt iph mod 16 * 4 in
  let body := (iph + Z.to_nat iph_len)%nat in
  let st := j_scan_type job in
  if iph_len <? 20 then []
  else if byte_at pkt (iph + 9) =? 1 then          (* ICMP: destination unreachable *)
    if negb (byte_at pkt body =? 3) then []
    else if bool_decide (byte_at pkt (body + 1) ∈ [1; 2; 9; 10; 13]) then [event job (j_portno job) R_FILTERED]
    else if byte_at pkt (body + 1) =? 3 then
      [event job (j_portno job) (if st =? UDP_SCAN then R_CLOSED else R_OPN_FIL)]
    else []
  else if byte_at pkt (iph + 9) =? 6 then          (* TCP: of the flags, RST decides *)
    if byte_at pkt (body + 12) / 16 * 4 <? 20 then []
    else
      let flags := byte_at pkt (body + 13) in
      [event job (256 * byte_at pkt body + byte_at pkt (body + 1))
         (if Z.testbit flags 2 then (if st =? ACK_SCAN then R_UNFILTERED else R_CLOSED)
          else if Z.testbit flags 1 && Z.testbit flags 4 then R_OPEN else NONE)]
  else if byte_at pkt (iph + 9) =? 17 then         (* UDP: an answer *)
    if 256 * byte_at pkt body + byte_at pkt (body + 1) =? j_portno job then [event job (j_portno job) R_OPEN]
    else []
  else [].

(** The value of a port that never answers. *)
Definition silence (st : Z) : Z :=
  if bool_decide (st ∈ [SYN_SCAN; ACK_SCAN]) then R_FILTERED else R_OPN_FIL.

(** The rounds from [i] on, with [n] retries left. *)
Fixpoint job_events (n : nat) (job : job_t) (rounds : Z → round) (i : Z) : list push_event :=
  match rounds i with
  | RPacket pkt => verdict job true pkt
  | RTimeout => match n with
                | O => [event job (j_portno job) (silence (j_scan_type job))]
                | S n' => job_events n' job rounds (i + 1)
                end
  | RSendFails | RNothing => []
  end.

Definition job_ok (j : job_t) : Prop :=
  length (j_ip j) = 16%nat ∧ 0 ∈ j_ip j ∧ 0 <= j_scan_type j < 6.
(** The longest headers of a captured packet can be read. *)
Definition readable (header : bool) (pkt : list Z) : Prop :=
  ((if header then SIZE_ETHERNET else O) + 74 ≤ length pkt)%nat.

Section scan.
Context (getservbyport : Z → bool → option (list Z)).
(** Whether it is also kept that every result allocated is in the list. *)
Context (tidy : Prop).

Definition table_on (L : lst result_t) (l : list (positive * result_t)) (h : list push_event) : Prop :=
  table_at L l h ∧ (tidy → ∀ b, is_Some (cells L !! b) → b ∈ l.*1).

(** ** A result under construction *)

Definition almost_on (L : lst result_t) (l : list (positive * result_t)) (h : list push_event) (a : positive) : Prop :=
  table_at L l h ∧ (tidy → ∀ b, is_Some (cells L !! b) → b = a ∨ b ∈ l.*1).

Lemma almost_insert L l h a n :
  a ∉ l.*1 → almost_on L l h a → almost_on (Lst (<[a := n]> (cells L)) (list_top L) (count L)) l h a.
Proof.
  intros Ha [[[Hc Hnd Hn] Ht] Hall]. split; [split; [|done]; split; [by apply chain_insert|done|done]|].
  intros E b [m Hb]. cbn in Hb. apply lookup_insert_Some in Hb as [[-> _]|[_ Hb]]; [by left|]. apply (Hall E). by exists m.
Qed.
Lemma almost_of L l h a : table_on L l h → almost_on L l h a.
Proof. intros [H Hall]. split; [done|]. intros E b Hb. right. by apply Hall. Qed.

(** The entries [l] of [L] hold [h]; the node [a], in no list, is a result of
    the scan [st] for the key [k] with the value [w] so far. *)
Definition pending (L : lst result_t) (l : list (positive * result_t)) (h : list push_event)
    (a : positive) (k : Z * list Z) (st : nat) (w : Z) : Prop :=
  almost_on L l h a ∧ a ∉ l.*1 ∧ ∃ r q, cells L !! a = Some (Node r q) ∧ ip_ok r ∧ key_of r = k ∧
    length (r_result r) = 6%nat ∧ r_scan_type r = Some (Z.of_nat st) ∧ r_result r !! st = Some w.

Lemma prepare_pending ip port st s l h :
  length ip = 16%nat → 0 ∈ ip → (st < 6)%nat → table_on (result_list s) l h →
  ∃ L a, prepare_rslt getservbyport ip port (Z.of_nat st) s = Done (Some a, set_result_list L s) ∧
    ∃ L', assign_scan_type (Some a) (Z.of_nat st) (set_result_list L s) = Done (tt, set_result_list L' s) ∧
      pending L' l h a (port, ip_text ip) st NONE.
Proof.
  intros Hlen H0 Hst HL. unfold prepare_rslt.
  assert (mem_read ip INET_ADDRSTRLEN = Done ip) as Er.
  { rewrite mem_read_ok by (unfold INET_ADDRSTRLEN; lia). by rewrite take_ge by (rewrite Hlen; done). }
  rewrite (M_bind_lift _ _ _ _ Er). cbn zeta. rewrite M_bind_gets, M_bind_modify.
  set (a := new_addr (cells (result_list s))).
  pose proof (chain_fresh _ _ _ (rep_chain _ _ (proj1 (proj1 HL)))) as Hfr. fold a in Hfr.
  do 2 eexists. split; [done|]. unfold assign_scan_type, edit_result. rewrite M_bind_gets.
  cbn [result_list set_result_list cells list_top count].
  erewrite (M_bind_lift _ _ _ _ (deref_ok _ _ _ (lookup_insert_eq _ _ _))), (M_bind_lift _ _ _ _ eq_refl).
  eexists. split; [done|]. split; [|split; [done|]].
  - exact (almost_insert _ l h a _ Hfr (almost_insert _ l h a _ Hfr (almost_of _ _ _ a HL))).
  - do 2 eexists. split; [apply lookup_insert_eq|]. cbn. repeat split; try done.
    by apply (lookup_replicate_2 6 NONE).
Qed.

Lemma assign_pending v L s l h a k st w :
  (st < 6)%nat → pending L l h a k st w → ∃ L',
  assign_result (Some a) (Z.of_nat st) v (set_result_list L s) = Done (tt, set_result_list L' s) ∧
  pending L' l h a k st v.
Proof.
  intros Hst (HL & Ha & r & q & Hr & Hip & Hk & Hlen & Hs & Hw). unfold assign_result, edit_result.
  rewrite M_bind_gets. cbn [result_list set_result_list]. rewrite (M_bind_lift _ _ _ _ (deref_ok _ _ _ Hr)).
  rewrite (proj2 (Z.leb_le _ _)), (proj2 (Z.ltb_lt _ _)) by lia. cbn [andb n_data].
  rewrite (M_bind_lift _ _ _ _ eq_refl). eexists. split; [done|]. split; [by apply almost_insert|]. split; [done|].
  do 2 eexists. split; [apply lookup_insert_eq|]. cbn. rewrite length_insert, Nat2Z.id. repeat split; try done.
  by rewrite list_lookup_insert_eq by lia.
Qed.

Lemma push_pending L s l h a k st w :
  (st < 6)%nat → pending L l h a k st w → Z.of_nat (length h) < int_max → ∃ L' l',
  push_result (Some a) (set_result_list L s) = Done (tt, set_result_list L' s) ∧
  table_on L' l' (h ++ [(k, (st, w))]).
Proof.
  intros Hst (HL & Ha & r & q & Hr & Hip & <- & Hlen & Hs & Hw) Hmax.
  destruct HL as [HL Hall]. pose proof (table_length _ _ (proj2 HL)) as Hl. rewrite length_fmap in Hl.
  destruct (push_result_table (set_result_list L s) l h a r q st w HL Hr Ha ltac:(lia) Hip Hs Hst Hw)
    as (L' & l' & E & H & Hgrow & Hgone & Hother). exists L', l'. split; [done|]. split; [done|].
  intros T b [n Hb]. destruct (decide (b = a)) as [->|Hne]; [congruence|]. destruct (decide (b ∈ l'.*1)) as [|Hni]; [done|].
  rewrite Hother in Hb by done. apply Hgrow. destruct (Hall T b) as [->|Hin]; [by exists n|done|done].
Qed.

Lemma report_value_ok ip port st v s l h :
  length ip = 16%nat → 0 ∈ ip → (st < 6)%nat → table_on (result_list s) l h → Z.of_nat (length h) < int_max →
  ∃ L l', report_value getservbyport ip port (Z.of_nat st) v s = Done (tt, set_result_list L s) ∧
    table_on L l' (h ++ [((port, ip_text ip), (st, v))]).
Proof.
  intros Hlen H0 Hst HL Hmax. unfold report_value.
  destruct (prepare_pending ip port st s l h Hlen H0 Hst HL) as (L1 & a & E1 & L2 & E2 & H2).
  rewrite (M_bind_done _ _ _ _ _ E1), (M_seq _ _ _ _ E2).
  destruct (assign_pending v L2 s l h a _ st _ Hst H2) as (L3 & E3 & H3). rewrite (M_seq _ _ _ _ E3).
  by apply push_pending with (l := l) (a := a).
Qed.

(** ** A packet *)

Lemma ipadd_ok stack ip :
  length stack = 16%nat → length ip = 16%nat → 0 ∈ ip →
  ∃ b, c_str ip = Done (ip_text ip) ∧ mem_write stack 0 (ip_text ip ++ [0]) = Done b ∧
    length b = 16%nat ∧ 0 ∈ b ∧ ip_text b = ip_text ip.
Proof.
  intros Hs Hlen H0. pose proof (c_str_ip_text ip H0) as Ec. pose proof (c_str_length _ _ Ec) as Hl.
  exists (splice stack 0 (ip_text ip ++ [0])). split; [done|].
  rewrite mem_write_ok by (rewrite length_app; cbn; lia). split; [done|].
  split; [by rewrite length_splice by (rewrite length_app; cbn; lia)|].
  assert (splice stack 0 (ip_text ip ++ [0]) = ip_text ip ++ 0 :: drop (length (ip_text ip ++ [0])) stack) as E.
  { unfold splice. cbn [take app]. by rewrite <- app_assoc. }
  rewrite E. assert (0 ∈ ip_text ip ++ 0 :: drop (length (ip_text ip ++ [0])) stack) as Hin
    by (apply elem_of_app; right; left).
  split; [done|]. pose proof (c_str_ip_text _ Hin) as E1.
  rewrite (c_str_app _ _ (c_str_nonzero _ _ Ec)) in E1. congruence.
Qed.

(** What holds after a step that records the events [es]. *)
Definition records (m : M ps_state unit) (s : ps_state) (h es : list push_event) : Prop :=
  ∃ L l, m s = Done (tt, set_result_list L s) ∧ table_on L l (h ++ es).

Lemma records_none s l h : table_on (result_list s) l h → records (mret tt) s h [].
Proof. intros H. exists (result_list s), l. split; [by destruct s|by rewrite app_nil_r]. Qed.

(** A report of the value [v] from the buffer [ipadd]. *)
Lemma report_event ipadd job port v s l h :
  job_ok job → length ipadd = 16%nat → 0 ∈ ipadd → ip_text ipadd = ip_text (j_ip job) →
  table_on (result_list s) l h → Z.of_nat (length h) < int_max →
  records (report_value getservbyport ipadd port (j_scan_type job) v) s h [event job port v].
Proof.
  intros (_ & _ & Hst) Hlen H0 Ht HL Hmax. unfold event. rewrite <- Ht.
  rewrite <- (Z2Nat.id (j_scan_type job)) at 1 by lia.
  destruct (report_value_ok ipadd port (Z.to_nat (j_scan_type job)) v s l h Hlen H0 ltac:(lia) HL Hmax)
    as (L & l' & E & H). by exists L, l'.
Qed.

(** The TCP branch: two assignments that may be skipped. *)
Lemma tcp_result_ok job ipadd port (f1 f2 : bool) v1 v2 s l h :
  job_ok job → length ipadd = 16%nat → 0 ∈ ipadd → ip_text ipadd = ip_text (j_ip job) →
  table_on (result_list s) l h → Z.of_nat (length h) < int_max →
  let st := j_scan_type job in
  records (current_result ← prepare_rslt getservbyport ipadd port st;
           assign_scan_type current_result st;;
           (if f1 then assign_result current_result st v1 else mret tt);;
           (if f2 then assign_result current_result st v2 else mret tt);;
           push_result current_result) s h
    [event job port (if f2 then v2 else if f1 then v1 else NONE)].
Proof.
  intros (_ & _ & Hjst) Hlen H0 Ht HL Hmax st. unfold event. rewrite <- Ht. fold st.
  assert (st = Z.of_nat (Z.to_nat st)) as Est by (unfold st; lia). set (n := Z.to_nat st) in *. rewrite Est.
  assert (n < 6)%nat as Hn by (unfold n, st; lia).
  destruct (prepare_pending ipadd port n s l h Hlen H0 Hn HL) as (L1 & a & E1 & L2 & E2 & H2).
  unfold records. rewrite (M_bind_done _ _ _ _ _ E1), (M_seq _ _ _ _ E2).
  assert (∀ (f : bool) v w L, pending L l h a (port, ip_text ipadd) n w → ∃ L',
    (if f then assign_result (Some a) (Z.of_nat n) v else mret tt) (set_result_list L s) =
      Done (tt, set_result_list L' s) ∧ pending L' l h a (port, ip_text ipadd) n (if f then v else w)) as Hif.
  { intros [] v w L HLw; [by apply assign_pending with (w := w)|by exists L]. }
  destruct (Hif f1 v1 _ _ H2) as (L3 & E3 & H3). rewrite (M_seq _ _ _ _ E3).
  destruct (Hif f2 v2 _ _ H3) as (L4 & E4 & H4). rewrite (M_seq _ _ _ _ E4).
  by apply push_pending with (l := l) (a := a).
Qed.

Lemma M_bind_rd {B} p i (k : Z → M ps_state B) s :
  (i < length p)%nat → (lift (rd p i) ≫= k) s = k (byte_at p i) s.
Proof. intros H. by rewrite (M_bind_lift _ _ _ _ (rd_byte p i H)). Qed.

Lemma got_packet_ok stack job header pkt s l h :
  length stack = 16%nat → job_ok job → readable header pkt →
  table_on (result_list s) l h → Z.of_nat (length h) < int_max →
  records (got_packet getservbyport stack job header pkt) s h (verdict job header pkt).
Proof.
  intros Hstack Hjob Hread HL Hmax. unfold readable in Hread.
  destruct (ipadd_ok stack (j_ip job) Hstack ltac:(apply Hjob) ltac:(apply Hjob))
    as (ipadd & Etext & Ew & Hlen & H0 & Ht).
  unfold got_packet, verdict, records. set (iph := if header then SIZE_ETHERNET else 0%nat) in *. cbn zeta.
  rewrite M_bind_rd by lia. pose proof (Z.mod_pos_bound (byte_at pkt iph) 16 ltac:(lia)) as Hm.
  set (hl := byte_at pkt iph mod 16 * 4) in *. unfold MIN_IP_HEADER_LEN.
  assert (Z.to_nat hl <= 60)%nat as Hhl by (unfold hl; lia).
  destruct (hl <? 20); [by eapply records_none|].
  rewrite (M_bind_lift _ _ _ _ (mem_read_ok (drop (iph + 12) pkt) 4 ltac:(rewrite length_drop; lia))).
  rewrite (M_bind_lift _ _ _ _ Etext), (M_bind_lift _ _ _ _ Ew), M_bind_rd by lia.
  set (body := (iph + Z.to_nat hl)%nat) in *.
  destruct (byte_at pkt (iph + 9) =? 1); [|destruct (byte_at pkt (iph + 9) =? 6); [|destruct (byte_at pkt (iph + 9) =? 17)]].
  - rewrite M_bind_rd by lia. destruct (byte_at pkt body =? 3); cbn [negb]; [|by eapply records_none].
    rewrite M_bind_rd by lia. set (code := byte_at pkt (body + 1)).
    assert (bool_decide (code ∈ [1; 2; 9; 10; 13]) =
      (code =? 1) || (code =? 2) || (code =? 9) || (code =? 10) || (code =? 13)) as ->.
    { apply Bool.eq_iff_eq_true. rewrite bool_decide_eq_true, !orb_true_iff, !Z.eqb_eq, !elem_of_cons, elem_of_nil. tauto. }
    destruct ((code =? 1) || (code =? 2) || (code =? 9) || (code =? 10) || (code =? 13));
      [by eapply report_event|destruct (code =? 3); [by eapply report_event|by eapply records_none]].
  - rewrite M_bind_rd by lia. destruct (byte_at pkt (body + 12) / 16 * 4 <? 20); [by eapply records_none|].
    rewrite !M_bind_rd by lia.
    pose proof (tcp_result_ok job ipadd (256 * byte_at pkt body + byte_at pkt (body + 1))
      (Z.testbit (byte_at pkt (body + 13)) 1 && Z.testbit (byte_at pkt (body + 13)) 4)
      (Z.testbit (byte_at pkt (body + 13)) 2) R_OPEN (if j_scan_type job =? ACK_SCAN then R_UNFILTERED else R_CLOSED)
      s l h Hjob Hlen H0 Ht HL Hmax) as (L & l' & E & H).
    exists L, l'. split; [|exact H]. rewrite <- E.
    destruct (prepare_rslt getservbyport ipadd (256 * byte_at pkt body + byte_at pkt (body + 1)) (j_scan_type job) s) as [[p s1]| |] eqn:E1; unfold mbind, M_bind; rewrite E1; try done.
    destruct (assign_scan_type p (j_scan_type job) s1) as [[u s2]| |]; try done.
    unfold lift. by rewrite rd_byte by lia.
  - rewrite !M_bind_rd by lia.
    destruct (256 * byte_at pkt body + byte_at pkt (body + 1) =? j_portno job);
      [by eapply report_event|by eapply records_none].
  - by eapply records_none.
Qed.

(** ** Retries and jobs *)

Lemma timeout_result_ok job s l h :
  job_ok job → table_on (result_list s) l h → Z.of_nat (length h) < int_max →
  records (timeout_result getservbyport job) s h [event job (j_portno job) (silence (j_scan_type job))].
Proof.
  intros Hjob HL Hmax. pose proof Hjob as (Hlen & H0 & Hst).
  assert (timeout_value (j_scan_type job) = Some (silence (j_scan_type job))) as Ev.
  { assert (Forall (λ st, timeout_value st = Some (silence st)) (seqZ 0 6)) as H
      by (apply (bool_decide_unpack _); vm_compute; done).
    rewrite Forall_forall in H. apply H, elem_of_seqZ. lia. }
  pose proof (report_event (j_ip job) job (j_portno job) (silence (j_scan_type job)) s l h
    Hjob Hlen H0 eq_refl HL Hmax) as H.
  unfold timeout_result. rewrite Ev. exact H.
Qed.

Lemma retry_loop_ok stack job rounds : length stack = 16%nat → job_ok job →
  (∀ i pkt, rounds i = RPacket pkt → readable true pkt) → ∀ n fuel i s l h,
  i + Z.of_nat n = 2 → (n ≤ fuel)%nat → table_on (result_list s) l h → Z.of_nat (length h) < int_max →
  records (retry_loop getservbyport fuel stack job rounds i) s h (job_events n job rounds i).
Proof.
  intros Hstack Hjob Hread. induction n as [|n IH]; intros fuel i s l h Hi Hf HL Hmax;
    (destruct fuel as [|fuel]; [try lia|]); cbn [retry_loop job_events];
    (destruct (rounds i) as [| |pkt|] eqn:Er;
      [by eapply records_none| |eapply got_packet_ok; eauto|by eapply records_none]);
    unfold MAX_RETRY_COUNT; unfold records.
  - rewrite (proj2 (Z.eqb_eq _ _)), (proj2 (Z.ltb_ge _ _)) by lia.
    destruct (timeout_result_ok job s l h Hjob HL Hmax) as (L & l' & E & H).
    rewrite (M_seq _ _ _ _ E). by exists L, l'.
  - rewrite (proj2 (Z.eqb_eq _ _)), (proj2 (Z.ltb_ge _ _)) by lia.
    destruct (timeout_result_ok job s l h Hjob HL Hmax) as (L & l' & E & H).
    rewrite (M_seq _ _ _ _ E). by exists L, l'.
  - rewrite (proj2 (Z.eqb_neq _ _)), (proj2 (Z.ltb_lt _ _)) by lia.
    rewrite (M_seq (mret tt) _ s s eq_refl). eapply IH; eauto; lia.
Qed.

Lemma verdict_one job header pkt : (length (verdict job header pkt) ≤ 1)%nat.
Proof. unfold verdict. repeat case_match; cbn; lia. Qed.

Lemma job_events_one n : ∀ job rounds i, (length (job_events n job rounds i) ≤ 1)%nat.
Proof.
  pose proof verdict_one as Hv. induction n as [|n IH]; intros job rounds i; cbn [job_events]; destruct (rounds i); cbn; auto.
Qed.

(** All the events of the jobs from the [k]-th on. *)
Fixpoint scan_events (jobs : list job_t) (rounds : nat → Z → round) (k : nat) : list push_event :=
  match jobs with
  | [] => []
  | j :: js => job_events 2 j (rounds k) 0 ++ scan_events js rounds (S k)
  end.

Lemma ps_default_ok stack rounds : length stack = 16%nat →
  (∀ k i pkt, rounds k i = RPacket pkt → readable true pkt) → ∀ lj fuel k s l h,
  lst_rep (job_masterlist s) lj → Forall job_ok lj.*2 → (length lj ≤ fuel)%nat →
  table_on (result_list s) l h → Z.of_nat (length h) + Z.of_nat (length lj) < int_max →
  ∃ J L l', ps_default getservbyport fuel stack rounds k s =
      Done (tt, set_result_list L (set_job_masterlist J s)) ∧
    (list_top J = None ∧ cells J = cells (job_masterlist s)) ∧
    table_on L l' (h ++ scan_events lj.*2 rounds k).
Proof.
  intros Hstack Hread. induction lj as [|[a job] lj IH]; intros fuel k s l h HJ Hjobs Hf HL Hmax.
  - pose proof (rep_chain _ _ HJ) as Hc. cbn in Hc.
    assert (get_next_job s = Done (None, s)) as E by (unfold get_next_job; by rewrite M_bind_gets, Hc).
    exists (job_masterlist s), (result_list s), l.
    destruct fuel; cbn [ps_default]; rewrite (M_bind_done _ _ _ _ _ E); (split; [by destruct s|]);
      (split; [done|]); cbn; by rewrite app_nil_r.
  - cbn [length] in Hf, Hmax. destruct fuel as [|fuel]; [lia|]. apply Forall_cons in Hjobs as [Hjob Hjobs].
    destruct (get_next_job_ok s a job lj HJ) as (J1 & E1 & HJ1 & Ecells). cbn [ps_default].
    rewrite (M_bind_done _ _ _ _ _ E1), M_bind_gets. cbn [job_masterlist set_job_masterlist]. rewrite Ecells.
    assert (∃ q, cells (job_masterlist s) !! a = Some (Node job q)) as (q & Ha)
      by (destruct (rep_chain _ _ HJ) as (_ & q & Ha & _); by exists q).
    rewrite (M_bind_lift _ _ _ _ (deref_ok _ _ _ Ha)). cbn [n_data].
    destruct (retry_loop_ok stack job (rounds k) Hstack Hjob (Hread k) 2 3 0 (set_job_masterlist J1 s) l h
      eq_refl ltac:(lia) HL ltac:(lia)) as (L1 & l1 & E2 & H2).
    rewrite (M_seq _ _ _ _ E2).
    pose proof (job_events_one 2 job (rounds k) 0) as H1.
    destruct (IH fuel (S k) (set_result_list L1 (set_job_masterlist J1 s)) l1 (h ++ job_events 2 job (rounds k) 0))
      as (J2 & L2 & l2 & E3 & [Htop Hcells] & H3); [done|done|lia|done|rewrite length_app; lia|].
    exists J2, L2, l2. split; [done|]. split; [split; [done|by rewrite Hcells]|]. cbn [fmap list_fmap scan_events snd]. by rewrite app_assoc.
Qed.

End scan.

Lemma table_on_at L l h : table_at L l h → table_on False L l h.
Proof. by split. Qed.

Section scan.
Context (getservbyport : Z → bool → option (list Z)).

(** C12: [ps_default] takes every job, ends after at most three rounds for
    each, and the results then hold exactly what the rounds say: the verdict on
    the packet that came, or after three timeouts the value of a silent port. *)
Theorem ps_default_history stack rounds lj s h :
  length stack = 16%nat → (∀ k i pkt, rounds k i = RPacket pkt → readable true pkt) →
  lst_rep (job_masterlist s) lj → Forall job_ok lj.*2 → results_hold s h →
  Z.of_nat (length h) + Z.of_nat (length lj) < int_max →
  ∃ s', ps_default getservbyport (length lj) stack rounds 0 s = Done (tt, s') ∧
    list_top (job_masterlist s') = None ∧ results_hold s' (h ++ scan_events lj.*2 rounds 0).
Proof.
  intros Hstack Hread HJ Hjobs (l & HL & Ht) Hmax.
  destruct (ps_default_ok getservbyport False stack rounds Hstack Hread lj (length lj) 0 s l h HJ Hjobs ltac:(done)
    ltac:(by apply table_on_at) Hmax) as (J & L & l' & E & [Htop _] & [HL' Ht'] & _).
  eexists. split; [done|]. split; [done|]. by exists l'.
Qed.

(** [got_packet] records the verdict on a packet and nothing else. *)
Theorem got_packet_verdict stack job header pkt s h :
  length stack = 16%nat → job_ok job → readable header pkt → results_hold s h →
  Z.of_nat (length h) < int_max →
  ∃ L, got_packet getservbyport stack job header pkt s = Done (tt, set_result_list L s) ∧
    results_hold (set_result_list L s) (h ++ verdict job header pkt).
Proof.
  intros Hstack Hjob Hread (l & HL & Ht) Hmax.
  destruct (got_packet_ok getservbyport False stack job header pkt s l h Hstack Hjob Hread ltac:(by apply table_on_at) Hmax)
    as (L & l' & E & [HL' Ht'] & _). exists L. split; [done|]. by exists l'.
Qed.
End scan.

(** ** Time *)

Lemma borrow_loop_ok : ∀ fuel sec usec,
  - Z.of_nat fuel * 1000000 <= usec → ∃ k, 0 <= k ∧ borrow_loop fuel sec usec = Done (sec - k, usec + k * 1000000) ∧
    0 <= usec + k * 1000000 ∧ (k = 0 ∨ usec + k * 1000000 < 1000000).
Proof.
  induction fuel as [|fuel IH]; intros sec usec Hf; cbn [borrow_loop]; destruct (Z.ltb_spec usec 0) as [Hn|Hn];
    try lia; try (exists 0; rewrite Z.sub_0_r, Z.add_0_r; split; [lia|split; [done|split; [lia|by left]]]).
  destruct (IH (sec - 1) (usec + 1000000)) as (k & Hk & E & H1 & H2); [lia|].
  exists (k + 1). split; [lia|]. rewrite E. split; [do 2 f_equal; lia|]. split; [lia|right; lia].
Qed.

(** The microseconds are normalised and the difference is kept. *)
Lemma timeval_diff_ok end_time start_time :
  0 <= end_time.2 < 1000000 → 0 <= start_time.2 < 1000000 →
  ∃ sec usec, timeval_diff end_time start_time =
      Done (sec, usec, 1000000 * (end_time.1 - start_time.1) + (end_time.2 - start_time.2)) ∧
    0 <= usec < 1000000.
Proof.
  intros He Hs. unfold timeval_diff.
  destruct (borrow_loop_ok (Z.to_nat (Z.abs (end_time.2 - start_time.2))) (end_time.1 - start_time.1)
    (end_time.2 - start_time.2)) as (k & Hk & E & H1 & H2); [lia|].
  cbn zeta. rewrite E. cbn [mbind outcome_bind]. do 2 eexists. split; [do 2 f_equal; lia|]. lia.
Qed.

(** ** Witnesses and limits *)

Definition sample_job : job_t := Job (ip_cell "10.0.0.1") 80 SYN_SCAN.
Definition sample_stack : list Z := replicate 16 170.
(** Ethernet, an IP header of 20 bytes (protocol 6), a TCP header from port 80
    with the flags SYN and ACK. *)
Definition syn_ack : list Z :=
  replicate 14 0 ++ [69; 0; 0; 40; 0; 0; 0; 0; 64; 6; 0; 0; 10; 0; 0; 1; 10; 0; 0; 9] ++
  [0; 80; 48; 57] ++ replicate 8 0 ++ [80; 18] ++ replicate 46 0.
Definition no_service (port : Z) (udp : bool) : option (list Z) := None.

Lemma got_packet_verdict_witness : ∃ L,
  got_packet no_service sample_stack sample_job true syn_ack ps_zero = Done (tt, set_result_list L ps_zero) ∧
  results_hold (set_result_list L ps_zero) [((80, bytes "10.0.0.1"), (0%nat, R_OPEN))].
Proof.
  destruct (got_packet_verdict no_service sample_stack sample_job true syn_ack ps_zero []) as (L & E & H).
  - reflexivity.
  - split; [reflexivity|split; [apply (bool_decide_unpack _); vm_compute; reflexivity|vm_compute; split; [discriminate|reflexivity]]].
  - unfold readable. vm_compute. lia.
  - by apply no_results.
  - vm_compute. reflexivity.
  - exists L. split; [exact E|exact H].
Defined.

Definition sample_rounds (k : nat) (i : Z) : round := if i =? 1 then RPacket syn_ack else RTimeout.

Lemma ps_default_history_witness : ∃ s',
  ps_default no_service 2 sample_stack sample_rounds 0 (set_job_masterlist taken_jobs ps_zero) = Done (tt, s') ∧
  results_hold s' [((80, bytes "10.0.0.1"), (0%nat, R_OPEN)); ((80, bytes "10.0.0.1"), (0%nat, R_OPEN))].
Proof.
  destruct (ps_default_history no_service sample_stack sample_rounds
    [(1%positive, Job (ip_cell "10.0.0.1") 80 0); (2%positive, Job (ip_cell "10.0.0.1") 22 0)]
    (set_job_masterlist taken_jobs ps_zero) []) as (s' & E & _ & H).
  - reflexivity.
  - intros k i pkt. unfold sample_rounds. destruct (i =? 1); [|discriminate]. intros [= <-].
    unfold readable. vm_compute. lia.
  - split; [solve_chain|apply (bool_decide_unpack _); vm_compute; done|done].
  - repeat apply Forall_cons_2; [..|apply Forall_nil_2];
      (split; [reflexivity|split; [apply (bool_decide_unpack _); vm_compute; reflexivity|cbn; lia]]).
  - by apply no_results.
  - vm_compute. reflexivity.
  - exists s'. split; [exact E|exact H].
Defined.

(** A packet that ends behind its IP header is read past its end: its length
    is never looked at. *)
Lemma short_packet_overread :
  got_packet no_service sample_stack sample_job true (take 34 syn_ack) ps_zero = Fault OutOfBounds.
Proof. vm_compute. reflexivity. Qed.

(** The source address of a packet is not looked at either: an ICMP message
    or an answer of any host is recorded for the host of the job. *)
Lemma source_address_ignored :
  let other := splice syn_ack 26 [192; 168; 7; 7] in
  got_packet no_service sample_stack sample_job true other ps_zero =
  got_packet no_service sample_stack sample_job true syn_ack ps_zero.
Proof. vm_compute. reflexivity. Qed.
