(* ===== verification/KeyValue.v ===== *)
(** * Key-value lists (module_function/key_value_part.c)

    A singly linked list of nodes with two strings; strings are the bytes
    readable from the pointer.  The two functions that the header declares and
    no file defines (create_key_value_head, add_key_value_tail) are missing in
    the repository. *)

From S2P Require Import Prelude CString PsList FrameTool.
From stdpp Require Import gmap strings.

Open Scope Z_scope.

Record KEY_VALUE_NODE := KV { key_ : option (list Z); value_ : option (list Z) }.

Notation kv_heap := (gmap positive (node KEY_VALUE_NODE)).

Definition set_next (p : ptr) (q : ptr) (h : kv_heap) : outcome kv_heap :=
  match p with
  | None => Fault NullDeref
  | Some a => n ← deref h p; mret (<[a := Node (n_data n) q]> h)
  end.

(** [while (tail->next_) tail = tail->next_;] *)
Fixpoint last_node (fuel : nat) (h : kv_heap) (tail : ptr) : outcome ptr :=
  n ← deref h tail;
  match n_next n with
  | None => Done tail
  | Some _ => match fuel with O => NoFuel | S f => last_node f h (n_next n) end
  end.
(** The new [*head] and the heap. *)
Definition add_keyvalue_after_head (head : ptr) (node : ptr) (h : kv_heap) : outcome (ptr * kv_heap) :=
  match head with
  | None => Done (node, h)
  | Some _ => tail ← last_node (size h) h head; h' ← set_next tail node h; mret (head, h')
  end.

Fixpoint find_value_loop (fuel : nat) (h : kv_heap) (find : ptr) (key : list Z) (str_len : Z)
  : outcome (option (list Z)) :=
  match find with
  | None => Done None
  | Some _ =>
      match fuel with
      | O => NoFuel
      | S f =>
          n ← deref h find;
          len ← frame_strlen (key_ (n_data n));
          ret ← (if len =? str_len
                 then match key_ (n_data n) with None => Fault NullDeref | Some k => memcmp k key str_len end
                 else Done 1);
          if ret =? 0 then mret (value_ (n_data n)) else find_value_loop f h (n_next n) key str_len
      end
  end.
Definition find_value_after_head (head : ptr) (key : list Z) (h : kv_heap) : outcome (option (list Z)) :=
  match head with
  | None => Done None
  | Some _ => str_len ← frame_strlen (Some key); find_value_loop (size h) h head key str_len
  end.

(** ** The list as pairs of a string and a value *)

Definition kv_pair (n : KEY_VALUE_NODE) (p : list Z * option (list Z)) : Prop :=
  ∃ k, key_ n = Some k ∧ c_str k = Done p.1 ∧ value_ n = p.2.
Definition kv_list (h : kv_heap) (head : ptr) (ps : list (list Z * option (list Z))) : Prop :=
  ∃ l, chain h head l ∧ NoDup l.*1 ∧ Forall2 kv_pair l.*2 ps.

(** The value of the first pair with the key. *)
Fixpoint assoc (k : list Z) (ps : list (list Z * option (list Z))) : option (list Z) :=
  match ps with
  | [] => None
  | p :: ps' => if decide (p.1 = k) then p.2 else assoc k ps'
  end.

Lemma last_node_ok : ∀ l fuel (h : kv_heap) p a x,
  chain h p (l ++ [(a, x)]) → (length l ≤ fuel)%nat → last_node fuel h p = Done (Some a).
Proof.
  induction l as [|[b y] l IH]; intros fuel h p a x; cbn [app chain length].
  - intros (-> & q & Ha & ->) _. destruct fuel; cbn [last_node]; by rewrite (deref_ok _ _ _ Ha).
  - intros (-> & q & Hb & Hl) Hf. destruct fuel as [|fuel]; [lia|]. cbn [last_node].
    rewrite (deref_ok _ _ _ Hb). cbn [mbind outcome_bind n_next].
    assert (is_Some q) as [c ->] by (destruct l as [|[c z] l]; destruct Hl as (-> & _); eauto).
    apply (IH fuel h (Some c) a x Hl). lia.
Qed.

Lemma kv_list_add h head ps b n p :
  kv_list h head ps → h !! b = Some (Node n None) → kv_pair n p →
  (∀ l, chain h head l → b ∉ l.*1) →
  ∃ head' h', add_keyvalue_after_head head (Some b) h = Done (head', h') ∧ kv_list h' head' (ps ++ [p]).
Proof.
  intros (l & Hc & Hnd & Hps) Hb Hn Hfree. specialize (Hfree l Hc). unfold add_keyvalue_after_head.
  destruct l as [|[a x] l _] using rev_ind.
  - cbn in Hc, Hps. subst head. apply Forall2_nil_inv_l in Hps as ->. exists (Some b), h. split; [done|].
    exists [(b, n)]. cbn. split; [split; [done|]; by exists None|]. split; [apply NoDup_singleton|]. by constructor.
  - assert (is_Some head) as [c ->] by (destruct l as [|[c z] l]; destruct Hc as (-> & _); eauto).
    pose proof (chain_size _ _ _ Hc Hnd) as Hs. rewrite length_app in Hs. cbn [length] in Hs.
    assert (length l ≤ size h)%nat as Hf by (etransitivity; [|exact Hs]; lia).
    rewrite (last_node_ok l (size h) h (Some c) a x Hc Hf). cbn [mbind outcome_bind].
    destruct (chain_snoc l h (Some c) a x (Some b) b n Hc Hnd Hfree Hb eq_refl) as (Ha & Hch).
    unfold set_next. rewrite (deref_ok _ _ _ Ha). cbn [mbind outcome_bind mret outcome_ret n_data].
    do 2 eexists. split; [done|]. exists ((l ++ [(a, x)]) ++ [(b, n)]). rewrite <- app_assoc. cbn [app]. split; [done|].
    change [(a, x); (b, n)] with ([(a, x)] ++ [(b, n)]). rewrite app_assoc, !fmap_app. split.
    + rewrite <- fmap_app. apply NoDup_app. split; [done|]. split; [|apply NoDup_singleton].
      intros d Hd ->%list_elem_of_singleton. done.
    + rewrite <- fmap_app. apply Forall2_app; [done|]. by constructor.
Qed.

Lemma find_value_loop_ok key k : c_str key = Done k → ∀ l fuel h p ps,
  chain h p l → Forall2 kv_pair l.*2 ps → (length l ≤ fuel)%nat →
  find_value_loop fuel h p key (Z.of_nat (length k)) = Done (assoc k ps).
Proof.
  intros Hk. induction l as [|[a x] l IH]; intros fuel h p ps; cbn [chain fmap list_fmap length].
  - intros -> ->%Forall2_nil_inv_l _. by destruct fuel.
  - intros (-> & q & Ha & Hl) (p1 & ps1 & (kb & Ekey & Ekb & Eval) & Hps & ->)%Forall2_cons_inv_l Hf.
    destruct fuel as [|fuel]; [lia|]. cbn [find_value_loop snd] in *. rewrite (deref_ok _ _ _ Ha).
    cbn [mbind outcome_bind n_data n_next]. rewrite Ekey. unfold frame_strlen.
    rewrite (str_scan_len_spec _ _ Ekb). cbn [mbind outcome_bind mret outcome_ret assoc].
    specialize (IH fuel h q ps1 Hl Hps ltac:(lia)).
    destruct (Z.eqb_spec (Z.of_nat (length p1.1)) (Z.of_nat (length k))) as [E|E].
    + destruct (memcmp_strings kb p1.1 key k Ekb Hk ltac:(lia)) as (r & -> & Hr). cbn [mbind outcome_bind].
      destruct (Z.eqb_spec r 0) as [Er|Er].
      * rewrite decide_True by tauto. by rewrite Eval.
      * rewrite decide_False by tauto. exact IH.
    + cbn. rewrite decide_False by congruence. exact IH.
Qed.

Lemma find_value_ok h head ps key k :
  kv_list h head ps → c_str key = Done k → find_value_after_head head key h = Done (assoc k ps).
Proof.
  intros (l & Hc & Hnd & Hps) Hk. pose proof (chain_size _ _ _ Hc Hnd) as Hs. unfold find_value_after_head.
  destruct l as [|[a x] l].
  - cbn in Hc. subst head. apply Forall2_nil_inv_l in Hps as ->. done.
  - assert (head = Some a) as -> by apply Hc. unfold frame_strlen. rewrite (str_scan_len_spec _ _ Hk).
    cbn [mbind outcome_bind mret outcome_ret]. by apply (find_value_loop_ok key k Hk ((a, x) :: l)).
Qed.

Lemma assoc_snoc k ps p : assoc k (ps ++ [p]) = if decide (k ∈ ps.*1) then assoc k ps else if decide (p.1 = k) then p.2 else None.
Proof.
  induction ps as [|p1 ps IH]; cbn [app assoc fmap list_fmap].
  - by rewrite (decide_False (P := k ∈ [])) by apply not_elem_of_nil.
  - destruct (decide (p1.1 = k)) as [E|E];
      [rewrite (decide_True (P := k ∈ p1.1 :: ps.*1)); [done|rewrite E; left]|]. rewrite IH.
    destruct (decide (k ∈ ps.*1)) as [H|H]; [by rewrite (decide_True (P := k ∈ p1.1 :: ps.*1)) by (by right)|].
    rewrite (decide_False (P := k ∈ p1.1 :: ps.*1)); [done|]. by intros [?|?]%elem_of_cons.
Qed.

(** After a node was added behind a list its value is found under its key,
    unless an earlier node has that key, and every other key finds what it
    found before. *)
Theorem find_after_add h head ps b n k v key k' :
  kv_list h head ps → h !! b = Some (Node n None) → kv_pair n (k, v) →
  (∀ l, chain h head l → b ∉ l.*1) → c_str key = Done k' →
  ∃ head' h', add_keyvalue_after_head head (Some b) h = Done (head', h') ∧
    find_value_after_head head' key h' =
      Done (if decide (k' ∈ ps.*1) then assoc k' ps else if decide (k = k') then v else None).
Proof.
  intros Hps Hb Hn Hfree Hk. destruct (kv_list_add h head ps b n (k, v) Hps Hb Hn Hfree) as (head' & h' & E & H').
  exists head', h'. split; [done|]. rewrite (find_value_ok _ _ _ _ _ H' Hk). by rewrite assoc_snoc.
Qed.

Definition kv_sample : kv_heap :=
  {[ 1%positive := Node (KV (Some (c_lit "a")) (Some (c_lit "1"))) None;
     2%positive := Node (KV (Some (c_lit "b")) (Some (c_lit "2"))) None ]}.

Lemma find_after_add_witness : ∃ head h,
  add_keyvalue_after_head (Some 1%positive) (Some 2%positive) kv_sample = Done (head, h) ∧
  find_value_after_head head (c_lit "b") h = Done (Some (c_lit "2")).
Proof.
  destruct (find_after_add kv_sample (Some 1%positive) [(bytes "a", Some (c_lit "1"))] 2%positive
    (KV (Some (c_lit "b")) (Some (c_lit "2"))) (bytes "b") (Some (c_lit "2")) (c_lit "b") (bytes "b"))
    as (head & h & E & F).
  - exists [(1%positive, KV (Some (c_lit "a")) (Some (c_lit "1")))]. split; [solve_chain|].
    split; [apply NoDup_singleton|]. constructor; [|constructor]. by exists (c_lit "a").
  - reflexivity.
  - by exists (c_lit "b").
  - intros [|[a x] [|[b y] l]] Hc; cbn in Hc.
    + discriminate.
    + destruct Hc as ([= <-] & _). cbn. rewrite list_elem_of_singleton. discriminate.
    + destruct Hc as ([= <-] & q & H1 & Hq & _). vm_compute in H1. injection H1 as <- <-. discriminate.
  - reflexivity.
  - exists head, h. split; [exact E|exact F].
Defined.
