(* ===== verification/Lottery.v ===== *)
(** * Drawing numbers (module_function/lottery.c)

    Arrays of [int] as lists; a write outside an array is a fault.  [rand()]
    after [srand(time(NULL))] is an argument, one value per call. *)

From S2P Require Import Prelude CString.
From stdpp Require Import list sorting.

Open Scope Z_scope.

Definition RED_BALL_QUAN : nat := 6.
Definition RED_MAX_BALL_NUN : nat := 33.
Definition BLUE_MAX_BALL_NUM : nat := 16.
Definition WIN_BALL_NUM : nat := 7.

Definition array_set (a : list Z) (i : nat) (v : Z) : outcome (list Z) :=
  if (i <? length a)%nat then Done (<[i := v]> a) else Fault OutOfBounds.

(** ** The balls (lines 16-42) *)

(** [for (i = i; i <= max; i++) a[i] = i;], [n] rounds *)
Fixpoint number_loop (n : nat) (i : nat) (a : list Z) : outcome (list Z) :=
  match n with O => Done a | S n' => a' ← array_set a i (Z.of_nat i); number_loop n' (S i) a' end.
Definition reset_red_ball (red_ball_num : list Z) : outcome (list Z) :=
  number_loop RED_MAX_BALL_NUN 1 red_ball_num.
Definition reset_blue_ball (blue_ball_num : list Z) : outcome (list Z) :=
  number_loop BLUE_MAX_BALL_NUM 1 blue_ball_num.
Definition random_number (rand : Z) (mod_ : Z) : Z := Z.rem rand mod_.

(** ** Sorting (lines 44-61) *)

Fixpoint inner_loop (n : nat) (j : nat) (a : list Z) : outcome (list Z) :=
  match n with
  | O => Done a
  | S n' =>
      x ← rd a j; y ← rd a (S j);
      inner_loop n' (S j) (if y <? x then <[S j := x]> (<[j := y]> a) else a)
  end.
Fixpoint outer_loop (n : nat) (i : nat) (num : nat) (a : list Z) : outcome (list Z) :=
  match n with
  | O => Done a
  | S n' => a' ← inner_loop (num - i - 1) 0 a; outer_loop n' (S i) num a'
  end.
Definition bubble_sort (array : list Z) (num : nat) : outcome (list Z) := outer_loop num 0 num array.

(** ** One note (lines 63-94) *)

Record balls := Balls { red : list Z; blue : list Z; win : list Z }.
Definition balls_zero : balls := Balls (replicate 33 0) (replicate 16 0) (replicate 7 0).

(** The round [i] of the draw without replacement. *)
Fixpoint red_loop (n : nat) (i : nat) (rand : nat → Z) (b : balls) : outcome balls :=
  match n with
  | O => Done b
  | S n' =>
      let sub := Z.to_nat (random_number (rand i) (33 - Z.of_nat i)) in
      x ← rd (red b) sub; w ← array_set (win b) i x;
      tmp ← rd (red b) (33 - i - 1);
      r ← array_set (red b) (33 - i - 1) x; r ← array_set r sub tmp;
      red_loop n' (S i) rand (Balls r (blue b) w)
  end.
Definition one_note (rand : nat → Z) (b : balls) : outcome balls :=
  r ← reset_red_ball (red b);
  bl ← reset_blue_ball (blue b);
  b ← red_loop RED_BALL_QUAN 0 rand (Balls r bl (win b));
  x ← rd (blue b) (Z.to_nat (random_number (rand 6%nat) 16));
  w ← array_set (win b) RED_BALL_QUAN x;
  w ← bubble_sort w RED_BALL_QUAN;
  mret (Balls (red b) (blue b) w).
Fixpoint lottery_num (note : nat) (rand : nat → nat → Z) (b : balls) : outcome balls :=
  match note with O => Done b | S n => b' ← one_note (rand note) b; lottery_num n rand b' end.

(** ** [bubble_sort] sorts *)

(** One pass over [x :: ys]: the greatest is carried to the end. *)
Fixpoint carry (x : Z) (ys : list Z) : list Z * Z :=
  match ys with
  | [] => ([], x)
  | y :: ys' => if y <? x then let '(l, m) := carry x ys' in (y :: l, m)
                else let '(l, m) := carry y ys' in (x :: l, m)
  end.

Lemma carry_spec ys : ∀ x l m, carry x ys = (l, m) →
  l ++ [m] ≡ₚ x :: ys ∧ length l = length ys ∧ Forall (λ z, z <= m) (x :: ys).
Proof.
  induction ys as [|y ys IH]; intros x l m; cbn [carry].
  - intros [= <- <-]. split; [done|]. split; [done|]. apply Forall_singleton. lia.
  - destruct (Z.ltb_spec y x); [destruct (carry x ys) as [l1 m1] eqn:E|destruct (carry y ys) as [l1 m1] eqn:E];
      intros [= <- <-]; destruct (IH _ _ _ E) as (Hp & Hl & Hm);
      (split; [cbn; rewrite Hp; auto using Permutation_swap|split; [cbn; by rewrite Hl|]]);
      inversion Hm as [|? ? H1 H2]; subst; repeat apply Forall_cons_2; (done || lia).
Qed.

Lemma inner_loop_ok ys : ∀ pre x post l m, carry x ys = (l, m) →
  inner_loop (length ys) (length pre) (pre ++ x :: ys ++ post) = Done (pre ++ l ++ m :: post).
Proof.
  induction ys as [|y ys IH]; intros pre x post l m; cbn [carry length inner_loop app].
  { intros [= <- <-]. done. }
  assert ((pre ++ x :: y :: ys ++ post) !! length pre = Some x) as Hx by (by rewrite list_lookup_middle).
  assert ((pre ++ x :: y :: ys ++ post) !! S (length pre) = Some y) as Hy.
  { rewrite lookup_app_r by lia. by rewrite Nat.sub_succ_l, Nat.sub_diag by lia. }
  rewrite (rd_ok _ _ _ Hx). cbn [mbind outcome_bind]. rewrite (rd_ok _ _ _ Hy). cbn [mbind outcome_bind].
  assert (∀ z, S (length pre) = length (pre ++ [z])) as Hlen by (intros; rewrite length_app; cbn; lia).
  destruct (Z.ltb_spec y x).
  - destruct (carry x ys) as [l1 m1] eqn:E. intros [= <- <-].
    assert (<[S (length pre) := x]> (<[length pre := y]> (pre ++ x :: y :: ys ++ post)) =
            (pre ++ [y]) ++ x :: ys ++ post) as ->.
    { rewrite <- app_assoc, insert_app_r_alt by lia. rewrite Nat.sub_diag.
      rewrite insert_app_r_alt by lia. by rewrite Nat.sub_succ_l, Nat.sub_diag by lia. }
    rewrite (Hlen y), (IH _ x post l1 m1 E), <- !app_assoc. done.
  - destruct (carry y ys) as [l1 m1] eqn:E. intros [= <- <-].
    replace (pre ++ x :: y :: ys ++ post) with ((pre ++ [x]) ++ y :: ys ++ post) by (by rewrite <- app_assoc).
    rewrite (Hlen x), (IH _ y post l1 m1 E), <- !app_assoc. done.
Qed.

Lemma outer_loop_ok : ∀ n i num a tail rest,
  num = (i + n)%nat → length a = n → length tail = i →
  StronglySorted Z.le tail → (∀ x y, x ∈ a → y ∈ tail → x <= y) →
  ∃ s, outer_loop n i num (a ++ tail ++ rest) = Done (s ++ rest) ∧ StronglySorted Z.le s ∧ s ≡ₚ a ++ tail.
Proof.
  induction n as [|n IH]; intros i num a tail rest -> Ha Ht Hs Hle; cbn [outer_loop].
  { destruct a; [|done]. by exists tail. }
  destruct a as [|x ys]; [done|]. cbn in Ha. destruct (carry x ys) as [l m] eqn:E.
  destruct (carry_spec ys x l m E) as (Hp & Hl & Hm).
  replace (i + S n - i - 1)%nat with (length ys) by lia.
  pose proof (inner_loop_ok ys [] x (tail ++ rest) l m E) as Ei. cbn [app length] in Ei. cbn [app].
  rewrite Ei. cbn [mbind outcome_bind].
  assert (∀ z, z ∈ l ∨ z = m ↔ z ∈ x :: ys) as Hin.
  { intros z. rewrite <- list_elem_of_singleton, <- elem_of_app. by rewrite Hp. }
  destruct (IH (S i) (i + S n)%nat l (m :: tail) rest) as (s & Es & Hss & Hsp).
  - lia.
  - lia.
  - cbn. by rewrite Ht.
  - constructor; [done|]. apply Forall_forall. intros y Hy. apply Hle; [apply Hin; by right|done].
  - intros z y Hz [->|Hy]%elem_of_cons.
    + rewrite Forall_forall in Hm. apply Hm, Hin. by left.
    + apply Hle; [apply Hin; by left|done].
  - exists s. split; [done|]. split; [done|]. rewrite Hsp.
    change (x :: ys ++ tail) with ((x :: ys) ++ tail). by rewrite <- Hp, <- app_assoc.
Qed.

(** [bubble_sort] sorts the first [num] elements and leaves the others. *)
Theorem bubble_sort_sorts a rest :
  ∃ s, bubble_sort (a ++ rest) (length a) = Done (s ++ rest) ∧ StronglySorted Z.le s ∧ s ≡ₚ a.
Proof.
  destruct (outer_loop_ok (length a) 0 (length a) a [] rest) as (s & E & Hs & Hp);
    [done|done|done|constructor|by intros x y _ Hy%not_elem_of_nil|].
  exists s. split; [done|]. split; [done|]. by rewrite Hp, app_nil_r.
Qed.

(** The numbering starts at 1 and ends behind the array: any call with a note
    to draw writes out of bounds. *)
Lemma lottery_writes_past_array note rand b :
  length (red b) = 33%nat → lottery_num (S note) rand b = Fault OutOfBounds.
Proof.
  intros H. cbn [lottery_num]. unfold one_note, reset_red_ball.
  assert (∀ n i a, length a = 33%nat → (i + n = 34)%nat → (1 ≤ n)%nat → number_loop n i a = Fault OutOfBounds) as Hl.
  { induction n as [|n IH]; intros i a Hlen Hi Hn; [lia|]. cbn [number_loop]. unfold array_set.
    destruct (Nat.ltb_spec i (length a)) as [Hlt|Hge]; [|done]. cbn [mbind outcome_bind].
    apply IH; [by rewrite length_insert|lia|lia]. }
  unfold RED_MAX_BALL_NUN. by rewrite (Hl 33%nat 1%nat (red b) H eq_refl ltac:(lia)).
Qed.
