(* ===== verification/CLib.v ===== *)
(** * More of the C library: copying strings, [strtok], [strstr], sockets

    The functions of [string.h] that store into a buffer, on the bytes of the
    buffers; [strtok] on the bytes themselves, so that a buffer without a NUL
    is read past its end; and [write]/[send] loops, where the [k]-th call asked
    for [n] bytes returns [write k n] (documented: at most [n]). *)

From S2P Require Import Prelude CString FrameTool PsText.
From stdpp Require Import strings.

Open Scope Z_scope.

(** ** Copying *)

Definition strcpy (dst src : list Z) : outcome (list Z) :=
  s ← c_str src; mem_write dst 0 (s ++ [0]).
Definition strcat (dst src : list Z) : outcome (list Z) :=
  d ← str_scan_len dst; s ← c_str src; mem_write dst d (s ++ [0]).

(** ** [strtok] and [strstr] *)

(** The next token and the bytes that the following call starts from. *)
Definition strtok_raw (sep : Z) (b : list Z) : outcome (option (list Z * list Z)) :=
  n ← skip_fwd (λ c, negb (c =? 0) && (c =? sep)) b 0;
  c ← rd b n;
  if c =? 0 then mret None
  else
    let b' := drop n b in
    m ← skip_fwd (λ c, negb (c =? 0) && negb (c =? sep)) b' 0;
    e ← rd b' m;
    mret (Some (take m b', drop (if e =? 0 then m else S m) b')).

(** The offset of the first occurrence. *)
Definition strstr (b needle : list Z) : outcome (option nat) :=
  s ← c_str b; t ← c_str needle; mret (find_sub t s).

(** ** Sending all bytes *)

Section send.
Context (write : nat → Z → Z).

(** [while (n > 0) { r = write(fd, p, n); if (r > 0) ... else return FAILURE; }]:
    whether all went out, what went out, and the number of calls made. *)
Fixpoint send_loop (fuel k : nat) (data sent : list Z) : outcome (bool * list Z * nat) :=
  match data with
  | [] => Done (true, sent, k)
  | _ =>
      let r := write k (Z.of_nat (length data)) in
      if 0 <? r then
        match fuel with
        | O => NoFuel
        | S f => out ← mem_read data r; send_loop f (S k) (drop (Z.to_nat r) data) (sent ++ out)
        end
      else Done (false, sent, S k)
  end.

(** [write] writes no more than it was asked for. *)
Definition write_law : Prop := ∀ k n, write k n <= n.

(** The loop ends within one call per byte; it reports success exactly when
    all bytes went out, and otherwise a prefix of them did. *)
Lemma send_loop_spec (H : write_law) : ∀ fuel k data sent,
  (length data ≤ fuel)%nat →
  ∃ ok out k', send_loop fuel k data sent = Done (ok, sent ++ out, k') ∧
    out `prefix_of` data ∧ (ok = true ↔ out = data) ∧ (k' ≤ k + length data)%nat.
Proof.
  induction fuel as [|fuel IH]; intros k data sent Hlen.
  - destruct data as [|c data]; [|cbn in Hlen; lia].
    exists true, [], k. rewrite app_nil_r. split; [done|]. split; [done|]. split; [done|lia].
  - destruct data as [|c data]; [exists true, [], k; rewrite app_nil_r; split; [done|]; split; [done|]; split; [done|lia]|].
    cbn [send_loop]. set (n := Z.of_nat (length (c :: data))).
    destruct (Z.ltb_spec 0 (write k n)) as [Hr|Hr].
    + pose proof (H k n) as Hle. set (r := write k n) in *.
      rewrite (mem_read_ok _ r) by (unfold n in Hle; lia). cbn [mbind outcome_bind].
      destruct (IH (S k) (drop (Z.to_nat r) (c :: data)) (sent ++ take (Z.to_nat r) (c :: data)))
        as (ok & out & k' & E & [rest Hp] & Hok & Hk); [rewrite length_drop; cbn [length] in *; lia|].
      exists ok, (take (Z.to_nat r) (c :: data) ++ out), k'. rewrite E, <- app_assoc. split; [done|].
      split; [|split].
      * exists rest. by rewrite <- app_assoc, <- Hp, take_drop.
      * rewrite Hok. split; [intros ->; by rewrite take_drop|].
        intros Heq. rewrite <- (take_drop (Z.to_nat r) (c :: data)) in Heq at 2. by apply app_inv_head in Heq.
      * rewrite length_drop in Hk. unfold n in Hle. lia.
    + exists false, [], (S k). rewrite app_nil_r. split; [done|]. split; [apply prefix_nil|].
      split; [done|]. cbn. lia.
Qed.
End send.

(** ** Lemmas *)

Lemma clib_strcpy_ok dst src s :
  c_str src = Done s → (length s < length dst)%nat → strcpy dst src = Done (splice dst 0 (s ++ [0])).
Proof.
  intros H Hl. unfold strcpy. rewrite H. cbn [mbind outcome_bind].
  apply mem_write_ok. rewrite length_app. cbn. lia.
Qed.

(** The string is what is read back, and the buffer keeps its size. *)
Lemma strcpy_reads dst src s :
  c_str src = Done s → (length s < length dst)%nat →
  ∃ b, strcpy dst src = Done b ∧ c_str b = Done s ∧ length b = length dst.
Proof.
  intros H Hl. eexists. split; [by apply clib_strcpy_ok|]. split.
  - rewrite <- (drop_0 (splice _ _ _)). apply c_str_splice; [by eapply c_str_nonzero|lia].
  - apply length_splice. rewrite length_app. cbn. lia.
Qed.

Lemma strcpy_overflow dst src s :
  c_str src = Done s → (length dst ≤ length s)%nat → strcpy dst src = Fault OutOfBounds.
Proof.
  intros H Hl. unfold strcpy, mem_write. rewrite H. cbn [mbind outcome_bind].
  rewrite length_app. cbn [length]. bool_lia. done.
Qed.

Lemma strcat_reads dst src d s :
  c_str dst = Done d → c_str src = Done s → (length d + length s < length dst)%nat →
  ∃ b, strcat dst src = Done b ∧ c_str b = Done (d ++ s) ∧ length b = length dst.
Proof.
  intros Hd Hs Hl. unfold strcat. rewrite (str_scan_len_spec _ _ Hd), Hs. cbn [mbind outcome_bind].
  rewrite mem_write_ok by (rewrite length_app; cbn; lia). eexists. split; [done|]. split.
  - pose proof (c_str_inv _ _ Hd) as (r & -> & Hnz). unfold splice.
    rewrite take_app_le, take_ge by lia. rewrite !app_assoc. cbn. rewrite <- app_assoc. cbn.
    apply c_str_app, Forall_app. split; [done|]. by eapply c_str_nonzero.
  - apply length_splice. rewrite length_app. cbn. lia.
Qed.

(** On a terminated text [strtok_raw] is [strtok]. *)
Lemma drop_seps_span sep s :
  drop_seps sep s = drop (span_len (λ c, negb (c =? 0) && (c =? sep)) s) s ∨ ¬ nonzero s.
Proof.
  induction s as [|c s IH]; [by left|]. destruct (decide (c = 0)) as [->|Hc].
  { right. by intros [? _]%Forall_cons. }
  cbn. rewrite (proj2 (Z.eqb_neq c 0) Hc). destruct (c =? sep); cbn [negb andb]; [|by left].
  destruct IH as [IH|IH]; [by left|]. right. by intros [_ ?]%Forall_cons.
Qed.

Lemma span_len_ext f g s : (∀ c, c ∈ s → f c = g c) → span_len f s = span_len g s.
Proof.
  induction s as [|c s IH]; intros H; [done|]. cbn. rewrite H by left.
  destruct (g c); [|done]. f_equal. apply IH. intros d Hd. apply H. by right.
Qed.

Lemma strtok_raw_text sep b s :
  c_str b = Done s → sep ≠ 0 →
  match strtok sep s with
  | None => strtok_raw sep b = Done None
  | Some (t, r) => ∃ b', strtok_raw sep b = Done (Some (t, b')) ∧ c_str b' = Done r
  end.
Proof.
  intros H Hsep. pose proof (c_str_nonzero _ _ H) as Hnz.
  unfold strtok_raw. rewrite (skip_fwd_spec _ _ _ 0 H) by done. cbn [mbind outcome_bind Nat.add].
  set (n := span_len _ s). pose proof (span_len_le (λ c, negb (c =? 0) && (c =? sep)) s) as Hn. fold n in Hn.
  destruct (drop_seps_span sep s) as [Es|]; [|done]. fold n in Es.
  pose proof (c_str_drop _ _ n H Hn) as H'. unfold strtok. rewrite Es.
  destruct (drop n s) as [|c s'] eqn:Ed.
  - assert (n = length s) as -> by (apply (f_equal length) in Ed; rewrite length_drop in Ed; cbn in Ed; lia).
    rewrite (rd_ok _ _ _ (c_str_nul _ _ H)). done.
  - assert (b !! n = Some c) as Hbn.
    { rewrite <- (Nat.add_0_r n), <- lookup_drop. rewrite (c_str_lookup _ _ 0 H'); cbn; [done|lia]. }
    pose proof (c_str_nonzero _ _ H') as Hnz'. unfold nonzero in Hnz'. rewrite Forall_forall in Hnz'.
    assert (c ≠ 0) as Hc by (apply Hnz'; left).
    rewrite (rd_ok _ _ _ Hbn). cbn [mbind outcome_bind]. rewrite (proj2 (Z.eqb_neq c 0) Hc).
    rewrite (skip_fwd_spec _ _ _ 0 H') by done. cbn [mbind outcome_bind Nat.add].
    assert (span_len (λ c0, negb (c0 =? 0) && negb (c0 =? sep)) (c :: s') =
            span_len (λ c0, negb (c0 =? sep)) (c :: s')) as Em.
    { apply span_len_ext. intros d Hd. rewrite (proj2 (Z.eqb_neq d 0)); [done|]. by apply Hnz'. }
    rewrite Em. set (m := span_len _ (c :: s')).
    pose proof (span_len_le (λ c0, negb (c0 =? sep)) (c :: s')) as Hm. fold m in Hm.
    assert (take m (drop n b) = take m (c :: s')) as Et.
    { pose proof (c_str_inv _ _ H') as (r & Er & _). rewrite Er. by rewrite take_app_le. }
    destruct (decide (m = length (c :: s'))) as [Eml|Nml].
    + rewrite (rd_ok _ m 0) by (rewrite Eml; by apply c_str_nul). cbn [mbind outcome_bind mret outcome_ret Z.eqb].
      exists (drop m (drop n b)). rewrite Et. split; [done|].
      rewrite (c_str_drop _ _ m H') by lia. rewrite !drop_ge by lia. done.
    + destruct (lookup_lt_is_Some_2 (c :: s') m ltac:(lia)) as [e He].
      rewrite (rd_ok _ m e) by (rewrite (c_str_lookup _ _ m H') by lia; done). cbn [mbind outcome_bind mret outcome_ret].
      assert (e ≠ 0) as Hne by (apply Hnz'; by eapply list_elem_of_lookup_2).
      rewrite (proj2 (Z.eqb_neq e 0) Hne). exists (drop (S m) (drop n b)). rewrite Et. split; [done|].
      apply (c_str_drop _ _ (S m) H'). lia.
Qed.
