(* ===== verification/PsVersion.v ===== *)
(** * Versions of services (portscan/ps_version.c)

    The list of versions found so far, one node per address with six strings,
    and [version_detection], which asks a service and picks its version out of
    the answer.  The connection is an argument ([peer]: what [socket],
    [gethostbyname], [connect], [recv] and [write] return); so is the content
    of memory that was not written yet ([stack], [junk]).  Live sockets and
    receive buffers are counted. *)

From S2P Require Import Prelude CString PsText PsList PsSetup PsReport CLib.
From stdpp Require Import gmap strings.

Open Scope Z_scope.

(** ** Data (ps_version.h) *)

Definition SUCCESS : Z := 0.
Definition BUF_LEN : nat := 1024.
Definition VERSION_LEN : nat := 50.
Definition SSH : nat := 0.
Definition SMTP : nat := 1.
Definition WHOIS : nat := 2.
Definition HTTP : nat := 3.
Definition POP : nat := 4.
Definition IMAP : nat := 5.

Record servver_result_t := Servver { sv_ip : list Z; sv_version : list (list Z) }.
Notation ver_heap := (gmap positive (node servver_result_t)).

(** [servver_result_masterlist_top] with its nodes. *)
Record ver_state := Ver { ver_cells : ver_heap; ver_top : ptr; ver_bufs : Z; ver_socks : Z }.
Definition ver_zero : ver_state := Ver ∅ None 0 0.
Definition set_ver h t s := Ver h t (ver_bufs s) (ver_socks s).
Definition set_bufs n s := Ver (ver_cells s) (ver_top s) n (ver_socks s).
Definition set_socks n s := Ver (ver_cells s) (ver_top s) (ver_bufs s) n.

Definition serv_ports : list Z := [22; 24; 43; 80; 110; 143].

(** [for (i = 0; i < 6; i++) if (portno == serv_ports[i]) break;] *)
Definition port_index (portno : Z) : nat :=
  span_len (λ p, negb (p =? portno)) serv_ports.

(** [result->version[i]]; there are six. *)
Definition version_at (r : servver_result_t) (i : nat) : outcome (list Z) :=
  match sv_version r !! i with Some v => Done v | None => Fault OutOfBounds end.

(** ** Is a version still to be found (lines 8-31) *)

Fixpoint needed_loop (fuel : nat) (h : ver_heap) (p : ptr) (ip : list Z) (i : nat) : outcome bool :=
  match p with
  | None => Done true
  | Some _ =>
      match fuel with
      | O => NoFuel
      | S f =>
          n ← deref h p;
          same ← ip_eq ip (sv_ip (n_data n));
          known ← (if (same : bool) then v ← version_at (n_data n) i; len ← str_scan_len v; mret (negb (len =? 0)%nat)
                   else Done false : outcome bool);
          if (known : bool) then mret false else needed_loop f h (n_next n) ip i
      end
  end.
Definition isversion_needed (portno : Z) (ip : list Z) : M ver_state bool := λ s,
  lift (needed_loop (S (size (ver_cells s))) (ver_cells s) (ver_top s) ip (port_index portno)) s.

(** ** The list (lines 394-447, 484-498) *)

(** A node in no list; its strings are what the memory held. *)
Definition prepare_servversion_rslt (junk : list (list Z)) (ip : list Z) : M ver_state ptr :=
  b ← lift (mem_read ip INET_ADDRSTRLEN);
  h ← gets ver_cells;
  let a := new_addr h in
  t ← gets ver_top;
  modify (set_ver (<[a := Node (Servver b junk) None]> h) t);;
  mret (Some a).

Fixpoint find_servver (fuel : nat) (h : ver_heap) (result_top : ptr) (ip : list Z) : outcome ptr :=
  match result_top with
  | None => Done None
  | Some _ =>
      match fuel with
      | O => NoFuel
      | S f =>
          n ← deref h result_top;
          same ← ip_eq (sv_ip (n_data n)) ip;
          if (same : bool) then mret result_top else find_servver f h (n_next n) ip
      end
  end.

Definition set_version (r : servver_result_t) (i : nat) (v : list Z) : outcome servver_result_t :=
  match sv_version r !! i with
  | Some _ => Done (Servver (sv_ip r) (<[i := v]> (sv_version r)))
  | None => Fault OutOfBounds
  end.

Definition store_node (p : ptr) (n : node servver_result_t) (h : ver_heap) : outcome ver_heap :=
  match p with None => Fault NullDeref | Some a => Done (<[a := n]> h) end.

Definition push_servver_result (result : ptr) (index : nat) : M ver_state unit :=
  h ← gets ver_cells; top ← gets ver_top;
  r ← lift (deref h result);
  result_top ← lift (find_servver (S (size h)) h top (sv_ip (n_data r)));
  (match result_top with
   | None =>
       let a := new_addr h in
       modify (set_ver (<[a := Node (Servver (sv_ip (n_data r)) (replicate 6 (replicate VERSION_LEN 0))) top]> h) (Some a))
   | Some _ => mret tt
   end);;
  h1 ← gets ver_cells; top1 ← gets ver_top;
  let temp_result := match result_top with None => top1 | Some _ => result_top end in
  t ← lift (deref h1 temp_result);
  v ← lift (version_at (n_data r) index);
  t' ← lift (set_version (n_data t) index v);
  h2 ← lift (store_node temp_result (Node t' (n_next t)) h1);
  h3 ← lift (free_node result h2);
  modify (set_ver h3 top1).

Definition destroy_servver_results : M ver_state unit := λ s,
  (h ← lift (free_from (S (size (ver_cells s))) (ver_top s) (ver_cells s)); modify (set_ver h None)) s.

(** ** Printing (lines 451-482) *)

Definition version_line (port : Z) (v : list Z) : outcome (list Z) :=
  s ← c_str v;
  mret (if bool_decide (s = []) then [] else dec port ++ [9; 9] ++ s ++ [10]).
Fixpoint version_lines (ports : list Z) (vs : list (list Z)) : outcome (list Z) :=
  match ports, vs with
  | p :: ports', v :: vs' => l ← version_line p v; r ← version_lines ports' vs'; mret (l ++ r)
  | _, _ => Done []
  end.
Definition rule : list Z := replicate 33 45 ++ [10].
Definition print_servver_node (r : servver_result_t) : outcome (list Z) :=
  ip ← c_str (sv_ip r);
  ls ← version_lines serv_ports (sv_version r);
  mret (10 :: bytes "IP ADDRESS : " ++ ip ++ [10] ++ rule ++ bytes "Port" ++ [9; 9] ++ bytes "Service Version"
        ++ [10] ++ rule ++ ls ++ rule).
Fixpoint print_loop (fuel : nat) (h : ver_heap) (p : ptr) : outcome (list Z) :=
  match p with
  | None => Done []
  | Some _ =>
      match fuel with
      | O => NoFuel
      | S f => n ← deref h p; o ← print_servver_node (n_data n); r ← print_loop f h (n_next n); mret (o ++ r)
      end
  end.
Definition print_servver_result (s : ver_state) : outcome (list Z) :=
  match ver_top s with
  | None => Done (10 :: bytes "Service Detection is not done as given ports are not in required range!" ++ [10])
  | Some _ =>
      r ← print_loop (S (size (ver_cells s))) (ver_cells s) (ver_top s);
      mret (10 :: bytes "SERVICE VERSION DETECTION RESULTS" ++ [10] ++ rule ++ r)
  end.

(** ** The connection (lines 277-392) *)

(** What the system returns for one call of [version_detection]. [p_recv]:
    [None] when [recv] fails, otherwise the bytes that have arrived. *)
Record peer := Peer {
  p_socket : Z;
  p_resolves : bool;
  p_connect : Z;
  p_recv : option (list Z);
  p_write : nat → Z → Z;
  p_query : option (list Z);       (* the file "httprequest" *)
  p_read_ok : nat → bool;          (* whether its [k]-th [read] works *)
}.

(** SUCCESS or FAILURE and what went out. *)
Definition sendData (write : nat → Z → Z) (data : list Z) (dataLen : Z) : outcome (Z * list Z) :=
  d ← mem_read data dataLen;
  '(ok, out, _) ← send_loop write (length d) 0 d [];
  mret (if (ok : bool) then SUCCESS else FAILURE, out).

(** SUCCESS or FAILURE and the buffer. *)
Definition recvData (recv : option (list Z)) (data : list Z) (bytesToRead : nat) : outcome (Z * list Z) :=
  match recv with
  | None | Some [] => Done (FAILURE, data)
  | Some d => b ← mem_write data 0 (take bytesToRead d); mret (SUCCESS, b)
  end.

(** [read] of at most [BUF_LEN] bytes until it gives none; [n] counts the
    [read]s and [k] the [write]s. *)
Fixpoint query_loop (write : nat → Z → Z) (read_ok : nat → bool) (fuel n k : nat) (rest sent : list Z)
  : outcome (Z * list Z) :=
  if negb (read_ok n) then Done (FAILURE, sent)
  else match take BUF_LEN rest with
       | [] => Done (SUCCESS, sent)
       | input =>
           '(ok, sent', k') ← send_loop write (length input) k input sent;
           if (ok : bool) then
             match fuel with
             | O => NoFuel
             | S f => query_loop write read_ok f (S n) k' (drop BUF_LEN rest) sent'
             end
           else mret (FAILURE, sent')
       end.
Definition sendHttpQuery (c : peer) : outcome (Z * list Z) :=
  match p_query c with
  | None => Done (FAILURE, [])
  | Some file => query_loop (p_write c) (p_read_ok c) (length file) 0 0 file []
  end.

(** ** Picking the version (lines 96-269) *)

(** [for (i = 0; i <= len; i++) { if (src[i] == '\n') break; dst[i] = src[i]; } dst[i] = 0;] *)
Fixpoint copy_line_loop (n i : nat) (src dst : list Z) : outcome (nat * list Z) :=
  match n with
  | O => Done (i, dst)
  | S n' =>
      c ← rd src i;
      if c =? 10 then mret (i, dst)
      else dst' ← mem_write dst i [c]; copy_line_loop n' (S i) src dst'
  end.
Definition copy_line (src dst : list Z) : outcome (list Z) :=
  len ← str_scan_len src;
  '(i, dst') ← copy_line_loop (S len) 0 src dst;
  mem_write dst' i [0].

(** [for (word = strtok(temp, sep), i = 0; word && i < limit;
    word = strtok(NULL, sep), i++) body(i, word);] with [n] equal to
    [limit - i]. *)
Fixpoint words_loop {A} (body : nat → list Z → A → outcome A) (n i : nat) (temp : list Z) (acc : A) : outcome A :=
  w ← strtok_raw 32 temp;
  match w, n with
  | Some (word, rest), S n' => acc' ← body i word acc; words_loop body n' (S i) rest acc'
  | _, _ => mret acc
  end.

(** A local [version[k]]: [None] while nothing was stored in it. *)
Definition local_str (v : option (list Z)) : outcome (list Z) :=
  match v with None => Fault Uninitialised | Some b => Done b end.

Definition smtp_word (stack : list Z) (i : nat) (word : list Z) (v : option (list Z)) : outcome (option (list Z)) :=
  match i with
  | 2%nat => b ← strcpy stack (word ++ [0]); b' ← strcat b (c_lit " "); mret (Some b')
  | 3%nat | 4%nat => b ← local_str v; b1 ← strcat b (word ++ [0]); b2 ← strcat b1 (c_lit " "); mret (Some b2)
  | 5%nat => b ← local_str v; b1 ← strcat b (word ++ [0]); mret (Some b1)
  | _ => mret v
  end.
Definition pop_word (stack : list Z) (i : nat) (word : list Z) (v : option (list Z)) : outcome (option (list Z)) :=
  match i with
  | 1%nat => b ← strcpy stack (word ++ [0]); mret (Some b)
  | _ => mret v
  end.
Definition imap_word (i : nat) (word : list Z) (v : list Z) : outcome (list Z) :=
  match i with
  | 3%nat => strcat v (word ++ [0])
  | _ => mret v
  end.

Definition ssh_version (stack recvbuf : list Z) : outcome (option (list Z)) :=
  b ← copy_line recvbuf stack; mret (Some b).
Definition smtp_version (stack recvbuf : list Z) : outcome (option (list Z)) :=
  words_loop (smtp_word stack) 6 0 recvbuf None.
Definition pop_version (stack recvbuf : list Z) : outcome (option (list Z)) :=
  words_loop (pop_word stack) 3 0 recvbuf None.
(** The copy of the answer has no room for a NUL. *)
Definition imap_version (stack recvbuf : list Z) : outcome (option (list Z)) :=
  temp ← c_str recvbuf;
  b ← strcpy stack (c_lit "Version: ");
  v ← words_loop imap_word 4 0 temp b;
  mret (Some v).
(** The line behind the first occurrence of a name. *)
Definition named_version (name : list Z) (skip : nat) (stack recvbuf : list Z) : outcome (option (list Z)) :=
  ServerName ← strstr recvbuf name;
  match ServerName with
  | None => mret None
  | Some p => b ← copy_line (drop (p + skip) recvbuf) stack; mret (Some b)
  end.
Definition whois_version : list Z → list Z → outcome (option (list Z)) := named_version (c_lit "Server Version") 15.
Definition http_version : list Z → list Z → outcome (option (list Z)) := named_version (c_lit "Server") 8.

(** ** [version_detection] (lines 33-273) *)

Definition FALSE : Z := 0.
Definition TRUE : Z := 1.

(** [strcpy(current_servver_result->version[k], version[k]); push(...)] *)
Definition record_version (result : ptr) (k : nat) (version : list Z) : M ver_state unit :=
  h ← gets ver_cells; t ← gets ver_top;
  n ← lift (deref h result);
  old ← lift (version_at (n_data n) k);
  v ← lift (strcpy old version);
  r ← lift (set_version (n_data n) k v);
  h' ← lift (store_node result (Node r (n_next n)) h);
  modify (set_ver h' t);;
  push_servver_result result k.

(** What a case of the [switch] sends first, its index and how it picks; the
    result of sending is not checked further than success. *)
Definition service (c : peer) (portno : Z)
  : option (nat * outcome Z * (list Z → list Z → outcome (option (list Z)))) :=
  if portno =? 22 then Some (SSH, Done SUCCESS, ssh_version)
  else if portno =? 24 then Some (SMTP, Done SUCCESS, smtp_version)
  else if portno =? 110 then Some (POP, Done SUCCESS, pop_version)
  else if portno =? 143 then Some (IMAP, Done SUCCESS, imap_version)
  else if portno =? 43 then
    Some (WHOIS, ('(r, _) ← sendData (p_write c) (c_lit "dagwood" ++ [0; 0]) 10; mret r), whois_version)
  else if portno =? 80 then Some (HTTP, ('(r, _) ← sendHttpQuery c; mret r), http_version)
  else None.

Definition new_socket (c : peer) : M ver_state Z :=
  (if p_socket c <? 0 then mret tt else n ← gets ver_socks; modify (set_socks (n + 1)));;
  mret (p_socket c).
Definition free_recvbuf : M ver_state unit := n ← gets ver_bufs; modify (set_bufs (n - 1)).
Definition close_socket : M ver_state unit := n ← gets ver_socks; modify (set_socks (n - 1)).

Definition version_detection (c : peer) (stack : list Z) (junk : list (list Z)) (portno : Z) (dest_ip : list Z)
  : M ver_state Z :=
  n ← gets ver_bufs; modify (set_bufs (n + 1));;
  let recvbuf := replicate 300 0 in
  current ← prepare_servversion_rslt junk dest_ip;
  sockfd ← new_socket c;
  if sockfd <? 0 then mret FALSE
  else if negb (p_resolves c) then mret FALSE
  else if p_connect c <? 0 then
    record_version current (port_index portno) (c_lit "UNKNOWN");; mret FALSE
  else
    match service c portno with
    | None => free_recvbuf;; close_socket;; mret TRUE
    | Some (k, send, pick) =>
        sent ← lift send;
        if sent =? FAILURE then mret FALSE
        else
          '(got, recvbuf) ← lift (recvData (p_recv c) recvbuf 250);
          if got =? FAILURE then free_recvbuf;; mret FALSE
          else
            v ← lift (pick stack recvbuf);
            version ← lift (local_str v);
            record_version current k version;;
            free_recvbuf;; close_socket;; mret TRUE
    end.
