(* ===== verification/PsVersionSpec.v ===== *)
(** * The list of versions (properties of PsVersion)

    [push_servver_result] keeps one node per address with the last version of
    each service, so that [isversion_needed] asks each service once;
    [version_detection] records what it picks and gives back what it took when
    the service answers. *)

From S2P Require Import Prelude CString FrameTool PsText PsList PsSetup PsJobs PsResults PsReport CLib PsVersion.
From stdpp Require Import gmap strings.

Open Scope Z_scope.

(** ** The list as a table of texts *)

(** A terminated buffer of a version. *)
Definition ver_buf (v : list Z) : Prop := length v = VERSION_LEN ∧ 0 ∈ v.
Definition servver_ok (r : servver_result_t) : Prop :=
  0 ∈ sv_ip r ∧ length (sv_version r) = 6%nat ∧ Forall ver_buf (sv_version r).
(** The address and the six versions as texts. *)
Definition ver_view (r : servver_result_t) : list Z * list (list Z) :=
  (ip_text (sv_ip r), ip_text <$> sv_version r).

Fixpoint set_known (ip : list Z) (i : nat) (v : list Z) (tbl : list (list Z * list (list Z)))
  : option (list (list Z * list (list Z))) :=
  match tbl with
  | [] => None
  | e :: tbl' => if decide (e.1 = ip) then Some ((e.1, <[i := v]> e.2) :: tbl')
                 else (e ::.) <$> set_known ip i v tbl'
  end.
Definition set_ver_entry (ip : list Z) (i : nat) (v : list Z) (tbl : list (list Z * list (list Z)))
  : list (list Z * list (list Z)) :=
  default ((ip, <[i := v]> (replicate 6 [])) :: tbl) (set_known ip i v tbl).
Fixpoint ver_lookup (ip : list Z) (i : nat) (tbl : list (list Z * list (list Z))) : list Z :=
  match tbl with
  | [] => []
  | e :: tbl' => if decide (e.1 = ip) then default [] (e.2 !! i) else ver_lookup ip i tbl'
  end.

Record ver_rep (s : ver_state) (l : list (positive * servver_result_t)) : Prop := {
  vr_chain : chain (ver_cells s) (ver_top s) l;
  vr_nodup : NoDup l.*1;
  vr_ok : Forall servver_ok l.*2;
}.

(** ** Lemmas *)

Lemma ip_text_zeros n : ip_text (replicate n 0) = [].
Proof. by destruct n. Qed.

Lemma ip_text_app s r : nonzero s → ip_text (s ++ 0 :: r) = s.
Proof.
  intros H. assert (c_str (s ++ 0 :: r) = Done s) as E by (by apply c_str_app).
  rewrite c_str_ip_text in E by (apply elem_of_app; right; left). by injection E.
Qed.

Lemma strcpy_ip_text dst src s b :
  c_str src = Done s → strcpy dst src = Done b → length b = length dst ∧ 0 ∈ b ∧ ip_text b = s.
Proof.
  intros Hs. unfold strcpy. rewrite Hs. cbn [mbind outcome_bind]. intros [-> Hl]%mem_write_inv.
  rewrite length_splice by lia. split; [done|]. unfold splice. rewrite take_0. cbn [app]. rewrite <- app_assoc.
  split; [apply elem_of_app; right; left|]. apply ip_text_app. by eapply c_str_nonzero.
Qed.

Lemma find_servver_spec h ip : 0 ∈ ip → ∀ l fuel p,
  chain h p l → Forall servver_ok l.*2 → (length l ≤ fuel)%nat →
  (find_servver fuel h p ip = Done None ∧ ∀ i v, set_known (ip_text ip) i v (ver_view <$> l.*2) = None) ∨
  ∃ l1 a t l2, l = l1 ++ (a, t) :: l2 ∧ find_servver fuel h p ip = Done (Some a) ∧
    ∀ i v, set_known (ip_text ip) i v (ver_view <$> l.*2) =
      Some ((ver_view <$> l1.*2) ++ (ip_text (sv_ip t), <[i := v]> (ip_text <$> sv_version t)) :: (ver_view <$> l2.*2)).
Proof.
  intros Hip. induction l as [|[a t] l IH]; intros fuel p; cbn [chain length].
  { intros -> _ _. left. by destruct fuel. }
  intros (-> & q & Ha & Hl) [Ht Hts]%Forall_cons Hf. destruct fuel as [|fuel]; [lia|].
  cbn [find_servver fmap list_fmap set_known fst snd]. rewrite (deref_ok _ _ _ Ha). cbn [mbind outcome_bind n_data n_next].
  rewrite (ip_eq_spec (sv_ip t) ip) by (apply Ht || done). cbn [mbind outcome_bind ver_view fst snd].
  destruct (decide (ip_text (sv_ip t) = ip_text ip)) as [E|E].
  - rewrite bool_decide_eq_true_2 by done. right. by exists [], a, t, l.
  - rewrite bool_decide_eq_false_2 by done. destruct (IH fuel q Hl Hts ltac:(lia)) as [[E1 E2]|(l1 & b & u & l2 & -> & E1 & E2)].
    + left. split; [done|]. intros i v. by rewrite E2.
    + right. exists ((a, t) :: l1), b, u, l2. split; [done|]. split; [done|]. intros i v. by rewrite E2.
Qed.

Lemma servver_set r i v :
  servver_ok r → (i < 6)%nat → ver_buf v →
  ∃ r', set_version r i v = Done r' ∧ servver_ok r' ∧ sv_ip r' = sv_ip r ∧
    ver_view r' = (ip_text (sv_ip r), <[i := ip_text v]> (ip_text <$> sv_version r)).
Proof.
  intros (Hip & Hlen & Hall) Hi Hv. unfold set_version.
  destruct (lookup_lt_is_Some_2 (sv_version r) i ltac:(lia)) as [old ->]. eexists. split; [done|].
  split; [split; [done|split; cbn [sv_version]; [by rewrite length_insert|by apply Forall_insert]]|].
  split; [done|]. unfold ver_view. cbn. by rewrite list_fmap_insert.
Qed.

(** The last part of a push: store the version in the entry [a], free [p]. *)
Lemma finish_servver p r q0 i v s l1 a t l2 :
  (i < 6)%nat → sv_version r !! i = Some v → ver_buf v →
  ver_rep s (l1 ++ (a, t) :: l2) → p ∉ (l1 ++ (a, t) :: l2).*1 → ver_cells s !! p = Some (Node r q0) →
  ∃ h' t', (u ← lift (deref (ver_cells s) (Some a));
            w ← lift (version_at r i);
            t'' ← lift (set_version (n_data u) i w);
            h2 ← lift (store_node (Some a) (Node t'' (n_next u)) (ver_cells s));
            h3 ← lift (free_node (Some p) h2);
            modify (set_ver h3 (ver_top s))) s = Done (tt, set_ver h' (ver_top s) s) ∧
    ver_rep (set_ver h' (ver_top s) s) (l1 ++ (a, t') :: l2) ∧
    ver_view t' = (ip_text (sv_ip t), <[i := ip_text v]> (ip_text <$> sv_version t)) ∧
    h' !! p = None ∧ ∀ b, b ≠ p → b ≠ a → h' !! b = ver_cells s !! b.
Proof.
  intros Hi Hv Hbuf [Hc Hnd Hok] Hp Hpr.
  assert (servver_ok t) as Ht by (rewrite fmap_app, fmap_cons in Hok; apply Forall_app in Hok as [_ [? _]%Forall_cons]; done).
  destruct (servver_set t i v Ht Hi Hbuf) as (t' & Et & Ht' & _ & Hview).
  destruct (chain_set l1 a t l2 (ver_cells s) (ver_top s) t' Hc Hnd) as (q & Ha & Hc').
  assert (a ≠ p) as Hap by (intros ->; apply Hp; rewrite fmap_app, fmap_cons; apply elem_of_app; right; by left).
  rewrite (M_bind_lift _ _ _ _ (deref_ok _ _ _ Ha)). unfold version_at. rewrite Hv.
  rewrite (M_bind_lift _ _ _ _ eq_refl). cbn [n_data n_next]. rewrite (M_bind_lift _ _ _ _ Et).
  cbn [store_node]. rewrite (M_bind_lift _ _ _ _ eq_refl). unfold free_node.
  rewrite bool_decide_eq_true_2 by (rewrite lookup_insert_ne by congruence; eauto).
  rewrite (M_bind_lift _ _ _ _ eq_refl). do 2 eexists. split; [done|].
  assert ((l1 ++ (a, t') :: l2).*1 = (l1 ++ (a, t) :: l2).*1) as Ek by (by rewrite !fmap_app).
  split; [split; cbn [ver_cells ver_top set_ver]|split; [done|split]].
  - apply chain_delete; [by rewrite Ek|done].
  - by rewrite Ek.
  - rewrite fmap_app, fmap_cons in *. apply Forall_app in Hok as [H1 [_ H2]%Forall_cons].
    apply Forall_app. split; [done|]. by constructor.
  - apply lookup_delete_eq.
  - intros b Hb1 Hb2. by rewrite lookup_delete_ne, lookup_insert_ne by congruence.
Qed.

Lemma servver_new ip : 0 ∈ ip → servver_ok (Servver ip (replicate 6 (replicate VERSION_LEN 0))).
Proof.
  intros H. split; [done|]. split; [done|]. cbn [sv_version]. apply Forall_replicate. split; [done|]. left.
Qed.

Lemma push_servver_records s l p r q i v :
  ver_rep s l → p ∉ l.*1 → ver_cells s !! p = Some (Node r q) → 0 ∈ sv_ip r →
  (i < 6)%nat → sv_version r !! i = Some v → ver_buf v →
  ∃ h' t' l', push_servver_result (Some p) i s = Done (tt, set_ver h' t' s) ∧ ver_rep (set_ver h' t' s) l' ∧
    ver_view <$> l'.*2 = set_ver_entry (ip_text (sv_ip r)) i (ip_text v) (ver_view <$> l.*2) ∧
    h' !! p = None ∧ ∀ b, b ≠ p → b ∉ l'.*1 → h' !! b = ver_cells s !! b.
Proof.
  intros Hs Hp Hpr Hip Hi Hv Hbuf. pose proof Hs as [Hc Hnd Hok].
  unfold push_servver_result. rewrite !M_bind_gets, (M_bind_lift _ _ _ _ (deref_ok _ _ _ Hpr)). cbn [n_data].
  pose proof (chain_size _ _ _ Hc Hnd) as Hsz.
  destruct (find_servver_spec (ver_cells s) (sv_ip r) Hip l (S (size (ver_cells s))) (ver_top s) Hc Hok ltac:(lia))
    as [[Ef En]|(l1 & a & t & l2 & -> & Ef & En)]; rewrite (M_bind_lift _ _ _ _ Ef); unfold set_ver_entry; rewrite En.
  - set (a := new_addr (ver_cells s)). set (t := Servver (sv_ip r) (replicate 6 (replicate VERSION_LEN 0))).
    set (s1 := set_ver (<[a := Node t (ver_top s)]> (ver_cells s)) (Some a) s).
    assert (p ≠ a) as Hpa by (intros ->; unfold a in Hpr; by rewrite new_addr_fresh in Hpr).
    assert (ver_rep s1 ([] ++ (a, t) :: l)) as Hs1.
    { pose proof (chain_fresh _ _ _ Hc) as Hfr. split; cbn.
      - split; [done|]. eexists. split; [apply lookup_insert_eq|]. by apply chain_insert.
      - by apply NoDup_cons.
      - constructor; [by apply servver_new|done]. }
    rewrite M_bind_modify. fold s1. rewrite !M_bind_gets.
    destruct (finish_servver p r q i v s1 [] a t l Hi Hv Hbuf Hs1) as (h' & t' & E & Hr & Hview & Hgone & Hother).
    { cbn. by apply not_elem_of_cons. }
    { cbn. by rewrite lookup_insert_ne. }
    exists h', (Some a), ((a, t') :: l). split; [exact E|]. split; [exact Hr|].
    split; [cbn [app fmap list_fmap snd default]; rewrite Hview; by cbn|]. split; [done|].
    intros b Hb Hni. cbn in Hni. apply not_elem_of_cons in Hni as [Hba _]. rewrite Hother by done. cbn.
    by rewrite lookup_insert_ne.
  - rewrite M_bind_ret, !M_bind_gets.
    destruct (finish_servver p r q i v s l1 a t l2 Hi Hv Hbuf Hs Hp Hpr) as (h' & t' & E & Hr & Hview & Hgone & Hother).
    exists h', (ver_top s), (l1 ++ (a, t') :: l2). split; [exact E|]. split; [exact Hr|].
    split; [rewrite !fmap_app, !fmap_cons; cbn [default snd]; by rewrite Hview|]. split; [done|].
    intros b Hb Hni. apply Hother; [done|]. intros ->. apply Hni. rewrite fmap_app, fmap_cons. apply elem_of_app. right. by left.
Qed.

(** ** The list against the history of recordings *)

(** An address, a service and the version stored for it. *)
Definition ver_event : Type := list Z * (nat * list Z).
Definition recorded (h : list ver_event) (ip : list Z) (i : nat) : list Z :=
  default [] (last (omap (λ e, if decide (e.1 = ip ∧ e.2.1 = i) then Some e.2.2 else None) h)).

Record ver_hist (h : list ver_event) (tbl : list (list Z * list (list Z))) : Prop := {
  vh_keys : ∀ ip, ip ∈ tbl.*1 ↔ ip ∈ h.*1;
  vh_nodup : NoDup tbl.*1;
  vh_entries : Forall (λ e, ∀ i, (i < 6)%nat → e.2 !! i = Some (recorded h e.1 i)) tbl;
}.
(** The list holds what was recorded last. *)
Definition versions_hold (s : ver_state) (h : list ver_event) : Prop :=
  ∃ l, ver_rep s l ∧ ver_hist h (ver_view <$> l.*2).

Lemma recorded_snoc h e ip i :
  recorded (h ++ [e]) ip i = if decide (e.1 = ip ∧ e.2.1 = i) then e.2.2 else recorded h ip i.
Proof.
  unfold recorded. rewrite omap_app. cbn. case_decide; [by rewrite last_snoc|by rewrite app_nil_r].
Qed.

Lemma recorded_none h ip i : ip ∉ h.*1 → recorded h ip i = [].
Proof.
  unfold recorded. induction h as [|e h IH]; intros Hni; [done|]. cbn in Hni.
  apply not_elem_of_cons in Hni as [Hne Hni]. cbn. rewrite decide_False by (intros [? _]; congruence). by apply IH.
Qed.

Lemma set_known_split ip i v tbl :
  match set_known ip i v tbl with
  | Some tbl' => ∃ t1 e t2, tbl = t1 ++ e :: t2 ∧ e.1 = ip ∧ tbl' = t1 ++ (e.1, <[i := v]> e.2) :: t2
  | None => ip ∉ tbl.*1
  end.
Proof.
  induction tbl as [|e tbl IH]; cbn [set_known]; [apply not_elem_of_nil|]. case_decide as E.
  - by exists [], e, tbl.
  - destruct (set_known ip i v tbl) as [tbl'|]; cbn [fmap option_fmap option_map].
    + destruct IH as (t1 & f & t2 & -> & Hk & ->). by exists (e :: t1), f, t2.
    + cbn. apply not_elem_of_cons. split; [congruence|done].
Qed.

(** The row of the address recorded, and the other rows. *)
Lemma row_set h ip i v (vs : list (list Z)) j :
  (i < 6)%nat → (j < 6)%nat → (∀ j, (j < 6)%nat → vs !! j = Some (recorded h ip j)) →
  <[i := v]> vs !! j = Some (recorded (h ++ [(ip, (i, v))]) ip j).
Proof.
  intros Hi Hj H. rewrite recorded_snoc. cbn [fst snd]. destruct (decide (i = j)) as [->|Hne].
  - rewrite decide_True by done. apply list_lookup_insert_eq. eapply lookup_lt_Some, H, Hj.
  - rewrite decide_False by (by intros [_ ?]). rewrite list_lookup_insert_ne by done. by apply H.
Qed.

Lemma row_other h e (row : list Z * list (list Z)) :
  row.1 ≠ e.1 → (∀ i, (i < 6)%nat → row.2 !! i = Some (recorded h row.1 i)) →
  ∀ i, (i < 6)%nat → row.2 !! i = Some (recorded (h ++ [e]) row.1 i).
Proof. intros Hne H i Hi. rewrite recorded_snoc, decide_False by (intros [? _]; congruence). by apply H. Qed.

Lemma set_ver_entry_hist h tbl ip i v :
  (i < 6)%nat → ver_hist h tbl → ver_hist (h ++ [(ip, (i, v))]) (set_ver_entry ip i v tbl).
Proof.
  intros Hi [Hk Hnd He]. unfold set_ver_entry. pose proof (set_known_split ip i v tbl) as Hs.
  destruct (set_known ip i v tbl) as [tbl'|]; cbn [from_option id].
  - destruct Hs as (t1 & e & t2 & -> & <- & ->).
    assert ((t1 ++ (e.1, <[i:=v]> e.2) :: t2).*1 = (t1 ++ e :: t2).*1) as Ek by (by rewrite !fmap_app).
    apply Forall_app in He as [H1 [H0 H2]%Forall_cons].
    assert (∀ r, r ∈ t1 ∨ r ∈ t2 → r.1 ≠ e.1) as Hne.
    { rewrite fmap_app, fmap_cons in Hnd. apply NoDup_app in Hnd as (_ & Hd & [Hni _]%NoDup_cons).
      intros r [Hr|Hr] E.
      - apply (Hd r.1); [by apply list_elem_of_fmap_2|]. rewrite E. left.
      - apply Hni. rewrite <- E. by apply list_elem_of_fmap_2. }
    split.
    + intros ip'. rewrite Ek, Hk, (fmap_app fst h), elem_of_app. cbn. rewrite list_elem_of_singleton. split; [by left|].
      intros [?| ->]; [done|]. apply Hk. rewrite fmap_app, fmap_cons. apply elem_of_app. right. left.
    + by rewrite Ek.
    + rewrite Forall_forall in H1, H2. apply Forall_app. split; [|constructor].
      * apply Forall_forall. intros r Hr. apply row_other; [apply Hne; by left|by apply H1].
      * cbn [fst snd]. intros j Hj. by apply row_set.
      * apply Forall_forall. intros r Hr. apply row_other; [apply Hne; by right|by apply H2].
  - assert (ip ∉ h.*1) as Hnh by (by rewrite <- Hk). split.
    + intros ip'. rewrite (fmap_app fst h), elem_of_app. cbn. rewrite elem_of_cons, Hk, list_elem_of_singleton. naive_solver.
    + cbn. by apply NoDup_cons.
    + constructor.
      * cbn [fst snd]. intros j Hj. apply row_set; [done|done|]. intros k Hk6. rewrite recorded_none by done.
        by apply lookup_replicate_2.
      * rewrite Forall_forall in He |- *. intros r Hr. apply row_other; [|by apply He].
        cbn [fst]. intros <-. apply Hs. by apply list_elem_of_fmap_2.
Qed.

(** Some node of the address has the version. *)
Definition known_in (tbl : list (list Z * list (list Z))) (ip : list Z) (i : nat) : bool :=
  existsb (λ e, bool_decide (e.1 = ip) && negb (bool_decide (e.2 !! i = Some []))) tbl.

Lemma needed_loop_spec h ip i : 0 ∈ ip → (i < 6)%nat → ∀ l fuel p,
  chain h p l → Forall servver_ok l.*2 → (length l ≤ fuel)%nat →
  needed_loop fuel h p ip i = Done (negb (known_in (ver_view <$> l.*2) (ip_text ip) i)).
Proof.
  intros Hip Hi. induction l as [|[a t] l IH]; intros fuel p; cbn [chain length].
  { intros -> _ _. by destruct fuel. }
  intros (-> & q & Ha & Hl) [(Htip & Htl & Hts) Hok]%Forall_cons Hf. cbn [snd] in Htip, Htl, Hts. destruct fuel as [|fuel]; [lia|].
  cbn [needed_loop fmap list_fmap snd]. rewrite (deref_ok _ _ _ Ha). cbn [mbind outcome_bind n_data n_next].
  rewrite (ip_eq_spec ip (sv_ip t)) by done. unfold known_in. cbn [existsb fst snd ver_view mbind outcome_bind].
  destruct (decide (ip_text ip = ip_text (sv_ip t))) as [E|E].
  - rewrite bool_decide_eq_true_2, (bool_decide_eq_true_2 (ip_text (sv_ip t) = _)) by done. cbn [andb].
    destruct (lookup_lt_is_Some_2 (sv_version t) i ltac:(lia)) as [v Hv]. unfold version_at. rewrite Hv.
    cbn [mbind outcome_bind]. assert (0 ∈ v) as Hnul.
    { rewrite Forall_forall in Hts. apply Hts. by eapply list_elem_of_lookup_2. }
    rewrite (str_scan_len_spec _ _ (c_str_ip_text v Hnul)), list_lookup_fmap, Hv. cbn [mbind outcome_bind fmap option_fmap option_map mret outcome_ret].
    destruct (ip_text v) as [|c w]; cbn [length Nat.eqb negb].
    + rewrite bool_decide_eq_true_2 by done. cbn. by apply IH; [| |lia].
    + rewrite bool_decide_eq_false_2 by done. done.
  - rewrite bool_decide_eq_false_2, (bool_decide_eq_false_2 (ip_text (sv_ip t) = _)) by congruence.
    cbn [andb orb mbind outcome_bind]. apply IH; [done|done|lia].
Qed.

Lemma known_in_hist h tbl ip i :
  ver_hist h tbl → (i < 6)%nat → known_in tbl ip i = negb (bool_decide (recorded h ip i = [])).
Proof.
  intros [Hk _ He] Hi. unfold known_in. apply eq_true_iff_eq. rewrite existsb_exists, negb_true_iff, bool_decide_eq_false.
  rewrite Forall_forall in He. split.
  - intros (e & Hin & [E Hn]%andb_true_iff). apply bool_decide_eq_true in E as <-. apply negb_true_iff, bool_decide_eq_false in Hn.
    apply list_elem_of_In in Hin. rewrite (He e Hin i Hi) in Hn. congruence.
  - intros Hne. destruct (decide (ip ∈ h.*1)) as [Hin|Hni]; [|by rewrite recorded_none in Hne].
    apply Hk, list_elem_of_fmap in Hin as (e & -> & Hin). exists e. split; [by apply list_elem_of_In|].
    rewrite bool_decide_eq_true_2 by done. cbn. rewrite (He e Hin i Hi). apply negb_true_iff, bool_decide_eq_false. congruence.
Qed.

Lemma port_index_lt portno : portno ∈ serv_ports → (port_index portno < 6)%nat.
Proof.
  unfold serv_ports, port_index. rewrite !elem_of_cons, elem_of_nil. intros H.
  repeat destruct H as [->|H]; cbn; lia || done.
Qed.

Lemma isversion_needed_spec s h portno ip :
  versions_hold s h → portno ∈ serv_ports → 0 ∈ ip →
  isversion_needed portno ip s = Done (bool_decide (recorded h (ip_text ip) (port_index portno) = []), s).
Proof.
  intros (l & [Hc Hnd Hok] & Hh) Hp Hip. pose proof (port_index_lt _ Hp) as Hi. pose proof (chain_size _ _ _ Hc Hnd) as Hs.
  unfold isversion_needed, lift. rewrite (needed_loop_spec _ ip _ Hip Hi l) by (done || lia).
  rewrite (known_in_hist h) by done. by rewrite negb_involutive.
Qed.

Lemma push_servver_hold s h p r q i v :
  versions_hold s h → (∀ l, ver_rep s l → p ∉ l.*1) → ver_cells s !! p = Some (Node r q) → 0 ∈ sv_ip r →
  (i < 6)%nat → sv_version r !! i = Some v → ver_buf v →
  ∃ h' t', push_servver_result (Some p) i s = Done (tt, set_ver h' t' s) ∧
    versions_hold (set_ver h' t' s) (h ++ [(ip_text (sv_ip r), (i, ip_text v))]) ∧ h' !! p = None.
Proof.
  intros (l & Hl & Hh) Hfree Hp Hip Hi Hv Hbuf.
  destruct (push_servver_records s l p r q i v Hl (Hfree l Hl) Hp Hip Hi Hv Hbuf) as (h' & t' & l' & E & Hr & Hview & Hgone & _).
  exists h', t'. split; [done|]. split; [|done]. exists l'. split; [done|]. rewrite Hview. by apply set_ver_entry_hist.
Qed.

(** The list of versions holds, for every address recorded, one node with
    the version stored last for each of the six services; storing one more
    keeps this, frees the result it is given, and from then on
    [isversion_needed] asks for a service exactly when nothing (or an empty
    version) is stored for the address. *)
Theorem push_servver_result_history s h p r q i v :
  versions_hold s h → (∀ l, ver_rep s l → p ∉ l.*1) → ver_cells s !! p = Some (Node r q) → 0 ∈ sv_ip r →
  (i < 6)%nat → sv_version r !! i = Some v → ver_buf v →
  ∃ s', push_servver_result (Some p) i s = Done (tt, s') ∧
    versions_hold s' (h ++ [(ip_text (sv_ip r), (i, ip_text v))]) ∧ ver_cells s' !! p = None ∧
    ∀ portno ip, portno ∈ serv_ports → 0 ∈ ip →
      isversion_needed portno ip s' =
        Done (bool_decide (recorded (h ++ [(ip_text (sv_ip r), (i, ip_text v))]) (ip_text ip) (port_index portno) = []), s').
Proof.
  intros Hs Hfree Hp Hip Hi Hv Hbuf. destruct (push_servver_hold s h p r q i v Hs Hfree Hp Hip Hi Hv Hbuf) as (h' & t' & E & H' & Hgone).
  eexists. split; [done|]. split; [done|]. split; [done|]. intros portno ip Hport Hip'. by apply isversion_needed_spec.
Qed.

(** ** Picking a line *)

(** The bytes before the first newline. *)
Definition first_line (s : list Z) : list Z := take (span_len (λ c, negb (c =? 10)) s) s.

Lemma splice_cons (b : list Z) i c s :
  (i + S (length s) ≤ length b)%nat →
  splice (splice b i [c]) (S i) s = splice b i (c :: s).
Proof.
  intros H. unfold splice at 1. rewrite drop_splice_ge by (cbn; lia).
  unfold splice. cbn [length]. rewrite take_app_ge by (rewrite length_take; lia).
  rewrite length_take. replace (S i - i `min` length b)%nat with 1%nat by lia. cbn [app take].
  rewrite <- app_assoc. replace (S i + length s)%nat with (i + S (length s))%nat by lia. done.
Qed.

Lemma copy_line_loop_spec src : ∀ u i dst,
  (∀ j, (j < length u)%nat → src !! (i + j)%nat = u !! j) → (i ≤ length dst)%nat →
  copy_line_loop (length u) i src dst =
    if (i + length (first_line u) <=? length dst)%nat
    then Done ((i + length (first_line u))%nat, splice dst i (first_line u)) else Fault OutOfBounds.
Proof.
  unfold first_line. induction u as [|c u IH]; intros i dst Hsrc Hi; cbn [length copy_line_loop span_len take].
  { bool_lia. by rewrite Nat.add_0_r, splice_nil. }
  pose proof (Hsrc O ltac:(cbn; lia)) as H0. rewrite Nat.add_0_r in H0. rewrite (rd_ok _ _ _ H0). cbn [mbind outcome_bind].
  destruct (c =? 10); cbn [negb]; [cbn [take length mret outcome_ret]; bool_lia; by rewrite Nat.add_0_r, splice_nil|].
  cbn [take length]. set (w := take _ u). unfold mem_write. cbn [length].
  destruct (Nat.leb_spec (i + 1) (length dst)) as [Hle|Hgt]; cbn [mbind outcome_bind]; [|bool_lia; done].
  rewrite IH; fold w.
  - rewrite length_splice by (cbn; lia). replace (S i + length w)%nat with (i + S (length w))%nat by lia.
    destruct (Nat.leb_spec (i + S (length w)) (length dst)); [|done]. by rewrite splice_cons.
  - intros j Hj. replace (S i + j)%nat with (i + S j)%nat by lia. apply (Hsrc (S j)). cbn. lia.
  - rewrite length_splice by (cbn; lia). lia.
Qed.

Lemma first_line_app s r : (length (first_line s) < length s)%nat → first_line (s ++ r) = first_line s.
Proof.
  unfold first_line. rewrite length_take. intros H.
  assert (span_len (λ c, negb (c =? 10)) (s ++ r) = span_len (λ c, negb (c =? 10)) s) as ->.
  { induction s as [|c s IH]; cbn in *; [lia|]. destruct (negb (c =? 10)); [|done]. rewrite IH; [done|lia]. }
  rewrite take_app_le; [done|]. lia.
Qed.
Lemma first_line_whole s r : first_line s = s → first_line (s ++ 0 :: r) = s ++ 0 :: first_line r.
Proof.
  unfold first_line. intros H. induction s as [|c s IH]; [done|]. cbn in *.
  destruct (negb (c =? 10)); [|done]. cbn in *. injection H as H. by rewrite IH.
Qed.
Lemma first_line_le s : (length (first_line s) ≤ length s)%nat.
Proof. unfold first_line. rewrite length_take. lia. Qed.
Lemma first_line_nonzero s : nonzero s → nonzero (first_line s).
Proof. apply Forall_take. Qed.

(** The room that copying the first line of [s] takes: the line and a NUL,
    and one more byte when the text ends without a newline. *)
Definition line_room (s : list Z) : nat :=
  length (first_line s) + if (length (first_line s) <? length s)%nat then 1 else 2.

Lemma copy_line_spec src s dst :
  c_str src = Done s →
  if (line_room s <=? length dst)%nat
  then ∃ b, copy_line src dst = Done b ∧ c_str b = Done (first_line s) ∧ length b = length dst
  else copy_line src dst = Fault OutOfBounds.
Proof.
  intros H. unfold copy_line, line_room. rewrite (str_scan_len_spec _ _ H). cbn [mbind outcome_bind].
  pose proof (c_str_inv _ _ H) as (r & -> & Hnz).
  assert (S (length s) = length (s ++ [0])) as -> by (rewrite length_app; cbn; lia).
  rewrite copy_line_loop_spec; [|intros j Hj; cbn [Nat.add]; rewrite cons_middle, app_assoc, lookup_app_l by done; done|lia].
  pose proof (first_line_nonzero s Hnz) as Hnl. pose proof (first_line_le s) as Hle.
  destruct (Nat.ltb_spec (length (first_line s)) (length s)) as [Hlt|Hge].
  - rewrite first_line_app by done. cbn [Nat.add].
    destruct (Nat.leb_spec (length (first_line s)) (length dst)) as [Hd|Hd]; cbn [mbind outcome_bind]; [|bool_lia; done].
    unfold mem_write. rewrite length_splice by lia. cbn [length].
    destruct (Nat.leb_spec (length (first_line s) + 1) (length dst)) as [Hd1|Hd1]; [|done]. eexists. split; [done|].
    split; [|rewrite length_splice; [rewrite length_splice; lia|rewrite length_splice; cbn; lia]].
    unfold splice at 1. rewrite take_splice_0. cbn [app]. by apply c_str_app.
  - assert (first_line s = s) as Es by (unfold first_line in *; rewrite length_take in Hge; apply take_ge; lia).
    rewrite first_line_whole by done. rewrite Es. cbn [Nat.add first_line span_len take]. rewrite length_app. cbn [length].
    destruct (Nat.leb_spec (length s + 1) (length dst)) as [Hd|Hd]; cbn [mbind outcome_bind]; [|bool_lia; done].
    unfold mem_write. rewrite length_splice by (rewrite length_app; cbn; lia). cbn [length].
    destruct (Nat.leb_spec (length s + 2) (length dst)) as [Hd1|Hd1];
      destruct (Nat.leb_spec (length s + 1 + 1) (length dst)) as [Hd2|Hd2]; try lia; [|done].
    eexists. split; [done|]. split.
    + unfold splice at 1. replace (length s + 1)%nat with (length (s ++ [0])) by (rewrite length_app; cbn; lia).
      rewrite take_splice_0. rewrite <- app_assoc. by apply c_str_app.
    + rewrite length_splice; [rewrite length_splice; [done|rewrite length_app; cbn; lia]|].
      rewrite length_splice by (rewrite length_app; cbn; lia). cbn. lia.
Qed.

(** ** What [version_detection] records (properties of PsVersion)

    For the services whose version is a line of the answer, exactly that line
    is stored when it fits its 50 bytes, and the buffer overflows when it does
    not; runs to what the code does not mean are at the end. *)

(** [recvbuf] after [recv], and the text in it. *)
Definition answer (d : list Z) : list Z := splice (replicate 300 0) 0 (take 250 d).
Definition arrived (d : list Z) : list Z := ip_text (take 250 d).

(** What memory held before: six buffers. *)
Definition junk_ok (junk : list (list Z)) : Prop :=
  length junk = 6%nat ∧ Forall (λ v, length v = VERSION_LEN) junk.

(** Where the line of a service starts in the answer. *)
Definition line_of (portno : Z) (text : list Z) : option (nat * list Z) :=
  let after name skip k :=
    match find_sub (bytes name) text with
    | Some p => if (p + skip <=? length text)%nat then Some (k, drop (p + skip) text) else None
    | None => None
    end in
  if portno =? 22 then Some (SSH, text)
  else if portno =? 43 then after "Server Version"%string 15%nat WHOIS
  else if portno =? 80 then after "Server"%string 8%nat HTTP
  else None.

Lemma ip_text_app_zero x r : ip_text (x ++ 0 :: r) = ip_text x.
Proof.
  unfold ip_text. induction x as [|c x IH]; [done|]. cbn. destruct (c =? 0); [done|]. cbn. by rewrite IH.
Qed.

Lemma answer_text d : c_str (answer d) = Done (arrived d).
Proof.
  unfold answer, arrived, splice. rewrite take_0. cbn [app]. rewrite drop_replicate.
  pose proof (firstn_le_length 250 d) as Hl. cbn [Nat.add].
  replace (300 - length (take 250 d))%nat with (S (299 - length (take 250 d))) by lia. cbn [replicate].
  rewrite c_str_ip_text by (apply elem_of_app; right; left). by rewrite ip_text_app_zero.
Qed.

Lemma recvData_ok d : d ≠ [] → recvData (Some d) (replicate 300 0) 250 = Done (SUCCESS, answer d).
Proof.
  intros Hd. destruct d as [|c d]; [done|]. cbn [recvData]. rewrite mem_write_ok; [done|].
  pose proof (firstn_le_length 250 (c :: d)). rewrite length_replicate. lia.
Qed.

Lemma record_version_hold s h p b junk q k version text :
  versions_hold s h → (∀ l, ver_rep s l → p ∉ l.*1) → ver_cells s !! p = Some (Node (Servver b junk) q) → 0 ∈ b →
  junk_ok junk → (k < 6)%nat → c_str version = Done text → (length text < VERSION_LEN)%nat →
  ∃ h' t', record_version (Some p) k version s = Done (tt, set_ver h' t' s) ∧
    versions_hold (set_ver h' t' s) (h ++ [(ip_text b, (k, text))]).
Proof.
  intros Hs Hfree Hp Hb [Hjl Hj] Hk Hv Hlen. unfold record_version. rewrite !M_bind_gets, (M_bind_lift _ _ _ _ (deref_ok _ _ _ Hp)).
  destruct (lookup_lt_is_Some_2 junk k ltac:(lia)) as [old Hold]. cbn [n_data]. unfold version_at, set_version. cbn [sv_version]. rewrite Hold.
  rewrite (M_bind_lift _ _ _ _ eq_refl).
  assert (length old = VERSION_LEN) as Eold by (rewrite Forall_forall in Hj; apply Hj; by eapply list_elem_of_lookup_2).
  destruct (strcpy_reads old version text Hv ltac:(lia)) as (v & Ev & _ & _).
  destruct (strcpy_ip_text old version text v Hv Ev) as (Evl & Hnul & Etext). rewrite (M_bind_lift _ _ _ _ Ev), (M_bind_lift _ _ _ _ eq_refl).
  cbn [store_node n_next sv_ip sv_version]. rewrite (M_bind_lift _ _ _ _ eq_refl), M_bind_modify.
  set (s1 := set_ver (<[p := Node (Servver b (<[k := v]> junk)) q]> (ver_cells s)) (ver_top s) s).
  assert (∀ l, ver_rep s l → ver_rep s1 l) as Hrep.
  { intros l Hl. pose proof (Hfree l Hl). destruct Hl as [Hc Hnd Hok]. split; [|done|done]. by apply chain_insert. }
  assert (∀ l, ver_rep s1 l → p ∉ l.*1) as Hfree1.
  { intros l Hl Hin. destruct Hs as (l0 & Hl0 & _). pose proof (vr_chain _ _ (Hrep l0 Hl0)) as Hc0. pose proof (vr_chain _ _ Hl) as Hc.
    rewrite (chain_unique _ _ _ _ Hc Hc0) in Hin.
    by apply (Hfree l0 Hl0). }
  destruct (push_servver_hold s1 h p (Servver b (<[k := v]> junk)) q k v) as (h' & t' & E & H' & _);
    [destruct Hs as (l & Hl & Hh); exists l; split; [by apply Hrep|done]|done|apply lookup_insert_eq|done|done| |split; [congruence|done]|].
  { cbn. apply list_lookup_insert_eq. lia. }
  exists h', t'. split; [exact E|]. cbn [sv_ip] in H'. by rewrite Etext in H'.
Qed.

(** The list is only the nodes and the top. *)
Lemma ver_rep_ext s s' l :
  ver_cells s' = ver_cells s → ver_top s' = ver_top s → ver_rep s l → ver_rep s' l.
Proof. intros E1 E2 [Hc Hnd Hok]. split; [by rewrite E1, E2|done|done]. Qed.

Lemma versions_hold_ext s s' h :
  ver_cells s' = ver_cells s → ver_top s' = ver_top s → versions_hold s h → versions_hold s' h.
Proof. intros E1 E2 (l & Hl & Hh). exists l. split; [by eapply ver_rep_ext|done]. Qed.

(** The node of a new result is in no list. *)
Lemma prepare_servversion_ok s h junk ip :
  versions_hold s h → 16 ≤ Z.of_nat (length ip) →
  ∃ a s', prepare_servversion_rslt junk ip s = Done (Some a, s') ∧ versions_hold s' h ∧
    (∀ l, ver_rep s' l → a ∉ l.*1) ∧ ver_cells s' !! a = Some (Node (Servver (take 16 ip) junk) None) ∧
    ver_bufs s' = ver_bufs s ∧ ver_socks s' = ver_socks s.
Proof.
  intros (l & [Hc Hnd Hok] & Hh) Hlen. unfold prepare_servversion_rslt, INET_ADDRSTRLEN.
  rewrite (M_bind_lift _ _ _ _ (mem_read_ok ip 16 ltac:(lia))), !M_bind_gets, M_bind_modify. do 2 eexists. split; [done|].
  pose proof (chain_fresh _ _ _ Hc) as Hfr. cbn [ver_cells ver_top ver_bufs ver_socks set_ver].
  assert (chain (<[new_addr (ver_cells s) := Node (Servver (take 16 ip) junk) None]> (ver_cells s)) (ver_top s) l) as Hc'
    by (by apply chain_insert).
  split; [exists l; split; [by split|done]|]. split; [|split; [apply lookup_insert_eq|done]].
  intros l' [Hc1 _ _]. cbn in Hc1. by rewrite (chain_unique _ _ _ _ Hc1 Hc').
Qed.

(** What a call with a live connection records, whatever the service. *)
Lemma version_detection_answered s h c stack junk portno ip k send pick d v text :
  versions_hold s h → 16 ≤ Z.of_nat (length ip) → 0 ∈ take 16 ip → junk_ok junk →
  0 <= p_socket c → p_resolves c = true → 0 <= p_connect c →
  service c portno = Some (k, send, pick) → (k < 6)%nat → send = Done SUCCESS →
  p_recv c = Some d → d ≠ [] → pick stack (answer d) = Done (Some v) →
  c_str v = Done text → (length text < VERSION_LEN)%nat →
  ∃ s', version_detection c stack junk portno ip s = Done (TRUE, s') ∧
    versions_hold s' (h ++ [(ip_text (take 16 ip), (k, text))]) ∧
    ver_bufs s' = ver_bufs s ∧ ver_socks s' = ver_socks s.
Proof.
  intros Hs Hlen Hip Hj Hsock Hres Hconn Hsvc Hk -> Hrecv Hd Hpick Hv Htext.
  unfold version_detection. rewrite M_bind_gets, M_bind_modify.
  destruct (prepare_servversion_ok (set_bufs (ver_bufs s + 1) s) h junk ip) as (a & s1 & E1 & H1 & Hfree & Ha & Eb & Es);
    [by eapply versions_hold_ext; [| |exact Hs]|done|].
  run E1. unfold new_socket. rewrite (proj2 (Z.ltb_ge (p_socket c) 0)) by done.
  rewrite Hsvc, Hres, (proj2 (Z.ltb_ge (p_connect c) 0)), Hrecv, (recvData_ok d Hd) by done.
  set (s2 := set_socks (ver_socks s1 + 1) s1).
  assert (((n ← gets ver_socks; modify (set_socks (n + 1)));; mret (p_socket c)) s1 = Done (p_socket c, s2)) as E2 by done.
  run E2. rewrite (proj2 (Z.ltb_ge (p_socket c) 0)) by done. cbn [negb].
  rewrite (M_bind_lift _ _ _ _ eq_refl). cbn [SUCCESS FAILURE Z.eqb]. rewrite (M_bind_lift _ _ _ _ eq_refl). cbn [Z.eqb SUCCESS FAILURE].
  rewrite (M_bind_lift _ _ _ _ Hpick). cbn [local_str]. rewrite (M_bind_lift _ _ _ _ eq_refl).
  destruct (record_version_hold s2 h a (take 16 ip) junk None k v text) as (h' & t' & E3 & H3);
    [by eapply versions_hold_ext; [| |exact H1]|by intros l Hl; apply Hfree; by eapply ver_rep_ext; [| |exact Hl]|done..|].
  run E3. eexists. split; [done|]. split; [by eapply versions_hold_ext; [| |exact H3]|].
  cbn. rewrite Eb, Es. cbn. lia.
Qed.

(** The fault of picking is the fault of the call. *)
Lemma version_detection_pick_fault s h c stack junk portno ip k send pick d e :
  versions_hold s h → 16 ≤ Z.of_nat (length ip) →
  0 <= p_socket c → p_resolves c = true → 0 <= p_connect c →
  service c portno = Some (k, send, pick) → send = Done SUCCESS → p_recv c = Some d → d ≠ [] →
  (v ← pick stack (answer d); local_str v) = Fault e →
  version_detection c stack junk portno ip s = Fault e.
Proof.
  intros Hs Hlen Hsock Hres Hconn Hsvc -> Hrecv Hd Hpick.
  unfold version_detection. rewrite M_bind_gets, M_bind_modify.
  destruct (prepare_servversion_ok (set_bufs (ver_bufs s + 1) s) h junk ip) as (a & s1 & E1 & _);
    [by eapply versions_hold_ext; [| |exact Hs]|done|].
  run E1. unfold new_socket. rewrite (proj2 (Z.ltb_ge (p_socket c) 0)) by done.
  rewrite Hsvc, Hres, (proj2 (Z.ltb_ge (p_connect c) 0)), Hrecv, (recvData_ok d Hd) by done.
  assert (((n ← gets ver_socks; modify (set_socks (n + 1)));; mret (p_socket c)) s1 =
          Done (p_socket c, set_socks (ver_socks s1 + 1) s1)) as E2 by done.
  run E2. rewrite (proj2 (Z.ltb_ge (p_socket c) 0)) by done. cbn [negb].
  rewrite (M_bind_lift _ _ _ _ eq_refl). cbn [SUCCESS FAILURE Z.eqb]. rewrite (M_bind_lift _ _ _ _ eq_refl). cbn [Z.eqb SUCCESS FAILURE].
  destruct (pick stack (answer d)) as [v|f|]; cbn [mbind outcome_bind] in Hpick.
  - rewrite (M_bind_lift _ _ _ _ eq_refl). destruct v; cbn [local_str] in *; [done|]. injection Hpick as <-. done.
  - injection Hpick as <-. done.
  - done.
Qed.

Lemma c_str_inj b s t : c_str b = Done s → c_str b = Done t → s = t.
Proof. intros -> [= ->]. done. Qed.

Lemma pick_line portno text k rest c :
  line_of portno text = Some (k, rest) → ∃ send pick, service c portno = Some (k, send, pick) ∧ (k < 6)%nat ∧
    (portno = 22 → send = Done SUCCESS) ∧
    ∀ stack b, c_str b = Done text →
      if (line_room rest <=? length stack)%nat
      then ∃ v, pick stack b = Done (Some v) ∧ c_str v = Done (first_line rest)
      else pick stack b = Fault OutOfBounds.
Proof.
  assert (∀ stack b p text, c_str b = Done text → (p ≤ length text)%nat →
    if (line_room (drop p text) <=? length stack)%nat
    then ∃ v, (u ← copy_line (drop p b) stack; mret (Some u)) = Done (Some v) ∧ c_str v = Done (first_line (drop p text))
    else (u ← copy_line (drop p b) stack; mret (Some u)) = Fault OutOfBounds) as Hcopy.
  { intros stack b p txt Hb Hp. pose proof (copy_line_spec (drop p b) (drop p txt) stack (c_str_drop _ _ p Hb Hp)) as H.
    destruct (_ <=? _)%nat; [destruct H as (v & -> & Hv & _); by exists v|by rewrite H]. }
  unfold line_of, service. cbv zeta. destruct (Z.eqb_spec portno 22) as [->|H22].
  - intros [= <- <-]. do 2 eexists. split; [done|]. split; [unfold SSH; lia|]. split; [done|]. intros stack b Hb.
    apply (Hcopy stack b O text Hb). lia.
  - assert (∀ name skip kk, nonzero (bytes name) →
      match find_sub (bytes name) text with
      | Some p => if (p + skip <=? length text)%nat then Some (kk, drop (p + skip) text) else None
      | None => None end = Some (k, rest) → kk = k ∧ ∀ stack b, c_str b = Done text →
      if (line_room rest <=? length stack)%nat
      then ∃ v, named_version (c_lit name) skip stack b = Done (Some v) ∧ c_str v = Done (first_line rest)
      else named_version (c_lit name) skip stack b = Fault OutOfBounds) as Hnamed.
    { intros name skip kk Hnz H. destruct (find_sub (bytes name) text) as [p|] eqn:Ef; [|done].
      destruct (Nat.leb_spec (p + skip) (length text)) as [Hle|]; [|done]. injection H as <- <-. split; [done|].
      intros stack b Hb. unfold named_version, strstr. rewrite Hb, (c_str_lit _ Hnz). cbn [mbind outcome_bind mret outcome_ret].
      rewrite Ef. by apply Hcopy. }
    destruct (Z.eqb_spec portno 43) as [->|H43]; [|destruct (Z.eqb_spec portno 80) as [->|H80]; [|done]];
      intros H; apply Hnamed in H as [<- Hn]; try (apply (bool_decide_unpack _); vm_compute; reflexivity);
      do 2 eexists; (split; [done|]); (split; [unfold WHOIS, HTTP; lia|]); (split; [done|]); exact Hn.
Qed.

(** C40: for the services whose version is a line (SSH; WHOIS and HTTP, where
    the line follows a name in the answer) a call that connects stores exactly
    that line when it fits the 50 bytes with its NUL - and one byte more when
    no newline ends it -, gives back its buffer and socket and returns TRUE;
    a longer line overflows the local buffer. *)
Theorem version_detection_line s h c stack junk portno ip d k rest :
  versions_hold s h → 16 ≤ Z.of_nat (length ip) → 0 ∈ take 16 ip → junk_ok junk → length stack = VERSION_LEN →
  0 <= p_socket c → p_resolves c = true → 0 <= p_connect c → p_recv c = Some d → d ≠ [] →
  line_of portno (arrived d) = Some (k, rest) →
  (∀ k' send pick, service c portno = Some (k', send, pick) → send = Done SUCCESS) →
  if (line_room rest <=? VERSION_LEN)%nat
  then ∃ s', version_detection c stack junk portno ip s = Done (TRUE, s') ∧
         versions_hold s' (h ++ [(ip_text (take 16 ip), (k, first_line rest))]) ∧
         ver_bufs s' = ver_bufs s ∧ ver_socks s' = ver_socks s
  else version_detection c stack junk portno ip s = Fault OutOfBounds.
Proof.
  intros Hs Hlen Hip Hj Hstack Hsock Hres Hconn Hrecv Hd Hline Hsend.
  destruct (pick_line portno (arrived d) k rest c Hline) as (send & pick & Hsvc & Hk & _ & Hpick).
  specialize (Hpick stack (answer d) (answer_text d)). rewrite Hstack in Hpick. pose proof (Hsend _ _ _ Hsvc) as Hok.
  destruct (Nat.leb_spec (line_room rest) VERSION_LEN) as [Hle|Hgt].
  - destruct Hpick as (v & Ev & Hv). eapply version_detection_answered; try done.
    unfold line_room in Hle. destruct (_ <? _)%nat; lia.
  - eapply version_detection_pick_fault; try done. by rewrite Hpick.
Qed.

(** ** Examples *)

Definition sample_peer (d : list Z) : peer :=
  Peer 3 true 0 (Some d) (λ _ n, n) (Some (bytes "GET / HTTP/1.0" ++ [13; 10; 13; 10])) (λ _, true).
Definition sample_junk : list (list Z) := replicate 6 (replicate VERSION_LEN 7).
Definition sample_stack : list Z := replicate VERSION_LEN 7.
Definition sample_ip : list Z := bytes "10.0.0.1" ++ replicate 8 0.
Definition ssh_banner : list Z := bytes "SSH-2.0-OpenSSH_8.9p1" ++ [13; 10].

Lemma no_versions : versions_hold ver_zero [].
Proof. exists []. split; [split; [done|apply NoDup_nil_2|constructor]|]. split; [done|apply NoDup_nil_2|constructor]. Qed.

Lemma version_detection_line_witness : ∃ s',
  version_detection (sample_peer ssh_banner) sample_stack sample_junk 22 sample_ip ver_zero = Done (TRUE, s') ∧
  versions_hold s' [(bytes "10.0.0.1", (SSH, bytes "SSH-2.0-OpenSSH_8.9p1" ++ [13]))] ∧ ver_bufs s' = 0 ∧ ver_socks s' = 0.
Proof.
  apply (version_detection_line ver_zero [] (sample_peer ssh_banner) sample_stack sample_junk 22 sample_ip ssh_banner SSH ssh_banner).
  - exact no_versions.
  - vm_compute. discriminate.
  - apply (bool_decide_unpack _). vm_compute. reflexivity.
  - split; [reflexivity|]. apply (bool_decide_unpack _). vm_compute. reflexivity.
  - reflexivity.
  - vm_compute. discriminate.
  - reflexivity.
  - vm_compute. discriminate.
  - reflexivity.
  - discriminate.
  - vm_compute. reflexivity.
  - intros k' send pick H. injection H as <- <- <-. reflexivity.
Defined.

Definition sample_servver : servver_result_t := Servver sample_ip (<[SSH := bytes "v2" ++ replicate 48 0]> (replicate 6 (replicate 50 0))).
Definition sample_ver : ver_state := Ver {[ 5%positive := Node sample_servver None ]} None 0 0.
Lemma push_servver_result_history_witness : ∃ s',
  push_servver_result (Some 5%positive) SSH sample_ver = Done (tt, s') ∧
  versions_hold s' [(bytes "10.0.0.1", (SSH, bytes "v2"))] ∧ isversion_needed 22 sample_ip s' = Done (false, s').
Proof.
  destruct (push_servver_result_history sample_ver [] 5%positive sample_servver None SSH (bytes "v2" ++ replicate 48 0))
    as (s' & E & H & _ & Hn).
  - exists []. split; [split; [reflexivity|apply NoDup_nil_2|constructor]|]. split; [done|apply NoDup_nil_2|constructor].
  - intros [|[a x] l] [Hc _ _]; [apply not_elem_of_nil|by destruct Hc].
  - reflexivity.
  - apply (bool_decide_unpack _). vm_compute. reflexivity.
  - apply Nat.lt_0_succ.
  - reflexivity.
  - split; [reflexivity|]. apply (bool_decide_unpack _). vm_compute. reflexivity.
  - exists s'. split; [exact E|]. split; [exact H|].
    rewrite (Hn 22 sample_ip); [reflexivity|left|apply (bool_decide_unpack _); vm_compute; reflexivity].
Defined.

(** A host that refuses the connection keeps one buffer and one socket of the
    scanner, every time. *)
Lemma refused_connection_leaks : ∃ s',
  version_detection (Peer 3 true (-1) None (λ _ n, n) None (λ _, true)) sample_stack sample_junk 22 sample_ip ver_zero =
    Done (FALSE, s') ∧ ver_bufs s' = 1 ∧ ver_socks s' = 1.
Proof. eexists. split; [vm_compute; reflexivity|done]. Qed.

(** An answer of a web server without a Server line: the local string is read
    although nothing was stored in it. *)
Lemma missing_name_uninitialised :
  version_detection (sample_peer (bytes "HTTP/1.0 200 OK")) sample_stack sample_junk 80 sample_ip ver_zero = Fault Uninitialised.
Proof. vm_compute. reflexivity. Qed.

(** The usual greeting of an IMAP server: the copy of the answer has no NUL,
    and [strtok] reads past its end. *)
Lemma imap_greeting_overread :
  version_detection (sample_peer (bytes "* OK IMAP4rev1 ready")) sample_stack sample_junk 143 sample_ip ver_zero = Fault OutOfBounds.
Proof. vm_compute. reflexivity. Qed.

(** A peer that closes the connection at once: the result node and the socket
    are kept. *)
Lemma closed_connection_leaks : ∃ s',
  version_detection (sample_peer []) sample_stack sample_junk 22 sample_ip ver_zero = Done (FALSE, s') ∧
    ver_top s' = None ∧ size (ver_cells s') = 1%nat ∧ ver_socks s' = 1.
Proof. eexists. split; [vm_compute; reflexivity|done]. Qed.
