(* ===== verification/PsThread.v ===== *)
(** * A scanning thread (portscan/ps_scan.c, [ps_threaded])

    What one thread does for a job: it sends, polls two sockets until the
    right packet arrives or time is up, and repeats at most three times.  What
    [poll], [recvfrom] and the clock return is an argument: the list of polls
    of each attempt.  How the threads share the lists is in PsRace.  The theorems follow the
    definitions. *)

From S2P Require Import Prelude CString PsText PsBytes PsList PsSetup PsJobs PsResults PsScan PsScanSpec.
From stdpp Require Import gmap strings.

Open Scope Z_scope.

Definition MAX_RECEIVE_BUFFER : nat := 1024.
Definition PORT_NO : Z := 12345.

(** ** Time (lines 757-767) *)

(** Whole seconds between two readings of the clock, in milliseconds; the
    [long] is cut to an [int]. *)
Definition get_timediff (now start : Z * Z) : outcome Z :=
  '(sec, _, _) ← timeval_diff now start;
  mret ((sec * 1000 + 2 ^ 31) mod 2 ^ 32 - 2 ^ 31).

(** ** One attempt (lines 551-686) *)

(** What a call of [poll] leads to: an error, a timeout, or packets on the
    first (TCP/UDP) and the second (ICMP) socket, with the time at which they
    are looked at. *)
Inductive poll_event :=
  | PollError
  | PollTimeout
  | PollReady (pkt icmp : option (list Z)) (now : Z * Z).

Inductive action_t := RETRY | GOT_PKT.

(** What the code makes of a packet. *)
Inductive seen := Expected | Wrong | Other.

(** [recvbuffer] after [bzero] and [recvfrom]. *)
Definition received (d : list Z) (recvbuffer : list Z) : outcome (list Z) :=
  mem_write recvbuffer 0 (take MAX_RECEIVE_BUFFER d).

(** [sprintf] of the source address, compared with the address of the job. *)
Definition from_job (buf : list Z) (job : job_t) : outcome bool :=
  src ← mem_read (drop 12 buf) 4;
  ip ← c_str (j_ip job);
  mret (bool_decide (dotted src = ip)).
Definition port16 (buf : list Z) (i : nat) : outcome Z :=
  hi ← rd buf i; lo ← rd buf (i + 1); mret (256 * hi + lo).

(** Lines 574-651: is it the packet expected; and how many address texts
    stay allocated (the branch for UDP never frees its text). *)
Definition look_at_packet (job : job_t) (thread_portno : Z) (buf : list Z) : outcome (seen * nat) :=
  vihl ← rd buf 0;
  let ihl := vihl mod 16 * 4 in
  if ihl <? MIN_IP_HEADER_LEN then mret (Wrong, O)
  else
    protocol ← rd buf 9;
    if (protocol =? 6) || (protocol =? 17) then
      same ← from_job buf job;
      source ← port16 buf (Z.to_nat ihl);
      dest ← port16 buf (Z.to_nat ihl + 2);
      mret (if (same : bool) && (source =? j_portno job) && (dest =? thread_portno) then Expected else Wrong,
            if protocol =? 17 then 1%nat else O)
    else mret (Other, O).

(** Lines 656-683. *)
Definition look_at_icmp (job : job_t) (buf : list Z) : outcome seen :=
  vihl ← rd buf 0;
  type ← rd buf (Z.to_nat (vihl mod 16 * 4));
  same ← from_job buf job;
  mret (if negb (type =? 3) || negb same then Wrong else Expected).

(** [None]: the thread still waits when the events end.  A negative timeout
    makes [poll] wait without limit, so that no timeout comes. *)
Fixpoint recv_loop (job : job_t) (thread_portno : Z) (start : Z * Z) (events : list poll_event) (ms_timeout : Z) (leaked : nat)
  : outcome (option (action_t * list Z) * Z * nat) :=
  let recvbuffer := replicate MAX_RECEIVE_BUFFER 0 in
  match events with
  | [] => Done (None, ms_timeout, leaked)
  | PollError :: _ => Done (Some (RETRY, recvbuffer), ms_timeout, leaked)
  | PollTimeout :: events' =>
      if ms_timeout <? 0 then recv_loop job thread_portno start events' ms_timeout leaked
      else Done (Some (RETRY, recvbuffer), ms_timeout, leaked)
  | PollReady pkt icmp now :: events' =>
      '(s1, leak, buf) ← match pkt with
                        | None => Done (Other, O, recvbuffer)
                        | Some d => buf ← received d recvbuffer;
                                    '(s, n) ← look_at_packet job thread_portno buf; mret (s, n, buf)
                        end;
      '(s2, buf) ← match s1, icmp with
                  | Other, Some d => buf' ← received d buf; s ← look_at_icmp job buf'; mret (s, buf')
                  | s, _ => Done (s, buf)
                  end;
      let leaked := (leaked + leak)%nat in
      match s2 with
      | Expected => mret (Some (GOT_PKT, buf), ms_timeout, leaked)
      | Other => recv_loop job thread_portno start events' ms_timeout leaked
      | Wrong =>
          diff ← get_timediff now start;
          ms_timeout ← int_add ms_timeout (- diff);
          if ms_timeout <? 4000 then recv_loop job thread_portno start events' ms_timeout leaked
          else mret (Some (RETRY, buf), ms_timeout, leaked)
      end
  end.

(** ** A job (lines 437-745) *)

Section thread.
Context (getservbyport : Z → bool → option (list Z)).

(** The attempts from [retry] on; the result says whether the job ended. *)
Fixpoint thread_job (fuel : nat) (stack : list Z) (thread_id : Z) (job : job_t)
    (start : Z → Z * Z) (attempts : Z → list poll_event) (retry : Z) : M ps_state bool :=
  '(r, _, _) ← lift (recv_loop job (PORT_NO + thread_id) (start retry) (attempts retry) 4000 0);
  match r with
  | None => mret false
  | Some (RETRY, _) =>
      if retry <? MAX_RETRY_COUNT then
        match fuel return M ps_state bool with
        | O => λ _, NoFuel
        | S f => thread_job f stack thread_id job start attempts (retry + 1)
        end
      else timeout_result getservbyport job;; mret true
  | Some (GOT_PKT, recvbuffer) => got_packet getservbyport stack job false recvbuffer;; mret true
  end.
End thread.

(** ** What a thread records for a job (properties of PsThread)

    A thread accepts only packets whose source address is the job's; it ends a
    job with the verdict on such a packet or, after four attempts without one,
    with the value of a silent port.  Its buffer has a fixed size, so that no
    packet makes it read out of bounds. *)

(** ** Time *)

(** The clock of a poll, in milliseconds since the start. *)
Definition elapsed (start : Z * Z) (e : poll_event) : Z :=
  match e with
  | PollReady _ _ now => match get_timediff now start with Done d => d | _ => 0 end
  | _ => 0
  end.
(** The clock does not run backwards, and its differences stay in an [int]. *)
Definition clock_ok (start : Z * Z) (events : list poll_event) : Prop :=
  Forall (λ e, 0 <= elapsed start e) events ∧ foldr (λ e n, elapsed start e + n) 0 events <= int_max.

Lemma get_timediff_done now start : ∃ d, get_timediff now start = Done d.
Proof.
  unfold get_timediff, timeval_diff. cbn zeta.
  destruct (borrow_loop_ok (Z.to_nat (Z.abs (now.2 - start.2))) (now.1 - start.1) (now.2 - start.2))
    as (k & _ & E & _); [lia|]. rewrite E. cbn. by eexists.
Qed.

Lemma get_timediff_elapsed now start pkt icmp : get_timediff now start = Done (elapsed start (PollReady pkt icmp now)).
Proof. unfold elapsed. by destruct (get_timediff_done now start) as [d ->]. Qed.

(** ** Packets *)

Lemma received_ok d : ∃ b, received d (replicate MAX_RECEIVE_BUFFER 0) = Done b ∧ length b = MAX_RECEIVE_BUFFER.
Proof.
  unfold received. pose proof (firstn_le_length MAX_RECEIVE_BUFFER d) as Hl.
  rewrite mem_write_ok by (rewrite length_replicate; lia). eexists. split; [done|].
  rewrite length_splice; rewrite length_replicate; lia.
Qed.
Lemma received_again d b : length b = MAX_RECEIVE_BUFFER → ∃ b', received d b = Done b' ∧ length b' = MAX_RECEIVE_BUFFER.
Proof.
  intros Hb. unfold received. pose proof (firstn_le_length MAX_RECEIVE_BUFFER d) as Hl.
  rewrite mem_write_ok by lia. eexists. split; [done|]. rewrite length_splice; lia.
Qed.

(** The source address in the IP header is the job's. *)
Definition from_host (job : job_t) (buf : list Z) : Prop :=
  dotted (take 4 (drop 12 buf)) = ip_text (j_ip job).
#[export] Instance from_host_dec job buf : Decision (from_host job buf).
Proof. unfold from_host. apply _. Defined.

Lemma from_job_ok job buf :
  job_ok job → length buf = MAX_RECEIVE_BUFFER → from_job buf job = Done (bool_decide (from_host job buf)).
Proof.
  intros (_ & H0 & _) Hb. unfold from_job. unfold MAX_RECEIVE_BUFFER in Hb.
  rewrite (mem_read_ok (drop 12 buf) 4) by (rewrite length_drop; lia). cbn [mbind outcome_bind].
  by rewrite c_str_ip_text.
Qed.

Lemma port16_ok buf i : (i + 1 < length buf)%nat → port16 buf i = Done (256 * byte_at buf i + byte_at buf (i + 1)).
Proof. intros H. unfold port16. rewrite !rd_byte by lia. done. Qed.

Lemma header_len_bound v : (Z.to_nat (v mod 16 * 4) ≤ 60)%nat.
Proof. pose proof (Z.mod_pos_bound v 16 ltac:(lia)). lia. Qed.

(** The packets that end an attempt are the job's. *)
Lemma look_at_packet_ok job tp buf :
  job_ok job → length buf = MAX_RECEIVE_BUFFER →
  ∃ s n, look_at_packet job tp buf = Done (s, n) ∧ (s = Expected → from_host job buf).
Proof.
  intros Hjob Hb. unfold look_at_packet. assert (length buf = 1024%nat) as Hb' by done.
  rewrite (rd_byte buf 0) by lia. cbn [mbind outcome_bind]. pose proof (header_len_bound (byte_at buf 0)) as Hh.
  set (ihl := byte_at buf 0 mod 16 * 4) in *. destruct (ihl <? MIN_IP_HEADER_LEN); [by do 2 eexists|].
  rewrite rd_byte by lia. cbn [mbind outcome_bind]. destruct ((byte_at buf 9 =? 6) || (byte_at buf 9 =? 17)); [|by do 2 eexists].
  rewrite from_job_ok by done. cbn [mbind outcome_bind]. rewrite !port16_ok by lia. cbn [mbind outcome_bind mret outcome_ret].
  do 2 eexists. split; [done|]. case_bool_decide as E; [done|cbn; discriminate].
Qed.

Lemma look_at_icmp_ok job buf :
  job_ok job → length buf = MAX_RECEIVE_BUFFER →
  ∃ s, look_at_icmp job buf = Done s ∧ (s = Expected → from_host job buf) ∧ s ≠ Other.
Proof.
  intros Hjob Hb. unfold look_at_icmp. assert (length buf = 1024%nat) as Hb' by done.
  rewrite (rd_byte buf 0) by lia. cbn [mbind outcome_bind]. pose proof (header_len_bound (byte_at buf 0)) as Hh.
  rewrite rd_byte by lia. cbn [mbind outcome_bind]. rewrite from_job_ok by done. cbn [mbind outcome_bind mret outcome_ret].
  eexists. split; [done|]. case_bool_decide as E; cbn [negb]; destruct (negb _); cbn; split; done.
Qed.

(** ** An attempt *)

Lemma recv_loop_ok job tp start : job_ok job → ∀ events ms leaked,
  Forall (λ e, 0 <= elapsed start e) events → ms <= int_max →
  int_min <= ms - foldr (λ e n, elapsed start e + n) 0 events →
  ∃ r ms' leaked', recv_loop job tp start events ms leaked = Done (r, ms', leaked') ∧
    ∀ b, r = Some (GOT_PKT, b) → length b = MAX_RECEIVE_BUFFER ∧ from_host job b.
Proof.
  intros Hjob. induction events as [|e events IH]; intros ms leaked Hpos Hmax Hmin; cbn [recv_loop].
  { do 3 eexists. split; [done|]. done. }
  apply Forall_cons in Hpos as [He Hpos]. cbn [foldr] in Hmin.
  assert (0 <= foldr (λ e n, elapsed start e + n) 0 events) as Hsum.
  { clear -Hpos. induction Hpos; cbn; lia. }
  destruct e as [| |pkt icmp now].
  - do 3 eexists. split; [done|]. done.
  - change (elapsed start PollTimeout) with 0 in Hmin. destruct (ms <? 0); [apply IH; [done|lia|lia]|]. do 3 eexists. split; [done|]. done.
  - assert (∃ s1 leak buf, match pkt with
                        | None => Done (Other, O, replicate MAX_RECEIVE_BUFFER 0)
                        | Some d => buf ← received d (replicate MAX_RECEIVE_BUFFER 0);
                                    '(s, n) ← look_at_packet job tp buf; mret (s, n, buf)
                        end = Done (s1, leak, buf) ∧ length buf = MAX_RECEIVE_BUFFER ∧ (s1 = Expected → from_host job buf))
      as (s1 & leak & buf & E1 & Hb & Hs1).
    { destruct pkt as [d|]; [|by do 3 eexists]. destruct (received_ok d) as (b & -> & Hb). cbn [mbind outcome_bind].
      destruct (look_at_packet_ok job tp b Hjob Hb) as (s & n & -> & H). cbn. by do 3 eexists. }
    rewrite E1. cbn [mbind outcome_bind].
    assert (∃ s2 buf2, match s1, icmp with
                  | Other, Some d => buf' ← received d buf; s ← look_at_icmp job buf'; mret (s, buf')
                  | s, _ => Done (s, buf)
                  end = Done (s2, buf2) ∧ length buf2 = MAX_RECEIVE_BUFFER ∧ (s2 = Expected → from_host job buf2))
      as (s2 & buf2 & E2 & Hb2 & Hs2).
    { destruct s1; [by do 2 eexists|by do 2 eexists|]. destruct icmp as [d|]; [|by do 2 eexists].
      destruct (received_again d buf Hb) as (b & -> & Hb'). cbn [mbind outcome_bind].
      destruct (look_at_icmp_ok job b Hjob Hb') as (s & -> & H & _). cbn. by do 2 eexists. }
    rewrite E2. cbn [mbind outcome_bind]. destruct s2.
    + do 3 eexists. split; [done|]. intros b [= <-]. split; [done|by apply Hs2].
    + rewrite (get_timediff_elapsed now start pkt icmp). cbn [mbind outcome_bind].
      rewrite int_add_ok by lia. cbn [mbind outcome_bind].
      destruct (ms + - elapsed start (PollReady pkt icmp now) <? 4000); [apply IH; [done|lia|lia]|].
      do 3 eexists. split; [done|]. done.
    + apply IH; [done|lia|lia].
Qed.

(** ** A job *)

(** The events of the attempts from [retry] on, [n] retries left; [None]: the
    thread still waits. *)
Fixpoint thread_events (n : nat) (job : job_t) (tp : Z) (start : Z → Z * Z) (attempts : Z → list poll_event) (retry : Z)
  : option (list push_event) :=
  match recv_loop job tp (start retry) (attempts retry) 4000 0 with
  | Done (Some (GOT_PKT, b), _, _) => Some (verdict job false b)
  | Done (Some (RETRY, _), _, _) =>
      match n with
      | O => Some [event job (j_portno job) (silence (j_scan_type job))]
      | S n' => thread_events n' job tp start attempts (retry + 1)
      end
  | _ => None
  end.

Section thread.
Context (getservbyport : Z → bool → option (list Z)).

Lemma thread_job_ok stack id job start attempts :
  length stack = 16%nat → job_ok job → (∀ i, clock_ok (start i) (attempts i)) → ∀ n fuel retry s l h,
  retry + Z.of_nat n = 3 → (n ≤ fuel)%nat → table_on False (result_list s) l h → Z.of_nat (length h) < int_max →
  match thread_events n job (PORT_NO + id) start attempts retry with
  | None => thread_job getservbyport fuel stack id job start attempts retry s = Done (false, s)
  | Some es => ∃ L l', thread_job getservbyport fuel stack id job start attempts retry s = Done (true, set_result_list L s) ∧
                       table_on False L l' (h ++ es)
  end.
Proof.
  intros Hstack Hjob Hclock. induction n as [|n IH]; intros fuel retry s l h Hn Hf HL Hmax;
    (destruct fuel as [|fuel]; [try lia|]); cbn [thread_job thread_events];
    destruct (Hclock retry) as [Hpos Hsum];
    destruct (recv_loop_ok job (PORT_NO + id) (start retry) Hjob (attempts retry) 4000 0 Hpos)
      as (r & ms & lk & E & Hgot); try (change int_min with (-2147483648) in *; change int_max with 2147483647 in *; lia); rewrite E, (M_bind_lift _ _ _ _ eq_refl);
    (destruct r as [[[] b]|]; [| |done]).
  1, 3: unfold MAX_RETRY_COUNT; rewrite (proj2 (Z.ltb_ge _ _)) by lia;
    destruct (timeout_result_ok getservbyport False job s l h Hjob HL Hmax) as (L & l' & E1 & H1);
    rewrite (M_seq _ _ _ _ E1); by exists L, l'.
  3: unfold MAX_RETRY_COUNT; rewrite (proj2 (Z.ltb_lt _ _)) by lia; eapply IH; eauto; lia.
  all: destruct (Hgot b eq_refl) as [Hb _];
    destruct (got_packet_ok getservbyport False stack job false b s l h Hstack Hjob) as (L & l' & E1 & H1);
    [unfold readable, MAX_RECEIVE_BUFFER in *; cbn; lia|done|done|];
    rewrite (M_seq _ _ _ _ E1); by exists L, l'.
Qed.

(** What a job that ends comes to: the verdict on the packet that ended the
    attempt [i], or four attempts without a packet. *)
Lemma thread_events_are job tp start attempts es : ∀ n retry,
  thread_events n job tp start attempts retry = Some es →
  (∃ i b ms lk, retry <= i <= retry + Z.of_nat n ∧
     recv_loop job tp (start i) (attempts i) 4000 0 = Done (Some (GOT_PKT, b), ms, lk) ∧ es = verdict job false b) ∨
  (es = [event job (j_portno job) (silence (j_scan_type job))] ∧
   ∀ i, retry <= i <= retry + Z.of_nat n → ∃ b ms lk,
     recv_loop job tp (start i) (attempts i) 4000 0 = Done (Some (RETRY, b), ms, lk)).
Proof.
  induction n as [|n IH]; intros retry; cbn [thread_events];
    destruct (recv_loop job tp (start retry) (attempts retry) 4000 0) as [[[[[[] b]|] ms] lk]| |] eqn:E; try done.
  - intros [= <-]. right. split; [done|]. intros i Hi. replace i with retry by lia. by do 3 eexists.
  - intros [= <-]. left. exists retry, b, ms, lk. split; [lia|done].
  - intros [(i & b' & ms' & lk' & Hi & H)|[He H]]%IH; [left; exists i, b', ms', lk'; split; [lia|done]|right].
    split; [done|]. intros i Hi. destruct (decide (i = retry)) as [->|Hne]; [by do 3 eexists|apply H; lia].
  - intros [= <-]. left. exists retry, b, ms, lk. split; [lia|done].
Qed.

Lemma thread_events_wait job tp start attempts :
  (∀ i, ∃ r ms lk, recv_loop job tp (start i) (attempts i) 4000 0 = Done (r, ms, lk)) → ∀ n retry,
  thread_events n job tp start attempts retry = None →
  ∃ i, retry <= i <= retry + Z.of_nat n ∧ ∃ ms lk, recv_loop job tp (start i) (attempts i) 4000 0 = Done (None, ms, lk).
Proof.
  intros Hr. induction n as [|n IH]; intros retry; cbn [thread_events]; destruct (Hr retry) as (r & ms & lk & E); rewrite E;
    (destruct r as [[[] b]|]; try done).
  1, 3: intros _; exists retry; split; [lia|by exists ms, lk].
  intros (i & Hi & H)%IH. exists i. split; [lia|done].
Qed.

(** C16: whatever arrives, while the clock does not run backwards ([clock_ok]),
    a thread does nothing undefined.  While it waits it
    has recorded nothing, and one of its four attempts waits.  A job that ends has recorded the verdict on one packet
    whose source is the address of the job, which is one value, or none for the
    packets that [verdict] has no value for; or, when each of the four
    attempts ended without such a packet, the value of a silent port. *)
Theorem thread_job_records stack id job start attempts s h :
  length stack = 16%nat → job_ok job → (∀ i, clock_ok (start i) (attempts i)) →
  results_hold s h → Z.of_nat (length h) < int_max →
  let recv i := recv_loop job (PORT_NO + id) (start i) (attempts i) 4000 0 in
  match thread_events 3 job (PORT_NO + id) start attempts 0 with
  | None => thread_job getservbyport 3 stack id job start attempts 0 s = Done (false, s) ∧
            ∃ i ms lk, 0 <= i <= 3 ∧ recv i = Done (None, ms, lk)
  | Some es =>
      ∃ s', thread_job getservbyport 3 stack id job start attempts 0 s = Done (true, s') ∧ results_hold s' (h ++ es) ∧
        ((∃ i b ms lk, 0 <= i <= 3 ∧ recv i = Done (Some (GOT_PKT, b), ms, lk) ∧ from_host job b ∧
            es = verdict job false b ∧ (length es ≤ 1)%nat) ∨
         (es = [event job (j_portno job) (silence (j_scan_type job))] ∧
          ∀ i, 0 <= i <= 3 → ∃ b ms lk, recv i = Done (Some (RETRY, b), ms, lk)))
  end.
Proof.
  intros Hstack Hjob Hclock (l & HL & Ht) Hmax recv.
  assert (∀ i, ∃ r ms lk, recv i = Done (r, ms, lk) ∧ ∀ b, r = Some (GOT_PKT, b) → from_host job b) as Hrecv.
  { intros i. destruct (Hclock i) as [Hpos Hsum].
    destruct (recv_loop_ok job (PORT_NO + id) (start i) Hjob (attempts i) 4000 0 Hpos) as (r & ms & lk & E & Hgot);
      try (change int_min with (-2147483648) in *; change int_max with 2147483647 in *; lia).
    exists r, ms, lk. split; [exact E|]. intros b Hb. by apply Hgot. }
  pose proof (thread_job_ok stack id job start attempts Hstack Hjob Hclock 3 3 0 s l h eq_refl ltac:(lia)
      ltac:(by apply table_on_at) Hmax) as H.
  destruct (thread_events 3 job (PORT_NO + id) start attempts 0) as [es|] eqn:Ee.
  - destruct H as (L & l' & E & [H _]). exists (set_result_list L s). split; [done|]. split; [by exists l'|].
    destruct (thread_events_are _ _ _ _ _ _ _ Ee) as [(i & b & ms & lk & Hi & Er & ->)|[He Hr]]; [left|right; split; [done|exact Hr]].
    exists i, b, ms, lk. split; [lia|]. split; [done|]. split; [|split; [done|apply verdict_one]].
    destruct (Hrecv i) as (r & ms' & lk' & E' & Hgot). unfold recv in E'. rewrite Er in E'. injection E' as <- _ _. by apply Hgot.
  - split; [done|]. apply (thread_events_wait job (PORT_NO + id) start attempts) in Ee as (i & Hi & Hw);
      [|intros i; destruct (Hrecv i) as (r & ms & lk & E & _); by exists r, ms, lk].
    destruct Hw as (ms & lk & Hw). exists i, ms, lk. split; [lia|exact Hw].
Qed.
End thread.

(** ** Witness and limits *)

Definition sample_attempts (i : Z) : list poll_event :=
  if i =? 0 then [PollTimeout] else [PollReady (Some (drop 14 syn_ack)) None (1, 0)].

Lemma thread_job_records_witness : ∃ s',
  thread_job no_service 3 sample_stack 0 sample_job (λ _, (0, 0)) sample_attempts 0 ps_zero = Done (true, s') ∧
  results_hold s' [((80, bytes "10.0.0.1"), (0%nat, R_OPEN))].
Proof.
  destruct (thread_job_records no_service sample_stack 0 sample_job (λ _, (0, 0)) sample_attempts ps_zero [])
    as (s' & E & H & _).
  - reflexivity.
  - split; [reflexivity|split; [apply (bool_decide_unpack _); vm_compute; reflexivity|vm_compute; split; [discriminate|reflexivity]]].
  - intros i. unfold sample_attempts. destruct (i =? 0); (split; [|vm_compute; discriminate]);
      repeat constructor; vm_compute; discriminate.
  - by apply no_results.
  - vm_compute. reflexivity.
  - exists s'. split; [exact E|exact H].
Defined.

(** A host or network that an ICMP message calls unreachable with another
    code ends the job as well, and nothing is recorded for its port. *)
Definition icmp_code (code : Z) : list Z :=
  [69; 0; 0; 56; 0; 0; 0; 0; 64; 1; 0; 0; 10; 0; 0; 1; 10; 0; 0; 9] ++ [3; code] ++ replicate 60 0.
Theorem net_unreachable_records_nothing :
  thread_job no_service 3 sample_stack 0 sample_job (λ _, (0, 0)) (λ _, [PollReady None (Some (icmp_code 0)) (1, 0)]) 0 ps_zero
    = Done (true, ps_zero) ∧
  ∃ s', thread_job no_service 3 sample_stack 0 sample_job (λ _, (0, 0)) (λ _, [PollReady None (Some (icmp_code 1)) (1, 0)]) 0 ps_zero
    = Done (true, s') ∧ count (result_list s') = 1.
Proof. split; [vm_compute; reflexivity|]. eexists. split; vm_compute; reflexivity. Qed.

(** A packet of another host within the first second ends the attempt: the
    whole seconds elapsed are 0, and the remaining time is not below 4000. *)
Lemma early_wrong_packet_ends_attempt :
  ∃ b, recv_loop sample_job PORT_NO (0, 0) [PollReady (Some (splice (drop 14 syn_ack) 12 [192; 168; 7; 7])) None (0, 900000)] 4000 0
    = Done (Some (RETRY, b), 4000, O).
Proof. eexists. vm_compute. reflexivity. Qed.

(** The time since the start is subtracted again for each wrong packet; once
    the rest is negative [poll] has no timeout, and no time ends the wait. *)
Lemma negative_timeout_waits job tp start n : ∀ ms leaked,
  ms < 0 → recv_loop job tp start (replicate n PollTimeout) ms leaked = Done (None, ms, leaked).
Proof.
  induction n as [|n IH]; intros ms leaked H; [done|]. cbn [replicate recv_loop].
  rewrite (proj2 (Z.ltb_lt _ _)) by done. by apply IH.
Qed.
Lemma two_wrong_packets_wait_forever n :
  let wrong t := PollReady (Some (splice (drop 14 syn_ack) 12 [192; 168; 7; 7])) None (t, 0) in
  recv_loop sample_job PORT_NO (0, 0) ([wrong 3; wrong 3] ++ replicate n PollTimeout) 4000 0 = Done (None, -2000, O).
Proof.
  cbn zeta. cbn [app]. transitivity (recv_loop sample_job PORT_NO (0, 0) (replicate n PollTimeout) (-2000) 0);
    [|by apply negative_timeout_waits].
  cbn [recv_loop]. generalize (λ ms, recv_loop sample_job PORT_NO (0, 0) (replicate n PollTimeout) ms 0).
  intros. reflexivity.
Qed.
