(* ===== verification/PsRace.v ===== *)
(** * Threads that scan together (portscan/ps_scan.c, [ps_threaded]; ps_setup.c)

    The threads share the list of jobs, which [threadlock] guards, and the list
    of results, which nothing guards.  A step runs one access to shared data of
    one thread (under the lock: the whole of [get_next_job]), so that the runs
    are the interleavings of the threads.  What a thread does for a job
    between these accesses is PsThread; here it gives any result, or none. *)

From S2P Require Import Prelude CString PsText PsList PsSetup PsJobs.
From stdpp Require Import gmap strings relations.

Open Scope Z_scope.

(** Where a thread is: in the guarded part, working on the job at an address,
    and in [push_result] with its result [r]. *)
Inductive pc :=
  | TLock | TGet | TUnlock (job : ptr) | TJob (job : positive)
  | TTop (r : result_t) | TSearch (r : result_t) (result_top : ptr)
  | TNew (r : result_t) | TLink (r : result_t) (temp_result : positive)
  | TCount (r : result_t) (temp_result : positive) | TUpdate (r : result_t) (temp_result : positive)
  | TExit.

(** [r_taken] lists the jobs handed out, in order. *)
Record race := Race {
  r_ps : ps_state;
  r_threadlock : option nat;
  r_threads : list pc;
  r_taken : list positive;
}.
Definition goto (t : nat) (c : pc) (s : race) : race :=
  Race (r_ps s) (r_threadlock s) (<[t := c]> (r_threads s)) (r_taken s).
Definition set_ps (p : ps_state) (s : race) : race := Race p (r_threadlock s) (r_threads s) (r_taken s).
Definition set_threadlock (l : option nat) (s : race) : race := Race (r_ps s) l (r_threads s) (r_taken s).
Definition take_job (job : ptr) (s : race) : race :=
  Race (r_ps s) (r_threadlock s) (r_threads s) (r_taken s ++ match job with Some a => [a] | None => [] end).
Definition set_results (L : lst result_t) (s : race) : race := set_ps (set_result_list L (r_ps s)) s.

(** One access of [push_result] (lines 659-729 of ps_setup.c): the search
    node by node; the new node, whose [next] is read from the top; the top; the
    counter; the entry.  The node of [result] itself is the thread's own. *)
Definition push_step (t : nat) (c : pc) (s : race) : option (outcome race) :=
  let L := result_list (r_ps s) in
  match c with
  | TTop r => Some (Done (goto t (TSearch r (list_top L)) s))
  | TSearch r None => Some (Done (goto t (TNew r) s))
  | TSearch r (Some a) =>
      Some (n ← deref (cells L) (Some a);
            same ← (if r_portno (n_data n) =? r_portno r then ip_eq (r_ip (n_data n)) (r_ip r) else Done false : outcome bool);
            mret (goto t (if (same : bool) then TUpdate r a else TSearch r (n_next n)) s))
  | TNew r =>
      let a := new_addr (cells L) in
      Some (Done (goto t (TLink r a)
        (set_results (Lst (<[a := Node (new_result r) (list_top L)]> (cells L)) (list_top L) (count L)) s)))
  | TLink r a => Some (Done (goto t (TCount r a) (set_results (Lst (cells L) (Some a) (count L)) s)))
  | TCount r a =>
      Some (c ← int_add (count L) 1; mret (goto t (TUpdate r a) (set_results (Lst (cells L) (list_top L) c) s)))
  | TUpdate r a =>
      Some (n ← deref (cells L) (Some a);
            u ← update_result (n_data n) r;
            mret (goto t TLock (set_results (Lst (<[a := Node u (n_next n)]> (cells L)) (list_top L) (count L)) s)))
  | _ => None
  end.

(** [choice] is the result of the job that the thread works on.  [None]: the
    thread waits for the lock, or has ended. *)
Definition step (t : nat) (choice : option result_t) (s : race) : option (outcome race) :=
  match r_threads s !! t with
  | None => None
  | Some TLock => match r_threadlock s with
                  | None => Some (Done (goto t TGet (set_threadlock (Some t) s)))
                  | Some _ => None
                  end
  | Some TGet => Some ('(job, p) ← get_next_job (r_ps s);
                       mret (goto t (TUnlock job) (take_job job (set_ps p s))))
  | Some (TUnlock job) =>
      Some (Done (goto t (match job with Some a => TJob a | None => TExit end) (set_threadlock None s)))
  | Some (TJob job) =>
      Some (Done (goto t (match choice with Some r => TTop r | None => TLock end) s))
  | Some c => push_step t c s
  end.
Inductive steps_to (s s' : race) : Prop :=
  | steps_by t choice : step t choice s = Some (Done s') → steps_to s s'.

(** [n] threads start with the jobs of [p] (lines 97-106 of main.c). *)
Definition start (n : nat) (p : ps_state) : race := Race p None (replicate n TLock) [].

(** ** Every job is handed out once *)

Definition has_lock (c : pc) : bool := match c with TGet | TUnlock _ => true | _ => false end.

(** The list [l] of the jobs at the start is what was handed out and what is
    left; the lock is held by the thread in the guarded part. *)
Record race_inv (l : list (positive * job_t)) (h0 : gmap positive (node job_t)) (s : race) : Prop := {
  ri_left : ∃ l', l.*1 = r_taken s ++ l'.*1 ∧ lst_rep (job_masterlist (r_ps s)) l';
  ri_cells : cells (job_masterlist (r_ps s)) = h0;
  ri_lock : ∀ t c, r_threads s !! t = Some c → has_lock c = true ↔ r_threadlock s = Some t;
  ri_done : ∀ t c, r_threads s !! t = Some c → c = TUnlock None ∨ c = TExit →
            list_top (job_masterlist (r_ps s)) = None;
}.

Lemma ri_move l h0 s t c c' :
  race_inv l h0 s → r_threads s !! t = Some c → has_lock c' = has_lock c →
  (c' = TUnlock None ∨ c' = TExit → list_top (job_masterlist (r_ps s)) = None) →
  race_inv l h0 (goto t c' s).
Proof.
  intros [H1 H2 H3 H4] Ht Hl Hd. split; [done|done| |]; intros t' d; cbn [r_threads goto r_threadlock r_ps].
  - destruct (decide (t = t')) as [<-|Hne].
    + rewrite list_lookup_insert_eq by (by eapply lookup_lt_Some). intros [= <-]. rewrite Hl. by apply H3.
    + rewrite list_lookup_insert_ne by done. by apply H3.
  - destruct (decide (t = t')) as [<-|Hne].
    + rewrite list_lookup_insert_eq by (by eapply lookup_lt_Some). intros [= <-]. done.
    + rewrite list_lookup_insert_ne by done. by apply H4.
Qed.

Lemma ri_results l h0 s L : race_inv l h0 s → race_inv l h0 (set_results L s).
Proof. intros [H1 H2 H3 H4]. by split. Qed.

Lemma push_step_inv l h0 s s' t c :
  race_inv l h0 s → r_threads s !! t = Some c → has_lock c = false →
  push_step t c s = Some (Done s') → race_inv l h0 s'.
Proof.
  intros Hs Ht Hl. destruct c; cbn [push_step]; try discriminate.
  - intros [= <-]. eapply ri_move; [done|done|done|]. by intros [|].
  - destruct result_top as [a|]; intros [= E]; [|subst s'; eapply ri_move; [done|done|done|by intros [|]]].
    apply bind_inv in E as (n & _ & E). apply bind_inv in E as (same & _ & E). injection E as <-.
    eapply ri_move; [done|done| |]; destruct same; try done; by intros [|].
  - intros [= <-]. eapply ri_move; [by apply ri_results|done|done|]. by intros [|].
  - intros [= <-]. eapply ri_move; [by apply ri_results|done|done|]. by intros [|].
  - intros [= E]. apply bind_inv in E as (k & _ & E). injection E as <-.
    eapply ri_move; [by apply ri_results|done|done|]. by intros [|].
  - intros [= E]. apply bind_inv in E as (n & _ & E). apply bind_inv in E as (u & _ & E). injection E as <-.
    eapply ri_move; [by apply ri_results|done|done|]. by intros [|].
Qed.

(** Taking or giving back the lock. *)
Lemma ri_relock l h0 s t c c' o :
  race_inv l h0 s → r_threads s !! t = Some c →
  (∀ t', t' ≠ t → r_threadlock s ≠ Some t' ∧ o ≠ Some t') → (has_lock c' = true ↔ o = Some t) →
  (c' = TUnlock None ∨ c' = TExit → list_top (job_masterlist (r_ps s)) = None) →
  race_inv l h0 (goto t c' (set_threadlock o s)).
Proof.
  intros [H1 H2 H3 H4] Ht Hother Hl Hd. split; [done|done| |]; intros t' d; cbn [r_threads goto r_threadlock r_ps set_threadlock].
  - destruct (decide (t = t')) as [<-|Hne].
    + rewrite list_lookup_insert_eq by (by eapply lookup_lt_Some). by intros [= <-].
    + rewrite list_lookup_insert_ne by done. intros Hd'. rewrite (H3 _ _ Hd').
      destruct (Hother t' ltac:(done)) as [Ha Hb]. by split; intros ?.
  - destruct (decide (t = t')) as [<-|Hne].
    + rewrite list_lookup_insert_eq by (by eapply lookup_lt_Some). intros [= <-]. done.
    + rewrite list_lookup_insert_ne by done. by apply H4.
Qed.

Lemma race_step_inv l h0 s s' t choice :
  race_inv l h0 s → step t choice s = Some (Done s') → race_inv l h0 s'.
Proof.
  intros Hs. unfold step. destruct (r_threads s !! t) as [c|] eqn:Ht; [|done].
  pose proof (ri_lock _ _ _ Hs t c Ht) as Hlock.
  assert (has_lock c = true → ∀ t', t' ≠ t → r_threadlock s ≠ Some t') as Hmine by (rewrite Hlock; intros -> t' ? [= ?]; done).
  destruct c as [| |job|job| | | | | | |].
  4-10: try (by apply push_step_inv with (t := t) (c := _); done).
  - destruct (r_threadlock s) as [t0|] eqn:El; [done|]. intros [= <-].
    eapply ri_relock; [done|done| |done|by intros [|]]. intros t' Hne. rewrite El. split; congruence.
  - intros [= E]. destruct (ri_left _ _ _ Hs) as ([|[a x] l'] & El & Hl').
    + pose proof (rep_chain _ _ Hl') as Hc. cbn in Hc.
      assert (get_next_job (r_ps s) = Done (None, r_ps s)) as Eg by (unfold get_next_job; by rewrite M_bind_gets, Hc).
      rewrite Eg in E. cbn in E. injection E as <-.
      eapply ri_move; [|done|done|done]. destruct Hs as [H1 H2 H3 H4]. split; cbn; rewrite ?app_nil_r; done.
    + destruct (get_next_job_ok (r_ps s) a x l' Hl') as (J & Eg & HJ & EJ). rewrite Eg in E. cbn in E. injection E as <-.
      destruct Hs as [H1 H2 H3 H4]. eapply ri_move; [split; cbn|cbn; done|done|by intros [|]].
      * exists l'. split; [|done]. rewrite El. by rewrite <- app_assoc.
      * by rewrite EJ.
      * done.
      * intros t' d Hd Hd'. pose proof (H4 t' d Hd Hd') as Htop. pose proof (rep_chain _ _ Hl') as Hc. cbn in Hc.
        rewrite Htop in Hc. by destruct Hc.
  - intros [= <-]. eapply ri_relock; [done|done| | |].
    + intros t' Hne. split; [by apply Hmine|done].
    + by destruct job.
    + destruct job as [a|]; [by intros [|]|]. intros _. eapply (ri_done _ _ _ Hs); [done|by left].
  - intros [= <-]. eapply ri_move; [done|done| |]; destruct choice; try done; by intros [|].
  - done.
Qed.

Lemma step_threads t choice s s' :
  step t choice s = Some (Done s') → length (r_threads s') = length (r_threads s).
Proof.
  unfold step. destruct (r_threads s !! t) as [c|]; [|done].
  destruct c as [| |job|job|r|r [a|]|r|r a|r a|r a|]; cbn [push_step]; try done;
    try (by intros [= <-]; apply length_insert).
  - destruct (r_threadlock s); [done|]. intros [= <-]. apply length_insert.
  - intros [= E]. apply bind_inv in E as ([job q] & _ & E). injection E as <-. apply length_insert.
  - intros [= E]. apply bind_inv in E as (x & _ & E). apply bind_inv in E as (y & _ & E). injection E as <-. apply length_insert.
  - intros [= E]. apply bind_inv in E as (x & _ & E). injection E as <-. apply length_insert.
  - intros [= E]. apply bind_inv in E as (x & _ & E). apply bind_inv in E as (y & _ & E). injection E as <-. apply length_insert.
Qed.

Lemma race_start_inv n p l : lst_rep (job_masterlist p) l → race_inv l (cells (job_masterlist p)) (start n p).
Proof.
  intros H. split; cbn; [by exists l|done| |]; intros t c Ht; apply lookup_replicate in Ht as [-> _].
  - cbn. split; [done|intros [=]].
  - by intros [|].
Qed.

(** C17: under every interleaving of any number of threads each job is handed
    out once, in the order of the list: what was handed out and what is left
    is the list at the start; at most one thread is in the guarded part; and
    when every thread has ended, all jobs were handed out and their nodes are
    still there for [destroy_joblist]. *)
Theorem jobs_dealt_once n p l s :
  lst_rep (job_masterlist p) l → rtc steps_to (start n p) s →
  (∃ l', l.*1 = r_taken s ++ l'.*1 ∧ lst_rep (job_masterlist (r_ps s)) l') ∧
  (∀ t t' c c', r_threads s !! t = Some c → r_threads s !! t' = Some c' →
     has_lock c = true → has_lock c' = true → t = t') ∧
  ((0 < n)%nat → Forall (λ c, c = TExit) (r_threads s) →
     r_taken s = l.*1 ∧ cells (job_masterlist (r_ps s)) = cells (job_masterlist p)).
Proof.
  intros Hl Hr. assert (race_inv l (cells (job_masterlist p)) s ∧ length (r_threads s) = n) as [Hs Hlen].
  { assert (∀ s0, rtc steps_to s0 s → race_inv l (cells (job_masterlist p)) s0 → length (r_threads s0) = n →
      race_inv l (cells (job_masterlist p)) s ∧ length (r_threads s) = n) as H.
    { intros s0 H0. clear Hr. induction H0 as [|s0 s1 s2 [t c E] _ IH]; [done|]. intros H1 H2.
      apply IH; [by eapply race_step_inv|]. rewrite <- H2. by eapply step_threads. }
    apply (H _ Hr); [by apply race_start_inv|]. cbn. apply length_replicate. }
  split; [apply Hs|]. split.
  - intros t t' c c' Ht Ht' Hc Hc'. apply (ri_lock _ _ _ Hs _ _ Ht) in Hc. apply (ri_lock _ _ _ Hs _ _ Ht') in Hc'. congruence.
  - intros Hn Hall. split; [|apply Hs]. destruct (ri_left _ _ _ Hs) as (l' & El & Hl').
    destruct (lookup_lt_is_Some_2 (r_threads s) 0 ltac:(lia)) as [c Hc].
    pose proof (Forall_lookup_1 _ _ _ _ Hall Hc) as ->.
    pose proof (ri_done _ _ _ Hs _ _ Hc ltac:(by right)) as Htop. pose proof (rep_chain _ _ Hl') as Hch.
    rewrite Htop in Hch. destruct l' as [|[a x] l']; [|by destruct Hch]. by rewrite El, app_nil_r.
Qed.

(** ** Runs *)

(** A schedule names the thread of each step and the result of its job. *)
Fixpoint run_schedule (ts : list (nat * option result_t)) (s : race) : option (outcome race) :=
  match ts with
  | [] => Some (Done s)
  | (t, choice) :: ts' => match step t choice s with
                          | Some (Done s') => run_schedule ts' s'
                          | o => o
                          end
  end.

Lemma race_schedule_rtc ts s s' : run_schedule ts s = Some (Done s') → rtc steps_to s s'.
Proof.
  revert s. induction ts as [|[t c] ts IH]; intros s; cbn; [by intros [= ->]|].
  destruct (step t c s) as [[s1| |]|] eqn:E; try done. intros H.
  eapply rtc_l; [by exists t c|by apply IH].
Qed.

Definition final (ts : list (nat * option result_t)) (s : race) : race :=
  match run_schedule ts s with Some (Done s') => s' | _ => s end.

Definition race_jobs : lst job_t :=
  Lst {[ 1%positive := Node (Job (ip_cell "10.0.0.1") 80 0) (Some 2%positive);
         2%positive := Node (Job (ip_cell "10.0.0.1") 22 0) None ]} (Some 1%positive) 2.
Definition race_start : race := start 2 (set_job_masterlist race_jobs ps_zero).
Definition race_result (port : Z) : result_t :=
  Result (ip_cell "10.0.0.1") (replicate 28 0) [1; NONE; NONE; NONE; NONE; NONE] 10 port (Some 0).
(** [turn t choice k]: [k] steps of thread [t], whose job gives [choice]. *)
Definition turn (t : nat) (choice : option result_t) (k : nat) : list (nat * option result_t) :=
  replicate k (t, choice).

(** Both threads take a job and search the empty list of results; then both
    make a node, both link it. *)
Definition race_schedule : list (nat * option result_t) :=
  turn 0 (Some (race_result 80)) 6 ++ turn 1 (Some (race_result 22)) 6 ++
  turn 0 None 1 ++ turn 1 None 1 ++ turn 0 None 3 ++ turn 1 None 3 ++
  turn 0 None 3 ++ turn 1 None 3.
Definition race_end : race := final race_schedule race_start.

Lemma race_reached : rtc steps_to race_start race_end.
Proof. apply (race_schedule_rtc race_schedule). vm_compute. reflexivity. Qed.

Lemma jobs_dealt_once_witness :
  r_taken race_end = [1%positive; 2%positive] ∧
  cells (job_masterlist (r_ps race_end)) = cells race_jobs.
Proof.
  destruct (jobs_dealt_once 2 (set_job_masterlist race_jobs ps_zero)
    [(1%positive, Job (ip_cell "10.0.0.1") 80 0); (2%positive, Job (ip_cell "10.0.0.1") 22 0)]
    race_end) as (_ & _ & H).
  - split; [solve_chain|apply (bool_decide_unpack _); vm_compute; done|done].
  - apply race_reached.
  - destruct H as [Ha Hb]; [lia| |split; [exact Ha|exact Hb]].
    replace (r_threads race_end) with [TExit; TExit] by (vm_compute; reflexivity). by repeat constructor.
Defined.

(** Line 718 of ps_scan.c: [push_result] is called without the lock.  Both
    results are counted, the list holds only that of thread 1. *)
Theorem unlocked_push_loses_result :
  rtc steps_to race_start race_end ∧
  r_threads race_end = [TExit; TExit] ∧
  count (result_list (r_ps race_end)) = 2 ∧
  ∃ a x, chain (cells (result_list (r_ps race_end))) (list_top (result_list (r_ps race_end))) [(a, x)] ∧
    r_portno x = 22.
Proof.
  split; [apply race_reached|]. split; [vm_compute; reflexivity|]. split; [vm_compute; reflexivity|].
  eexists _, _. split; [|shelve]. split; [vm_compute; reflexivity|]. eexists. split; [vm_compute; reflexivity|].
  reflexivity. Unshelve. reflexivity.
Qed.
