(* ===== verification/PsMain.v ===== *)
(** * The port scanner as a whole (portscan/main.c, ps_scan.c)

    Which probe a job sends and how much of it ([probe_default],
    [probe_threaded]), the address of the machine ([find_localip]), the filter
    of the capture, and [main]: the parts of the scanner one after the other.
    What the threads do together is PsRace's subject; here it is an argument.
    The time that is printed and the list of service versions (PsVersion), which
    shares no state with the lists here, are left out of [main]. *)

From S2P Require Import Prelude CString FileSys PsText PsBytes PsList PsSetup PsJobs PsResults PsReport PsArgs PsPacket PsScan PsScanSpec.
From stdpp Require Import gmap strings.

Open Scope Z_scope.

(** ** Probes (ps_scan.c 149-208 and 437-533) *)

Definition DNS_PORT : Z := 53.
Inductive transport := RawTcp | Udp.
(** The socket, the packet and how many of its bytes [sendto] is given. *)
Record probe := Probe { p_transport : transport; packet : list Z; pktlen : Z }.

Section probe.
Context (inet_addr : list Z → list Z) (localip : list Z).

(** [ip_header->tot_len], a 16-bit word as the machine stores it. *)
Definition tot_len (packet : list Z) : outcome Z :=
  lo ← rd packet 2; hi ← rd packet 3; mret (lo + 256 * hi).
Definition tcp_probe (src_port : Z) (job : job_t) : outcome probe :=
  packet ← prepare_tcp_pkt inet_addr (j_ip job) (j_portno job) localip src_port (j_scan_type job);
  n ← tot_len packet; mret (Probe RawTcp packet n).

Definition probe_default (PORT_NO : Z) (job : job_t) : outcome probe :=
  if negb (j_scan_type job =? UDP_SCAN) then tcp_probe PORT_NO job
  else
    packet ← (if j_portno job =? DNS_PORT
              then '(b, _) ← prepare_dnsquery_pkt (bytes "www.google.com") TYPE_A; mret b
              else prepare_udp_pkt_with_payload);
    mret (Probe Udp packet 20).
Definition probe_threaded (thread_portno : Z) (job : job_t) : outcome probe :=
  if negb (j_scan_type job =? UDP_SCAN) then tcp_probe thread_portno job
  else if j_portno job =? DNS_PORT then
    '(b, n) ← prepare_dnsquery_pkt (bytes "www.google.com") TYPE_A; mret (Probe Udp b n)
  else packet ← prepare_udp_pkt_with_payload; mret (Probe Udp packet 20).

(** What goes out. *)
Definition sent (p : probe) : outcome (list Z) := mem_read (packet p) (pktlen p).
End probe.

(** ** The address of the machine (main.c), the filter (ps_scan.c 933-945) *)

(** [struct ifaddrs]: the name, and the family and text of its address, if it has one. *)
Record ifaddrs := Ifaddrs { ifa_name : list Z; ifa_addr : option (Z * list Z) }.
Definition AF_INET : Z := 2.
Fixpoint localip_loop (ifas : list ifaddrs) (localip : list Z) : outcome (list Z) :=
  match ifas with
  | [] => Done localip
  | ifa :: rest =>
      match ifa_addr ifa with
      | None => Fault NullDeref
      | Some (family, text) =>
          localip_loop rest (if (family =? AF_INET) && bool_decide (ifa_name ifa = bytes "eth0") then text else localip)
      end
  end.
Definition find_localip (ifas : list ifaddrs) : outcome (exits (list Z)) :=
  localip ← localip_loop ifas [];
  mret (match localip with [] => Exits FAILURE | _ => Returns localip end).

Definition filter_text (src_port : Z) : list Z := bytes "dst port " ++ dec src_port ++ bytes " or ip proto \icmp".
Definition filter_exp (src_port : Z) : outcome (list Z) := mem_write (replicate 50 0) 0 (filter_text src_port ++ [0]).

(** ** [main] *)

Section main.
Context (gethostbyname : list Z → option (list Z)) (fs : filesystem).
Context (getservbyport : Z → bool → option (list Z)) (threads : M ps_state unit).

(** The end: the jobs are given back, the results printed and all given back. *)
Definition finish (temp_joblist_top : ptr) (conf : list Z) : M ps_state (exits (list Z * list piece)) :=
  destroy_joblist temp_joblist_top;;
  s ← gets id; out ← lift (print_results s);
  destroy_iplist;; destroy_portlist;; destroy_results;;
  mret (Returns (conf, out)).

(** From [create_jobs] on: the configuration and the report that are printed. *)
Definition main_scan (ifas : list ifaddrs) (stack : list Z) (rounds : nat → Z → round)
  : M ps_state (exits (list Z * list piece)) :=
  r ← create_jobs;
  match r with
  | Exits c => mret (Exits c)
  | Returns _ =>
      temp_joblist_top ← gets (λ s, list_top (job_masterlist s));
      localip ← lift (find_localip ifas);
      match localip with
      | Exits c => mret (Exits c)
      | Returns _ =>
          s ← gets id; conf ← lift (print_configurations s);
          (if no_of_threads s =? 0
           then ps_default getservbyport (size (cells (job_masterlist s))) stack rounds 0 else threads);;
          finish temp_joblist_top conf
      end
  end.
Definition main (os : list option_t) (words : list (list Z)) (ifas : list ifaddrs) (stack : list Z)
    (rounds : nat → Z → round) : M ps_state (exits (list Z * list piece)) :=
  r ← parse_args gethostbyname fs os words;
  match r with
  | Exits c => mret (Exits c)
  | Returns _ =>
      L ← gets ip_list;
      match list_top L with
      | None => mret (Exits FAILURE)
      | Some _ => main_scan ifas stack rounds
      end
  end.
End main.

(** ** The probes *)

Section probes.
Context (inet_addr : list Z → list Z) (localip : list Z).
Context (Hinet : ∀ ip, length (inet_addr ip) = 4%nat ∧ Forall is_byte (inet_addr ip)).

(** C23: for a job of a TCP scan both modes of the scanner send the same 40
    bytes: an IP header and a TCP header with the flags of the scan, the ports
    of the job and the sender, and two checksums that verify at the receiver. *)
Theorem tcp_probe_verifies port job :
  j_scan_type job ≠ UDP_SCAN →
  ∃ check tcp_check p,
    let ip := ip_header 40 check (inet_addr localip) (inet_addr (j_ip job)) in
    let tcp := tcp_header port (j_portno job) (tcp_flags (j_scan_type job)) tcp_check in
    probe_default inet_addr localip port job = Done p ∧ probe_threaded inet_addr localip port job = Done p ∧
    p_transport p = RawTcp ∧ sent p = Done (ip ++ tcp) ∧
    oc_sum (words16 ip) = 65535 ∧
    oc_sum (words16 (pseudo_header_tcp (inet_addr localip) (inet_addr (j_ip job)) tcp)) = 65535.
Proof using Hinet.
  intros Hst. destruct (prepare_tcp_pkt_ok inet_addr (j_ip job) (j_portno job) localip port (j_scan_type job) Hinet)
    as (check & tcp_check & E & Hip & Htcp).
  unfold probe_default, probe_threaded. rewrite (proj2 (Z.eqb_neq _ _) Hst). cbn [negb].
  unfold tcp_probe. rewrite E. cbn [mbind outcome_bind].
  set (ip := ip_header 40 check _ _) in *. set (tcp := tcp_header _ _ _ _) in *.
  exists check, tcp_check, (Probe RawTcp (ip ++ tcp ++ replicate 4056 0) 40).
  repeat (split; [done|]). split; [|done].
  destruct (Hinet localip) as [Hl _], (Hinet (j_ip job)) as [Hd _].
  assert (length (ip ++ tcp) = 40%nat) as Hlen.
  { unfold ip, tcp, ip_header, tcp_header. rewrite !length_app, !length_be_bytes, Hl, Hd. done. }
  unfold sent. cbn [packet pktlen]. rewrite app_assoc, mem_read_ok by (rewrite length_app; lia).
  change (Z.to_nat 40) with 40%nat. by rewrite <- Hlen, take_app_length.
Qed.
End probes.

Lemma tcp_probe_verifies_witness : ∃ p check,
  probe_default (λ _, [127; 0; 0; 1]) (bytes "127.0.0.1") 12345 (Job (c_lit "127.0.0.1") 80 SYN_SCAN) = Done p ∧
  oc_sum (words16 (ip_header 40 check [127; 0; 0; 1] [127; 0; 0; 1])) = 65535.
Proof.
  destruct (tcp_probe_verifies (λ _, [127; 0; 0; 1]) (bytes "127.0.0.1")) with (port := 12345) (job := Job (c_lit "127.0.0.1") 80 SYN_SCAN)
    as (check & tcp_check & p & E & _ & _ & _ & H & _).
  - intros _. split; [reflexivity|]. apply (bool_decide_unpack _). vm_compute. exact I.
  - vm_compute. discriminate.
  - exists p, check. split; [exact E|exact H].
Defined.

(** Without threads the DNS query is cut off within its host name: 20 of its
    31 bytes go out; with threads all of them. *)
Theorem dns_query_is_cut job inet_addr localip port :
  j_scan_type job = UDP_SCAN → j_portno job = DNS_PORT → ∃ p q,
  probe_default inet_addr localip port job = Done p ∧ probe_threaded inet_addr localip port job = Done q ∧
  packet p = packet q ∧ sent p = Done (dns_header ++ bytes "www.goog") ∧
  sent q = Done (dns_header ++ c_lit "www.google.com" ++ [0; 1; 0; 1]).
Proof.
  intros Hs Hp. unfold probe_default, probe_threaded. rewrite Hs, Hp. do 2 eexists.
  split; [vm_compute; reflexivity|]. split; [vm_compute; reflexivity|]. repeat split; vm_compute; reflexivity.
Qed.

(** The filter of the capture fits into its 50 bytes. *)
Lemma filter_exp_fits src_port : 0 <= src_port → ∃ b, filter_exp src_port = Done b ∧ c_str b = Done (filter_text src_port).
Proof.
  intros Hp. unfold filter_exp. pose proof (dec_length src_port) as Hl.
  assert (length (filter_text src_port) ≤ 37)%nat as Hf by (unfold filter_text; rewrite !length_app; cbn [length bytes]; lia).
  rewrite mem_write_ok by (rewrite length_app, length_replicate; cbn [length]; lia).
  eexists. split; [done|]. unfold splice. rewrite take_0, app_nil_l, <- app_assoc. apply c_str_app.
  unfold filter_text. repeat (apply Forall_app; split); first [by apply dec_nonzero | cbn; repeat constructor; done].
Qed.

(** ** The address of the machine *)

(** An interface without an address, which the list may hold, is read through NULL. *)
Theorem interface_without_address rest : find_localip (Ifaddrs (bytes "ppp0") None :: rest) = Fault NullDeref.
Proof. reflexivity. Qed.

(** Only eth0 counts, whatever other interfaces the machine has. *)
Theorem other_names_are_ignored :
  find_localip [Ifaddrs (bytes "lo") (Some (AF_INET, bytes "127.0.0.1")); Ifaddrs (bytes "enp3s0") (Some (AF_INET, bytes "10.0.0.5"))]
    = Done (Exits FAILURE).
Proof. vm_compute. reflexivity. Qed.

(** ** [main] *)

Lemma all_jobs_ok sc ips ports :
  length sc = 6%nat → Forall (λ ip, length ip = 16%nat ∧ 0 ∈ ip) ips → Forall job_ok (all_jobs sc ips ports).
Proof.
  intros Hsc Hips. unfold all_jobs. apply Forall_concat, Forall_lookup. intros i js Hi.
  rewrite list_lookup_imap in Hi. destruct (sc !! i) as [f|] eqn:Ef; [|done]. injection Hi as <-.
  apply lookup_lt_Some in Ef. destruct (f =? 0); [constructor|]. unfold jobs_of_scan. apply Forall_concat, Forall_fmap.
  eapply Forall_impl; [exact Hips|]. intros ip [Hl H0]. apply Forall_fmap, Forall_forall. intros port _.
  split; [done|]. split; [done|]. cbn. lia.
Qed.

Lemma print_configurations_done s ips :
  lst_data (ip_list s) ips → Forall (λ ip, 0 ∈ ip) ips → ∃ conf, print_configurations s = Done conf.
Proof.
  intros (l & [Hc Hnd Hn] & <-) H0. unfold print_configurations.
  destruct (Z.eqb_spec (count (ip_list s)) 1) as [E|_]; [|by eexists].
  destruct l as [|[a ip] [|]]; cbn [length] in Hn; try lia. destruct Hc as (-> & q & Ha & _).
  rewrite (deref_ok _ _ _ Ha). apply Forall_cons in H0 as [H0 _]. cbn [mbind outcome_bind n_data fst snd] in *.
  rewrite (c_str_ip_text _ H0). by eexists.
Qed.

Lemma lst_data_empty {A} (L : lst A) xs : lst_data L xs → xs ≠ [] → is_Some (list_top L).
Proof. intros (l & [Hc _ _] & <-) Hne. destruct l as [|[a x] l]; [done|]. destruct Hc as [-> _]. by eexists. Qed.

(** Every node of the four lists is given back. *)
Definition all_freed (s : ps_state) : Prop :=
  ip_list s = empty_lst ∧ port_list s = empty_lst ∧ job_masterlist s = empty_lst ∧ result_list s = empty_lst.

Lemma finish_ok s top lj ips ports rts conf :
  lst_rep (Lst (cells (job_masterlist s)) top (Z.of_nat (length lj))) lj →
  (∀ a n, cells (job_masterlist s) !! a = Some n → a ∈ lj.*1) →
  lst_exact (ip_list s) ips → lst_exact (port_list s) ports → lst_exact (result_list s) rts →
  Forall (λ ip, 0 ∈ ip) ips → Forall ip_ok rts → NoDup (ip_text <$> ips) → NoDup ports →
  ∃ out s', finish top conf s = Done (Returns (conf, out), s') ∧
    records_of out ≡ₚ filter (λ r, (r_portno r ∈ ports ∧ 0 <= r_conclusion r <= 5) ∧
                                   ip_text (r_ip r) ∈ ip_text <$> ips) rts ∧ all_freed s'.
Proof.
  intros HJ Hall HI HP HR Hips Hrts Hndi Hndp. pose proof (free_all_ok _ _ HJ Hall) as Efree. cbn [cells list_top] in Efree.
  set (s1 := set_job_list None 0 (set_job_masterlist empty_lst s)).
  assert (destroy_joblist top s = Done (tt, s1)) as Ejobs.
  { unfold destroy_joblist. by rewrite M_bind_gets, (M_bind_lift _ _ _ _ Efree), M_bind_modify. }
  destruct (visit_ips_ok ips ports rts Hips Hrts) as (out & Eout & Er).
  assert (print_results s1 = Done out) as Eprint.
  { unfold print_results. cbn [ip_list port_list result_list s1 set_job_list set_job_masterlist].
    by rewrite (lst_nodes_ok _ _ (exact_data _ _ HI)), (lst_nodes_ok _ _ (exact_data _ _ HP)), (lst_nodes_ok _ _ (exact_data _ _ HR)). }
  exists out. eexists. unfold finish. rewrite (M_seq _ _ _ _ Ejobs), M_bind_gets, (M_bind_lift _ _ _ _ Eprint).
  rewrite (M_seq _ _ _ _ (destroy_iplist_ok s1 ips HI)), (M_seq _ _ _ _ (destroy_portlist_ok (set_ip_list empty_lst s1) ports HP)).
  rewrite (M_seq _ _ _ _ (destroy_results_ok (set_port_list empty_lst (set_ip_list empty_lst s1)) rts HR)).
  split; [done|]. split; [rewrite Er; by apply printed_perm|done].
Qed.

(** Creating the jobs of a configuration. *)
Lemma jobs_made s ips ports :
  lst_exact (ip_list s) ips → lst_exact (port_list s) ports → job_masterlist s = empty_lst → length (scan s) = 6%nat →
  Forall (λ ip, length ip = 16%nat ∧ 0 ∈ ip) ips →
  let jobs := rev (all_jobs (scan s) ips ports) in
  jobs ≠ [] → Z.of_nat (length jobs) < int_max →
  ∃ J lj, create_jobs s = Done (Returns tt, set_job_masterlist J s) ∧ lst_rep J lj ∧
    (∀ a n, cells J !! a = Some n → a ∈ lj.*1) ∧ lj.*2 = jobs ∧ Forall job_ok lj.*2.
Proof.
  intros HI HP HJ0 Hsc Hips jobs Hne Hlen.
  assert (Forall (λ ip, Z.of_nat (length ip) = INET_ADDRSTRLEN) ips) as Hips16
    by (eapply Forall_impl; [exact Hips|]; intros ip [-> _]; done).
  destruct (job_scans_loop_ok lst_exact push_exact ips ports (scan s) 0 s [] eq_refl Hips16 (exact_data _ _ HI) (exact_data _ _ HP))
    as (J & E & HJ).
  { rewrite HJ0. apply empty_exact. }
  { unfold jobs in Hlen. rewrite length_rev in Hlen. unfold all_jobs in Hlen. cbn [length Nat.add]. lia. }
  rewrite app_nil_r in HJ. change (lst_exact J jobs) in HJ. rewrite Hsc in E.
  destruct (lst_data_empty _ _ (exact_data _ _ HJ) Hne) as [top Htop]. destruct HJ as (lj & HJ & Hlj & Hall).
  exists J, lj. split; [|split; [done|split; [done|split; [done|]]]].
  - unfold create_jobs. rewrite (M_seq _ _ _ _ E), M_bind_gets. cbn [job_masterlist set_job_masterlist]. by rewrite Htop.
  - rewrite Hlj. unfold jobs. apply Forall_rev. by apply all_jobs_ok.
Qed.

Section scanner.
Context (getservbyport : Z → bool → option (list Z)) (threads : M ps_state unit).

(** C11: the whole scan without threads.  With addresses and ports listed
    once, [main] makes the job of every selected scan, address and port, works
    them off in turn, and its report shows, each once and in some order, the
    results of the table these jobs filled whose address and port are listed
    and whose conclusion is one of the six kinds ([print_results] passes over the
    rest); then every node of the four lists has been freed. *)
Theorem main_scan_reports s ips ports ifas localip stack rounds :
  lst_exact (ip_list s) ips → lst_exact (port_list s) ports →
  job_masterlist s = empty_lst → result_list s = empty_lst → no_of_threads s = 0 → length (scan s) = 6%nat →
  Forall (λ ip, length ip = 16%nat ∧ 0 ∈ ip) ips → NoDup (ip_text <$> ips) → NoDup ports →
  let jobs := rev (all_jobs (scan s) ips ports) in
  jobs ≠ [] → Z.of_nat (length jobs) < int_max →
  find_localip ifas = Done (Returns localip) → length stack = 16%nat →
  (∀ k i pkt, rounds k i = RPacket pkt → readable true pkt) →
  ∃ conf out s' results, main_scan getservbyport threads ifas stack rounds s = Done (Returns (conf, out), s') ∧
    table_for (scan_events jobs rounds 0) results ∧
    records_of out ≡ₚ filter (λ r, (r_portno r ∈ ports ∧ 0 <= r_conclusion r <= 5) ∧
                                   ip_text (r_ip r) ∈ ip_text <$> ips) results ∧
    all_freed s'.
Proof.
  intros HI HP HJ0 HR0 Hthr Hsc Hips Hndi Hndp jobs Hne Hlen Hlocal Hstack Hread.
  assert (Forall (λ ip, 0 ∈ ip) ips) as Hips0 by (eapply Forall_impl; [exact Hips|]; by intros ip [_ ?]).
  destruct (jobs_made s ips ports HI HP HJ0 Hsc Hips Hne Hlen) as (J & lj & Ecreate & HJ & Hall & Hlj & Hok).
  change (lj.*2 = jobs) in Hlj. set (s1 := set_job_masterlist J s) in *.
  destruct (print_configurations_done s1 ips (exact_data _ _ HI) Hips0) as (conf & Econf).
  assert (length lj = length jobs) as Hljl by (by rewrite <- Hlj, length_fmap).
  assert (table_on True (result_list s1) [] []) as Ht0.
  { cbn. rewrite HR0. split; [split; [split; [done|apply NoDup_nil_2|done]|]|intros _ b [n Hb]; done].
    split; [constructor|apply NoDup_nil_2|done]. }
  destruct (ps_default_ok getservbyport True stack rounds Hstack Hread lj (size (cells J)) 0 s1 [] [] HJ Hok
    (chain_size _ _ _ (rep_chain _ _ HJ) (rep_nodup _ _ HJ)) Ht0 ltac:(cbn; lia)) as (J2 & L & l & Escan & [Htop2 Hcells] & [HL Htab] & Hown).
  rewrite app_nil_l, Hlj in Htab.
  set (s2 := set_result_list L (set_job_masterlist J2 s1)) in *.
  destruct (finish_ok s2 (list_top J) lj ips ports l.*2 conf) as (out & s' & Efin & Hout & Hend).
  { cbn. rewrite Hcells. split; [apply HJ|apply HJ|done]. } { cbn. by rewrite Hcells. } { done. } { done. }
  { exists l. split; [done|]. split; [done|]. intros a n Ha. apply (Hown I). by exists n. } { done. }
  { eapply Forall_impl; [apply (table_entries _ _ Htab)|]. by intros r [[? _] _]. } { done. } { done. }
  exists conf, out, s', l.*2. split; [|done].
  unfold main_scan. rewrite (M_bind_done _ _ _ _ _ Ecreate), M_bind_gets, (M_bind_lift _ _ _ _ Hlocal), M_bind_gets.
  rewrite (M_bind_lift _ _ _ _ Econf). unfold id. rewrite (proj2 (Z.eqb_eq (no_of_threads s1) 0)) by done.
  by rewrite (M_seq _ _ _ _ Escan).
Qed.
End scanner.

(** ** A scan *)

Definition eth0 : list ifaddrs :=
  [Ifaddrs (bytes "lo") (Some (AF_INET, bytes "127.0.0.1")); Ifaddrs (bytes "eth0") (Some (AF_INET, bytes "10.0.0.5"))].

(** Two addresses and one port, by SYN and by UDP, and nobody answers. *)
Lemma main_scan_reports_witness : ∃ conf out s' results,
  main_scan no_service (mret tt) eth0 sample_stack (λ _ _, RTimeout) sample_state = Done (Returns (conf, out), s') ∧
  table_for (scan_events (rev (all_jobs [1; 0; 0; 0; 0; 1] [ip_cell "10.0.0.1"; ip_cell "10.0.0.2"] [80])) (λ _ _, RTimeout) 0) results ∧
  all_freed s'.
Proof.
  destruct (main_scan_reports no_service (mret tt) sample_state [ip_cell "10.0.0.1"; ip_cell "10.0.0.2"] [80] eth0 (bytes "10.0.0.5")
    sample_stack (λ _ _, RTimeout)) as (conf & out & s' & results & E & Ht & _ & Hfree).
  - apply sample_ips_exact.
  - apply sample_ports_exact.
  - reflexivity.
  - reflexivity.
  - reflexivity.
  - reflexivity.
  - apply (bool_decide_unpack _). vm_compute. exact I.
  - apply (bool_decide_unpack _). vm_compute. exact I.
  - apply (bool_decide_unpack _). vm_compute. exact I.
  - vm_compute. discriminate.
  - vm_compute. reflexivity.
  - vm_compute. reflexivity.
  - reflexivity.
  - done.
  - exists conf, out, s', results. split; [exact E|]. split; [exact Ht|exact Hfree].
Defined.

(** The whole program: port 80 of a host answers SYN with SYN and ACK. *)
Definition run_of_main : outcome (exits (list Z * list piece) * ps_state) :=
  main (λ _, Some (ip_cell "10.0.0.1")) no_files no_service (mret tt)
    [OptIp (bytes "10.0.0.1"); OptPorts (bytes "80"); OptScan (bytes "SYN")] [] eth0 sample_stack
    (λ _ _, RPacket syn_ack) ps_zero.
Theorem open_port_is_reported : ∃ conf out s',
  run_of_main = Done (Returns (conf, out), s') ∧
  (λ r, (r_portno r, ip_text (r_ip r), r_conclusion r)) <$> records_of out = [(80, bytes "10.0.0.1", R_OPEN)] ∧
  cells (result_list s') = ∅ ∧ cells (job_masterlist s') = ∅.
Proof. do 3 eexists. split; [vm_compute; reflexivity|]. repeat split; vm_compute; reflexivity. Qed.
