(* ===== verification/EsData.v ===== *)
(** * Elasticsearch client: memory and data (module_function/es_http_api.c)

    Every string and node of a response comes from the pool of its slot
    ([ngx_pnalloc]), which is emptied at once when the slot is given back.
    [EsPool] is what the client relies on: a request gives bytes of the right
    number with any content, or NULL.  EsPool.v shows that the pool of MemPool
    keeps this promise.  The bytes handed out share nothing with what was
    handed out before, so the strings of a response are values here. *)

From S2P Require Import Prelude CString FrameTool PsText PsList KeyValue.
From stdpp Require Import gmap strings.

Open Scope Z_scope.

(** [plenty]: no request of this pool fails. *)
Class EsPool (P : Type) := {
  pnalloc : Z → M P (option (list Z));
  pool_reset : M P unit;
  pool_good : P → Prop;
  plenty : P → Prop;
  pnalloc_ok n p : pool_good p → 0 <= n → ∃ o p',
    pnalloc n p = Done (o, p') ∧ pool_good p' ∧ (plenty p → is_Some o ∧ plenty p') ∧
    ∀ b, o = Some b → Z.of_nat (length b) = n;
  pool_reset_ok p : pool_good p → ∃ p', pool_reset p = Done (tt, p') ∧ pool_good p' ∧ (plenty p → plenty p');
}.

Lemma pnalloc_plenty `{EsPool P} n (p : P) :
  pool_good p → plenty p → 0 <= n → ∃ b p',
  pnalloc n p = Done (Some b, p') ∧ pool_good p' ∧ plenty p' ∧ Z.of_nat (length b) = n.
Proof.
  intros Hg Hp Hn. destruct (pnalloc_ok n p Hg Hn) as (o & p' & E & Hg' & Hs & Hl).
  destruct (Hs Hp) as [[b ->] Hp']. exists b, p'. by auto.
Qed.

(** A pool that serves every request with bytes that are all [c]. *)
#[export, refine] Instance filled_pool : EsPool Z := {
  pnalloc n c := Done (Some (replicate (Z.to_nat n) c), c);
  pool_reset c := Done (tt, c);
  pool_good _ := True;
  plenty _ := True;
}.
Proof.
  - intros n p _ Hn. do 2 eexists. split; [done|]. split; [done|]. split; [by eauto|].
    intros b [= <-]. rewrite length_replicate. lia.
  - intros p _. by exists p.
Defined.

(** ** Elasticsearch client: data and text (module_function/es_http_api.c)

    The records of es_http_api.h, http_head_info.h, es_obj_info.h and
    es_search_result.h.  The key-value nodes are those of KeyValue, the
    objects of a search result form a list of the same kind.  The code works
    on a buffer with pointers into it: here positions; a position behind the
    buffer faults when it is read. *)

(** ** Data *)

Inductive VERB_METHOD := GET_METHOD | POST_METHOD | PUT_METHOD | HEAD_METHOD | DELETE_METHOD.
Inductive PROTOCOL_TYPE := HTTP | HTTPS.

Definition ES_MEM_POLL_SIZE : Z := 1024.
Definition SOCKET_BUFF_LEN : Z := 1024.
Definition AN_SOCKET_BUFF_LEN : Z := SOCKET_BUFF_LEN * 2.
Definition SOCKET_BUF_RECV : Z := SOCKET_BUFF_LEN - 1.
Definition ES_RESPOND_ARRAY_LEN : nat := 10.
Definition ES_RESPOND_ARRAY_ALL_LEN : nat := ES_RESPOND_ARRAY_LEN + 1.

Definition verb_str_arr (v : VERB_METHOD) : list Z :=
  match v with
  | GET_METHOD => bytes "GET" | POST_METHOD => bytes "POST" | PUT_METHOD => bytes "PUT"
  | HEAD_METHOD => bytes "HEAD" | DELETE_METHOD => bytes "DELETE"
  end.
Definition protocol_str (t : PROTOCOL_TYPE) : list Z :=
  match t with HTTP => bytes "HTTP/1.1" | HTTPS => bytes "HTTPS/1.1" end.

(** A [char *] field is the block it points to. *)
Notation text := (option (list Z)).

Record HTTP_HEAD_INFO := HttpHead {
  ver : text; note : text; ret_code : Z; body_len : Z; http_head : ptr;
}.
Record OBJ_INFO := ObjInfo { o_index : text; o_type : text; o_id : text; o_head : ptr }.
Notation obj_heap := (gmap positive (node OBJ_INFO)).
Record ES_SEARCH_RESULT := EsSearch { s_total : Z; s_head : ptr; s_tail : ptr }.
Record ES_REQUEST := EsRequest { path_str : text; query_str : text; body_str : text; verb : VERB_METHOD }.

(** [sta_]: 0 is free, 1 is to be sent, 2 sent, 3 answered.  [call_] names the
    callback. *)
Record ES_RESPOND := EsRespond {
  sta_ : Z;
  http : option HTTP_HEAD_INFO;
  message : text;
  err_message : text;
  search : option ES_SEARCH_RESULT;
  req_ : option ES_REQUEST;
  req_buf : text;
  call_ : option Z;
}.
Definition empty_respond : ES_RESPOND := EsRespond 0 None None None None None None None.

Definition set_http x r := EsRespond (sta_ r) x (message r) (err_message r) (search r) (req_ r) (req_buf r) (call_ r).
Definition set_message x r := EsRespond (sta_ r) (http r) x (err_message r) (search r) (req_ r) (req_buf r) (call_ r).
Definition set_err_message x r := EsRespond (sta_ r) (http r) (message r) x (search r) (req_ r) (req_buf r) (call_ r).
Definition set_search x r := EsRespond (sta_ r) (http r) (message r) (err_message r) x (req_ r) (req_buf r) (call_ r).

(** ** The objects of a search result (es_obj_info.c) *)

(** The new [*head]. *)
Definition add_objinfo_after_head (head : ptr) (node : ptr) (h : obj_heap) : outcome (ptr * obj_heap) :=
  match head with
  | None => Done (node, h)
  | Some _ =>
      (fix walk (fuel : nat) (tail : ptr) : outcome (ptr * obj_heap) :=
         n ← deref h tail;
         match n_next n, tail, fuel with
         | None, Some a, _ => mret (head, <[a := Node (n_data n) node]> h)
         | None, None, _ => Fault NullDeref
         | Some _, _, O => NoFuel
         | Some _, _, S f => walk f (n_next n)
         end) (size h) head
  end.
(** The new [*tail]. *)
Definition add_objinfo_after_tail (tail : ptr) (node : ptr) (h : obj_heap) : outcome (ptr * obj_heap) :=
  match tail with
  | None => Done (None, h)
  | Some a => n ← deref h tail; mret (node, <[a := Node (n_data n) node]> h)
  end.

(** ** The state of an analysis *)

Section data.
Context {P : Type} `{EsPool P}.

(** The response, its nodes, its pool, and the caller's [bit_move]. *)
Record ana := Ana {
  a_res : ES_RESPOND;
  a_kv : gmap positive (node KEY_VALUE_NODE);
  a_obj : obj_heap;
  a_pool : P;
  bit_move : Z;
}.
Definition set_res (r : ES_RESPOND) (s : ana) : ana := Ana r (a_kv s) (a_obj s) (a_pool s) (bit_move s).
Definition set_kv h (s : ana) : ana := Ana (a_res s) h (a_obj s) (a_pool s) (bit_move s).
Definition set_obj h (s : ana) : ana := Ana (a_res s) (a_kv s) h (a_pool s) (bit_move s).
Definition set_pool p (s : ana) : ana := Ana (a_res s) (a_kv s) (a_obj s) p (bit_move s).
Definition set_bit (b : Z) (s : ana) : ana := Ana (a_res s) (a_kv s) (a_obj s) (a_pool s) b.

(** A run goes on with a value or returns a code. *)
Definition E (A : Type) : Type := ana → outcome ((A + Z) * ana).
Definition ebind {A B} (m : E A) (f : A → E B) : E B := λ s,
  match m s with
  | Done (inl a, s') => f a s'
  | Done (inr z, s') => Done (inr z, s')
  | Fault e => Fault e
  | NoFuel => NoFuel
  end.
Definition val {A} (a : A) : E A := λ s, Done (inl a, s).
Definition return_ {A} (z : Z) : E A := λ s, Done (inr z, s).
Definition run {A} (m : outcome A) : E A := λ s, a ← m; Done (inl a, s).
Definition get {A} (f : ana → A) : E A := λ s, Done (inl (f s), s).
Definition upd (f : ana → ana) : E unit := λ s, Done (inl tt, f s).
Definition upd_res (f : ES_RESPOND → ES_RESPOND) : E unit := upd (λ s, set_res (f (a_res s)) s).
Definition no_fuel {A} : E A := λ _, NoFuel.

(** [ngx_pnalloc]; [if (p == NULL) return -1;] *)
Definition alloc (n : Z) : E (list Z) := λ s,
  '(o, p) ← pnalloc n (a_pool s);
  Done (match o with Some b => inl b | None => inr (-1) end, set_pool p s).
End data.
Arguments ana P : clear implicits.
Arguments E P A : clear implicits.

Declare Scope es_scope.
Delimit Scope es_scope with es.
Notation "x ⇐ m ; k" := (ebind m (λ x, k)) (at level 20, m at level 100, k at level 200, right associativity) : es_scope.
Notation "m ;> k" := (ebind m (λ _, k)) (at level 100, k at level 200, right associativity) : es_scope.
Open Scope es_scope.

(** ** Searching from a position of the buffer *)

(** An offset from [p]. *)
Definition ahead (p : nat) (r : option nat) : option nat := Nat.add p <$> r.

Section text.
Context (str : list Z).

(** [framestr_frist_constchar(p, c)] *)
Definition chr (p : option nat) (c : Z) : outcome (option nat) :=
  match p with
  | None => framestr_frist_constchar None c
  | Some p => r ← framestr_frist_constchar (Some (drop p str)) c; mret (ahead p r)
  end.
(** [framestr_first_conststr(p, lit)] *)
Definition find_str (p : option nat) (lit : list Z) : outcome (option nat) :=
  match p with
  | None => framestr_first_conststr None (Some (lit ++ [0]))
  | Some p => r ← framestr_first_conststr (Some (drop p str)) (Some (lit ++ [0])); mret (ahead p r)
  end.
Definition start_digit (p : nat) : outcome (option nat) :=
  r ← framestr_start_digital_char (Some (drop p str)); mret (ahead p r).
Definition end_digit (p : nat) : outcome (option nat) :=
  r ← framestr_end_digital_char (Some (drop p str)); mret (ahead p r).
(** The [n] bytes at [p]. *)
Definition bytes_at (p : nat) (n : Z) : outcome (list Z) := mem_read (drop p str) n.

(** A number copied into [tmp_char[32]] for [atoi]. *)
Definition tmp_atoi (p : nat) (n : Z) : outcome Z :=
  s ← bytes_at p n; tmp_char ← mem_write (replicate 32 0) 0 s; t ← c_str tmp_char; atoi t.
End text.

(** [p && p < q] for pointers into the buffer. *)
Definition before (p : option nat) (q : nat) : bool := match p with Some p => (p <? q)%nat | None => false end.

Section copy.
Context {P : Type} `{EsPool P}.

(** A copy of the bytes from [p] to [q]: [if (str_len > 0)] a block of one
    more is taken, cleared and filled. *)
Definition copy_text (str : list Z) (p q : nat) : E P text :=
  let str_len := Z.of_nat q - Z.of_nat p in
  if 0 <? str_len then
    b ⇐ alloc (str_len + 1);
    s ⇐ run (bytes_at str p str_len);
    w ⇐ run (mem_write (replicate (length b) 0) 0 s);
    val (Some w)
  else val None.

(** A node with its key and value hung behind the list at [head]. *)
Definition hang_keyvalue (head : ptr) (n : KEY_VALUE_NODE) : E P ptr :=
  h ⇐ get a_kv;
  let a := new_addr h in
  r ⇐ run (add_keyvalue_after_head head (Some a) (<[a := Node n None]> h));
  upd (set_kv r.2) ;> val r.1.
End copy.
