(* ===== verification/EsPool.v ===== *)
(** * Elasticsearch client: the pools of memory_pool.c

    The pool of MemPool keeps the promise of [EsPool]: [ngx_pnalloc] returns
    NULL only when [malloc] does, and otherwise memory of the pool that shares
    nothing with what it handed out before, with whatever bytes are there. *)

From S2P Require Import Prelude MemPool MemPoolSpec MemPoolAlloc MemPoolThms EsData.
From stdpp Require Import gmap.

Open Scope Z_scope.

(** A pool in memory, and the bytes that unwritten memory holds. *)
Record ngx_mem := NgxMem { nm_mem : mem; nm_pool : nat; nm_bytes : addr → nat → Z }.

Definition nm_pnalloc (n : Z) : M ngx_mem (option (list Z)) := λ p,
  '(o, m) ← ngx_pnalloc (nm_pool p) (if n <? 0 then size_t n else n) (nm_mem p);
  mret (option_map (λ a, map (nm_bytes p a) (seq 0 (Z.to_nat n))) o, NgxMem m (nm_pool p) (nm_bytes p)).
Definition nm_reset : M ngx_mem unit := λ p,
  '(_, m) ← ngx_reset_pool (nm_pool p) (nm_mem p);
  mret (tt, NgxMem m (nm_pool p) (nm_bytes p)).

Definition nm_good (p : ngx_mem) : Prop :=
  ∃ h bs sz ls, pool_rep (nm_mem p) (nm_pool p) h bs sz ls ∧ sizeof_pool + sizeof_large <= sz.
Definition nm_plenty (p : ngx_mem) : Prop := true ∉ m_fails (nm_mem p).

(** ** [malloc] is asked, and nothing else decides *)

Definition asks {A} (f : M mem A) : Prop := ∀ m r m', f m = Done (r, m') → m_fails m' ⊆ m_fails m.

Lemma asks_ret {A} (a : A) : asks (mret a).
Proof. by intros m r m' [= <- <-]. Qed.
Lemma asks_bind {A B} (f : M mem A) (g : A → M mem B) : asks f → (∀ a, asks (g a)) → asks (f ≫= g).
Proof. intros Hf Hg m r m' (a & m1 & E1 & E2)%M_bind_inv. etransitivity; [by eapply Hg|by eapply Hf]. Qed.
Lemma asks_gets {A} (f : mem → A) : asks (gets f).
Proof. by intros m r m' [= <- <-]. Qed.
Lemma asks_modify f : (∀ m, m_fails (f m) = m_fails m) → asks (modify f).
Proof. intros Hf m r m' [= <- <-]. by rewrite Hf. Qed.
Lemma asks_fault {A} e : asks (fault_with e : M mem A).
Proof. done. Qed.
Lemma asks_touch a n : asks (touch a n).
Proof. intros m r m'. unfold touch. destruct (m_live m !! a_blk a); [|done]. destruct (_ && _); [|done]. by intros [= <- <-]. Qed.
Lemma asks_found {N} (x : mem → option N) : asks (found x).
Proof. intros m r m'. unfold found. destruct (x m); [|done]. by intros [= <- <-]. Qed.
Lemma asks_malloc n : asks (malloc n).
Proof. intros m r m'. unfold malloc. destruct (m_fails m) as [|[] fs] eqn:E; intros [= <- <-]; cbn; set_solver. Qed.
Lemma asks_free p : asks (free p).
Proof. intros m r m'. unfold free. destruct p as [a|]; [|by intros [= <- <-]]. case_decide; [|done]. by intros [= <- <-]. Qed.
Lemma asks_nofuel {A} : asks (λ _ : mem, NoFuel : outcome (A * mem)).
Proof. done. Qed.

Create HintDb asks.
#[export] Hint Resolve asks_ret asks_gets asks_fault asks_touch asks_found asks_malloc asks_free asks_nofuel : asks.
#[export] Hint Extern 1 (asks (modify _)) => by apply asks_modify : asks.

Ltac asks :=
  repeat match goal with
  | |- asks (_ ≫= _) => apply asks_bind; [|intros ?]
  | |- asks (match ?x with _ => _ end) => destruct x
  | |- asks (if ?x then _ else _) => destruct x
  | |- asks _ => solve [auto with asks]
  end.

Lemma asks_at_block {N} (get : mem → gmap nat N) n p : asks (at_block get n p).
Proof. unfold at_block. asks. Qed.
Lemma asks_at_addr {N} (get : mem → gmap addr N) n p : asks (at_addr get n p).
Proof. unfold at_addr. asks. Qed.
#[export] Hint Resolve asks_at_block asks_at_addr : asks.

Lemma asks_put_data b d : asks (put_data b d).
Proof. unfold put_data. asks. Qed.
Lemma asks_put_pool b d : asks (put_pool b d).
Proof. unfold put_pool. asks. Qed.
Lemma asks_put_large b d : asks (put_large b d).
Proof. unfold put_large. asks. Qed.
#[export] Hint Resolve asks_put_data asks_put_pool asks_put_large : asks.

Lemma asks_palloc_walk n al : ∀ fuel p, asks (palloc_walk fuel p n al).
Proof. induction fuel as [|f IH]; intros p; cbn [palloc_walk]; unfold get_data; asks; apply IH. Qed.
Lemma asks_bump_failed pool : ∀ fuel p, asks (bump_failed fuel pool p).
Proof. induction fuel as [|f IH]; intros p; cbn [bump_failed]; unfold get_data, get_pool; asks; apply IH. Qed.
Lemma asks_large_slot : ∀ fuel n l, asks (large_slot fuel n l).
Proof. induction fuel as [|f IH]; intros n l; cbn [large_slot]; unfold get_large; asks; apply IH. Qed.
Lemma asks_free_large : ∀ fuel l, asks (free_large fuel l).
Proof. induction fuel as [|f IH]; intros l; cbn [free_large]; unfold get_large; asks; apply IH. Qed.
Lemma asks_reset_chain : ∀ fuel p, asks (reset_chain fuel p).
Proof. induction fuel as [|f IH]; intros p; cbn [reset_chain]; unfold get_data; asks; apply IH. Qed.
#[export] Hint Resolve asks_palloc_walk asks_bump_failed asks_large_slot asks_free_large asks_reset_chain : asks.

Lemma asks_small pool n al : asks (ngx_palloc_small pool n al).
Proof. unfold ngx_palloc_small, ngx_palloc_block, get_pool, get_data, ngx_alloc. asks. Qed.
#[export] Hint Resolve asks_small : asks.
Lemma asks_pnalloc pool n : asks (ngx_pnalloc pool n).
Proof. unfold ngx_pnalloc, ngx_palloc_large, add_large, get_pool, get_large, ngx_alloc. asks. Qed.
Lemma asks_reset pool : asks (ngx_reset_pool pool).
Proof. unfold ngx_reset_pool, get_pool. asks. Qed.

(** ** The promise is kept *)

#[export, refine] Instance ngx_es_pool : EsPool ngx_mem := {
  pnalloc := nm_pnalloc; pool_reset := nm_reset; pool_good := nm_good; plenty := nm_plenty;
}.
Proof.
  - intros n p (h & bs & sz & ls & Hrep & Hsz) Hn.
    destruct (palloc_grants (nm_mem p) (nm_pool p) h bs sz ls false n Hrep Hsz Hn) as (r & m' & E & Hr).
    cbn [palloc] in E. unfold nm_pnalloc. rewrite (proj2 (Z.ltb_ge n 0)) by lia. rewrite E.
    eexists _, _. split; [reflexivity|]. split; [|split].
    + destruct r as [a|].
      * destruct Hr as [(h' & bs' & ls' & Hrep' & _) _]. by exists h', bs', sz, ls'.
      * destruct Hr as (_ & h' & Hrep' & _). by exists h', bs, sz, ls.
    + intros Hpl. split; [|intros Hin; apply Hpl; by eapply asks_pnalloc].
      destruct r as [a|]; [done|]. by destruct Hr as [Hin _].
    + intros b Hb. destruct r as [a|]; [|done]. injection Hb as <-. rewrite List.length_map, length_seq. lia.
  - intros p (h & bs & sz & ls & Hrep & Hsz).
    destruct (reset_pool_ok _ _ _ _ _ _ Hrep) as (m' & E & Hrep' & _). unfold nm_reset. rewrite E.
    eexists. split; [reflexivity|]. split; [by eexists _, bs, sz, []|].
    intros Hpl Hin. apply Hpl. by eapply asks_reset.
Defined.
