(* ===== verification/EsHead.v ===== *)
(** * Elasticsearch client: the buffer and the head of an answer
    (module_function/es_http_api.c)

    [memory_char_move_bit] drops what was analysed from the receive buffer;
    [analysis_http_head_str] reads an HTTP head into the response. *)

From S2P Require Import Prelude CString PsList PsText FrameTool KeyValue EsData.
From stdpp Require Import gmap strings.

Open Scope Z_scope.

(** [*p_char = *q_char; p_char++; q_char++;], [n] times. *)
Fixpoint move_loop (n : nat) (buf : list Z) (p_char q_char : nat) : outcome (list Z) :=
  match n with
  | O => Done buf
  | S n' =>
      c ← rd buf q_char;
      b ← mem_write buf p_char [c];
      move_loop n' b (S p_char) (S q_char)
  end.

(** [be_size] is the size the caller gives; [begin] is the whole buffer. *)
Definition memory_char_move_bit (begin : list Z) (bit be_size : Z) : outcome (list Z) :=
  if be_size <=? bit then Done begin
  else
    buf_len ← frame_strlen (Some begin);
    if buf_len <=? bit then mem_write begin 0 (replicate (Z.to_nat bit) 0)
    else if bit <? 0 then Fault OutOfBounds
    else
      let q_char := Z.to_nat bit in
      buf_len ← frame_strlen (Some (drop q_char begin));
      if be_size <=? buf_len then Done begin
      else
        b ← move_loop (Z.to_nat buf_len) begin 0 q_char;
        mem_write b (Z.to_nat buf_len) (replicate (Z.to_nat (be_size - buf_len)) 0).

Section head.
Context {P : Type} `{EsPool P}.

(** [head_nofull]: the head is not complete, it will be read again. *)
Definition head_nofull {A} : E P A := upd_res (set_http None) ;> return_ 1.

Definition upd_head (f : HTTP_HEAD_INFO → HTTP_HEAD_INFO) : E P unit :=
  upd_res (λ r, set_http (f <$> http r) r).

(** The node of the line from [q_char] to [p_char] with a colon at [p_colon]. *)
Definition head_line (str : list Z) (q_char p_colon p_char : nat) : E P KEY_VALUE_NODE :=
  _ ⇐ alloc 24;
  key ⇐ copy_text str q_char p_colon;
  v ⇐ run (skip_fwd (λ c, (c =? 32) || (c =? 9)) (drop (p_colon + 1) str) (p_colon + 1));
  value ⇐ copy_text str v p_char;
  val (KV key value).

(** [seq_str] *)
Definition seq_str : list Z := [13; 10].

(** The [while] loop over the lines: where it ends. *)
Fixpoint head_lines (fuel : nat) (str : list Z) (q_char : nat) (p_char : option nat) : E P nat :=
  match p_char with
  | None => val q_char
  | Some p =>
      p_colon ⇐ run (chr str (Some q_char) 58);
      if before p_colon p then
        n ⇐ head_line str q_char (default O p_colon) p;
        i ⇐ get (λ s, http (a_res s));
        head ⇐ hang_keyvalue (from_option http_head None i) n;
        upd_head (λ i, HttpHead (ver i) (note i) (ret_code i) (body_len i) head) ;>
        p_char ⇐ run (find_str str (Some (p + 2)%nat) seq_str);
        match fuel with O => no_fuel | S f => head_lines f str (p + 2)%nat p_char end
      else val (p + 2)%nat
  end.

(** The status line: the version, the code and the note; where it ends. *)
Definition status_line (str : list Z) : E P nat :=
  p ⇐ run (chr str (Some O) 32);
  match p with
  | None => head_nofull
  | Some p =>
      v ⇐ copy_text str 0 p;
      upd_head (λ i, HttpHead v (note i) (ret_code i) (body_len i) (http_head i)) ;>
      let q_char := (p + 1)%nat in
      p ⇐ run (chr str (Some q_char) 32);
      match p with
      | None => head_nofull
      | Some p =>
          (if (0 <? Z.of_nat p - Z.of_nat q_char) then
             c ⇐ run (tmp_atoi str q_char (Z.of_nat p - Z.of_nat q_char));
             upd_head (λ i, HttpHead (ver i) (note i) c (body_len i) (http_head i))
           else val tt) ;>
          let q_char := (p + 1)%nat in
          p ⇐ run (find_str str (Some q_char) seq_str);
          match p with
          | None => head_nofull
          | Some p =>
              t ⇐ copy_text str q_char p;
              upd_head (λ i, HttpHead (ver i) t (ret_code i) (body_len i) (http_head i)) ;>
              val (p + 2)%nat
          end
      end
  end.

(** [Content-Length] *)
Definition content_length : E P unit :=
  i ⇐ get (λ s, http (a_res s));
  h ⇐ get a_kv;
  v ⇐ run (find_value_after_head (from_option http_head None i) (c_lit "Content-Length") h);
  match v with
  | None => head_nofull
  | Some b =>
      t ⇐ run (c_str b); l ⇐ run (atoi t);
      upd_head (λ i, HttpHead (ver i) (note i) (ret_code i) l (http_head i))
  end.

(** Falls off with [return 0]. *)
Definition analysis_http_head_str (str : list Z) : E P unit :=
  _ ⇐ run (frame_strlen (Some str));
  i ⇐ get (λ s, http (a_res s));
  match i with
  | Some _ => return_ (-3)
  | None =>
      _ ⇐ alloc 32;
      upd_res (set_http (Some (HttpHead None None 0 0 None))) ;>
      q_char ⇐ status_line str;
      p_char ⇐ run (find_str str (Some q_char) seq_str);
      q_char ⇐ head_lines (length str) str q_char p_char;
      content_length ;>
      upd (λ s, set_bit (bit_move s + Z.of_nat q_char) s)
  end.
End head.
