(* ===== verification/EsJson.v ===== *)
(** * Elasticsearch client: the body of an answer (module_function/es_http_api.c)

    [analysis_http_json_str] keeps a short body or that of an error as text and
    reads a search result: the total, then object by object with its pairs.
    The code that reads the objects is in the source twice, for the first and
    for the following parts of a body; here once. *)

From S2P Require Import Prelude CString PsList PsText FrameTool KeyValue EsData EsHead.
From stdpp Require Import gmap strings.

Open Scope Z_scope.

Definition http_str : list Z := bytes "HTTP".
Definition hit_str : list Z := bytes "hits".
Definition total_str : list Z := bytes "total".
Definition _index_str : list Z := bytes "_index".
Definition _type_str : list Z := bytes "_type".
Definition _id_str : list Z := bytes "_id".

Section json.
Context {P : Type} `{EsPool P}.

(** A number behind the colon, if it ends before the comma. *)
Definition number_value (str : list Z) (p_colon p_comma : nat) : E P text :=
  p_left_quot ⇐ run (start_digit str p_colon);
  if before p_left_quot p_comma then
    let l := default O p_left_quot in
    p_right_quot ⇐ run (end_digit str l);
    if before p_right_quot (S p_comma) then copy_text str l (default O p_right_quot) else val None
  else val None.
(** The text between the quote before [p_left_quot] and the next one, if that is
    before [p_end]. *)
Definition quoted (str : list Z) (p_left_quot p_end : nat) : E P text :=
  p_right_quot ⇐ run (chr str (Some p_left_quot) 34);
  if before p_right_quot p_end then copy_text str p_left_quot (default O p_right_quot) else val None.

(** One of [_index], [_type], [_id]: its value and the next [p_char]. *)
Definition obj_field (name : list Z) (str : list Z) (p_char : option nat) (p_left_brack : nat)
  : E P (text * option nat) :=
  p_char ⇐ run (find_str str p_char name);
  if before p_char p_left_brack then
    p_comma ⇐ run (chr str p_char 44);
    let comma := if before p_comma (S p_left_brack) then default O p_comma else p_left_brack in
    p_colon ⇐ run (chr str p_char 58);
    v ⇐ (if before p_colon comma then
           let colon := default O p_colon in
           p_left_quot ⇐ run (chr str (Some colon) 34);
           if before p_left_quot (S comma) then quoted str (S (default O p_left_quot)) comma
           else number_value str colon comma
         else val None);
    val (v, Some (S comma))
  else val (None, p_char).
Definition index_field := obj_field _index_str.
Definition type_field := obj_field _type_str.
Definition id_field := obj_field _id_str.

(** The pair between [p_char] and [p_comma] with the colon at [colon]. *)
Definition source_pair (str : list Z) (p_char colon p_comma : nat) : E P KEY_VALUE_NODE :=
  _ ⇐ alloc 24;
  p_left_quot ⇐ run (chr str (Some p_char) 34);
  key ⇐ (if before p_left_quot colon then quoted str (S (default O p_left_quot)) colon else val None);
  p_left_quot ⇐ run (chr str (Some colon) 34);
  value ⇐ (if before p_left_quot p_comma then quoted str (S (default O p_left_quot)) p_comma
           else number_value str colon p_comma);
  val (KV key value).

Definition upd_search (f : ES_SEARCH_RESULT → ES_SEARCH_RESULT) : E P unit :=
  upd_res (λ r, set_search (f <$> search r) r).

(** The object goes into the list before its pairs are read. *)
Definition hang_object (o : OBJ_INFO) : E P positive :=
  h ⇐ get a_obj;
  let a := new_addr h in
  let h := <[a := Node o None]> h in
  r ⇐ get (λ s, search (a_res s));
  match r with
  | None => run (Fault NullDeref)
  | Some sr =>
      match s_head sr with
      | None =>
          p ⇐ run (add_objinfo_after_head None (Some a) h);
          upd (set_obj p.2) ;>
          upd_search (λ sr, EsSearch (s_total sr) p.1 (Some a))
      | Some _ =>
          p ⇐ run (add_objinfo_after_tail (s_tail sr) (Some a) h);
          upd (set_obj p.2) ;>
          upd_search (λ sr, EsSearch (s_total sr) (s_head sr) p.1)
      end ;> val a
  end.
Definition set_object_pairs (a : positive) (head : ptr) : E P unit :=
  upd (λ s, set_obj (alter (λ n, Node (ObjInfo (o_index (n_data n)) (o_type (n_data n)) (o_id (n_data n)) head) (n_next n)) a (a_obj s)) s).
(** [add_keyvalue_after_head(&(obj_node->head_),node)] *)
Definition hang_pair (a : positive) (n : KEY_VALUE_NODE) : E P unit :=
  h ⇐ get a_obj;
  o ⇐ run (deref h (Some a));
  head ⇐ hang_keyvalue (o_head (n_data o)) n;
  set_object_pairs a head.

(** The [while(1)] loop over the pairs, which hangs them into the object. *)
Fixpoint source_loop (fuel : nat) (str : list Z) (p_char p_right_brack : nat) (obj_node : positive) : E P unit :=
  p_comma ⇐ run (chr str (Some p_char) 44);
  let is_obj_end := negb (before p_comma (S p_right_brack)) in
  let comma := if is_obj_end then p_right_brack else default O p_comma in
  p_colon ⇐ run (chr str (Some p_char) 58);
  (if before p_colon comma then
     n ⇐ source_pair str p_char (default O p_colon) comma;
     hang_pair obj_node n
   else val tt) ;>
  if is_obj_end then val tt
  else match fuel with O => no_fuel | S f => source_loop f str (S comma) p_right_brack obj_node end.

(** The object whose brace is at [p_char], whose [_source] opens at
    [p_left_brack] and closes before [p_right_brack]. *)
Definition read_object (str : list Z) (p_char p_left_brack p_right_brack : nat) : E P unit :=
  _ ⇐ alloc 40;
  i ⇐ index_field str (Some p_char) p_left_brack;
  t ⇐ type_field str i.2 p_left_brack;
  d ⇐ id_field str t.2 p_left_brack;
  a ⇐ hang_object (ObjInfo i.1 t.1 d.1 None);
  source_loop (length str) str p_left_brack p_right_brack a.

(** The [while] loop over the objects: [inl q_char] after it, [inr] for
    [ret = -2; goto error_out]. *)
Fixpoint object_loop (fuel : nat) (str : list Z) (in_move : Z) (p_next_start : option nat)
  (q_char : nat) (p_left_brack : option nat) : E P (nat + Z) :=
  match p_left_brack with
  | None => val (inl q_char)
  | Some p_char =>
      if before p_next_start p_char then val (inl q_char)
      else
        p_right_brack ⇐ run (chr str (Some p_char) 125);
        match p_right_brack with
        | None => val (inl q_char)
        | Some r =>
            p_end_obj ⇐ run (chr str (Some (S r)) 125);
            match p_end_obj with
            | None => val (inl q_char)
            | Some e =>
                p_left_brack ⇐ run (chr str (Some (S p_char)) 123);
                if before p_left_brack (S r) then
                  read_object str p_char (default O p_left_brack) (S r) ;>
                  upd (set_bit (in_move + Z.of_nat e + 1)) ;>
                  p_left_brack ⇐ run (chr str (Some (S e)) 123);
                  match fuel with
                  | O => no_fuel
                  | S f => object_loop f str in_move p_next_start (S e) p_left_brack
                  end
                else val (inr (-2))
            end
        end
  end.

(** [error_out]: the rest of this answer is dropped. *)
Definition error_out (in_move buf_len : Z) (p_next_start : option nat) (ret : Z) : E P Z :=
  upd (set_bit (in_move + match p_next_start with Some p => Z.of_nat p | None => buf_len end)) ;> val ret.

(** The loop over the objects and what follows it. *)
Definition read_hits (str : list Z) (in_move buf_len : Z) (p_next_start : option nat) (q_char : nat) : E P Z :=
  p_left_brack ⇐ run (chr str (Some q_char) 123);
  r ⇐ object_loop (length str) str in_move p_next_start q_char p_left_brack;
  match r with
  | inr ret => error_out in_move buf_len p_next_start ret
  | inl q_char =>
      p_right_square ⇐ run (chr str (Some q_char) 93);
      match p_right_square with
      | Some _ => error_out in_move buf_len p_next_start 0
      | None => upd (set_bit (in_move + Z.of_nat q_char)) ;> val 1
      end
  end.

(** The next part of a body that is kept as text in [b]: the new block. *)
Definition more_text (str : list Z) (buf_len : Z) (body : Z) (b : list Z) : E P (list Z * Z) :=
  n ⇐ run (frame_strlen (Some b));
  p_char ⇐ run (frame_end_charstr (Some b));
  let copy_len := body - n in
  r ⇐ (if buf_len <? copy_len then
         upd (λ s, set_bit (bit_move s + buf_len) s) ;>
         s ⇐ run (bytes_at str 0 buf_len); b ⇐ run (mem_write b p_char s); val (b, 1)
       else
         upd (λ s, set_bit (bit_move s + copy_len) s) ;>
         s ⇐ run (bytes_at str 0 copy_len); b ⇐ run (mem_write b p_char s); val (b, 0));
  _ ⇐ run (frame_strlen (Some r.1));
  val r.
(** The first part of a body kept as text, from [q_char]. *)
Definition first_text (str : list Z) (in_move buf_len body : Z) (q_char : nat)
  (set : list Z → ES_RESPOND → ES_RESPOND) : E P Z :=
  str_len ⇐ run (int_add body 1);
  b ⇐ alloc str_len;
  upd_res (set b) ;>
  if body <? buf_len then
    s ⇐ run (bytes_at str q_char body); b ⇐ run (mem_write b 0 s);
    upd_res (set b) ;> upd (set_bit (in_move + body)) ;> val 0
  else
    s ⇐ run (bytes_at str q_char buf_len); b ⇐ run (mem_write b 0 s);
    upd_res (set b) ;> upd (set_bit (in_move + buf_len)) ;> val 1.
Definition as_message (b : list Z) : ES_RESPOND → ES_RESPOND := set_message (Some b).
Definition as_err_message (b : list Z) : ES_RESPOND → ES_RESPOND := set_err_message (Some b).

(** The number from [p_char] to [q_char] behind ["total":], with the new search
    result. *)
Definition read_total (str : list Z) (in_move : Z) (p_char q_char : nat) : E P unit :=
  _ ⇐ alloc 24;
  upd_res (set_search (Some (EsSearch 0 None None))) ;>
  (if 0 <? Z.of_nat q_char - Z.of_nat p_char then
     t ⇐ run (tmp_atoi str p_char (Z.of_nat q_char - Z.of_nat p_char));
     upd_search (λ sr, EsSearch t (s_head sr) (s_tail sr))
   else val tt) ;>
  upd (set_bit (in_move + Z.of_nat p_char)).

(** The start of a search result: [inr ret] when the function returns there,
    else [q_char]. *)
Definition first_hits (str : list Z) (in_move buf_len : Z) (p_next_start : option nat) : E P (nat + Z) :=
  p_left_brack ⇐ run (chr str (Some O) 123);
  match p_left_brack with
  | None => val (inl O)
  | Some q_char =>
      p ⇐ run (find_str str (Some q_char) hit_str);
      match p with
      | None => val (inl q_char)
      | Some p =>
          let q_char := (p + 4)%nat in
          p ⇐ run (find_str str (Some q_char) total_str);
          match p with
          | None => val (inl q_char)
          | Some p =>
              let q_char := (p + 5)%nat in
              p_colon ⇐ run (chr str (Some q_char) 58);
              q ⇐ match p_colon with
                  | None => val q_char
                  | Some c =>
                      d ⇐ run (start_digit str c);
                      let p_char := default O d in
                      e ⇐ run (end_digit str p_char);
                      read_total str in_move p_char (default O e) ;> val (default O e)
                  end;
              r ⇐ get (λ s, search (a_res s));
              match r with
              | None => val (inl q)
              | Some _ =>
                  p ⇐ run (find_str str (Some q) hit_str);
                  match p with
                  | None => val (inl q)
                  | Some p => ret ⇐ read_hits str in_move buf_len p_next_start (p + 4); val (inr ret)
                  end
              end
          end
      end
  end.

(** A body of which nothing was kept so far. *)
Definition first_part (str : list Z) (in_move buf_len : Z) (p_next_start : option nat)
  (i : HTTP_HEAD_INFO) : E P Z :=
  if (ret_code i <? 200) || (300 <=? ret_code i) then
    first_text str in_move buf_len (body_len i) 0 as_err_message
  else if body_len i <? 90 then
    first_text str in_move buf_len (body_len i) 0 as_message
  else
    r ⇐ first_hits str in_move buf_len p_next_start;
    match r with
    | inr ret => val ret
    | inl q_char =>
        if SOCKET_BUFF_LEN <=? buf_len
        then first_text str in_move buf_len (body_len i) q_char as_message
        else val 1
    end.

Definition analysis_http_json_str (str : list Z) : E P Z :=
  in_move ⇐ get bit_move;
  p_next_start ⇐ run (find_str str (Some O) http_str);
  buf_len ⇐ run (frame_strlen (Some str));
  res ⇐ get a_res;
  match http res with
  | None => error_out in_move buf_len p_next_start (-4)
  | Some i =>
      match message res, err_message res, search res with
      | Some b, _, _ =>
          r ⇐ more_text str buf_len (body_len i) b; upd_res (as_message r.1) ;> val r.2
      | None, Some b, _ =>
          r ⇐ more_text str buf_len (body_len i) b; upd_res (as_err_message r.1) ;> val r.2
      | None, None, Some _ => read_hits str in_move buf_len p_next_start 0
      | None, None, None => first_part str in_move buf_len p_next_start i
      end
  end.

(** The whole buffer; [*bit_move] is set first. *)
Definition analysis_es_recv_str (buf : list Z) : E P Z :=
  upd (set_bit 0) ;>
  p_char ⇐ run (find_str buf (Some O) http_str);
  i ⇐ get (λ s, http (a_res s));
  match p_char, i with
  | Some p, None =>
      analysis_http_head_str (drop p buf) ;>
      b ⇐ get bit_move;
      analysis_http_json_str (drop (Z.to_nat b) buf)
  | _, _ => analysis_http_json_str buf
  end.

(** What the call returns, with the state after it. *)
Definition analysed (m : E P Z) (s : ana P) : outcome (Z * ana P) :=
  '(r, s') ← m s; mret (match r with inl z => z | inr z => z end, s').
End json.
