(* ===== verification/EsHeadSpec.v ===== *)
(** * Elasticsearch client: reasoning about an analysis, and heads

    [wp] is the weakest precondition of a run that may return a code; the rest
    are the searches of EsData on a buffer whose next parts are known, copies,
    and lists that grow at their end.  With them the reading of heads is shown
    correct. *)

From S2P Require Import Prelude CString FrameTool PsText PsList KeyValue EsData EsHead.
From stdpp Require Import gmap strings.

Open Scope Z_scope.

(** ** Runs *)

Section wp.
Context {P : Type} `{EsPool P}.

Definition wp {A} (m : E P A) (s : ana P) (Q : A + Z → ana P → Prop) : Prop :=
  ∃ r s', m s = Done (r, s') ∧ Q r s'.

Lemma wp_bind {A B} (m : E P A) (f : A → E P B) s Q :
  wp m s (λ r s', match r with inl a => wp (f a) s' Q | inr z => Q (inr z) s' end) →
  wp (ebind m f) s Q.
Proof.
  intros (r & s' & E & HQ). unfold wp, ebind. rewrite E. destruct r as [a|z]; [exact HQ|].
  by exists (inr z), s'.
Qed.
Lemma wp_mono {A} (m : E P A) s (Q Q' : A + Z → ana P → Prop) :
  wp m s Q → (∀ r s', Q r s' → Q' r s') → wp m s Q'.
Proof. intros (r & s' & E & HQ) HI. exists r, s'. auto. Qed.
Lemma wp_val {A} (a : A) s (Q : A + Z → ana P → Prop) : Q (inl a) s → wp (val a) s Q.
Proof. intros HQ. by exists (inl a), s. Qed.
Lemma wp_return {A} z s (Q : A + Z → ana P → Prop) : Q (inr z) s → wp (return_ z) s Q.
Proof. intros HQ. by exists (inr z), s. Qed.
Lemma wp_get {A} (f : ana P → A) s (Q : A + Z → ana P → Prop) : Q (inl (f s)) s → wp (get f) s Q.
Proof. intros HQ. by exists (inl (f s)), s. Qed.
Lemma wp_upd f s (Q : unit + Z → ana P → Prop) : Q (inl tt) (f s) → wp (upd f) s Q.
Proof. intros HQ. by exists (inl tt), (f s). Qed.
Lemma wp_run {A} (m : outcome A) a s (Q : A + Z → ana P → Prop) : m = Done a → Q (inl a) s → wp (run m) s Q.
Proof. intros -> HQ. by exists (inl a), s. Qed.

(** The pool is in order and serves every request. *)
Definition fed (s : ana P) : Prop := pool_good (a_pool s) ∧ plenty (a_pool s).

Lemma wp_alloc n s (Q : list Z + Z → ana P → Prop) : fed s → 0 <= n →
  (∀ b p, fed (set_pool p s) → Z.of_nat (length b) = n → Q (inl b) (set_pool p s)) → wp (alloc n) s Q.
Proof.
  intros [Hg Hp] Hn HQ. destruct (pnalloc_plenty n _ Hg Hp Hn) as (b & p & E & Hg' & Hp' & Hl).
  exists (inl b), (set_pool p s). unfold alloc. rewrite E. split; [done|]. by apply HQ.
Qed.
End wp.

(** Run the next statement. *)
Ltac wp_step :=
  cbv beta iota zeta;
  lazymatch goal with
  | |- wp (ebind _ _) _ _ => apply wp_bind
  | |- wp (val _) _ _ => apply wp_val
  | |- wp (return_ _) _ _ => apply wp_return
  | |- wp (get _) _ _ => apply wp_get
  | |- wp (upd_res _) _ _ => apply wp_upd
  | |- wp (upd _) _ _ => apply wp_upd
  | |- wp (run _) _ _ => eapply wp_run
  end; cbv beta iota zeta.

(** ** Searches *)

Section text.
Context (str T : list Z) (HT : c_str str = Done T).

Lemma chr_text p c : (p ≤ length T)%nat → chr str (Some p) c = Done (ahead p (index_of c (drop p T))).
Proof using HT.
  intros Hp. unfold chr, framestr_frist_constchar.
  rewrite (str_scan_chr_spec _ _ c 0 (c_str_drop _ _ _ HT Hp)). by destruct (index_of c (drop p T)).
Qed.

Lemma find_text p lit : (p ≤ length T)%nat → nonzero lit → lit ≠ [] →
  find_str str (Some p) lit = Done (ahead p (find_sub lit (drop p T))).
Proof using HT.
  intros Hp Hl Hne. unfold find_str.
  by rewrite (first_conststr_find _ _ _ lit (c_str_drop _ _ _ HT Hp) (c_str_app lit [] Hl) Hne).
Qed.

Lemma start_digit_text p : (p ≤ length T)%nat →
  start_digit str p = Done (Some (p + span_len (λ c, negb (is_digit c)) (drop p T))%nat).
Proof using HT.
  intros Hp. unfold start_digit. by rewrite (proj1 (framestr_digit_scans _ _ (c_str_drop _ _ _ HT Hp))).
Qed.
Lemma end_digit_text p : (p ≤ length T)%nat →
  end_digit str p = Done (Some (p + span_len is_digit (drop p T))%nat).
Proof using HT.
  intros Hp. unfold end_digit. by rewrite (proj2 (framestr_digit_scans _ _ (c_str_drop _ _ _ HT Hp))).
Qed.

Lemma bytes_at_text p n : 0 <= n → (p + Z.to_nat n ≤ length T)%nat →
  bytes_at str p n = Done (take (Z.to_nat n) (drop p T)).
Proof using HT.
  intros Hn Hp. unfold bytes_at. pose proof (c_str_length _ _ HT) as Hl.
  rewrite mem_read_ok by (rewrite length_drop; lia).
  destruct (c_str_inv _ _ HT) as (r & -> & _). rewrite drop_app_le by lia.
  by rewrite take_app_le by (rewrite length_drop; lia).
Qed.
End text.


(** A number between other bytes is read as it was printed. *)
Lemma tmp_atoi_dec str pre n r T :
  c_str str = Done T → T = pre ++ dec n ++ r → 0 <= n <= int_max →
  tmp_atoi str (length pre) (Z.of_nat (length (dec n))) = Done n.
Proof.
  intros HT -> Hn. unfold tmp_atoi.
  assert (length (dec n) ≤ 10)%nat as Hl by (unfold dec; etransitivity; [apply dec_go_length|done]).
  rewrite (bytes_at_text _ _ HT) by (rewrite ?length_app; lia). cbn [mbind outcome_bind].
  rewrite drop_app_length, Nat2Z.id, take_app_length.
  rewrite mem_write_ok by (rewrite length_replicate; lia). cbn [mbind outcome_bind].
  assert (nonzero (dec n)) as Hz.
  { eapply Forall_impl; [apply dec_digits; lia|]. intros c Hc ->. done. }
  unfold splice. rewrite take_0, drop_replicate. cbn [app Nat.add].
  destruct (32 - length (dec n))%nat as [|k] eqn:Ek; [lia|]. cbn [replicate]. rewrite c_str_app by done.
  cbn [mbind outcome_bind]. rewrite <- (app_nil_r (dec n)). by apply atoi_dec.
Qed.

(** What a copy of the bytes [l] leaves in a field. *)
Definition copied (l : list Z) : text := match l with [] => None | _ => Some (l ++ [0]) end.

Section copy.
Context {P : Type} `{EsPool P}.

Lemma copy_wp str T p q (s : ana P) (Q : text + Z → ana P → Prop) :
  c_str str = Done T → (p ≤ length T)%nat → (q ≤ length T)%nat → fed s →
  (∀ pl, fed (set_pool pl s) → Q (inl (copied (take (q - p) (drop p T)))) (set_pool pl s)) →
  wp (copy_text str p q) s Q.
Proof.
  intros HT Hp Hq Hs HQ. unfold copy_text. destruct (Z.ltb_spec 0 (Z.of_nat q - Z.of_nat p)) as [Hlt|Hge].
  - wp_step. apply wp_alloc; [done|lia|]. intros b pl Hf Hb.
    wp_step. wp_step; [apply (bytes_at_text _ _ HT); lia|]. wp_step.
    replace (Z.to_nat (Z.of_nat q - Z.of_nat p)) with (q - p)%nat by lia.
    assert (length (take (q - p) (drop p T)) = q - p)%nat as Hl by (rewrite length_take, length_drop; lia).
    revert Hl HQ. generalize (take (q - p) (drop p T)) as l. intros l Hl HQ.
    wp_step; [apply mem_write_ok; rewrite length_replicate; lia|]. wp_step.
    replace (splice (replicate (length b) 0) 0 l) with (l ++ [0]).
    { destruct l as [|c l']; [cbn in Hl; lia|]. by apply HQ. }
    unfold splice. rewrite take_0, drop_replicate. cbn [app Nat.add]. f_equal.
    replace (length b - length l)%nat with 1%nat by lia. done.
  - wp_step. replace (q - p)%nat with O in HQ by lia. destruct s as [r kv ob pl bm].
    apply (HQ pl). exact Hs.
Qed.

(** A new node behind the list [l]; the other nodes are as before. *)
Lemma hang_wp head l n (s : ana P) (Q : ptr + Z → ana P → Prop) :
  chain (a_kv s) head l → NoDup l.*1 →
  (∀ a head' kv, a_kv s !! a = None → chain kv head' (l ++ [(a, n)]) →
     (∀ b, b ∉ l.*1 → b ≠ a → kv !! b = a_kv s !! b) → Q (inl head') (set_kv kv s)) →
  wp (hang_keyvalue head n) s Q.
Proof.
  intros Hc Hnd HQ. unfold hang_keyvalue. wp_step. wp_step.
  pose proof (new_addr_fresh (a_kv s)) as Hfr. set (a := new_addr (a_kv s)) in *.
  assert (a ∉ l.*1) as Hal by (intros Ha; destruct (chain_in _ _ _ _ Hc Ha) as [m Hm]; congruence).
  set (h := <[a:=Node n None]> (a_kv s)).
  assert (h !! a = Some (Node n None)) as Ha by apply lookup_insert_eq.
  assert (chain h head l) as Hch by by apply chain_insert.
  assert (∃ head' kv, add_keyvalue_after_head head (Some a) h = Done (head', kv) ∧
    chain kv head' (l ++ [(a, n)]) ∧ ∀ b, b ∉ l.*1 → b ≠ a → kv !! b = a_kv s !! b) as (head' & kv & E & Hkv & Hfar).
  { unfold add_keyvalue_after_head. destruct l as [|[b x] l _] using rev_ind.
    - cbn in Hch. subst head. exists (Some a), h. split; [done|]. split; [cbn; eauto|].
      intros b _ Hne. by apply lookup_insert_ne.
    - assert (is_Some head) as [c ->] by (destruct l as [|[c z] l]; destruct Hch as (-> & _); eauto).
      pose proof (chain_size _ _ _ Hch Hnd) as Hs. rewrite length_app in Hs. cbn [length] in Hs.
      rewrite (last_node_ok l (size h) h (Some c) b x Hch) by lia. cbn [mbind outcome_bind].
      destruct (chain_snoc l h (Some c) b x (Some a) a n Hch Hnd Hal Ha eq_refl) as (Hb & Hsn).
      unfold set_next. rewrite (deref_ok _ _ _ Hb). cbn [mbind outcome_bind mret outcome_ret n_data].
      do 2 eexists. split; [done|]. rewrite <- app_assoc. split; [exact Hsn|].
      intros d Hd Hda. rewrite fmap_app, not_elem_of_app in Hd. destruct Hd as [_ Hd].
      rewrite lookup_insert_ne by (intros ->; apply Hd; by left). by apply lookup_insert_ne. }
  wp_step. wp_step; [exact E|]. wp_step. wp_step. wp_step. by apply (HQ a).
Qed.
End copy.

(** ** Elasticsearch client: the buffer and the head, correct *)

(** ** Moving the buffer *)

Lemma move_loop_ok : ∀ n b p q, (p ≤ q)%nat → (q + n ≤ length b)%nat → ∃ b',
  move_loop n b p q = Done b' ∧ length b' = length b ∧
  ∀ i, b' !! i = if bool_decide (p ≤ i < p + n)%nat then b !! (q + (i - p))%nat else b !! i.
Proof.
  induction n as [|n IH]; intros b p q Hpq Hn; cbn [move_loop].
  - exists b. split; [done|]. split; [done|]. intros i. rewrite bool_decide_eq_false_2 by lia. done.
  - destruct (lookup_lt_is_Some_2 b q ltac:(lia)) as [c Hc]. rewrite (rd_ok _ _ _ Hc). cbn [mbind outcome_bind].
    rewrite mem_write_ok by (cbn; lia). cbn [mbind outcome_bind].
    assert (splice b p [c] = <[p := c]> b) as ->.
    { apply list_eq. intros i. destruct (decide (i = p)) as [->|Hne].
      - rewrite lookup_splice_mid by (cbn; lia). rewrite Nat.sub_diag, list_lookup_insert_eq by lia. done.
      - rewrite list_lookup_insert_ne by done. destruct (decide (i < p)%nat).
        + apply lookup_splice_lt; lia.
        + apply lookup_splice_ge; cbn; lia. }
    destruct (IH (<[p := c]> b) (S p) (S q)) as (b' & E & Hl & Hb); [lia|rewrite length_insert; lia|].
    exists b'. split; [done|]. rewrite length_insert in Hl. split; [done|]. intros i. rewrite Hb.
    destruct (decide (i = p)) as [->|Hne].
    + rewrite bool_decide_eq_false_2, bool_decide_eq_true_2 by lia.
      rewrite list_lookup_insert_eq by lia. rewrite <- Hc. f_equal. lia.
    + destruct (decide (p < i < p + S n)%nat) as [Hi|Hi].
      * rewrite !bool_decide_eq_true_2 by lia. rewrite list_lookup_insert_ne by lia. f_equal. lia.
      * rewrite !bool_decide_eq_false_2 by lia. by rewrite list_lookup_insert_ne.
Qed.

Lemma move_bit_ok begin T bit :
  c_str begin = Done T → 0 <= bit < Z.of_nat (length begin) → ∃ b,
  memory_char_move_bit begin bit (Z.of_nat (length begin)) = Done b ∧
  length b = length begin ∧ c_str b = Done (drop (Z.to_nat bit) T) ∧
  (bit < Z.of_nat (length T) →
     b = drop (Z.to_nat bit) T ++ replicate (length begin - (length T - Z.to_nat bit)) 0).
Proof.
  intros HT Hbit. pose proof (c_str_length _ _ HT) as Hlen. unfold memory_char_move_bit, frame_strlen.
  rewrite (proj2 (Z.leb_gt _ _)) by lia. rewrite (str_scan_len_spec _ _ HT). cbn [mbind outcome_bind mret outcome_ret].
  destruct (Z.leb_spec (Z.of_nat (length T)) bit) as [Hge|Hlt].
  - rewrite mem_write_ok by (rewrite length_replicate; lia). eexists. split; [done|].
    rewrite length_splice by (rewrite length_replicate; lia). split; [done|]. split; [|lia].
    rewrite drop_ge by lia. unfold splice. rewrite take_0, length_replicate. cbn [app Nat.add].
    destruct (Z.to_nat bit) as [|k] eqn:Ek; [|done]. destruct T; [|cbn in Hge; lia]. by rewrite drop_0.
  - rewrite (proj2 (Z.ltb_ge bit 0)) by lia.
    pose proof (c_str_drop _ _ (Z.to_nat bit) HT ltac:(lia)) as HD.
    rewrite (str_scan_len_spec _ _ HD), length_drop. cbn [mbind outcome_bind mret outcome_ret].
    rewrite (proj2 (Z.leb_gt _ _)) by lia.
    destruct (move_loop_ok (Z.to_nat (Z.of_nat (length T - Z.to_nat bit))) begin 0 (Z.to_nat bit))
      as (b & E & Hl & Hb); [lia|lia|]. rewrite E. cbn [mbind outcome_bind]. rewrite Nat2Z.id in *.
    rewrite mem_write_ok by (rewrite length_replicate; lia). eexists. split; [done|].
    rewrite length_splice by (rewrite length_replicate; lia). split; [done|].
    assert (take (length T - Z.to_nat bit) b = drop (Z.to_nat bit) T) as Ht.
    { apply list_eq. intros i. rewrite lookup_take, lookup_drop. case_decide as Hi.
      - rewrite Hb, bool_decide_eq_true_2, Nat.sub_0_r by lia. apply (c_str_lookup _ _ _ HT). lia.
      - symmetry. apply lookup_ge_None_2. lia. }
    enough (splice b (length T - Z.to_nat bit) (replicate (Z.to_nat (Z.of_nat (length begin) -
      Z.of_nat (length T - Z.to_nat bit))) 0) = drop (Z.to_nat bit) T ++
      replicate (length begin - (length T - Z.to_nat bit)) 0) as ->.
    { split; [|done]. destruct (length begin - (length T - Z.to_nat bit))%nat eqn:En; [lia|].
      apply c_str_app, Forall_drop. by eapply c_str_nonzero. }
    unfold splice. rewrite Ht. f_equal. rewrite drop_ge, app_nil_r by (rewrite length_replicate; lia). f_equal. lia.
Qed.

(** [memory_char_move_bit] drops the first [bit] bytes of the text in the
    buffer, or all of it when it is shorter; the rest of the buffer is
    cleared behind a text that moved, and nothing outside is touched. *)
Theorem memory_char_move_bit_drops begin T bit :
  c_str begin = Done T → 0 <= bit < Z.of_nat (length begin) → ∃ b,
  memory_char_move_bit begin bit (Z.of_nat (length begin)) = Done b ∧
  length b = length begin ∧ c_str b = Done (drop (Z.to_nat bit) T) ∧
  (bit < Z.of_nat (length T) →
     b = drop (Z.to_nat bit) T ++ replicate (length begin - (length T - Z.to_nat bit)) 0).
Proof. apply move_bit_ok. Qed.

Lemma memory_char_move_bit_drops_witness : ∃ b,
  memory_char_move_bit (c_lit "abcdef" ++ [7; 7]) 4 9 = Done b ∧ b = bytes "ef" ++ replicate 7 0.
Proof.
  destruct (memory_char_move_bit_drops (c_lit "abcdef" ++ [7; 7]) (bytes "abcdef") 4) as (b & E & _ & _ & Hb).
  - reflexivity.
  - cbn. lia.
  - exists b. split; [exact E|]. apply Hb. cbn. lia.
Defined.

(** ** Reading a head *)

(** A head as servers write it: version, code and note; lines of a key and a
    value with blanks between; an empty line. *)
Record head_text := HeadText {
  t_ver : list Z; t_code : Z; t_note : list Z;
  t_lines : list (list Z * list Z * list Z);  (* key, blanks, value *)
}.
Definition is_blank (c : Z) : bool := (c =? 32) || (c =? 9).
Definition line_text (l : list Z * list Z * list Z) : list Z := l.1.1 ++ 58 :: l.1.2 ++ l.2.
Definition lines_text (ls : list (list Z * list Z * list Z)) : list Z := concat ((λ l, line_text l ++ seq_str) <$> ls).
Definition render_head (h : head_text) : list Z :=
  t_ver h ++ 32 :: dec (t_code h) ++ 32 :: t_note h ++ seq_str ++ lines_text (t_lines h) ++ seq_str.

Definition plain (l : list Z) : Prop := nonzero l ∧ 13 ∉ l.
Record line_ok (l : list Z * list Z * list Z) : Prop := {
  lk_key : plain l.1.1 ∧ 58 ∉ l.1.1 ∧ l.1.1 ≠ [];
  lk_blanks : Forall (λ c, is_blank c = true) l.1.2;
  lk_value : plain l.2 ∧ match l.2 with c :: _ => is_blank c = false | [] => True end;
}.
Record head_ok (h : head_text) : Prop := {
  hk_ver : nonzero (t_ver h) ∧ 32 ∉ t_ver h;
  hk_code : 0 <= t_code h <= int_max;
  hk_note : plain (t_note h);
  hk_lines : Forall line_ok (t_lines h);
}.
(** What the list of nodes holds. *)
Definition line_pairs (ls : list (list Z * list Z * list Z)) : list (list Z * text) :=
  (λ l, (l.1.1, copied l.2)) <$> ls.

Lemma blanks_plain b : Forall (λ c, is_blank c = true) b → plain b.
Proof.
  intros Hb. split.
  - eapply Forall_impl; [exact Hb|]. intros c Hc ->. done.
  - intros Hin. by eapply Forall_forall in Hb; [|exact Hin].
Qed.

Lemma line_plain l : line_ok l → plain (line_text l).
Proof.
  intros [[[Hk1 Hk2] _] Hb [[Hv1 Hv2] _]]. apply blanks_plain in Hb as [Hb1 Hb2]. unfold line_text. split.
  - apply Forall_app. split; [done|]. constructor; [done|]. by apply Forall_app.
  - rewrite not_elem_of_app, not_elem_of_cons, not_elem_of_app. done.
Qed.

Section head.
Context {P : Type} `{EsPool P}.
Context (str T : list Z) (HT : c_str str = Done T).

(** The states between the steps: only the pool, the nodes and the head are
    touched. *)
Definition with_head (s s' : ana P) (i : HTTP_HEAD_INFO) : Prop :=
  a_res s' = set_http (Some i) (a_res s) ∧ a_obj s' = a_obj s ∧ bit_move s' = bit_move s ∧ fed s'.

Lemma head_line_wp pre l r (s : ana P) (Q : KEY_VALUE_NODE + Z → ana P → Prop) :
  T = pre ++ line_text l ++ seq_str ++ r → line_ok l → fed s →
  (∀ p, fed (set_pool p s) → Q (inl (KV (copied l.1.1) (copied l.2))) (set_pool p s)) →
  wp (head_line str (length pre) (length pre + length l.1.1) (length pre + length (line_text l))) s Q.
Proof using HT.
  intros ET Hl Hs HQ. destruct l as [[k b] v]. destruct Hl as [_ Hb [_ Hv]]. cbn [fst snd] in *.
  assert (T = (pre ++ k ++ 58 :: b) ++ v ++ seq_str ++ r) as ET2.
  { rewrite ET. unfold line_text. cbn [fst snd]. rewrite <- !app_assoc. cbn [app]. by rewrite <- !app_assoc. }
  assert (length T = length pre + length k + 1 + length b + length v + 2 + length r)%nat as HlT.
  { rewrite ET2, !length_app. cbn. lia. }
  unfold head_line. wp_step. apply wp_alloc; [done|lia|]. intros b1 p1 Hf1 _.
  wp_step. apply (copy_wp _ T); [done|lia|lia|done|]. intros p2 Hf2.
  wp_step. wp_step.
  { apply skip_fwd_spec; [|done]. apply (c_str_drop _ _ _ HT). lia. }
  set (q := (length pre + length k + 1 + length b)%nat).
  assert (drop (length pre + length k + 1) T = b ++ v ++ seq_str ++ r) as ED.
  { rewrite ET2. rewrite <- !app_assoc. cbn [app]. rewrite (app_assoc pre k), (cons_middle 58), (app_assoc (pre ++ k) [58]).
    apply drop_app_length'. rewrite !length_app. cbn. lia. }
  rewrite ED, span_len_app by done.
  replace (span_len _ (v ++ seq_str ++ r)) with O by (destruct v as [|c v]; [done|cbn; cbn in Hv; unfold is_blank in Hv; by rewrite Hv]).
  wp_step. apply (copy_wp _ T); [done|lia| |done|].
  { unfold line_text. cbn [fst snd]. rewrite length_app. cbn [length]. rewrite length_app. lia. }
  intros p3 Hf3. wp_step.
  replace (take (length pre + length k - length pre) (drop (length pre) T)) with k.
  2: { rewrite ET. unfold line_text. rewrite drop_app_length. cbn [fst snd]. rewrite <- !app_assoc. symmetry. apply take_app_length'. lia. }
  match goal with |- Q (inl (KV _ (copied (take ?n (drop ?m T))))) _ =>
    replace (take n (drop m T)) with v; [by apply HQ|];
    replace m with (length (pre ++ k ++ 58 :: b)) by (rewrite !length_app; cbn; lia);
    rewrite ET2, drop_app_length; symmetry; apply take_app_length' end.
  unfold line_text. cbn [fst snd]. rewrite !length_app. cbn [length]. rewrite !length_app. cbn [length]. lia.
Qed.

Lemma head_lines_eq fuel q p_char : head_lines (P := P) fuel str q p_char =
  match p_char with
  | None => val q
  | Some p =>
      p_colon ⇐ run (chr str (Some q) 58);
      if before p_colon p then
        n ⇐ head_line str q (default O p_colon) p;
        i ⇐ get (λ s, http (a_res s));
        head ⇐ hang_keyvalue (from_option http_head None i) n;
        upd_head (λ i, HttpHead (ver i) (note i) (ret_code i) (body_len i) head) ;>
        p_char ⇐ run (find_str str (Some (p + 2)%nat) seq_str);
        match fuel with O => no_fuel | S f => head_lines f str (p + 2)%nat p_char end
      else val (p + 2)%nat
  end.
Proof. by destruct fuel. Qed.

Lemma seq_str_fresh u r : 13 ∉ u → find_sub seq_str (u ++ seq_str ++ r) = Some (length u).
Proof. apply (find_sub_fresh 13 [10]). Qed.

Lemma find_seq p : (p ≤ length T)%nat → find_str str (Some p) seq_str = Done (ahead p (find_sub seq_str (drop p T))).
Proof using HT. intros Hp. apply (find_text _ _ HT); [done|by repeat constructor|done]. Qed.

Lemma line_kv_pair ln : line_ok ln → kv_pair (KV (copied ln.1.1) (copied ln.2)) (ln.1.1, copied ln.2).
Proof.
  intros [[[Hk _] [_ Hne]] _ _]. exists (ln.1.1 ++ [0]). split; [|split; [by apply c_str_app|done]].
  cbn. by destruct (ln.1.1).
Qed.

Lemma head_lines_wp : ∀ ls fuel pre r s i l ps (Q : nat + Z → ana P → Prop),
  T = pre ++ lines_text ls ++ seq_str ++ r → Forall line_ok ls → fed s → (length ls ≤ fuel)%nat →
  http (a_res s) = Some i → chain (a_kv s) (http_head i) l → NoDup l.*1 → Forall2 kv_pair l.*2 ps →
  (∀ s' hd l', with_head s s' (HttpHead (ver i) (note i) (ret_code i) (body_len i) hd) →
     chain (a_kv s') hd (l ++ l') → NoDup (l ++ l').*1 → Forall2 kv_pair (l ++ l').*2 (ps ++ line_pairs ls) →
     (∀ b, b ∉ l.*1 → is_Some (a_kv s !! b) → a_kv s' !! b = a_kv s !! b) →
     Q (inl (length (pre ++ lines_text ls ++ seq_str))) s') →
  wp (head_lines fuel str (length pre) (ahead (length pre) (find_sub seq_str (drop (length pre) T)))) s Q.
Proof using HT.
  induction ls as [|ln ls IH]; intros fuel pre r s i l ps Q ET Hls Hs Hfuel Hi Hc Hnd Hps HQ;
    (assert (length pre ≤ length T)%nat as Hp by (rewrite ET, length_app; lia));
    pose proof (f_equal (drop (length pre)) ET) as ED; rewrite drop_app_length in ED; rewrite head_lines_eq, ED.
  - cbn [lines_text concat fmap list_fmap app]. pose proof (seq_str_fresh [] r (not_elem_of_nil _)) as F0. cbn [app] in F0. rewrite F0.
    cbn [ahead fmap option_fmap option_map length]. wp_step.
    wp_step; [apply (chr_text _ _ HT); done|]. cbv beta iota.
    replace (before _ _) with false.
    2: { destruct (index_of 58 (drop (length pre) T)); [|done]. cbn. symmetry. apply Nat.ltb_ge. lia. }
    wp_step. rewrite Nat.add_0_r.
    replace (length pre + 2)%nat with (length (pre ++ lines_text [] ++ seq_str)) by (rewrite length_app; done).
    destruct i as [iv inn ic ib ih]. apply (HQ s ih []); rewrite ?app_nil_r; try done.
    destruct s as [[] ? ? ? ?]. cbn in *. subst. by split.
  - apply Forall_cons in Hls as [Hln Hls]. pose proof (line_plain _ Hln) as [Hz H13].
    cbn [lines_text concat fmap list_fmap] in *. fold (lines_text ls) in *. rewrite <- !app_assoc in *.
    rewrite seq_str_fresh by done. cbn [ahead fmap option_fmap option_map].
    wp_step. wp_step; [apply (chr_text _ _ HT); done|]. cbv beta iota.
    assert (index_of 58 (drop (length pre) T) = Some (length ln.1.1)) as EC.
    { rewrite ED. unfold line_text. rewrite <- !app_assoc. cbn [app]. apply index_of_fresh, Hln. }
    rewrite EC. cbn [ahead fmap option_fmap option_map default from_option before].
    rewrite (proj2 (Nat.ltb_lt _ _)) by (unfold line_text; rewrite length_app; cbn; lia).
    wp_step. cbn [id]. apply (head_line_wp pre ln (lines_text ls ++ seq_str ++ r)); [done|done|done|]. intros p1 Hf1.
    wp_step. wp_step. cbn [a_res set_pool]. rewrite Hi. cbn [from_option]. wp_step.
    apply (hang_wp _ l _ (set_pool p1 s) _ Hc Hnd). cbn [a_kv set_pool]. intros a hd kv Ha Hkv Hfar.
    unfold upd_head. wp_step. wp_step. wp_step. wp_step; [apply find_seq; rewrite ET, !length_app; cbn; lia|]. cbv beta iota.
    destruct fuel as [|fuel]; [cbn in Hfuel; lia|].
    assert (length pre + length (line_text ln) + 2 = length (pre ++ line_text ln ++ seq_str))%nat as -> by (rewrite !length_app; cbn; lia).
    assert (a ∉ l.*1) as Hal by (intros Hin; destruct (chain_in _ _ _ _ Hc Hin) as [m Hm]; congruence).
    eapply (IH fuel (pre ++ line_text ln ++ seq_str) r _ _ (l ++ [_])).
    + rewrite ET. by rewrite <- !app_assoc.
    + done.
    + destruct Hf1. by split.
    + cbn in Hfuel. lia.
    + cbn. rewrite Hi. reflexivity.
    + cbn. exact Hkv.
    + rewrite fmap_app. apply NoDup_app. split; [done|]. split; [|apply NoDup_singleton].
      intros d Hd ->%list_elem_of_singleton. done.
    + rewrite fmap_app. apply Forall2_app; [exact Hps|]. constructor; [|constructor]. apply (line_kv_pair ln Hln).
    + intros s' hd' l' (W1 & W2 & W3 & W4) Hch Hn Hps' Hfar'. rewrite <- !app_assoc in *. cbn [app] in *.
      apply (HQ s' hd' ((a, KV (copied ln.1.1) (copied ln.2)) :: l')); try done.
      cbn [a_kv set_res set_kv set_pool] in Hfar'. intros b Hb [m Hm].
      assert (b ≠ a) as Hba by congruence. rewrite Hfar'; [by apply Hfar| |].
      { rewrite fmap_app, not_elem_of_app. split; [done|]. cbn. by rewrite list_elem_of_singleton. }
      rewrite Hfar by done. eauto.
Qed.
Lemma status_line_wp v n t r s (Q : nat + Z → ana P → Prop) :
  T = v ++ 32 :: dec n ++ 32 :: t ++ seq_str ++ r → 32 ∉ v → 0 <= n <= int_max → 13 ∉ t → fed s →
  http (a_res s) = Some (HttpHead None None 0 0 None) →
  (∀ s', with_head s s' (HttpHead (copied v) (copied t) n 0 None) → a_kv s' = a_kv s →
     Q (inl (length (v ++ 32 :: dec n ++ 32 :: t ++ seq_str))) s') →
  wp (status_line str) s Q.
Proof using HT.
  intros ET Hv Hn Ht Hs Hi HQ. unfold status_line, upd_head.
  assert (length T = length v + 1 + length (dec n) + 1 + length t + 2 + length r)%nat as HlT.
  { rewrite ET. rewrite length_app. cbn [length]. rewrite length_app. cbn [length]. rewrite !length_app. cbn. lia. }
  set (p1 := (length v + 1)%nat).
  assert (T = (v ++ [32]) ++ dec n ++ 32 :: t ++ seq_str ++ r) as ET1 by (rewrite ET, <- app_assoc; done).
  assert (length (v ++ [32]) = p1) as Hl1 by (rewrite length_app; done).
  assert (drop p1 T = dec n ++ 32 :: t ++ seq_str ++ r) as ED1 by (rewrite ET1, <- Hl1; apply drop_app_length).
  set (p2 := (p1 + length (dec n) + 1)%nat).
  assert (drop p2 T = t ++ seq_str ++ r) as ED2.
  { assert (T = (v ++ 32 :: dec n ++ [32]) ++ t ++ seq_str ++ r) as ET2.
    { rewrite ET. rewrite <- app_assoc. cbn [app]. by rewrite <- app_assoc. }
    rewrite ET2. apply drop_app_length'. unfold p2, p1. rewrite length_app. cbn [length]. rewrite length_app. cbn [length]. lia. }
  wp_step. wp_step; [apply (chr_text _ _ HT); lia|]. rewrite drop_0, ET, index_of_fresh by done.
  cbn [ahead fmap option_fmap option_map Nat.add]. wp_step. apply (copy_wp _ T); [done|lia|lia|done|]. intros q1 Hf1.
  rewrite drop_0, Nat.sub_0_r. replace (take (length v) T) with v by (rewrite ET; symmetry; apply take_app_length).
  wp_step. wp_step. fold p1. wp_step. wp_step; [apply (chr_text _ _ HT); lia|].
  rewrite ED1. rewrite index_of_fresh.
  2: { intros Hin. pose proof (dec_digits n ltac:(lia)) as Hd. eapply Forall_forall in Hd; [|exact Hin]. done. }
  cbn [ahead fmap option_fmap option_map]. pose proof (dec_not_nil n) as Hne.
  assert (0 < length (dec n))%nat as Hpos by (destruct (dec n); [done|cbn; lia]).
  rewrite (proj2 (Z.ltb_lt _ _)) by lia. wp_step. wp_step.
  replace (Z.of_nat (p1 + length (dec n)) - Z.of_nat p1) with (Z.of_nat (length (dec n))) by lia.
  wp_step; [rewrite <- Hl1; eapply tmp_atoi_dec; [exact HT|exact ET1|done]|]. wp_step. fold p2.
  wp_step. wp_step; [apply find_seq; lia|]. rewrite ED2, seq_str_fresh by done.
  cbn [ahead fmap option_fmap option_map]. wp_step. apply (copy_wp _ T); [done|lia|lia|done|]. intros q2 Hf2.
  rewrite ED2. replace (p2 + length t - p2)%nat with (length t) by lia. rewrite take_app_length.
  wp_step. wp_step. wp_step.
  replace (p2 + length t + 2)%nat with (length (v ++ 32 :: dec n ++ 32 :: t ++ seq_str)).
  2: { unfold p2, p1. rewrite length_app. cbn [length]. rewrite length_app. cbn [length]. rewrite length_app. cbn [length seq_str]. lia. }
  apply HQ; [|done]. cbn. rewrite Hi. by destruct s as [[] ? ? ? ?].
Qed.
Lemma content_length_wp n s i ps (Q : unit + Z → ana P → Prop) :
  http (a_res s) = Some i → kv_list (a_kv s) (http_head i) ps → fed s →
  KeyValue.assoc (bytes "Content-Length") ps = copied (dec n) → 0 <= n <= int_max →
  Q (inl tt) (set_res (set_http (Some (HttpHead (ver i) (note i) (ret_code i) n (http_head i))) (a_res s)) s) →
  wp content_length s Q.
Proof.
  intros Hi Hps Hs Ha Hn HQ. unfold content_length, upd_head. wp_step. wp_step. wp_step. wp_step. rewrite Hi. cbn [from_option].
  wp_step. wp_step; [apply (find_value_ok _ _ _ _ (bytes "Content-Length") Hps)|].
  { apply c_str_lit, (bool_decide_unpack _). vm_compute. done. }
  rewrite Ha. pose proof (dec_not_nil n) as Hne. destruct (dec n) as [|c d] eqn:Ed; [done|]. cbn [copied]. rewrite <- Ed.
  wp_step. wp_step.
  { apply c_str_app. eapply Forall_impl; [apply dec_digits; lia|]. intros x Hx ->. done. }
  wp_step. wp_step; [rewrite <- (app_nil_r (dec n)); by apply atoi_dec|].
  wp_step. rewrite Hi. exact HQ.
Qed.

(** The whole head. *)
Lemma head_str_wp h n r s (Q : unit + Z → ana P → Prop) :
  T = render_head h ++ r → head_ok h → fed s → http (a_res s) = None →
  KeyValue.assoc (bytes "Content-Length") (line_pairs (t_lines h)) = copied (dec n) → 0 <= n <= int_max →
  (∀ s' hd, a_res s' = set_http (Some (HttpHead (copied (t_ver h)) (copied (t_note h)) (t_code h) n hd)) (a_res s) →
     kv_list (a_kv s') hd (line_pairs (t_lines h)) → a_kv s ⊆ a_kv s' → a_obj s' = a_obj s → fed s' →
     bit_move s' = bit_move s + Z.of_nat (length (render_head h)) → Q (inl tt) s') →
  wp (analysis_http_head_str str) s Q.
Proof using HT.
  intros ET [[_ Hv] Hc [_ Ht] Hls] Hs Hi Ha Hn HQ. unfold analysis_http_head_str.
  assert (T = t_ver h ++ 32 :: dec (t_code h) ++ 32 :: t_note h ++ seq_str ++ (lines_text (t_lines h) ++ seq_str ++ r)) as ET1.
  { rewrite ET. unfold render_head. rewrite <- !app_assoc. cbn [app]. rewrite <- !app_assoc. cbn [app]. by rewrite <- !app_assoc. }
  set (pre := t_ver h ++ 32 :: dec (t_code h) ++ 32 :: t_note h ++ seq_str) in *.
  assert (T = pre ++ lines_text (t_lines h) ++ seq_str ++ r) as ET2.
  { rewrite ET1. unfold pre. rewrite <- !app_assoc. cbn [app]. rewrite <- !app_assoc. cbn [app]. by rewrite <- !app_assoc. }
  wp_step. wp_step; [unfold frame_strlen; by rewrite (str_scan_len_spec _ _ HT)|]. wp_step. wp_step. rewrite Hi.
  wp_step. apply wp_alloc; [done|lia|]. intros b p Hf _. wp_step. wp_step. wp_step.
  eapply status_line_wp; [exact ET1|done|done|done|by destruct Hf|done|]. fold pre. intros s1 (W1 & W2 & W3 & W4) Hkv.
  wp_step. wp_step; [apply find_seq; rewrite ET2, length_app; lia|]. wp_step.
  assert (length (t_lines h) ≤ length str)%nat as Hfuel.
  { pose proof (c_str_length _ _ HT) as Hl. rewrite ET2, !length_app in Hl.
    enough (length (t_lines h) ≤ length (lines_text (t_lines h)))%nat by lia. clear.
    unfold lines_text. induction (t_lines h) as [|x l IH]; cbn; [done|]. rewrite !length_app. cbn. lia. }
  eapply (head_lines_wp _ _ _ r _ _ [] []); [exact ET2|done|done|done|rewrite W1; done|done|constructor|constructor|].
  cbn [app ver note ret_code body_len]. intros s2 hd l' (X1 & X2 & X3 & X4) Hch Hnd Hps Hfar.
  wp_step. eapply (content_length_wp n); [rewrite X1; done|by exists l'|done|done|done|]. cbn [ver note ret_code http_head].
  wp_step. eapply HQ; cbn [a_res a_kv a_obj bit_move set_bit set_res].
  - rewrite X1, W1. cbn. by destruct (a_res s).
  - by exists l'.
  - rewrite map_subseteq_spec. intros x y Hx. rewrite Hfar; [by rewrite Hkv|apply not_elem_of_nil|rewrite Hkv; by eexists].
  - rewrite X2, W2. done.
  - destruct X4. by split.
  - rewrite X3, W3. cbn [bit_move set_res set_pool]. do 3 f_equal. unfold render_head, pre.
    rewrite <- !app_assoc. cbn [app]. rewrite <- !app_assoc. cbn [app]. by rewrite <- !app_assoc.
Qed.
End head.

(** C22: [analysis_http_head_str] reads back every head that servers write,
    whatever follows it: version, code, note, the pairs of its lines in order,
    and the length that the first Content-Length line states; [bit_move]
    advances by exactly the length of the head, and no node that was there
    before changes. *)
Theorem analysis_http_head_str_reads `{EsPool P} h n r b (s : ana P) :
  c_str b = Done (render_head h ++ r) → head_ok h → 0 <= n <= int_max →
  KeyValue.assoc (bytes "Content-Length") (line_pairs (t_lines h)) = copied (dec n) →
  pool_good (a_pool s) → plenty (a_pool s) → http (a_res s) = None →
  ∃ s' hd, analysis_http_head_str b s = Done (inl tt, s') ∧
    a_res s' = set_http (Some (HttpHead (copied (t_ver h)) (copied (t_note h)) (t_code h) n hd)) (a_res s) ∧
    kv_list (a_kv s') hd (line_pairs (t_lines h)) ∧ a_kv s ⊆ a_kv s' ∧
    bit_move s' = bit_move s + Z.of_nat (length (render_head h)).
Proof.
  intros HT Hh Hn Ha Hg Hp Hi.
  destruct (head_str_wp b _ HT h n r s (λ q s', q = inl tt ∧ ∃ hd,
    a_res s' = set_http (Some (HttpHead (copied (t_ver h)) (copied (t_note h)) (t_code h) n hd)) (a_res s) ∧
    kv_list (a_kv s') hd (line_pairs (t_lines h)) ∧ a_kv s ⊆ a_kv s' ∧
    bit_move s' = bit_move s + Z.of_nat (length (render_head h))) eq_refl Hh (conj Hg Hp) Hi Ha Hn)
    as (q & s' & E & -> & hd & HQ); [|by exists s', hd].
  intros s' hd H1 H2 H3 _ _ H4. by eauto 6.
Qed.
