(* ===== verification/EsJsonSpec.v ===== *)
(** * Elasticsearch client: reading a search result, correct

    [text_hits] says on the text alone which objects the loop finds; it is the
    specification of the code that builds the lists ([read_hits_builds]).
    Then EsJsonText shows what it finds in a result that a server wrote. *)

From S2P Require Import Prelude CString FrameTool PsText PsList KeyValue EsData EsHead EsJson EsHeadSpec.
From stdpp Require Import gmap strings.

Open Scope Z_scope.

(** ** What is found in a text *)

Section text.
Context (T : list Z).

Definition chr_of (p : nat) (c : Z) : option nat := ahead p (index_of c (drop p T)).
Definition find_of (p : option nat) (lit : list Z) : option nat :=
  match p with None => None | Some p => ahead p (find_sub lit (drop p T)) end.
Definition part (p q : nat) : text := copied (take (q - p) (drop p T)).

Definition text_number (colon comma : nat) : text :=
  let l := (colon + span_len (λ c, negb (is_digit c)) (drop colon T))%nat in
  let e := (l + span_len is_digit (drop l T))%nat in
  if (l <? comma)%nat && (e <=? comma)%nat then part l e else None.
Definition text_quoted (l e : nat) : text :=
  match chr_of l 34 with Some r => if (r <? e)%nat then part l r else None | None => None end.

Definition text_field (name : list Z) (p_char : option nat) (brack : nat) : text * option nat :=
  match find_of p_char name with
  | None => (None, None)
  | Some p =>
      if (p <? brack)%nat then
        let comma := match chr_of p 44 with Some c => if (c <=? brack)%nat then c else brack | None => brack end in
        (match chr_of p 58 with
         | Some colon =>
             if (colon <? comma)%nat then
               match chr_of colon 34 with
               | Some l => if (l <=? comma)%nat then text_quoted (S l) comma else text_number colon comma
               | None => text_number colon comma
               end
             else None
         | None => None
         end, Some (S comma))
      else (None, Some p)
  end.

Definition text_key (p colon : nat) : text :=
  match chr_of p 34 with Some l => if (l <? colon)%nat then text_quoted (S l) colon else None | None => None end.
Definition text_value (colon comma : nat) : text :=
  match chr_of colon 34 with
  | Some l => if (l <? comma)%nat then text_quoted (S l) comma else text_number colon comma
  | None => text_number colon comma
  end.
Definition text_pair (p colon comma : nat) : KEY_VALUE_NODE := KV (text_key p colon) (text_value colon comma).
Fixpoint text_pairs (fuel : nat) (p brack : nat) : list KEY_VALUE_NODE :=
  let next := match chr_of p 44 with Some c => if (c <=? brack)%nat then Some c else None | None => None end in
  let comma := default brack next in
  (match chr_of p 58 with Some colon => if (colon <? comma)%nat then [text_pair p colon comma] else [] | None => [] end) ++
  match next, fuel with Some c, S f => text_pairs f (S c) brack | _, _ => [] end.

Definition text_object (p l r : nat) : OBJ_INFO * list KEY_VALUE_NODE :=
  let i := text_field _index_str (Some p) l in
  let t := text_field _type_str i.2 l in
  let d := text_field _id_str t.2 l in
  (ObjInfo i.1 t.1 d.1 None, text_pairs (length T) l r).

(** The objects, where the loop stops, whether it met an object without
    [_source], and the end of the last object. *)
Fixpoint text_hits (fuel : nat) (next_start : option nat) (q : nat) (brack : option nat)
  : list (OBJ_INFO * list KEY_VALUE_NODE) * (nat + Z) * option nat :=
  match brack with
  | None => ([], inl q, None)
  | Some p =>
      if before next_start p then ([], inl q, None)
      else match chr_of p 125 with
      | None => ([], inl q, None)
      | Some r =>
          match chr_of (S r) 125 with
          | None => ([], inl q, None)
          | Some e =>
              match chr_of (S p) 123 with
              | Some l =>
                  if (l <? S r)%nat then
                    match fuel with
                    | O => ([], inl q, None)
                    | S f =>
                        let '(hs, ret, b) := text_hits f next_start (S e) (chr_of (S e) 123) in
                        (text_object p l (S r) :: hs, ret, Some (default (S e) b))
                    end
                  else ([], inr (-2), None)
              | None => ([], inr (-2), None)
              end
          end
      end
  end.

Lemma text_pairs_eq f p brack : text_pairs f p brack =
  let next := match chr_of p 44 with Some c => if (c <=? brack)%nat then Some c else None | None => None end in
  let comma := default brack next in
  (match chr_of p 58 with Some colon => if (colon <? comma)%nat then [text_pair p colon comma] else [] | None => [] end) ++
  match next, f with Some c, S f => text_pairs f (S c) brack | _, _ => [] end.
Proof. by destruct f. Qed.

Lemma chr_of_bounds p c r : chr_of p c = Some r → (p ≤ r < length T)%nat.
Proof.
  unfold chr_of, ahead. intros (i & Hi%index_of_lt & ->)%fmap_Some. rewrite length_drop in Hi. lia.
Qed.
Lemma find_of_bounds p lit r : find_of (Some p) lit = Some r → (p ≤ length T)%nat → (p ≤ r ≤ length T)%nat.
Proof.
  unfold find_of, ahead. intros (i & Hi & ->)%fmap_Some Hp.
  enough (i ≤ length (drop p T))%nat by (rewrite length_drop in *; lia).
  clear -Hi. revert i Hi. induction (drop p T) as [|x l IH]; intros i; cbn [find_sub]; (case_bool_decide; [intros [= <-]; lia|]); [done|].
  intros (k & Hk & ->)%fmap_Some. apply IH in Hk. cbn. lia.
Qed.
Lemma span_bounds f p : (p ≤ length T)%nat → (p + span_len f (drop p T) ≤ length T)%nat.
Proof. intros Hp. pose proof (span_len_le f (drop p T)). rewrite length_drop in *. lia. Qed.
End text.

Lemma before_spec o q : before o q = match o with Some p => (p <? q)%nat | None => false end.
Proof. by destruct o. Qed.
Lemma before_S o q : before o (S q) = match o with Some p => (p <=? q)%nat | None => false end.
Proof. destruct o; cbn [before]; [|done]. by destruct (Nat.ltb_spec n (S q)), (Nat.leb_spec n q); try lia. Qed.

Section build.
Context {P : Type} `{EsPool P}.
Context (str T : list Z) (HT : c_str str = Done T).

(** Runs that only take memory from the pool. *)
Definition yields {A} (m : E P A) (a : A) : Prop :=
  ∀ s (Q : A + Z → ana P → Prop), fed s →
  (∀ pl, fed (set_pool pl s) → Q (inl a) (set_pool pl s)) → wp m s Q.

Lemma yields_val {A} (a : A) : yields (val a) a.
Proof. intros s Q Hs HQ. wp_step. destruct s as [r kv ob pl bm]. by apply (HQ pl). Qed.
Lemma yields_bind {A B} (m : E P A) (f : A → E P B) a b : yields m a → yields (f a) b → yields (ebind m f) b.
Proof.
  intros Hm Hf s Q Hs HQ. wp_step. apply Hm; [done|]. intros pl Hpl. apply Hf; [done|].
  intros pl' Hpl'. by apply (HQ pl').
Qed.
Lemma yields_run {A} (m : outcome A) a : m = Done a → yields (run m) a.
Proof. intros E s Q Hs HQ. wp_step; [exact E|]. destruct s as [r kv ob pl bm]. by apply (HQ pl). Qed.
Lemma yields_copy p q : (p ≤ length T)%nat → (q ≤ length T)%nat → yields (copy_text str p q) (part T p q).
Proof using HT. intros Hp Hq s Q Hs HQ. by apply (copy_wp _ T). Qed.
Lemma yields_alloc {A} n (f : list Z → E P A) a : 0 <= n → (∀ b, yields (f b) a) → yields (ebind (alloc n) f) a.
Proof.
  intros Hn Hf s Q Hs HQ. wp_step. apply wp_alloc; [done|done|]. intros b pl Hpl _. apply Hf; [done|].
  intros pl' Hpl'. by apply (HQ pl').
Qed.

Lemma run_chr p c : (p ≤ length T)%nat → yields (run (chr str (Some p) c)) (chr_of T p c).
Proof using HT. intros Hp. apply yields_run. by apply chr_text. Qed.

Lemma number_yields colon comma : (colon ≤ length T)%nat → yields (number_value str colon comma) (text_number T colon comma).
Proof using HT.
  intros Hc. unfold number_value, text_number. set (l := (colon + _)%nat). set (e := (l + _)%nat).
  assert (l ≤ length T)%nat as Hl by by apply span_bounds. assert (e ≤ length T)%nat as He by by apply span_bounds.
  eapply yields_bind; [apply yields_run; by apply (start_digit_text _ _ HT)|]. fold l. cbn [before default from_option id].
  destruct (l <? comma)%nat; cbn [andb]; [|apply yields_val].
  eapply yields_bind; [apply yields_run; by apply (end_digit_text _ _ HT)|]. fold e. rewrite before_S.
  destruct (e <=? comma)%nat; [|apply yields_val]. by apply yields_copy.
Qed.

Lemma quoted_yields l e : (l ≤ length T)%nat → yields (quoted str l e) (text_quoted T l e).
Proof using HT.
  intros Hl. unfold quoted, text_quoted. eapply yields_bind; [by apply run_chr|]. rewrite before_spec.
  destruct (chr_of T l 34) as [r|] eqn:Er; [|apply yields_val]. apply chr_of_bounds in Er.
  destruct (r <? e)%nat; [|apply yields_val]. apply yields_copy; cbn; lia.
Qed.

Lemma field_yields name p brack : nonzero name → name ≠ [] →
  (∀ x, p = Some x → x ≤ length T)%nat → (brack < length T)%nat →
  yields (obj_field name str p brack) (text_field T name p brack) ∧
  (∀ x, (text_field T name p brack).2 = Some x → x ≤ length T)%nat.
Proof using HT.
  intros Hz Hne Hp Hb. unfold obj_field, text_field.
  assert (find_str str p name = Done (find_of T p name)) as Ef.
  { destruct p as [p|]; [apply (find_text _ _ HT); auto|]. cbn. unfold rd. by destruct name as [|c name]. }
  destruct (find_of T p name) as [x|] eqn:Ex.
  2: { split; [|done]. eapply yields_bind; [by apply yields_run|]. apply yields_val. }
  assert (x ≤ length T)%nat as Hx.
  { destruct p as [p|]; [|done]. by apply (find_of_bounds _ _ _ _ Ex), Hp. }
  destruct (x <? brack)%nat eqn:Exb.
  2: { split; [|by intros ? [= <-]]. eapply yields_bind; [by apply yields_run|]. cbn [before]. rewrite Exb. apply yields_val. }
  set (comma := match chr_of T x 44 with Some c => _ | None => brack end).
  assert (comma < length T)%nat as Hc.
  { unfold comma. destruct (chr_of T x 44) as [c|] eqn:E; [|done]. apply chr_of_bounds in E. destruct (c <=? brack)%nat; lia. }
  split; [|intros y [= <-]; lia]. eapply yields_bind; [by apply yields_run|]. cbn [before]. rewrite Exb.
  eapply yields_bind; [by apply run_chr|].
  replace (if before (chr_of T x 44) (S brack) then default O (chr_of T x 44) else brack) with comma.
  2: { rewrite before_S. unfold comma. by destruct (chr_of T x 44) as [c|]; [destruct (c <=? brack)%nat|]. }
  eapply yields_bind; [by apply run_chr|]. eapply yields_bind; [|apply yields_val].
  rewrite before_spec. destruct (chr_of T x 58) as [colon|] eqn:Ec; [|apply yields_val]. apply chr_of_bounds in Ec.
  destruct (colon <? comma)%nat; [|apply yields_val]. cbn [default from_option id].
  eapply yields_bind; [apply run_chr; lia|]. rewrite before_S.
  destruct (chr_of T colon 34) as [l|] eqn:El; [|apply number_yields; lia]. apply chr_of_bounds in El.
  destruct (l <=? comma)%nat; [|apply number_yields; lia]. apply quoted_yields. cbn. lia.
Qed.

Lemma pair_yields p colon comma : (p ≤ length T)%nat → (colon ≤ length T)%nat →
  yields (source_pair str p colon comma) (text_pair T p colon comma).
Proof using HT.
  intros Hp Hc. unfold source_pair, text_pair. apply yields_alloc; [done|]. intros _.
  eapply yields_bind; [by apply run_chr|]. apply (yields_bind _ _ (text_key T p colon)).
  { unfold text_key. rewrite before_spec. destruct (chr_of T p 34) as [l|] eqn:El; [|apply yields_val].
    apply chr_of_bounds in El. destruct (l <? colon)%nat; [|apply yields_val]. apply quoted_yields. cbn. lia. }
  eapply yields_bind; [by apply run_chr|]. apply (yields_bind _ _ (text_value T colon comma)); [|apply yields_val].
  unfold text_value. rewrite before_spec. destruct (chr_of T colon 34) as [l|] eqn:El; [|by apply number_yields].
  apply chr_of_bounds in El. destruct (l <? comma)%nat; [|by apply number_yields]. apply quoted_yields. cbn. lia.
Qed.
End build.

(** ** Elasticsearch client: the lists of a search result

    [hits_rep] relates the objects of a response and their pairs to the heaps;
    the loops of EsJson build what [text_hits] finds. *)

(** An object with the address of its node and the nodes of its pairs. *)
Notation located := (positive * OBJ_INFO * list (positive * KEY_VALUE_NODE))%type.
Definition bare (o : OBJ_INFO) : OBJ_INFO := ObjInfo (o_index o) (o_type o) (o_id o) None.
Definition hit_of (x : located) : OBJ_INFO * list KEY_VALUE_NODE := (bare x.1.2, x.2.*2).

Section build.
Context {P : Type} `{EsPool P}.
Implicit Types (s : ana P) (L : list located) (outer : list (positive * KEY_VALUE_NODE)).

(** [outer]: the nodes of the HTTP head, at [hd]. *)
Record hits_rep s (hd : ptr) outer L : Prop := {
  hr_search : ∃ sr, search (a_res s) = Some sr ∧ chain (a_obj s) (s_head sr) L.*1 ∧
                match last L with Some x => s_tail sr = Some x.1.1 | None => True end;
  hr_nodup : NoDup (L.*1).*1;
  hr_outer : chain (a_kv s) hd outer;
  hr_pairs : Forall (λ x : located, chain (a_kv s) (o_head x.1.2) x.2) L;
  hr_apart : NoDup (outer ++ concat L.*2).*1;
}.

Lemma hits_rep_pool s p hd outer L : hits_rep s hd outer L → hits_rep (set_pool p s) hd outer L.
Proof. intros [H1 H2 H3 H4 H5]. by split. Qed.
Lemma hits_rep_bit s b hd outer L : hits_rep s hd outer L → hits_rep (set_bit b s) hd outer L.
Proof. intros [H1 H2 H3 H4 H5]. by split. Qed.

(** What an analysis step leaves alone. *)
Definition same_res (s s' : ana P) : Prop :=
  ∃ sr sr', search (a_res s) = Some sr ∧ a_res s' = set_search (Some sr') (a_res s) ∧ s_total sr' = s_total sr.
Definition same_rest (s s' : ana P) : Prop := fed s' ∧ bit_move s' = bit_move s ∧ same_res s s'.

Lemma elem_of_concat {A} (z : A) ls : z ∈ concat ls ↔ ∃ l, l ∈ ls ∧ z ∈ l.
Proof. setoid_rewrite list_elem_of_In. apply in_concat. Qed.

Lemma hits_addrs s hd outer L b : hits_rep s hd outer L → b ∈ (outer ++ concat L.*2).*1 → is_Some (a_kv s !! b).
Proof.
  intros [_ _ Hout Hpairs _]. rewrite fmap_app, elem_of_app. intros [Hb|Hb]; [by eapply chain_in|].
  apply list_elem_of_fmap in Hb as (z & -> & (l & Hl & Hz)%elem_of_concat).
  apply list_elem_of_fmap in Hl as (x & -> & Hx). pose proof (proj1 (Forall_forall _ _) Hpairs x Hx) as Hc.
  eapply chain_in; [exact Hc|]. apply list_elem_of_fmap. eauto.
Qed.

Lemma there_alter {A} (f : A → A) (m : gmap positive A) a n : m !! a = Some n → alter f a m = <[a := f n]> m.
Proof.
  intros Ha. apply map_eq. intros i. destruct (decide (i = a)) as [->|Hne].
  - by rewrite lookup_alter_eq, Ha, lookup_insert_eq.
  - by rewrite lookup_alter_ne, lookup_insert_ne.
Qed.

Lemma hang_object_wp o s hd outer L (Q : positive + Z → ana P → Prop) :
  hits_rep s hd outer L → fed s → o_head o = None →
  (∀ a s', hits_rep s' hd outer (L ++ [(a, o, [])]) → same_rest s s' → Q (inl a) s') →
  wp (hang_object o) s Q.
Proof.
  intros [(sr & Hsr & Hch & Htail) Hnd Hout Hpairs Hap] Hs Ho HQ. unfold hang_object, upd_search.
  wp_step. wp_step. wp_step. wp_step. rewrite Hsr.
  pose proof (new_addr_fresh (a_obj s)) as Hfr. set (a := new_addr (a_obj s)) in *.
  assert (a ∉ (L.*1).*1) as Ha by (intros Hin; destruct (chain_in _ _ _ _ Hch Hin) as [m Hm]; congruence).
  assert (∀ s' sr', a_kv s' = a_kv s → search (a_res s') = Some sr' →
    chain (a_obj s') (s_head sr') (L ++ [(a, o, [])]).*1 → s_tail sr' = Some a →
    hits_rep s' hd outer (L ++ [(a, o, [])])) as Hrep.
  { intros s' sr' Hkv Hsr' Hch' Ht. split.
    - exists sr'. split; [done|]. split; [done|]. by rewrite last_snoc.
    - rewrite !fmap_app. apply NoDup_app. split; [done|]. split; [|apply NoDup_singleton].
      intros d Hd ->%list_elem_of_singleton. done.
    - by rewrite Hkv.
    - rewrite Hkv. apply Forall_app. split; [done|]. apply Forall_singleton. cbn. by rewrite Ho.
    - rewrite (fmap_app snd), concat_app. cbn. by rewrite !app_nil_r. }
  set (h := <[a := Node o None]> (a_obj s)).
  assert (h !! a = Some (Node o None)) as Hha by apply lookup_insert_eq.
  assert (chain h (s_head sr) L.*1) as Hch' by by apply chain_insert.
  destruct L as [|[[b x] l] L _] using rev_ind.
  - cbn in Hch'. rewrite Hch'. wp_step. wp_step. wp_step; [reflexivity|]. wp_step. wp_step. wp_step. wp_step.
    apply HQ; [eapply Hrep; cbn; rewrite ?Hsr; [done|reflexivity| |done]|].
    + cbn. eauto.
    + split; [by destruct Hs|]. split; [done|]. unfold same_res. cbn. rewrite Hsr. eauto 6.
  - rewrite last_snoc in Htail. rewrite fmap_app in Hch', Hnd. cbn [fmap list_fmap fst snd app] in Hch', Hnd, Htail.
    assert (is_Some (s_head sr)) as [c Hc] by (destruct L.*1 as [|[c z] l']; destruct Hch' as (-> & _); eauto). rewrite Hc in *.
    rewrite fmap_app in Ha. destruct (chain_snoc L.*1 h (Some c) b x (Some a) a o Hch' Hnd Ha Hha eq_refl) as (Hb & Hsn).
    wp_step. wp_step. wp_step. { unfold add_objinfo_after_tail. rewrite Htail, (deref_ok _ _ _ Hb). reflexivity. }
    wp_step. wp_step. wp_step. wp_step.
    apply HQ; [eapply Hrep; cbn; rewrite ?Hsr; [done|reflexivity| |done]|].
    + cbn. rewrite Hc. rewrite !fmap_app. cbn [fmap list_fmap fst]. rewrite <- app_assoc. exact Hsn.
    + split; [by destruct Hs|]. split; [done|]. unfold same_res. cbn. rewrite Hsr. eauto 6.
Qed.

Lemma chain_last {A} : ∀ (l : list (positive * A)) h p a x,
  chain h p (l ++ [(a, x)]) → h !! a = Some (Node x None).
Proof.
  induction l as [|[b y] l IH]; intros h p a x; cbn.
  - by intros (_ & q & Ha & ->).
  - intros (_ & q & _ & Hl). by eapply IH.
Qed.

Lemma hang_pair_wp a o l n s hd outer L (Q : unit + Z → ana P → Prop) :
  hits_rep s hd outer (L ++ [(a, o, l)]) →
  (∀ b o' s', hits_rep s' hd outer (L ++ [(a, o', l ++ [(b, n)])]) → bare o' = bare o →
     a_res s' = a_res s → a_pool s' = a_pool s → bit_move s' = bit_move s → Q (inl tt) s') →
  wp (hang_pair a n) s Q.
Proof.
  intros Hrep HQ. pose proof Hrep as [(sr & Hsr & Hch & Htail) Hnd Hout Hpairs Hap]. unfold hang_pair.
  rewrite fmap_app in Hch, Hnd. cbn [fmap list_fmap fst snd] in Hch, Hnd.
  wp_step. wp_step. wp_step. wp_step; [apply deref_ok, (chain_last _ _ _ _ _ Hch)|]. cbn [n_data].
  apply Forall_app in Hpairs as [Hpairs Hl]. apply Forall_inv in Hl. cbn [fst snd] in Hl.
  rewrite (fmap_app snd), concat_app in Hap. cbn [fmap list_fmap snd concat] in Hap. rewrite app_nil_r, !fmap_app in Hap.
  pose proof Hap as (_ & Hx1 & Hap2)%NoDup_app. pose proof Hap2 as (_ & Hx2 & Hndl)%NoDup_app.
  wp_step. apply (hang_wp _ l _ s _ Hl Hndl). intros b hd' kv Hb Hkv Hfar.
  assert (∀ p l0, chain (a_kv s) p l0 → (∀ x, x ∈ l0.*1 → x ∉ l.*1) → chain kv p l0) as Hkeep.
  { intros p l0 Hc Hd. eapply chain_ext; [|exact Hc]. intros x Hx. apply Hfar; [by apply Hd|].
    intros ->. destruct (chain_in _ _ _ _ Hc Hx) as [m Hm]. congruence. }
  unfold set_object_pairs. wp_step. set (o' := ObjInfo (o_index o) (o_type o) (o_id o) hd').
  destruct (chain_set L.*1 a o [] (a_obj s) (s_head sr) o' Hch Hnd) as (q & Ha & Hset).
  assert (alter (λ n, Node (ObjInfo (o_index (n_data n)) (o_type (n_data n)) (o_id (n_data n)) hd') (n_next n)) a (a_obj s)
    = <[a := Node o' q]> (a_obj s)) as EA by by rewrite (there_alter _ _ _ _ Ha).
  apply (HQ b o'); try done. split; cbn [a_res a_obj a_kv set_obj set_kv].
  - exists sr. split; [done|]. rewrite EA, fmap_app. split; [exact Hset|]. rewrite last_snoc in *. exact Htail.
  - rewrite fmap_app, fmap_app. by rewrite fmap_app in Hnd.
  - apply Hkeep; [done|]. intros x Hx Hxl. apply (Hx1 x Hx). apply elem_of_app. by right.
  - apply Forall_app. split; [|by apply Forall_singleton].
    apply Forall_forall. intros x Hx. apply Hkeep; [by apply (proj1 (Forall_forall _ _) Hpairs)|].
    intros y Hy. apply Hx2. apply list_elem_of_fmap in Hy as (z & -> & Hz). apply list_elem_of_fmap. exists z.
    split; [done|]. apply elem_of_concat. exists x.2. split; [|done]. apply list_elem_of_fmap. eauto.
  - rewrite (fmap_app snd), concat_app. cbn [fmap list_fmap snd concat]. rewrite app_nil_r, !fmap_app, !app_assoc.
    apply NoDup_app. rewrite <- app_assoc. split; [exact Hap|]. split; [|apply NoDup_singleton].
    intros x Hx ->%list_elem_of_singleton. cbn [fst] in Hx. enough (is_Some (a_kv s !! b)) as [m Hm] by congruence.
    apply (hits_addrs _ _ _ _ _ Hrep). rewrite (fmap_app snd), concat_app. cbn [fmap list_fmap snd concat].
    by rewrite app_nil_r, !fmap_app.
Qed.

Context (str T : list Z) (HT : c_str str = Done T).

Lemma source_loop_eq fuel p brack a : source_loop (P := P) fuel str p brack a =
  (p_comma ⇐ run (chr str (Some p) 44);
   let is_obj_end := negb (before p_comma (S brack)) in
   let comma := if is_obj_end then brack else default O p_comma in
   p_colon ⇐ run (chr str (Some p) 58);
   (if before p_colon comma then
      n ⇐ source_pair str p (default O p_colon) comma;
      hang_pair a n
    else val tt) ;>
   if is_obj_end then val tt
   else match fuel with O => no_fuel | S f => source_loop f str (S comma) brack a end).
Proof. by destruct fuel. Qed.

(** One round of the loop over the pairs. *)
Lemma source_round_wp p comma a o l s hd outer L (Q : unit + Z → ana P → Prop) :
  hits_rep s hd outer (L ++ [(a, o, l)]) → fed s → (p ≤ length T)%nat →
  (∀ s' o' l', hits_rep s' hd outer (L ++ [(a, o', l')]) → bare o' = bare o →
     l'.*2 = l.*2 ++ match chr_of T p 58 with Some colon => if (colon <? comma)%nat then [text_pair T p colon comma] else [] | None => [] end →
     fed s' → a_res s' = a_res s → bit_move s' = bit_move s → Q (inl tt) s') →
  wp (if before (chr_of T p 58) comma then
        n ⇐ source_pair str p (default O (chr_of T p 58)) comma; hang_pair a n
      else val tt) s Q.
Proof using HT.
  intros Hrep Hs Hp HQ. destruct (chr_of T p 58) as [colon|] eqn:Ec; cbn [before default from_option id].
  2: { wp_step. by apply (HQ s o l); rewrite ?app_nil_r. }
  destruct (colon <? comma)%nat; [|wp_step; by apply (HQ s o l); rewrite ?app_nil_r].
  apply chr_of_bounds in Ec. wp_step. eapply (pair_yields _ T HT); [done|lia|done|]. intros pl Hpl.
  eapply (hang_pair_wp a o l); [by apply hits_rep_pool|]. intros b o' s' Hrep' Ho Hres Hpool Hbit.
  apply (HQ s' o' (l ++ [(b, text_pair T p colon comma)])); try done.
  - by rewrite fmap_app.
  - unfold fed. by rewrite Hpool.
Qed.

Lemma source_loop_wp : ∀ f1 f2 p brack a o l s hd outer L (Q : unit + Z → ana P → Prop),
  hits_rep s hd outer (L ++ [(a, o, l)]) → fed s → (p ≤ length T)%nat →
  (length T - p ≤ f1)%nat → (length T - p ≤ f2)%nat →
  (∀ s' o' l', hits_rep s' hd outer (L ++ [(a, o', l')]) → bare o' = bare o →
     l'.*2 = l.*2 ++ text_pairs T f2 p brack → fed s' → a_res s' = a_res s → bit_move s' = bit_move s → Q (inl tt) s') →
  wp (source_loop f1 str p brack a) s Q.
Proof using HT.
  induction f1 as [|f1 IH]; intros f2 p brack a o l s hd outer L Q Hrep Hs Hp Hf1 Hf2 HQ;
    rewrite source_loop_eq; rewrite text_pairs_eq in HQ; cbv zeta in HQ;
    (wp_step; eapply (run_chr _ T HT); [done|done|]; intros p1 Hp1; rewrite before_S);
    (destruct (chr_of T p 44) as [c|] eqn:Ec; [destruct (c <=? brack)%nat eqn:Eb|]);
    cbn [negb default from_option id] in *; cbv zeta;
    (wp_step; eapply (run_chr _ T HT); [done|done|]; intros p2 Hp2; wp_step;
     eapply (source_round_wp p _ a o l); [by do 2 apply hits_rep_pool|done|done|]);
    intros s' o' l' Hrep' Ho Hl Hs' Hres Hbit.
  - apply chr_of_bounds in Ec. lia.
  - wp_step. apply (HQ s' o' l'); try done. by rewrite app_nil_r.
  - wp_step. apply (HQ s' o' l'); try done. by rewrite app_nil_r.
  - apply chr_of_bounds in Ec. destruct f2 as [|f2]; [lia|].
    eapply (IH f2 (S c) brack a o' l'); [done|done|lia|lia|lia|].
    intros s2 o2 l2 R1 R2 R3 R4 R5 R6. apply (HQ s2 o2 l2); [done|congruence| |done|by rewrite R5|by rewrite R6].
    rewrite R3, Hl. by rewrite <- app_assoc.
  - wp_step. apply (HQ s' o' l'); try done. by rewrite app_nil_r.
  - wp_step. apply (HQ s' o' l'); try done. by rewrite app_nil_r.
Qed.

Lemma read_object_wp p l r s hd outer L (Q : unit + Z → ana P → Prop) :
  hits_rep s hd outer L → fed s → (p ≤ length T)%nat → (l < length T)%nat →
  (∀ s' x, hits_rep s' hd outer (L ++ [x]) → hit_of x = text_object T p l r → same_rest s s' → Q (inl tt) s') →
  wp (read_object str p l r) s Q.
Proof using HT.
  intros Hrep Hs Hp Hl HQ. unfold read_object, index_field, type_field, id_field.
  pose proof (c_str_length _ _ HT) as Hlen.
  destruct (field_yields _ T HT _index_str (Some p) l) as [Y1 B1]; [by repeat constructor|done|by intros ? [= <-]|done|].
  destruct (field_yields _ T HT _type_str (text_field T _index_str (Some p) l).2 l) as [Y2 B2]; [by repeat constructor|done|done|done|].
  set (t := text_field T _type_str (text_field T _index_str (Some p) l).2 l) in *.
  destruct (field_yields _ T HT _id_str t.2 l) as [Y3 _]; [by repeat constructor|done|done|done|].
  wp_step. apply wp_alloc; [done|lia|]. intros b p0 Hf0 _.
  wp_step. apply Y1; [done|]. intros p1 Hf1. wp_step. apply Y2; [done|]. intros p2 Hf2. wp_step. apply Y3; [done|]. intros p3 Hf3.
  wp_step. eapply (hang_object_wp _ _ hd outer L); [by do 4 apply hits_rep_pool|done|done|].
  intros a s1 Hrep1 (Hs1 & Hb1 & sr & sr' & E1 & E2 & E3).
  eapply (source_loop_wp (length str) (length T)); [exact Hrep1|done|lia|lia|lia|].
  intros s2 o2 l2 Hrep2 Ho Hl2 Hs2 Hres Hbit. eapply HQ; [exact Hrep2| |].
  - unfold hit_of. cbn [fst snd]. rewrite Ho, Hl2. done.
  - split; [done|]. rewrite Hbit, Hb1. split; [done|]. exists sr, sr'. rewrite Hres. done.
Qed.

Lemma same_res_refl s sr : search (a_res s) = Some sr → same_res s s.
Proof.
  intros Hsr. exists sr, sr. split; [done|]. split; [|done].
  destruct (a_res s). cbn in *. by rewrite Hsr.
Qed.
Lemma same_res_trans s1 s2 s3 : same_res s1 s2 → same_res s2 s3 → same_res s1 s3.
Proof.
  intros (a & b & A1 & A2 & A3) (c & d & C1 & C2 & C3). exists a, d. split; [done|].
  rewrite A2 in C1. injection C1 as <-. rewrite C2, A2. split; [done|congruence].
Qed.

Lemma object_loop_eq fuel in_move next q brack : object_loop (P := P) fuel str in_move next q brack =
  match brack with
  | None => val (inl q)
  | Some p_char =>
      if before next p_char then val (inl q)
      else
        p_right_brack ⇐ run (chr str (Some p_char) 125);
        match p_right_brack with
        | None => val (inl q)
        | Some r =>
            p_end_obj ⇐ run (chr str (Some (S r)) 125);
            match p_end_obj with
            | None => val (inl q)
            | Some e =>
                p_left_brack ⇐ run (chr str (Some (S p_char)) 123);
                if before p_left_brack (S r) then
                  read_object str p_char (default O p_left_brack) (S r) ;>
                  upd (set_bit (in_move + Z.of_nat e + 1)) ;>
                  p_left_brack ⇐ run (chr str (Some (S e)) 123);
                  match fuel with
                  | O => no_fuel
                  | S f => object_loop f str in_move next (S e) p_left_brack
                  end
                else val (inr (-2))
            end
        end
  end.
Proof. by destruct fuel. Qed.

(** The state after a loop that found [res] from the state [s]. *)
Definition hits_read (res : list (OBJ_INFO * list KEY_VALUE_NODE) * (nat + Z) * option nat) (in_move : Z)
  s hd outer L (ret : nat + Z) (s' : ana P) : Prop :=
  ret = res.1.2 ∧ (∃ L', hits_rep s' hd outer (L ++ L') ∧ hit_of <$> L' = res.1.1) ∧
  fed s' ∧ same_res s s' ∧
  bit_move s' = match res.2 with Some e => in_move + Z.of_nat e | None => bit_move s end.

Lemma hits_read_stop s hd outer L in_move ret p :
  hits_rep s hd outer L → fed (set_pool p s) → hits_read ([], ret, None) in_move s hd outer L ret (set_pool p s).
Proof.
  intros Hrep Hp. destruct (hr_search _ _ _ _ Hrep) as (sr & Hsr & _).
  split; [done|]. split; [exists []; rewrite app_nil_r; split; [by apply hits_rep_pool|done]|].
  split; [done|]. split; [exact (same_res_refl s sr Hsr)|done].
Qed.

Lemma object_loop_wp : ∀ f1 f2 in_move next q brack s hd outer L (Q : (nat + Z) + Z → ana P → Prop),
  hits_rep s hd outer L → fed s → (∀ p, brack = Some p → q ≤ p < length T)%nat →
  (length T - q ≤ f1)%nat → (length T - q ≤ f2)%nat →
  (∀ ret s', hits_read (text_hits T f2 next q brack) in_move s hd outer L ret s' → Q (inl ret) s') →
  wp (object_loop f1 str in_move next q brack) s Q.
Proof using HT.
  induction f1 as [|f1 IH]; intros f2 in_move next q brack s hd outer L Q Hrep Hs Hbr Hf1 Hf2 HQ;
    assert (∀ p ret, fed (set_pool p s) → text_hits T f2 next q brack = ([], ret, None) → Q (inl ret) (set_pool p s)) as Hstop
      by (intros p ret Hp E; apply HQ; rewrite E; by apply hits_read_stop);
    assert (∀ ret, text_hits T f2 next q brack = ([], ret, None) → Q (inl ret) s) as Hstop0
      by (intros ret E; destruct s as [r kv ob pl bm]; by apply (Hstop pl));
    rewrite object_loop_eq;
    (destruct brack as [p|]; [specialize (Hbr p eq_refl)|wp_step; apply Hstop0; by destruct f2]);
    (destruct (before next p) eqn:En; [wp_step; apply Hstop0; destruct f2; cbn [text_hits]; by rewrite En|]);
    [lia|destruct f2 as [|f2]; [lia|]].
  cbn [text_hits] in HQ, Hstop. rewrite En in HQ, Hstop.
  wp_step. eapply (run_chr _ T HT); [lia|done|]. intros p1 Hp1.
  destruct (chr_of T p 125) as [r|] eqn:Er; [|wp_step; by apply Hstop]. apply chr_of_bounds in Er.
  wp_step. eapply (run_chr _ T HT); [lia|done|]. intros p2 Hp2.
  destruct (chr_of T (S r) 125) as [e|] eqn:Ee; [|wp_step; by apply Hstop]. apply chr_of_bounds in Ee.
  wp_step. eapply (run_chr _ T HT); [lia|done|]. intros p3 Hp3. rewrite before_spec.
  destruct (chr_of T (S p) 123) as [l|] eqn:El; [|wp_step; by apply Hstop]. apply chr_of_bounds in El.
  destruct (l <? S r)%nat eqn:Elr; [|wp_step; by apply Hstop]. cbn [default from_option id].
  wp_step. eapply (read_object_wp p l (S r) _ hd outer L); [by do 3 apply hits_rep_pool|done|lia|lia|].
  intros s1 x Hrep1 Hx (Hs1 & Hb1 & Hres1). wp_step. wp_step. wp_step. eapply (run_chr _ T HT); [lia|done|]. intros p4 Hp4.
  eapply (IH f2); [apply hits_rep_pool, hits_rep_bit; exact Hrep1|done| |lia|lia|].
  { intros y Hy. apply chr_of_bounds in Hy. lia. }
  intros ret s2 (Hret & (L' & Hrep2 & HL') & Hs2 & Hres2 & Hb2).
  destruct (text_hits T f2 next (S e) (chr_of T (S e) 123)) as [[hs ret'] b] eqn:Eh. cbn [fst snd] in *.
  apply HQ. split; [done|]. split; [|split; [done|split]]; cbn [fst snd].
  - exists (x :: L'). rewrite (cons_middle x), app_assoc. split; [exact Hrep2|]. cbn [fmap list_fmap]. by rewrite Hx, HL'.
  - eapply same_res_trans; [exact Hres1|]. exact Hres2.
  - rewrite Hb2. destruct b as [e'|]; cbn [default from_option id]; [done|]. cbn. lia.
Qed.

(** What [read_hits] makes of a text: the code and [bit_move]. *)
Definition hits_return (in_move : Z) (next : option nat) (ret : nat + Z) : Z * Z :=
  let out := in_move + match next with Some p => Z.of_nat p | None => Z.of_nat (length T) end in
  match ret with
  | inr z => (z, out)
  | inl q => match chr_of T q 93 with Some _ => (0, out) | None => (1, in_move + Z.of_nat q) end
  end.

Lemma text_hits_stop : ∀ f next q brack q', (q ≤ length T)%nat →
  (text_hits T f next q brack).1.2 = inl q' → (q' ≤ length T)%nat.
Proof.
  induction f as [|f IH]; intros next q brack q' Hq; cbn [text_hits];
    (destruct brack as [p|]; [|by intros [= <-]]);
    (destruct (before next p); [by intros [= <-]|]);
    (destruct (chr_of T p 125) as [r|]; [|by intros [= <-]]);
    (destruct (chr_of T (S r) 125) as [e|] eqn:Ee; [|by intros [= <-]]); apply chr_of_bounds in Ee;
    (destruct (chr_of T (S p) 123) as [l|]; [|done]); (destruct (l <? S r)%nat; [|done]); [by intros [= <-]|].
  specialize (IH next (S e) (chr_of T (S e) 123) q' ltac:(lia)).
  destruct (text_hits T f next (S e) (chr_of T (S e) 123)) as [[hs ret] b]. exact IH.
Qed.

Lemma read_hits_wp in_move next q s hd outer L (Q : Z + Z → ana P → Prop) :
  hits_rep s hd outer L → fed s → (q ≤ length T)%nat →
  (∀ s', let res := text_hits T (length T) next q (chr_of T q 123) in
     ∀ L', hits_rep s' hd outer (L ++ L') → hit_of <$> L' = res.1.1 → fed s' → same_res s s' →
     bit_move s' = (hits_return in_move next res.1.2).2 → Q (inl (hits_return in_move next res.1.2).1) s') →
  wp (read_hits str in_move (Z.of_nat (length T)) next q) s Q.
Proof using HT.
  intros Hrep Hs Hq HQ. unfold read_hits. pose proof (c_str_length _ _ HT) as Hlen.
  wp_step. eapply (run_chr _ T HT); [done|done|]. intros p1 Hp1. wp_step.
  eapply (object_loop_wp (length str) (length T)); [apply hits_rep_pool; exact Hrep|done| |lia|lia|].
  { intros p Hp. apply chr_of_bounds in Hp. lia. }
  intros ret s1 (-> & (L' & Hrep1 & HL') & Hs1 & Hres1 & _). cbv zeta in HQ. pose proof (text_hits_stop (length T) next q (chr_of T q 123)) as Hst.
  destruct (text_hits T (length T) next q (chr_of T q 123)) as [[hs ret] b]. cbn [fst snd] in *.
  destruct ret as [q'|z].
  - specialize (Hst q' Hq eq_refl). wp_step. eapply (run_chr _ T HT); [done|done|]. intros p2 Hp2.
    unfold hits_return in HQ. destruct (chr_of T q' 93); unfold error_out; wp_step; wp_step; wp_step;
      (eapply HQ; [apply hits_rep_bit, hits_rep_pool; exact Hrep1|done|done|exact Hres1|done]).
  - unfold error_out. wp_step. wp_step. wp_step. eapply HQ; [apply hits_rep_bit; exact Hrep1|done|done|exact Hres1|done].
Qed.
End build.
