(* ===== verification/EsJsonText.v ===== *)
(** * Elasticsearch client: search results as servers write them

    [render_hits] writes hits the way the server does; [text_hits] finds them
    again, also when the text ends in the middle of a hit. *)

From S2P Require Import Prelude CString PsList PsText FrameTool KeyValue EsData EsHead EsJson EsHeadSpec EsJsonSpec.
From stdpp Require Import gmap strings.

Open Scope Z_scope.

(** ** What a server writes *)

Inductive json_value := VText (v : list Z) | VNumber (digits : list Z).
Record json_hit := JsonHit {
  j_gap : list Z;    (* what stands before the hit: a comma, blanks *)
  j_index : list Z; j_type : list Z; j_id : list Z;
  j_more : list Z;   (* further fields, as the score *)
  j_source : list (list Z * json_value);
}.

Definition value_text (v : json_value) : list Z :=
  match v with VText v => 34 :: v ++ [34] | VNumber d => d end.
Definition pair_text (p : list Z * json_value) : list Z := 34 :: p.1 ++ 34 :: 58 :: value_text p.2.
Fixpoint pairs_text (ps : list (list Z * json_value)) : list Z :=
  match ps with [] => [] | [p] => pair_text p | p :: ps => pair_text p ++ 44 :: pairs_text ps end.
Definition field_text (name v : list Z) : list Z := name ++ 34 :: 58 :: 34 :: v ++ [34; 44].
Definition source_str : list Z := 34 :: bytes "_source" ++ [34; 58].
Definition fields_text (h : json_hit) : list Z :=
  34 :: field_text _index_str (j_index h) ++ 34 :: field_text _type_str (j_type h) ++
  34 :: field_text _id_str (j_id h) ++ j_more h ++ source_str.
Definition hit_text (h : json_hit) : list Z := 123 :: fields_text h ++ 123 :: pairs_text (j_source h) ++ [125; 125].
Definition render_hits (hs : list json_hit) : list Z := concat ((λ h, j_gap h ++ hit_text h) <$> hs).

(** Texts hold no quote, comma or brace (the client knows no escapes); keys no
    colon. *)
Definition simple (l : list Z) : Prop := 34 ∉ l ∧ 44 ∉ l ∧ 123 ∉ l ∧ 125 ∉ l.
Definition value_ok (v : json_value) : Prop :=
  match v with VText v => simple v | VNumber d => d ≠ [] ∧ Forall (λ c, is_digit c = true) d end.
Record hit_ok (h : json_hit) : Prop := {
  hk_gap : 123 ∉ j_gap h ∧ 125 ∉ j_gap h;
  hk_fields : simple (j_index h) ∧ simple (j_type h) ∧ simple (j_id h);
  hk_more : 123 ∉ j_more h ∧ 125 ∉ j_more h;
  hk_source : Forall (λ p, simple p.1 ∧ 58 ∉ p.1 ∧ value_ok p.2) (j_source h);
}.

(** What the client keeps. *)
Definition value_kept (v : json_value) : text := match v with VText v => copied v | VNumber d => copied d end.
Definition pair_kept (p : list Z * json_value) : KEY_VALUE_NODE := KV (copied p.1) (value_kept p.2).
Definition hit_kept (h : json_hit) : OBJ_INFO * list KEY_VALUE_NODE :=
  (ObjInfo (copied (j_index h)) (copied (j_type h)) (copied (j_id h)) None, pair_kept <$> j_source h).

#[export] Instance simple_dec l : Decision (simple l).
Proof. unfold simple. apply _. Defined.
#[export] Instance value_ok_dec v : Decision (value_ok v).
Proof. destruct v; cbn; apply _. Defined.

Lemma simple_spec l c : simple l → c = 34 ∨ c = 44 ∨ c = 123 ∨ c = 125 → c ∉ l.
Proof. intros (H1 & H2 & H3 & H4) [->|[->|[->| ->]]]; done. Qed.

Lemma digits_without d c : Forall (λ c, is_digit c = true) d → is_digit c = false → c ∉ d.
Proof. intros Hd Hc Hin. pose proof (proj1 (Forall_forall _ _) Hd c Hin). cbn in *. congruence. Qed.

(** ** Reading at a position *)

Section text.
Context (T : list Z).

Lemma drop_at p q a u : drop p T = a ++ u → q = (p + length a)%nat → drop q T = u.
Proof. intros E ->. by rewrite <- drop_drop, E, drop_app_length. Qed.
Lemma chr_there p s c r : drop p T = s ++ c :: r → c ∉ s → chr_of T p c = Some (p + length s)%nat.
Proof. intros E Hs. unfold chr_of. by rewrite E, index_of_fresh. Qed.
Lemma chr_far p s r c q : drop p T = s ++ r → c ∉ s → (q ≤ p + length s)%nat →
  match chr_of T p c with Some x => (q ≤ x)%nat | None => True end.
Proof.
  intros E Hs Hq. unfold chr_of. rewrite E, index_of_app_r by done. destruct (index_of c r); cbn; [lia|done].
Qed.
Lemma part_at p v r : drop p T = v ++ r → part T p (p + length v) = copied v.
Proof. intros E. unfold part. rewrite E. f_equal. replace (p + length v - p)%nat with (length v) by lia. apply take_app_length. Qed.

Lemma quoted_at l v r e : drop l T = v ++ 34 :: r → 34 ∉ v → (l + length v < e)%nat → text_quoted T l e = copied v.
Proof.
  intros E Hv He. unfold text_quoted. rewrite (chr_there _ _ _ _ E Hv), (proj2 (Nat.ltb_lt _ _)) by done.
  by apply (part_at _ _ _ E).
Qed.

Lemma field_at p u name v r brack c t :
  drop p T = u ++ field_text name v ++ r → name = c :: t → c ∉ u → 44 ∉ name → 58 ∉ name → simple v →
  (p + length u + length name + length v + 4 ≤ brack)%nat →
  text_field T name (Some p) brack = (copied v, Some (p + length u + length (field_text name v)))%nat.
Proof.
  intros E En Hu H44 H58 Hv Hb. unfold text_field, find_of. rewrite E.
  assert (find_sub name (u ++ field_text name v ++ r) = Some (length u)) as ->.
  { unfold field_text. rewrite <- !app_assoc, En. by apply find_sub_fresh. }
  cbn [ahead fmap option_fmap option_map]. set (x := (p + length u)%nat).
  assert (drop x T = field_text name v ++ r) as Ex by (eapply drop_at; [exact E|done]).
  unfold field_text in Ex. rewrite (proj2 (Nat.ltb_lt _ _)) by lia.
  assert (drop x T = (name ++ 34 :: 58 :: 34 :: v ++ [34]) ++ 44 :: r) as E44.
  { rewrite Ex. rewrite <- !app_assoc. cbn. by rewrite <- !app_assoc. }
  rewrite (chr_there _ _ _ _ E44).
  2: { rewrite !elem_of_app, !elem_of_cons, elem_of_app, list_elem_of_singleton. intros [?|[?|[?|[?|[?|?]]]]]; try done. by apply (simple_spec v 44 Hv); [auto|]. }
  assert (length (name ++ 34%Z :: 58%Z :: 34%Z :: v ++ [34%Z]) = length name + 4 + length v)%nat as Hl.
  { rewrite length_app. cbn [length]. rewrite length_app. cbn. lia. }
  rewrite Hl, (proj2 (Nat.leb_le _ _)) by lia.
  assert (drop x T = (name ++ [34]) ++ 58 :: 34 :: v ++ [34; 44] ++ r) as E58.
  { rewrite Ex. rewrite <- !app_assoc. cbn. by rewrite <- !app_assoc. }
  rewrite (chr_there _ _ _ _ E58) by (rewrite elem_of_app, list_elem_of_singleton; intros [?|?]; done).
  rewrite length_app. cbn [length].
  set (colon := (x + (length name + 1))%nat). rewrite (proj2 (Nat.ltb_lt _ _)) by lia.
  assert (drop colon T = [58] ++ 34 :: v ++ [34; 44] ++ r) as Ec by (eapply drop_at; [exact E58|rewrite length_app; cbn; lia]).
  rewrite (chr_there _ _ _ _ Ec) by by rewrite list_elem_of_singleton.
  cbn [length]. rewrite (proj2 (Nat.leb_le _ _)) by lia.
  rewrite (quoted_at _ v (44 :: r)).
  - f_equal. f_equal. unfold field_text. rewrite length_app. cbn [length]. rewrite length_app. cbn. lia.
  - eapply (drop_at colon _ [58; 34]); [exact Ec|cbn; lia].
  - apply Hv.
  - lia.
Qed.

(** The value behind a colon, when it ends before [comma] and, for a number, no
    quote comes before that. *)
Lemma value_at colon comma v f r :
  drop colon T = 58 :: value_text v ++ f :: r → value_ok v → is_digit f = false →
  (colon + 1 + length (value_text v) ≤ comma)%nat →
  match v with
  | VText _ => True
  | VNumber _ => match chr_of T colon 34 with Some l => (comma ≤ l)%nat | None => True end
  end →
  text_value T colon comma = value_kept v.
Proof.
  intros E Hv Hf Hc Hq. unfold text_value. destruct v as [v|d]; cbn [value_text value_kept value_ok] in *.
  - cbn [app] in E. rewrite <- app_assoc in E. cbn [app] in E. rewrite (chr_there colon [58] 34 _ E) by by rewrite list_elem_of_singleton.
    cbn [length] in *. rewrite length_app in Hc. cbn [length] in Hc. rewrite (proj2 (Nat.ltb_lt _ _)) by lia.
    apply (quoted_at _ v (f :: r)); [|by apply (simple_spec v 34 Hv); auto|lia].
    apply (drop_at colon _ [58; 34]); [exact E|cbn; lia].
  - destruct Hv as [Hne Hd]. assert (text_number T colon comma = copied d) as En.
    { unfold text_number. rewrite E.
      destruct d as [|c d]; [done|]. cbn [app span_len]. apply Forall_cons in Hd as [Hc0 Hd]. rewrite Hc0. cbn [negb].
      change (negb (is_digit 58)) with true. cbn iota. set (l := (colon + 1)%nat).
      assert (drop l T = (c :: d) ++ f :: r) as El by (apply (drop_at colon l [58]); [exact E|done]).
      rewrite El, span_len_stop; [|by constructor|done]. cbn [length] in *.
      rewrite (proj2 (Nat.ltb_lt _ _)), (proj2 (Nat.leb_le _ _)) by lia. cbn [andb]. by apply (part_at l (c :: d) (f :: r)). }
    destruct (chr_of T colon 34) as [l|]; [|done]. rewrite (proj2 (Nat.ltb_ge _ _)) by done. done.
Qed.

Lemma value_without v c : value_ok v → c = 44 ∨ c = 123 ∨ c = 125 → c ∉ value_text v.
Proof.
  destruct v as [v|d]; cbn; intros Hv Hc.
  - rewrite elem_of_cons, elem_of_app, list_elem_of_singleton. intros [->|[Hin| ->]]; [naive_solver| |naive_solver].
    by apply (simple_spec v c Hv); [naive_solver|].
  - apply digits_without; [apply Hv|]. naive_solver.
Qed.
Lemma pair_without p c : simple p.1 → value_ok p.2 → c = 44 ∨ c = 123 ∨ c = 125 → c ∉ pair_text p.
Proof.
  intros Hk Hv Hc. unfold pair_text. rewrite elem_of_cons, elem_of_app, !elem_of_cons.
  intros [->|[Hin|[->|[->|Hin]]]]; [naive_solver| |naive_solver|naive_solver|].
  - by apply (simple_spec _ c Hk); [naive_solver|].
  - by apply (value_without p.2 c Hv Hc).
Qed.

Definition pair_ok (p : list Z * json_value) : Prop := simple p.1 ∧ 58 ∉ p.1 ∧ value_ok p.2.

(** A pair behind [o], followed by [f]. *)
Lemma pair_at p o pr f r comma :
  drop p T = o ++ pair_text pr ++ f :: r → 34 ∉ o → 58 ∉ o → pair_ok pr → is_digit f = false → f ≠ 34 →
  (p + length o + length (pair_text pr) ≤ comma ≤ p + length o + length (pair_text pr) + 1)%nat →
  match pr.2 with VText _ => True | VNumber _ => comma = (p + length o + length (pair_text pr))%nat ∨ match r with c :: _ => c ≠ 34 | [] => True end end →
  match chr_of T p 58 with
  | Some colon => if (colon <? comma)%nat then [text_pair T p colon comma] else []
  | None => []
  end = [pair_kept pr].
Proof.
  intros E Ho34 Ho58 (Hk & Hk58 & Hv) Hf Hf34 Hc Hnum. destruct pr as [k v]. unfold pair_text in *. cbn [fst snd] in *.
  assert (length (34%Z :: k ++ 34%Z :: 58%Z :: value_text v) = length k + 3 + length (value_text v))%nat as Hl.
  { cbn [length]. rewrite length_app. cbn [length]. lia. }
  rewrite Hl in *. cbn [app] in E. rewrite <- app_assoc in E. cbn [app] in E.
  assert (drop p T = (o ++ 34 :: k ++ [34]) ++ 58 :: value_text v ++ f :: r) as E58.
  { rewrite E. rewrite <- app_assoc. cbn [app]. by rewrite <- app_assoc. }
  assert (length (o ++ 34%Z :: k ++ [34%Z]) = length o + length k + 2)%nat as Hl2.
  { rewrite length_app. cbn [length]. rewrite length_app. cbn. lia. }
  rewrite (chr_there _ _ _ _ E58).
  2: { rewrite elem_of_app, elem_of_cons, elem_of_app, list_elem_of_singleton. intros [?|[?|[?|?]]]; done. }
  rewrite Hl2. set (colon := (p + (length o + length k + 2))%nat). rewrite (proj2 (Nat.ltb_lt _ _)) by lia. f_equal.
  unfold text_pair, pair_kept. cbn [fst snd]. f_equal.
  - unfold text_key. rewrite (chr_there _ _ _ _ E Ho34), (proj2 (Nat.ltb_lt _ _)) by lia.
    apply (quoted_at _ k (58 :: value_text v ++ f :: r)); [|by apply (simple_spec k 34 Hk); auto|lia].
    apply (drop_at p _ (o ++ [34])); [rewrite E, <- app_assoc; done|rewrite length_app; cbn; lia].
  - assert (drop colon T = 58 :: value_text v ++ f :: r) as Ecol by (apply (drop_at p _ _ _ E58); rewrite Hl2; done).
    apply (value_at colon comma v f r); [done|done|done|lia|].
    destruct v as [|d]; [done|]. cbn [value_text] in *. destruct Hv as [_ Hd]. cbn iota in Hnum.
    pose proof (digits_without d 34 Hd eq_refl) as H34.
    assert (34 ∉ 58 :: d ++ [f]) as Hn1.
    { rewrite elem_of_cons, elem_of_app, list_elem_of_singleton. intros [?|[?|?]]; congruence. }
    destruct Hnum as [->|Hr].
    + apply (chr_far colon (58 :: d ++ [f]) r); [rewrite Ecol; cbn; by rewrite <- app_assoc|done|].
      cbn [length]. rewrite length_app. cbn. lia.
    + destruct r as [|c r].
      * apply (chr_far colon (58 :: d ++ [f]) []); [rewrite Ecol; cbn; by rewrite <- app_assoc, app_nil_r|done|].
        cbn [length]. rewrite length_app. cbn. lia.
      * apply (chr_far colon (58 :: d ++ [f; c]) r); [rewrite Ecol; cbn; by rewrite <- app_assoc| |].
        { rewrite elem_of_cons, elem_of_app, !elem_of_cons. intros [?|[?|[?|[?|?]]]]; try congruence. by eapply not_elem_of_nil. }
        cbn [length]. rewrite length_app. cbn. lia.
Qed.

Lemma pairs_text_cons pr p ps : pairs_text (pr :: p :: ps) = pair_text pr ++ 44 :: pairs_text (p :: ps).
Proof. done. Qed.

Lemma pairs_at : ∀ ps f p o brack r,
  drop p T = o ++ pairs_text ps ++ 125 :: 125 :: r → 34 ∉ o → 44 ∉ o → 58 ∉ o →
  Forall pair_ok ps → brack = (p + length o + length (pairs_text ps) + 1)%nat → (length ps ≤ f)%nat →
  text_pairs T f p brack = pair_kept <$> ps.
Proof.
  induction ps as [|pr ps IH]; intros f p o brack r E H34 H44 H58 Hps Hb Hf; rewrite text_pairs_eq; cbv zeta.
  - cbn [pairs_text app length] in *.
    assert (∀ c, c ∉ o → c ≠ 125 → match chr_of T p c with Some x => (S brack ≤ x)%nat | None => True end) as Hfar.
    { intros c Hc Hne. apply (chr_far p (o ++ [125; 125]) r); [rewrite E, <- app_assoc; done| |rewrite length_app; cbn; lia].
      rewrite elem_of_app, !elem_of_cons. intros [?|[?|[?|?]]]; try done. by eapply not_elem_of_nil. }
    pose proof (Hfar 44 H44 ltac:(done)) as F44. pose proof (Hfar 58 H58 ltac:(done)) as F58.
    replace (match chr_of T p 44 with Some c => _ | None => None end) with (@None nat).
    2: { destruct (chr_of T p 44); [|done]. by rewrite (proj2 (Nat.leb_gt _ _)) by lia. }
    cbn [default from_option id]. destruct (chr_of T p 58) as [c|]; [|done]. by rewrite (proj2 (Nat.ltb_ge _ _)) by lia.
  - apply Forall_cons in Hps as [Hpr Hps]. pose proof Hpr as (Hk & Hk58 & Hv). pose proof (pair_without pr 44 Hk Hv ltac:(auto)) as Hn44.
    destruct ps as [|p2 ps].
    + cbn [pairs_text] in *.
      replace (match chr_of T p 44 with Some c => _ | None => None end) with (@None nat).
      2: { pose proof (chr_far p (o ++ pair_text pr ++ [125; 125]) r 44 (S brack)) as F.
           destruct (chr_of T p 44); [|done]. rewrite (proj2 (Nat.leb_gt _ _)); [done|]. apply F.
           - rewrite E. by rewrite <- !app_assoc.
           - rewrite !elem_of_app, !elem_of_cons. intros [?|[?|[?|[?|?]]]]; try done. by eapply not_elem_of_nil.
           - rewrite !length_app. cbn [length]. lia. }
      cbn [default from_option id].
      rewrite (pair_at p o pr 125 (125 :: r) brack E H34 H58 Hpr) by first [done|lia|destruct pr.2; [done|by right]]. done.
    + rewrite pairs_text_cons in *. rewrite length_app in Hb. cbn [length] in Hb.
      assert (drop p T = (o ++ pair_text pr) ++ 44 :: pairs_text (p2 :: ps) ++ 125 :: 125 :: r) as E44.
      { rewrite E. rewrite <- !app_assoc. done. }
      rewrite (chr_there _ _ _ _ E44) by (rewrite elem_of_app; intros [?|?]; done).
      set (c := (p + length (o ++ pair_text pr))%nat). assert (c = p + length o + length (pair_text pr))%nat as Hc by (unfold c; rewrite length_app; lia).
      rewrite (proj2 (Nat.leb_le _ _)) by lia. cbn [default from_option id].
      rewrite (pair_at p o pr 44 (pairs_text (p2 :: ps) ++ 125 :: 125 :: r) c).
      * destruct f as [|f]; [cbn in Hf; lia|]. cbn [app]. rewrite fmap_cons. f_equal.
        apply (IH f (S c) [] brack r); [|apply not_elem_of_nil..|done| |cbn in *; lia].
        -- apply (drop_at p _ ((o ++ pair_text pr) ++ [44])); [rewrite E44; apply (app_assoc (o ++ pair_text pr) [44])|rewrite !length_app; cbn [length]; lia].
        -- cbn [length]. lia.
      * rewrite E44. by rewrite <- app_assoc.
      * done.
      * done.
      * done.
      * done.
      * done.
      * lia.
      * destruct pr.2; [done|by left].
Qed.

Lemma field_without name v c : c = 123 ∨ c = 125 → c ∉ name → simple v → c ∉ field_text name v.
Proof.
  intros Hc Hn Hv. unfold field_text. rewrite elem_of_app, !elem_of_cons, elem_of_app, !elem_of_cons.
  intros [?|[?|[?|[?|[Hin|[?|[?|Hin]]]]]]]; try done; try lia.
  - by apply (simple_spec v c Hv); [naive_solver|].
  - by apply not_elem_of_nil in Hin.
Qed.

Lemma fields_without h c : hit_ok h → c = 123 ∨ c = 125 → c ∉ fields_text h.
Proof.
  intros [_ (Hi & Ht & Hd) [Hm1 Hm2] _] Hc.
  assert (c ∉ source_str ∧ c ∉ _index_str ∧ c ∉ _type_str ∧ c ∉ _id_str) as (N0 & N1 & N2 & N3).
  { destruct Hc as [->| ->]; repeat split; apply (bool_decide_unpack _); vm_compute; done. }
  pose proof (field_without _ _ c Hc N1 Hi) as F1. pose proof (field_without _ _ c Hc N2 Ht) as F2.
  pose proof (field_without _ _ c Hc N3 Hd) as F3. unfold fields_text.
  rewrite elem_of_cons, elem_of_app, elem_of_cons, elem_of_app, elem_of_cons, !elem_of_app.
  intros [?|[?|[?|[?|[?|[?|[?|?]]]]]]]; try done; try lia. destruct Hc as [->| ->]; done.
Qed.

Lemma length_field name v : length (field_text name v) = (length name + length v + 5)%nat.
Proof. unfold field_text. rewrite length_app. cbn [length]. rewrite length_app. cbn [length]. lia. Qed.
Lemma length_fields h : (length (fields_text h) = 3 + length (field_text _index_str (j_index h)) +
  length (field_text _type_str (j_type h)) + length (field_text _id_str (j_id h)) + length (j_more h) + length source_str)%nat.
Proof.
  unfold fields_text. cbn [length]. rewrite length_app. cbn [length]. rewrite length_app. cbn [length].
  rewrite !length_app. lia.
Qed.
Lemma length_hit h : (length (hit_text h) = length (fields_text h) + length (pairs_text (j_source h)) + 4)%nat.
Proof. unfold hit_text. cbn [length]. rewrite length_app. cbn [length]. rewrite length_app. cbn [length]. lia. Qed.
Lemma length_pairs ps : (length ps ≤ length (pairs_text ps))%nat.
Proof.
  induction ps as [|p [|p2 ps] IH]; [done|unfold pairs_text, pair_text; cbn [length]; lia|].
  rewrite pairs_text_cons, length_app. cbn [length] in *. lia.
Qed.
Lemma pairs_without ps : Forall pair_ok ps → 125 ∉ pairs_text ps.
Proof.
  induction 1 as [|p [|p2 ps] (Hk & _ & Hv) Hps IH]; [apply not_elem_of_nil|by apply pair_without; auto|].
  rewrite pairs_text_cons, elem_of_app, elem_of_cons. pose proof (pair_without p 125 Hk Hv ltac:(auto)).
  intros [?|[?|?]]; [done|done|by apply IH].
Qed.

Lemma object_at p h r l brack :
  drop p T = hit_text h ++ r → hit_ok h → l = (p + 1 + length (fields_text h))%nat →
  brack = (p + length (hit_text h) - 1)%nat → text_object T p l brack = hit_kept h.
Proof.
  intros E Hh -> ->. pose proof Hh as [_ (Hi & Ht & Hd) _ Hps]. unfold text_object, hit_kept.
  pose proof (length_fields h) as HlF. pose proof (length_hit h) as HlH.
  pose proof (length_field _index_str (j_index h)) as L1. pose proof (length_field _type_str (j_type h)) as L2.
  pose proof (length_field _id_str (j_id h)) as L3. set (l := (p + 1 + length (fields_text h))%nat) in *.
  assert (drop p T = 123 :: fields_text h ++ 123 :: pairs_text (j_source h) ++ 125 :: 125 :: r) as E0.
  { rewrite E. unfold hit_text. cbn [app]. rewrite <- app_assoc. cbn [app]. by rewrite <- app_assoc. }
  set (tail := 123 :: pairs_text (j_source h) ++ 125 :: 125 :: r) in *. unfold fields_text in E0. cbn [app] in E0.
  assert (∃ t1, drop p T = [123; 34] ++ field_text _index_str (j_index h) ++ [34] ++ field_text _type_str (j_type h) ++
    [34] ++ field_text _id_str (j_id h) ++ t1) as [t1 E1].
  { eexists. rewrite E0. cbn [app]. repeat (rewrite <- app_assoc; cbn [app]). reflexivity. }
  rewrite (field_at p [123; 34] _index_str (j_index h) _ l 95 (bytes "index") E1).
  2: done. 2: by apply (bool_decide_unpack _); vm_compute. 2-3: by apply (bool_decide_unpack _); vm_compute. 2: done.
  2: { cbn [length] in *. unfold l. lia. }
  cbn [snd]. set (p1 := (p + _ + _)%nat).
  assert (drop p1 T = [34] ++ field_text _type_str (j_type h) ++ [34] ++ field_text _id_str (j_id h) ++ t1) as E2.
  { apply (drop_at p _ ([123; 34] ++ field_text _index_str (j_index h))); [rewrite E1, <- app_assoc; done|rewrite length_app; unfold p1; lia]. }
  rewrite (field_at p1 [34] _type_str (j_type h) _ l 95 (bytes "type") E2).
  2: done. 2: by apply (bool_decide_unpack _); vm_compute. 2-3: by apply (bool_decide_unpack _); vm_compute. 2: done.
  2: { unfold p1. cbn [length] in *. unfold l. lia. }
  cbn [fst snd]. set (p2 := (p1 + _ + _)%nat).
  assert (drop p2 T = [34] ++ field_text _id_str (j_id h) ++ t1) as E3.
  { apply (drop_at p1 _ ([34] ++ field_text _type_str (j_type h))); [rewrite E2, <- app_assoc; done|rewrite length_app; unfold p2; lia]. }
  rewrite (field_at p2 [34] _id_str (j_id h) _ l 95 (bytes "id") E3).
  2: done. 2: by apply (bool_decide_unpack _); vm_compute. 2-3: by apply (bool_decide_unpack _); vm_compute. 2: done.
  2: { unfold p2, p1. cbn [length] in *. unfold l. lia. }
  cbn [fst]. f_equal.
  assert (drop l T = tail) as El.
  { apply (drop_at p _ (123 :: fields_text h)); [rewrite E; unfold tail, hit_text; cbn [app]; f_equal;
      rewrite <- app_assoc; cbn [app]; by rewrite <- app_assoc|cbn [length]; unfold l; lia]. }
  apply (pairs_at _ _ l [123] _ r); [done|by rewrite list_elem_of_singleton..|done|cbn [length]; unfold l; lia|].
  pose proof (f_equal length El) as Hlen. unfold tail in Hlen. rewrite length_drop in Hlen. cbn [length] in Hlen.
  rewrite length_app in Hlen. pose proof (length_pairs (j_source h)). lia.
Qed.

(** A text that holds no complete object. *)
Definition few_braces (post : list Z) : Prop := ∀ a b, post = a ++ 125 :: b → 125 ∉ b.
Definition unfinished (post : list Z) : Prop := 123 ∉ post ∨ few_braces post.

Lemma stop_at f next q : unfinished (drop q T) → text_hits T f next q (chr_of T q 123) = ([], inl q, None).
Proof.
  intros [Hno|Hfew]; [unfold chr_of; rewrite (proj2 (index_of_None _ _) Hno); by destruct f|].
  destruct (chr_of T q 123) as [p|] eqn:Ep; [|by destruct f].
  pose proof (chr_of_bounds _ _ _ _ Ep) as Hp. assert (before next p = true ∨ before next p = false) as [Hn|Hn] by (destruct (before next p); auto).
  { destruct f; cbn [text_hits]; by rewrite Hn. }
  assert (∀ r, chr_of T p 125 = Some r → chr_of T (S r) 125 = None) as H2.
  { intros r Hr. unfold chr_of. apply fmap_None, index_of_None. unfold chr_of, ahead in Hr.
    apply fmap_Some in Hr as (i & Hi & ->). apply index_of_Some in Hi as [Hi _]. rewrite lookup_drop in Hi.
    apply (Hfew (take (p + i - q) (drop q T))). rewrite <- (take_drop (p + i - q) (drop q T)) at 1. f_equal.
    rewrite drop_drop. replace (q + (p + i - q))%nat with (p + i)%nat by lia. by apply drop_S. }
  destruct f; cbn [text_hits]; rewrite Hn; (destruct (chr_of T p 125) as [r|] eqn:Er; [|done]); by rewrite (H2 r).
Qed.

Lemma hits_at : ∀ hs f next q post,
  drop q T = render_hits hs ++ post → Forall hit_ok hs → unfinished post → (length hs ≤ f)%nat →
  match next with Some n => (q + length (render_hits hs) ≤ n)%nat | None => True end →
  let q' := (q + length (render_hits hs))%nat in
  text_hits T f next q (chr_of T q 123) = (hit_kept <$> hs, inl q', match hs with [] => None | _ => Some q' end).
Proof.
  induction hs as [|h hs IH]; intros f next q post E Hok Hfew Hf Hn; cbv zeta.
  - cbn in E. cbn [render_hits concat fmap list_fmap length]. rewrite Nat.add_0_r. apply stop_at. by rewrite E.
  - apply Forall_cons in Hok as [Hh Hok]. destruct f as [|f]; [cbn in Hf; lia|].
    cbn [render_hits concat fmap list_fmap] in *. fold (render_hits hs) in *. rewrite <- !app_assoc in E. rewrite !length_app in *.
    pose proof (length_hit h) as HlH. pose proof (hk_source _ Hh) as Hps.
    set (p := (q + length (j_gap h))%nat).
    assert (drop p T = hit_text h ++ render_hits hs ++ post) as Ep by (apply (drop_at q _ (j_gap h)); done).
    assert (chr_of T q 123 = Some p) as ->.
    { eapply chr_there; [rewrite E; unfold hit_text; cbn [app]; reflexivity|apply Hh]. }
    cbn [text_hits]. replace (before next p) with false.
    2: { destruct next as [n|]; [|done]. cbn. symmetry. apply Nat.ltb_ge. unfold p. lia. }
    set (R := render_hits hs ++ post) in *.
    assert (drop p T = (123 :: fields_text h ++ 123 :: pairs_text (j_source h)) ++ 125 :: 125 :: R) as E125.
    { rewrite Ep. unfold hit_text. cbn [app]. f_equal. rewrite <- !app_assoc. cbn [app]. by rewrite <- app_assoc. }
    assert (length (123%Z :: fields_text h ++ 123%Z :: pairs_text (j_source h)) = length (hit_text h) - 2)%nat as Hl.
    { cbn [length]. rewrite length_app. cbn [length]. lia. }
    rewrite (chr_there _ _ _ _ E125).
    2: { rewrite elem_of_cons, elem_of_app, elem_of_cons. pose proof (fields_without h 125 Hh ltac:(auto)).
         pose proof (pairs_without _ Hps). intros [?|[?|[?|?]]]; done. }
    rewrite Hl. set (r := (p + _)%nat).
    assert (drop (S r) T = 125 :: R) as Er2.
    { apply (drop_at p _ ((123 :: fields_text h ++ 123 :: pairs_text (j_source h)) ++ [125])); [by rewrite E125, <- app_assoc|].
      rewrite length_app, Hl. cbn [length]. unfold r. lia. }
    rewrite (chr_there (S r) [] 125 R Er2) by apply not_elem_of_nil. cbn [length]. rewrite Nat.add_0_r.
    assert (drop (S p) T = fields_text h ++ 123 :: pairs_text (j_source h) ++ [125; 125] ++ R) as El.
    { apply (drop_at p _ [123]); [rewrite E125; cbn [app]; by rewrite <- app_assoc|cbn; lia]. }
    rewrite (chr_there _ _ _ _ El) by (apply fields_without; auto). rewrite (proj2 (Nat.ltb_lt _ _)) by (unfold r; lia).
    rewrite (object_at p h R) by (first [done|unfold r; lia]).
    assert (drop (S (S r)) T = R) as Enext by (apply (drop_at (S r) _ [125]); [done|cbn; lia]).
    rewrite (IH f next (S (S r)) post Enext Hok Hfew ltac:(cbn in Hf; lia)).
    2: { destruct next; [|done]. unfold r, p in *. lia. }
    assert (S (S r) + length (render_hits hs) = q + (length (j_gap h) + length (hit_text h) + length (render_hits hs)))%nat as -> by (unfold r, p; lia).
    cbn [fmap list_fmap]. do 2 f_equal. destruct hs; [|done]. cbn [default from_option id]. f_equal. unfold r, p. cbn. lia.
Qed.
End text.
