(* ===== verification/EsRecv.v ===== *)
(** * Elasticsearch client: receiving an answer (module_function/es_http_api.c)

    The receive loop of [es_server_recv] and [es_query_block] for one answer:
    a packet goes behind the text in [an_buf], the buffer is analysed, what was
    analysed is dropped.  The packets are what [tcp_client_recv] delivers, of
    1 to [SOCKET_BUF_RECV] bytes each. *)

From S2P Require Import Prelude CString PsList PsText FrameTool KeyValue EsData EsHead EsJson.
From stdpp Require Import gmap strings.

Open Scope Z_scope.

Section recv.
Context {P : Type} `{EsPool P}.

(** [direct_ana] *)
Definition analyse_buffer (an_buf : list Z) (s : ana P) : outcome (Z * list Z * ana P) :=
  '(ret, s) ← analysed (analysis_es_recv_str an_buf) s;
  an_buf ← memory_char_move_bit an_buf (bit_move s) AN_SOCKET_BUFF_LEN;
  mret (ret, an_buf, s).

Definition recv_packet (an_buf r_buf : list Z) (s : ana P) : outcome (Z * list Z * ana P) :=
  p_char ← frame_end_charstr (Some an_buf);
  an_buf ← mem_write an_buf p_char r_buf;
  analyse_buffer an_buf s.

(** [es_server_recv] goes on while [ret] is positive or -4, [es_query_block] while
    it is positive. *)
Definition async_goes_on (ret : Z) : bool := (0 <? ret) || (ret =? -4).
Definition block_goes_on (ret : Z) : bool := 0 <? ret.

(** Packets are read while the answer is not complete ([ret] is 1); the
    packets that are left.  [None]: the loop waits for more. *)
Fixpoint recv_packets (goes_on : Z → bool) (packets : list (list Z)) (an_buf : list Z) (s : ana P)
  : outcome (option (Z * list (list Z)) * list Z * ana P) :=
  match packets with
  | [] => Done (None, an_buf, s)
  | r :: rest =>
      '(ret, an_buf, s) ← recv_packet an_buf r s;
      if goes_on ret then recv_packets goes_on rest an_buf s else Done (Some (ret, rest), an_buf, s)
  end.

(** One answer of [es_server_recv]: a buffer with more than 85 bytes of text is
    analysed before more is received. *)
Definition recv_answer (packets : list (list Z)) (an_buf : list Z) (s : ana P)
  : outcome (option (Z * list (list Z)) * list Z * ana P) :=
  n ← frame_strlen (Some an_buf);
  if 85 <? n then
    '(ret, an_buf, s) ← analyse_buffer an_buf s;
    if async_goes_on ret then recv_packets async_goes_on packets an_buf s else Done (Some (ret, packets), an_buf, s)
  else recv_packets async_goes_on packets an_buf s.
End recv.
