(* ===== verification/EsRecvSpec.v ===== *)
(** * Elasticsearch client: an answer in packets

    A text that breaks off among the hits consists of whole hits and an
    unfinished one, which the buffer keeps for the next packet; so an answer that is cut among its
    hits is read completely. *)

From S2P Require Import Prelude CString FrameTool PsText PsList KeyValue EsData EsHead EsJson EsHeadSpec EsJsonSpec EsJsonText EsRecv.
From stdpp Require Import gmap strings.

Open Scope Z_scope.

(** ** The buffer *)

(** [an_buf] with the text [t]. *)
Definition buf (t : list Z) : list Z := t ++ replicate (2048 - length t) 0.

Lemma buf_str t : nonzero t → (length t < 2048)%nat → c_str (buf t) = Done t.
Proof.
  intros Hz Hl. unfold buf. destruct (2048 - length t)%nat eqn:E; [lia|]. by apply c_str_app.
Qed.
Lemma buf_length t : (length t ≤ 2048)%nat → length (buf t) = 2048%nat.
Proof. intros Hl. unfold buf. rewrite length_app, length_replicate. lia. Qed.

Lemma buf_append t r : (length (t ++ r) ≤ 2048)%nat → mem_write (buf t) (length t) r = Done (buf (t ++ r)).
Proof.
  intros Hl. rewrite length_app in Hl. rewrite mem_write_ok by (rewrite buf_length; lia). f_equal.
  unfold splice, buf. rewrite take_app_length, <- drop_drop, drop_app_length, drop_replicate, length_app, <- app_assoc.
  do 3 f_equal. lia.
Qed.

Lemma buf_move t k : nonzero t → (length t < 2048)%nat → (k < 2048)%nat →
  memory_char_move_bit (buf t) (Z.of_nat k) AN_SOCKET_BUFF_LEN = Done (buf (drop k t)).
Proof.
  intros Hz Hl Hk. pose proof (buf_length t ltac:(lia)) as Hb.
  replace AN_SOCKET_BUFF_LEN with (Z.of_nat (length (buf t))) by (rewrite Hb; done).
  destruct (move_bit_ok (buf t) t (Z.of_nat k) (buf_str _ Hz Hl) ltac:(lia)) as (b & E & Hlb & Hstr & Hshape).
  rewrite E. f_equal. rewrite Nat2Z.id in *. destruct (decide (k < length t)%nat) as [Hlt|Hge].
  - rewrite (Hshape ltac:(lia)). unfold buf at 2. f_equal. rewrite length_drop, Hb. done.
  - rewrite drop_ge by lia. unfold memory_char_move_bit, frame_strlen in E.
    rewrite (str_scan_len_spec _ _ (buf_str _ Hz Hl)) in E. rewrite (proj2 (Z.leb_gt _ _)) in E by lia.
    cbn [mbind outcome_bind mret outcome_ret] in E. rewrite (proj2 (Z.leb_le _ _)) in E by lia.
    rewrite mem_write_ok in E by (rewrite length_replicate; lia). injection E as <-.
    unfold splice, buf. rewrite take_0, length_replicate, Nat2Z.id. cbn [app Nat.add length].
    rewrite drop_app_ge, drop_replicate, <- replicate_add by lia. f_equal. lia.
Qed.

(** ** Hits broken off *)

Definition hit_piece (h : json_hit) : list Z := j_gap h ++ hit_text h.

(** A proper beginning of a hit holds at most one closing brace. *)
Lemma piece_prefix h t u : hit_ok h → hit_piece h = t ++ u → u ≠ [] → few_braces t.
Proof.
  intros Hh E Hu a b ->. pose proof (hk_source _ Hh) as Hps.
  assert (hit_piece h = (j_gap h ++ 123 :: fields_text h ++ 123 :: pairs_text (j_source h)) ++ [125; 125]) as E2.
  { unfold hit_piece, hit_text. cbn [app]. rewrite <- app_assoc. cbn [app]. f_equal. f_equal. by rewrite <- app_assoc. }
  set (w := j_gap h ++ 123 :: fields_text h ++ 123 :: pairs_text (j_source h)) in *.
  assert (125 ∉ w) as Hw.
  { unfold w. rewrite elem_of_app, elem_of_cons, elem_of_app, elem_of_cons.
    pose proof (fields_without h 125 Hh ltac:(auto)). pose proof (pairs_without _ Hps). pose proof (proj2 (hk_gap _ Hh)).
    intros [?|[?|[?|[?|?]]]]; done. }
  intros Hin. destruct b as [|x b]; [by apply not_elem_of_nil in Hin|].
  rewrite E2 in E. assert (index_of 125 (w ++ [125; 125]) = Some (length w)) as I1 by by apply index_of_fresh.
  apply (f_equal length) in E as Elen. rewrite !length_app in Elen. cbn [length] in Elen.
  assert ((w ++ [125; 125]) !! length a = Some 125) as I2.
  { rewrite E, <- app_assoc. cbn [app]. by rewrite list_lookup_middle. }
  destruct (decide (length a < length w)%nat) as [Hlt|Hge].
  - rewrite lookup_app_l in I2 by done. apply Hw. by eapply list_elem_of_lookup_2.
  - destruct u; [done|]. cbn [length] in Elen. lia.
Qed.

(** A text that ends among the hits: whole hits and a rest that is unfinished. *)
Lemma cut_hits : ∀ hs t w closing,
  Forall hit_ok hs → t ++ w = render_hits hs ++ closing → (length t ≤ length (render_hits hs))%nat →
  ∃ hs1 hs2 rest, hs = hs1 ++ hs2 ∧ t = render_hits hs1 ++ rest ∧ few_braces rest ∧
    rest ++ w = render_hits hs2 ++ closing ∧ (length rest ≤ length (render_hits hs2))%nat ∧
    (rest = [] ∨ ∃ h, h ∈ hs ∧ (length rest < length (hit_piece h))%nat).
Proof.
  induction hs as [|h hs IH]; intros t w closing Hok E Hl; cbn [render_hits concat fmap list_fmap] in *.
  - destruct t; [|cbn in Hl; lia]. exists [], [], []. split; [done|]. split; [done|].
    split; [intros [|] b; done|]. by auto.
  - fold (render_hits hs) in *. fold (hit_piece h) in *. apply Forall_cons in Hok as [Hh Hok].
    destruct (decide (length t < length (hit_piece h))%nat) as [Hlt|Hge].
    + exists [], (h :: hs), t. split; [done|]. split; [done|]. split; [|split; [done|split; [done|right; exists h; split; [left|done]]]].
      apply (piece_prefix h t (drop (length t) (hit_piece h)) Hh).
      * rewrite <- (take_drop (length t) (hit_piece h)) at 1. f_equal.
        apply (f_equal (take (length t))) in E. rewrite take_app_length, <- app_assoc, take_app_le in E by lia. done.
      * intros E0. apply (f_equal length) in E0. rewrite length_drop in E0. cbn in E0. lia.
    + assert (t = hit_piece h ++ drop (length (hit_piece h)) t) as Et.
      { rewrite <- (take_drop (length (hit_piece h)) t) at 1. f_equal.
        apply (f_equal (take (length (hit_piece h)))) in E. rewrite <- app_assoc, take_app_length, take_app_le in E by lia. done. }
      set (t' := drop (length (hit_piece h)) t) in *. rewrite Et, <- !app_assoc in E. apply app_inv_head in E.
      apply (f_equal length) in Et as El. rewrite length_app in El, Hl.
      destruct (IH t' w closing Hok E ltac:(lia)) as (hs1 & hs2 & rest & -> & Et' & Hfew & Ew & Hlr & Hr).
      exists (h :: hs1), hs2, rest. split; [done|]. split.
      { rewrite Et, Et'. cbn [render_hits concat fmap list_fmap]. fold (render_hits hs1). unfold hit_piece. by rewrite <- !app_assoc. }
      split; [done|]. split; [done|]. split; [done|]. destruct Hr as [->|(h' & Hin & Hlt)]; [by left|].
      right. exists h'. split; [by right|done].
Qed.

Lemma render_app hs1 hs2 : render_hits (hs1 ++ hs2) = render_hits hs1 ++ render_hits hs2.
Proof. unfold render_hits. by rewrite fmap_app, concat_app. Qed.
Lemma length_render hs : (length hs ≤ length (render_hits hs))%nat.
Proof.
  induction hs as [|h hs IH]; [done|]. cbn [render_hits concat fmap list_fmap length] in *. fold (render_hits hs).
  rewrite !length_app, length_hit. lia.
Qed.

Section packets.
Context {P : Type} `{EsPool P}.

(** The response is in the middle of a search result. *)
Record receiving (s : ana P) (i : HTTP_HEAD_INFO) (tot : Z) outer L : Prop := {
  rv_http : http (a_res s) = Some i;
  rv_text : message (a_res s) = None ∧ err_message (a_res s) = None;
  rv_total : s_total <$> search (a_res s) = Some tot;
  rv_hits : hits_rep s (http_head i) outer L;
  rv_fed : fed s;
}.

Lemma receiving_step s s' i tot outer L L' :
  receiving s i tot outer L → hits_rep s' (http_head i) outer L' → fed s' → same_res s s' → receiving s' i tot outer L'.
Proof.
  intros [H1 [H2 H3] H4 _ _] Hr Hf (sr & sr' & E1 & E2 & E3). rewrite E1 in H4. cbn in H4.
  split; try done; rewrite E2; destruct (a_res s); cbn in *; [done|done|]. by rewrite E3.
Qed.

Lemma hits_done T hs q rest in_move (s : ana P) str outer hd L (Q : Z + Z → ana P → Prop) :
  c_str str = Done T → drop q T = render_hits hs ++ rest → (q ≤ length T)%nat → Forall hit_ok hs → unfinished rest →
  hits_rep s hd outer L → fed s →
  (∀ s' L', hits_rep s' hd outer (L ++ L') → hit_of <$> L' = hit_kept <$> hs → fed s' → same_res s s' →
     bit_move s' = in_move + Z.of_nat (if decide (93 ∈ rest) then length T else q + length (render_hits hs)) →
     Q (inl (if decide (93 ∈ rest) then 0 else 1)) s') →
  wp (read_hits str in_move (Z.of_nat (length T)) None q) s Q.
Proof.
  intros HT E Hq Hok Hrest Hrep Hs HQ.
  assert (length hs ≤ length T)%nat as Hlen.
  { apply (f_equal length) in E. rewrite length_drop, length_app in E. pose proof (length_render hs). lia. }
  pose proof (hits_at T hs (length T) None q rest E Hok Hrest Hlen I) as Hhits. cbv zeta in Hhits.
  assert (chr_of T (q + length (render_hits hs)) 93 = None ↔ 93 ∉ rest) as H93.
  { unfold chr_of. rewrite (drop_at T q _ _ _ E eq_refl). unfold ahead. by rewrite fmap_None, index_of_None. }
  apply (read_hits_wp _ _ HT in_move None q s hd outer L); [done|done|done|]. cbv zeta. rewrite Hhits. cbn [fst snd hits_return].
  intros s' L' H1 H2 H3 H4 H5. destruct (decide (93 ∈ rest)) as [Hin|Hni].
  - destruct (chr_of T _ 93); [|by apply H93 in Hin]. by apply (HQ s' L').
  - rewrite (proj2 H93 Hni) in H5 |- *. by apply (HQ s' L').
Qed.

Lemma recv_next t r hs rest s i tot outer L :
  nonzero (t ++ r) → (length (t ++ r) < 2048)%nat → find_sub http_str (t ++ r) = None →
  t ++ r = render_hits hs ++ rest → Forall hit_ok hs → unfinished rest → receiving s i tot outer L →
  ∃ s' L', recv_packet (buf t) r s =
      Done (if decide (93 ∈ rest) then (0, buf [], s') else (1, buf rest, s')) ∧
    receiving s' i tot outer (L ++ L') ∧ hit_of <$> L' = hit_kept <$> hs.
Proof.
  intros Hz Hl Hno E Hok Hrest Hrv. pose proof Hrv as [Hhttp [Hm He] Htot Hrep Hs].
  assert (nonzero t) as Hzt by (apply Forall_app in Hz; tauto). rewrite length_app in Hl.
  unfold recv_packet, frame_end_charstr. rewrite (str_scan_len_spec _ _ (buf_str t Hzt ltac:(lia))). cbn [mbind outcome_bind].
  rewrite buf_append by (rewrite length_app; lia). cbn [mbind outcome_bind]. rewrite <- length_app in Hl.
  set (T := t ++ r) in *. pose proof (buf_str T Hz Hl) as HT.
  unfold analyse_buffer, analysed.
  assert (wp (analysis_es_recv_str (buf T)) s (λ x s', x = inl (if decide (93 ∈ rest) then 0 else 1) ∧
    ∃ L', receiving s' i tot outer (L ++ L') ∧ hit_of <$> L' = hit_kept <$> hs ∧
    bit_move s' = Z.of_nat (if decide (93 ∈ rest) then length T else length (render_hits hs)))) as (x & s' & Er & -> & L' & Hrv' & HL' & Hb).
  { assert (find_str (buf T) (Some O) http_str = Done None) as Ef.
    { rewrite (find_text _ _ HT) by (first [lia|done|by apply (bool_decide_unpack _); vm_compute]). rewrite drop_0, Hno. done. }
    unfold analysis_es_recv_str, analysis_http_json_str.
    wp_step. wp_step. wp_step. wp_step; [exact Ef|]. wp_step. wp_step. cbv beta iota.
    wp_step. wp_step. wp_step. wp_step; [exact Ef|]. wp_step. wp_step.
    { unfold frame_strlen. by rewrite (str_scan_len_spec _ _ HT). }
    wp_step. wp_step. cbn [a_res set_bit bit_move]. rewrite Hhttp, Hm, He. destruct (hr_search _ _ _ _ Hrep) as (sr & Hsr & _). rewrite Hsr.
    apply (hits_done T hs 0 rest 0 _ (buf T) outer (http_head i) L); [done|by rewrite drop_0|lia|done|done|by apply hits_rep_bit|done|].
    intros s' L' H1 H2 H3 H4 H5. split; [done|]. exists L'. split; [|split; [done|rewrite H5; by destruct (decide (93 ∈ rest))]].
    by apply (receiving_step s s' i tot outer L). }
  rewrite Er. cbn [mbind outcome_bind mret outcome_ret]. rewrite Hb.
  exists s', L'. split; [|done]. destruct (decide (93 ∈ rest)).
  - rewrite buf_move by done. cbn [mbind outcome_bind]. by rewrite drop_ge.
  - rewrite buf_move; [|done|done|].
    + cbn [mbind outcome_bind]. rewrite E, drop_app_length. done.
    + rewrite E, length_app in Hl. lia.
Qed.
(** The hits and what follows them in the answer. *)
Record body_ok (hs : list json_hit) (closing : list Z) : Prop := {
  bo_hits : Forall hit_ok hs;
  bo_size : Forall (λ h, length (hit_piece h) ≤ 1025)%nat hs;
  bo_square : 93 ∉ render_hits hs;
  bo_nonzero : nonzero (render_hits hs ++ closing);
  bo_http : find_sub http_str (render_hits hs ++ closing) = None;
  bo_closing : 93 ∈ closing ∧ 123 ∉ closing;
}.

(** A beginning [t] of the text of the hits, with what follows. *)
Lemma body_cut hs closing t w :
  body_ok hs closing → t ++ w = render_hits hs ++ closing → (length t ≤ length (render_hits hs))%nat →
  ∃ hs1 hs2 rest, hs = hs1 ++ hs2 ∧ t = render_hits hs1 ++ rest ∧ Forall hit_ok hs1 ∧ few_braces rest ∧ 93 ∉ rest ∧
    body_ok hs2 closing ∧ rest ++ w = render_hits hs2 ++ closing ∧
    (length rest ≤ length (render_hits hs2))%nat ∧ (length rest ≤ 1024)%nat.
Proof.
  intros [H1 H2 H3 H4 H5 H6] E Hl. destruct (cut_hits hs t w closing H1 E Hl) as (hs1 & hs2 & rest & -> & -> & Hfew & Ew & Hlr & Hr).
  exists hs1, hs2, rest. apply Forall_app in H1 as [H1a H1b]. apply Forall_app in H2 as [H2a H2b].
  rewrite render_app in *. rewrite <- app_assoc in H4, H5. apply Forall_app in H4 as [_ H4].
  rewrite not_elem_of_app in H3. destruct H3 as [_ H3].
  split; [done|]. split; [done|]. split; [done|]. split; [done|]. split; [|split; [split; try done|split; [done|split; [done|]]]].
  - intros Hin. apply H3. rewrite <- !app_assoc in E. apply app_inv_head in E.
    apply (f_equal (take (length rest))) in E. rewrite take_app_length, take_app_le in E by done.
    rewrite E in Hin. by eapply elem_of_take in Hin as (? & Hin & _); eapply list_elem_of_lookup_2.
  - eapply (find_sub_none_infix _ (render_hits hs1) _ []); [done|]. by rewrite app_nil_r.
  - destruct Hr as [->|(h & Hin & Hlt)]; [cbn; lia|].
    assert (length (hit_piece h) ≤ 1025)%nat; [|lia]. apply (Forall_forall (λ h, length (hit_piece h) ≤ 1025)%nat (hs1 ++ hs2)); [|done].
    by apply Forall_app.
Qed.

Lemma body_part hs closing t w : body_ok hs closing → t ++ w = render_hits hs ++ closing →
  nonzero t ∧ find_sub http_str t = None.
Proof.
  intros [_ _ _ H4 H5 _] E. rewrite <- E in H4, H5. apply Forall_app in H4 as [H4 _]. split; [done|].
  by apply (find_sub_none_infix _ [] t w).
Qed.

Lemma packets_read goes_on : goes_on 1 = true → goes_on 0 = false → ∀ cs c t hs closing s i tot outer L,
  body_ok hs closing → receiving s i tot outer L → t ++ concat cs ++ c = render_hits hs ++ closing →
  (length (t ++ concat cs) ≤ length (render_hits hs))%nat → (length t ≤ 1024)%nat →
  Forall (λ r : list Z, length r ≤ 1023)%nat (cs ++ [c]) →
  ∃ s' L', recv_packets goes_on (cs ++ [c]) (buf t) s = Done (Some (0, []), buf [], s') ∧
    receiving s' i tot outer (L ++ L') ∧ hit_of <$> L' = hit_kept <$> hs.
Proof.
  intros Hgo1 Hgo0. induction cs as [|r cs IH]; intros c t hs closing s i tot outer L Hb Hrv E Hl Ht Hcs; cbn [concat app recv_packets] in *.
  - destruct (body_part hs closing (t ++ c) [] Hb) as [Hz Hno]; [by rewrite app_nil_r|].
    apply Forall_inv in Hcs. cbn beta in Hcs. destruct Hb as [H1 H2 H3 H4 H5 [H6 H7]].
    destruct (recv_next t c hs closing s i tot outer L) as (s' & L' & Er & H8 & H9); [done|rewrite length_app; lia|done|done|done|by left|done|].
    rewrite Er, decide_True by done. cbn [mbind outcome_bind]. rewrite Hgo0. by exists s', L'.
  - apply Forall_cons in Hcs as [Hr Hcs]. rewrite app_assoc, <- (app_assoc (t ++ r)) in E || rewrite <- app_assoc, app_assoc in E.
    assert ((t ++ r) ++ concat cs ++ c = render_hits hs ++ closing) as E' by (rewrite <- E; by rewrite <- !app_assoc).
    assert (length (t ++ r) ≤ length (render_hits hs))%nat as Hl' by (rewrite !length_app in *; lia).
    destruct (body_cut _ _ _ _ Hb E' Hl') as (hs1 & hs2 & rest & -> & Etr & Hok1 & Hfew & H93 & Hb2 & Ew & Hlr & Hr1).
    destruct (body_part _ _ _ _ Hb E') as [Hz Hno].
    destruct (recv_next t r hs1 rest s i tot outer L) as (s1 & L1 & Er & Hrv1 & HL1); [done|rewrite length_app; lia|done|done|done|by right|done|].
    rewrite Er, decide_False by done. cbn [mbind outcome_bind]. rewrite Hgo1.
    destruct (IH c rest hs2 closing s1 i tot outer (L ++ L1)) as (s2 & L2 & Er2 & Hrv2 & HL2); [done|done|done| |done|done|].
    { apply (f_equal length) in Etr. rewrite render_app in Hl. rewrite app_assoc, !length_app in *. lia. }
    exists s2, (L1 ++ L2). rewrite app_assoc. split; [done|]. split; [done|]. by rewrite !fmap_app, HL1, HL2.
Qed.
End packets.

(** ** Elasticsearch client: an answer that arrives in packets

    A search result is read completely however its hits are cut into packets. *)

(** C18: on every text whatever the objects it holds are appended to the list of the
    response, as [text_hits] finds them; the loops end, nothing outside the
    text is read, and the code and [bit_move] are those of [hits_return]. *)
Theorem read_hits_builds `{EsPool P} b T in_move next q (s : ana P) hd outer L :
  c_str b = Done T → pool_good (a_pool s) → plenty (a_pool s) → hits_rep s hd outer L → (q ≤ length T)%nat →
  let res := text_hits T (length T) next q (chr_of T q 123) in
  let ret := hits_return T in_move next res.1.2 in
  ∃ s' L', read_hits b in_move (Z.of_nat (length T)) next q s = Done (inl ret.1, s') ∧
    hits_rep s' hd outer (L ++ L') ∧ hit_of <$> L' = res.1.1 ∧ bit_move s' = ret.2 ∧
    http (a_res s') = http (a_res s).
Proof.
  intros HT Hg Hp Hrep Hq. cbv zeta.
  destruct (read_hits_wp b T HT in_move next q s hd outer L (λ r s', r = inl (hits_return T in_move next
    (text_hits T (length T) next q (chr_of T q 123)).1.2).1 ∧ ∃ L', hits_rep s' hd outer (L ++ L') ∧
    hit_of <$> L' = (text_hits T (length T) next q (chr_of T q 123)).1.1 ∧
    bit_move s' = (hits_return T in_move next (text_hits T (length T) next q (chr_of T q 123)).1.2).2 ∧
    http (a_res s') = http (a_res s)) Hrep (conj Hg Hp) Hq) as (r & s' & E & -> & L' & HQ).
  - intros s' res L' H1 H2 _ (sr & sr' & _ & H4 & _) H5. split; [done|]. exists L'. rewrite H4. by destruct (a_res s).
  - by exists s', L'.
Qed.

(** ** The beginning of the body *)

(** [{ ... "hits" ... "total" ... : N ... "hits"], each word where it occurs
    first. *)
Record opening := Opening {
  p_before : list Z; p_mid : list Z; p_name : list Z; p_blank : list Z; p_total : Z; p_then : list Z;
}.
Definition open_text (o : opening) : list Z :=
  123 :: p_before o ++ hit_str ++ p_mid o ++ total_str ++ p_name o ++ 58 :: p_blank o ++ dec (p_total o) ++ p_then o ++ hit_str.
Definition first_in (lit u : list Z) : Prop := find_sub lit (u ++ lit) = Some (length u).
Record open_ok (o : opening) : Prop := {
  ok_before : first_in hit_str (123 :: p_before o);
  ok_mid : first_in total_str (p_mid o);
  ok_name : 58 ∉ p_name o;
  ok_blank : Forall (λ c, is_digit c = false) (p_blank o);
  ok_total : 0 <= p_total o <= int_max;
  ok_then : first_in hit_str (p_then o) ∧ match p_then o with c :: _ => is_digit c = false | [] => False end;
}.

Lemma first_in_find lit u v : first_in lit u → find_sub lit (u ++ lit ++ v) = Some (length u).
Proof. intros Hf. rewrite app_assoc. by apply find_sub_app_some. Qed.

Section opening.
Context {P : Type} `{EsPool P}.
Context (str T : list Z) (HT : c_str str = Done T).

Lemma read_total_wp in_move p n r s sr (Q : unit + Z → ana P → Prop) :
  drop p T = dec n ++ r → 0 <= n <= int_max → fed s → search (a_res s) = sr →
  (∀ pl, fed (set_pool pl s) → Q (inl tt) (set_bit (in_move + Z.of_nat p)
     (set_res (set_search (Some (EsSearch n None None)) (a_res s)) (set_pool pl s)))) →
  wp (read_total str in_move p (p + length (dec n))) s Q.
Proof using HT.
  intros E Hn Hs Hsr HQ. unfold read_total, upd_search. wp_step. apply wp_alloc; [done|lia|]. intros b pl Hf _.
  wp_step. wp_step. wp_step. pose proof (dec_not_nil n) as Hne.
  assert (0 < length (dec n))%nat as Hpos by (destruct (dec n); [done|cbn; lia]).
  rewrite (proj2 (Z.ltb_lt _ _)) by lia. wp_step. wp_step.
  - replace (Z.of_nat (p + length (dec n)) - Z.of_nat p) with (Z.of_nat (length (dec n))) by lia.
    assert (length (take p T) = p) as Hlp.
    { apply length_take_le. apply (f_equal length) in E. rewrite length_drop, length_app in E. lia. }
    rewrite <- Hlp at 1. apply (tmp_atoi_dec str (take p T) n r T HT); [|done].
    rewrite <- E. symmetry. apply take_drop.
  - wp_step. wp_step. apply (HQ pl Hf).
Qed.

Lemma first_hits_wp o hs rest in_move s (Q : (nat + Z) + Z → ana P → Prop) outer hd :
  T = open_text o ++ render_hits hs ++ rest → open_ok o → Forall hit_ok hs → unfinished rest →
  fed s → search (a_res s) = None → chain (a_kv s) hd outer → NoDup outer.*1 →
  (∀ s' L, hits_rep s' hd outer L → hit_of <$> L = hit_kept <$> hs → fed s' →
     (∃ sr, a_res s' = set_search (Some sr) (a_res s) ∧ s_total sr = p_total o) →
     bit_move s' = in_move + Z.of_nat (if decide (93 ∈ rest) then length T else length (open_text o) + length (render_hits hs)) →
     Q (inl (inr (if decide (93 ∈ rest) then 0 else 1))) s') →
  wp (first_hits str in_move (Z.of_nat (length T)) None) s Q.
Proof using HT.
  intros ET [Hbef Hmid Hname Hblank Htot [Hthen Hthen1]] Hok Hrest Hs Hsr Hc Hnd HQ. unfold first_hits.
  set (body := render_hits hs ++ rest) in *. set (n := p_total o) in *.
  assert (T = (123 :: p_before o) ++ hit_str ++ p_mid o ++ total_str ++ p_name o ++ 58 :: p_blank o ++ dec n ++ p_then o ++ hit_str ++ body) as E0.
  { rewrite ET. unfold open_text. cbn [app]. rewrite <- !app_assoc. do 5 f_equal. cbn [app]. by rewrite <- !app_assoc. }
  set (q1 := (length (123%Z :: p_before o) + 4)%nat).
  assert (drop q1 T = p_mid o ++ total_str ++ p_name o ++ 58 :: p_blank o ++ dec n ++ p_then o ++ hit_str ++ body) as E1.
  { apply (drop_at T 0 q1 ((123 :: p_before o) ++ hit_str)); [rewrite drop_0, E0; by rewrite <- app_assoc|rewrite length_app; done]. }
  set (q2 := (q1 + length (p_mid o) + 5)%nat).
  assert (drop q2 T = p_name o ++ 58 :: p_blank o ++ dec n ++ p_then o ++ hit_str ++ body) as E2.
  { apply (drop_at T q1 q2 (p_mid o ++ total_str)); [rewrite E1; by rewrite <- app_assoc|rewrite length_app; unfold q2; cbn; lia]. }
  set (q3 := (q2 + length (p_name o))%nat).
  assert (drop q3 T = (58 :: p_blank o) ++ dec n ++ p_then o ++ hit_str ++ body) as E3 by (apply (drop_at T q2 q3 (p_name o)); [done|done]).
  set (q4 := (q3 + (1 + length (p_blank o)))%nat).
  assert (drop q4 T = dec n ++ p_then o ++ hit_str ++ body) as E4 by (apply (drop_at T q3 q4 (58 :: p_blank o)); done).
  set (q5 := (q4 + length (dec n))%nat).
  assert (drop q5 T = p_then o ++ hit_str ++ body) as E5 by (apply (drop_at T q4 q5 (dec n)); done).
  set (q6 := (q5 + length (p_then o) + 4)%nat).
  assert (drop q6 T = body) as E6.
  { apply (drop_at T q5 q6 (p_then o ++ hit_str)); [rewrite E5; by rewrite <- app_assoc|rewrite length_app; unfold q6; cbn; lia]. }
  assert (q6 = length (open_text o)) as Eq6.
  { apply (f_equal length) in ET. pose proof (f_equal length E6) as El6. rewrite length_drop in El6. rewrite length_app in ET.
    assert (q6 ≤ length T)%nat; [|lia]. apply (f_equal length) in E5. rewrite length_drop, !length_app in E5.
    assert (length hit_str = 4%nat) as H4 by done. unfold q6. lia. }
  assert (q6 ≤ length T)%nat as Hq6 by (rewrite ET, length_app; lia).
  assert (Forall (λ c, is_digit c = true) (dec n)) as Hdig by exact (dec_digits n ltac:(lia)). pose proof (dec_not_nil n) as Hne.
  wp_step. wp_step; [apply (chr_text _ _ HT); lia|]. rewrite drop_0, E0 at 1. cbn [app index_of]. rewrite Z.eqb_refl.
  cbn [ahead fmap option_fmap option_map Nat.add].
  wp_step. wp_step; [apply (find_text _ _ HT); [lia|by apply (bool_decide_unpack _); vm_compute|done]|].
  rewrite drop_0, E0 at 1. rewrite (first_in_find hit_str (123 :: p_before o)) by done. cbn [ahead fmap option_fmap option_map].
  change (0 + length (123%Z :: p_before o) + 4)%nat with q1.
  wp_step. wp_step; [apply (find_text _ _ HT); [lia|by apply (bool_decide_unpack _); vm_compute|done]|].
  rewrite E1, first_in_find by done. cbn [ahead fmap option_fmap option_map]. change (q1 + length (p_mid o) + 5)%nat with q2.
  wp_step. wp_step; [apply (chr_text _ _ HT); lia|]. rewrite E2, index_of_fresh by done. cbn [ahead fmap option_fmap option_map].
  change (q2 + length (p_name o))%nat with q3.
  wp_step. wp_step. wp_step; [apply (start_digit_text _ _ HT); lia|]. rewrite E3.
  assert (span_len (λ c, negb (is_digit c)) ((58 :: p_blank o) ++ dec n ++ p_then o ++ hit_str ++ body) = (1 + length (p_blank o))%nat) as ->.
  { destruct (dec n) as [|c d]; [done|]. apply Forall_cons in Hdig as [Hc0 _]. cbn [app].
    rewrite (app_comm_cons (p_blank o)), span_len_stop; [done| |by rewrite Hc0]. constructor; [done|].
    eapply Forall_impl; [exact Hblank|]. cbn. by intros c' ->. }
  cbn [default from_option id]. fold q4.
  wp_step. wp_step; [apply (end_digit_text _ _ HT); lia|]. rewrite E4.
  assert (span_len is_digit (dec n ++ p_then o ++ hit_str ++ body) = length (dec n)) as ->.
  { destruct (p_then o) as [|c t]; [done|]. cbn [app]. by apply span_len_stop. }
  cbn [default from_option id].
  wp_step. eapply (read_total_wp in_move q4 n); [exact E4|done|done|done|]. intros pl Hpl. fold q5. wp_step.
  set (s1 := set_bit _ _). wp_step. wp_step.
  assert (∃ sr, search (a_res s1) = Some sr) as [sr1 Hsr1] by (cbn; eauto). rewrite Hsr1.
  wp_step. wp_step; [apply (find_text _ _ HT); [lia|by apply (bool_decide_unpack _); vm_compute|done]|].
  rewrite E5, first_in_find by done. cbn [ahead fmap option_fmap option_map]. fold q6.
  wp_step. apply (hits_done T hs q6 rest in_move s1 str outer hd []); [done|done|done|done|done| |by destruct Hpl|].
  { split; [exists (EsSearch n None None); split; [done|]; split; [done|done]|constructor|done|constructor|].
    by rewrite app_nil_r. }
  intros s2 L H1 H2 H3 (sr & sr' & A1 & A2 & A3) H5. wp_step. eapply (HQ s2 L); [done|done|done| |by rewrite H5, Eq6].
  exists sr'. rewrite A2. cbn in A1. injection A1 as <-. split; [|done]. cbn. by destruct (a_res s).
Qed.
End opening.

(** ** The whole answer *)

(** The response before an answer. *)
Record idle `{EsPool P} (s : ana P) : Prop := {
  id_http : http (a_res s) = None;
  id_text : message (a_res s) = None ∧ err_message (a_res s) = None;
  id_search : search (a_res s) = None;
  id_fed : fed s;
}.

(** A head that announces a search result of [n] bytes. *)
Record answer_head (h : head_text) (n : Z) : Prop := {
  ah_ok : head_ok h;
  ah_ver : ∃ v, t_ver h = http_str ++ v;
  ah_code : 200 <= t_code h < 300;
  ah_len : KeyValue.assoc (bytes "Content-Length") (line_pairs (t_lines h)) = copied (dec n) ∧ 90 <= n <= int_max;
}.

Section first.
Context {P : Type} `{EsPool P}.

Lemma recv_first h n o hs rest (s : ana P) :
  let T := render_head h ++ open_text o ++ render_hits hs ++ rest in
  nonzero T → (length T < 2048)%nat → answer_head h n → open_ok o →
  find_sub http_str (open_text o ++ render_hits hs ++ rest) = None → Forall hit_ok hs → unfinished rest → idle s →
  ∃ s' hd outer L, recv_packet (buf []) T s =
      Done (if decide (93 ∈ rest) then (0, buf [], s') else (1, buf rest, s')) ∧
    receiving s' (HttpHead (copied (t_ver h)) (copied (t_note h)) (t_code h) n hd) (p_total o) outer L ∧
    Forall2 kv_pair outer.*2 (line_pairs (t_lines h)) ∧ hit_of <$> L = hit_kept <$> hs.
Proof.
  intros T Hz Hl [Hh [v Hv] Hcode [Hcl Hn]] Ho Hno Hok Hrest [Hi [Hm He] Hsr Hs].
  assert (c_str (buf T) = Done T) as HT by by apply buf_str.
  unfold recv_packet, frame_end_charstr. rewrite (str_scan_len_spec _ [] (buf_str [] ltac:(constructor) ltac:(cbn; lia))).
  cbn [mbind outcome_bind]. rewrite (buf_append [] T) by (cbn [app]; lia). cbn [app mbind outcome_bind].
  set (T2 := open_text o ++ render_hits hs ++ rest) in *.
  unfold analyse_buffer, analysed.
  assert (wp (analysis_es_recv_str (buf T)) s (λ x s', x = inl (if decide (93 ∈ rest) then 0 else 1) ∧ ∃ hd outer L,
    receiving s' (HttpHead (copied (t_ver h)) (copied (t_note h)) (t_code h) n hd) (p_total o) outer L ∧
    Forall2 kv_pair outer.*2 (line_pairs (t_lines h)) ∧ hit_of <$> L = hit_kept <$> hs ∧
    bit_move s' = Z.of_nat (if decide (93 ∈ rest) then length T else length (render_head h) + (length (open_text o) + length (render_hits hs)))))
    as (x & s' & Er & -> & hd & outer & L & Hrv & Hout & HL & Hb).
  { unfold analysis_es_recv_str. wp_step. wp_step. wp_step.
    assert (find_str (buf T) (Some O) http_str = Done (Some O)) as Ef.
    { rewrite (find_text _ _ HT) by (first [lia|done|by apply (bool_decide_unpack _); vm_compute]). rewrite drop_0.
      assert (∃ w, T = http_str ++ w) as [w ->] by (unfold T, render_head; rewrite Hv, <- !app_assoc; eauto).
      pose proof (find_sub_fresh 72 (bytes "TTP") [] w (not_elem_of_nil _)) as F.
      change (find_sub http_str (http_str ++ w) = Some O) in F. by rewrite F. }
    wp_step; [exact Ef|]. wp_step. wp_step. cbn [a_res set_bit]. rewrite Hi. wp_step. rewrite drop_0.
    apply (head_str_wp _ T HT h n T2); [done|done|done|done|done|lia|].
    intros s1 hd R1 [outer (Hc & Hnd & Hps)] _ _ Hf R5. wp_step. wp_step.
    assert (Z.to_nat (bit_move s1) = length (render_head h)) as -> by (rewrite R5; cbn; lia).
    assert (c_str (drop (length (render_head h)) (buf T)) = Done T2) as HT2.
    { rewrite (c_str_drop _ _ _ HT) by (unfold T; rewrite length_app; lia). unfold T. by rewrite drop_app_length. }
    unfold analysis_http_json_str. wp_step. wp_step. wp_step.
    assert (find_str (drop (length (render_head h)) (buf T)) (Some O) http_str = Done None) as Ef2.
    { rewrite (find_text _ _ HT2) by (first [lia|done|by apply (bool_decide_unpack _); vm_compute]). by rewrite drop_0, Hno. }
    wp_step; [exact Ef2|]. wp_step. wp_step. { unfold frame_strlen. by rewrite (str_scan_len_spec _ _ HT2). }
    wp_step. wp_step. rewrite R1. cbn [a_res set_bit http message err_message search set_http]. rewrite Hm, He, Hsr.
    unfold first_part. cbn [ret_code body_len]. rewrite (proj2 (Z.ltb_ge _ 200)), (proj2 (Z.leb_gt 300 _)) by lia. cbn [orb].
    rewrite (proj2 (Z.ltb_ge _ 90)) by lia. wp_step.
    apply (first_hits_wp _ T2 HT2 o hs rest _ s1 _ outer hd); [done|done|done|done|done|by rewrite R1|done|done|].
    intros s2 L H1 H2 H3 (sr & H4 & H4t) H5. wp_step. split; [done|]. exists hd, outer, L.
    split; [|split; [done|split; [done|]]].
    - split; rewrite ?H4, ?R1; cbn; try done. by rewrite H4t.
    - rewrite H5, R5. cbn [bit_move set_bit]. destruct (decide (93 ∈ rest)); [unfold T; rewrite length_app|]; lia. }
  rewrite Er. cbn [mbind outcome_bind mret outcome_ret]. rewrite Hb.
  exists s', hd, outer, L. split; [|done]. destruct (decide (93 ∈ rest)).
  - rewrite buf_move by done. cbn [mbind outcome_bind]. by rewrite drop_ge.
  - rewrite buf_move; [|done|done|].
    + cbn [mbind outcome_bind]. unfold T, T2. rewrite <- drop_drop, drop_app_length, <- drop_drop, drop_app_length, drop_app_length. done.
    + unfold T, T2 in Hl. rewrite !length_app in Hl. lia.
Qed.
End first.

(** The packets of an answer: the first one holds the head and the opening of
    the body, the last one all that follows the hits. *)
Definition packets_of (front hits closing : list Z) (packets : list (list Z)) : Prop :=
  match packets with
  | [] => False
  | r :: rest => ∃ x, r = front ++ x ∧
      match rest with
      | [] => x = hits ++ closing
      | _ => ∃ cs c, rest = cs ++ [c] ∧ x ++ concat cs ++ c = hits ++ closing ∧ (length (x ++ concat cs) ≤ length hits)%nat
      end
  end.

Lemma packets_answer `{EsPool P} goes_on h n o hs closing packets (s : ana P) :
  goes_on 1 = true → goes_on 0 = false → answer_head h n → open_ok o → body_ok hs closing → nonzero (render_head h ++ open_text o) →
  find_sub http_str (open_text o ++ render_hits hs ++ closing) = None →
  packets_of (render_head h ++ open_text o) (render_hits hs) closing packets →
  Forall (λ r : list Z, length r ≤ 1023)%nat packets → idle s →
  ∃ s' hd outer L, recv_packets goes_on packets (buf []) s = Done (Some (0, []), buf [], s') ∧
    http (a_res s') = Some (HttpHead (copied (t_ver h)) (copied (t_note h)) (t_code h) n hd) ∧
    chain (a_kv s') hd outer ∧ Forall2 kv_pair outer.*2 (line_pairs (t_lines h)) ∧
    s_total <$> search (a_res s') = Some (p_total o) ∧
    hits_rep s' hd outer L ∧ hit_of <$> L = hit_kept <$> hs ∧ fed s'.
Proof.
  intros Hgo1 Hgo0 Hh Ho Hb Hz0 Hno Hpk Hlen Hs. destruct packets as [|r rest]; [done|]. destruct Hpk as (x & -> & Hx).
  apply Forall_cons in Hlen as [Hlr Hlen]. rewrite length_app in Hlr.
  cbn [recv_packets].
  assert (∀ s' i tot outer L, receiving s' i tot outer L → http (a_res s') = Some i ∧ chain (a_kv s') (http_head i) outer ∧
    s_total <$> search (a_res s') = Some tot ∧ hits_rep s' (http_head i) outer L ∧ fed s') as Hfin.
  { intros s' i tot outer L [A1 _ A3 A4 A5]. split; [done|]. split; [apply A4|]. done. }
  destruct rest as [|r2 rest].
  - subst x. pose proof Hb as [B1 B2 B3 B4 B5 [B6 B7]].
    destruct (recv_first h n o hs closing s) as (s' & hd & outer & L & Er & Hrv & Hout & HL); try done.
    + rewrite app_assoc. by apply Forall_app.
    + rewrite app_assoc, length_app. lia.
    + by left.
    + rewrite <- app_assoc, Er, decide_True by done. cbn [mbind outcome_bind]. rewrite Hgo0.
      destruct (Hfin _ _ _ _ _ Hrv) as (F1 & F2 & F3 & F4 & F5). exists s', hd, outer, L. auto 12.
  - destruct Hx as (cs & c & Erest & Ex & Hlx). rewrite Erest in *. rewrite length_app in Hlx.
    destruct (body_cut hs closing x (concat cs ++ c) Hb Ex ltac:(lia)) as (hs1 & hs2 & rest' & -> & -> & Hok1 & Hfew & H93 & Hb2 & Ew & Hlr' & Hr1).
    destruct (body_part _ _ _ _ Hb Ex) as [Hzx Hnox].
    destruct (recv_first h n o hs1 rest' s) as (s1 & hd & outer & L1 & Er & Hrv & Hout & HL1); try done.
    + rewrite app_assoc. by apply Forall_app.
    + rewrite app_assoc, length_app. lia.
    + apply (find_sub_none_infix _ [] _ (concat cs ++ c)); [done|]. cbn [app]. rewrite <- !app_assoc.
      rewrite <- !app_assoc in Ex. by rewrite Ex.
    + by right.
    + rewrite <- app_assoc, Er, decide_False by done. cbn [mbind outcome_bind]. rewrite Hgo1.
      destruct (packets_read goes_on Hgo1 Hgo0 cs c rest' hs2 closing s1 _ _ _ _ Hb2 Hrv Ew) as (s2 & L2 & Er2 & Hrv2 & HL2); [|done|done|].
      { rewrite render_app in Hlx. rewrite !length_app in *. lia. }
      rewrite Er2. destruct (Hfin _ _ _ _ _ Hrv2) as (F1 & F2 & F3 & F4 & F5).
      exists s2, hd, outer, (L1 ++ L2). split; [done|]. rewrite !fmap_app, HL1, HL2. auto 12.
Qed.

(** C2: a search result of the form the client can read ([answer_head],
    [open_ok], [body_ok]: a status of 200 to 299, a Content-Length of at least
    90, hits of at most 1025 bytes without quotes, commas, braces, closing
    brackets or HTTP in their texts, numbers of digits), in packets of at most
    1023 bytes cut anywhere among its hits ([packets_of]: the first holds the
    head and the opening, the last all behind the hits), is read completely: the
    head, the total and every hit with its pairs, in order, are in the
    response; no packet is left over and the buffer is empty. *)
Theorem answer_in_packets `{EsPool P} h n o hs closing packets (s : ana P) :
  answer_head h n → open_ok o → body_ok hs closing → nonzero (render_head h ++ open_text o) →
  find_sub http_str (open_text o ++ render_hits hs ++ closing) = None →
  packets_of (render_head h ++ open_text o) (render_hits hs) closing packets →
  Forall (λ r : list Z, length r ≤ 1023)%nat packets → idle s →
  ∃ s' hd outer L, recv_answer packets (buf []) s = Done (Some (0, []), buf [], s') ∧
    http (a_res s') = Some (HttpHead (copied (t_ver h)) (copied (t_note h)) (t_code h) n hd) ∧
    chain (a_kv s') hd outer ∧ Forall2 kv_pair outer.*2 (line_pairs (t_lines h)) ∧
    s_total <$> search (a_res s') = Some (p_total o) ∧
    hits_rep s' hd outer L ∧ hit_of <$> L = hit_kept <$> hs.
Proof.
  intros Hh Ho Hb Hz0 Hno Hpk Hlen Hs.
  unfold recv_answer, frame_strlen. rewrite (str_scan_len_spec _ [] (buf_str [] ltac:(constructor) ltac:(cbn; lia))).
  cbn [mbind outcome_bind mret outcome_ret length Z.of_nat]. change (85 <? 0) with false. cbn iota. 
  destruct (packets_answer async_goes_on h n o hs closing packets s) as (s' & hd & outer & L & E1 & E2 & E3 & E4 & E5 & E6 & E7 & _); [done..|]. exists s', hd, outer, L. auto 10.
Qed.
