(* ===== verification/EsFindings.v ===== *)
(** * Elasticsearch client: examples, and answers that it does not read *)

From S2P Require Import Prelude CString PsList PsText FrameTool KeyValue EsData EsHead EsJson EsHeadSpec EsJsonSpec EsJsonText EsRecv EsRecvSpec.
From stdpp Require Import gmap strings.

Open Scope Z_scope.

(** A response whose pool hands out bytes that are all [c]. *)
Definition fresh_answer (c : Z) : ana Z := Ana empty_respond ∅ ∅ c 0.

Lemma fresh_idle c : idle (fresh_answer c).
Proof. by split. Qed.

Definition short_lines (len : string) : list (list Z * list Z * list Z) :=
  [(bytes "content-type", bytes " ", bytes "application/json"); (bytes "Content-Length", bytes " ", bytes len)].
Definition sample_head (len : string) : head_text := HeadText (bytes "HTTP/1.1") 200 (bytes "OK") (short_lines len).
Definition sample_open : opening :=
  Opening (34 :: bytes "took" ++ 34 :: bytes ":5," ++ [34]) (34 :: bytes ":{" ++ [34]) [34] [] 2
    (44 :: 34 :: bytes "max_score" ++ 34 :: bytes ":1.0," ++ [34]).
Definition sample_hit (gap : list Z) (i : string) (src : list (list Z * json_value)) : json_hit :=
  JsonHit gap (bytes i) (bytes "doc") (bytes "7") (34 :: bytes "_score" ++ 34 :: bytes ":1.0,") src.
Definition sample_hits : list json_hit :=
  [sample_hit (34 :: bytes ":[") "books" [(bytes "title", VText (bytes "Emma")); (bytes "year", VNumber (bytes "1815"))];
   sample_hit (bytes ",") "films" [(bytes "title", VText (bytes "Alien"))]].
Definition sample_closing : list Z := bytes "]}}".

Lemma head_ok_dec h :
  bool_decide (nonzero (t_ver h) ∧ 32 ∉ t_ver h ∧ 0 <= t_code h <= int_max ∧ nonzero (t_note h) ∧ 13 ∉ t_note h ∧
    Forall (λ l : list Z * list Z * list Z, nonzero l.1.1 ∧ 13 ∉ l.1.1 ∧ 58 ∉ l.1.1 ∧ l.1.1 ≠ [] ∧ nonzero l.2 ∧ 13 ∉ l.2) (t_lines h)) = true →
  Forall (λ l : list Z * list Z * list Z, Forall (λ c, is_blank c = true) l.1.2 ∧
    match l.2 with c :: _ => is_blank c = false | [] => True end) (t_lines h) →
  head_ok h.
Proof.
  intros (H1 & H2 & H3 & H4 & H5 & H6)%bool_decide_eq_true_1 H7. split; [done|done|done|].
  apply Forall_forall. intros l Hl. pose proof (proj1 (Forall_forall _ _) H6 l Hl) as (? & ? & ? & ? & ? & ?).
  pose proof (proj1 (Forall_forall _ _) H7 l Hl) as [? ?]. by repeat split.
Qed.

Lemma sample_head_ok : head_ok (sample_head "150").
Proof.
  apply head_ok_dec; [vm_compute; reflexivity|]. repeat constructor.
Qed.

Lemma analysis_http_head_str_reads_witness : ∃ s' hd,
  analysis_http_head_str (render_head (sample_head "150") ++ bytes "{}" ++ [0]) (fresh_answer 7) = Done (inl tt, s') ∧
  http (a_res s') = Some (HttpHead (Some (bytes "HTTP/1.1" ++ [0])) (Some (bytes "OK" ++ [0])) 200 150 hd) ∧
  bit_move s' = 72.
Proof.
  destruct (analysis_http_head_str_reads (sample_head "150") 150 (bytes "{}")
    (render_head (sample_head "150") ++ bytes "{}" ++ [0]) (fresh_answer 7)) as (s' & hd & E & R & _ & _ & B).
  - vm_compute. reflexivity.
  - apply sample_head_ok.
  - vm_compute. split; discriminate.
  - vm_compute. reflexivity.
  - exact I.
  - exact I.
  - reflexivity.
  - exists s', hd. split; [exact E|]. rewrite R. split; [reflexivity|]. rewrite B. vm_compute. reflexivity.
Defined.

(** A response whose search result has no objects yet. *)
Definition begun (c : Z) : ana Z := set_res (EsRespond 2 None None None (Some (EsSearch 2 None None)) None None None) (fresh_answer c).

Lemma begun_rep c : hits_rep (begun c) None [] [].
Proof.
  split; [|constructor|done|constructor|constructor]. exists (EsSearch 2 None None). by repeat split.
Qed.

Lemma read_hits_builds_witness : ∃ s' L',
  read_hits (render_hits sample_hits ++ sample_closing ++ [0]) 0 (Z.of_nat (length (render_hits sample_hits ++ sample_closing))) None 0 (begun 7)
    = Done (inl 0, s') ∧
  hit_of <$> L' = hit_kept <$> sample_hits ∧ hits_rep s' None [] L'.
Proof.
  destruct (read_hits_builds (render_hits sample_hits ++ sample_closing ++ [0]) (render_hits sample_hits ++ sample_closing)
    0 None 0 (begun 7) None [] []) as (s' & L' & E & R & V & _).
  - vm_compute. reflexivity.
  - exact I.
  - exact I.
  - apply begun_rep.
  - lia.
  - exists s', L'. split; [exact E|]. split; [rewrite V; vm_compute; reflexivity|exact R].
Defined.

(** The answer in two packets, cut inside the second hit. *)
Definition sample_front : list Z := render_head (sample_head "150") ++ open_text sample_open.
Definition sample_body : list Z := render_hits sample_hits ++ sample_closing.
Definition sample_packets : list (list Z) := [sample_front ++ take 110 sample_body; drop 110 sample_body].

Lemma sample_answer_head : answer_head (sample_head "150") 150.
Proof.
  split; [apply sample_head_ok|exists (bytes "/1.1"); reflexivity|cbn; lia|].
  split; [vm_compute; reflexivity|vm_compute; split; discriminate].
Qed.

Lemma sample_open_ok : open_ok sample_open.
Proof.
  split; try (vm_compute; reflexivity).
  - apply (bool_decide_unpack _). vm_compute. exact I.
  - constructor.
  - vm_compute. split; discriminate.
  - split; vm_compute; reflexivity.
Qed.

Lemma sample_body_ok : body_ok sample_hits sample_closing.
Proof.
  split.
  - repeat constructor; try (apply (bool_decide_unpack _); vm_compute; exact I).
  - apply (bool_decide_unpack _). vm_compute. exact I.
  - apply (bool_decide_unpack _). vm_compute. exact I.
  - apply (bool_decide_unpack _). vm_compute. exact I.
  - vm_compute. reflexivity.
  - split; apply (bool_decide_unpack _); vm_compute; exact I.
Qed.

Lemma sample_packets_ok :
  packets_of sample_front (render_hits sample_hits) sample_closing sample_packets ∧
  Forall (λ r : list Z, length r ≤ 1023)%nat sample_packets ∧ nonzero sample_front ∧
  find_sub http_str (open_text sample_open ++ render_hits sample_hits ++ sample_closing) = None.
Proof.
  split; [|split; [apply (bool_decide_unpack _); vm_compute; exact I|]].
  - exists (take 110 sample_body). split; [reflexivity|]. exists [], (drop 110 sample_body). split; [reflexivity|].
    split; [cbn [concat app]; apply take_drop|]. apply (bool_decide_unpack _). vm_compute. exact I.
  - split; [apply (bool_decide_unpack _); vm_compute; exact I|vm_compute; reflexivity].
Qed.

Lemma answer_in_packets_witness : ∃ s' hd outer L,
  recv_answer sample_packets (buf []) (fresh_answer 7) = Done (Some (0, []), buf [], s') ∧
  s_total <$> search (a_res s') = Some 2 ∧
  hits_rep s' hd outer L ∧ hit_of <$> L = hit_kept <$> sample_hits.
Proof.
  destruct sample_packets_ok as (Hp & Hl & Hz & Hn).
  destruct (answer_in_packets (sample_head "150") 150 sample_open sample_hits sample_closing sample_packets (fresh_answer 7)
    sample_answer_head sample_open_ok sample_body_ok Hz Hn Hp Hl (fresh_idle 7))
    as (s' & hd & outer & L & E & _ & _ & _ & H1 & H2 & H3).
  exists s', hd, outer, L. split; [exact E|]. split; [exact H1|]. split; [exact H2|exact H3].
Defined.

(** ** Answers that are not read *)

Definition short_head (len : string) : list Z := render_head (sample_head len).
Definition short_body : list Z := bytes "{acknowledged:true}".

(** Line 944: the test is [>], so a short answer that arrives exactly is taken
    for incomplete: the client waits for more, with everything received. *)
Theorem complete_answer_waits : ∃ s,
  recv_answer [short_head "19" ++ short_body] (buf []) (fresh_answer 0) = Done (None, buf [], s) ∧
  message (a_res s) = Some (short_body ++ [0]).
Proof. eexists. split; [vm_compute; reflexivity|vm_compute; reflexivity]. Qed.

(** Line 950: [message] is not cleared, and the copy writes no NUL: the length
    of the first part is read from whatever the pool's memory held. *)
Theorem short_answer_in_two_packets_overreads :
  recv_answer [short_head "19" ++ take 5 short_body; drop 5 short_body] (buf []) (fresh_answer 65) = Fault OutOfBounds ∧
  (∃ s, recv_answer [short_head "19" ++ take 5 short_body; drop 5 short_body] (buf []) (fresh_answer 0)
    = Done (Some (0, []), buf [], s) ∧ message (a_res s) = Some (short_body ++ [0])).
Proof. split; [vm_compute; reflexivity|]. eexists. split; vm_compute; reflexivity. Qed.

(** Line 415: the loop over the lines ends when no line end is left, as if the
    empty line had come: a head that breaks off behind Content-Length counts
    as complete, its last line as the body. *)
Theorem broken_head_accepted : ∃ s hd,
  analysis_http_head_str (bytes "HTTP/1.1 200 OK" ++ seq_str ++ bytes "Content-Length: 19" ++ seq_str ++ bytes "Serv" ++ [0])
    (fresh_answer 0) = Done (inl tt, s) ∧
  http (a_res s) = Some (HttpHead (Some (bytes "HTTP/1.1" ++ [0])) (Some (bytes "OK" ++ [0])) 200 19 hd) ∧ bit_move s = 37.
Proof. do 2 eexists. split; [vm_compute; reflexivity|]. split; vm_compute; reflexivity. Qed.

(** Line 1434: the head is read from where HTTP stands, but [bit_move] is used
    from the start of the buffer: with two bytes left over from the answer
    before, the body starts two bytes early. *)
Theorem leftover_shifts_body : ∃ s,
  recv_answer [bytes "}}" ++ short_head "18" ++ short_body] (buf []) (fresh_answer 0) = Done (Some (0, []), buf (bytes "ue}"), s) ∧
  message (a_res s) = Some (seq_str ++ take 16 short_body ++ [0]).
Proof. eexists. split; vm_compute; reflexivity. Qed.

(** The client (line 778) splits at every comma and knows no escapes, signs
    or fractions. *)
Definition odd_hits : list json_hit :=
  [sample_hit (34 :: bytes ":[") "books"
    [(bytes "title", VText (bytes "Emma, a novel")); (bytes "rank", VNumber (bytes "-3.5"))]].
Theorem comma_and_sign_lost :
  let T := render_hits odd_hits ++ sample_closing in
  snd <$> (text_hits T (length T) None 0 (chr_of T 0 123)).1.1 =
    [[KV (Some (bytes "title" ++ [0])) None; KV (Some (bytes "rank" ++ [0])) (Some (bytes "3" ++ [0]))]].
Proof. vm_compute. reflexivity. Qed.

(** Line 503: HTTP anywhere in a document counts as the start of the next
    answer: the hits behind it are dropped. *)
Definition http_hits : list json_hit :=
  [sample_hit (34 :: bytes ":[") "books" [(bytes "title", VText (bytes "HTTP in a week"))];
   sample_hit (bytes ",") "films" [(bytes "title", VText (bytes "Alien"))]].
Theorem word_in_document_ends_answer : ∃ s sr left,
  recv_answer [short_head "150" ++ open_text sample_open ++ render_hits http_hits ++ sample_closing] (buf []) (fresh_answer 0)
    = Done (Some (0, []), left, s) ∧
  search (a_res s) = Some sr ∧ s_head sr = s_tail sr ∧ take 14 left = bytes "HTTP in a week".
Proof. do 3 eexists. split; [vm_compute; reflexivity|]. split; [vm_compute; reflexivity|]. split; vm_compute; reflexivity. Qed.

(** Line 1560: the part of a hit that is not complete stays in [an_buf] of
    2048 bytes; a third packet of 1023 bytes is copied past its end. *)
Definition long_piece : list Z := 123 :: replicate 1022 97.
Theorem long_hit_overflows_buffer :
  recv_packets async_goes_on [long_piece; replicate 1023 97; replicate 1023 97] (buf [])
    (set_res (set_http (Some (HttpHead None None 200 5000 None)) (a_res (begun 0))) (begun 0)) = Fault OutOfBounds.
Proof. vm_compute. reflexivity. Qed.

(** Line 378: a status of more than 31 characters is copied past [tmp_char]. *)
Theorem long_status_overflows :
  analysis_http_head_str (bytes "HTTP/1.1 " ++ replicate 33 57 ++ bytes " OK" ++ [0]) (fresh_answer 0) = Fault OutOfBounds.
Proof. vm_compute. reflexivity. Qed.
