(* ===== verification/EsRequest.v ===== *)
(** * Elasticsearch client: requests (module_function/http_applayer.c,
    es_http_api.c)

    [make_es_http_message] writes a request into a buffer; the query functions
    copy what the caller gave into the pool of the slot and take buffers of
    growing size until the request fits. *)

From S2P Require Import Prelude CString FrameTool PsText PsList KeyValue EsData EsHeadSpec.
From stdpp Require Import gmap strings.

Open Scope Z_scope.

(** ** [snprintf] of a text: the bytes stored, and the length it returns

    The result is an [int]: -1 for a text that is longer than one can say. *)

Definition snprintf (buf : list Z) (n : Z) (t : list Z) : outcome (list Z * Z) :=
  b ← (if n =? 0 then Done buf else mem_write buf 0 (take (Z.to_nat (n - 1)) t ++ [0]));
  mret (b, if int_max <? Z.of_nat (length t) then -1 else Z.of_nat (length t)).
(** [int] multiplication. *)
Definition int_mul (a b : Z) : outcome Z := int_add (a * b) 0.
(** [%s] *)
Definition fmt_s (t : text) : outcome (list Z) := match t with None => Fault NullDeref | Some b => c_str b end.

Definition crlf : list Z := [13; 10].

(** ** http_applayer.c *)

Record MAKE_HTTP_MESSAGE := HttpMessage {
  h_head : text; h_buf : text; m_path : text; m_body : text; ip_str : text; h_buf_len : Z; port : Z;
}.

(** The lines up to Content-Length. *)
Definition es_head_text (head path ip : list Z) (port : Z) : list Z :=
  head ++ bytes " " ++ path ++ bytes " HTTP/1.1" ++ crlf ++
  bytes "User-Agent: ES-HTTP-API" ++ crlf ++
  bytes "Content-type: application/json;charset=UTF-8" ++ crlf ++
  bytes "Host: " ++ ip ++ bytes ":" ++ dec port ++ crlf ++
  bytes "Accept: application/json; charset=UTF-8" ++ crlf ++
  bytes "Connection: keep-alive" ++ crlf ++ bytes "Content-Length: ".
Definition es_message_text (head path ip : list Z) (port : Z) (body : list Z) : list Z :=
  es_head_text head path ip port ++ dec (Z.of_nat (length body)) ++ crlf ++ crlf ++ body.

(** The new contents of [h_buf] and what is returned; the length of the body is
    counted in an [int].  Without a body the
    format ends in [Content-Length: %0] before the line end. *)
Definition make_es_http_message (param : MAKE_HTTP_MESSAGE) : outcome (text * Z) :=
  match h_head param, h_buf param, m_path param, ip_str param with
  | Some _, Some b, Some _, Some _ =>
      if (h_buf_len param <=? 0) || (port param =? 0) then Done (h_buf param, -1)
      else
        match m_body param with
        | Some body =>
            n ← frame_strlen (Some body); _ ← int_add n 0;
            head ← fmt_s (h_head param); path ← fmt_s (m_path param); ip ← fmt_s (ip_str param); t ← c_str body;
            '(b, ret) ← snprintf b (h_buf_len param) (es_message_text head path ip (port param) t);
            mret (Some b, ret)
        | None => Fault BadFormat
        end
  | _, _, _, _ => Done (h_buf param, -1)
  end.

Definition post_text (accept : string) (path body : list Z) : list Z :=
  bytes "POST " ++ path ++ bytes " HTTP/1.1" ++ crlf ++
  bytes "User-Agent: ES-HTTP-API" ++ crlf ++
  bytes "Content-type: application/json;charset=UTF-8" ++ crlf ++
  bytes "Host: 127.0.0.0:80" ++ crlf ++
  bytes "Accept: " ++ bytes accept ++ bytes ", image/gif, image/jpeg, *; q=.2, *//*; q=.2" ++ crlf ++
  bytes "Connection: keep-alive" ++ crlf ++
  bytes "Content-Length: " ++ dec (Z.of_nat (length body)) ++ crlf ++ crlf ++ body.
Definition make_http_post_json (h_buf : list Z) (len : Z) (path body_str : text) : outcome (list Z * Z) :=
  _ ← frame_strlen body_str; p ← fmt_s path; b ← fmt_s body_str;
  snprintf h_buf len (post_text "application/json" p b).
Definition make_http_post_text (h_buf : list Z) (len : Z) (path body_str : text) : outcome (list Z * Z) :=
  _ ← frame_strlen body_str; p ← fmt_s path; b ← fmt_s body_str;
  snprintf h_buf len (post_text "text/html" p b).
Definition make_http_get_test (h_buf : list Z) (len : Z) (path : text) : outcome (list Z * Z) :=
  p ← fmt_s path;
  snprintf h_buf len
    (bytes "GET " ++ p ++ bytes " HTTP/1.1" ++ crlf ++ bytes "Host: 127.0.0.0:80" ++ crlf ++
     bytes "Connection: keep-alive" ++ crlf ++ bytes "Upgrade-Insecure-Requests: 1" ++
     bytes "User-Agent: Mozilla/5.0 (Windows NT 6.1; Win64; x64) AppleWebKit/537.36 (KHTML, like Gecko) Chrome/59.0.3071.86 Safari/537.36" ++
     bytes "Accept: text/html,application/xhtml+xml,application/xml;q=0.9,image/webp,image/apng,*/*;q=0.8" ++
     bytes "Accept-Encoding: gzip, deflate" ++ bytes "Accept-Language: zh-CN,zh;q=0.8").

(** ** Filling a slot *)

Section fill.
Context {P : Type} `{EsPool P}.

Definition set_req x r := EsRespond (sta_ r) (http r) (message r) (err_message r) (search r) x (req_buf r) (call_ r).
Definition set_req_buf x r := EsRespond (sta_ r) (http r) (message r) (err_message r) (search r) (req_ r) x (call_ r).
Definition set_call x r := EsRespond (sta_ r) (http r) (message r) (err_message r) (search r) (req_ r) (req_buf r) x.
Definition set_sta x r := EsRespond x (http r) (message r) (err_message r) (search r) (req_ r) (req_buf r) (call_ r).

(** A copy of a string of the caller, if there is one. *)
Definition copy_string (t : text) : E P text :=
  match t with
  | None => val None
  | Some b =>
      n ⇐ run (frame_strlen (Some b));
      len ⇐ run (int_add n 1);
      p ⇐ alloc len;
      s ⇐ run (mem_read b n);
      w ⇐ run (mem_write (replicate (length p) 0) 0 s);
      val (Some w)
  end.

(** [path_str]: 1024 bytes for the path and the query. *)
Definition path_text (sep : list Z) (req : ES_REQUEST) : outcome (list Z) :=
  p ← fmt_s (path_str req);
  t ← match query_str req with
      | Some _ => q ← fmt_s (query_str req); mret (p ++ sep ++ q)
      | None => mret p
      end;
  mem_write (replicate (Z.to_nat SOCKET_BUFF_LEN) 0) 0 (t ++ [0]).

(** The [do ... while(1)] loop: the [i]th buffer has [1024 * i] bytes. *)
Fixpoint request_loop (fuel : nat) (i : Z) (head path : list Z) (body : text) (ip : list Z) (port_ : Z) : E P unit :=
  str_len ⇐ run (int_mul SOCKET_BUFF_LEN (i + 1));
  b ⇐ alloc str_len;
  r ⇐ run (make_es_http_message (HttpMessage (Some head) (Some b) (Some path) body (Some ip) str_len port_));
  upd_res (set_req_buf r.1) ;>
  if r.2 <? str_len then val tt
  else match fuel with O => no_fuel | S f => request_loop f (i + 1) head path body ip port_ end.

(** How many buffers are tried at most: one for every 1024 bytes that go into
    the request, and some for its fixed parts. *)
Definition request_fuel (path body ip : list Z) : nat := (length path + length body + length ip + 400)%nat.

(** The body of [es_query_asynchronous] between taking a slot and handing it to
    the sender. *)
Definition fill_slot (req : ES_REQUEST) (call : Z) (ip : list Z) (port_ : Z) : E P unit :=
  upd_res (set_call (Some call)) ;>
  _ ⇐ alloc 32;
  upd_res (set_req (Some (EsRequest None None None (verb req)))) ;>
  p ⇐ copy_string (path_str req);
  upd_res (set_req (Some (EsRequest p None None (verb req)))) ;>
  q ⇐ copy_string (query_str req);
  upd_res (set_req (Some (EsRequest p q None (verb req)))) ;>
  b ⇐ copy_string (body_str req);
  upd_res (set_req (Some (EsRequest p q b (verb req)))) ;>
  path ⇐ run (path_text [] req);
  request_loop (request_fuel path (default [] (body_str req)) ip) 0 (verb_str_arr (verb req) ++ [0]) path (body_str req) ip port_ ;>
  upd_res (set_sta 1).

(** The request of [es_query_block] goes into the last slot. *)
Definition fill_block_slot (req : ES_REQUEST) (ip : list Z) (port_ : Z) : E P unit :=
  path ⇐ run (path_text (bytes "/") req);
  request_loop (request_fuel path (default [] (body_str req)) ip) 0 (verb_str_arr (verb req) ++ [0]) path (body_str req) ip port_.

(** [error_out] and the release functions clear the slot and empty its pool. *)
Definition clear_slot : E P unit :=
  upd_res (λ _, empty_respond) ;>
  λ s, '(_, p) ← pool_reset (a_pool s); Done (inl tt, set_pool p s).
Definition fill_or_clear (req : ES_REQUEST) (call : Z) (ip : list Z) (port_ : Z) : E P Z := λ s,
  match fill_slot req call ip port_ s with
  | Done (inl _, s') => Done (inl 0, s')
  | Done (inr ret, s') => (clear_slot ;> val ret) s'
  | Fault e => Fault e
  | NoFuel => NoFuel
  end.
End fill.

(** ** Elasticsearch client: requests, correct *)


Lemma message_nonzero head path ip port body :
  nonzero head → nonzero path → nonzero ip → 0 <= port → nonzero body → nonzero (es_message_text head path ip port body).
Proof.
  intros H1 H2 H3 H4 H5. unfold es_message_text, es_head_text, nonzero.
  assert (∀ s, forallb (λ c, negb (c =? 0)) (bytes s) = true → nonzero (bytes s)) as Hlit.
  { intros s Hs. apply Forall_forall. intros c Hc. apply list_elem_of_In in Hc.
    pose proof (proj1 (List.forallb_forall _ _) Hs c Hc) as Hn. by apply negb_true_iff, Z.eqb_neq in Hn. }
  repeat (apply Forall_app; split); try done; try (by apply Hlit);
    try (by apply dec_nonzero; lia); apply (bool_decide_unpack _); vm_compute; done.
Qed.

Lemma message_length head path ip port body :
  (length (es_message_text head path ip port body) ≤ length head + length path + length ip + length body + 250)%nat.
Proof.
  unfold es_message_text, es_head_text. rewrite !length_app.
  pose proof (dec_length port) as H1. pose proof (dec_length (Z.of_nat (length body))) as H2. revert H1 H2.
  generalize (length (dec port)), (length (dec (Z.of_nat (length body)))). intros d1 d2.
  generalize (length head), (length path), (length ip), (length body). intros. cbn. lia.
Qed.

Lemma verb_short v : (length (verb_str_arr v) ≤ 6)%nat ∧ nonzero (verb_str_arr v).
Proof. destruct v; (split; [cbn; lia|]); apply (bool_decide_unpack _); vm_compute; done. Qed.

(** One message into a buffer of [n] bytes. *)
Lemma make_message_ok hb head pb path bb body ib ip b n p :
  c_str hb = Done head → c_str pb = Done path → c_str bb = Done body → c_str ib = Done ip →
  0 < n → n = Z.of_nat (length b) → p ≠ 0 → Z.of_nat (length (es_message_text head path ip p body)) <= int_max →
  make_es_http_message (HttpMessage (Some hb) (Some b) (Some pb) (Some bb) (Some ib) n p) =
  let t := es_message_text head path ip p body in
  Done (Some (splice b 0 (take (Z.to_nat (n - 1)) t ++ [0])), Z.of_nat (length t)).
Proof.
  intros Hh Hp Hb Hi Hn En Hport Hmax. unfold make_es_http_message. cbn [h_head h_buf m_path ip_str h_buf_len port m_body].
  rewrite (proj2 (Z.leb_gt _ _)), (proj2 (Z.eqb_neq _ _)) by lia. cbn [orb].
  unfold frame_strlen, fmt_s. rewrite (str_scan_len_spec _ _ Hb). cbn [mbind outcome_bind mret outcome_ret].
  assert (length body ≤ length (es_message_text head path ip p body))%nat as Hbl
    by (unfold es_message_text; rewrite !length_app; lia).
  rewrite int_add_ok by (change int_min with (-2147483648); lia). cbn [mbind outcome_bind].
  rewrite Hh, Hp, Hi, Hb. cbn [mbind outcome_bind]. unfold snprintf. rewrite (proj2 (Z.ltb_ge int_max _)) by done. rewrite (proj2 (Z.eqb_neq n 0)) by lia.
  rewrite mem_write_ok; [done|]. rewrite length_app, length_take. cbn [length]. lia.
Qed.

Section fill.
Context {P : Type} `{EsPool P}.

Lemma request_loop_eq fuel i head path body ip port_ : request_loop (P := P) fuel i head path body ip port_ =
  (str_len ⇐ run (int_mul SOCKET_BUFF_LEN (i + 1));
   b ⇐ alloc str_len;
   r ⇐ run (make_es_http_message (HttpMessage (Some head) (Some b) (Some path) body (Some ip) str_len port_));
   upd_res (set_req_buf r.1) ;>
   if r.2 <? str_len then val tt
   else match fuel with O => no_fuel | S f => request_loop f (i + 1) head path body ip port_ end).
Proof. by destruct fuel. Qed.

Lemma request_loop_wp hb head pb path bb body ib ip p : ∀ fuel i s (Q : unit + Z → ana P → Prop),
  c_str hb = Done head → c_str pb = Done path → c_str bb = Done body → c_str ib = Done ip → p ≠ 0 → 0 <= p →
  fed s → 0 <= i →
  Z.of_nat (length (es_message_text head path ip p body)) < 1024 * (i + 1 + Z.of_nat fuel) →
  1024 * i <= Z.of_nat (length (es_message_text head path ip p body)) ∨ i = 0 →
  Z.of_nat (length (es_message_text head path ip p body)) + 1024 <= int_max →
  (∀ s' b, c_str b = Done (es_message_text head path ip p body) → fed s' →
     a_res s' = set_req_buf (Some b) (a_res s) → a_kv s' = a_kv s → a_obj s' = a_obj s → Q (inl tt) s') →
  wp (request_loop fuel i hb pb (Some bb) ib p) s Q.
Proof.
  induction fuel as [|fuel IH]; intros i s Q Hh Hp Hb Hi Hport Hport0 Hs Hi0 Hfuel Hlow Hmax HQ;
    rewrite request_loop_eq; unfold SOCKET_BUFF_LEN, int_mul;
    (wp_step; wp_step; [apply int_add_ok; change int_min with (-2147483648); lia|]); rewrite Z.add_0_r;
    (wp_step; apply wp_alloc; [done|lia|]; intros b pl Hpl Hlb);
    (wp_step; wp_step; [apply (make_message_ok hb head pb path bb body ib ip); [done|done|done|done|lia|lia|done|lia]|]);
    cbv zeta; cbn [fst snd]; set (t := es_message_text head path ip p body) in *;
    wp_step; wp_step; (destruct (Z.ltb_spec (Z.of_nat (length t)) (1024 * (i + 1))) as [Hlt|Hge]).
  all: try (wp_step; rewrite take_ge by lia; eapply HQ; [|by destruct Hpl|done|done|done];
    unfold splice; rewrite take_0; cbn [app]; rewrite <- app_assoc; cbn [app]; apply c_str_app, message_nonzero;
    [by eapply c_str_nonzero|by eapply c_str_nonzero|by eapply c_str_nonzero|done|by eapply c_str_nonzero]).
  - lia.
  - eapply IH; [done|done|done|done|done|done|by destruct Hpl|lia|lia|left; lia|done|].
    intros s' b' H1 H2 H3 H4 H5. eapply HQ; [done|done|by rewrite H3|by rewrite H4|by rewrite H5].
Qed.

(** What a copy of a string of the caller is. *)
Definition own_copy (t : text) (s : option (list Z)) : Prop :=
  match t, s with None, None => True | Some b, Some s => c_str b = Done s | _, _ => False end.
Definition kept_copy (s : option (list Z)) : text := (λ s, s ++ [0]) <$> s.

Lemma copy_string_wp t o s (Q : text + Z → ana P → Prop) :
  own_copy t o → Z.of_nat (length (default [] o)) < int_max → fed s → (∀ pl, fed (set_pool pl s) → Q (inl (kept_copy o)) (set_pool pl s)) →
  wp (copy_string t) s Q.
Proof.
  intros Ho Hlen Hs HQ. unfold copy_string. destruct t as [b|], o as [l|]; try done.
  2: { wp_step. destruct s as [r kv ob pl bm]. by apply (HQ pl). }
  cbn [own_copy default from_option id] in *. unfold frame_strlen.
  wp_step. wp_step; [by rewrite (str_scan_len_spec _ _ Ho)|]. wp_step. wp_step.
  { apply int_succ_ok. cbn in Hlen. lia. }
  wp_step. apply wp_alloc; [done|lia|]. intros b1 pl Hpl Hb1. pose proof (c_str_length _ _ Ho) as Hl.
  wp_step. wp_step; [apply mem_read_ok; lia|]. rewrite Nat2Z.id.
  assert (take (length l) b = l) as Et by (destruct (c_str_inv _ _ Ho) as (r & -> & _); apply take_app_length). rewrite Et.
  wp_step. wp_step; [apply mem_write_ok; rewrite length_replicate; lia|]. wp_step.
  replace (splice (replicate (length b1) 0) 0 l) with (l ++ [0]); [by apply (HQ pl)|].
  unfold splice. rewrite take_0, drop_replicate. cbn [app Nat.add]. f_equal.
  replace (length b1 - length l)%nat with 1%nat by lia. done.
Qed.
(** The path and the query in [path_str]. *)
Definition with_query (sep path : list Z) (query : option (list Z)) : list Z :=
  match query with Some q => path ++ sep ++ q | None => path end.

Lemma path_text_ok sep v pb path qb query b :
  c_str pb = Done path → own_copy qb query → nonzero sep → (length (with_query sep path query) < 1024)%nat →
  ∃ fb, path_text sep (EsRequest (Some pb) qb b v) = Done fb ∧ c_str fb = Done (with_query sep path query) ∧ length fb = 1024%nat.
Proof.
  intros Hp Hq Hsep Hl. set (full := with_query sep path query) in *.
  assert (nonzero full) as Hz.
  { pose proof (c_str_nonzero _ _ Hp). unfold full. destruct qb, query; try done. cbn.
    apply Forall_app. split; [done|]. apply Forall_app. split; [done|by eapply c_str_nonzero]. }
  exists (splice (replicate 1024 0) 0 (full ++ [0])). unfold path_text, fmt_s. cbn [path_str query_str].
  rewrite Hp. cbn [mbind outcome_bind].
  replace (match qb with Some _ => _ | None => _ end) with (Done full).
  2: { unfold full. destruct qb as [qb|], query as [q|]; cbn in *; try done. by rewrite Hq. }
  cbn [mbind outcome_bind]. change (Z.to_nat SOCKET_BUFF_LEN) with 1024%nat.
  assert (0 + length (full ++ [0%Z]) ≤ length (replicate 1024 0%Z))%nat as Hfit by (rewrite length_app, length_replicate; cbn; lia).
  rewrite mem_write_ok by done. split; [done|]. split; [|by rewrite length_splice, length_replicate].
  unfold splice. rewrite take_0. cbn [app]. rewrite <- (app_assoc _ [0]). by apply c_str_app.
Qed.
End fill.

(** C25: with memory in the pool, a query with a path (and query) that fits its
    buffer and a body that leaves the request 1024 bytes short of the greatest
    [int]: the strings are copied into the pool of the slot, and the loop that
    tries buffers of growing size ends with the whole request, NUL included; the
    slot is then to be sent. *)
Theorem fill_slot_request `{EsPool P} v pb path qb query bb body ib ip port_ call (s : ana P) :
  c_str pb = Done path → own_copy qb query → c_str bb = Done body → c_str ib = Done ip → 0 < port_ →
  (length path + length (default [] query) < 1024)%nat →
  Z.of_nat (length (es_message_text (verb_str_arr v) (path ++ default [] query) ip port_ body)) + 1024 <= int_max →
  pool_good (a_pool s) → plenty (a_pool s) →
  ∃ s' b, fill_slot (EsRequest (Some pb) qb (Some bb) v) call ib port_ s = Done (inl tt, s') ∧
    a_res s' = EsRespond 1 (http (a_res s)) (message (a_res s)) (err_message (a_res s)) (search (a_res s))
      (Some (EsRequest (Some (path ++ [0])) (kept_copy query) (Some (body ++ [0])) v)) (Some b) (Some call) ∧
    c_str b = Done (es_message_text (verb_str_arr v) (path ++ default [] query) ip port_ body).
Proof.
  intros Hp Hq Hb Hi Hport Hlen Hmax Hg Hpl.
  assert (Z.of_nat (length body) < int_max) as Hlb.
  { revert Hmax. unfold es_message_text. rewrite !length_app. lia. }
  assert (with_query [] path query = path ++ default [] query) as Efull by (destruct query; cbn; by rewrite ?app_nil_r).
  destruct (path_text_ok [] v pb path qb query (Some bb)) as (fb & Efb & Hfb & Hlfb);
    [done|done|by apply Forall_nil|rewrite Efull, length_app; lia|]. rewrite Efull in Hfb.
  assert (wp (fill_slot (EsRequest (Some pb) qb (Some bb) v) call ib port_) s (λ r s', r = inl tt ∧ ∃ b,
    a_res s' = EsRespond 1 (http (a_res s)) (message (a_res s)) (err_message (a_res s)) (search (a_res s))
      (Some (EsRequest (Some (path ++ [0])) (kept_copy query) (Some (body ++ [0])) v)) (Some b) (Some call) ∧
    c_str b = Done (es_message_text (verb_str_arr v) (path ++ default [] query) ip port_ body)))
    as (r & s' & E & -> & b & HQ); [|by exists s', b].
  unfold fill_slot. cbn [path_str query_str body_str verb default from_option id]. wp_step. wp_step.
  wp_step. apply wp_alloc; [done|lia|]. intros b1 p1 Hf1 _. wp_step. wp_step.
  wp_step. apply (copy_string_wp _ (Some path)); [done|change int_max with 2147483647; cbn; lia|done|]. intros p2 Hf2. wp_step. wp_step.
  wp_step. apply (copy_string_wp _ query); [done|change int_max with 2147483647; lia|done|]. intros p3 Hf3. wp_step. wp_step.
  wp_step. apply (copy_string_wp _ (Some body)); [done|done|done|]. intros p4 Hf4. wp_step. wp_step.
  wp_step. wp_step; [exact Efb|]. destruct (verb_short v) as [Hv1 Hv2].
  wp_step. apply (request_loop_wp _ (verb_str_arr v) _ (path ++ default [] query) _ body _ ip);
    [by apply c_str_app|done|done|done|lia|lia|done|lia| |by right|done|].
  { pose proof (message_length (verb_str_arr v) (path ++ default [] query) ip port_ body) as Hml.
    pose proof (c_str_length _ _ Hfb). pose proof (c_str_length _ _ Hb). pose proof (c_str_length _ _ Hi). unfold request_fuel. lia. }
  intros s' b H1 H2 H3 H4 H5. wp_step. split; [done|]. exists b. split; [|done]. cbn [a_res set_res]. rewrite H3. done.
Qed.

(** ** Examples, and requests that go wrong *)

Definition idle_slot (c : Z) : ana Z := Ana empty_respond ∅ ∅ c 0.
Definition sample_query (body : text) : ES_REQUEST := EsRequest (Some (c_lit "/books/_search")) (Some (c_lit "?size=2")) body POST_METHOD.

Lemma fill_slot_request_witness : ∃ s b,
  fill_slot (sample_query (Some (c_lit "{}"))) 5 (c_lit "10.0.0.9") 9200 (idle_slot 7) = Done (inl tt, s) ∧
  sta_ (a_res s) = 1 ∧ c_str b = Done (es_message_text (bytes "POST") (bytes "/books/_search?size=2") (bytes "10.0.0.9") 9200 (bytes "{}")).
Proof.
  destruct (fill_slot_request POST_METHOD (c_lit "/books/_search") (bytes "/books/_search") (Some (c_lit "?size=2"))
    (Some (bytes "?size=2")) (c_lit "{}") (bytes "{}") (c_lit "10.0.0.9") (bytes "10.0.0.9") 9200 5 (idle_slot 7)) as (s & b & E & R & B).
  - vm_compute. reflexivity.
  - vm_compute. reflexivity.
  - vm_compute. reflexivity.
  - vm_compute. reflexivity.
  - lia.
  - cbn. lia.
  - vm_compute. discriminate.
  - exact I.
  - exact I.
  - exists s, b. split; [exact E|]. split; [rewrite R; reflexivity|exact B].
Defined.

(** http_applayer.c, line 84: without a body the format holds [%0] before the
    line end, which is no conversion: a GET has undefined behaviour. *)
Theorem query_without_body :
  fill_slot (sample_query None) 5 (c_lit "10.0.0.9") 9200 (idle_slot 7) = Fault BadFormat.
Proof. vm_compute. reflexivity. Qed.

(** Port 0 is refused by [make_es_http_message] with -1, which the loop takes
    for a text that fits: the uninitialised buffer is to be sent. *)
Theorem port_zero_sends_garbage : ∃ s,
  fill_slot (sample_query (Some (c_lit "{}"))) 5 (c_lit "10.0.0.9") 0 (idle_slot 7) = Done (inl tt, s) ∧
  sta_ (a_res s) = 1 ∧ req_buf (a_res s) = Some (replicate 1024 7).
Proof. eexists. split; [vm_compute; reflexivity|]. split; vm_compute; reflexivity. Qed.

(** A path and query of 1024 bytes or more are written past [path_str]. *)
Theorem long_path_overflows :
  fill_slot (EsRequest (Some (replicate 1024 97 ++ [0])) None (Some (c_lit "{}")) POST_METHOD) 5 (c_lit "10.0.0.9") 9200 (idle_slot 7)
    = Fault OutOfBounds.
Proof. vm_compute. reflexivity. Qed.
