(* ===== verification/EsRing.v ===== *)
(** * Elasticsearch client: the ring of slots and its threads
    (module_function/es_http_api.c)

    Ten slots go round: a client fills one, the sender sends it, the receiver
    reads its answer, the caller calls back and frees it.  Each hands the slot
    on by a semaphore and keeps an index of its own; [asyn_mutex] guards the
    clients.  A step is one access to what the threads share ([get_*_index]
    waits for its semaphore and then moves an index that no other running thread uses,
    in one step); the runs are the interleavings. *)

From S2P Require Import Prelude.
From stdpp Require Import list relations.

Open Scope Z_scope.

Definition SLOTS : nat := 10.

(** Where [es_query_asynchronous] is; the slot it has. *)
Inductive client_pc :=
  | CLock | CIndex | CFill (i : Z) | CPost (i : Z) | CUndo (i : Z) | CUnlock (ret : Z)
  | CReturn (ret : Z).
Inductive sender_pc := SWait | SSend (i : Z) | SPost (i : Z) | SSta (i : Z) | SExit.
Inductive receiver_pc := RWait | RRecv (i : Z) | RSta (i : Z) | RPost (i : Z) | RExit.
Inductive caller_pc := KWait | KCall (i : Z) | KClear (i : Z) | KPost (i : Z) | KExit.

Inductive tid := Client (n : nat) | Sender | Receiver | Caller.

(** [calls]: the callback in each slot, named by its client.  [accepted],
    [sent] and [called] record which clients took a slot, whose request was
    sent, whose callback ran. *)
Record ring := Ring {
  free_num : nat; send_num : nat; recv_num : nat; call_num : nat;
  insert_index : Z; send_index : Z; recv_index : Z; call_index : Z;
  stas : list Z; calls : list (option nat);
  asyn_mutex : option nat;
  is_run : bool; is_over : bool;
  clients : list client_pc; sender : sender_pc; receiver : receiver_pc; caller : caller_pc;
  accepted : list nat; sent : list nat; called : list nat;
}.

Definition set_sems f s r c (x : ring) : ring :=
  Ring f s r c (insert_index x) (send_index x) (recv_index x) (call_index x) (stas x) (calls x) (asyn_mutex x)
    (is_run x) (is_over x) (clients x) (sender x) (receiver x) (caller x) (accepted x) (sent x) (called x).
Definition set_indices a b c d (x : ring) : ring :=
  Ring (free_num x) (send_num x) (recv_num x) (call_num x) a b c d (stas x) (calls x) (asyn_mutex x)
    (is_run x) (is_over x) (clients x) (sender x) (receiver x) (caller x) (accepted x) (sent x) (called x).
Definition set_slots st ca (x : ring) : ring :=
  Ring (free_num x) (send_num x) (recv_num x) (call_num x) (insert_index x) (send_index x) (recv_index x) (call_index x) st ca
    (asyn_mutex x) (is_run x) (is_over x) (clients x) (sender x) (receiver x) (caller x) (accepted x) (sent x) (called x).
Definition set_mutex m (x : ring) : ring :=
  Ring (free_num x) (send_num x) (recv_num x) (call_num x) (insert_index x) (send_index x) (recv_index x) (call_index x)
    (stas x) (calls x) m (is_run x) (is_over x) (clients x) (sender x) (receiver x) (caller x) (accepted x) (sent x) (called x).
Definition set_run b (x : ring) : ring :=
  Ring (free_num x) (send_num x) (recv_num x) (call_num x) (insert_index x) (send_index x) (recv_index x) (call_index x)
    (stas x) (calls x) (asyn_mutex x) b (is_over x) (clients x) (sender x) (receiver x) (caller x) (accepted x) (sent x) (called x).
Definition set_threads c s r k (x : ring) : ring :=
  Ring (free_num x) (send_num x) (recv_num x) (call_num x) (insert_index x) (send_index x) (recv_index x) (call_index x)
    (stas x) (calls x) (asyn_mutex x) (is_run x) (is_over x) c s r k (accepted x) (sent x) (called x).
Definition set_traces a s c (x : ring) : ring :=
  Ring (free_num x) (send_num x) (recv_num x) (call_num x) (insert_index x) (send_index x) (recv_index x) (call_index x)
    (stas x) (calls x) (asyn_mutex x) (is_run x) (is_over x) (clients x) (sender x) (receiver x) (caller x) a s c.

Definition at_client n c (x : ring) := set_threads (<[n := c]> (clients x)) (sender x) (receiver x) (caller x) x.
Definition at_sender c (x : ring) := set_threads (clients x) c (receiver x) (caller x) x.
Definition at_receiver c (x : ring) := set_threads (clients x) (sender x) c (caller x) x.
Definition at_caller c (x : ring) := set_threads (clients x) (sender x) (receiver x) c x.

(** [i++; if (i >= ES_RESPOND_ARRAY_LEN) i = 0;] *)
Definition next_index (i : Z) : Z := if 10 <=? i + 1 then 0 else i + 1.

(** [es_res_array + i] is dereferenced. *)
Definition slot (i : Z) : outcome nat := if (0 <=? i) && (i <? 10) then Done (Z.to_nat i) else Fault OutOfBounds.
Definition write_sta (i v : Z) (x : ring) : outcome ring :=
  k ← slot i; mret (set_slots (<[k := v]> (stas x)) (calls x) x).

(** ** The operations *)

Definition get_insert_index (x : ring) : option (Z * ring) :=
  match free_num x with
  | O => None
  | S f => Some (insert_index x, set_indices (next_index (insert_index x)) (send_index x) (recv_index x) (call_index x)
                   (set_sems f (send_num x) (recv_num x) (call_num x) x))
  end.
(** The others return -1 when the client is over. *)
Definition get_send_index (x : ring) : option (Z * ring) :=
  match send_num x with
  | O => None
  | S n => let x := set_sems (free_num x) n (recv_num x) (call_num x) x in
           if is_over x then Some (-1, x)
           else Some (send_index x, set_indices (insert_index x) (next_index (send_index x)) (recv_index x) (call_index x) x)
  end.
Definition get_recv_index (x : ring) : option (Z * ring) :=
  match recv_num x with
  | O => None
  | S n => let x := set_sems (free_num x) (send_num x) n (call_num x) x in
           if is_over x then Some (-1, x)
           else Some (recv_index x, set_indices (insert_index x) (send_index x) (next_index (recv_index x)) (call_index x) x)
  end.
Definition get_call_index (x : ring) : option (Z * ring) :=
  match call_num x with
  | O => None
  | S n => let x := set_sems (free_num x) (send_num x) (recv_num x) n x in
           if is_over x then Some (-1, x)
           else Some (call_index x, set_indices (insert_index x) (send_index x) (recv_index x) (next_index (call_index x)) x)
  end.

(** How the outside answers: memory is there or not; the request was sent, the
    connection was renewed, or lost; the answer is complete (or could not be
    read), goes on, the connection was renewed or lost, or there is no memory. *)
Inductive event := Good | Renewed | More | Lost | NoMemory.

(** [es_query_asynchronous] of client [n]. *)
Definition client_step (n : nat) (c : client_pc) (e : event) (x : ring) : option (outcome ring) :=
  match c with
  | CLock =>
      if negb (is_run x) then Some (Done (at_client n (CReturn (-2)) x))
      else match asyn_mutex x with
           | Some _ => None
           | None => Some (Done (at_client n CIndex (set_mutex (Some n) x)))
           end
  | CIndex =>
      match get_insert_index x with
      | None => None
      | Some (i, x) =>
          if i <? 0 then Some (Done (at_client n (CReturn (-2)) x))
          else Some (Done (at_client n (CFill i) (set_traces (accepted x ++ [n]) (sent x) (called x) x)))
      end
  | CFill i =>
      Some (match e with
            | NoMemory => x ← write_sta i 0 x; mret (at_client n (CUndo i) x)
            | _ => k ← slot i; mret (at_client n (CPost i) (set_slots (<[k := 1]> (stas x)) (<[k := Some n]> (calls x)) x))
            end)
  | CPost i => Some (Done (at_client n (CUnlock 0) (set_sems (free_num x) (S (send_num x)) (recv_num x) (call_num x) x)))
  | CUndo i =>
      Some (Done (at_client n (CUnlock (-1))
        (set_indices (insert_index x - 1) (send_index x) (recv_index x) (call_index x)
          (set_sems (S (free_num x)) (send_num x) (recv_num x) (call_num x) x))))
  | CUnlock ret => Some (Done (at_client n (CReturn ret) (set_mutex None x)))
  | CReturn _ => None
  end.

(** [es_server_send] *)
Definition sender_step (c : sender_pc) (e : event) (x : ring) : option (outcome ring) :=
  match c with
  | SWait =>
      match get_send_index x with
      | None => None
      | Some (i, x) => Some (Done (at_sender (if i <? 0 then SExit else SSend i) x))
      end
  | SSend i =>
      Some (match e with
            | Renewed => Done (at_sender SWait x)
            | Lost => Done (at_sender SExit x)
            | _ => k ← slot i;
                   mret (at_sender (SPost i)
                     (set_traces (accepted x) (sent x ++ match calls x !! k with Some (Some n) => [n] | _ => [] end) (called x) x))
            end)
  | SPost i => Some (Done (at_sender (SSta i) (set_sems (free_num x) (send_num x) (S (recv_num x)) (call_num x) x)))
  | SSta i => Some (x ← write_sta i 2 x; mret (at_sender SWait x))
  | SExit => None
  end.

(** [es_server_recv].  When it renewed the connection [ret] is 0, and the loop
    goes on as after a complete answer. *)
Definition receiver_step (c : receiver_pc) (e : event) (x : ring) : option (outcome ring) :=
  match c with
  | RWait =>
      match get_recv_index x with
      | None => None
      | Some (i, x) => Some (Done (at_receiver (if i <? 0 then RExit else RRecv i) x))
      end
  | RRecv i =>
      Some (Done (match e with
                  | More => x
                  | Lost => at_receiver RExit x
                  | NoMemory => at_receiver RExit (set_run false x)
                  | Good | Renewed => at_receiver (RSta i) x
                  end))
  | RSta i => Some (x ← write_sta i 3 x; mret (at_receiver (RPost i) x))
  | RPost i => Some (Done (at_receiver RWait (set_sems (free_num x) (send_num x) (recv_num x) (S (call_num x)) x)))
  | RExit => None
  end.

(** [es_asynchronous_callback] with [inside_release_es_respond] *)
Definition caller_step (c : caller_pc) (x : ring) : option (outcome ring) :=
  match c with
  | KWait =>
      match get_call_index x with
      | None => None
      | Some (i, x) => Some (Done (at_caller (if i <? 0 then KExit else KCall i) x))
      end
  | KCall i =>
      Some (k ← slot i;
            mret (at_caller (KClear i)
              (set_traces (accepted x) (sent x) (called x ++ match calls x !! k with Some (Some n) => [n] | _ => [] end) x)))
  | KClear i =>
      Some (k ← slot i; mret (at_caller (KPost i) (set_slots (<[k := 0]> (stas x)) (<[k := None]> (calls x)) x)))
  | KPost i =>
      Some (Done (at_caller KWait
        (if is_run x then set_sems (S (free_num x)) (send_num x) (recv_num x) (call_num x) x else x)))
  | KExit => None
  end.

Definition step (t : tid) (e : event) (x : ring) : option (outcome ring) :=
  match t with
  | Client n => match clients x !! n with Some c => client_step n c e x | None => None end
  | Sender => sender_step (sender x) e x
  | Receiver => receiver_step (receiver x) e x
  | Caller => caller_step (caller x) x
  end.

(** [es_server_init] with [n] queries to come. *)
Definition start (n : nat) : ring :=
  Ring SLOTS 0 0 0 0 0 0 0 (replicate SLOTS 0) (replicate SLOTS None) None true false
    (replicate n CLock) SWait RWait KWait [] [] [].

Inductive steps_to (x x' : ring) : Prop :=
  | steps_by t e : step t e x = Some (Done x') → steps_to x x'.
(** Nothing fails: there is memory and the connection holds. *)
Inductive good_to (x x' : ring) : Prop :=
  | good_by t e : e = Good ∨ e = More → step t e x = Some (Done x') → good_to x x'.

(** A schedule names the thread and the event of each step. *)
Fixpoint run_schedule (ts : list (tid * event)) (x : ring) : option (outcome ring) :=
  match ts with
  | [] => Some (Done x)
  | (t, e) :: ts' => match step t e x with
                     | Some (Done x') => run_schedule ts' x'
                     | o => o
                     end
  end.
Definition final (ts : list (tid * event)) (x : ring) : ring :=
  match run_schedule ts x with Some (Done x') => x' | _ => x end.
