(* ===== verification/EsRingSpec.v ===== *)
(** * The ring of slots: what its runs keep

    While there is memory and the connection holds, no two threads have the
    same slot and each writes to its own (one late mark of the sender apart), the callbacks run in the order the queries were accepted, each
    once, at most ten queries are on their way, and the run cannot stop before
    every query was called back. *)

From S2P Require Import Prelude EsRing.
From stdpp Require Import list relations.

Open Scope Z_scope.

(** ** The slots the threads have

    A thread has a slot from taking it to handing it on.  The sender writes once
    more to a slot after it handed it on, when it marks it as sent ([SSta]): it
    does not have the slot then, and [step_writes] lists that write apart. *)

Definition client_slot (c : client_pc) : option Z := match c with CFill i | CPost i => Some i | _ => None end.
Definition sender_slot (c : sender_pc) : list Z := match c with SSend i | SPost i => [i] | _ => [] end.
Definition receiver_slot (c : receiver_pc) : list Z := match c with RRecv i | RSta i | RPost i => [i] | _ => [] end.
Definition caller_slot (c : caller_pc) : list Z := match c with KCall i | KClear i | KPost i => [i] | _ => [] end.
Definition held (x : ring) : list Z :=
  omap client_slot (clients x) ++ sender_slot (sender x) ++ receiver_slot (receiver x) ++ caller_slot (caller x).

Definition slots_of (t : tid) (x : ring) : list Z :=
  match t with
  | Client n => match clients x !! n with Some c => option_list (client_slot c) | None => [] end
  | Sender => sender_slot (sender x)
  | Receiver => receiver_slot (receiver x)
  | Caller => caller_slot (caller x)
  end.

Lemma slot_inv i k : slot i = Done k → i = Z.of_nat k.
Proof. unfold slot. destruct ((0 <=? i) && (i <? 10)) eqn:E; [|done]. intros [= <-]. lia. Qed.

(** What a step may change in the slots. *)
Definition writes_own (t : tid) (x x' : ring) : Prop :=
  ∀ k, stas x' !! k ≠ stas x !! k ∨ calls x' !! k ≠ calls x !! k →
    Z.of_nat k ∈ slots_of t x ∨
    (t = Sender ∧ sender x = SSta (Z.of_nat k) ∧ calls x' = calls x ∧ stas x' = <[k := 2]> (stas x)).

Lemma writes_same t x x' : stas x' = stas x → calls x' = calls x → writes_own t x x'.
Proof. intros E1 E2 k. rewrite E1, E2. tauto. Qed.
Lemma writes_at t x x' i k sv cv :
  slot i = Done k → i ∈ slots_of t x →
  (stas x' = stas x ∨ stas x' = <[k := sv]> (stas x)) → (calls x' = calls x ∨ calls x' = <[k := cv]> (calls x)) →
  writes_own t x x'.
Proof.
  intros ->%slot_inv Hi Hs Hc j Hj. left. destruct (decide (j = k)) as [->|Hne]; [done|].
  destruct Hs as [Es|Es], Hc as [Ec|Ec]; rewrite Es, Ec, ?list_lookup_insert_ne in Hj by done; tauto.
Qed.

Lemma step_writes t e x x' : step t e x = Some (Done x') → writes_own t x x'.
Proof.
  destruct t as [n| | |]; cbn [step].
  - destruct (clients x !! n) as [c|] eqn:Hc; [|done].
    assert (∀ i, client_slot c = Some i → i ∈ slots_of (Client n) x) as Hown by (intros i E; cbn; rewrite Hc, E; left).
    destruct c as [| |i|i|i|r|r]; cbn [client_step]; unfold get_insert_index, write_sta;
      intros; repeat case_match; simplify_eq/=; try (by apply writes_same);
      (destruct (slot i) as [k|f|] eqn:Ek; [|done|done]); cbn in *; unfold mret, outcome_ret in *; simplify_eq/=;
      (eapply (writes_at _ _ _ i k); [done|by apply Hown| |]; cbn; eauto).
  - assert (∀ l, sender_slot (sender x) = l → slots_of Sender x = l) as Hown by done.
    destruct (sender x) as [|i|i|i|] eqn:Hs; cbn [sender_step]; unfold get_send_index, write_sta;
      intros; repeat case_match; simplify_eq/=; try (by apply writes_same);
      (destruct (slot i) as [k|f|] eqn:Ek; [|done|done]); cbn in *; unfold mret, outcome_ret in *; simplify_eq/=; try (by apply writes_same).
    intros j Hj. apply slot_inv in Ek as ->. destruct (decide (j = k)) as [->|Hne]; [by right|].
    cbn in Hj. rewrite list_lookup_insert_ne in Hj by done. tauto.
  - destruct (receiver x) as [|i|i|i|] eqn:Hs; cbn [receiver_step]; unfold get_recv_index, write_sta;
      intros; repeat case_match; simplify_eq/=; try (by apply writes_same).
    destruct (slot i) as [k|f|] eqn:Ek; [|done|done]. cbn in *. unfold mret, outcome_ret in *. simplify_eq/=.
    eapply (writes_at _ _ _ i k); [done|cbn; rewrite Hs; left| |]; cbn; eauto.
  - destruct (caller x) as [|i|i|i|] eqn:Hs; cbn [caller_step]; unfold get_call_index;
      intros; repeat case_match; simplify_eq/=; try (by apply writes_same);
      (destruct (slot i) as [k|f|] eqn:Ek; [|done|done]); cbn in *; unfold mret, outcome_ret in *; simplify_eq/=; try (by apply writes_same).
    eapply (writes_at _ _ _ i k); [done|cbn; rewrite Hs; left| |]; cbn; eauto.
Unshelve. all: by constructor.
Qed.

(** ** The invariant

    [nI], [nS], [nR] and [nK] queries have been accepted, taken by the sender,
    by the receiver and by the caller. *)
Definition place (j : nat) : nat := (j mod 10)%nat.
Definition idx (j : nat) : Z := Z.of_nat (place j).

Definition client_ok (nI : nat) (mu : option nat) (acc : list nat) (m : nat) (c : client_pc) : Prop :=
  match c with
  | CLock => mu ≠ Some m ∧ m ∉ acc
  | CIndex => mu = Some m ∧ m ∉ acc
  | CFill i | CPost i => mu = Some m ∧ i = idx (nI - 1) ∧ acc !! (nI - 1)%nat = Some m
  | CUnlock r => mu = Some m ∧ m ∈ acc ∧ r = 0
  | CReturn r => mu ≠ Some m ∧ m ∈ acc ∧ r = 0
  | CUndo _ => False
  end.
Definition has (l : list Z) (j : nat) : Prop := l = [] ∨ (0 < j)%nat ∧ l = [idx (j - 1)].

(** The client inside the mutex. *)
Definition inside (x : ring) : client_pc :=
  match asyn_mutex x with Some m => default CLock (clients x !! m) | None => CLock end.
Definition filling (x : ring) : nat := match inside x with CFill _ => 1 | _ => 0 end.
Definition posting (x : ring) : nat := match inside x with CFill _ | CPost _ => 1 | _ => 0 end.
Definition sending (x : ring) : nat := match sender x with SSend _ => 1 | _ => 0 end.
Definition calling (x : ring) : nat := match caller x with KCall _ => 1 | _ => 0 end.

Record ring_ok (n nI nS nR nK : nat) (x : ring) : Prop := {
  ok_run : is_run x = true;
  ok_over : is_over x = false;
  ok_stas : length (stas x) = 10%nat;
  ok_calls : length (calls x) = 10%nat;
  ok_clients : length (clients x) = n;
  ok_mutex m : asyn_mutex x = Some m → (m < n)%nat;
  ok_client m c : clients x !! m = Some c → client_ok nI (asyn_mutex x) (accepted x) m c;
  ok_insert : insert_index x = idx nI;
  ok_send : send_index x = idx nS;
  ok_recv : recv_index x = idx nR;
  ok_call : call_index x = idx nK;
  ok_to_send : (nS + send_num x + posting x = nI)%nat;
  ok_to_recv : (nR + recv_num x + length (sender_slot (sender x)) = nS)%nat;
  ok_to_call : (nK + call_num x + length (receiver_slot (receiver x)) = nR)%nat;
  ok_free : (free_num x + nI + length (caller_slot (caller x)) = nK + 10)%nat;
  ok_sender : has (sender_slot (sender x)) nS;
  ok_receiver : has (receiver_slot (receiver x)) nR;
  ok_caller : has (caller_slot (caller x)) nK;
  ok_sta i : sender x = SSta i → 0 <= i < 10;
  ok_sends : sender x ≠ SExit;
  ok_receives : receiver x ≠ RExit;
  ok_calls_back : caller x ≠ KExit;
  ok_accepted : length (accepted x) = nI;
  ok_once : NoDup (accepted x);
  ok_known m : m ∈ accepted x → (m < n)%nat;
  ok_pending j : (nK - calling x <= j < nI - filling x)%nat → calls x !! place j = Some (accepted x !! j);
  ok_sent : sent x = take (nS - sending x) (accepted x);
  ok_called : called x = take (nK - calling x) (accepted x);
}.

Lemma idx_range j : 0 <= idx j < 10.
Proof. unfold idx, place. pose proof (Nat.mod_upper_bound j 10). lia. Qed.

Lemma next_index_idx j : next_index (idx j) = idx (S j).
Proof.
  unfold next_index, idx, place.
  rewrite !Nat2Z.inj_mod. change (Z.of_nat 10) with 10. destruct (Z.leb_spec 10 (Z.of_nat j `mod` 10 + 1)); Z.to_euclidean_division_equations; lia.
Qed.

Lemma slot_idx j : slot (idx j) = Done (place j).
Proof.
  unfold slot. pose proof (idx_range j). replace ((0 <=? idx j) && (idx j <? 10)) with true by lia.
  unfold idx. by rewrite Nat2Z.id.
Qed.

Lemma place_inj j k : (j < k + 10)%nat → (k < j + 10)%nat → place j = place k → j = k.
Proof.
  unfold place. intros ?? H%(f_equal Z.of_nat). rewrite !Nat2Z.inj_mod in H. change (Z.of_nat 10) with 10 in H.
  Z.to_euclidean_division_equations. lia.
Qed.

Lemma place_lt j : (place j < 10)%nat.
Proof. apply Nat.mod_upper_bound. lia. Qed.

Lemma idx_inj j k : (j < k + 10)%nat → (k < j + 10)%nat → idx j = idx k → j = k.
Proof. unfold idx. intros. apply place_inj; lia. Qed.

(** [client_ok] of the clients outside the mutex. *)
Lemma client_ok_out nI mu acc m c :
  client_ok nI mu acc m c → mu ≠ Some m → (c = CLock ∧ m ∉ acc) ∨ (c = CReturn 0 ∧ m ∈ acc).
Proof. destruct c; simpl; naive_solver. Qed.

Lemma client_ok_away nI mu acc m c nI' mu' acc' :
  client_ok nI mu acc m c → mu ≠ Some m → mu' ≠ Some m → (m ∈ acc' ↔ m ∈ acc) → client_ok nI' mu' acc' m c.
Proof. intros H Hm Hm' Ha. destruct (client_ok_out _ _ _ _ _ H Hm) as [[-> ?]|[-> ?]]; simpl; naive_solver. Qed.

(** A step of the client that is, was or will be inside. *)
Lemma clients_ok_step nI mu acc nI' mu' acc' (cs : list client_pc) n c' :
  (∀ m c, cs !! m = Some c → client_ok nI mu acc m c) →
  (∀ m, m ≠ n → mu ≠ Some m ∧ mu' ≠ Some m) → (∀ m, m ≠ n → m ∈ acc' ↔ m ∈ acc) →
  client_ok nI' mu' acc' n c' →
  ∀ m c, <[n := c']> cs !! m = Some c → client_ok nI' mu' acc' m c.
Proof.
  intros Hcs Hmu Hacc Hn m c. destruct (decide (m = n)) as [->|Hne].
  - rewrite list_lookup_insert_Some. naive_solver.
  - rewrite list_lookup_insert_ne by done. intros Hc.
    eapply client_ok_away; [by eapply Hcs|naive_solver..].
Qed.

Lemma inside_at (n : nat) c c' x :
  clients x !! n = Some c → asyn_mutex x = Some n → inside (at_client n c' x) = c'.
Proof.
  intros Hc Hm. unfold inside. simpl. rewrite Hm, list_lookup_insert_eq; [done|].
  by eapply lookup_lt_Some.
Qed.

Lemma inside_is n c x : clients x !! n = Some c → asyn_mutex x = Some n → inside x = c.
Proof. intros Hc Hm. unfold inside. by rewrite Hm, Hc. Qed.

Lemma ring_ok_start n : ring_ok n 0 0 0 0 (start n).
Proof.
  constructor; simpl; try done.
  - apply length_replicate.
  - intros m c [-> _]%lookup_replicate. simpl. split; [done|apply not_elem_of_nil].
  - by left.
  - by left.
  - by left.
  - constructor.
  - by intros m ?%elem_of_nil.
  - intros j. lia.
Qed.

(** ** Every step keeps it *)

Definition somewhere (n : nat) (x : ring) : Prop := ∃ nI nS nR nK, ring_ok n nI nS nR nK x.

Lemma alone (n nI nS nR nK : nat) x m c :
  ring_ok n nI nS nR nK x → clients x !! m = Some c → asyn_mutex x = Some m →
  inside x = c ∧ client_ok nI (Some m) (accepted x) m c.
Proof. intros H Hc Hm. split; [by eapply inside_is|]. rewrite <-Hm. by eapply ok_client. Qed.

Lemma client_lock_ok n nI nS nR nK x m :
  ring_ok n nI nS nR nK x → clients x !! m = Some CLock → asyn_mutex x = None →
  ring_ok n nI nS nR nK (at_client m CIndex (set_mutex (Some m) x)).
Proof.
  intros H Hc Hm. pose proof (ok_client _ _ _ _ _ _ H m _ Hc) as [_ Hacc].
  assert (Hin : inside x = CLock) by (unfold inside; by rewrite Hm).
  assert (Hin' : inside (at_client m CIndex (set_mutex (Some m) x)) = CIndex) by (by eapply inside_at).
  destruct H; constructor; unfold posting, filling in *; rewrite ?Hin in *; rewrite ?Hin'; simpl in *; auto.
  - by rewrite length_insert.
  - intros k [= <-]. rewrite <-ok_clients0. by eapply lookup_lt_Some.
  - eapply clients_ok_step; [done| |naive_solver|done]. rewrite Hm. naive_solver.
Qed.

Lemma client_index_ok n nI nS nR nK x m f :
  ring_ok n nI nS nR nK x → clients x !! m = Some CIndex → asyn_mutex x = Some m → free_num x = S f →
  ring_ok n (S nI) nS nR nK
    (at_client m (CFill (insert_index x)) (set_traces (accepted x ++ [m]) (sent x) (called x)
      (set_indices (next_index (insert_index x)) (send_index x) (recv_index x) (call_index x)
        (set_sems f (send_num x) (recv_num x) (call_num x) x)))).
Proof.
  intros H Hc Hm Hf. destruct (alone _ _ _ _ _ _ _ _ H Hc Hm) as (Hin & _ & Hnew).
  set (x' := at_client _ _ _).
  assert (Hin' : inside x' = CFill (insert_index x)) by (by eapply (inside_at _ CIndex)).
  destruct H; constructor; unfold posting, filling in *; rewrite ?Hin in *; rewrite ?Hin'; simpl in *; auto.
  - by rewrite length_insert.
  - rewrite Hm in *. eapply clients_ok_step; [done|naive_solver| |].
    + intros k Hk. rewrite elem_of_app, list_elem_of_singleton. naive_solver.
    + simpl. rewrite Nat.sub_0_r. split_and!; [done..|]. by rewrite lookup_app_r, ok_accepted0, Nat.sub_diag by lia.
  - by rewrite ok_insert0, next_index_idx.
  - lia.
  - lia.
  - rewrite length_app. simpl. lia.
  - apply NoDup_app. split_and!; [done| |apply NoDup_singleton].
    intros k Hk ->%list_elem_of_singleton. done.
  - intros k. rewrite elem_of_app, list_elem_of_singleton. intros [?| ->]; [auto|]. rewrite <-ok_clients0. by eapply lookup_lt_Some.
  - intros j Hj. rewrite lookup_app_l by lia. apply ok_pending0. unfold calling in *. simpl in *. lia.
  - rewrite ok_sent0, take_app_le; [done|]. lia.
  - rewrite ok_called0, take_app_le; [done|]. lia.
Qed.

Lemma posting_le_1 x : (filling x ≤ posting x ≤ 1)%nat.
Proof. unfold filling, posting. destruct (inside x); lia. Qed.

Lemma calling_le x : (calling x ≤ length (caller_slot (caller x)) ≤ 1)%nat.
Proof. unfold calling. destruct (caller x); simpl; lia. Qed.

Lemma client_fill_ok n nI nS nR nK x m i st :
  ring_ok n nI nS nR nK x → clients x !! m = Some (CFill i) → asyn_mutex x = Some m → length st = 10%nat →
  ring_ok n nI nS nR nK (at_client m (CPost i) (set_slots st (<[place (nI - 1) := Some m]> (calls x)) x)).
Proof.
  intros H Hc Hm Hst. destruct (alone _ _ _ _ _ _ _ _ H Hc Hm) as (Hin & _ & Hi & Hnew).
  set (x' := at_client _ _ _).
  assert (Hin' : inside x' = CPost i) by (by eapply (inside_at _ (CFill i))).
  pose proof (calling_le x).
  destruct H; constructor; unfold posting, filling in *; rewrite ?Hin in *; rewrite ?Hin'; simpl in *; auto.
  - by rewrite length_insert.
  - by rewrite length_insert.
  - rewrite Hm in *. eapply clients_ok_step; [done|naive_solver..|done].
  - intros j Hj. change (calling x') with (calling x) in Hj. destruct (decide (j = (nI - 1)%nat)) as [->|Hne].
    + rewrite list_lookup_insert_eq by (rewrite ok_calls0; apply place_lt). by rewrite Hnew.
    + rewrite list_lookup_insert_ne; [apply ok_pending0; lia|].
      intros ?%place_inj; lia.
Qed.

Lemma client_post_ok n nI nS nR nK x m i :
  ring_ok n nI nS nR nK x → clients x !! m = Some (CPost i) → asyn_mutex x = Some m →
  ring_ok n nI nS nR nK (at_client m (CUnlock 0) (set_sems (free_num x) (S (send_num x)) (recv_num x) (call_num x) x)).
Proof.
  intros H Hc Hm. destruct (alone _ _ _ _ _ _ _ _ H Hc Hm) as (Hin & _ & Hi & Hnew).
  set (x' := at_client _ _ _).
  assert (Hin' : inside x' = CUnlock 0) by (by eapply (inside_at _ (CPost i))).
  destruct H; constructor; unfold posting, filling in *; rewrite ?Hin in *; rewrite ?Hin'; simpl in *; auto.
  - by rewrite length_insert.
  - rewrite Hm in *. eapply clients_ok_step; [done|naive_solver..|].
    simpl. split; [done|]. split; [|done]. by eapply list_elem_of_lookup_2.
  - lia.
Qed.

Lemma client_unlock_ok n nI nS nR nK x m :
  ring_ok n nI nS nR nK x → clients x !! m = Some (CUnlock 0) → asyn_mutex x = Some m →
  ring_ok n nI nS nR nK (at_client m (CReturn 0) (set_mutex None x)).
Proof.
  intros H Hc Hm. destruct (alone _ _ _ _ _ _ _ _ H Hc Hm) as (Hin & _ & Hacc).
  set (x' := at_client _ _ _).
  assert (Hin' : inside x' = CLock) by done.
  destruct H; constructor; unfold posting, filling in *; rewrite ?Hin in *; rewrite ?Hin'; simpl in *; auto.
  - by rewrite length_insert.
  - done.
  - rewrite Hm in *. eapply clients_ok_step; [done|naive_solver..|done].
Qed.

Lemma write_sta_idx j v x : write_sta (idx j) v x = Done (set_slots (<[place j := v]> (stas x)) (calls x) x).
Proof. unfold write_sta. by rewrite slot_idx. Qed.

Lemma client_step_ok n nI nS nR nK x m c e x' :
  ring_ok n nI nS nR nK x → clients x !! m = Some c → e = Good ∨ e = More →
  client_step m c e x = Some (Done x') → somewhere n x'.
Proof.
  intros H Hc He. pose proof (ok_client _ _ _ _ _ _ H m c Hc) as Hok.
  destruct c as [| |i|i|i|r|r]; simpl in *.
  - rewrite (ok_run _ _ _ _ _ _ H). destruct (asyn_mutex x) eqn:Hm; intros [= <-].
    do 4 eexists. by apply client_lock_ok.
  - destruct Hok as (Hm & _). unfold get_insert_index. destruct (free_num x) as [|f] eqn:Hf; [done|].
    pose proof (idx_range nI). rewrite (ok_insert _ _ _ _ _ _ H). destruct (Z.ltb_spec (idx nI) 0); [lia|].
    intros [= <-]. do 4 eexists. rewrite <-(ok_insert _ _ _ _ _ _ H). by apply client_index_ok.
  - destruct Hok as (Hm & -> & _). rewrite slot_idx.
    destruct He as [-> | ->]; intros [= <-]; do 4 eexists;
      (apply client_fill_ok; [done..|rewrite length_insert; by eapply ok_stas]).
  - destruct Hok as (Hm & _). intros [= <-]. do 4 eexists. by eapply client_post_ok.
  - done.
  - destruct Hok as (Hm & _ & ->). intros [= <-]. do 4 eexists. by apply client_unlock_ok.
  - done.
Qed.

Lemma has_next j : has [idx j] (S j).
Proof. right. split; [lia|]. by replace (S j - 1)%nat with j by lia. Qed.

Lemma has_slot i j : has [i] j → (0 < j)%nat ∧ i = idx (j - 1).
Proof. intros [?|[? [= ->]]]; done. Qed.

Lemma idx_not_negative j : (idx j <? 0) = false.
Proof. pose proof (idx_range j). lia. Qed.

(** What the sender and the caller find in the slot they have. *)
Lemma pending_client n nI nS nR nK x j :
  ring_ok n nI nS nR nK x → (nK - calling x <= j < nI - filling x)%nat →
  ∃ m, calls x !! place j = Some (Some m) ∧ accepted x !! j = Some m.
Proof.
  intros H Hj. rewrite (ok_pending _ _ _ _ _ _ H j Hj).
  destruct (lookup_lt_is_Some_2 (accepted x) j) as [m Hm]; [rewrite (ok_accepted _ _ _ _ _ _ H); lia|].
  exists m. by rewrite Hm.
Qed.

(** A step of another thread than the clients: the fields it leaves keep their
    facts, the counts are arithmetic. *)
Ltac keep H Hs :=
  destruct H; constructor; unfold posting, filling, sending, calling, inside in *; rewrite ?Hs in *; simpl in *;
  rewrite ?Nat.sub_0_r in *; auto; try lia; try done.

Lemma sender_step_ok n nI nS nR nK x e x' :
  ring_ok n nI nS nR nK x → e = Good ∨ e = More →
  sender_step (sender x) e x = Some (Done x') → somewhere n x'.
Proof.
  intros H He. pose proof (posting_le_1 x). pose proof (calling_le x).
  destruct (sender x) as [|i|i|i|] eqn:Hs; simpl.
  - unfold get_send_index. destruct (send_num x) as [|k] eqn:Hk; [done|]. simpl.
    rewrite (ok_over _ _ _ _ _ _ H), (ok_send _ _ _ _ _ _ H), idx_not_negative, next_index_idx. intros [= <-].
    exists nI, (S nS), nR, nK. keep H Hs.
    + apply has_next.
  - pose proof (ok_sender _ _ _ _ _ _ H) as Hhas. rewrite Hs in Hhas. apply has_slot in Hhas as [Hpos ->].
    rewrite slot_idx. pose proof (ok_to_send _ _ _ _ _ _ H). pose proof (ok_to_recv _ _ _ _ _ _ H) as Hr.
    pose proof (ok_to_call _ _ _ _ _ _ H). rewrite Hs in Hr. simpl in Hr.
    destruct (pending_client _ _ _ _ _ _ (nS - 1) H) as (m & Hm & Ham); [lia|].
    destruct He as [-> | ->]; simpl; rewrite Hm; intros [= <-]; exists nI, nS, nR, nK;
      keep H Hs;
      rewrite ok_sent0;
      replace (take nS (accepted x)) with (take (S (nS - 1)) (accepted x)) by (f_equal; lia);
      by rewrite (take_S_r _ _ m).
  - pose proof (ok_sender _ _ _ _ _ _ H) as Hhas. rewrite Hs in Hhas. apply has_slot in Hhas as [Hpos ->].
    intros [= <-]. exists nI, nS, nR, nK. keep H Hs.
    + by left.
    + intros i [= <-]. apply idx_range.
  - unfold write_sta, slot. pose proof (ok_sta _ _ _ _ _ _ H i Hs).
    replace ((0 <=? i) && (i <? 10)) with true by lia. intros [= <-].
    exists nI, nS, nR, nK. keep H Hs.
    + by rewrite length_insert.
  - done.
Qed.

Lemma receiver_step_ok n nI nS nR nK x e x' :
  ring_ok n nI nS nR nK x → e = Good ∨ e = More →
  receiver_step (receiver x) e x = Some (Done x') → somewhere n x'.
Proof.
  intros H He. destruct (receiver x) as [|i|i|i|] eqn:Hs; simpl.
  - unfold get_recv_index. destruct (recv_num x) as [|k] eqn:Hk; [done|]. simpl.
    rewrite (ok_over _ _ _ _ _ _ H), (ok_recv _ _ _ _ _ _ H), idx_not_negative, next_index_idx. intros [= <-].
    exists nI, nS, (S nR), nK. keep H Hs; apply has_next.
  - destruct He as [-> | ->]; intros [= <-]; exists nI, nS, nR, nK; [|done].
    keep H Hs.
  - pose proof (ok_receiver _ _ _ _ _ _ H) as Hhas. rewrite Hs in Hhas. apply has_slot in Hhas as [Hpos ->].
    rewrite write_sta_idx. intros [= <-]. exists nI, nS, nR, nK.
    keep H Hs. by rewrite length_insert.
  - intros [= <-]. exists nI, nS, nR, nK.
    keep H Hs. by left.
  - done.
Qed.

Lemma caller_step_ok n nI nS nR nK x x' :
  ring_ok n nI nS nR nK x → caller_step (caller x) x = Some (Done x') → somewhere n x'.
Proof.
  intros H. pose proof (posting_le_1 x). destruct (caller x) as [|i|i|i|] eqn:Hs; simpl.
  - unfold get_call_index. destruct (call_num x) as [|k] eqn:Hk; [done|]. simpl.
    rewrite (ok_over _ _ _ _ _ _ H), (ok_call _ _ _ _ _ _ H), idx_not_negative, next_index_idx. intros [= <-].
    exists nI, nS, nR, (S nK). keep H Hs. apply has_next.
  - pose proof (ok_caller _ _ _ _ _ _ H) as Hhas. rewrite Hs in Hhas. apply has_slot in Hhas as [Hpos ->].
    rewrite slot_idx. pose proof (ok_to_send _ _ _ _ _ _ H). pose proof (ok_to_recv _ _ _ _ _ _ H).
    pose proof (ok_to_call _ _ _ _ _ _ H). assert (calling x = 1%nat) as Hca by (unfold calling; by rewrite Hs).
    destruct (pending_client _ _ _ _ _ _ (nK - 1) H) as (m & Hm & Ham); [lia|].
    simpl. rewrite Hm. intros [= <-]. exists nI, nS, nR, nK.
    keep H Hs.
    + intros j Hj. apply ok_pending0. lia.
    + rewrite ok_called0.
      replace (take nK (accepted x)) with (take (S (nK - 1)) (accepted x)) by (f_equal; lia). by rewrite (take_S_r _ _ m).
  - pose proof (ok_caller _ _ _ _ _ _ H) as Hhas. rewrite Hs in Hhas. apply has_slot in Hhas as [Hpos ->].
    rewrite slot_idx. intros [= <-]. exists nI, nS, nR, nK.
    keep H Hs.
    + by rewrite length_insert.
    + by rewrite length_insert.
    + intros j Hj.
      rewrite list_lookup_insert_ne; [apply ok_pending0; lia|]. intros ?%place_inj; lia.
  - rewrite (ok_run _ _ _ _ _ _ H). intros [= <-]. exists nI, nS, nR, nK.
    keep H Hs. by left.
  - done.
Qed.

Lemma somewhere_step n x x' : somewhere n x → good_to x x' → somewhere n x'.
Proof.
  intros (nI & nS & nR & nK & H) [t e He Hst]. destruct t as [m| | |]; simpl in Hst.
  - destruct (clients x !! m) as [c|] eqn:Hc; [|done]. by eapply client_step_ok.
  - by eapply sender_step_ok.
  - by eapply receiver_step_ok.
  - by eapply caller_step_ok.
Qed.

Lemma somewhere_reached n x : rtc good_to (start n) x → somewhere n x.
Proof.
  intros H. assert (Hs : somewhere n (start n)) by (do 4 eexists; apply ring_ok_start).
  induction H; [done|]. eauto using somewhere_step.
Qed.

(** ** What the invariant gives *)

Lemma client_slots n nI nS nR nK x :
  ring_ok n nI nS nR nK x → omap client_slot (clients x) = replicate (posting x) (idx (nI - 1)).
Proof.
  intros H. assert (Hall : ∀ m c, clients x !! m = Some c → client_slot c ≠ None →
    asyn_mutex x = Some m ∧ client_slot c = Some (idx (nI - 1)) ∧ posting x = 1%nat).
  { intros m c Hc Hsl. pose proof (ok_client _ _ _ _ _ _ H m c Hc) as Hok.
    destruct c; simpl in *; try done; destruct Hok as (Hm & -> & _); split_and!; try done;
      unfold posting; by rewrite (inside_is _ _ _ Hc Hm). }
  destruct (decide (posting x = 0)%nat) as [E|E].
  - rewrite E. simpl. apply elem_of_nil_inv. intros i (c & [m Hc]%list_elem_of_lookup & Hi)%list_elem_of_omap.
    destruct (Hall m c Hc) as (_ & _ & ?); [by rewrite Hi|lia].
  - pose proof (posting_le_1 x). replace (posting x) with 1%nat by lia. simpl.
    assert (∃ m c, asyn_mutex x = Some m ∧ clients x !! m = Some c ∧ client_slot c ≠ None) as (m & c & Hm & Hc & Hsl).
    { unfold posting, inside in E. destruct (asyn_mutex x) as [m|]; [|done]. exists m.
      destruct (clients x !! m) as [c|]; [|done]. exists c. by destruct c. }
    destruct (Hall _ _ Hc Hsl) as (_ & Hci & _). rewrite <-(take_drop_middle _ _ _ Hc), omap_app. simpl. rewrite Hci.
    assert (∀ l, (∀ k c', l !! k = Some c' → client_slot c' = None) → omap client_slot l = []) as Hnone.
    { intros l Hl. apply elem_of_nil_inv. intros i (c' & [k Hk]%list_elem_of_lookup & Hi)%list_elem_of_omap.
      by rewrite (Hl _ _ Hk) in Hi. }
    rewrite !Hnone; [done|..].
    + intros k c' Hk. rewrite lookup_drop in Hk. destruct (client_slot c') eqn:E'; [|done].
      destruct (Hall _ _ Hk) as (? & _); [by rewrite E'|]. simplify_eq. lia.
    + intros k c' [Hk ?]%lookup_take_Some. destruct (client_slot c') eqn:E'; [|done].
      destruct (Hall _ _ Hk) as (? & _); [by rewrite E'|]. simplify_eq. lia.
Qed.

(** The numbers of the slots the threads have. *)
Definition last_of {A} (l : list A) (j : nat) : list nat := (λ _, j - 1)%nat <$> l.

Lemma has_last l j : has l j → l = idx <$> last_of l j.
Proof. by intros [->|[_ ->]]. Qed.

Lemma last_of_spec l j k : has l j → k ∈ last_of l j ↔ l ≠ [] ∧ (0 < j)%nat ∧ k = (j - 1)%nat.
Proof. intros [->|[? ->]]; simpl; [rewrite elem_of_nil; naive_solver|]. rewrite list_elem_of_singleton. naive_solver. Qed.

Lemma held_numbers n nI nS nR nK x :
  ring_ok n nI nS nR nK x →
  ∃ js, held x = idx <$> js ∧ NoDup js ∧ ∀ j, j ∈ js → (nK <= j + length (caller_slot (caller x)))%nat ∧ (j < nI)%nat.
Proof.
  intros H. exists (replicate (posting x) (nI - 1)%nat ++ last_of (sender_slot (sender x)) nS
    ++ last_of (receiver_slot (receiver x)) nR ++ last_of (caller_slot (caller x)) nK).
  pose proof (ok_sender _ _ _ _ _ _ H) as Hs. pose proof (ok_receiver _ _ _ _ _ _ H) as Hr.
  pose proof (ok_caller _ _ _ _ _ _ H) as Hk.
  pose proof (ok_to_send _ _ _ _ _ _ H). pose proof (ok_to_recv _ _ _ _ _ _ H).
  pose proof (ok_to_call _ _ _ _ _ _ H). pose proof (posting_le_1 x).
  assert (∀ l j, has l j → NoDup (last_of l j)) as Hnd.
  { intros l j [->|[_ ->]]; simpl; [constructor|apply NoDup_singleton]. }
  assert (∀ l j, has l j → l ≠ [] → length l = 1%nat) as Hlen by (by intros l j [->|[_ ->]]).
  split_and!.
  - unfold held. rewrite !fmap_app, <-!has_last by done. rewrite (client_slots _ _ _ _ _ _ H).
    by rewrite fmap_replicate.
  - rewrite !NoDup_app. split_and!; auto.
    + destruct (posting x) as [|[|?]]; [constructor|apply NoDup_singleton|lia].
    + intros j [-> ?]%elem_of_replicate. rewrite !elem_of_app, !last_of_spec by done.
      intros [?|[?|?]]; destruct_and!; lia.
    + intros j. rewrite !elem_of_app, !last_of_spec by done. intros (Hne & ?) [?|?]; pose proof (Hlen _ _ Hs Hne); destruct_and!; lia.
    + intros j. rewrite !last_of_spec by done. intros (Hne & ?) ?; pose proof (Hlen _ _ Hr Hne); destruct_and!; lia.
  - intros j. rewrite !elem_of_app, !last_of_spec by done. intros [[-> ?]%elem_of_replicate|[(Hne & ?)|[(Hne & ?)|(Hne & ?)]]].
    + lia.
    + pose proof (Hlen _ _ Hs Hne). destruct_and!. lia.
    + pose proof (Hlen _ _ Hr Hne). destruct_and!. lia.
    + pose proof (Hlen _ _ Hk Hne). destruct_and!. lia.
Qed.

Lemma held_distinct n x : somewhere n x → NoDup (held x) ∧ Forall (λ i, 0 <= i < 10) (held x).
Proof.
  intros (nI & nS & nR & nK & H). destruct (held_numbers _ _ _ _ _ _ H) as (js & -> & Hnd & Hin).
  pose proof (ok_free _ _ _ _ _ _ H). split.
  - apply NoDup_fmap_2_strong; [|done]. intros j k Hj%Hin Hk%Hin. apply idx_inj; lia.
  - apply Forall_fmap, Forall_true. intros j. apply idx_range.
Qed.

(** No step runs into a slot outside the array. *)
Lemma step_safe n x t e o : somewhere n x → step t e x = Some o → ∃ x', o = Done x'.
Proof.
  intros (nI & nS & nR & nK & H).
  assert (∀ l i j, has l j → l = [i] → slot i = Done (place (j - 1))) as Hslot.
  { intros l i j [->|[_ ->]] [=]. subst. apply slot_idx. }
  pose proof (ok_sender _ _ _ _ _ _ H) as Hs. pose proof (ok_receiver _ _ _ _ _ _ H) as Hr.
  pose proof (ok_caller _ _ _ _ _ _ H) as Hk. pose proof (ok_sta _ _ _ _ _ _ H) as Hsta.
  destruct t as [m| | |]; simpl.
  - destruct (clients x !! m) as [c|] eqn:Hc; [|done]. pose proof (ok_client _ _ _ _ _ _ H m c Hc) as Hok.
    destruct c as [| |i|i|i|r|r]; simpl in *; try solve [intros; repeat case_match; simplify_eq; eauto].
    destruct Hok as (_ & -> & _). unfold write_sta. rewrite slot_idx. destruct e; intros [= <-]; simpl; eauto.
  - destruct (sender x) as [|i|i|i|]; simpl in *; try solve [intros; repeat case_match; simplify_eq; eauto].
    + rewrite (Hslot _ _ _ Hs eq_refl). destruct e; intros [= <-]; simpl; eauto.
    + unfold write_sta, slot. specialize (Hsta i eq_refl). replace ((0 <=? i) && (i <? 10)) with true by lia.
      intros [= <-]. eauto.
  - destruct (receiver x) as [|i|i|i|]; simpl in *; try solve [intros; repeat case_match; simplify_eq; eauto].
    unfold write_sta. rewrite (Hslot _ _ _ Hr eq_refl). intros [= <-]. eauto.
  - destruct (caller x) as [|i|i|i|]; simpl in *; try solve [intros; repeat case_match; simplify_eq; eauto];
      rewrite (Hslot _ _ _ Hk eq_refl); intros [= <-]; eauto.
Qed.

(** Steps after which the answers come without delay. *)
Inductive answered_to (x x' : ring) : Prop :=
  | answered_by t : step t Good x = Some (Done x') → answered_to x x'.

Lemma answered_good x x' : answered_to x x' → good_to x x'.
Proof. intros [t Ht]. by apply (good_by _ _ t Good); [left|]. Qed.

(** A thread that does not wait has a step. *)
Lemma stuck_waits n x :
  somewhere n x → nf answered_to x →
  (∀ m c, clients x !! m = Some c → client_step m c Good x = None) ∧
  sender_step (sender x) Good x = None ∧ receiver_step (receiver x) Good x = None ∧ caller_step (caller x) x = None.
Proof.
  intros Hx Hstuck.
  assert (∀ t, step t Good x = None) as Hnone.
  { intros t. destruct (step t Good x) as [o|] eqn:E; [|done]. destruct (step_safe _ _ _ _ _ Hx E) as [x' ->].
    destruct Hstuck. exists x'. by exists t. }
  split_and!; [|exact (Hnone Sender)|exact (Hnone Receiver)|exact (Hnone Caller)].
  intros m c Hc. specialize (Hnone (Client m)). simpl in Hnone. by rewrite Hc in Hnone.
Qed.

Lemma stuck_done n x :
  somewhere n x → nf answered_to x →
  called x = accepted x ∧ accepted x ≡ₚ seq 0 n ∧ clients x = replicate n (CReturn 0).
Proof.
  intros Hx Hstuck. destruct (stuck_waits n x Hx Hstuck) as (Hc & Hs & Hr & Hk). destruct Hx as (nI & nS & nR & nK & H).
  pose proof (ok_free _ _ _ _ _ _ H) as Hfree. pose proof (ok_to_send _ _ _ _ _ _ H) as Hsend.
  pose proof (ok_to_recv _ _ _ _ _ _ H) as Hrecv. pose proof (ok_to_call _ _ _ _ _ _ H) as Hcall.
  pose proof (ok_called _ _ _ _ _ _ H) as Hcalled. unfold calling in Hcalled.
  destruct (caller x) eqn:Ek; simpl in *; try discriminate; [|by destruct (ok_calls_back _ _ _ _ _ _ H)].
  destruct (receiver x) eqn:Er; simpl in *; try discriminate; [|by destruct (ok_receives _ _ _ _ _ _ H)].
  destruct (sender x) eqn:Es; simpl in *; try discriminate; [|by destruct (ok_sends _ _ _ _ _ _ H)].
  assert (send_num x = 0 ∧ recv_num x = 0 ∧ call_num x = 0)%nat as (Es0 & Er0 & Ek0).
  { unfold get_send_index, get_recv_index, get_call_index in *.
    destruct (send_num x), (recv_num x), (call_num x); simpl in *; rewrite ?(ok_over _ _ _ _ _ _ H) in *; done. }
  assert (Hret : ∀ m c, clients x !! m = Some c → c = CReturn 0 ∧ m ∈ accepted x).
  { assert (Hin : ∀ m c, clients x !! m = Some c → asyn_mutex x ≠ Some m).
    { intros m c Hmc Hmu. destruct (alone _ _ _ _ _ _ _ _ H Hmc Hmu) as [Hin Hok].
      specialize (Hc m c Hmc). unfold posting in Hsend. rewrite Hin in Hsend.
      destruct c; simpl in *; try done; try naive_solver.
      unfold get_insert_index in Hc. destruct (free_num x) eqn:Ef; [lia|].
      simpl in Hc. by destruct (insert_index x <? 0). }
    intros m c Hmc. specialize (Hc m c Hmc).
    destruct (client_ok_out _ _ _ _ _ (ok_client _ _ _ _ _ _ H m c Hmc) (Hin m c Hmc)) as [[-> _]|[-> ?]]; [|done].
    simpl in Hc. rewrite (ok_run _ _ _ _ _ _ H) in Hc. simpl in Hc. destruct (asyn_mutex x) as [k|] eqn:Hmu; [|done].
    destruct (lookup_lt_is_Some_2 (clients x) k) as [c' Hc'].
    { rewrite (ok_clients _ _ _ _ _ _ H). by apply (ok_mutex _ _ _ _ _ _ H). }
    by destruct (Hin k c' Hc'). }
  assert (posting x = 0)%nat as Hp.
  { unfold posting, inside. destruct (asyn_mutex x) as [k|]; [|done].
    destruct (clients x !! k) as [c|] eqn:E; [|done]. by destruct (Hret _ _ E) as [-> _]. }
  split_and!.
  - rewrite Hcalled. apply take_ge. rewrite (ok_accepted _ _ _ _ _ _ H). lia.
  - apply NoDup_Permutation; [exact (ok_once _ _ _ _ _ _ H)|apply NoDup_seq|]. intros m. rewrite elem_of_seq. split.
    + intros Hm. pose proof (ok_known _ _ _ _ _ _ H m Hm). lia.
    + intros [_ Hm]. destruct (lookup_lt_is_Some_2 (clients x) m) as [c Hmc]; [|by destruct (Hret _ _ Hmc)].
      by rewrite (ok_clients _ _ _ _ _ _ H).
  - apply list_eq_same_length with n; [by rewrite length_replicate|exact (ok_clients _ _ _ _ _ _ H)|].
    intros m c c' Hm Hmc [-> _]%lookup_replicate. by destruct (Hret _ _ Hmc).
Qed.

Lemma prefix_take_le {A} (l : list A) a b : (a <= b)%nat → take a l `prefix_of` take b l.
Proof. intros Hab. rewrite <-(Nat.min_l a b), <-take_take by done. apply prefix_take. Qed.

(** ** How far a run has to go *)

Definition client_left (c : client_pc) : nat :=
  match c with CLock => 17 | CIndex => 16 | CFill _ => 15 | CPost _ => 14 | CUndo _ => 2 | CUnlock _ => 1 | CReturn _ => 0 end.
Definition sender_left (c : sender_pc) : nat := match c with SSend _ => 11 | SPost _ => 10 | SSta _ => 1 | _ => 0 end.
Definition receiver_left (c : receiver_pc) : nat := match c with RRecv _ => 7 | RSta _ => 6 | RPost _ => 5 | _ => 0 end.
Definition caller_left (c : caller_pc) : nat := match c with KCall _ => 3 | KClear _ => 2 | KPost _ => 1 | _ => 0 end.
Definition to_do (x : ring) : nat :=
  sum_list_with client_left (clients x) + 12 * send_num x + sender_left (sender x) + 8 * recv_num x
  + receiver_left (receiver x) + 4 * call_num x + caller_left (caller x).

Lemma load_insert {A} (f : A → nat) (l : list A) i a b :
  l !! i = Some a → (sum_list_with f (<[i := b]> l) + f a = sum_list_with f l + f b)%nat.
Proof.
  intros Hi. rewrite <-(take_drop_middle _ _ _ Hi) at 2. rewrite insert_take_drop by (by eapply lookup_lt_Some).
  rewrite !sum_list_with_app. simpl. lia.
Qed.

Lemma answered_less x x' : answered_to x x' → (to_do x' < to_do x)%nat.
Proof.
  intros [[m| | |] Ht]; simpl in Ht.
  - destruct (clients x !! m) as [c|] eqn:Hc; [|done].
    pose proof (λ c', load_insert client_left (clients x) m c c' Hc) as Hsum. unfold to_do.
    destruct c; simpl in Ht; unfold get_insert_index, write_sta, slot in Ht; simpl in *;
      repeat case_match; simplify_eq/=;
      unfold mret, outcome_ret in *; simplify_eq/=;
      match goal with |- context [<[m := ?c']> _] => specialize (Hsum c'); simpl in Hsum end; lia.
  - unfold to_do. destruct (sender x) eqn:Es; simpl in *; unfold get_send_index, write_sta, slot in Ht; simpl in *;
      repeat case_match; unfold mret, outcome_ret in *; simplify_eq/=; lia.
  - unfold to_do. destruct (receiver x) eqn:Es; simpl in *; unfold get_recv_index, write_sta, slot in Ht; simpl in *;
      repeat case_match; unfold mret, outcome_ret in *; simplify_eq/=; lia.
  - unfold to_do. destruct (caller x) eqn:Es; simpl in *; unfold get_call_index, slot in Ht; simpl in *;
      repeat case_match; unfold mret, outcome_ret in *; simplify_eq/=; lia.
Qed.

Lemma answered_ends x : sn answered_to x.
Proof.
  remember (to_do x) as k eqn:Hk. revert x Hk. induction (lt_wf k) as [k _ IH]. intros x ->.
  constructor. intros x' Hx'. eapply IH; [by apply answered_less|done].
Qed.

(** A schedule of good steps is a run. *)
Definition good_event (e : event) : bool := match e with Good | More => true | _ => false end.

Lemma good_schedule ts x x' :
  forallb (λ p, good_event p.2) ts = true → run_schedule ts x = Some (Done x') → rtc good_to x x'.
Proof.
  revert x. induction ts as [|[t e] ts IH]; simpl; intros x Hg Hr; [simplify_eq; apply rtc_refl|].
  apply andb_true_iff in Hg as [He Hg]. destruct (step t e x) as [[x1| |]|] eqn:Hs; try done.
  eapply rtc_l; [|by apply IH]. apply (good_by _ _ t e); [|done]. destruct e; naive_solver.
Qed.

(** ** The theorems *)

(** C5: while there is memory and the connection holds, in every interleaving
    of [n] clients with the sender, the receiver and the caller: the callbacks
    run in the order the queries took their slots and the requests go out in
    that order, no query twice; at most ten queries are accepted and not yet
    called back; the slots the threads have, from taking them to handing them
    on, are slots of the array and no two are the same, and a step writes to
    no slot but one its thread has, except that the sender writes the mark 2
    into [sta_] of the slot it has just handed on; no step leaves the array. *)
Theorem ring_serves (n : nat) (x : ring) :
  rtc good_to (start n) x →
  called x `prefix_of` sent x ∧ sent x `prefix_of` accepted x ∧ NoDup (accepted x) ∧
  (length (accepted x) <= length (called x) + 10)%nat ∧
  NoDup (held x) ∧ Forall (λ i, 0 <= i < 10) (held x) ∧
  (∀ t e x', step t e x = Some (Done x') → writes_own t x x') ∧
  (∀ t e o, step t e x = Some o → ∃ x', o = Done x').
Proof.
  intros Hx%somewhere_reached. pose proof (held_distinct _ _ Hx) as [Hd Hf].
  split_and!; [| | | |done..|intros; by eapply step_writes|intros; by eapply step_safe];
    destruct Hx as (nI & nS & nR & nK & H); pose proof (calling_le x);
    pose proof (ok_to_send _ _ _ _ _ _ H); pose proof (ok_to_recv _ _ _ _ _ _ H) as Hr;
    pose proof (ok_to_call _ _ _ _ _ _ H); pose proof (ok_free _ _ _ _ _ _ H).
  - rewrite (ok_called _ _ _ _ _ _ H), (ok_sent _ _ _ _ _ _ H). apply prefix_take_le.
    unfold sending. destruct (sender x); simpl in Hr; lia.
  - rewrite (ok_sent _ _ _ _ _ _ H). apply prefix_take.
  - exact (ok_once _ _ _ _ _ _ H).
  - rewrite (ok_called _ _ _ _ _ _ H), length_take, (ok_accepted _ _ _ _ _ _ H). lia.
Qed.

(** C13: no query is left waiting: from every state of such a run, whatever the
    threads still do, once the answers come without delay they stop after
    finitely many steps, and where they stop every one of the [n] queries was
    accepted and called back, once, and every client has returned 0. *)
Theorem ring_answers (n : nat) (x : ring) :
  rtc good_to (start n) x →
  sn answered_to x ∧
  ∀ x', rtc answered_to x x' → nf answered_to x' →
        called x' = accepted x' ∧ accepted x' ≡ₚ seq 0 n ∧ clients x' = replicate n (CReturn 0).
Proof.
  intros Hx. split; [apply answered_ends|]. intros x' Hx' Hnf. apply stuck_done; [|done].
  apply somewhere_reached. etrans; [done|]. eapply rtc_subrel; [|done]. apply answered_good.
Qed.

(** ** The ring of slots: runs

    The theorems of EsRingSpec at a run, and what happens in runs that are not
    good ones: the connection is renewed or memory is short. *)

(** [k] good steps of a thread. *)
Definition steps (t : tid) (k : nat) : list (tid * event) := replicate k (t, Good).
(** Two clients are served; the second waits for the mutex of the first. *)
Definition served : list (tid * event) :=
  steps (Client 1) 4 ++ steps Sender 3 ++ steps (Client 1) 1 ++ steps Receiver 1 ++ [(Receiver, More)]
  ++ steps (Client 0) 3 ++ steps Receiver 3 ++ steps Caller 3 ++ steps (Client 0) 2 ++ steps Sender 5
  ++ steps Caller 1 ++ steps Receiver 4 ++ steps Caller 4.

Lemma ring_serves_witness :
  rtc good_to (start 2) (final (take 17 served) (start 2)) ∧
  (λ x, (accepted x, sent x, called x, held x)) (final (take 17 served) (start 2)) = ([1; 0]%nat, [1]%nat, [], [1; 0]) ∧
  (length (accepted (final (take 17 served) (start 2))) <= length (called (final (take 17 served) (start 2))) + 10)%nat.
Proof.
  assert (rtc good_to (start 2) (final (take 17 served) (start 2))) as Hx
    by (apply (good_schedule (take 17 served)); vm_compute; reflexivity).
  split; [exact Hx|]. split; [vm_compute; reflexivity|].
  destruct (ring_serves 2 _ Hx) as (_ & _ & _ & H & _). exact H.
Defined.

Lemma ring_answers_witness :
  rtc good_to (start 2) (start 2) ∧
  (∃ x', final served (start 2) = x' ∧ called x' = [1; 0]%nat ∧ clients x' = [CReturn 0; CReturn 0]) ∧
  sn answered_to (start 2).
Proof.
  split; [apply rtc_refl|]. split; [eexists; vm_compute; split_and!; reflexivity|].
  destruct (ring_answers 2 (start 2) (rtc_refl _ _)) as [H _]. exact H.
Defined.

(** ** When the connection is renewed *)

(** The connection was renewed instead of sending: the request is not sent
    again, and its slot is not handed on.  The answer to the next query goes to
    the callback of the one that was not sent, and the next waits for ever. *)
Definition renewed : list (tid * event) :=
  steps (Client 0) 5 ++ steps (Client 1) 5 ++ steps Sender 1 ++ [(Sender, Renewed)] ++ steps Sender 4
  ++ steps Receiver 4 ++ steps Caller 4.
Theorem renewed_send_loses_request :
  let x := final renewed (start 2) in
  accepted x = [0; 1]%nat ∧ sent x = [1]%nat ∧ called x = [0]%nat ∧
  Forall (λ t, step t Good x = None) [Client 0; Client 1; Sender; Receiver; Caller].
Proof. vm_compute. repeat constructor. Qed.

(** The connection was renewed instead of receiving: [ret] is 0 then, and the
    loop hands the slot on as if its answer had come. *)
Theorem renewed_receive_calls_back x : step Receiver Renewed x = step Receiver Good x.
Proof. simpl. by destruct (receiver x). Qed.

(** ** When memory is short *)

(** A query that fails in slot 9 leaves the index at -1 (it had gone round to
    0); the next query returns -2 with the mutex locked, and no query after it
    ever returns. *)
Definition failed : list (tid * event) :=
  concat ((λ n, steps (Client n) 5) <$> seq 0 9) ++ steps (Client 9) 2 ++ [(Client 9, NoMemory)] ++ steps (Client 9) 2
  ++ steps (Client 10) 2.
Theorem failed_query_locks_the_client :
  let x := final failed (start 12) in
  clients x !! 10%nat = Some (CReturn (-2)) ∧ asyn_mutex x = Some 10%nat ∧ insert_index x = 0 ∧
  clients x !! 11%nat = Some CLock ∧ step (Client 11) Good x = None.
Proof. vm_compute. repeat constructor. Qed.

(** ** The state of a slot *)

(** The sender marks its slot sent after it handed it on: the answer may have
    come, the callback may have run and the slot may be free by then, and the
    mark stays ([es_server_destroy] waits for such a slot). *)
Definition late : list (tid * event) :=
  steps (Client 0) 5 ++ steps Sender 3 ++ steps Receiver 4 ++ steps Caller 4 ++ steps Sender 1.
Theorem late_mark_on_a_free_slot :
  let x := final late (start 1) in
  called x = [0]%nat ∧ free_num x = 10%nat ∧ held x = [] ∧ stas x !! 0%nat = Some 2.
Proof. vm_compute. repeat constructor. Qed.
