(* ===== verification/EsBlock.v ===== *)
(** * Elasticsearch client: start, end, test query, blocking query
    (module_function/es_http_api.c)

    [es_server_init] up to its threads, the end of the client and the request
    text of [es_server_query]; then the blocking query. *)

From S2P Require Import Prelude CString FrameTool PsText PsList KeyValue EsData EsHead EsJson EsHeadSpec EsJsonSpec EsJsonText EsRecv EsRecvSpec EsFindings EsRequest.
From stdpp Require Import list strings.
From stdpp Require Import gmap strings.

Open Scope Z_scope.

(** ** [es_server_init] *)

(** What the system gives: the two sockets, the two connections, the pools. *)
Record start_up := StartUp { fd_ : Z; fd_b : Z; connect_ : Z; connect_b : Z; pool_made : nat → bool }.

Fixpoint create_pools (n i : nat) (made : nat → bool) : bool :=
  match n with O => true | S n' => if made i then create_pools n' (S i) made else false end.

(** [ip_addr] has 16 bytes and is cleared before; the last line of the function
    is no [return]. *)
Definition es_server_init (ip_str : text) (u : start_up) (no_ret : Z) : outcome (Z * list Z) :=
  let ip_addr := replicate 16 0 in
  match ip_str with
  | None => Done (-1, ip_addr)
  | Some b =>
      if fd_ u <? 0 then Done (fd_ u, ip_addr)
      else if fd_b u <? 0 then Done (fd_b u, ip_addr)
      else
        n ← frame_strlen ip_str; t ← mem_read b n; ip_addr ← mem_write ip_addr 0 t;
        if connect_ u <? 0 then mret (connect_ u, ip_addr)
        else if connect_b u <? 0 then mret (connect_b u, ip_addr)
        else if create_pools ES_RESPOND_ARRAY_ALL_LEN 0 (pool_made u) then mret (no_ret, ip_addr)
        else mret (-1, ip_addr)
  end.

(** ** [es_server_destroy] *)

(** The loop at slot [i]: [sta k i] is the state of the slot that the [k]-th
    look finds (other threads change it), [mem i] whether it has a pool.  The
    seconds slept, the pools destroyed and the number of looks. *)
Fixpoint destroy_loop (fuel k i error_time : nat) (sta : nat → nat → Z) (mem : nat → bool) (slept : nat) (destroyed : list nat)
  : outcome (nat * list nat * nat) :=
  if (i <? ES_RESPOND_ARRAY_ALL_LEN)%nat then
    match fuel with
    | O => NoFuel
    | S f =>
        if negb (sta k i =? 0) && (error_time <? 5)%nat then destroy_loop f (S k) i (S error_time) sta mem (S slept) destroyed
        else destroy_loop f (S k) (S i) 0 sta mem slept (if mem i then destroyed ++ [i] else destroyed)
    end
  else Done (slept, destroyed, k).
Definition es_server_destroy (sta : nat → nat → Z) (mem : nat → bool) : outcome (nat * list nat * nat) :=
  destroy_loop (6 * ES_RESPOND_ARRAY_ALL_LEN) 0 0 0 sta mem 0 [].

Lemma destroy_loop_ends sta mem : ∀ fuel k i e slept destroyed,
  (e <= 5)%nat → (i <= ES_RESPOND_ARRAY_ALL_LEN)%nat → (6 * (ES_RESPOND_ARRAY_ALL_LEN - i) <= fuel + e)%nat →
  ∃ slept' k', destroy_loop fuel k i e sta mem slept destroyed =
      Done (slept', destroyed ++ filter (λ j, mem j = true) (seq i (ES_RESPOND_ARRAY_ALL_LEN - i)), k') ∧
    (slept <= slept' <= slept + 5 * (ES_RESPOND_ARRAY_ALL_LEN - i) )%nat ∧
    ((∀ k j, sta k j = 0) → slept' = slept) ∧ (slept' + e <= slept + 5 * (ES_RESPOND_ARRAY_ALL_LEN - i) ∨ i = ES_RESPOND_ARRAY_ALL_LEN)%nat.
Proof.
  induction fuel as [|fuel IH]; intros k i e slept destroyed He Hi Hf; cbn [destroy_loop];
    destruct (Nat.ltb_spec i ES_RESPOND_ARRAY_ALL_LEN) as [Hlt|Hge].
  - lia.
  - replace (ES_RESPOND_ARRAY_ALL_LEN - i)%nat with 0%nat by lia. exists slept, k. rewrite app_nil_r. split; [done|]. split; [lia|]. split; [done|]. right. lia.
  - destruct (negb (sta k i =? 0) && (e <? 5)%nat) eqn:Ew.
    + apply andb_true_iff in Ew as [Hs Hw%Nat.ltb_lt]. 
      destruct (IH (S k) i (S e) (S slept) destroyed) as (slept' & k' & E & Hb & Hz & Hc); [lia|lia|lia|].
      exists slept', k'. split; [done|]. split; [lia|]. split; [|lia]. intros H0. rewrite H0 in Hs. done.
    + destruct (IH (S k) (S i) 0%nat slept (if mem i then destroyed ++ [i] else destroyed)) as (slept' & k' & E & Hb & Hz & Hc); [lia|lia|lia|].
      exists slept', k'. rewrite E. split.
      * replace (ES_RESPOND_ARRAY_ALL_LEN - i)%nat with (S (ES_RESPOND_ARRAY_ALL_LEN - S i)) by lia. cbn [seq].
        rewrite filter_cons. destruct (mem i); [rewrite decide_True by done|by rewrite decide_False by done].
        by rewrite <- app_assoc.
      * split; [lia|]. split; [done|]. lia.
  - replace (ES_RESPOND_ARRAY_ALL_LEN - i)%nat with 0%nat by lia. exists slept, k. rewrite app_nil_r. split; [done|]. split; [lia|]. split; [done|]. right. lia.
Qed.

(** The end of the client comes, whatever the other threads do with the slots
    meanwhile: after at most five seconds for each of the eleven slots every
    pool is destroyed, each once and in order; without work in progress it does
    not wait at all. *)
Theorem es_server_destroy_ends sta mem :
  ∃ slept looks, es_server_destroy sta mem = Done (slept, filter (λ j, mem j = true) (seq 0 11), looks) ∧ (slept <= 55)%nat ∧
    ((∀ k j, sta k j = 0) → slept = 0%nat).
Proof.
  destruct (destroy_loop_ends sta mem (6 * ES_RESPOND_ARRAY_ALL_LEN) 0 0 0 0 []) as (slept & k & E & Hb & Hz & _); [lia..|].
  exists slept, k. split; [exact E|]. split; [unfold ES_RESPOND_ARRAY_ALL_LEN, ES_RESPOND_ARRAY_LEN in *; lia|done].
Qed.

(** ** [es_server_query] *)

(** The four texts, with or without a query and a body. *)
Definition query_text (verb : VERB_METHOD) (path : list Z) (query body : option (list Z)) (type : PROTOCOL_TYPE) (ip : list Z) (port : Z)
  : list Z :=
  verb_str_arr verb ++ bytes " " ++ path ++ (match query with Some q => bytes "?" ++ q | None => [] end) ++ bytes " " ++ protocol_str type ++ crlf ++
  bytes "User-Agent: ES-HTTP-API" ++ crlf ++
  bytes "Content-type: application/json;charset=UTF-8" ++ crlf ++
  bytes "Host: " ++ ip ++ bytes ":" ++ dec port ++ crlf ++
  bytes "Accept: text/html, application/json, image/gif, image/jpeg, *; q=.2, *//*; q=.2" ++ crlf ++
  bytes "Connection: keep-alive" ++ crlf ++
  bytes "Content-Length: " ++ dec (match body with Some b => Z.of_nat (length b) | None => 0 end) ++ crlf ++ crlf ++
  default [] body.

(** [sprintf] into [buff]. *)
Definition query_buffer (verb : VERB_METHOD) (path query body : text) (type : PROTOCOL_TYPE) (ip : list Z) (port : Z) : outcome (option (list Z)) :=
  match path with
  | None => Done None
  | Some _ =>
      p ← fmt_s path; i ← c_str ip;
      q ← match query with Some _ => q ← fmt_s query; mret (Some q) | None => mret None end;
      b ← match body with Some _ => b ← fmt_s body; mret (Some b) | None => mret None end;
      buff ← mem_write (replicate (Z.to_nat SOCKET_BUFF_LEN) 0) 0 (query_text verb p q b type i port ++ [0]);
      mret (Some buff)
  end.

(** ** What goes wrong *)

(** The result of a successful start is indeterminate. *)
Theorem init_result_is_indeterminate no_ret :
  es_server_init (Some (c_lit "10.0.0.9")) (StartUp 3 4 0 0 (λ _, true)) no_ret = Done (no_ret, bytes "10.0.0.9" ++ replicate 8 0).
Proof. reflexivity. Qed.

(** An address of 16 bytes fills [ip_addr] and has no end there; a longer one is
    written past it. *)
Theorem long_address_overflows :
  es_server_init (Some (replicate 17 49 ++ [0])) (StartUp 3 4 0 0 (λ _, true)) 0 = Fault OutOfBounds ∧
  (∃ a, es_server_init (Some (replicate 16 49 ++ [0])) (StartUp 3 4 0 0 (λ _, true)) 0 = Done (0, a) ∧ c_str a = Fault OutOfBounds).
Proof. split; [reflexivity|]. eexists. split; reflexivity. Qed.

(** A body of 800 bytes does not fit into the 1024 bytes of the test query. *)
Theorem long_query_overflows :
  query_buffer POST_METHOD (Some (c_lit "/books/_search")) None (Some (replicate 800 97 ++ [0])) HTTP (c_lit "10.0.0.9") 9200
    = Fault OutOfBounds.
Proof. vm_compute. reflexivity. Qed.

(** ** Elasticsearch client: the blocking query (module_function/es_http_api.c)

    [es_query_block] does in one thread what the ring does in three: it fills
    the last slot, sends, and receives until the answer is complete.  Its
    mutex stays locked until [release_es_respond] empties the slot. *)

(** What [tcp_client_recv] gives: a packet, nothing yet, or the end of the
    connection, which [es_server_connect] renews or not. *)
Inductive recv_event := Packet (r : list Z) | NothingYet | Closed (renewed : bool).

Section block.
Context {P : Type} `{EsPool P}.

(** [bloc_mutex] and the last slot. *)
Record blocking := Blocking { bloc_mutex : bool; slot_ : ana P }.

(** From [send:] on: every time nothing was sent the connection is renewed or not. *)
Fixpoint block_send (renewals : list bool) : bool :=
  match renewals with [] => true | b :: rest => if b then block_send rest else false end.

(** From [recv:] on.  [None]: it waits. *)
Fixpoint block_recv (events : list recv_event) (an_buf : list Z) (s : ana P) : outcome (option bool * ana P) :=
  match events with
  | [] => Done (None, s)
  | NothingYet :: rest | Closed true :: rest => block_recv rest an_buf s
  | Closed false :: _ => Done (Some false, s)
  | Packet r :: rest =>
      '(ret, an_buf, s) ← recv_packet an_buf r s;
      if block_goes_on ret then block_recv rest an_buf s else Done (Some true, s)
  end.

(** [Some true]: the slot is returned; [Some false]: NULL; [None]: the thread
    waits, for the mutex or for the server. *)
Definition es_query_block (is_run : bool) (req : ES_REQUEST) (ip : list Z) (port_ : Z) (renewals : list bool)
    (events : list recv_event) (x : blocking) : outcome (option bool * blocking) :=
  match path_str req, is_run with
  | Some _, true =>
      if bloc_mutex x then Done (None, x)
      else
        '(filled, s) ← fill_block_slot req ip port_ (slot_ x);
        match filled with
        | inr _ => Done (Some false, Blocking true s)
        | inl _ =>
            if block_send renewals then
              '(r, s) ← block_recv events (buf []) s; mret (r, Blocking true s)
            else Done (Some false, Blocking true s)
        end
  | _, _ => Done (Some false, x)
  end.

(** While the client runs: after [es_server_destroy] the pool goes as well. *)
Definition release_es_respond (x : blocking) : outcome blocking :=
  '(_, s) ← clear_slot (slot_ x); mret (Blocking false s).

Lemma block_send_ok renewals : Forall (λ b, b = true) renewals → block_send renewals = true.
Proof. by induction 1 as [|b bs ->]. Qed.

(** ** An answer *)

(** Waiting and renewed connections between the packets change nothing. *)
Inductive delivers : list recv_event → list (list Z) → Prop :=
  | delivers_end : delivers [] []
  | delivers_wait es ps : delivers es ps → delivers (NothingYet :: es) ps
  | delivers_renewed es ps : delivers es ps → delivers (Closed true :: es) ps
  | delivers_packet r es ps : delivers es ps → delivers (Packet r :: es) (r :: ps).

Lemma block_recv_packets es ps : delivers es ps → ∀ an_buf s ret an_buf' s',
  recv_packets block_goes_on ps an_buf s = Done (Some (ret, []), an_buf', s') → block_recv es an_buf s = Done (Some true, s').
Proof.
  induction 1 as [|es ps _ IH|es ps _ IH|r es ps Hd IH]; intros an_buf s ret an_buf' s' E; cbn [block_recv recv_packets] in *; [done|by eapply IH..|].
  apply bind_inv in E as ([[z b1] s1] & -> & E). cbn [mbind outcome_bind]. destruct (block_goes_on z); [by eapply IH|].
  by injection E as _ _ _ <-.
Qed.

Lemma fill_block_slot_ok v pb path qb query bb body ib ip port_ (s : ana P) :
  c_str pb = Done path → own_copy qb query → c_str bb = Done body → c_str ib = Done ip → 0 < port_ →
  (length (with_query (bytes "/") path query) < 1024)%nat → fed s →
  Z.of_nat (length (es_message_text (verb_str_arr v) (with_query (bytes "/") path query) ip port_ body)) + 1024 <= int_max →
  ∃ s' b, fill_block_slot (EsRequest (Some pb) qb (Some bb) v) ib port_ s = Done (inl tt, s') ∧
    a_res s' = set_req_buf (Some b) (a_res s) ∧ a_kv s' = a_kv s ∧ a_obj s' = a_obj s ∧ fed s' ∧
    c_str b = Done (es_message_text (verb_str_arr v) (with_query (bytes "/") path query) ip port_ body).
Proof.
  intros Hp Hq Hb Hi Hport Hlen Hs Hmax. set (full := with_query (bytes "/") path query) in *.
  destruct (path_text_ok (bytes "/") v pb path qb query (Some bb)) as (fb & Efb & Hfb & _); [done|done|by repeat constructor|done|].
  fold full in Hfb.
  assert (wp (fill_block_slot (EsRequest (Some pb) qb (Some bb) v) ib port_) s (λ r s', r = inl tt ∧ ∃ b,
    a_res s' = set_req_buf (Some b) (a_res s) ∧ a_kv s' = a_kv s ∧ a_obj s' = a_obj s ∧ fed s' ∧
    c_str b = Done (es_message_text (verb_str_arr v) full ip port_ body))) as (r & s' & E & -> & b & HQ); [|by exists s', b].
  unfold fill_block_slot. cbn [body_str verb default from_option id].
  wp_step. wp_step; [exact Efb|]. destruct (verb_short v) as [Hv1 Hv2].
  apply (request_loop_wp _ (verb_str_arr v) _ full _ body _ ip); [by apply c_str_app|done|done|done|lia|lia|done|lia| |by right|done|].
  { pose proof (message_length (verb_str_arr v) full ip port_ body) as Hml.
    pose proof (c_str_length _ _ Hfb). pose proof (c_str_length _ _ Hb). pose proof (c_str_length _ _ Hi). unfold request_fuel. lia. }
  intros s' b H1 H2 H3 H4 H5. split; [done|]. by exists b.
Qed.
End block.

(** A blocking query with a free mutex, a path and a body that the client
    can send, and an answer that arrives as EsRecvSpec asks (with waits and renewed
    connections in between): the slot holds the request that was sent, and is
    returned with the complete answer; no other blocking query starts until it
    is released, and then the slot is empty and its mutex free. *)
Theorem es_query_block_answers `{EsPool P} v pb path qb query bb body ib ip port_ renewals events packets
    h n o hs closing (s : ana P) :
  c_str pb = Done path → own_copy qb query → c_str bb = Done body → c_str ib = Done ip → 0 < port_ →
  (length (with_query (bytes "/") path query) < 1024)%nat → idle s →
  Forall (λ b, b = true) renewals → delivers events packets →
  answer_head h n → open_ok o → body_ok hs closing → nonzero (render_head h ++ open_text o) →
  find_sub http_str (open_text o ++ render_hits hs ++ closing) = None →
  packets_of (render_head h ++ open_text o) (render_hits hs) closing packets →
  Forall (λ r : list Z, length r ≤ 1023)%nat packets →
  Z.of_nat (length (es_message_text (verb_str_arr v) (with_query (bytes "/") path query) ip port_ body)) + 1024 <= int_max →
  let req := EsRequest (Some pb) qb (Some bb) v in
  ∃ s1 b s' hd outer L x',
    fill_block_slot req ib port_ s = Done (inl tt, s1) ∧ req_buf (a_res s1) = Some b ∧
    c_str b = Done (es_message_text (verb_str_arr v) (with_query (bytes "/") path query) ip port_ body) ∧
    es_query_block true req ib port_ renewals events (Blocking false s) = Done (Some true, Blocking true s') ∧
    http (a_res s') = Some (HttpHead (copied (t_ver h)) (copied (t_note h)) (t_code h) n hd) ∧
    s_total <$> search (a_res s') = Some (p_total o) ∧
    hits_rep s' hd outer L ∧ hit_of <$> L = hit_kept <$> hs ∧
    (∀ req' ib' events', path_str req' ≠ None →
       es_query_block true req' ib' port_ [] events' (Blocking true s') = Done (None, Blocking true s')) ∧
    release_es_respond (Blocking true s') = Done x' ∧ bloc_mutex x' = false ∧ a_res (slot_ x') = empty_respond.
Proof.
  intros Hp Hq Hb Hi Hport Hl Hs Hren Hdel Hh Ho Hbody Hz Hno Hpk Hlen Hmax req. pose proof Hs as [I1 I2 I3 I4].
  destruct (fill_block_slot_ok v pb path qb query bb body ib ip port_ s) as (s1 & b & Ef & Hr & Hkv & Hobj & Hf & Hbuf); [done..|].
  assert (idle s1) as Hs1 by (by split; [rewrite Hr..|]).
  destruct (packets_answer block_goes_on h n o hs closing packets s1) as (s' & hd & outer & L & Er & H1 & H2 & H3 & H4 & H5 & H6 & [Hgood _]); [done..|].
  destruct (pool_reset_ok (a_pool s') Hgood) as (pl & Epl & _).
  exists s1, b, s', hd, outer, L, (Blocking false (set_pool pl (set_res empty_respond s'))).
  split; [done|]. split; [by rewrite Hr|]. split; [done|]. split.
  { unfold es_query_block, req. cbn [path_str bloc_mutex slot_]. rewrite Ef. cbn [mbind outcome_bind].
    rewrite block_send_ok by done. by erewrite block_recv_packets. }
  split; [done|]. split; [done|]. split; [done|]. split; [done|]. split.
  { intros req' ib' events' Hpath. unfold es_query_block. by destruct (path_str req'). }
  unfold release_es_respond, clear_slot, ebind, upd_res, upd. cbn. by rewrite Epl.
Qed.

(** ** Examples *)

(** The answer of EsFindings.v, the connection renewed before its second packet. *)
Definition sample_events : list recv_event :=
  match sample_packets with [a; b] => [NothingYet; Packet a; Closed true; NothingYet; Packet b] | _ => [] end.

Lemma es_query_block_answers_witness : ∃ s' hd outer L,
  es_query_block true (sample_query (Some (c_lit "{}"))) (c_lit "10.0.0.9") 9200 [true] sample_events (Blocking false (fresh_answer 7))
    = Done (Some true, Blocking true s') ∧
  s_total <$> search (a_res s') = Some 2 ∧ hits_rep s' hd outer L ∧ hit_of <$> L = hit_kept <$> sample_hits.
Proof.
  destruct sample_packets_ok as (Hp & Hl & Hz & Hn).
  assert (delivers sample_events sample_packets) as Hd by (repeat constructor).
  assert (Forall (λ b, b = true) [true]) as Hr by (repeat constructor).
  destruct (es_query_block_answers POST_METHOD (c_lit "/books/_search") (bytes "/books/_search") (Some (c_lit "?size=2"))
    (Some (bytes "?size=2")) (c_lit "{}") (bytes "{}") (c_lit "10.0.0.9") (bytes "10.0.0.9") 9200 [true] sample_events sample_packets
    (sample_head "150") 150 sample_open sample_hits sample_closing (fresh_answer 7) eq_refl eq_refl eq_refl eq_refl eq_refl
    ltac:(cbn; lia) (fresh_idle 7) Hr Hd sample_answer_head sample_open_ok sample_body_ok Hz Hn Hp Hl
    ltac:(vm_compute; discriminate))
    as (s1 & b & s' & hd & outer & L & x & _ & _ & _ & E & _ & H1 & H2 & H3 & _).
  exists s', hd, outer, L. split; [exact E|]. split; [exact H1|]. split; [exact H2|exact H3].
Defined.

(** When the connection is lost or the request does not fit into the pool, NULL
    is returned with the mutex locked: the next blocking query waits for
    ever, unless the caller releases a slot it was not given. *)
Theorem failed_block_query_keeps_mutex : ∃ x,
  es_query_block true (sample_query (Some (c_lit "{}"))) (c_lit "10.0.0.9") 9200 [false] [] (Blocking false (idle_slot 7)) = Done (Some false, x) ∧
  ∀ req events, path_str req ≠ None → es_query_block true req (c_lit "10.0.0.9") 9200 [] events x = Done (None, x).
Proof.
  eexists. split; [vm_compute; reflexivity|]. intros req events Hp. unfold es_query_block. cbn [bloc_mutex].
  by destruct (path_str req).
Qed.

(** The blocking query joins path and query with a slash, the other one with
    nothing: the same request goes to two addresses. *)
Theorem query_joined_in_two_ways : ∃ s1 s2 b1 b2,
  fill_slot (sample_query (Some (c_lit "{}"))) 5 (c_lit "10.0.0.9") 9200 (idle_slot 7) = Done (inl tt, s1) ∧ req_buf (a_res s1) = Some b1 ∧
  fill_block_slot (sample_query (Some (c_lit "{}"))) (c_lit "10.0.0.9") 9200 (idle_slot 7) = Done (inl tt, s2) ∧ req_buf (a_res s2) = Some b2 ∧
  take 33 b1 = bytes "POST /books/_search?size=2 HTTP/1" ∧ take 34 b2 = bytes "POST /books/_search/?size=2 HTTP/1".
Proof. do 4 eexists. vm_compute. repeat split; reflexivity. Qed.
