(* ===== verification/FtpListing.v ===== *)
(** * FTP client: reading a directory listing
    (module_function/ftp_curl_operation.c)

    libcurl hands the listing over in pieces; the callback puts the lines
    together in [file_name_buff] and calls the user's function with the name
    and the size of every entry.  The bytes of a piece that the code reads past
    what libcurl passes are part of the model: the callback takes the piece for a
    C string.  The second part is the specification of a listing. *)

From S2P Require Import Prelude CString FrameTool PsText.

Open Scope Z_scope.

Inductive FILE_NAME_MODE := FILE_MODE | FOLDER_MODE.

Definition BUFF_INCREASE_NUM_BASE : nat := 1024.

(** ** One line *)

(** [*pp > 0] for a signed [char]. *)
Definition positive_char (c : Z) : bool := (0 <? c) && (c <? 128).

(** The variables of the loop of [find_file_name_point]. *)
Record line_scan := LineScan {
  file_flag : bool; sapce_flag : bool; space_num : Z; p_size : option nat; file_size : Z;
}.

(** [file_size_len = pp - p_size; if (file_size_len < 16) ...]: the bytes go
    into a zeroed buffer of 16, then through [atoi]. *)
Definition size_field (file_line : list Z) (pp : nat) (p_size : option nat) (file_size : Z) : outcome Z :=
  match p_size with
  | Some p => let len := (pp - p)%nat in
              if (len <? 16)%nat then
                b ← mem_read (drop p file_line) (Z.of_nat len);
                c_str (b ++ replicate (16 - len) 0) ≫= atoi
              else mret file_size
  | None => mret file_size
  end.

(** The loop at [pp], the bytes [rest] being what is readable there. *)
Fixpoint name_loop (file_line rest : list Z) (pp : nat) (key_byte : Z) (s : line_scan) : outcome (option nat * Z) :=
  match rest with
  | [] => Fault OutOfBounds
  | c :: rest' =>
      if negb (positive_char c) then Done (None, file_size s)
      else if negb (file_flag s) then
        if c =? key_byte
        then name_loop file_line rest' (S pp) key_byte (LineScan true (sapce_flag s) (space_num s) (p_size s) (file_size s))
        else Done (None, file_size s)
      else if c =? 32 then
        if negb (sapce_flag s) then
          let n := space_num s + 1 in
          size ← (if n =? 5 then size_field file_line pp (p_size s) (file_size s) else mret (file_size s));
          name_loop file_line rest' (S pp) key_byte (LineScan true true n (p_size s) size)
        else name_loop file_line rest' (S pp) key_byte s
      else
        let p := if (space_num s =? 4) && negb (if p_size s then true else false) then Some pp else p_size s in
        if space_num s =? 8 then Done (Some pp, file_size s)
        else name_loop file_line rest' (S pp) key_byte (LineScan true false (space_num s) p (file_size s))
  end.

(** The offset of the name, and [*file_size]. *)
Definition find_file_name_point (file_line : list Z) (key_byte size : Z) : outcome (option nat * Z) :=
  n ← frame_strlen (Some file_line);
  if n <=? 49 then mret (None, size)
  else name_loop file_line file_line 0 key_byte (LineScan false false 0 None size).

(** ** The pieces of a listing *)

(** A call of the user's function. *)
Definition call : Type := list Z * Z * FILE_NAME_MODE.

(** The line in [file_name_buff] is a folder, a file or neither. *)
Definition report_line (file_name_buff : list Z) (size : Z) : outcome (list call * Z) :=
  '(pp, size) ← find_file_name_point file_name_buff 100 size;
  match pp with
  | Some p => name ← c_str (drop p file_name_buff); mret ([(name, size, FOLDER_MODE)], size)
  | None =>
      '(pp, size) ← find_file_name_point file_name_buff 45 size;
      match pp with
      | Some p => name ← c_str (drop p file_name_buff); mret ([(name, size, FILE_MODE)], size)
      | None => mret ([], size)
      end
  end.

(** [while ( *pp) pp++; memcpy(pp, p1, file_name_len);] *)
Definition append_to_line (file_name_buff piece : list Z) : outcome (list Z) :=
  n ← str_scan_len file_name_buff; mem_write file_name_buff n piece.

Definition zeroed : list Z := replicate BUFF_INCREASE_NUM_BASE 0.

(** The loop of the callback at [p1]. *)
Fixpoint lines_loop (fuel : nat) (p1 file_name_buff : list Z) (size : Z) (calls : list call)
  : outcome (list Z * list call) :=
  match fuel with
  | O => NoFuel
  | S fuel' =>
      p ← str_scan_chr p1 10 0;
      match p with
      | Some n =>
          piece ← mem_read p1 (Z.of_nat n);
          line ← append_to_line file_name_buff piece;
          '(new, size) ← report_line line size;
          lines_loop fuel' (drop (S n) p1) zeroed size (calls ++ new)
      | None =>
          n ← str_scan_len p1;
          _ ← str_scan_len file_name_buff;
          if (1 <=? n)%nat then
            piece ← mem_read p1 (Z.of_nat n);
            line ← append_to_line file_name_buff piece;
            mret (line, calls)
          else mret (file_name_buff, calls)
      end
  end.

(** The new [file_name_buff], the calls made and the result. *)
Definition curl_ftp_scanfile_callback (malloc_ok : bool) (buffer : list Z) (size nmemb : Z) (file_name_buff : option (list Z))
  : outcome (option (list Z) * list call * Z) :=
  match (match file_name_buff with Some b => Some b | None => if malloc_ok then Some zeroed else None end) with
  | None => Done (None, [], size * nmemb)
  | Some b => '(b, calls) ← lines_loop (S (length buffer)) buffer b 0 []; mret (Some b, calls, size * nmemb)
  end.

(** The calls of libcurl during one transfer. *)
Fixpoint scan_pieces (malloc_ok : nat → bool) (k : nat) (pieces : list (list Z * Z)) (file_name_buff : option (list Z))
  : outcome (option (list Z) * list call) :=
  match pieces with
  | [] => Done (file_name_buff, [])
  | (buffer, n) :: pieces' =>
      '(b, calls, _) ← curl_ftp_scanfile_callback (malloc_ok k) buffer 1 n file_name_buff;
      '(b, calls') ← scan_pieces malloc_ok (S k) pieces' b;
      mret (b, calls ++ calls')
  end.

(** The end of [scan_curl_ftp_folder]: the line that no newline ended. *)
Definition last_line (file_name_buff : option (list Z)) : outcome (option (list Z) * list call) :=
  match file_name_buff with
  | None => Done (None, [])
  | Some b => '(calls, _) ← report_line b 0; mret (Some zeroed, calls)
  end.

(** ** FTP client: the entries of a listing, however it is cut

    A listing of entries written the way [ls -l] does is reported entry by
    entry, with names, sizes and kinds, for every way libcurl cuts it in
    pieces. *)

(** ** A line of [ls -l] *)

Definition word (w : list Z) : Prop := w ≠ [] ∧ Forall (λ c, positive_char c = true ∧ c ≠ 32 ∧ c ≠ 10) w.
#[export] Instance word_dec w : Decision (word w).
Proof. unfold word. apply _. Defined.

(** Kind, rights, links, owner, group, size, month, day and time, with the
    blanks behind each but the kind, and the name. *)
Record entry := Entry {
  kind : FILE_NAME_MODE;
  rights : list Z * nat; links : list Z * nat; owner : list Z * nat; group : list Z * nat;
  e_size : Z * nat; month : list Z * nat; day : list Z * nat; time : list Z * nat;
  name : list Z;
}.

Definition key_of (k : FILE_NAME_MODE) : Z := match k with FOLDER_MODE => 100 | FILE_MODE => 45 end.
Definition spread (f : list Z * nat) : list Z := f.1 ++ replicate (S f.2) 32.
Definition entry_head (e : entry) : list Z :=
  key_of (kind e) :: spread (rights e) ++ spread (links e) ++ spread (owner e) ++ spread (group e) ++
  spread (dec (e_size e).1, (e_size e).2) ++ spread (month e) ++ spread (day e) ++ spread (time e).
Definition entry_line (e : entry) : list Z := entry_head e ++ name e.

(** What the reader asks of a line: more than 49 bytes, a size that is an [int],
    a name that starts with an ASCII character. *)
Record entry_ok (e : entry) : Prop := {
  rights_ok : word (rights e).1; links_ok : word (links e).1; owner_ok : word (owner e).1;
  group_ok : word (group e).1; size_ok : 0 <= (e_size e).1 < 2 ^ 31; month_ok : word (month e).1;
  day_ok : word (day e).1; time_ok : word (time e).1;
  name_ok : match name e with c :: n => positive_char c = true ∧ c ≠ 32 ∧ c ≠ 10 ∧ nonzero n ∧ 10 ∉ n | [] => False end;
  line_long : (49 < length (entry_line e))%nat;
}.

(** ** One word and the blanks behind it *)

Lemma loop_word w : Forall (λ c, positive_char c = true ∧ c ≠ 32 ∧ c ≠ 10) w → w ≠ [] → ∀ line rest pp key n p size fl,
  n ≠ 8 →
  name_loop line (w ++ rest) pp key (LineScan true fl n p size) =
  name_loop line rest (pp + length w) key
    (LineScan true false n (if (n =? 4) && negb (if p then true else false) then Some pp else p) size).
Proof.
  intros Hw Hne. destruct w as [|c w]; [done|]. clear Hne.
  revert c Hw. induction w as [|d w IH]; intros c [(Hc & H32 & H10) Hw]%Forall_cons line rest pp key n p size fl Hn;
    rewrite <- app_comm_cons; cbn [name_loop file_flag sapce_flag space_num p_size file_size negb]; rewrite Hc; cbn [negb];
    rewrite (proj2 (Z.eqb_neq _ _) H32), (proj2 (Z.eqb_neq _ _) Hn).
  - cbn [app length]. do 2 f_equal; lia.
  - rewrite IH by done. cbn [length]. f_equal; [lia|]. f_equal. by destruct p, (n =? 4).
Qed.

Lemma loop_blanks g : ∀ line rest pp key n p size,
  name_loop line (replicate (S g) 32 ++ rest) pp key (LineScan true false n p size) =
  size' ← (if n + 1 =? 5 then size_field line pp p size else mret size);
  name_loop line rest (pp + S g) key (LineScan true true (n + 1) p size').
Proof.
  assert (∀ k line rest pp key n p size,
    name_loop line (replicate k 32 ++ rest) pp key (LineScan true true n p size) =
    name_loop line rest (pp + k) key (LineScan true true n p size)) as Hmore.
  { induction k as [|k IH]; intros; [by rewrite Nat.add_0_r|]. cbn [replicate app name_loop]. cbn [file_flag sapce_flag negb].
    change (positive_char 32) with true. change (32 =? 32) with true. cbn [negb].
    rewrite IH. f_equal. lia. }
  intros. cbn [replicate app name_loop]. cbn [file_flag sapce_flag space_num p_size file_size negb].
  change (positive_char 32) with true. change (32 =? 32) with true. cbn [negb].
  destruct (if n + 1 =? 5 then _ else _); cbn [mbind outcome_bind]; [|done..].
  rewrite Hmore. f_equal. lia.
Qed.

Lemma loop_field (f : list Z * nat) line rest pp key n (p : option nat) size fl :
  word f.1 → n ≠ 8 →
  let p' := if (n =? 4) && negb (if p then true else false) then Some pp else p in
  name_loop line (spread f ++ rest) pp key (LineScan true fl n p size) =
  size' ← (if n + 1 =? 5 then size_field line (pp + length f.1) p' size else mret size);
  name_loop line rest (pp + length (spread f)) key (LineScan true true (n + 1) p' size').
Proof.
  intros [Hne Hw] Hn p'. unfold spread. rewrite <- app_assoc, loop_word by done. fold p'.
  rewrite loop_blanks, length_app, length_replicate. cbn [mbind outcome_bind].
  destruct (if n + 1 =? 5 then _ else _); cbn [mbind outcome_bind]; [|done..]. f_equal. lia.
Qed.


Lemma dec_word n : 0 <= n → word (dec n).
Proof.
  intros Hn. split; [apply dec_not_nil|]. eapply Forall_impl; [by apply dec_digits|].
  intros c Hc%is_digit_range. unfold positive_char. split; [bool_lia; done|lia].
Qed.

(** The size is read from the fifth word. *)
Lemma size_field_dec before n after size :
  0 <= n < 2 ^ 31 →
  size_field (before ++ dec n ++ after) (length before + length (dec n)) (Some (length before)) size = Done n.
Proof.
  intros Hn. unfold size_field. pose proof (dec_length n). pose proof (dec_word n ltac:(lia)) as [_ Hw].
  replace (length before + length (dec n) - length before)%nat with (length (dec n)) by lia.
  bool_lia. rewrite drop_app_length, mem_read_ok by (rewrite length_app; lia). cbn [mbind outcome_bind].
  rewrite Nat2Z.id, take_app_length.
  replace (16 - length (dec n))%nat with (S (15 - length (dec n))) by lia. cbn [replicate].
  rewrite c_str_app.
  - cbn [mbind outcome_bind]. rewrite <- (app_nil_r (dec n)). apply atoi_dec; [|done].
    change int_max with 2147483647. lia.
  - eapply Forall_impl; [exact Hw|]. intros c (Hc & _). unfold positive_char in Hc. bool_to_prop. lia.
Qed.

(** ** Reading an entry *)

(** Read the next word; the count of the words is a number. *)
Ltac next_field :=
  rewrite loop_field by done; cbv zeta;
  repeat match goal with |- context [?a + 1] => let b := eval vm_compute in (a + 1) in change (a + 1) with b end;
  repeat match goal with |- context [?a =? ?b] => let c := eval vm_compute in (a =? b) in change (a =? b) with c end;
  cbn [mbind outcome_bind mret outcome_ret andb negb].

Lemma name_loop_entry e r size :
  entry_ok e →
  name_loop (entry_line e ++ r) (entry_line e ++ r) 0 (key_of (kind e)) (LineScan false false 0 None size) =
  Done (Some (length (entry_head e)), (e_size e).1).
Proof.
  intros H. destruct H. pose proof (dec_word (e_size e).1 ltac:(lia)) as Hsize.
  set (line := entry_line e ++ r) at 1.
  unfold entry_line, entry_head. rewrite <- !app_comm_cons. cbn [name_loop file_flag].
  assert (positive_char (key_of (kind e)) = true) as -> by (by destruct (kind e)). cbn [negb]. rewrite Z.eqb_refl.
  cbn [sapce_flag space_num p_size file_size]. rewrite <- !app_assoc.
  do 4 next_field.
  set (before := key_of (kind e) :: spread (rights e) ++ spread (links e) ++ spread (owner e) ++ spread (group e)).
  set (after := replicate (S (e_size e).2) 32 ++ spread (month e) ++ spread (day e) ++ spread (time e) ++ name e ++ r).
  assert (line = before ++ dec (e_size e).1 ++ after) as Hline.
  { unfold line, before, after, entry_line, entry_head. cbn [app].
    change (spread (dec (e_size e).1, (e_size e).2)) with (dec (e_size e).1 ++ replicate (S (e_size e).2) 32). by rewrite <- !app_assoc. }
  replace (1 + _ + _ + _ + _)%nat with (length before) by (unfold before; cbn [length]; rewrite !length_app; lia).
  next_field. cbn [fst]. rewrite Hline, size_field_dec by done. rewrite <- Hline. cbn [mbind outcome_bind].
  do 3 next_field. destruct (name e) as [|c n]; [done|]. destruct name_ok0 as (Hc & H32 & _).
  rewrite <- app_comm_cons. cbn [name_loop file_flag]. rewrite Hc. cbn [negb space_num p_size file_size sapce_flag].
  rewrite (proj2 (Z.eqb_neq _ _) H32).
  change (8 =? 8) with true. cbv iota. do 3 f_equal. unfold before. cbn [length]. rewrite !length_app. lia.
Qed.

(** ** The line buffer *)

Definition pad (l : list Z) : list Z := l ++ replicate (BUFF_INCREASE_NUM_BASE - length l) 0.

Lemma pad_nul l : (length l < BUFF_INCREASE_NUM_BASE)%nat → ∃ r, pad l = l ++ 0 :: r.
Proof.
  intros Hl. exists (replicate (BUFF_INCREASE_NUM_BASE - length l - 1) 0). unfold pad.
  destruct (BUFF_INCREASE_NUM_BASE - length l)%nat eqn:E; [lia|]. cbn. by rewrite Nat.sub_0_r.
Qed.

Lemma pad_c_str l : nonzero l → (length l < BUFF_INCREASE_NUM_BASE)%nat → c_str (pad l) = Done l.
Proof. intros Hnz [r ->]%pad_nul. by apply c_str_app. Qed.

Lemma line_append_ok l piece :
  nonzero l → (length l + length piece < BUFF_INCREASE_NUM_BASE)%nat → append_to_line (pad l) piece = Done (pad (l ++ piece)).
Proof.
  intros Hnz Hl. unfold append_to_line. rewrite (str_scan_len_spec _ l) by (apply pad_c_str; [done|lia]).
  cbn [mbind outcome_bind]. assert (length (pad l) = BUFF_INCREASE_NUM_BASE) as Hlen.
  { unfold pad. rewrite length_app, length_replicate. lia. }
  rewrite mem_write_ok by lia. f_equal. unfold splice, pad. rewrite take_app_length, length_app, <- app_assoc. f_equal. f_equal.
  rewrite drop_app_ge by lia. rewrite drop_replicate. f_equal. lia.
Qed.

(** ** What a line gives *)

Inductive item := Listed (e : entry) | Other (t : list Z).
Definition item_line (i : item) : list Z := match i with Listed e => entry_line e | Other t => t end.
Definition item_call (i : item) : option call :=
  match i with Listed e => Some (name e, (e_size e).1, kind e) | Other _ => None end.
(** Lines that are no entries ("total 12") are short or start with another letter. *)
Definition item_ok (i : item) : Prop :=
  nonzero (item_line i) ∧ 10 ∉ item_line i ∧ (length (item_line i) < BUFF_INCREASE_NUM_BASE)%nat ∧
  match i with
  | Listed e => entry_ok e
  | Other t => (length t <= 49)%nat ∨ ∀ c, head t = Some c → c ≠ 100 ∧ c ≠ 45
  end.

Lemma find_short l key size :
  nonzero l → (length l < BUFF_INCREASE_NUM_BASE)%nat → (length l <= 49)%nat →
  find_file_name_point (pad l) key size = Done (None, size).
Proof.
  intros Hnz Hl Hs. unfold find_file_name_point, frame_strlen.
  rewrite (str_scan_len_spec _ l) by (by apply pad_c_str). cbn [mbind outcome_bind mret outcome_ret]. by bool_lia.
Qed.

Lemma find_other l c key size :
  nonzero l → (length l < BUFF_INCREASE_NUM_BASE)%nat → head l = Some c → c ≠ key →
  find_file_name_point (pad l) key size = Done (None, size).
Proof.
  intros Hnz Hl Hc Hk. unfold find_file_name_point, frame_strlen.
  rewrite (str_scan_len_spec _ l) by (by apply pad_c_str). cbn [mbind outcome_bind mret outcome_ret].
  destruct (_ <=? 49); [done|]. destruct l as [|d l]; [done|]. injection Hc as ->.
  unfold pad. cbn [app name_loop file_flag file_size negb]. destruct (positive_char c); cbn [negb]; [|done].
  by rewrite (proj2 (Z.eqb_neq _ _) Hk).
Qed.

Lemma report_item i size :
  item_ok i → ∃ size', report_line (pad (item_line i)) size = Done (option_list (item_call i), size').
Proof.
  intros (Hnz & _ & Hl & Hi). unfold report_line. destruct i as [e|t]; cbn [item_line item_call] in *.
  - assert (find_file_name_point (pad (entry_line e)) (key_of (kind e)) size
      = Done (Some (length (entry_head e)), (e_size e).1)) as Hfind.
    { unfold find_file_name_point, frame_strlen. rewrite (str_scan_len_spec _ (entry_line e)) by (by apply pad_c_str).
      cbn [mbind outcome_bind mret outcome_ret]. pose proof (line_long _ Hi). bool_lia. by apply name_loop_entry. }
    assert (c_str (drop (length (entry_head e)) (pad (entry_line e))) = Done (name e)) as Hname.
    { rewrite (c_str_drop _ (entry_line e)).
      - unfold entry_line. by rewrite drop_app_length.
      - by apply pad_c_str.
      - unfold entry_line. rewrite length_app. lia. }
    eexists. destruct (kind e) eqn:Ek; cbn [key_of] in Hfind.
    + rewrite (find_other _ 45); [|done..| |done].
      * cbn [mbind outcome_bind]. rewrite Hfind. cbn [mbind outcome_bind]. rewrite Hname. done.
      * unfold entry_line, entry_head. by rewrite Ek.
    + rewrite Hfind. cbn [mbind outcome_bind]. rewrite Hname. done.
  - exists size. assert (∀ key, key = 100 ∨ key = 45 → find_file_name_point (pad t) key size = Done (None, size)) as Hnone.
    { intros key Hkey. destruct Hi as [Hs|Hc]; [by apply find_short|]. destruct t as [|c t]; [apply find_short; cbn in *; try done; lia|].
      apply (find_other _ c); [done..|]. specialize (Hc c eq_refl). destruct Hkey; lia. }
    rewrite Hnone by auto. cbn [mbind outcome_bind]. rewrite Hnone by auto. done.
Qed.

(** ** Pieces *)

Definition ended (l : list Z) : list Z := l ++ [10].

(** A piece [c] behind the open line [l] ends some of the lines to come and
    leaves a new open line. *)
Lemma piece_lines ls : ∀ l c d t,
  l ++ c ++ d = concat (ended <$> ls) ++ t → 10 ∉ l → 10 ∉ t → Forall (λ l, 10 ∉ l) ls →
  ∃ ls1 ls2 u, ls = ls1 ++ ls2 ∧ l ++ c = concat (ended <$> ls1) ++ u ∧ u ++ d = concat (ended <$> ls2) ++ t ∧ 10 ∉ u.
Proof.
  induction ls as [|l0 ls IH]; intros l c d t Heq Hl Ht Hls.
  - exists [], [], (l ++ c). cbn in *. rewrite <- app_assoc. split_and!; try done.
    intros [?|Hc]%elem_of_app; [done|]. apply Ht. rewrite <- Heq, !elem_of_app. auto.
  - apply Forall_cons in Hls as [Hl0 Hls]. destruct (decide (10 ∈ c)) as [Hc|Hc].
    + apply list_elem_of_split_l in Hc as (c1 & c2 & -> & Hc1). cbn in Heq. unfold ended in Heq at 1.
      rewrite <- !app_assoc in Heq. cbn in Heq.
      assert (l ++ c1 = l0 ∧ c2 ++ d = concat (ended <$> ls) ++ t) as [<- Heq'].
      { rewrite app_assoc in Heq. apply not_elem_of_app_cons_inv_l in Heq as (? & _ & ?); [done..|].
        rewrite elem_of_app. tauto. }
      destruct (IH [] c2 d t Heq') as (ls1 & ls2 & u & -> & H1 & H2 & H3); [apply not_elem_of_nil|done..|].
      exists ((l ++ c1) :: ls1), ls2, u. split_and!; try done. cbn. unfold ended at 1. cbn in H1.
      rewrite <- !app_assoc. cbn. by rewrite <- H1.
    + exists [], (l0 :: ls), (l ++ c). split_and!; try done; [by rewrite <- app_assoc|].
      rewrite elem_of_app. tauto.
Qed.

(** The loop at a text of ended items and an open line behind the open line [l]. *)
Lemma lines_loop_ok items : ∀ fuel l c u junk size calls,
  Forall item_ok items → nonzero l → 10 ∉ l → nonzero c → 10 ∉ u →
  l ++ c = concat (ended <$> (item_line <$> items)) ++ u →
  (length u < BUFF_INCREASE_NUM_BASE)%nat → (length c < fuel)%nat →
  lines_loop fuel (c ++ 0 :: junk) (pad l) size calls = Done (pad u, calls ++ omap item_call items).
Proof.
  induction items as [|i items IH]; intros [|fuel] l c u junk size calls Hok Hl Hln Hc Hun Heq Hu Hf; try lia;
    cbn [lines_loop]; rewrite (str_scan_chr_spec _ c) by (by apply c_str_app).
  - cbn in Heq. subst u. rewrite length_app in Hu.
    replace (index_of 10 c) with (@None nat).
    2: { symmetry. apply index_of_None. intros H. apply Hun. rewrite elem_of_app. auto. }
    cbn [fmap option_fmap option_map mbind outcome_bind].
    rewrite (str_scan_len_spec (c ++ 0 :: junk) c) by (by apply c_str_app). cbn [mbind outcome_bind].
    rewrite (str_scan_len_spec _ l) by (apply pad_c_str; [done|lia]). cbn [mbind outcome_bind omap list_omap].
    rewrite app_nil_r. destruct c as [|x c]; cbn [length].
    + bool_lia. by rewrite app_nil_r.
    + bool_lia. rewrite mem_read_ok by (rewrite length_app; cbn; lia). cbn [mbind outcome_bind].
      rewrite Nat2Z.id. change (S (length c)) with (length (x :: c)). rewrite take_app_length, line_append_ok by done. done.
  - apply Forall_cons in Hok as [Hi Hok]. pose proof Hi as (Hnz & Hno & Hlen & _).
    cbn in Heq. unfold ended in Heq at 1. rewrite <- !app_assoc in Heq. cbn in Heq.
    assert (10 ∈ c) as (c1 & c2 & -> & Hc1)%list_elem_of_split_l.
    { assert (10 ∈ l ++ c) as Hin by (rewrite Heq; apply elem_of_app; right; constructor).
      by apply elem_of_app in Hin as [?|?]. }
    rewrite app_assoc in Heq. apply not_elem_of_app_cons_inv_l in Heq as (Hline & _ & Hc2); [|done|rewrite elem_of_app; tauto].
    apply Forall_app in Hc as [Hc1nz [_ Hc2nz]%Forall_cons].
    rewrite index_of_fresh by done. cbn [fmap option_fmap option_map mbind outcome_bind Nat.add].
    rewrite <- app_assoc, mem_read_ok by (rewrite length_app; lia). rewrite Nat2Z.id, take_app_length.
    rewrite <- Hline in Hlen. rewrite length_app in Hlen.
    cbn [mbind outcome_bind]. rewrite line_append_ok, Hline by done. cbn [mbind outcome_bind].
    destruct (report_item i size Hi) as [size' ->]. cbn [mbind outcome_bind].
    rewrite drop_app_ge, Nat.sub_succ_l, Nat.sub_diag by lia. cbn [drop app].
    change zeroed with (pad []). rewrite length_app in Hf. cbn in Hf.
    rewrite (IH fuel [] c2 u junk size' _); [|done|constructor|apply not_elem_of_nil|done..|lia].
    rewrite <- app_assoc. f_equal. f_equal. cbn. by destruct (item_call i).
Qed.

(** The pieces as libcurl passes them: the bytes, a NUL and whatever lies
    behind, and the number of the bytes. *)
Definition terminated (c : list Z) (p : list Z * Z) : Prop := ∃ junk, p = (c ++ 0 :: junk, Z.of_nat (length c)).

Lemma open_short items u d t :
  u ++ d = concat (ended <$> (item_line <$> items)) ++ t → 10 ∉ u → Forall item_ok items →
  (length t < BUFF_INCREASE_NUM_BASE)%nat → (length u < BUFF_INCREASE_NUM_BASE)%nat.
Proof.
  intros Heq Hu Hok Ht. destruct items as [|i items].
  - cbn in Heq. subst t. rewrite length_app in Ht. lia.
  - apply Forall_cons in Hok as [(_ & _ & Hlen & _) _]. destruct (decide (length u <= length (item_line i))%nat); [lia|].
    exfalso. apply Hu. cbn in Heq. unfold ended in Heq at 1. rewrite <- !app_assoc in Heq. cbn in Heq.
    apply (f_equal (.!! length (item_line i))) in Heq. rewrite list_lookup_middle in Heq by done.
    rewrite lookup_app_l in Heq by lia. by eapply list_elem_of_lookup_2.
Qed.

Lemma scan_pieces_ok malloc_ok cs : (∀ k, malloc_ok k = true) → ∀ k ps items b l u,
  Forall2 terminated cs ps → Forall item_ok items → Forall nonzero cs → nonzero l → 10 ∉ l → 10 ∉ u →
  b = Some (pad l) ∨ (b = None ∧ l = []) →
  l ++ concat cs = concat (ended <$> (item_line <$> items)) ++ u → (length u < BUFF_INCREASE_NUM_BASE)%nat →
  ∃ b', scan_pieces malloc_ok k ps b = Done (b', omap item_call items) ∧ (b' = Some (pad u) ∨ b' = None ∧ u = []).
Proof.
  intros Hmal. induction cs as [|c cs IH]; intros k ps items b l u Hps Hok Hcs Hl Hln Hun Hb Heq Hu.
  - inversion Hps; subst. cbn in *. rewrite app_nil_r in Heq.
    assert (items = [] ∧ u = l) as [-> ->].
    { destruct items as [|i items]; [done|]. exfalso. apply Hln. rewrite Heq. cbn. unfold ended at 1.
      rewrite !elem_of_app. left. left. right. constructor. }
    exists b. done.
  - inversion Hps as [|? p ? ps' [junk ->] Hps']; subst. apply Forall_cons in Hcs as [Hc Hcs]. cbn [concat] in Heq.
    destruct (piece_lines _ _ _ _ _ Heq Hln Hun) as (ls1 & ls2 & v & Hls & H1 & H2 & H3).
    { apply Forall_fmap. eapply Forall_impl; [exact Hok|]. intros i Hi. apply Hi. }
    apply fmap_app_inv in Hls as (i1 & i2 & -> & -> & ->). apply Forall_app in Hok as [Hok1 Hok2].
    assert (nonzero v) as Hv.
    { assert (nonzero (l ++ c)) as Hlc by (by apply Forall_app). rewrite H1 in Hlc. by apply Forall_app in Hlc as [_ ?]. }
    pose proof (open_short _ _ _ _ H2 H3 Hok2 Hu) as Hvs.
    destruct (IH (S k) ps' i2 (Some (pad v)) v u) as (b' & Hrest & Hb'); [done..|by left|done|done|].
    exists b'. split; [|done]. cbn [scan_pieces]. unfold curl_ftp_scanfile_callback.
    assert (match b with Some b => Some b | None => if malloc_ok k then Some zeroed else None end = Some (pad l)) as ->.
    { destruct Hb as [->|[-> ->]]; [done|]. by rewrite Hmal. }
    rewrite (lines_loop_ok i1 _ l c v junk 0 []) by (try done; rewrite length_app; lia).
    cbn [mbind outcome_bind app mret outcome_ret]. rewrite Hrest. cbn [mbind outcome_bind mret outcome_ret].
    by rewrite omap_app.
Qed.

(** ** A listing *)

(** Ended lines, and a last one that the server did not end ([Other []] when
    there is none). *)
Definition listing (items : list item) (last : item) : list Z :=
  concat (ended <$> (item_line <$> items)) ++ item_line last.

(** Between two listings the line buffer is not there yet, or zeroed. *)
Definition clean (b : option (list Z)) : Prop := b = None ∨ b = Some zeroed.

(** However libcurl cuts the listing, the calls of the pieces and the end of the
    scan together are the entries. *)
Lemma listing_in_pieces malloc_ok (items : list item) (last : item) (cs : list (list Z)) (ps : list (list Z * Z)) b0 :
  (∀ k, malloc_ok k = true) → Forall item_ok items → item_ok last → clean b0 →
  concat cs = listing items last → Forall2 terminated cs ps →
  ∃ b calls rest b', scan_pieces malloc_ok 0 ps b0 = Done (b, calls) ∧ last_line b = Done (b', rest) ∧
    calls ++ rest = omap item_call (items ++ [last]) ∧ clean b'.
Proof.
  intros Hmal Hok Hlast Hb0 Hcs Hps. pose proof Hlast as (Hlnz & Hlno & Hllen & _).
  assert (Forall nonzero cs) as Hnz.
  { assert (nonzero (listing items last)) as Hall.
    { apply Forall_app. split; [|done]. apply Forall_concat, Forall_fmap, Forall_fmap.
      eapply Forall_impl; [exact Hok|]. intros i (Hi & _). by apply Forall_app; split; [|repeat constructor]. }
    rewrite <- Hcs in Hall. by apply Forall_concat in Hall. }
  destruct (scan_pieces_ok malloc_ok cs Hmal 0 ps items b0 [] (item_line last)) as (b & -> & Hb);
    [done..|constructor|apply not_elem_of_nil|done| |done|done|].
  { destruct Hb0 as [-> | ->]; [by right|by left]. }
  rewrite omap_app. destruct Hb as [->|[-> Hnil]]; unfold last_line.
  - destruct (report_item last 0 Hlast) as [size' Hr].
    exists (Some (pad (item_line last))), (omap item_call items), (option_list (item_call last)), (Some zeroed).
    split; [done|]. split; [by rewrite Hr|]. split; [done|by right].
  - exists None, (omap item_call items), [], None. split; [done|]. split; [done|]. split; [|by left]. f_equal. cbn.
    destruct last as [e|t]; [|done]. cbn in Hnil. unfold entry_line, entry_head in Hnil. by destruct (kind e).
Qed.
