(* ===== verification/FtpFd.v ===== *)
(** * FTP client: descriptors (module_function/ftp_curl_operation.c)

    A descriptor keeps the strings it was opened with in one buffer of 1024
    bytes, the way the code lays them out; the descriptors hang in a list with
    pointers both ways, and the number of one is its place. *)

From S2P Require Import Prelude CString PsList PsText FrameTool EsData EsRequest FtpListing.
From stdpp Require Import gmap strings.

Open Scope Z_scope.

Definition SYSTEM_MALLOC_ERROR : Z := -1.
Definition TRANSMIT_PARAMETER_ERROR : Z := -2.
Definition SYSTEM_FUNCTION_CALL_ERROR : Z := -3.

Inductive CURL_FTP_WORK_MODE := CURL_FTP_EPRT | CURL_FTP_EPSV.

Record CURL_FTP_INIT_PARAME := InitParame {
  p_ip : text; p_user : text; p_pass : text; p_base_dir : text;
  p_timeout : Z; p_mode : CURL_FTP_WORK_MODE; p_port : Z;
}.

(** [ip], [user], [pass], [base_dir] and [base_curl] point into [info_buf]: they
    are offsets.  [next] is the node's pointer. *)
Record CURL_FTP_OPER_FD := OperFd {
  info_buf : option (list Z);
  ip : option nat; user : option nat; pass : option nat; base_dir : option nat; base_curl : option nat;
  file_name_buff : option (list Z);
  info_buf_len : Z; use_flag : Z; time_out : Z; ftp_mode : CURL_FTP_WORK_MODE; fd_port : Z;
  p_curl : bool; pre : ptr;
}.

Definition empty_fd : CURL_FTP_OPER_FD := OperFd None None None None None None None 0 0 0 CURL_FTP_EPRT 0 false None.

Definition set_info b n d := OperFd b (ip d) (user d) (pass d) (base_dir d) (base_curl d) (file_name_buff d) n
  (use_flag d) (time_out d) (ftp_mode d) (fd_port d) (p_curl d) (pre d).
Definition set_ip x d := OperFd (info_buf d) x (user d) (pass d) (base_dir d) (base_curl d) (file_name_buff d) (info_buf_len d)
  (use_flag d) (time_out d) (ftp_mode d) (fd_port d) (p_curl d) (pre d).
Definition set_user x d := OperFd (info_buf d) (ip d) x (pass d) (base_dir d) (base_curl d) (file_name_buff d) (info_buf_len d)
  (use_flag d) (time_out d) (ftp_mode d) (fd_port d) (p_curl d) (pre d).
Definition set_pass x d := OperFd (info_buf d) (ip d) (user d) x (base_dir d) (base_curl d) (file_name_buff d) (info_buf_len d)
  (use_flag d) (time_out d) (ftp_mode d) (fd_port d) (p_curl d) (pre d).
Definition set_base_dir x d := OperFd (info_buf d) (ip d) (user d) (pass d) x (base_curl d) (file_name_buff d) (info_buf_len d)
  (use_flag d) (time_out d) (ftp_mode d) (fd_port d) (p_curl d) (pre d).
Definition set_base_curl x d := OperFd (info_buf d) (ip d) (user d) (pass d) (base_dir d) x (file_name_buff d) (info_buf_len d)
  (use_flag d) (time_out d) (ftp_mode d) (fd_port d) (p_curl d) (pre d).
Definition set_file_name_buff x d := OperFd (info_buf d) (ip d) (user d) (pass d) (base_dir d) (base_curl d) x (info_buf_len d)
  (use_flag d) (time_out d) (ftp_mode d) (fd_port d) (p_curl d) (pre d).
Definition set_use u d := OperFd (info_buf d) (ip d) (user d) (pass d) (base_dir d) (base_curl d) (file_name_buff d) (info_buf_len d)
  u (time_out d) (ftp_mode d) (fd_port d) (p_curl d) (pre d).
Definition set_conn t m p d := OperFd (info_buf d) (ip d) (user d) (pass d) (base_dir d) (base_curl d) (file_name_buff d) (info_buf_len d)
  (use_flag d) t m p (p_curl d) (pre d).
Definition set_p_curl x d := OperFd (info_buf d) (ip d) (user d) (pass d) (base_dir d) (base_curl d) (file_name_buff d) (info_buf_len d)
  (use_flag d) (time_out d) (ftp_mode d) (fd_port d) x (pre d).
Definition set_pre x d := OperFd (info_buf d) (ip d) (user d) (pass d) (base_dir d) (base_curl d) (file_name_buff d) (info_buf_len d)
  (use_flag d) (time_out d) (ftp_mode d) (fd_port d) (p_curl d) x.

(** ** [init_curl_ftp_parame] *)

Definition buffer_of (d : CURL_FTP_OPER_FD) : outcome (list Z) :=
  match info_buf d with Some b => Done b | None => Fault NullDeref end.

(** One string of the parameters: [extra] bytes more than its own are taken
    from [info_buf_len]; [k] goes on with [len] and the descriptor. *)
Definition with_string (s : text) (extra : Z) (curr : nat) (d : CURL_FTP_OPER_FD)
    (k : nat → CURL_FTP_OPER_FD → outcome (CURL_FTP_OPER_FD * Z)) : outcome (CURL_FTP_OPER_FD * Z) :=
  match s with
  | None => Done (d, TRANSMIT_PARAMETER_ERROR)
  | Some str =>
      n ← frame_strlen s;
      let d := set_info (info_buf d) (info_buf_len d - (n + extra)) d in
      if info_buf_len d <? 0 then Done (d, TRANSMIT_PARAMETER_ERROR)
      else
        b ← buffer_of d; t ← mem_read str n; b ← mem_write b curr t;
        k (Z.to_nat (n + extra)) (set_info (Some b) (info_buf_len d) d)
  end.

(** The string at one of the pointers into [info_buf]. *)
Definition string_at (d : CURL_FTP_OPER_FD) (p : option nat) : outcome (list Z) :=
  match p with None => Fault NullDeref | Some p => b ← buffer_of d; c_str (drop p b) end.

Definition url_text (user pass ip : list Z) (port : Z) : list Z :=
  bytes "ftp://" ++ user ++ bytes ":" ++ pass ++ bytes "@" ++ ip ++ bytes ":" ++ dec port ++ bytes "/".

(** The strings go in one behind the other.  [curr[len - 3]] decides about the
    slash at the end of the directory; a slash in front is stepped over, and
    [curr += len] starts from there.  Control then reaches the end of the
    function, which has no [return]: the caller sees [no_ret]. *)
Definition put_parame (no_ret : Z) (p : CURL_FTP_INIT_PARAME) (d : CURL_FTP_OPER_FD) : outcome (CURL_FTP_OPER_FD * Z) :=
  let curr := O in
  with_string (p_ip p) 1 curr d (λ len d, let d := set_ip (Some curr) d in let curr := (curr + len)%nat in
  with_string (p_user p) 1 curr d (λ len d, let d := set_user (Some curr) d in let curr := (curr + len)%nat in
  with_string (p_pass p) 1 curr d (λ len d, let d := set_pass (Some curr) d in let curr := (curr + len)%nat in
  with_string (p_base_dir p) 2 curr d (λ len d,
    b ← buffer_of d;
    c ← rd b (curr + len - 3);
    b ← mem_write b (curr + len - 2) [if c =? 47 then 0 else 47];
    c ← rd b curr;
    let curr := if c =? 47 then S curr else curr in
    let d := set_base_dir (Some curr) (set_info (Some b) (info_buf_len d) d) in
    let curr := (curr + len)%nat in
    let d := set_conn (p_timeout p) (p_mode p) (p_port p) d in
    u ← string_at d (user d); w ← string_at d (pass d); i ← string_at d (ip d);
    '(new, len) ← snprintf (drop curr b) (info_buf_len d) (url_text u w i (fd_port d));
    let d := set_info (Some (take curr b ++ new)) (info_buf_len d) d in
    if info_buf_len d <=? len then Done (d, TRANSMIT_PARAMETER_ERROR)
    else Done (set_base_curl (Some curr) d, no_ret))))).

Definition init_curl_ftp_parame (malloc_ok : bool) (no_ret : Z) (d : CURL_FTP_OPER_FD) (p : CURL_FTP_INIT_PARAME)
  : outcome (CURL_FTP_OPER_FD * Z) :=
  match info_buf d with
  | Some _ => put_parame no_ret p d
  | None =>
      if malloc_ok then put_parame no_ret p (set_info (Some zeroed) (Z.of_nat BUFF_INCREASE_NUM_BASE) d)
      else Done (set_info None (Z.of_nat BUFF_INCREASE_NUM_BASE) d, SYSTEM_MALLOC_ERROR)
  end.

(** ** The list *)

(** [blocks] counts the memory blocks in use. *)
Record ftp := Ftp { fds : gmap positive (node CURL_FTP_OPER_FD); head_fd : ptr; tail_fd : ptr; blocks : Z }.

Definition global_curl_ftp_init (s : ftp) : ftp := Ftp (fds s) None None (blocks s).

(** [do { if (curr->use_flag == 0) break; fd++; curr = curr->next; } while (curr);] *)
Fixpoint free_loop (fuel : nat) (h : gmap positive (node CURL_FTP_OPER_FD)) (curr : ptr) (fd : Z) : outcome (ptr * Z) :=
  match fuel with
  | O => NoFuel
  | S f =>
      match curr with
      | None => Done (None, fd)
      | Some _ => n ← deref h curr;
                  if use_flag (n_data n) =? 0 then Done (curr, fd) else free_loop f h (n_next n) (fd + 1)
      end
  end.

Definition update (a : positive) (f : CURL_FTP_OPER_FD → CURL_FTP_OPER_FD) (s : ftp) : outcome ftp :=
  n ← deref (fds s) (Some a);
  mret (Ftp (<[a := Node (f (n_data n)) (n_next n)]> (fds s)) (head_fd s) (tail_fd s) (blocks s)).

(** A descriptor with the buffers it got since: they are new blocks. *)
Definition one_if {A} (o : option A) : Z := if o then 1 else 0.
Definition buffers (d : CURL_FTP_OPER_FD) : Z := one_if (info_buf d) + one_if (file_name_buff d).
Definition store (a : positive) (d : CURL_FTP_OPER_FD) (s : ftp) : outcome ftp :=
  n ← deref (fds s) (Some a);
  mret (Ftp (<[a := Node d (n_next n)]> (fds s)) (head_fd s) (tail_fd s) (blocks s + buffers d - buffers (n_data n))).

(** A new descriptor behind the last one. *)
Definition append_fd (s : ftp) : outcome (positive * ftp) :=
  let a := new_addr (fds s) in
  match head_fd s with
  | None => Done (a, Ftp (<[a := Node (set_use 1 empty_fd) None]> (fds s)) (Some a) (Some a) (blocks s + 1))
  | Some _ =>
      let h := <[a := Node (set_pre (tail_fd s) (set_use 1 empty_fd)) None]> (fds s) in
      n ← deref h (tail_fd s);
      match tail_fd s with
      | None => Fault NullDeref
      | Some t => mret (a, Ftp (<[t := Node (n_data n) (Some a)]> h) (head_fd s) (Some a) (blocks s + 1))
      end
  end.

(** A descriptor taken again: its buffer is cleared. *)
Definition renewed (d : CURL_FTP_OPER_FD) : CURL_FTP_OPER_FD :=
  OperFd (Some zeroed) None None None None None (file_name_buff d) (Z.of_nat BUFF_INCREASE_NUM_BASE)
    (use_flag d) (time_out d) (ftp_mode d) (fd_port d) (p_curl d) (pre d).

(** [mallocs]: whether the descriptor and its buffer can be had. *)
Definition init_curl_ftp_fd (mallocs : bool * bool) (no_ret : Z) (p : CURL_FTP_INIT_PARAME) (s : ftp) : outcome (ftp * Z) :=
  '(curr, fd) ← free_loop (S (size (fds s))) (fds s) (head_fd s) 0;
  match curr, mallocs.1 with
  | None, false => Done (s, SYSTEM_MALLOC_ERROR)
  | _, _ =>
      '(a, s) ← match curr with
                | Some a =>
                    s ← update a (set_use 1) s;
                    n ← deref (fds s) (Some a); _ ← buffer_of (n_data n);
                    s ← update a renewed s;
                    mret (a, s)
                | None => append_fd s
                end;
      n ← deref (fds s) (Some a);
      '(d, ret) ← init_curl_ftp_parame mallocs.2 no_ret (n_data n) p;
      s ← store a d s; mret (s, if ret <? 0 then ret else fd)
  end.

(** [curr = head; for (i = 0; i < fop; i++) { curr = curr->next; ... }] *)
Fixpoint walk (fop : nat) (h : gmap positive (node CURL_FTP_OPER_FD)) (curr : ptr) : outcome ptr :=
  match fop with
  | O => Done curr
  | S f => n ← deref h curr;
           match n_next n with None => Done None | q => walk f h q end
  end.
Definition find_fd (fop : Z) (s : ftp) : outcome ptr :=
  if (fop <? 0) || negb (if head_fd s then true else false) then Done None else walk (Z.to_nat fop) (fds s) (head_fd s).

Definition reset_curl_ftp_fd (fop : Z) (s : ftp) : outcome ftp :=
  a ← find_fd fop s;
  match a with None => Done s | Some a => update a (set_use 0) s end.

(** ** [global_curl_ftp_cleanup] *)

(** The loop at [curr], which the code sets to [tail] first. *)
Fixpoint cleanup_loop (fuel : nat) (curr : ptr) (s : ftp) : outcome ftp :=
  match fuel with
  | O => NoFuel
  | S f =>
      n ← deref (fds s) curr;
      let d := n_data n in
      let freed := buffers d + 1 in
      match curr, pre d with
      | None, _ => Fault NullDeref
      | Some a, Some b =>
          m ← deref (fds s) (Some b);
          h ← free_node (n_next m) (fds s);
          m ← deref h (Some b);
          cleanup_loop f (Some b) (Ftp (<[b := Node (n_data m) None]> h) (head_fd s) (tail_fd s) (blocks s - freed))
      | Some a, None =>
          h ← free_node (Some a) (fds s);
          mret (Ftp h (head_fd s) (tail_fd s) (blocks s - freed))
      end
  end.
Definition global_curl_ftp_cleanup (s : ftp) : outcome ftp :=
  s ← match head_fd s with Some _ => cleanup_loop (S (size (fds s))) (tail_fd s) s | None => mret s end;
  mret (Ftp (fds s) None None (blocks s)).
