(* ===== verification/FtpOps.v ===== *)
(** * FTP client: the operations (module_function/ftp_curl_operation.c)

    What an operation does to libcurl is the list of its calls; what libcurl
    answers is given: whether [curl_easy_init] gives a handle, what
    [curl_easy_perform] returns and the pieces of the listing it passes to the
    callback. *)

From S2P Require Import Prelude CString PsList PsText FrameTool EsData EsRequest FtpListing FtpFd.
From stdpp Require Import gmap strings.

Open Scope Z_scope.

(** ** The calls *)

Inductive curl_option :=
  | CURLOPT_URL (url : list Z)
  | CURLOPT_WRITEDATA_FD | CURLOPT_WRITEDATA_FILE | CURLOPT_WRITEFUNCTION | CURLOPT_FTPLISTONLY (n : Z)
  | CURLOPT_TIMEOUT (n : Z) | CURLOPT_CONNECTTIMEOUT (n : Z) | CURLOPT_NOSIGNAL (n : Z)
  | CURLOPT_FTP_USE_EPRT (n : Z) | CURLOPT_FTP_USE_EPSV (n : Z)
  | CURLOPT_POSTQUOTE (l : list (list Z)) | CURLOPT_QUOTE (l : list (list Z))
  | CURLOPT_READDATA | CURLOPT_INFILESIZE (n : Z) | CURLOPT_UPLOAD (n : Z) | CURLOPT_FTP_CREATE_MISSING_DIRS (n : Z).

Inductive action :=
  | curl_easy_init | curl_easy_setopt (o : curl_option) | curl_easy_perform | curl_easy_cleanup
  | fopen (name mode : list Z) | fclose | slist_append (cmd : list Z).

(** The results of the options are only logged. *)
Definition common_options (d : CURL_FTP_OPER_FD) : list curl_option :=
  [CURLOPT_TIMEOUT (time_out d); CURLOPT_CONNECTTIMEOUT 60; CURLOPT_NOSIGNAL 1].
Definition mode_option (d : CURL_FTP_OPER_FD) : curl_option :=
  match ftp_mode d with CURL_FTP_EPRT => CURLOPT_FTP_USE_EPRT 1 | CURL_FTP_EPSV => CURLOPT_FTP_USE_EPSV 1 end.

Definition curl_scan_file_option (d : CURL_FTP_OPER_FD) (url : list Z) : list curl_option :=
  [CURLOPT_URL url; CURLOPT_WRITEDATA_FD; CURLOPT_WRITEFUNCTION; CURLOPT_FTPLISTONLY 0] ++ common_options d ++ [mode_option d].
Definition curl_upload_file_option (d : CURL_FTP_OPER_FD) (url : list Z) (local_size : Z) (header_list : list (list Z))
  : list curl_option :=
  [CURLOPT_URL url] ++ (match header_list with [] => [] | l => [CURLOPT_POSTQUOTE l] end) ++
  [CURLOPT_READDATA; CURLOPT_INFILESIZE local_size] ++ common_options d ++
  [CURLOPT_UPLOAD 1; CURLOPT_FTP_CREATE_MISSING_DIRS 1; mode_option d].
Definition curl_download_file_option (d : CURL_FTP_OPER_FD) (url : list Z) : list curl_option :=
  [CURLOPT_URL url; CURLOPT_WRITEDATA_FILE] ++ common_options d ++ [mode_option d].
Definition cmd_curl_ftp_option (d : CURL_FTP_OPER_FD) (url : list Z) (header_list : list (list Z)) : list curl_option :=
  [CURLOPT_URL url; CURLOPT_QUOTE header_list] ++ common_options d ++ [mode_option d].

(** ** The texts *)

Definition BUFF_CMD_CURLFTP_LEN : nat := 1024.

(** [sprintf(cmd_buf, ...)] *)
Definition sprintf (t : list Z) : outcome (list Z) :=
  if (length t <? BUFF_CMD_CURLFTP_LEN)%nat then Done t else Fault OutOfBounds.

Definition slash : list Z := [47].

(** ["%s%s%s/%s"] with a [re_path], ["%s%s%s"] without. *)
Definition file_url (d : CURL_FTP_OPER_FD) (re_path : text) (name : list Z) : outcome (list Z) :=
  b ← string_at d (base_curl d); dir ← string_at d (base_dir d);
  match re_path with
  | Some _ => r ← fmt_s re_path; sprintf (b ++ dir ++ r ++ slash ++ name)
  | None => sprintf (b ++ dir ++ name)
  end.
Definition base_url (d : CURL_FTP_OPER_FD) : outcome (list Z) :=
  b ← string_at d (base_curl d); dir ← string_at d (base_dir d); sprintf (b ++ dir).
(** A listing's URL ends in a slash. *)
Definition folder_url (d : CURL_FTP_OPER_FD) (re_path : text) : outcome (list Z) :=
  match re_path with
  | None => base_url d
  | Some s =>
      len ← frame_strlen re_path;
      if len <? 1 then Fault OutOfBounds
      else
        c ← rd s (Z.to_nat (len - 1)); r ← fmt_s re_path;
        b ← string_at d (base_curl d); dir ← string_at d (base_dir d);
        sprintf (b ++ dir ++ r ++ (if c =? 47 then [] else slash))
  end.

(** ** The operations *)

(** What libcurl does: a handle, the result of the transfer, the pieces. *)
Record curl := Curl { easy_init : bool; perform : Z; pieces : list (list Z * Z) }.

(** [if (curr->p_curl) curl_easy_cleanup; curr->p_curl = curl_easy_init()] *)
Definition renew (c : curl) (d : CURL_FTP_OPER_FD) : list action * CURL_FTP_OPER_FD :=
  ((if p_curl d then [curl_easy_cleanup] else []) ++ [curl_easy_init], set_p_curl (easy_init c) d).

(** Set the options, transfer and give the handle back. *)
Definition transfer (opts : list curl_option) : list action :=
  (curl_easy_setopt <$> opts) ++ [curl_easy_perform; curl_easy_cleanup].

Definition result : Type := ftp * list action * list call * Z.

(** The frame of the operations: the descriptor is looked up, its handle
    renewed; [body] gives the calls, the new descriptor and the result. *)
Definition with_fd (fop : Z) (args_ok : bool) (c : curl) (s : ftp)
    (body : CURL_FTP_OPER_FD → outcome (CURL_FTP_OPER_FD * list action * list call * Z)) : outcome result :=
  if negb args_ok then Done (s, [], [], TRANSMIT_PARAMETER_ERROR)
  else
    a ← find_fd fop s;
    match a with
    | None => Done (s, [], [], TRANSMIT_PARAMETER_ERROR)
    | Some a =>
        n ← deref (fds s) (Some a);
        let '(acts, d) := renew c (n_data n) in
        if negb (easy_init c) then s ← store a d s; mret (s, acts, [], SYSTEM_FUNCTION_CALL_ERROR)
        else '(d, acts', calls, ret) ← body d; s ← store a d s; mret (s, acts ++ acts', calls, ret)
    end.

(** The user's function is the one that was given or a printing one; here it is
    the list of its calls.  A first listing allocates [file_name_buff]. *)
Definition scan_curl_ftp_folder (c : curl) (malloc_ok : nat → bool) (fop : Z) (re_path : text) (s : ftp) : outcome result :=
  with_fd fop true c s (λ d,
    url ← folder_url d re_path;
    '(b, calls) ← scan_pieces malloc_ok 0 (pieces c) (file_name_buff d);
    '(b, rest) ← last_line b;
    mret (set_p_curl false (set_file_name_buff b d), transfer (curl_scan_file_option d url), calls ++ rest, perform c)).

(** The name behind the last slash, slash included. *)
Definition name_from (path : list Z) : outcome (list Z) :=
  s ← c_str path; mret (match last_index 47 s with Some i => drop i s | None => s end).

Definition RNFR (name : list Z) : list Z := bytes "RNFR " ++ name.
Definition RNTO (name : list Z) : list Z := bytes "RNTO " ++ name.

Definition upload_curl_ftp_file (c : curl) (fopen_ok : bool) (st_size : option Z) (fop : Z) (up_file re_path to_name : text) (s : ftp)
  : outcome result :=
  with_fd fop (if up_file then true else false) c s (λ d,
    up ← fmt_s up_file; up_name ← name_from (up ++ [0]);
    let open := [fopen up (bytes "rb")] in
    if negb fopen_ok then mret (d, open, [], SYSTEM_FUNCTION_CALL_ERROR)
    else
      header_list ← match to_name with
                    | Some _ => to ← fmt_s to_name; a ← sprintf (RNFR up_name); b ← sprintf (RNTO to); mret [a; b]
                    | None => mret []
                    end;
      url ← file_url d re_path up_name;
      mret (set_p_curl false d,
            open ++ (slist_append <$> header_list) ++
            transfer (curl_upload_file_option d url (get_local_file_size st_size) header_list) ++ [fclose],
            [], perform c)).

Definition download_curl_ftp_file (c : curl) (fopen_ok : bool) (fop : Z) (down_file re_path to_patn_name : text) (s : ftp)
  : outcome result :=
  with_fd fop (match down_file, to_patn_name with Some _, Some _ => true | _, _ => false end) c s (λ d,
    to ← fmt_s to_patn_name;
    let open := [fopen to (bytes "wab")] in
    if negb fopen_ok then mret (d, open, [], SYSTEM_FUNCTION_CALL_ERROR)
    else
      name ← fmt_s down_file; url ← file_url d re_path name;
      mret (set_p_curl false d, open ++ transfer (curl_download_file_option d url) ++ [fclose], [], perform c)).

(** Commands before a transfer. *)
Definition command (c : curl) (d : CURL_FTP_OPER_FD) (cmds : list (list Z)) (url : list Z)
  : CURL_FTP_OPER_FD * list action * list call * Z :=
  (set_p_curl false d, (slist_append <$> cmds) ++ transfer (cmd_curl_ftp_option d url cmds), [], perform c).

Definition rename_curl_ftp_file (c : curl) (fop : Z) (origin_name re_path to_name : text) (s : ftp) : outcome result :=
  with_fd fop (match origin_name, to_name with Some _, Some _ => true | _, _ => false end) c s (λ d,
    o ← fmt_s origin_name; t ← fmt_s to_name;
    a ← sprintf (RNFR o); b ← sprintf (RNTO t);
    url ← file_url d re_path o;
    mret (command c d [a; b] url)).
Definition delete_curl_ftp_file (c : curl) (fop : Z) (re_path file_name : text) (s : ftp) : outcome result :=
  with_fd fop (if file_name then true else false) c s (λ d,
    f ← fmt_s file_name; a ← sprintf (bytes "DELE " ++ f);
    url ← file_url d re_path f;
    mret (command c d [a] url)).
Definition delete_curl_ftp_dir (c : curl) (fop : Z) (re_path : text) (s : ftp) : outcome result :=
  with_fd fop (if re_path then true else false) c s (λ d,
    r ← fmt_s re_path; a ← sprintf (bytes "RMD " ++ r);
    url ← base_url d;
    mret (command c d [a] url)).
Definition create_curl_ftp_dir (c : curl) (fop : Z) (re_path : text) (s : ftp) : outcome result :=
  with_fd fop (if re_path then true else false) c s (λ d,
    r ← fmt_s re_path; a ← sprintf (bytes "MKD " ++ r);
    url ← base_url d;
    mret (command c d [a] url)).
