(* ===== verification/FtpFdSpec.v ===== *)
(** * FTP client: opening a descriptor

    What the parameters become in the buffer of a descriptor. *)

From S2P Require Import Prelude CString PsList PsText FrameTool EsData EsRequest FtpListing FtpFd.
From stdpp Require Import gmap strings.

Open Scope Z_scope.

(** ** Writing into a padded buffer *)

Lemma pad_nul_end w : (length w < BUFF_INCREASE_NUM_BASE)%nat → pad (w ++ [0]) = pad w.
Proof.
  intros H. unfold pad. rewrite <- app_assoc, length_app. cbn [length app]. f_equal.
  replace (BUFF_INCREASE_NUM_BASE - length w)%nat with (S (BUFF_INCREASE_NUM_BASE - (length w + 1))) by lia. done.
Qed.

Lemma pad_zeros w k : (length w + k <= BUFF_INCREASE_NUM_BASE)%nat → pad (w ++ replicate k 0) = pad w.
Proof.
  revert w. induction k as [|k IH]; intros w H; cbn [replicate]; [by rewrite app_nil_r|].
  change (0 :: replicate k 0) with ([0] ++ replicate k 0). rewrite app_assoc, IH.
  - apply pad_nul_end. lia.
  - rewrite length_app. cbn. lia.
Qed.

Lemma fd_pad_length w : (length w <= BUFF_INCREASE_NUM_BASE)%nat → length (pad w) = BUFF_INCREASE_NUM_BASE.
Proof. intros H. unfold pad. rewrite length_app, length_replicate. lia. Qed.

Lemma pad_write w s :
  (length w + length s <= BUFF_INCREASE_NUM_BASE)%nat → mem_write (pad w) (length w) s = Done (pad (w ++ s)).
Proof.
  intros H. rewrite mem_write_ok by (rewrite fd_pad_length; lia). f_equal. unfold splice, pad.
  rewrite take_app_length, length_app, <- app_assoc. do 2 f_equal. rewrite drop_app_ge, drop_replicate by lia. f_equal. lia.
Qed.

Lemma pad_string x s y :
  nonzero s → (length x + length s < BUFF_INCREASE_NUM_BASE)%nat →
  match y with [] => True | c :: _ => c = 0 end → c_str (drop (length x) (pad (x ++ s ++ y))) = Done s.
Proof.
  intros Hs Hl Hy. unfold pad. rewrite <- !app_assoc, drop_app_length. destruct y as [|c y].
  - cbn [app]. rewrite app_nil_r, length_app. destruct (BUFF_INCREASE_NUM_BASE - _)%nat eqn:E; [lia|]. by apply c_str_app.
  - subst c. by apply c_str_app.
Qed.

Lemma pad_lookup w i c : w !! i = Some c → rd (pad w) i = Done c.
Proof. intros H. apply rd_ok. unfold pad. rewrite lookup_app_l; [done|]. by eapply lookup_lt_Some. Qed.

Lemma pad_nil : pad [] = zeroed.
Proof. done. Qed.

(** ** One string *)

Lemma with_string_ok str s extra w d k room :
  c_str str = Done s → info_buf d = Some (pad w) → info_buf_len d = Z.of_nat room → 1 <= extra →
  (length s + Z.to_nat extra <= room)%nat → (length w + room <= BUFF_INCREASE_NUM_BASE)%nat →
  with_string (Some str) extra (length w) d k =
  k (length s + Z.to_nat extra)%nat
    (set_info (Some (pad (w ++ s))) (Z.of_nat (room - (length s + Z.to_nat extra))) d).
Proof.
  intros Hs Hb Hn He Hl Hw. unfold with_string, frame_strlen.
  rewrite (str_scan_len_spec _ _ Hs). cbn [mbind outcome_bind mret outcome_ret info_buf_len set_info]. rewrite Hn. bool_lia.
  unfold buffer_of. cbn [info_buf set_info]. rewrite Hb. cbn [mbind outcome_bind].
  rewrite mem_read_ok by (pose proof (c_str_length _ _ Hs); lia). cbn [mbind outcome_bind].
  apply c_str_inv in Hs as (r & -> & _). rewrite Nat2Z.id, take_app_length, pad_write by lia. cbn [mbind outcome_bind].
  replace (Z.to_nat (Z.of_nat (length s) + extra)) with (length s + Z.to_nat extra)%nat by lia.
  replace (Z.of_nat (room - (length s + Z.to_nat extra))) with (Z.of_nat room - (Z.of_nat (length s) + extra)) by lia. done.
Qed.

Lemma with_string_next str s w d k room :
  c_str str = Done s → info_buf d = Some (pad w) → info_buf_len d = Z.of_nat room →
  (length s + 1 <= room)%nat → (length w + room <= BUFF_INCREASE_NUM_BASE)%nat →
  with_string (Some str) 1 (length w) d k =
  k (length (s ++ [0])) (set_info (Some (pad (w ++ s ++ [0]))) (Z.of_nat (room - length (s ++ [0]))) d).
Proof.
  intros Hs Hb Hn Hl Hw. rewrite (with_string_ok str s 1 w d k room); [|done..|lia|lia|lia].
  rewrite app_assoc, pad_nul_end, length_app by (rewrite length_app; lia). done.
Qed.

(** ** All of them *)

(** The directory with a slash at its end, and without the first. *)
Definition slashed (dir : list Z) : list Z := if decide (last dir = Some 47) then dir else dir ++ [47].
Definition base_of (dir : list Z) : list Z := match slashed dir with 47 :: d => d | d => d end.

Record params := ServerParams { s_ip : list Z; s_user : list Z; s_pass : list Z; s_dir : list Z; s_port : Z }.
Definition base_url_of (p : params) : list Z := url_text (s_user p) (s_pass p) (s_ip p) (s_port p).
(** The bytes of the strings with what is taken for their ends. *)
Definition taken (p : params) : nat := (length (s_ip p) + length (s_user p) + length (s_pass p) + length (s_dir p) + 5)%nat.

(** [d] is open for [p]. *)
Definition open_for (p : params) (d : CURL_FTP_OPER_FD) : Prop :=
  string_at d (ip d) = Done (s_ip p) ∧ string_at d (user d) = Done (s_user p) ∧ string_at d (pass d) = Done (s_pass p) ∧
  string_at d (base_dir d) = Done (base_of (s_dir p)) ∧ string_at d (base_curl d) = Done (base_url_of p).

Definition given (p : params) (i : CURL_FTP_INIT_PARAME) : Prop :=
  (∃ a, p_ip i = Some a ∧ c_str a = Done (s_ip p)) ∧ (∃ a, p_user i = Some a ∧ c_str a = Done (s_user p)) ∧
  (∃ a, p_pass i = Some a ∧ c_str a = Done (s_pass p)) ∧ (∃ a, p_base_dir i = Some a ∧ c_str a = Done (s_dir p)) ∧
  p_port i = s_port p.

Lemma given_at p i :
  given p i → ∃ ai au ap ad, i = InitParame (Some ai) (Some au) (Some ap) (Some ad) (p_timeout i) (p_mode i) (s_port p) ∧
    c_str ai = Done (s_ip p) ∧ c_str au = Done (s_user p) ∧ c_str ap = Done (s_pass p) ∧ c_str ad = Done (s_dir p).
Proof. destruct i. unfold given. cbn. naive_solver. Qed.

Lemma slashed_shape dir : slashed dir ≠ [] ∧ (length dir <= length (slashed dir) <= length dir + 1)%nat ∧
  slashed dir = dir ++ (if decide (last dir = Some 47) then [] else [47]).
Proof.
  unfold slashed. destruct (decide (last dir = Some 47)) as [H|H].
  - rewrite app_nil_r. split_and!; [by intros ->|lia..|done].
  - rewrite length_app. cbn. split_and!; [by destruct dir|lia..|done].
Qed.

Lemma base_of_shape dir :
  ∃ k, (k <= 1)%nat ∧ base_of dir = drop k (slashed dir) ∧
    ∃ c : Z, slashed dir !! 0%nat = Some c ∧ k = (if (c =? 47)%Z then 1 else 0)%nat.
Proof.
  unfold base_of. destruct (slashed_shape dir) as (Hne & _). destruct (slashed dir) as [|c d]; [done|].
  destruct (Z.eqb_spec c 47) as [->|Hc].
  - exists 1%nat. split_and!; [lia|done|]. by exists 47.
  - exists 0%nat. split_and!; [lia| |exists c; split; [done|]; by rewrite (proj2 (Z.eqb_neq _ _) Hc)].
    destruct c as [|c|c]; try done. by do 6 (destruct c as [c|c|]; try done).
Qed.

(** The parameters fit: the strings, and behind them the URL with its end and a
    byte to spare. *)
Definition fits (p : params) : Prop := 0 <= s_port p < 65536 ∧ (taken p + length (base_url_of p) + 2 <= BUFF_INCREASE_NUM_BASE)%nat.

Lemma slash_step w sd :
  last w = Some 0 → (length w + length sd < BUFF_INCREASE_NUM_BASE)%nat →
  ∃ c, rd (pad (w ++ sd)) (length w + (length sd + 2) - 3) = Done c ∧
    mem_write (pad (w ++ sd)) (length w + (length sd + 2) - 2) [if c =? 47 then 0 else 47] = Done (pad (w ++ slashed sd)).
Proof.
  intros Hw Hl.
  assert (∃ c, rd (pad (w ++ sd)) (length w + (length sd + 2) - 3) = Done c ∧ (c = 47 ↔ last sd = Some 47)) as (c & Hrd & Hc).
  { destruct (last_Some w 0) as [[w' ->] _]; [done|]. destruct sd as [|d sd' _] using rev_ind.
    - exists 0. split; [|done]. apply pad_lookup. rewrite app_nil_r, length_app. cbn.
      replace (length w' + 1 + 2 - 3)%nat with (length w') by lia. by rewrite list_lookup_middle.
    - exists d. rewrite last_snoc. split; [|split; congruence]. apply pad_lookup. rewrite app_assoc.
      rewrite list_lookup_middle; [done|]. rewrite !length_app. cbn. lia. }
  exists c. split; [done|]. replace (length w + (length sd + 2) - 2)%nat with (length (w ++ sd)) by (rewrite length_app; lia).
  rewrite pad_write by (rewrite length_app; cbn; lia). f_equal. unfold slashed.
  destruct (decide (last sd = Some 47)) as [H|H]; destruct (Z.eqb_spec c 47); try tauto; [|by rewrite app_assoc].
  apply pad_nul_end. rewrite length_app. lia.
Qed.

(** The URL goes where nothing was written yet. *)
Lemma write_url w t n :
  (length t < n)%nat → (length w + n < BUFF_INCREASE_NUM_BASE + 2)%nat → (length w + length t < BUFF_INCREASE_NUM_BASE)%nat →
  snprintf (drop (length w) (pad w)) (Z.of_nat n) t =
    Done (splice (drop (length w) (pad w)) 0 (t ++ [0]), Z.of_nat (length t)) ∧
  take (length w) (pad w) ++ splice (drop (length w) (pad w)) 0 (t ++ [0]) = pad (w ++ t).
Proof.
  intros Hn Hw Ht. unfold pad. rewrite drop_app_length, take_app_length. split.
  - unfold snprintf. rewrite (proj2 (Z.ltb_ge int_max _)) by (change int_max with 2147483647; unfold BUFF_INCREASE_NUM_BASE in *; lia).
    bool_lia. rewrite take_ge by lia. by rewrite mem_write_ok by (rewrite length_app, length_replicate; cbn [length]; lia).
  - unfold splice. rewrite take_0. cbn [app Nat.add]. rewrite drop_replicate, length_app, length_app, <- !app_assoc. do 2 f_equal.
    cbn [length app]. replace (BUFF_INCREASE_NUM_BASE - (length w + length t))%nat
      with (S (BUFF_INCREASE_NUM_BASE - length w - (length t + 1))) by lia. done.
Qed.

Lemma string_in x s y b d p :
  info_buf d = Some (pad b) → b = x ++ s ++ y → p = Some (length x) → nonzero s →
  (length x + length s < BUFF_INCREASE_NUM_BASE)%nat → match y with [] => True | c :: _ => c = 0 end →
  string_at d p = Done s.
Proof.
  intros Hb -> -> Hs Hl Hy. unfold string_at, buffer_of. rewrite Hb. cbn [mbind outcome_bind]. by apply pad_string.
Qed.

Lemma slashed_nonzero sd : nonzero sd → nonzero (slashed sd).
Proof. intros H. unfold slashed. case_decide; [done|]. apply Forall_app. split; [done|]. by repeat constructor. Qed.

Lemma url_nonzero u w i n : nonzero u → nonzero w → nonzero i → 0 <= n → nonzero (url_text u w i n).
Proof.
  intros Hu Hw Hi Hn. unfold url_text. repeat (apply Forall_app; split); try done; try (by repeat constructor).
  eapply Forall_impl; [by apply dec_digits|]. intros c Hc%is_digit_range. lia.
Qed.

(** The record of the descriptor, after its fields were set. *)
Ltac fields :=
  unfold set_info, set_ip, set_user, set_pass, set_base_dir, set_base_curl, set_conn;
  cbn [info_buf info_buf_len ip user pass base_dir
       base_curl fd_port p_timeout p_mode p_port p_ip p_user p_pass p_base_dir file_name_buff use_flag time_out ftp_mode p_curl pre].

Lemma put_parame_ok no_ret d i p :
  given p i → fits p → info_buf d = Some zeroed → info_buf_len d = Z.of_nat BUFF_INCREASE_NUM_BASE →
  ∃ d', put_parame no_ret i d = Done (d', no_ret) ∧ open_for p d' ∧
    time_out d' = p_timeout i ∧ ftp_mode d' = p_mode i ∧ use_flag d' = use_flag d ∧ pre d' = pre d ∧
    p_curl d' = p_curl d ∧ file_name_buff d' = file_name_buff d ∧ is_Some (info_buf d').
Proof.
  intros (ai & au & ap & ad & -> & Hi & Hu & Hp & Hd)%given_at [Hport Hfit] Hb Hn.
  unfold taken in Hfit. unfold put_parame. cbv zeta.
  pose proof (c_str_nonzero _ _ Hi) as Zi. pose proof (c_str_nonzero _ _ Hu) as Zu.
  pose proof (c_str_nonzero _ _ Hp) as Zp. pose proof (c_str_nonzero _ _ Hd) as Zd.
  destruct d as [ib fi fu fp fb fc fn il uf tm fm po pc pr]. cbn [info_buf info_buf_len] in Hb, Hn. subst ib il.
  destruct p as [si su sp sd port]. cbn [s_ip s_user s_pass s_dir s_port] in *.
  set (room := BUFF_INCREASE_NUM_BASE) in *.
  rewrite (with_string_next ai si [] _ _ room); [|done|by rewrite pad_nil|done|lia|cbn; lia]. cbn [app Nat.add]. fields.
  set (w1 := si ++ [0]). assert (length w1 = S (length si)) as L1 by (unfold w1; rewrite length_app; cbn; lia).
  rewrite (with_string_next au su w1 _ _ (room - length w1)); [|done..|lia|lia]. rewrite <- length_app. fields.
  set (w2 := w1 ++ su ++ [0]).
  assert (length w2 = S (length w1 + length su)) as L2 by (unfold w2; rewrite !length_app; cbn; lia).
  rewrite (with_string_next ap sp w2 _ _ (room - length w2)); [|done..| |lia|lia].
  2: { cbn. unfold w2. rewrite (length_app w1). f_equal. lia. }
  rewrite <- length_app. fields.
  set (w3 := w2 ++ sp ++ [0]).
  assert (length w3 = S (length w2 + length sp)) as L3 by (unfold w3; rewrite !length_app; cbn; lia).
  rewrite (with_string_ok ad sd 2 w3 _ _ (room - length w3)); [|done..| |lia|lia|lia].
  2: { cbn. unfold w3. rewrite (length_app w2). f_equal. lia. }
  fields. unfold buffer_of at 1. cbn [info_buf mbind outcome_bind].
  change (Z.to_nat 2) with 2%nat.
  destruct (slash_step w3 sd) as (x & -> & Hx); [unfold w3; by rewrite app_assoc, last_snoc|lia|].
  cbn [mbind outcome_bind]. rewrite Hx. cbn [mbind outcome_bind]. clear x Hx.
  destruct (slashed_shape sd) as (_ & Hsl & _). destruct (base_of_shape sd) as (k & Hk & Hbase & c0 & Hc0 & Ek).
  rewrite (pad_lookup _ _ c0) by (by rewrite lookup_app_r, Nat.sub_diag by lia). cbn [mbind outcome_bind].
  replace (if c0 =? 47 then S (length w3) else length w3) with (length w3 + k)%nat by (rewrite Ek; destruct (c0 =? 47); lia).
  fields.
  assert (w3 ++ slashed sd = w1 ++ su ++ 0 :: sp ++ 0 :: slashed sd) as E1.
  { unfold w3, w2. rewrite <- !app_assoc. done. }
  rewrite (string_in w1 su (0 :: sp ++ 0 :: slashed sd) (w3 ++ slashed sd) _ (Some (length w1))); [|done|exact E1|done|done|lia|done].
  cbn [mbind outcome_bind].
  rewrite (string_in w2 sp (0 :: slashed sd) (w3 ++ slashed sd) _ (Some (length w2))); [|done|unfold w3; by rewrite <- !app_assoc|done..|lia|done].
  cbn [mbind outcome_bind].
  rewrite (string_in [] si (0 :: su ++ 0 :: sp ++ 0 :: slashed sd) (w3 ++ slashed sd) _ (Some 0%nat));
    [|done|rewrite E1; unfold w1; by rewrite <- !app_assoc|done..|cbn; lia|done].
  cbn [mbind outcome_bind]. fields.
  set (e := (k + length sd + 1 - length (slashed sd))%nat).
  set (w4 := w3 ++ slashed sd ++ replicate (S e) 0).
  assert (length w4 = length w3 + k + (length sd + 2))%nat as L4.
  { unfold w4. rewrite !length_app, length_replicate. unfold e. lia. }
  set (url := url_text su sp si port). unfold base_url_of in Hfit. cbn [s_user s_pass s_ip s_port] in Hfit. fold url in Hfit.
  assert (pad (w3 ++ slashed sd) = pad w4) as E4.
  { unfold w4. rewrite app_assoc, pad_zeros; [done|]. rewrite length_app. unfold e. lia. }
  rewrite E4, <- L4.
  destruct (write_url w4 url (room - length w3 - (length sd + 2))) as [Hs1 Hs2]; [unfold room in *; lia..|].
  rewrite Hs1. cbn [mbind outcome_bind]. fields. rewrite Hs2. bool_lia.
  clear Hs1 Hs2. eexists. split; [reflexivity|]. fields.
  split; [|by split_and!].
  assert (w4 ++ url = w3 ++ slashed sd ++ 0 :: replicate e 0 ++ url) as E5.
  { unfold w4. cbn [replicate]. by rewrite <- !app_assoc. }
  assert (w3 ++ slashed sd ++ 0 :: replicate e 0 ++ url = w1 ++ su ++ 0 :: sp ++ 0 :: slashed sd ++ 0 :: replicate e 0 ++ url) as E6.
  { unfold w3, w2. rewrite <- !app_assoc. done. }
  unfold open_for. fields. cbn [s_ip s_user s_pass s_dir]. split_and!.
  - eapply (string_in [] si); [reflexivity|rewrite E5, E6; unfold w1; by rewrite <- !app_assoc|done..|cbn; lia|done].
  - eapply (string_in w1 su); [reflexivity|by rewrite E5, E6|done..|lia|done].
  - eapply (string_in w2 sp); [reflexivity|rewrite E5; unfold w3; by rewrite <- !app_assoc|done..|lia|done].
  - rewrite Hbase. eapply (string_in (w3 ++ take k (slashed sd)) (drop k (slashed sd)) (0 :: replicate e 0 ++ url)); [reflexivity| | | | |done].
    + rewrite E5, <- app_assoc, (app_assoc (take _ _)), take_drop. done.
    + cbn. rewrite length_app, length_take. pose proof (lookup_lt_Some _ _ _ Hc0). do 2 f_equal. lia.
    + apply Forall_drop. by apply slashed_nonzero.
    + rewrite length_app, length_take, length_drop. lia.
  - eapply (string_in w4 url []); [reflexivity|by rewrite app_nil_r|done| |unfold room in *; lia|done].
    apply url_nonzero; [done..|]. cbn in Hport. lia.
Qed.

(** ** The list of descriptors *)

Definition owned (l : list (positive * CURL_FTP_OPER_FD)) : Z := foldr (λ x n, buffers x.2 + 1 + n) 0 l.

Record fd_list (s : ftp) (l : list (positive * CURL_FTP_OPER_FD)) : Prop := {
  fd_chain : chain (fds s) (head_fd s) l;
  fd_nodup : NoDup l.*1;
  fd_tail : tail_fd s = last l.*1;
  fd_pre i a d : l !! i = Some (a, d) → pre d = match i with O => None | S j => l.*1 !! j end;
  fd_all a n : fds s !! a = Some n → a ∈ l.*1;
  fd_blocks : blocks s = owned l;
}.

Lemma fd_list_empty b : fd_list (Ftp ∅ None None b) [] ↔ b = 0.
Proof.
  split; [by intros [_ _ _ _ _ ?]|]. intros ->. constructor; cbn; try done. constructor.
Qed.

Lemma owned_app l1 l2 : owned (l1 ++ l2) = owned l1 + owned l2.
Proof. induction l1 as [|x l1 IH]; cbn; [done|]. unfold owned in *. lia. Qed.

(** Storing a descriptor at its place. *)
Lemma fd_store_ok s l1 a d l2 d' :
  fd_list s (l1 ++ (a, d) :: l2) → pre d' = pre d →
  ∃ s', store a d' s = Done s' ∧ fd_list s' (l1 ++ (a, d') :: l2).
Proof.
  intros [Hc Hnd Ht Hp Hall Hb] Hpre.
  destruct (chain_set l1 a d l2 _ _ d' Hc Hnd) as (q & Ha & Hc').
  assert ((l1 ++ (a, d') :: l2).*1 = (l1 ++ (a, d) :: l2).*1) as Hfst by (by rewrite !fmap_app).
  unfold store. rewrite (deref_ok _ _ _ Ha). cbn [mbind outcome_bind n_next n_data]. eexists. split; [reflexivity|].
  constructor; cbn [fds head_fd tail_fd blocks]; rewrite ?Hfst; try done.
  - intros i b e Hi. destruct (decide (i = length l1)) as [->|Hne].
    + rewrite list_lookup_middle in Hi by done. injection Hi as <- <-. rewrite Hpre.
      apply (Hp (length l1) a). by apply list_lookup_middle.
    + apply (Hp i b). destruct (decide (i < length l1)%nat).
      * rewrite lookup_app_l in * by done. done.
      * rewrite lookup_app_r in * by lia. by destruct (i - length l1)%nat eqn:E; [lia|].
  - intros b n. rewrite lookup_insert_Some. intros [[<- _]|[_ Hn]]; [|by eapply Hall].
    rewrite fmap_app. apply elem_of_app. right. left.
  - rewrite Hb, !owned_app. cbn. lia.
Qed.

Lemma update_ok s l1 a d l2 f :
  fd_list s (l1 ++ (a, d) :: l2) → pre (f d) = pre d → buffers (f d) = buffers d →
  ∃ s', update a f s = Done s' ∧ fd_list s' (l1 ++ (a, f d) :: l2).
Proof.
  intros H Hpre Hbuf. destruct (fd_store_ok s l1 a d l2 (f d) H Hpre) as (s' & Hs & H'). exists s'. split; [|done].
  rewrite <- Hs. unfold store, update.
  destruct (chain_set l1 a d l2 _ _ d (fd_chain _ _ H) (fd_nodup _ _ H)) as (q & Ha & _).
  rewrite (deref_ok _ _ _ Ha). cbn [mbind outcome_bind n_next n_data]. rewrite Hbuf. do 2 f_equal. lia.
Qed.

(** The first descriptor that is not in use. *)
Definition first_free (l : list (positive * CURL_FTP_OPER_FD)) : option nat := fst <$> list_find (λ x, use_flag x.2 = 0) l.

Lemma free_loop_ok h l : ∀ fuel p fd, chain h p l → (length l < fuel)%nat →
  free_loop fuel h p fd = Done (match first_free l with
                                | Some k => (l.*1 !! k, fd + Z.of_nat k)
                                | None => (None, fd + Z.of_nat (length l))
                                end).
Proof.
  induction l as [|[a d] l IH]; intros [|fuel] p fd Hc Hf; cbn in Hf; try lia.
  - cbn in Hc. subst p. cbn. by rewrite Z.add_0_r.
  - destruct Hc as (-> & q & Ha & Hc). cbn [free_loop]. rewrite (deref_ok _ _ _ Ha). cbn [mbind outcome_bind n_data n_next].
    unfold first_free. cbn [list_find snd]. destruct (Z.eqb_spec (use_flag d) 0) as [H0|H0].
    + rewrite decide_True by done. cbn. by rewrite Z.add_0_r.
    + rewrite decide_False by done. rewrite (IH fuel) by (done || lia). unfold first_free.
      destruct (list_find _ l) as [[k x]|]; cbn; do 2 f_equal; lia.
Qed.

Lemma walk_ok h l : ∀ k p, chain h p l → l ≠ [] → walk k h p = Done (l.*1 !! k).
Proof.
  induction l as [|[a d] l IH]; intros k p Hc Hne; [done|]. destruct Hc as (-> & q & Ha & Hc).
  destruct k as [|k]; cbn [walk]; [done|]. rewrite (deref_ok _ _ _ Ha). cbn [mbind outcome_bind n_next].
  destruct l as [|[b e] l]; [cbn in Hc; by subst q|]. pose proof Hc as (-> & _). by rewrite (IH k).
Qed.

(** A descriptor is found by its place. *)
Lemma find_fd_ok s l k : fd_list s l → find_fd (Z.of_nat k) s = Done (l.*1 !! k).
Proof.
  intros H. pose proof (fd_chain _ _ H) as Hc. unfold find_fd. rewrite (proj2 (Z.ltb_ge _ _)) by lia. cbn [orb].
  destruct l as [|[a d] l]; [cbn in Hc; by rewrite Hc|]. pose proof Hc as (Hhead & _).
  rewrite Hhead in *. cbn [negb]. rewrite Nat2Z.id. by apply walk_ok.
Qed.

(** ** Opening a descriptor *)

Lemma append_ok s l :
  fd_list s l → ∃ a s', append_fd s = Done (a, s') ∧
    fd_list s' (l ++ [(a, set_pre (last l.*1) (set_use 1 empty_fd))]).
Proof.
  intros [Hc Hnd Ht Hp Hall Hb]. pose proof (chain_fresh _ _ _ Hc) as Hfr. exists (new_addr (fds s)).
  unfold append_fd. destruct l as [|x l _] using rev_ind.
  - cbn in Hc. rewrite Hc. eexists. split; [reflexivity|]. cbn [last fmap list_fmap]. constructor; cbn [app fds head_fd tail_fd blocks].
    + cbn. split; [done|]. exists None. split; [apply lookup_insert_eq|done].
    + apply NoDup_singleton.
    + done.
    + intros [|i] a d; [by intros [= <- <-]|done].
    + intros a n. rewrite lookup_insert_Some. intros [[<- _]|[_ Hn]]; [left|]. by apply Hall, not_elem_of_nil in Hn.
    + rewrite Hb. done.
  - destruct x as [t e]. assert (head_fd s ≠ None) as Hne by (destruct l as [|[b f] l]; destruct Hc as (-> & _); done).
    destruct (head_fd s) as [h0|] eqn:Eh; [|done]. rewrite fmap_app in Ht. cbn in Ht. rewrite last_snoc in Ht. rewrite Ht.
    set (new := set_pre (Some t) (set_use 1 empty_fd)). set (a := new_addr (fds s)) in *.
    assert (chain (<[a := Node new None]> (fds s)) (Some h0) (l ++ [(t, e)])) as Hc1 by (by apply chain_insert).
    destruct (chain_snoc l _ _ t e (Some a) a new Hc1 Hnd Hfr (lookup_insert_eq _ _ _) eq_refl) as [Hte Hc2].
    rewrite (deref_ok _ _ _ Hte). cbn [mbind outcome_bind n_data mret outcome_ret]. eexists. split; [reflexivity|].
    rewrite fmap_app. cbn [fmap list_fmap fst]. rewrite last_snoc. fold new.
    constructor; cbn [fds head_fd tail_fd blocks].
    + by rewrite <- app_assoc.
    + rewrite fmap_app. apply NoDup_app. split_and!; [done| |apply NoDup_singleton].
      intros b Hb' ->%list_elem_of_singleton. done.
    + rewrite fmap_app. cbn [fmap list_fmap fst]. by rewrite last_snoc.
    + intros i b d Hi. rewrite fmap_app. apply lookup_app_Some in Hi as [Hi|[Hle Hi]].
      * rewrite (Hp i b d Hi). destruct i as [|j]; [done|]. rewrite lookup_app_l; [done|].
        rewrite length_fmap. apply lookup_lt_Some in Hi. lia.
      * apply list_lookup_singleton_Some in Hi as [Hi [= <- <-]].
        assert (i = S (length l)) as -> by (rewrite length_app in *; cbn in *; lia). cbn [pre set_pre new].
        rewrite lookup_app_l by (rewrite length_fmap, length_app; cbn; lia).
        rewrite fmap_app. symmetry. apply list_lookup_middle. by rewrite length_fmap.
    + intros b n. rewrite fmap_app. rewrite !lookup_insert_Some. intros [[<- _]|[_ [[<- _]|[_ Hn]]]].
      * apply elem_of_app. left. rewrite fmap_app. apply elem_of_app. right. left.
      * apply elem_of_app. right. left.
      * apply elem_of_app. left. by eapply Hall.
    + by rewrite owned_app, <- Hb.
Qed.

Lemma lookup_middle_ne {A} (l1 l2 : list A) x y j :
  j ≠ length l1 → (l1 ++ x :: l2) !! j = (l1 ++ y :: l2) !! j.
Proof.
  intros Hne. destruct (decide (j < length l1)%nat); [by rewrite !lookup_app_l|].
  rewrite !lookup_app_r by lia. by destruct (j - length l1)%nat eqn:E; [lia|].
Qed.

(** What opening a descriptor at place [k] leaves of the others. *)
Definition opened (l l' : list (positive * CURL_FTP_OPER_FD)) (k : nat) : Prop :=
  (∀ j, (j < length l)%nat → j ≠ k → l' !! j = l !! j) ∧ length l' = max (length l) (S k).

(** Descriptors that were given back still have their buffer. *)
Definition buffered (l : list (positive * CURL_FTP_OPER_FD)) : Prop :=
  Forall (λ x, use_flag x.2 = 0 → is_Some (info_buf x.2)) l.

Lemma init_at l1 a d l2 s i p no_ret :
  fd_list s (l1 ++ (a, d) :: l2) → given p i → fits p → use_flag d = 1 →
  info_buf d = None ∨ info_buf d = Some zeroed ∧ info_buf_len d = Z.of_nat BUFF_INCREASE_NUM_BASE →
  ∃ s' d', (n ← deref (fds s) (Some a);
            '(d', ret) ← init_curl_ftp_parame true no_ret (n_data n) i;
            s ← store a d' s; mret (s, if ret <? 0 then ret else Z.of_nat (length l1))) = Done (s', if no_ret <? 0 then no_ret else Z.of_nat (length l1)) ∧
    fd_list s' (l1 ++ (a, d') :: l2) ∧ open_for p d' ∧ use_flag d' = 1.
Proof.
  intros H Hg Hf Hu Hd. destruct (chain_set l1 a d l2 _ _ d (fd_chain _ _ H) (fd_nodup _ _ H)) as (q & Ha & _).
  rewrite (deref_ok _ _ _ Ha). cbn [mbind outcome_bind n_data].
  assert (∃ d', init_curl_ftp_parame true no_ret d i = Done (d', no_ret) ∧ open_for p d' ∧ use_flag d' = 1 ∧ pre d' = pre d)
    as (d' & -> & Ho & Hu' & Hp).
  { unfold init_curl_ftp_parame. destruct Hd as [Hd|[Hd Hlen]]; rewrite Hd.
    - edestruct (put_parame_ok no_ret (set_info (Some zeroed) (Z.of_nat BUFF_INCREASE_NUM_BASE) d))
        as (d' & E & ? & _ & _ & Hu' & Hp & _); [done..|]. exists d'. by rewrite Hu', Hp.
    - edestruct (put_parame_ok no_ret d) as (d' & E & ? & _ & _ & Hu' & Hp & _); [done..|]. exists d'. by rewrite Hu', Hp. }
  cbn [mbind outcome_bind]. destruct (fd_store_ok s l1 a d l2 d' H Hp) as (s' & -> & H').
  by exists s', d'.
Qed.

(** C35: opening a connection with parameters that fit, whatever [no_ret] the
    caller finds where [init_curl_ftp_parame] returns nothing: the first
    descriptor not in use, or a new one behind the others, is in use now and
    holds the strings it was given (the directory with a slash at its end and
    none in front) and the URL of the server; no other descriptor changes and
    the list stays what it is.  The number of that descriptor is returned when
    [no_ret] is not negative, and [no_ret] otherwise. *)
Theorem init_curl_ftp_fd_opens no_ret (s : ftp) l (i : CURL_FTP_INIT_PARAME) (p : params) :
  fd_list s l → buffered l → given p i → fits p →
  let k := default (length l) (first_free l) in
  ∃ s' l' a d, init_curl_ftp_fd (true, true) no_ret i s = Done (s', if no_ret <? 0 then no_ret else Z.of_nat k) ∧
    fd_list s' l' ∧ opened l l' k ∧ l' !! k = Some (a, d) ∧ use_flag d = 1 ∧ open_for p d.
Proof.
  intros H Hbuf Hg Hf. unfold init_curl_ftp_fd.
  pose proof (chain_size _ _ _ (fd_chain _ _ H) (fd_nodup _ _ H)) as Hsize.
  rewrite (free_loop_ok _ l) by (try apply H; lia). unfold first_free.
  destruct (list_find _ l) as [[k [a d]]|] eqn:Efree; cbn [fmap option_fmap option_map default mbind outcome_bind fst].
  - apply list_find_Some in Efree as (Hk & Hu & _). cbn in Hu. rewrite list_lookup_fmap, Hk. cbn [fmap option_fmap option_map fst snd].
    pose proof (lookup_lt_Some _ _ _ Hk) as Hlt.
    destruct (proj1 (Forall_lookup _ _) Hbuf k (a, d) Hk Hu) as [ib Hib]. cbn in Hib.
    set (l1 := take k l). set (l2 := drop (S k) l).
    assert (l = l1 ++ (a, d) :: l2) as El by (symmetry; by apply take_drop_middle).
    assert (length l1 = k) as L1 by (unfold l1; rewrite length_take; lia). rewrite El in H.
    destruct (update_ok s l1 a d l2 (set_use 1) H eq_refl eq_refl) as (s1 & -> & H1). cbn [mbind outcome_bind].
    destruct (chain_set l1 a _ l2 _ _ d (fd_chain _ _ H1) (fd_nodup _ _ H1)) as (q & Ha & _).
    rewrite (deref_ok _ _ _ Ha). cbn [mbind outcome_bind n_data]. unfold buffer_of. cbn [info_buf set_use]. rewrite Hib.
    cbn [mbind outcome_bind].
    edestruct (update_ok s1 l1 a _ l2 renewed H1) as (s2 & E2 & H2); [done|unfold buffers; cbn; by rewrite Hib|].
    rewrite E2. cbn [mbind outcome_bind mret outcome_ret]. rewrite Z.add_0_l. unfold id. rewrite <- L1.
    destruct (init_at l1 a _ l2 s2 i p no_ret H2) as (s3 & d' & -> & H3 & Ho & Hu'); [done..|by right|].
    exists s3, (l1 ++ (a, d') :: l2), a, d'. split; [done|]. split; [done|]. split; [split|].
    + intros j Hj Hne. rewrite El. by apply lookup_middle_ne.
    + rewrite El, !length_app. cbn. lia.
    + split; [by apply list_lookup_middle|done].
  - rewrite Z.add_0_l. destruct (append_ok s l H) as (a & s1 & -> & H1). cbn [mbind outcome_bind snd].
    destruct (init_at l a _ [] s1 i p no_ret H1) as (s2 & d & -> & H2 & Ho & Hu); [done..|by left|].
    exists s2, (l ++ [(a, d)]), a, d. split; [done|]. split; [done|]. split; [split|].
    + intros j Hj Hne. by rewrite lookup_app_l.
    + rewrite length_app. cbn. lia.
    + split; [by apply list_lookup_middle|done].
Qed.
