(* ===== verification/FtpOpsSpec.v ===== *)
(** * FTP client: the operations on open descriptors, and the end

    The theorems about the whole client: listings, commands and the memory it
    gives back. *)

From S2P Require Import Prelude CString FrameTool PsText PsList EsData EsRequest FtpListing FtpFd FtpOps FtpFdSpec.
From stdpp Require Import gmap strings.

Open Scope Z_scope.

(** ** Giving everything back *)

(** Cutting the last node off. *)
Lemma chain_cut {A} : ∀ (l : list (positive * A)) h p b e a d,
  chain h p (l ++ [(b, e); (a, d)]) → NoDup (l ++ [(b, e); (a, d)]).*1 →
  h !! b = Some (Node e (Some a)) ∧ h !! a = Some (Node d None) ∧
  chain (<[b := Node e None]> (delete a h)) p (l ++ [(b, e)]).
Proof.
  induction l as [|[c x] l IH]; intros h p b e a d; cbn [app chain fmap list_fmap fst].
  - intros (-> & q & Hb & -> & q' & Ha & ->) Hnd. split; [done|]. split; [done|]. split; [done|]. exists None.
    split; [apply lookup_insert_eq|done].
  - intros (-> & q & Hc & Hl) [Hni Hnd]%NoDup_cons. destruct (IH _ _ _ _ _ _ Hl Hnd) as (Hb & Ha & Hl').
    split; [done|]. split; [done|]. split; [done|]. exists q. split; [|done].
    rewrite fmap_app in Hni. cbn in Hni. rewrite !elem_of_app in Hni.
    rewrite lookup_insert_ne, lookup_delete_ne; [done|..].
    + intros ->. apply Hni. right. right. left.
    + intros ->. apply Hni. right. left.
Qed.

(** What the loop keeps: it leaves [tail] alone. *)
Record left_over (s : ftp) (l : list (positive * CURL_FTP_OPER_FD)) : Prop := {
  lo_chain : chain (fds s) (head_fd s) l;
  lo_nodup : NoDup l.*1;
  lo_pre i a d : l !! i = Some (a, d) → pre d = match i with O => None | S j => l.*1 !! j end;
  lo_all a n : fds s !! a = Some n → a ∈ l.*1;
  lo_blocks : blocks s = owned l;
}.

Lemma cleanup_loop_ok l : ∀ fuel s a d,
  left_over s (l ++ [(a, d)]) → (length l < fuel)%nat →
  ∃ h t, cleanup_loop fuel (Some a) s = Done (Ftp ∅ h t 0).
Proof.
  induction l as [|[b e] l IH] using rev_ind; intros [|fuel] s a d [Hc Hnd Hp Hall Hb] Hf; try (cbn in Hf; lia); cbn [cleanup_loop].
  - destruct Hc as (Hh & q & Ha & ->). rewrite (deref_ok _ _ _ Ha). cbn [mbind outcome_bind n_data].
    rewrite (Hp 0%nat a d eq_refl). unfold free_node. rewrite bool_decide_eq_true_2 by eauto. cbn [mbind outcome_bind].
    exists (head_fd s), (tail_fd s). cbn in Hb. unfold mret, outcome_ret. do 2 f_equal; [|lia].
    apply map_eq. intros b. rewrite lookup_empty. apply eq_None_not_Some. intros [n [Hne Hn]%lookup_delete_Some].
    apply Hall in Hn. by apply list_elem_of_singleton in Hn.
  - rewrite <- app_assoc in *. cbn [app] in *. destruct (chain_cut _ _ _ _ _ _ _ Hc Hnd) as (Hbn & Ha & Hc').
    rewrite (deref_ok _ _ _ Ha). cbn [mbind outcome_bind n_data].
    rewrite (Hp (S (length l)) a d).
    2: { rewrite lookup_app_r by lia. by replace (S (length l) - length l)%nat with 1%nat by lia. }
    rewrite fmap_app. cbn [fmap list_fmap fst]. rewrite list_lookup_middle by (by rewrite length_fmap).
    rewrite (deref_ok _ _ _ Hbn). cbn [mbind outcome_bind n_next]. unfold free_node.
    rewrite bool_decide_eq_true_2 by eauto. cbn [mbind outcome_bind].
    assert (a ≠ b) as Hab.
    { intros ->. rewrite fmap_app in Hnd. apply NoDup_app in Hnd as (_ & _ & Hnd). cbn in Hnd. by apply NoDup_cons in Hnd as [[]%not_elem_of_cons _]. }
    rewrite (deref_ok _ b (Node e (Some a))) by (by rewrite lookup_delete_ne). cbn [mbind outcome_bind n_data].
    assert (l ++ [(b, e); (a, d)] = (l ++ [(b, e)]) ++ [(a, d)]) as El by (by rewrite <- app_assoc).
    apply (IH _ _ b e); [|rewrite length_app in Hf; cbn in Hf; lia]. constructor; cbn [fds head_fd blocks].
    + done.
    + rewrite El, fmap_app in Hnd. by apply NoDup_app in Hnd as [? _].
    + intros i c f Hi. pose proof (lookup_lt_Some _ _ _ Hi) as Hlt.
      rewrite (Hp i c f) by (rewrite El; by apply lookup_app_l_Some).
      destruct i as [|j]; [done|]. rewrite El, fmap_app, lookup_app_l; [done|].
      rewrite length_fmap. lia.
    + intros c n. rewrite lookup_insert_Some, lookup_delete_Some. rewrite fmap_app, elem_of_app. cbn.
      intros [[<- _]|[Hbc [Hac Hn]]]; [right; left|]. apply Hall in Hn. rewrite fmap_app, elem_of_app in Hn.
      destruct Hn as [Hn|[->|[->|Hn]%elem_of_cons]%elem_of_cons]; [by left|done|done|by apply not_elem_of_nil in Hn].
    + rewrite Hb, !owned_app. cbn. lia.
Qed.

(** C32: the end of the client gives back every block it has: the descriptors,
    their buffers and their line buffers, each once, whatever was opened, given
    back and listed before; no descriptor is reached after that. *)
Theorem global_curl_ftp_cleanup_frees s l :
  fd_list s l → global_curl_ftp_cleanup s = Done (Ftp ∅ None None 0).
Proof.
  intros [Hc Hnd Ht Hp Hall Hb]. unfold global_curl_ftp_cleanup.
  pose proof (chain_size _ _ _ Hc Hnd) as Hsize. destruct l as [|[a d] l _] using rev_ind.
  - cbn in Hc. rewrite Hc. cbn. rewrite Hb. do 2 f_equal. apply map_eq. intros b. rewrite lookup_empty.
    apply eq_None_not_Some. intros [n Hn]. by apply Hall, not_elem_of_nil in Hn.
  - assert (∃ h0, head_fd s = Some h0) as [h0 Hh] by (destruct l as [|[b e] l]; destruct Hc as (-> & _); eauto).
    rewrite Hh, Ht, fmap_app. cbn [fmap list_fmap fst]. rewrite last_snoc. rewrite length_app in Hsize. cbn in Hsize.
    destruct (cleanup_loop_ok l (S (size (fds s))) s a d) as (h & t & ->); [by constructor|lia|done].
Qed.

(** ** Commands and transfers *)

(** An operation by the texts it is given. *)
Inductive request :=
  | Upload (up_file : list Z) (re_path to_name : option (list Z)) (st_size : option Z)
  | Download (down_file : list Z) (re_path : option (list Z)) (to : list Z)
  | Rename (origin : list Z) (re_path : option (list Z)) (to : list Z)
  | Delete (re_path : option (list Z)) (file : list Z)
  | DeleteDir (re_path : list Z)
  | CreateDir (re_path : list Z).

Definition arg (t : list Z) : text := Some (t ++ [0]).
Definition opt_arg (t : option (list Z)) : text := t ≫= arg.

Definition ask (c : curl) (fop : Z) (r : request) (s : ftp) : outcome result :=
  match r with
  | Upload f p t size => upload_curl_ftp_file c true size fop (arg f) (opt_arg p) (opt_arg t) s
  | Download f p t => download_curl_ftp_file c true fop (arg f) (opt_arg p) (arg t) s
  | Rename o p t => rename_curl_ftp_file c fop (arg o) (opt_arg p) (arg t) s
  | Delete p f => delete_curl_ftp_file c fop (opt_arg p) (arg f) s
  | DeleteDir p => delete_curl_ftp_dir c fop (arg p) s
  | CreateDir p => create_curl_ftp_dir c fop (arg p) s
  end.

Definition base_name (path : list Z) : list Z := match last_index 47 path with Some i => drop i path | None => path end.
(** The commands that the request sends besides the transfer. *)
Definition commands (r : request) : list (list Z) :=
  match r with
  | Upload f _ (Some t) _ => [RNFR (base_name f); RNTO t]
  | Upload _ _ None _ | Download _ _ _ => []
  | Rename o _ t => [RNFR o; RNTO t]
  | Delete _ f => [bytes "DELE " ++ f]
  | DeleteDir p => [bytes "RMD " ++ p]
  | CreateDir p => [bytes "MKD " ++ p]
  end.
(** The path of the request, behind the server's URL and its directory. *)
Definition below (re_path : option (list Z)) (name : list Z) : list Z :=
  match re_path with Some p => p ++ slash ++ name | None => name end.
Definition target (r : request) : list Z :=
  match r with
  | Upload f p _ _ => below p (base_name f)
  | Download f p _ => below p f
  | Rename o p _ => below p o
  | Delete p f => below p f
  | DeleteDir _ | CreateDir _ => []
  end.
Definition texts (r : request) : list (list Z) :=
  match r with
  | Upload f p t _ => [f] ++ option_list p ++ option_list t
  | Download f p t => [f; t] ++ option_list p
  | Rename o p t => [o; t] ++ option_list p
  | Delete p f => [f] ++ option_list p
  | DeleteDir p | CreateDir p => [p]
  end.

(** What libcurl sees of the calls. *)
Definition urls (acts : list action) : list (list Z) :=
  omap (λ a, match a with curl_easy_setopt (CURLOPT_URL u) => Some u | _ => None end) acts.
Definition quoted (acts : list action) : list (list Z) :=
  concat (omap (λ a, match a with
                     | curl_easy_setopt (CURLOPT_QUOTE l) | curl_easy_setopt (CURLOPT_POSTQUOTE l) => Some l
                     | _ => None end) acts).
Definition transfers (acts : list action) : nat := length (omap (λ a, match a with curl_easy_perform => Some tt | _ => None end) acts).
(** Handles and files taken less those given back. *)
Definition held (acts : list action) : Z :=
  foldr (λ a n, match a with curl_easy_init => n + 1 | curl_easy_cleanup => n - 1 | _ => n end) 0 acts.
Definition files_open (acts : list action) : Z :=
  foldr (λ a n, match a with fopen _ _ => n + 1 | fclose => n - 1 | _ => n end) 0 acts.

Lemma sprintf_ok t : (length t < BUFF_CMD_CURLFTP_LEN)%nat → sprintf t = Done t.
Proof. intros H. unfold sprintf. by rewrite (proj2 (Nat.ltb_lt _ _) H). Qed.

Lemma fmt_arg t : nonzero t → fmt_s (arg t) = Done t.
Proof. intros H. by apply c_str_app. Qed.

Lemma file_url_ok p d r name :
  open_for p d → nonzero (default [] r) → (length (base_url_of p ++ base_of (s_dir p) ++ below r name) < BUFF_CMD_CURLFTP_LEN)%nat →
  file_url d (opt_arg r) name = Done (base_url_of p ++ base_of (s_dir p) ++ below r name).
Proof.
  intros (_ & _ & _ & Hdir & Hbase) Hr Hl. unfold file_url. rewrite Hbase. cbn [mbind outcome_bind]. rewrite Hdir. cbn [mbind outcome_bind].
  destruct r as [r|]; cbn [opt_arg mbind option_bind below arg] in *; [|by apply sprintf_ok].
  change (Some (r ++ [0])) with (arg r). rewrite fmt_arg by done. by apply sprintf_ok.
Qed.

Lemma base_url_ok p d :
  open_for p d → (length (base_url_of p ++ base_of (s_dir p)) < BUFF_CMD_CURLFTP_LEN)%nat →
  base_url d = Done (base_url_of p ++ base_of (s_dir p)).
Proof.
  intros (_ & _ & _ & Hdir & Hbase) Hl. unfold base_url. rewrite Hbase. cbn [mbind outcome_bind]. rewrite Hdir. by apply sprintf_ok.
Qed.

(** The frame: a body that does its work on the descriptor with a new handle. *)
Lemma with_fd_ok c s l1 a d l2 body d' acts calls ret :
  fd_list s (l1 ++ (a, d) :: l2) → easy_init c = true →
  body (set_p_curl true d) = Done (d', acts, calls, ret) → pre d' = pre d →
  ∃ s', with_fd (Z.of_nat (length l1)) true c s body =
    Done (s', ((if p_curl d then [curl_easy_cleanup] else []) ++ [curl_easy_init]) ++ acts, calls, ret) ∧
    fd_list s' (l1 ++ (a, d') :: l2).
Proof.
  intros H Hc Hb Hp. unfold with_fd. cbn [negb]. rewrite (find_fd_ok _ _ _ H).
  rewrite fmap_app. cbn [fmap list_fmap fst]. rewrite list_lookup_middle by (by rewrite length_fmap). cbn [mbind outcome_bind].
  destruct (chain_set l1 a d l2 _ _ d (fd_chain _ _ H) (fd_nodup _ _ H)) as (q & Ha & _).
  rewrite (deref_ok _ _ _ Ha). cbn [mbind outcome_bind n_data renew]. rewrite Hc. cbn [negb]. rewrite Hb. cbn [mbind outcome_bind].
  destruct (fd_store_ok s l1 a d l2 d' H Hp) as (s' & -> & H'). exists s'. by split.
Qed.

(** The same by the number of the descriptor. *)
Lemma with_fd_at c s l k a d body d' acts calls ret :
  fd_list s l → l !! k = Some (a, d) → easy_init c = true →
  body (set_p_curl true d) = Done (d', acts, calls, ret) → pre d' = pre d →
  ∃ s', with_fd (Z.of_nat k) true c s body =
    Done (s', ((if p_curl d then [curl_easy_cleanup] else []) ++ [curl_easy_init]) ++ acts, calls, ret) ∧
    fd_list s' (<[k := (a, d')]> l).
Proof.
  intros H Hk Hc Hb Hp. pose proof (lookup_lt_Some _ _ _ Hk) as Hlt. rewrite <- (take_drop_middle _ _ _ Hk) in H.
  destruct (with_fd_ok c s (take k l) a d (drop (S k) l) body d' acts calls ret H Hc Hb Hp) as (s' & Hs & H').
  rewrite length_take, Nat.min_l in Hs by lia. exists s'. split; [done|]. by rewrite insert_take_drop.
Qed.

Lemma name_from_ok f : nonzero f → name_from (f ++ [0]) = Done (base_name f).
Proof. intros H. unfold name_from. by rewrite c_str_app. Qed.

(** What a request makes of a descriptor with a handle. *)
Definition answered (p : params) (r : request) (acts : list action) : Prop :=
  urls acts = [base_url_of p ++ base_of (s_dir p) ++ target r] ∧ quoted acts = commands r ∧ transfers acts = 1%nat ∧
  held acts = -1 ∧ files_open acts = 0.

Lemma answered_intro p r acts1 l opts acts2 :
  urls (curl_easy_setopt <$> opts) = [base_url_of p ++ base_of (s_dir p) ++ target r] →
  quoted (curl_easy_setopt <$> opts) = commands r →
  (acts1 = [] ∧ acts2 = [] ∨ ∃ n m, acts1 = [fopen n m] ∧ acts2 = [fclose]) →
  answered p r (acts1 ++ (slist_append <$> l) ++ transfer opts ++ acts2).
Proof.
  intros Hu Hq Ho.
  assert (∀ B (f : action → option B) b, f fclose = None → omap f (b ++ acts2) = omap f b) as Hend.
  { intros B f b Hf. rewrite omap_app. destruct Ho as [[_ ->]|(n & m & _ & ->)]; cbn; rewrite ?Hf; by rewrite app_nil_r. }
  assert (∀ b c, held (b ++ c) = held b + held c ∧ files_open (b ++ c) = files_open b + files_open c) as Hsum.
  { intros b c. unfold held, files_open. induction b as [|x b [IH1 IH2]]; [done|]. cbn [app foldr]. rewrite IH1, IH2. by destruct x; split; lia. }
  assert (held (curl_easy_setopt <$> opts) = 0 ∧ files_open (curl_easy_setopt <$> opts) = 0) as [Hh Hf].
  { clear. induction opts as [|o opts IH]; [done|]. exact IH. }
  assert (held (slist_append <$> l) = 0 ∧ files_open (slist_append <$> l) = 0) as [Hh' Hf'].
  { clear. induction l as [|o l IH]; [done|]. exact IH. }
  assert (omap (λ a : action, match a with curl_easy_perform => Some tt | _ => None end) (curl_easy_setopt <$> opts) = []) as Ht.
  { clear. induction opts as [|o opts IH]; [done|]. exact IH. }
  assert (∀ B (f : action → option B) b, (∀ x, f (slist_append x) = None) → (∀ n m, f (fopen n m) = None) →
    omap f (acts1 ++ (slist_append <$> l) ++ b) = omap f b) as Hskip.
  { intros B f b Hs Hfo. rewrite !omap_app. replace (omap f (slist_append <$> l)) with (@nil B).
    - destruct Ho as [[-> _]|(n & m & -> & _)]; [done|]. cbn. by rewrite Hfo.
    - symmetry. clear -Hs. induction l as [|x l IH]; [done|]. cbn. rewrite Hs. exact IH. }
  unfold answered. split; [|split; [|split; [|split]]].
  - unfold urls, transfer. rewrite Hskip, Hend, omap_app by done. cbn. by rewrite app_nil_r.
  - unfold quoted, transfer. rewrite Hskip, Hend, omap_app by done. cbn. by rewrite app_nil_r.
  - unfold transfers, transfer. by rewrite Hskip, Hend, omap_app, Ht by done.
  - unfold transfer. rewrite !(proj1 (Hsum _ _)), Hh, Hh'. by destruct Ho as [[-> ->]|(n & m & -> & ->)].
  - unfold transfer. rewrite !(proj2 (Hsum _ _)), Hf, Hf'. by destruct Ho as [[-> ->]|(n & m & -> & ->)].
Qed.

(** One command on the descriptor. *)
Lemma command_answered c d p r url :
  url = base_url_of p ++ base_of (s_dir p) ++ target r →
  ∃ acts, command c d (commands r) url = (set_p_curl false d, acts, [], perform c) ∧ answered p r acts.
Proof.
  intros ->. eexists. split; [reflexivity|]. rewrite <- (app_nil_r (transfer _)).
  apply (answered_intro p r [] (commands r) _ []); [unfold urls; cbn; unfold mode_option; by destruct (ftp_mode d)| |by left].
  unfold quoted. cbn. unfold mode_option. destruct (ftp_mode d); apply app_nil_r.
Qed.

Lemma optional_nonzero r : Forall nonzero (option_list r) → nonzero (default [] r).
Proof. destruct r; [by intros [? _]%Forall_cons|constructor]. Qed.

(** The texts of a request, read and written into the command buffer. *)
Ltac read_texts :=
  repeat (first [rewrite fmt_arg by done | rewrite sprintf_ok by done]; cbn [mbind outcome_bind negb]).

(** C20: a request on an open descriptor, when libcurl gives a handle and the
    texts fit: one transfer goes out, to the URL of the server, the directory of
    the descriptor and the path and the name of the request in this order;
    the commands it carries are those of the request; the caller gets what the
    transfer returned; no handle and no file stay open, and the descriptor is
    as it was. *)
Theorem request_sent c s l k a d p r :
  fd_list s l → l !! k = Some (a, d) → open_for p d → easy_init c = true →
  Forall nonzero (texts r) → Forall (λ t, (length t < BUFF_CMD_CURLFTP_LEN)%nat) (commands r) →
  (length (base_url_of p ++ base_of (s_dir p) ++ target r) < BUFF_CMD_CURLFTP_LEN)%nat →
  ∃ s' before acts, ask c (Z.of_nat k) r s = Done (s', before ++ acts, [], perform c) ∧
    before = (if p_curl d then [curl_easy_cleanup] else []) ++ [curl_easy_init] ∧ answered p r acts ∧
    fd_list s' (<[k := (a, set_p_curl false d)]> l).
Proof.
  intros H Hk Ho Hc Htexts Hcmds Hurl. set (d1 := set_p_curl true d).
  assert (open_for p d1) as Ho1 by exact Ho.
  assert (∀ body acts, body d1 = Done (set_p_curl false d1, acts, [], perform c) → answered p r acts →
    ∃ s' before acts, with_fd (Z.of_nat k) true c s body = Done (s', before ++ acts, [], perform c) ∧
    before = (if p_curl d then [curl_easy_cleanup] else []) ++ [curl_easy_init] ∧ answered p r acts ∧
    fd_list s' (<[k := (a, set_p_curl false d)]> l)) as Hframe.
  { intros body acts Hb Ha. destruct (with_fd_at c s l k a d body _ acts [] _ H Hk Hc Hb eq_refl) as (s' & Hs & H').
    exists s', ((if p_curl d then [curl_easy_cleanup] else []) ++ [curl_easy_init]), acts. by split_and!. }
  destruct r as [f p' t size|f p' t|o p' t|p' f|p'|p']; cbn [texts commands target ask] in *;
    repeat (apply Forall_cons in Htexts as [? Htexts] || apply Forall_app in Htexts as [? Htexts] || apply Forall_cons in Hcmds as [? Hcmds]);
    unfold upload_curl_ftp_file, download_curl_ftp_file, rename_curl_ftp_file, delete_curl_ftp_file, delete_curl_ftp_dir,
      create_curl_ftp_dir; cbn [arg].
  - destruct t as [t|]; cbn [opt_arg mbind option_bind option_list commands] in *;
      repeat (apply Forall_cons in Htexts as [? Htexts] || apply Forall_cons in Hcmds as [? Hcmds]);
      (eapply Hframe; [cbn beta; rewrite (fmt_arg f) by done; cbn [mbind outcome_bind]; rewrite name_from_ok by done; cbn [mbind outcome_bind negb];
         rewrite ?fmt_arg by done; cbn [mbind outcome_bind]; rewrite ?sprintf_ok by done; cbn [mbind outcome_bind mret outcome_ret];
         rewrite (file_url_ok p) by (by auto using optional_nonzero); reflexivity|]).
    + apply (answered_intro p (Upload f p' (Some t) size) [_] [_; _] _ [_]); [..|by right; eauto];
        unfold urls, quoted; cbn; unfold mode_option; by destruct (ftp_mode d1).
    + apply (answered_intro p (Upload f p' None size) [_] [] _ [_]); [..|by right; eauto];
        unfold urls, quoted; cbn; unfold mode_option; by destruct (ftp_mode d1).
  - eapply Hframe.
    + cbn beta. read_texts. rewrite (file_url_ok p) by (by auto using optional_nonzero). reflexivity.
    + apply (answered_intro p (Download f p' t) [_] [] _ [_]); [..|by right; eauto];
        unfold urls, quoted; cbn; unfold mode_option; by destruct (ftp_mode d1).
  - destruct (command_answered c d1 p (Rename o p' t) _ eq_refl) as (acts & Hcmd & Ha). apply (Hframe _ acts); [|done].
    cbn beta. read_texts. rewrite (file_url_ok p) by (by auto using optional_nonzero). cbn [mbind outcome_bind]. by rewrite <- Hcmd.
  - destruct (command_answered c d1 p (Delete p' f) _ eq_refl) as (acts & Hcmd & Ha). apply (Hframe _ acts); [|done].
    cbn beta. read_texts. rewrite (file_url_ok p) by (by auto using optional_nonzero). cbn [mbind outcome_bind]. by rewrite <- Hcmd.
  - destruct (command_answered c d1 p (DeleteDir p') _ eq_refl) as (acts & Hcmd & Ha). apply (Hframe _ acts); [|done].
    cbn beta. read_texts. rewrite app_nil_r in Hurl. rewrite (base_url_ok p) by done. cbn [mbind outcome_bind].
    rewrite <- Hcmd. cbn [target]. by rewrite app_nil_r.
  - destruct (command_answered c d1 p (CreateDir p') _ eq_refl) as (acts & Hcmd & Ha). apply (Hframe _ acts); [|done].
    cbn beta. read_texts. rewrite app_nil_r in Hurl. rewrite (base_url_ok p) by done. cbn [mbind outcome_bind].
    rewrite <- Hcmd. cbn [target]. by rewrite app_nil_r.
Qed.

(** ** Listings *)

(** Every line buffer is missing or zeroed between the operations. *)
Definition all_clean (l : list (positive * CURL_FTP_OPER_FD)) : Prop := Forall (λ x, clean (file_name_buff x.2)) l.

(** The URL of a folder ends in a slash. *)
Definition folder_of (re_path : option (list Z)) : list Z :=
  match re_path with Some r => slashed r | None => [] end.

Lemma folder_url_ok p d r :
  open_for p d → nonzero (default [] r) → r ≠ Some [] →
  (length (base_url_of p ++ base_of (s_dir p) ++ folder_of r) < BUFF_CMD_CURLFTP_LEN)%nat →
  folder_url d (opt_arg r) = Done (base_url_of p ++ base_of (s_dir p) ++ folder_of r).
Proof.
  intros Ho Hr Hne Hl. destruct r as [r|]; cbn [opt_arg mbind option_bind folder_of] in *.
  - unfold folder_url, arg, frame_strlen. rewrite (str_scan_len_spec _ r) by (by apply c_str_app). cbn [mbind outcome_bind mret outcome_ret].
    destruct r as [|x r _] using rev_ind; [done|]. rewrite length_app. cbn [length]. bool_lia.
    rewrite (rd_ok _ _ x).
    2: { rewrite <- app_assoc. apply list_lookup_middle. lia. }
    cbn [mbind outcome_bind]. change (Some ((r ++ [x]) ++ [0])) with (arg (r ++ [x])).
    rewrite fmt_arg by done. cbn [mbind outcome_bind].
    destruct Ho as (_ & _ & _ & Hdir & Hbase). rewrite Hbase. cbn [mbind outcome_bind]. rewrite Hdir. cbn [mbind outcome_bind].
    assert (slashed (r ++ [x]) = (r ++ [x]) ++ (if x =? 47 then [] else slash)) as E.
    { unfold slashed. rewrite last_snoc. destruct (Z.eqb_spec x 47); case_decide; try congruence; by rewrite ?app_nil_r. }
    rewrite E in *. by apply sprintf_ok.
  - rewrite app_nil_r in *. by apply base_url_ok.
Qed.

(** C4: listing a folder on an open descriptor, for a listing whose lines are
    [item_ok] (entries of more than 49 bytes, sizes that are an [int], names that
    start with an ASCII character), however it is cut into pieces (in the middle
    of a line, of a name or of a size), as long as a NUL stands behind each
    piece, which libcurl does not promise: the user's function is called once
    for each entry, in order, with its name, its size and its kind, and for nothing else; the transfer went to the URL of the folder, its
    result is returned, and the descriptor is ready for the next operation. *)
Theorem scan_curl_ftp_folder_lists c malloc_ok s l k a d p re_path (items : list item) (last : item) (cs : list (list Z)) :
  fd_list s l → all_clean l → l !! k = Some (a, d) → open_for p d → easy_init c = true →
  (∀ j, malloc_ok j = true) →
  nonzero (default [] re_path) → re_path ≠ Some [] →
  (length (base_url_of p ++ base_of (s_dir p) ++ folder_of re_path) < BUFF_CMD_CURLFTP_LEN)%nat →
  Forall item_ok items → item_ok last → concat cs = listing items last → Forall2 terminated cs (pieces c) →
  ∃ s' l' acts, scan_curl_ftp_folder c malloc_ok (Z.of_nat k) (opt_arg re_path) s =
      Done (s', acts, omap item_call (items ++ [last]), perform c) ∧
    urls acts = [base_url_of p ++ base_of (s_dir p) ++ folder_of re_path] ∧ fd_list s' l' ∧ all_clean l'.
Proof.
  intros H Hclean Hk Ho Hc Hmal Hr Hne Hl Hok Hlast Hcs Hps.
  assert (clean (file_name_buff d)) as Hd by exact (proj1 (Forall_lookup _ _) Hclean k (a, d) Hk).
  destruct (listing_in_pieces malloc_ok items last cs (pieces c) (file_name_buff d)) as (b & calls & rest & b' & Hs & Hlastline & Hcalls & Hb');
    [done..|].
  set (url := base_url_of p ++ base_of (s_dir p) ++ folder_of re_path).
  destruct (with_fd_at c s l k a d (λ d, url ← folder_url d (opt_arg re_path);
      '(b, calls) ← scan_pieces malloc_ok 0 (pieces c) (file_name_buff d);
      '(b, rest) ← last_line b;
      mret (set_p_curl false (set_file_name_buff b d), transfer (curl_scan_file_option d url), calls ++ rest, perform c))
    (set_p_curl false (set_file_name_buff b' (set_p_curl true d))) (transfer (curl_scan_file_option (set_p_curl true d) url))
    (calls ++ rest) (perform c) H Hk Hc) as (s' & Hscan & H'); [|done|].
  - rewrite (folder_url_ok p) by done. cbn [mbind outcome_bind file_name_buff set_p_curl]. rewrite Hs. cbn [mbind outcome_bind].
    rewrite Hlastline. done.
  - rewrite Hcalls in Hscan. eexists s', _, _. split; [exact Hscan|]. split; [|split; [exact H'|]].
    + unfold urls, transfer, curl_scan_file_option, mode_option. destruct (p_curl d); cbn; by destruct (ftp_mode d).
    + by apply Forall_insert.
Qed.

(** ** FTP client: the theorems at a server, and what goes wrong

    Concrete descriptors and listings, and the inputs on which the client does
    not do what it means to. *)

(** ** A server *)

Definition server : params := ServerParams (bytes "192.168.8.22") (bytes "appftp") (bytes "123") (bytes "/usr/app/22") 21.
Definition server_parame : CURL_FTP_INIT_PARAME :=
  InitParame (arg (s_ip server)) (arg (s_user server)) (arg (s_pass server)) (arg (s_dir server)) 300 CURL_FTP_EPSV 21.
Definition no_fds : ftp := Ftp ∅ None None 0.
Definition done_or {A} (x : A) (o : outcome A) : A := match o with Done a => a | _ => x end.
(** Two descriptors; the first was given back. *)
Definition opened_twice : ftp :=
  let open s := (done_or (s, 0) (init_curl_ftp_fd (true, true) 0 server_parame s)).1 in
  let s := open (open no_fds) in done_or s (reset_curl_ftp_fd 0 s).

Definition nodes_of (s : ftp) : list (positive * CURL_FTP_OPER_FD) :=
  omap (λ a, (λ n, (a, n_data n)) <$> fds s !! a) [1%positive; 2%positive].

Lemma owned_sample : fd_list opened_twice (nodes_of opened_twice).
Proof.
  constructor.
  - vm_compute. split; [reflexivity|]. eexists. split; [reflexivity|]. split; [reflexivity|]. eexists. split; reflexivity.
  - vm_compute. apply NoDup_cons. split; [|apply NoDup_singleton]. by intros ?%list_elem_of_singleton.
  - vm_compute. reflexivity.
  - intros [|[|i]] a d Hi; vm_compute in Hi; simplify_eq; reflexivity.
  - intros a n Hn. apply elem_of_map_to_list in Hn.
    assert (a ∈ (map_to_list (fds opened_twice)).*1) as Ha by (apply list_elem_of_fmap; by exists (a, n)).
    revert Ha. generalize a. apply Forall_forall. apply (bool_decide_unpack _). vm_compute. exact I.
  - vm_compute. reflexivity.
Qed.

Lemma server_given : given server server_parame ∧ fits server.
Proof.
  split; [|vm_compute; split; [split; [discriminate|reflexivity]|lia]].
  unfold given. split_and!; [eexists; split; [reflexivity|vm_compute; reflexivity]..|reflexivity].
Qed.

Lemma buffered_sample : buffered (nodes_of opened_twice).
Proof.
  assert (forallb (λ x, negb (use_flag x.2 =? 0) || (if info_buf x.2 then true else false)) (nodes_of opened_twice) = true) as H
    by (vm_compute; reflexivity).
  apply Forall_forall. intros x Hx Hu. rewrite forallb_forall in H. apply list_elem_of_In, H in Hx.
  rewrite Hu in Hx. cbn in Hx. by destruct (info_buf x.2); [eexists|].
Qed.

(** The first descriptor is taken again. *)
Lemma init_curl_ftp_fd_opens_witness :
  fd_list opened_twice (nodes_of opened_twice) ∧ buffered (nodes_of opened_twice) ∧ given server server_parame ∧ fits server ∧
  ∃ s' l' a d, init_curl_ftp_fd (true, true) 0 server_parame opened_twice = Done (s', 0) ∧
    fd_list s' l' ∧ opened (nodes_of opened_twice) l' 0 ∧ l' !! 0%nat = Some (a, d) ∧ use_flag d = 1 ∧ open_for server d.
Proof.
  pose proof buffered_sample as Hb.
  destruct server_given as [Hg Hf].
  split; [exact owned_sample|]. split; [exact Hb|]. split; [exact Hg|]. split; [exact Hf|].
  assert (default (length (nodes_of opened_twice)) (first_free (nodes_of opened_twice)) = 0%nat) as E by (vm_compute; reflexivity).
  pose proof (init_curl_ftp_fd_opens 0 opened_twice (nodes_of opened_twice) server_parame server owned_sample Hb Hg Hf) as H.
  cbv zeta in H. rewrite E in H. exact H.
Defined.

Lemma global_curl_ftp_cleanup_frees_witness :
  fd_list opened_twice (nodes_of opened_twice) ∧ blocks opened_twice = 4 ∧
  global_curl_ftp_cleanup opened_twice = Done (Ftp ∅ None None 0).
Proof.
  split; [exact owned_sample|]. split; [vm_compute; reflexivity|].
  exact (global_curl_ftp_cleanup_frees opened_twice (nodes_of opened_twice) owned_sample).
Defined.

(** ** Its listing *)

Definition logs : entry :=
  Entry FOLDER_MODE (bytes "rwxr-xr-x", 3%nat) (bytes "2", 0%nat) (bytes "503", 5%nat) (bytes "503", 10%nat)
    (4096, 0%nat) (bytes "Apr", 0%nat) (bytes "17", 0%nat) (bytes "12:09", 0%nat) (bytes "logs").
Definition data : entry :=
  Entry FILE_MODE (bytes "rw-r--r--", 3%nat) (bytes "1", 0%nat) (bytes "503", 5%nat) (bytes "503", 10%nat)
    (3950, 0%nat) (bytes "Apr", 0%nat) (bytes "17", 0%nat) (bytes "12:09", 0%nat) (bytes "01779-ST SOURCE.bcp").
Definition sample_items : list item := [Other (bytes "total 12"); Listed logs].
Definition sample_text : list Z := listing sample_items (Listed data).
(** Cut in a name and in a size, the last line without an end. *)
Definition sample_cut : list (list Z) := [take 66 sample_text; take 40 (drop 66 sample_text); drop 106 sample_text].
Definition sample_curl : curl := Curl true 0 ((λ c, (c ++ [0], Z.of_nat (length c))) <$> sample_cut).

Lemma sample_entries_ok : Forall item_ok sample_items ∧ item_ok (Listed data).
Proof.
  assert (∀ e, bool_decide (word (rights e).1 ∧ word (links e).1 ∧ word (owner e).1 ∧ word (group e).1 ∧ word (month e).1 ∧
                word (day e).1 ∧ word (time e).1 ∧ nonzero (item_line (Listed e)) ∧ 10 ∉ item_line (Listed e) ∧
                (49 < length (entry_line e) < BUFF_INCREASE_NUM_BASE)%nat ∧ 0 <= (e_size e).1 < 2 ^ 31 ∧
                positive_char (default 0 (head (name e))) = true ∧ default 32 (head (name e)) ≠ 32 ∧ nonzero (name e) ∧ 10 ∉ name e) = true →
              item_ok (Listed e)) as Hentry.
  { intros e H%bool_decide_eq_true. cbn [item_line] in H. destruct_and! H. unfold item_ok. cbn [item_line].
    split_and!; [done|done|done|]. constructor; try done.
    destruct (name e) as [|c n]; [done|]. cbn in *. repeat match goal with H : _ |- _ => apply not_elem_of_cons in H as [? ?] end.
    match goal with H : nonzero (_ :: _) |- _ => apply Forall_cons in H as [_ ?] end. split_and!; congruence || done. }
  split; [|by apply Hentry; vm_compute].
  constructor; [|constructor; [by apply Hentry; vm_compute|constructor]].
  split_and!; [by apply (bool_decide_unpack _); vm_compute..| |left; cbn; lia]. cbn. unfold BUFF_INCREASE_NUM_BASE. lia.
Qed.

(** The second descriptor, which is open. *)
Definition second : CURL_FTP_OPER_FD := default empty_fd (snd <$> nodes_of opened_twice !! 1%nat).

Lemma second_open : nodes_of opened_twice !! 1%nat = Some (2%positive, second) ∧ open_for server second.
Proof.
  split; [vm_compute; reflexivity|].
  assert (string_at second (ip second) = Done (s_ip server) ∧ string_at second (user second) = Done (s_user server) ∧
          string_at second (pass second) = Done (s_pass server) ∧ string_at second (base_dir second) = Done (base_of (s_dir server)) ∧
          string_at second (base_curl second) = Done (base_url_of server)) as H by (vm_compute; split_and!; reflexivity).
  exact H.
Qed.

Lemma clean_sample : all_clean (nodes_of opened_twice).
Proof.
  assert (forallb (λ x, if file_name_buff x.2 then false else true) (nodes_of opened_twice) = true) as H
    by (vm_compute; reflexivity).
  apply Forall_forall. intros x Hx. rewrite forallb_forall in H. apply list_elem_of_In, H in Hx.
  left. by destruct (file_name_buff x.2).
Qed.

Lemma scan_curl_ftp_folder_lists_witness :
  concat sample_cut = listing sample_items (Listed data) ∧
  omap item_call (sample_items ++ [Listed data]) =
    [(bytes "logs", 4096, FOLDER_MODE); (bytes "01779-ST SOURCE.bcp", 3950, FILE_MODE)] ∧
  ∃ s' l' acts, scan_curl_ftp_folder sample_curl (λ _, true) (Z.of_nat 1) (opt_arg (Some (bytes "in"))) opened_twice =
      Done (s', acts, omap item_call (sample_items ++ [Listed data]), 0) ∧
    urls acts = [base_url_of server ++ base_of (s_dir server) ++ folder_of (Some (bytes "in"))] ∧ fd_list s' l' ∧ all_clean l'.
Proof.
  assert (concat sample_cut = listing sample_items (Listed data)) as Hcut by (vm_compute; reflexivity).
  assert (nonzero (default [] (Some (bytes "in")))) as Hnz by (apply (bool_decide_unpack _); vm_compute; exact I).
  split; [exact Hcut|]. split; [vm_compute; reflexivity|].
  apply (scan_curl_ftp_folder_lists sample_curl (λ _, true) opened_twice (nodes_of opened_twice) 1 2%positive second server
           (Some (bytes "in")) sample_items (Listed data) sample_cut owned_sample clean_sample (proj1 second_open) (proj2 second_open)
           eq_refl (λ _, eq_refl) Hnz ltac:(discriminate) ltac:(vm_compute; lia)
           (proj1 sample_entries_ok) (proj2 sample_entries_ok) Hcut).
  repeat (constructor; [by exists []|]). constructor.
Defined.

Lemma request_sent_witness :
  ∃ s' before acts, ask sample_curl (Z.of_nat 1) (Rename (bytes "a.tmp") (Some (bytes "in")) (bytes "a.bcp")) opened_twice =
      Done (s', before ++ acts, [], 0) ∧
    before = [curl_easy_init] ∧ answered server (Rename (bytes "a.tmp") (Some (bytes "in")) (bytes "a.bcp")) acts ∧
    fd_list s' (<[1%nat := (2%positive, set_p_curl false second)]> (nodes_of opened_twice)).
Proof.
  assert (p_curl second = false) as E by (vm_compute; reflexivity).
  set (r := Rename (bytes "a.tmp") (Some (bytes "in")) (bytes "a.bcp")).
  assert (Forall nonzero (texts r)) as Hnz by (apply (bool_decide_unpack _); vm_compute; exact I).
  assert (Forall (λ t, (length t < BUFF_CMD_CURLFTP_LEN)%nat) (commands r)) as Hl by (apply (bool_decide_unpack _); vm_compute; exact I).
  pose proof (request_sent sample_curl opened_twice (nodes_of opened_twice) 1 2%positive second server r owned_sample
    (proj1 second_open) (proj2 second_open) eq_refl Hnz Hl ltac:(vm_compute; lia)) as H.
  rewrite E in H. exact H.
Defined.

(** ** Listings that are not read *)

(** A line of at most 49 bytes is dropped: the entries of a server that does
    not fill its columns are not reported. *)
Theorem short_line_is_dropped :
  report_line (pad (bytes "-rw-r--r-- 1 ftp ftp 5 Apr 17 12:09 a.txt")) 0 = Done ([], 0).
Proof. vm_compute. reflexivity. Qed.

(** So is an entry whose name starts with a byte above 127 (UTF-8). *)
Theorem non_ascii_name_is_dropped :
  report_line (pad (entry_head data ++ [195; 164; 46; 116])) 0 = Done ([], 3950).
Proof. vm_compute. reflexivity. Qed.

(** A size of sixteen digits leaves the size of the line before. *)
Theorem long_size_is_the_last_one :
  ∃ b size, lines_loop 3 (bytes "-rw-r--r--    1 503      503          3950 Apr 17 12:09 a" ++ [10] ++
    bytes "-rw-r--r--    1 503      503          1000000000000000 Apr 17 12:09 b" ++ [10; 0]) zeroed 0 [] =
    Done (b, [(bytes "a", size, FILE_MODE); (bytes "b", size, FILE_MODE)]).
Proof. eexists _, _. vm_compute. reflexivity. Qed.

(** A size that is no [int]. *)
Theorem large_size_overflows :
  report_line (pad (bytes "-rw-r--r--    1 503      503          4294967296 Apr 17 12:09 b")) 0 = Fault IntOverflow.
Proof. vm_compute. reflexivity. Qed.

(** The callback looks for the end of the piece by its NUL, which libcurl does
    not put there; [size * nmemb] is not used. *)
Theorem piece_without_nul_is_overread :
  curl_ftp_scanfile_callback true (bytes "total 12") 1 8 None = Fault OutOfBounds.
Proof. vm_compute. reflexivity. Qed.

(** A line that is longer than the buffer. *)
Theorem long_line_overflows :
  curl_ftp_scanfile_callback true (replicate 1025 120 ++ [0]) 1 1025 None = Fault OutOfBounds.
Proof. vm_compute. reflexivity. Qed.

(** ** Descriptors *)

(** A slash in front of the directory moves everything behind it by one byte
    that [info_buf_len] does not know of: with a URL that fills the rest, the last
    byte is written past the buffer. *)
Definition long_user : list Z := replicate 491 120.
Theorem leading_slash_overflows :
  init_curl_ftp_parame true 0 empty_fd (InitParame (arg (bytes "10.0.0.1")) (arg long_user) (arg (bytes "p")) (arg (bytes "/data")) 0 CURL_FTP_EPRT 210)
    = Fault OutOfBounds ∧
  is_done (init_curl_ftp_parame true 0 empty_fd (InitParame (arg (bytes "10.0.0.1")) (arg long_user) (arg (bytes "p")) (arg (bytes "xdata")) 0 CURL_FTP_EPRT 210)) = true.
Proof. vm_compute. split; reflexivity. Qed.

(** [init_curl_ftp_parame] has no [return] at its end: what the caller takes for
    its result decides whether the open descriptor is reported as failed. *)
Theorem open_result_is_indeterminate :
  (snd <$> (match init_curl_ftp_fd (true, true) (-7) server_parame no_fds with Done x => Some x | _ => None end)) = Some (-7).
Proof. vm_compute. reflexivity. Qed.

(** A failed opening leaves its descriptor in use: the next one is another. *)
Theorem failed_open_keeps_descriptor :
  let bad := InitParame (arg (s_ip server)) None None None 0 CURL_FTP_EPRT 21 in
  let s1 := done_or (no_fds, 0) (init_curl_ftp_fd (true, true) 0 bad no_fds) in
  s1.2 = TRANSMIT_PARAMETER_ERROR ∧
  (done_or s1 (init_curl_ftp_fd (true, true) 0 server_parame s1.1)).2 = 1.
Proof. vm_compute. split; reflexivity. Qed.

(** After its buffer could not be had, a descriptor that is given back and
    taken again is cleared through NULL. *)
Theorem reopen_without_buffer_faults :
  let s1 := (done_or (no_fds, 0) (init_curl_ftp_fd (true, false) 0 server_parame no_fds)).1 in
  init_curl_ftp_fd (true, true) 0 server_parame (done_or s1 (reset_curl_ftp_fd 0 s1)) = Fault NullDeref.
Proof. vm_compute. reflexivity. Qed.

(** ** Operations *)

(** The name of an uploaded file keeps the slash of its path: the rename that
    follows asks for a file at the root. *)
Theorem uploaded_name_keeps_slash :
  commands (Upload (bytes "/tmp/a.tmp") None (Some (bytes "a.bcp")) None) = [RNFR (bytes "/a.tmp"); RNTO (bytes "a.bcp")].
Proof. vm_compute. reflexivity. Qed.

(** An upload whose file cannot be opened keeps the handle, and the end of the
    client does not give it back. *)
Theorem upload_without_file_keeps_handle :
  ∃ s' acts, upload_curl_ftp_file sample_curl false None 1 (arg (bytes "none")) None None opened_twice =
    Done (s', acts, [], SYSTEM_FUNCTION_CALL_ERROR) ∧ held acts = 1.
Proof. eexists _, _. vm_compute. split; reflexivity. Qed.

(** The path of a folder must not be empty: the byte before it is read. *)
Theorem empty_folder_path_reads_before :
  scan_curl_ftp_folder sample_curl (λ _, true) 1 (arg []) opened_twice = Fault OutOfBounds.
Proof. vm_compute. reflexivity. Qed.
