(* ===== verification/AckScan.v ===== *)
(** * The ACK scan (module_function/tcp_ack_scan.c)

    [tcp_ack_scan_server_port] sends an ACK segment to each of the ports 0 to
    1023 and looks after each at the next packet that the raw socket gives.
    The system is an argument ([net]): whether sockets are had, what each
    [sendto] and [recvfrom] does; so are [inet_addr] (four bytes, all ones for
    what is no address), the text of the local address and the content of the
    receive buffer, which [malloc] does not clear. *)

From stdpp Require Import list strings.
From S2P Require Import Prelude CString PsText PsBytes PsSetup PsPacket.

Open Scope Z_scope.

(** ** The checksum (lines 142-164) *)

(** The sum is a [long]: with an [int] of bytes it does not overflow. *)
Fixpoint sum_loop (fuel : nat) (ptr : list Z) (nbytes sum : Z) : outcome Z :=
  if 1 <? nbytes then
    match fuel with
    | O => NoFuel
    | S f => lo ← rd ptr 0; hi ← rd ptr 1; sum_loop f (drop 2 ptr) (nbytes - 2) (sum + (lo + 256 * hi))
    end
  else if nbytes =? 1 then b ← rd ptr 0; mret (sum + b)
  else mret sum.
Definition checksum (ptr : list Z) (nbytes : Z) : outcome Z :=
  sum ← sum_loop (Z.to_nat nbytes) ptr nbytes 0;
  let sum := Z.shiftr sum 16 + Z.land sum 65535 in
  let sum := sum + Z.shiftr sum 16 in
  mret (Z.lnot sum mod 2 ^ 16).

(** ** The answer (lines 167-200) *)

(** The protocol is the tenth byte, the header length counts words, [saddr] is
    at byte 12, and [rst] is the third bit of the flags. *)
Definition check_rst_flag (dest_ip buffer : list Z) : outcome bool :=
  protocol ← rd buffer 9;
  if protocol =? 6 then
    vihl ← rd buffer 0;
    let iphdrlen := Z.to_nat (vihl mod 16 * 4) in
    saddr ← mem_read (drop 12 buffer) 4;
    flags ← rd buffer (iphdrlen + 13);
    mret (Z.testbit flags 2 && bool_decide (saddr = dest_ip))
  else mret false.

(** ** The scan (lines 203-326) *)

Definition ack_ip_header (check : Z) (saddr daddr : list Z) : list Z :=
  [16 * 4 + 5; 0] ++ le_bytes 2 (20 + 20) ++ be_bytes 2 54321 ++ be_bytes 2 16384 ++ [64; IPPROTO_TCP] ++
  le_bytes 2 check ++ saddr ++ daddr.
Definition ack_tcp_header (dest check : Z) : list Z :=
  be_bytes 2 43591 ++ be_bytes 2 dest ++ be_bytes 4 1105024978 ++ [0; 0; 0; 0] ++
  [16 * 5; 16] ++ be_bytes 2 14600 ++ le_bytes 2 check ++ [0; 0].
(** [struct csum_header] *)
Definition csum_header (saddr daddr tcp : list Z) : list Z :=
  saddr ++ daddr ++ [0; IPPROTO_TCP] ++ be_bytes 2 20 ++ tcp.

(** [None]: [sendto] or [recvfrom] fails; [n_recv] also counts nothing read. *)
Record net := Net {
  n_socket : bool; n_hdrincl : bool; n_sock_id : bool;
  n_send : nat → bool; n_recv : nat → option (list Z);
}.

(** The state of the scan: the buffer, the datagrams sent and the ports
    reported as open. *)
Record scan := Scan { s_buffer : list Z; s_sent : list (list Z); s_open : list nat }.

(** One round of the loop. *)
Definition probe (n : net) (ip : list Z) (saddr daddr : list Z) (i : nat) (s : scan) : outcome (Z * scan) :=
  check ← checksum (csum_header saddr daddr (ack_tcp_header (Z.of_nat i) 0)) 32;
  if negb (n_send n i) then mret (-3, s)
  else
    let sent := s_sent s ++ [ip ++ ack_tcp_header (Z.of_nat i) check] in
    match n_recv n i with
    | None => mret (-3, Scan (s_buffer s) sent (s_open s))
    | Some d =>
        buffer ← mem_write (s_buffer s) 0 (take 65536 d);
        rst ← check_rst_flag daddr buffer;
        mret (0, Scan buffer sent (if (rst : bool) then s_open s ++ [i] else s_open s))
    end.
Fixpoint probe_loop (k : nat) (n : net) (ip saddr daddr : list Z) (i : nat) (s : scan) : outcome (Z * scan) :=
  match k with
  | O => Done (0, s)
  | S k' =>
      '(ret, s) ← probe n ip saddr daddr i s;
      if ret <? 0 then mret (ret, s) else probe_loop k' n ip saddr daddr (S i) s
  end.

(** [dest_ip] is static: an address that is none leaves that of the last scan. *)
Definition set_dest (inet_addr : list Z → list Z) (ip_addr dest_ip : list Z) : list Z :=
  if bool_decide (inet_addr ip_addr = [255; 255; 255; 255]) then dest_ip else inet_addr ip_addr.
(** What is returned, the new [dest_ip], and the scan. *)
Definition tcp_ack_scan_server_port (inet_addr : list Z → list Z) (source_ip ip_addr : list Z) (n : net)
    (dest_ip junk : list Z) : outcome (Z * list Z * scan) :=
  let none := Scan junk [] [] in
  if negb (n_socket n) then mret (-3, dest_ip, none)
  else
    let dest_ip := set_dest inet_addr ip_addr dest_ip in
    let saddr := inet_addr source_ip in
    check ← checksum (ack_ip_header 0 saddr dest_ip ++ replicate (4096 - 20) 0) (Z.shiftr (20 + 20) 1);
    let ip := ack_ip_header check saddr dest_ip in
    if negb (n_hdrincl n) then mret (-3, dest_ip, none)
    else if negb (n_sock_id n) then mret (-3, dest_ip, none)
    else '(ret, s) ← probe_loop 1024 n ip saddr dest_ip 0 none; mret (ret, dest_ip, s).

(** ** The checksum is that of the port scanner *)

Lemma sum_loop_spec : ∀ fuel p r s,
  Forall is_byte p → (length p ≤ fuel)%nat →
  sum_loop fuel (p ++ r) (Z.of_nat (length p)) s = Done (s + sum_list (words16 p)).
Proof.
  induction fuel as [|fuel IH]; intros p r s Hp Hf.
  { destruct p; [|cbn in Hf; lia]. cbn. by rewrite Z.add_0_r. }
  destruct p as [|lo [|hi p]].
  - cbn. by rewrite Z.add_0_r.
  - cbn. by rewrite Z.add_0_r.
  - apply Forall_cons in Hp as [_ Hp]. apply Forall_cons in Hp as [_ Hp]. cbn [length app sum_loop words16 sum_list foldr].
    rewrite (proj2 (Z.ltb_lt _ _)) by lia. unfold rd. cbn [lookup list_lookup mbind outcome_bind drop].
    rewrite drop_0. replace (Z.of_nat (S (S (length p))) - 2) with (Z.of_nat (length p)) by lia.
    cbn in Hf. rewrite IH by (done || lia). change (foldr Z.add 0 (words16 p)) with (sum_list (words16 p)). f_equal. lia.
Qed.

(** [checksum] with its [long] and [calculate_tcpcsum] with its [uint32_t] agree on
    up to 128 KiB: both are the complement of the one's complement sum. *)
Lemma checksum_oc p r :
  Forall is_byte p → Z.of_nat (length p) <= 131072 →
  checksum (p ++ r) (Z.of_nat (length p)) = Done (65535 - oc_sum (words16 p)).
Proof.
  intros Hp Hl. unfold checksum. rewrite Nat2Z.id, (sum_loop_spec _ _ _ _ Hp (le_n _)). cbn [mbind outcome_bind].
  rewrite Z.add_0_l. cbn zeta. rewrite fold_carries by (by apply words16_small).
  by rewrite oc_sum_red by (eapply words16_words; done).
Qed.
Lemma checksum_same p r :
  Forall is_byte p → Z.of_nat (length p) <= 131072 →
  checksum (p ++ r) (Z.of_nat (length p)) = calculate_tcpcsum (p ++ r) (Z.of_nat (length p)).
Proof. intros Hp Hl. by rewrite checksum_oc, tcpcsum_oc by done. Qed.

(** ** The probes *)

(** A datagram whose two checksums verify at the receiver. *)
Definition verified (saddr daddr : list Z) (port : Z) (dgram : list Z) : Prop := ∃ check tcp_check,
  dgram = ack_ip_header check saddr daddr ++ ack_tcp_header port tcp_check ∧
  oc_sum (words16 (ack_ip_header check saddr daddr)) = 65535 ∧
  oc_sum (words16 (csum_header saddr daddr (ack_tcp_header port tcp_check))) = 65535.

Definition is_address (a : list Z) : Prop := length a = 4%nat ∧ Forall is_byte a.

Lemma ip_check_ok saddr daddr r :
  is_address saddr → is_address daddr → ∃ check,
  checksum (ack_ip_header 0 saddr daddr ++ r) 20 = Done check ∧
  oc_sum (words16 (ack_ip_header check saddr daddr)) = 65535.
Proof.
  intros [Hsl Hsb] [Hdl Hdb].
  set (a := [16 * 4 + 5; 0] ++ le_bytes 2 (20 + 20) ++ be_bytes 2 54321 ++ be_bytes 2 16384 ++ [64; IPPROTO_TCP]).
  assert (∀ c, ack_ip_header c saddr daddr = a ++ le_bytes 2 c ++ saddr ++ daddr) as E.
  { intros c. unfold ack_ip_header, a. by rewrite <- !app_assoc. }
  assert (Forall is_byte a) as Ha by (apply (bool_decide_unpack _); vm_compute; exact I).
  assert (Forall is_byte (ack_ip_header 0 saddr daddr)) as Hb.
  { rewrite E, !Forall_app. repeat split; [done|apply le_bytes_byte|done|done]. }
  assert (length (ack_ip_header 0 saddr daddr) = 20%nat) as Hl by (rewrite E, !length_app, Hsl, Hdl; done).
  pose proof (checksum_oc _ r Hb ltac:(rewrite Hl; lia)) as Hc. rewrite Hl in Hc. change (Z.of_nat 20) with 20 in Hc.
  eexists. split; [exact Hc|]. rewrite E. eapply (checksum_verifies 5); [by rewrite !Forall_app|done|by rewrite E].
Qed.

Lemma tcp_check_ok saddr daddr port :
  is_address saddr → is_address daddr → ∃ check,
  checksum (csum_header saddr daddr (ack_tcp_header port 0)) 32 = Done check ∧
  oc_sum (words16 (csum_header saddr daddr (ack_tcp_header port check))) = 65535.
Proof.
  intros [Hsl Hsb] [Hdl Hdb].
  set (a := saddr ++ daddr ++ [0; IPPROTO_TCP] ++ be_bytes 2 20 ++ be_bytes 2 43591 ++ be_bytes 2 port ++
            be_bytes 4 1105024978 ++ [0; 0; 0; 0] ++ [16 * 5; 16] ++ be_bytes 2 14600).
  assert (∀ c, csum_header saddr daddr (ack_tcp_header port c) = a ++ le_bytes 2 c ++ [0; 0]) as E.
  { intros c. unfold csum_header, ack_tcp_header, a. by rewrite <- !app_assoc. }
  assert (Forall is_byte (a ++ [0; 0])) as Ha.
  { unfold a. rewrite !Forall_app.
    repeat split; try apply be_bytes_byte; try done; apply (bool_decide_unpack _); vm_compute; exact I. }
  assert (length a = (2 * 14)%nat) as Hla by (unfold a; rewrite !length_app, !length_be_bytes, Hsl, Hdl; done).
  assert (Forall is_byte (a ++ le_bytes 2 0 ++ [0; 0])) as Hb.
  { rewrite !Forall_app in *. destruct Ha. split; [done|split; [apply le_bytes_byte|done]]. }
  pose proof (checksum_oc _ [] Hb ltac:(rewrite !length_app, Hla; cbn; lia)) as Hc. rewrite app_nil_r, <- E in Hc.
  assert (length (csum_header saddr daddr (ack_tcp_header port 0)) = 32%nat) as Hl by (rewrite E, !length_app, Hla; done).
  rewrite Hl in Hc. change (Z.of_nat 32) with 32 in Hc.
  eexists. split; [exact Hc|]. rewrite E. eapply (checksum_verifies 14); [done|done|by rewrite E].
Qed.

(** ** The answers *)

(** An RST segment from the target, by its bytes. *)
Definition rst_from (daddr d : list Z) : bool :=
  (byte_at d 9 =? 6) && Z.testbit (byte_at d (Z.to_nat (byte_at d 0 mod 16 * 4) + 13)) 2 && bool_decide (take 4 (drop 12 d) = daddr).
(** A packet that is there as far as it is looked at. *)
Definition whole (d : list Z) : Prop :=
  (20 <= length d <= 65536)%nat ∧ (Z.to_nat (byte_at d 0 mod 16 * 4) + 13 < length d)%nat.

Lemma check_rst_ok daddr d r :
  whole d → check_rst_flag daddr (d ++ r) = Done (rst_from daddr d).
Proof.
  intros [Hl Hh]. unfold check_rst_flag, rst_from.
  assert (∀ i, (i < length d)%nat → rd (d ++ r) i = Done (byte_at d i)) as Hrd.
  { intros i Hi. rewrite rd_byte by (rewrite length_app; lia). unfold byte_at. by rewrite lookup_app_l. }
  rewrite (bind_done _ _ _ (Hrd 9%nat ltac:(lia))). destruct (byte_at d 9 =? 6); [|done].
  rewrite (bind_done _ _ _ (Hrd 0%nat ltac:(lia))). cbn zeta.
  rewrite mem_read_ok by (rewrite length_drop, length_app; lia). cbn [mbind outcome_bind].
  rewrite (bind_done _ _ _ (Hrd _ Hh)). cbn [andb]. do 3 f_equal.
  rewrite drop_app_le by lia. change (Z.to_nat 4) with 4%nat. by rewrite take_app_le by (rewrite length_drop; lia).
Qed.

(** ** The scan *)

(** Everything the system does works, and the packets are whole. *)
Record works (n : net) (ds : nat → list Z) : Prop := {
  w_socket : n_socket n = true; w_hdrincl : n_hdrincl n = true; w_sock_id : n_sock_id n = true;
  w_send i : n_send n i = true;
  w_recv i : n_recv n i = Some (ds i);
  w_whole i : whole (ds i);
}.

Lemma probe_ok n ds ip saddr daddr i s :
  works n ds → is_address saddr → is_address daddr → length (s_buffer s) = 65536%nat → ∃ check buffer,
  oc_sum (words16 (csum_header saddr daddr (ack_tcp_header (Z.of_nat i) check))) = 65535 ∧
  length buffer = 65536%nat ∧
  probe n ip saddr daddr i s = Done (0, Scan buffer (s_sent s ++ [ip ++ ack_tcp_header (Z.of_nat i) check])
    (s_open s ++ filter (λ j, rst_from daddr (ds j) = true) [i])).
Proof.
  intros Hn Hs Hd Hb. destruct (tcp_check_ok saddr daddr (Z.of_nat i) Hs Hd) as (check & Hc & Hv).
  pose proof (w_whole _ _ Hn i) as Hw. pose proof Hw as [Hl _].
  exists check, (splice (s_buffer s) 0 (ds i)). split; [done|]. split; [rewrite length_splice; lia|].
  unfold probe. rewrite (bind_done _ _ _ Hc), (w_send _ _ Hn), (w_recv _ _ Hn). cbn [negb]. cbn zeta.
  rewrite take_ge by lia. rewrite mem_write_ok by lia. cbn [mbind outcome_bind].
  replace (splice (s_buffer s) 0 (ds i)) with (ds i ++ drop (length (ds i)) (s_buffer s)) by done.
  rewrite check_rst_ok by done. cbn [mbind outcome_bind].
  destruct (rst_from daddr (ds i)) eqn:E; [rewrite filter_cons_True by done|rewrite filter_cons_False by congruence];
    rewrite filter_nil, ?app_nil_r; done.
Qed.

Lemma probe_loop_ok n ds ip saddr daddr : works n ds → is_address saddr → is_address daddr → ∀ k i s,
  length (s_buffer s) = 65536%nat → ∃ buffer sent,
  probe_loop k n ip saddr daddr i s =
    Done (0, Scan buffer (s_sent s ++ sent) (s_open s ++ filter (λ j, rst_from daddr (ds j) = true) (seq i k))) ∧
  Forall2 (λ j d, ∃ check, d = ip ++ ack_tcp_header (Z.of_nat j) check ∧
    oc_sum (words16 (csum_header saddr daddr (ack_tcp_header (Z.of_nat j) check))) = 65535) (seq i k) sent.
Proof.
  intros Hn Hs Hd. induction k as [|k IH]; intros i s Hb; cbn [probe_loop seq].
  { exists (s_buffer s), []. rewrite filter_nil, !app_nil_r. destruct s. split; [done|constructor]. }
  destruct (probe_ok n ds ip saddr daddr i s Hn Hs Hd Hb) as (check & b & Hv & Hl & E). rewrite (bind_done _ _ _ E).
  change (0 <? 0) with false. cbn iota.
  destruct (IH (S i) (Scan b (s_sent s ++ [ip ++ ack_tcp_header (Z.of_nat i) check])
    (s_open s ++ filter (λ j, rst_from daddr (ds j) = true) [i])) Hl) as (b' & sent & E' & H').
  exists b', ((ip ++ ack_tcp_header (Z.of_nat i) check) :: sent). rewrite E'. cbn [s_sent s_open].
  rewrite <- !app_assoc, <- filter_app. split; [done|]. constructor; [by exists check|done].
Qed.

(** C28: when the system does not fail and every packet that arrives is whole,
    the scan sends 1024 probes, to the ports 0 to 1023 in order, each with both
    checksums verifying, and reports exactly the ports at which the packet that
    arrived next was an RST of the target; it returns 0. *)
Theorem tcp_ack_scan_reports inet_addr source_ip ip_addr n ds dest_ip junk :
  (∀ a, is_address (inet_addr a)) → is_address dest_ip → works n ds → length junk = 65536%nat →
  let target := set_dest inet_addr ip_addr dest_ip in
  ∃ s, tcp_ack_scan_server_port inet_addr source_ip ip_addr n dest_ip junk = Done (0, target, s) ∧
    Forall2 (λ j d, verified (inet_addr source_ip) target (Z.of_nat j) d) (seq 0 1024) (s_sent s) ∧
    s_open s = filter (λ j, rst_from target (ds j) = true) (seq 0 1024).
Proof.
  intros Hi Hd Hn Hj target. pose proof (Hi source_ip) as Hs.
  assert (is_address target) as Ht by (unfold target, set_dest; case_bool_decide; auto).
  destruct (ip_check_ok (inet_addr source_ip) target (replicate (4096 - 20) 0) Hs Ht) as (check & Hc & Hv).
  destruct (probe_loop_ok n ds (ack_ip_header check (inet_addr source_ip) target) _ _ Hn Hs Ht 1024 0 (Scan junk [] []) Hj)
    as (b & sent & E & Hsent).
  exists (Scan b ([] ++ sent) ([] ++ filter (λ j, rst_from target (ds j) = true) (seq 0 1024))).
  unfold tcp_ack_scan_server_port. rewrite (w_socket _ _ Hn), (w_hdrincl _ _ Hn), (w_sock_id _ _ Hn). cbn [negb]. cbn zeta.
  change (Z.shiftr (20 + 20) 1) with 20. fold target. rewrite (bind_done _ _ _ Hc), (bind_done _ _ _ E). split; [done|].
  split; [|done]. cbn [s_sent app]. eapply Forall2_impl; [exact Hsent|]. intros j d (tc & -> & Htc). by exists check, tc.
Qed.

(** ** A scan *)

Definition target_ip : list Z := [10; 0; 0; 9].
Definition sample_inet (a : list Z) : list Z :=
  if bool_decide (a = c_lit "10.0.0.9") then target_ip
  else if bool_decide (a = c_lit "10.0.0.1") then [10; 0; 0; 1] else [255; 255; 255; 255].
(** An RST segment of a host and a port. *)
Definition rst_packet (src : list Z) (port : Z) : list Z :=
  [69; 0] ++ replicate 7 0 ++ [6; 0; 0] ++ src ++ [10; 0; 0; 1] ++ be_bytes 2 port ++ replicate 11 0 ++ [4] ++ replicate 6 0.
Definition sample_answers (i : nat) : list Z :=
  if bool_decide (i = 22%nat) then rst_packet target_ip 22 else rst_packet [10; 0; 0; 7] 80.
Definition answering (ds : nat → list Z) : net := Net true true true (λ _, true) (λ i, Some (ds i)).

Lemma rst_packet_whole src port : length src = 4%nat → whole (rst_packet src port).
Proof.
  intros Hs. assert (length (rst_packet src port) = 40%nat) as Hl.
  { unfold rst_packet. by rewrite !length_app, length_be_bytes, Hs. }
  split; rewrite Hl; [split; apply Nat.leb_le; vm_compute; reflexivity|]. change (byte_at (rst_packet src port) 0) with 69. vm_compute. lia.
Qed.

Lemma tcp_ack_scan_reports_witness : ∃ s,
  tcp_ack_scan_server_port sample_inet (c_lit "10.0.0.1") (c_lit "10.0.0.9") (answering sample_answers) [0; 0; 0; 0]
    (replicate 65536 204) = Done (0, target_ip, s) ∧ length (s_sent s) = 1024%nat ∧ s_open s = [22%nat].
Proof.
  destruct (tcp_ack_scan_reports sample_inet (c_lit "10.0.0.1") (c_lit "10.0.0.9") (answering sample_answers) sample_answers
    [0; 0; 0; 0] (replicate 65536 204)) as (s & E & Hs & Ho).
  - intros a. unfold sample_inet, is_address.
    repeat case_bool_decide; (split; [reflexivity|apply (bool_decide_unpack _); vm_compute; exact I]).
  - split; [reflexivity|apply (bool_decide_unpack _); vm_compute; exact I].
  - constructor; try done. intros i. unfold sample_answers. case_bool_decide; by apply rst_packet_whole.
  - by rewrite length_replicate.
  - exists s. split; [exact E|]. apply Forall2_length in Hs. rewrite length_seq in Hs.
    split; [done|]. rewrite Ho. vm_compute. reflexivity.
Defined.

(** ** What is reported wrongly *)

(** The port of the answer is not looked at: an RST of port 443 that arrives
    when port 22 was probed reports port 22. *)
Theorem port_of_answer_ignored : ∃ s,
  probe (answering (λ _, rst_packet target_ip 443)) [] [10; 0; 0; 1] target_ip 22 (Scan (replicate 65536 0) [] []) =
    Done (0, s) ∧ s_open s = [22%nat].
Proof.
  destruct (probe_ok (answering (λ _, rst_packet target_ip 443)) (λ _, rst_packet target_ip 443) [] [10; 0; 0; 1] target_ip 22
    (Scan (replicate 65536 0) [] [])) as (check & b & _ & _ & E).
  - constructor; try done. intros _. by apply rst_packet_whole.
  - split; [reflexivity|apply (bool_decide_unpack _); vm_compute; exact I].
  - split; [reflexivity|apply (bool_decide_unpack _); vm_compute; exact I].
  - exact (length_replicate _ _).
  - eexists. split; [exact E|reflexivity].
Qed.

(** The size of the packet is not used: when nothing is read, the RST of the
    port before is found again in the buffer. *)
Theorem stale_answer_reported n ip saddr daddr i d r sent open :
  whole d → rst_from daddr d = true → is_address saddr → is_address daddr →
  n_send n i = true → n_recv n i = Some [] →
  ∃ s, probe n ip saddr daddr i (Scan (d ++ r) sent open) = Done (0, s) ∧ s_open s = open ++ [i].
Proof.
  intros Hw Hr Hs Hd H1 H2. destruct (tcp_check_ok saddr daddr (Z.of_nat i) Hs Hd) as (check & Hc & _).
  unfold probe. rewrite (bind_done _ _ _ Hc), H1, H2. cbn [negb s_buffer take]. cbn zeta.
  rewrite take_nil, mem_write_ok by (cbn; lia). rewrite splice_nil by lia. cbn [mbind outcome_bind].
  rewrite check_rst_ok by done. rewrite Hr. by eexists.
Qed.

(** What is no address leaves the target of the last scan: it is scanned again. *)
Theorem bad_address_scans_last_target : set_dest sample_inet (c_lit "nowhere") target_ip = target_ip.
Proof. reflexivity. Qed.
