(* ===== verification/SocketApi.v ===== *)
(** * Socket helpers (module_function/socket_api.c)

    [tcp_client_recv] and [tcp_client_send], through which the Elasticsearch
    client talks to its server; addresses and name resolution.  What the system
    calls answer is an argument: one answer for each call.  Shown: sending
    puts the whole string out in order whatever the system takes at a time, and
    what a failed call does to it; receiving repeats interrupted calls and gives
    the events that the loops of EsBlock read; the blocking query of EsBlock over
    these calls. *)

From S2P Require Import Prelude CString PsText FrameTool PsBytes PsList KeyValue EsData EsHead EsJson EsHeadSpec EsJsonSpec EsJsonText EsRecv EsRecvSpec EsFindings EsRequest EsBlock.
From stdpp Require Import list strings.

Open Scope Z_scope.

Definition EINTR : Z := 4.
Definition EAGAIN : Z := 11.

(** ** Receiving (lines 240-284) *)

Inductive recv_answer := Received (d : list Z) | RecvFailed (errno : Z).

(** The result, the buffer, and the answers that are left; [None]: the call
    waits.  An interrupted call is repeated, [EAGAIN] gives [len + 1]. *)
Fixpoint tcp_client_recv (answers : list recv_answer) (r_buf : list Z) (len : Z)
  : outcome (option (Z * list recv_answer) * list Z) :=
  b ← mem_write r_buf 0 (replicate (Z.to_nat len) 0);
  match answers with
  | [] => Done (None, b)
  | Received d :: rest =>
      let t := take (Z.to_nat len) d in
      b ← mem_write b 0 t; mret (Some (Z.of_nat (length t), rest), b)
  | RecvFailed errno :: rest =>
      if errno =? EINTR then tcp_client_recv rest b len
      else mret (Some (if errno =? EAGAIN then len + 1 else -1, rest), b)
  end.

(** How the Elasticsearch client reads a result (es_http_api.c 1757-1778, with
    [SOCKET_BUF_RECV] for [len]): [renewed] is what [es_server_connect] does. *)
Definition event_of (len ret : Z) (r_buf : list Z) (renewed : bool) : recv_event :=
  if ret <=? 0 then Closed renewed
  else if ret <=? len then Packet (take (Z.to_nat ret) r_buf) else NothingYet.

(** ** Sending (lines 286-334) *)

Inductive send_answer := Sent (n : nat) | SendFailed (errno : Z).

(** What [send] returns, in the [unsigned int] that takes it: the test for a
    negative result that follows in the code never holds. *)
Definition send_result (a : send_answer) (s_len : Z) : Z :=
  match a with Sent n => Z.min (Z.of_nat n) s_len | SendFailed _ => 2 ^ 32 - 1 end.
Definition bytes_taken (a : send_answer) (s_len : Z) : nat :=
  match a with Sent n => Z.to_nat (Z.min (Z.of_nat n) s_len) | SendFailed _ => O end.

(** The loop at offset [cp] with what went out so far. *)
Fixpoint send_loop (answers : list send_answer) (s_buf : list Z) (cp len s_len n_len : Z) (out : list Z)
  : outcome (option Z * list Z) :=
  if len <? n_len then
    let cp := cp + s_len in
    if Z.of_nat (length s_buf) <? cp then Fault OutOfBounds
    else
      let s_len := n_len - len in
      t ← mem_read (drop (Z.to_nat cp) s_buf) s_len;
      match answers with
      | [] => Done (None, out)
      | a :: rest =>
          let ret := send_result a s_len in
          send_loop rest s_buf cp ((len + ret) mod 2 ^ 32) ret n_len (out ++ take (bytes_taken a s_len) t)
      end
  else Done (Some (to_int len), out).
Definition tcp_client_send (answers : list send_answer) (s_buf : list Z) : outcome (option Z * list Z) :=
  n ← str_scan_len s_buf; send_loop answers s_buf 0 0 0 (Z.of_nat n mod 2 ^ 32) [].

(** ** Addresses (lines 164-238) *)

Definition AF_INET : Z := 2.
Definition AF_INET6 : Z := 10.

(** [struct sockaddr_in] in its three fields. *)
Record sockaddr_in := Sockaddr { sin_family : Z; sin_port : list Z; sin_addr : list Z }.

Section address.
Context (inet_addr : list Z → list Z).
Definition server_addr (port : Z) (ip_str : list Z) : sockaddr_in :=
  Sockaddr AF_INET (be_bytes 2 port) (inet_addr ip_str).
(** [system]: what [bind] and [connect] return for a socket and an address. *)
Definition bind_tcp_server (system : Z → sockaddr_in → Z) (s_fd port : Z) (ip_str : list Z) : Z :=
  system s_fd (server_addr port ip_str).
Definition connect_tcp_server (system : Z → sockaddr_in → Z) (s_fd port : Z) (ip_str : list Z) : Z :=
  system s_fd (server_addr port ip_str).
End address.

(** [struct hostent]: the kind of its addresses and the addresses. *)
Record hostent := Hostent { h_addrtype : Z; h_addr_list : list (list Z) }.
(** What is returned and the text written. *)
Definition analy_ipstr_dns (inet_ntop : Z → list Z → Z → option (list Z)) (host : option hostent) (str_len : Z)
  : Z * option (list Z) :=
  match host with
  | None => (-1, None)
  | Some h =>
      let p := if (h_addrtype h =? AF_INET) || (h_addrtype h =? AF_INET6)
               then match h_addr_list h with [] => None | a :: _ => inet_ntop (h_addrtype h) a str_len end
               else None in
      match p with None => (-1, None) | Some s => (0, Some s) end
  end.

(** ** Options and sockets (lines 14-159) *)

Definition SOL_SOCKET : Z := 1.
Definition IPPROTO_TCP : Z := 6.
Definition IPPROTO_UDP : Z := 17.
Definition TCP_NODELAY : Z := 1.
Definition SO_REUSEADDR : Z := 2.
Definition SO_KEEPALIVE : Z := 9.
Definition SO_REUSEPORT : Z := 15.
Definition SO_RCVTIMEO : Z := 20.
Definition SO_SNDTIMEO : Z := 21.
Definition F_GETFD : Z := 1.
Definition F_SETFD : Z := 2.
Definition F_GETFL : Z := 3.
Definition F_SETFL : Z := 4.
Definition FD_CLOEXEC : Z := 1.
Definition O_NONBLOCK : Z := 2048.
Definition SOCK_STREAM : Z := 1.
Definition SOCK_DGRAM : Z := 2.

(** The calls that are made; what they return is only printed, except by
    [socket] and the two reading calls of [fcntl]. *)
Inductive syscall :=
  | Socket (domain type protocol : Z)
  | SetSockOpt (fd level name : Z) (value : list Z)
  | Fcntl (fd cmd arg : Z).

Section calls.
Context (system : syscall → Z).

Definition setNonBlockAndCloseOnExec (sockfd : Z) : list syscall :=
  let get := Fcntl sockfd F_GETFL 0 in
  let set := Fcntl sockfd F_SETFL (Z.lor (system get) O_NONBLOCK) in
  let getfd := Fcntl sockfd F_GETFD 0 in
  [get; set; getfd; Fcntl sockfd F_SETFD (Z.lor (system getfd) FD_CLOEXEC)].

(** [struct timeval]: two words of eight bytes. *)
Definition timeval (sec usec : Z) : list Z := le_bytes 8 sec ++ le_bytes 8 usec.
Definition connect_time_out (fd out_sec out_us : Z) : syscall :=
  SetSockOpt fd SOL_SOCKET SO_SNDTIMEO (timeval out_sec out_us).
Definition recv_time_out (fd second : Z) : syscall := SetSockOpt fd SOL_SOCKET SO_RCVTIMEO (timeval second 0).

Definition on_off (onff : Z) : list Z := le_bytes 4 (if onff =? 0 then 0 else 1).
Definition setTcpNoDelay (fd onff : Z) : syscall := SetSockOpt fd IPPROTO_TCP TCP_NODELAY (on_off onff).
Definition setReuseAddr (fd onff : Z) : syscall := SetSockOpt fd SOL_SOCKET SO_REUSEADDR (on_off onff).
Definition setReusePort (fd onff : Z) : syscall := SetSockOpt fd SOL_SOCKET SO_REUSEPORT (on_off onff).
Definition setKeepAlive (fd onff : Z) : syscall := SetSockOpt fd SOL_SOCKET SO_KEEPALIVE (on_off onff).

Definition socket_tcp_ipv4 : Z := system (Socket AF_INET SOCK_STREAM IPPROTO_TCP).
Definition socket_tcp_ipv6 : Z := system (Socket AF_INET6 SOCK_STREAM IPPROTO_TCP).
Definition socket_udp_ipv4 : Z := system (Socket AF_INET SOCK_DGRAM IPPROTO_UDP).
Definition socket_udp_ipv6 : Z := system (Socket AF_INET6 SOCK_DGRAM IPPROTO_UDP).
End calls.

(** ** The state of a connection (lines 337-375) *)

(** The fields of [struct tcp_info] in the order in which they are printed. *)
Definition tcp_info_names : list (list Z) :=
  bytes <$> ["unrecovered="; "rto="; "ato="; "snd_mss="; "rcv_mss="; "lost="; "retrans="; "rtt="; "rttvar=";
             "sshthresh="; "cwnd="; "total_retrans="]%string.
Fixpoint tcp_info_text (names : list (list Z)) (fields : list Z) : list Z :=
  match names, fields with
  | [n], f :: _ => n ++ dec f
  | n :: names, f :: fields => n ++ dec f ++ [32] ++ tcp_info_text names fields
  | _, _ => []
  end.
(** [info]: what [getsockopt] gives; the result and the buffer. *)
Definition getTcpInfoString (info : Z + list Z) (buf : list Z) (len : Z) : outcome (Z * list Z) :=
  match info with
  | inl ret => mret (ret, buf)
  | inr fields => t ← snprintf_s len (tcp_info_text tcp_info_names fields ++ [0]); b ← mem_write buf 0 t; mret (0, b)
  end.

(** ** Theorems: sending *)

(** The loop at [len] of the [s] to send, with all before sent in order: the
    calls that take [ns] bytes end it or bring it [sum_list ns] further. *)
Lemma send_loop_sent s_buf s rest : ∀ ns cp len s_len,
  c_str s_buf = Done s → Z.of_nat (length s) < 2 ^ 32 → Forall (λ n, 0 < n)%nat ns →
  cp + s_len = len → 0 <= len <= Z.of_nat (length s) →
  ∃ cp' s_len',
    send_loop ((Sent <$> ns) ++ rest) s_buf cp len s_len (Z.of_nat (length s)) (take (Z.to_nat len) s) =
    (if Z.of_nat (length s) <=? len + Z.of_nat (sum_list ns) then Done (Some (to_int (Z.of_nat (length s))), s)
     else send_loop rest s_buf cp' (len + Z.of_nat (sum_list ns)) s_len' (Z.of_nat (length s))
            (take (Z.to_nat len + sum_list ns) s)) ∧
    (Z.of_nat (length s) <=? len + Z.of_nat (sum_list ns) = false → cp' + s_len' = len + Z.of_nat (sum_list ns)).
Proof.
  intros ns. induction ns as [|n ns IH]; intros cp len s_len Hs Hb Hns Hcp Hlen.
  - exists cp, s_len. change (sum_list []) with O. rewrite Z.add_0_r, Nat.add_0_r. cbn [fmap list_fmap app].
    split; [|done]. destruct (Z.leb_spec (Z.of_nat (length s)) len); [|done].
    rewrite (take_ge s) by lia. replace len with (Z.of_nat (length s)) by lia.
    destruct rest; cbn [send_loop]; by rewrite Z.ltb_irrefl.
  - apply Forall_cons in Hns as [Hn Hns]. cbn [fmap list_fmap app send_loop].
    change (sum_list (n :: ns)) with (n + sum_list ns)%nat.
    destruct (Z.ltb_spec len (Z.of_nat (length s))) as [Hl|Hl].
    + pose proof (c_str_length _ _ Hs) as Hlt. pose proof (c_str_inv _ _ Hs) as (r & E & _).
      rewrite Hcp. bool_lia.
      rewrite mem_read_ok by (rewrite length_drop; lia). cbn [mbind outcome_bind send_result bytes_taken].
      set (m := Z.min (Z.of_nat n) (Z.of_nat (length s) - len)).
      assert (take (Z.to_nat len) s ++ take (Z.to_nat m) (take (Z.to_nat (Z.of_nat (length s) - len)) (drop (Z.to_nat len) s_buf))
              = take (Z.to_nat (len + m)) s) as ->.
      { assert (Z.to_nat m ≤ length s - Z.to_nat len)%nat as Hm by (unfold m; lia).
        rewrite take_take, E, drop_app_le by lia. rewrite take_app_le by (rewrite length_drop; lia).
        replace (Z.to_nat (len + m)) with (Z.to_nat len + Z.to_nat m)%nat by lia.
        rewrite <- take_take_drop. do 2 f_equal. unfold m. lia. }
      rewrite Z.mod_small by lia.
      destruct (IH len (len + m) m Hs Hb Hns eq_refl ltac:(lia)) as (cp' & s_len' & E' & H').
      exists cp', s_len'. rewrite E'. unfold m in *. clear E' IH.
      destruct (Z.min_spec (Z.of_nat n) (Z.of_nat (length s) - len)) as [[Hm Em]|[Hm Em]]; rewrite Em in *.
      * replace (len + Z.of_nat n + Z.of_nat (sum_list ns)) with (len + Z.of_nat (n + sum_list ns)) in * by lia.
        replace (Z.to_nat (len + Z.of_nat n) + sum_list ns)%nat with (Z.to_nat len + (n + sum_list ns))%nat by lia. done.
      * rewrite !(proj2 (Z.leb_le (Z.of_nat (length s)) _)) by lia. done.
    + exists 0, 0. rewrite (take_ge s) by lia. bool_lia. by replace len with (Z.of_nat (length s)) by lia.
Qed.

Lemma strlen_wraps s_buf s :
  c_str s_buf = Done s → Z.of_nat (length s) < 2 ^ 32 →
  ∀ answers, tcp_client_send answers s_buf = send_loop answers s_buf 0 0 0 (Z.of_nat (length s)) [].
Proof.
  intros Hs Hb answers. unfold tcp_client_send. rewrite (str_scan_len_spec _ _ Hs). cbn [mbind outcome_bind].
  by rewrite Z.mod_small by lia.
Qed.

(** When enough is taken the answers that follow are not asked for. *)
Lemma send_enough ns rest s_buf s :
  c_str s_buf = Done s → Z.of_nat (length s) < 2 ^ 31 → Forall (λ n, 0 < n)%nat ns → (length s ≤ sum_list ns)%nat →
  tcp_client_send ((Sent <$> ns) ++ rest) s_buf = Done (Some (Z.of_nat (length s)), s).
Proof.
  intros Hs Hb Hns Hl. rewrite (strlen_wraps _ _ Hs) by lia.
  destruct (send_loop_sent s_buf s rest ns 0 0 0 Hs ltac:(lia) Hns eq_refl ltac:(lia)) as (cp & s_len & E & _).
  change (take (Z.to_nat 0) s) with (@nil Z) in E. rewrite E, Z.add_0_l. bool_lia.
  do 3 f_equal. unfold to_int. rewrite Z.mod_small by lia. lia.
Qed.

(** When too little is taken the loop stands in the string, ready for the next call. *)
Lemma send_short ns rest s_buf s :
  c_str s_buf = Done s → Z.of_nat (length s) < 2 ^ 31 → Forall (λ n, 0 < n)%nat ns → (sum_list ns < length s)%nat →
  ∃ cp s_len, cp + s_len = Z.of_nat (sum_list ns) ∧
    tcp_client_send ((Sent <$> ns) ++ rest) s_buf =
    send_loop rest s_buf cp (Z.of_nat (sum_list ns)) s_len (Z.of_nat (length s)) (take (sum_list ns) s).
Proof.
  intros Hs Hb Hns Hl. rewrite (strlen_wraps _ _ Hs) by lia.
  destruct (send_loop_sent s_buf s rest ns 0 0 0 Hs ltac:(lia) Hns eq_refl ltac:(lia)) as (cp & s_len & E & H).
  change (take (Z.to_nat 0) s) with (@nil Z) in E. rewrite Z.add_0_l in *. cbn [Z.to_nat Nat.add] in E.
  exists cp, s_len. rewrite E. revert H. bool_lia. intros H. split; [by apply H|done].
Qed.

(** C27: whatever the system takes at a time, the whole string goes out in
    order: the call ends when the system has taken its length, returns it, and
    has sent the string; until then it has sent the bytes that were taken. *)
Theorem tcp_client_send_all ns s_buf s :
  c_str s_buf = Done s → Z.of_nat (length s) < 2 ^ 31 → Forall (λ n, 0 < n)%nat ns →
  tcp_client_send (Sent <$> ns) s_buf =
  Done (if (length s <=? sum_list ns)%nat then (Some (Z.of_nat (length s)), s)
        else (None, take (sum_list ns) s)).
Proof.
  intros Hs Hb Hns. rewrite <- (app_nil_r (Sent <$> ns)).
  destruct (Nat.leb_spec (length s) (sum_list ns)) as [Hl|Hl]; [by apply send_enough|].
  destruct (send_short ns [] s_buf s) as (cp & s_len & H & ->); [done..|].
  pose proof (c_str_length _ _ Hs). cbn [send_loop]. rewrite H. bool_lia.
  by rewrite mem_read_ok by (rewrite length_drop; lia).
Qed.

Lemma tcp_client_send_all_witness :
  tcp_client_send (Sent <$> [4; 1; 7])%nat (c_lit "GET / HTTP") = Done (Some 10, bytes "GET / HTTP").
Proof.
  assert (c_str (c_lit "GET / HTTP") = Done (bytes "GET / HTTP")) as Hs by reflexivity.
  rewrite (tcp_client_send_all [4; 1; 7]%nat (c_lit "GET / HTTP") (bytes "GET / HTTP") Hs ltac:(vm_compute; reflexivity)
             ltac:(repeat constructor; lia)).
  reflexivity.
Defined.

(** The test for a failed [send] never holds.  When the first one fails, -1 is
    returned, as it happens; when a later one fails, the pointer moves by
    2^32 - 1 bytes. *)
Theorem tcp_client_send_failure ns e rest s_buf s :
  c_str s_buf = Done s → Z.of_nat (length s) < 2 ^ 31 → Forall (λ n, 0 < n)%nat ns →
  Z.of_nat (length s_buf) < 2 ^ 31 → (sum_list ns < length s)%nat →
  tcp_client_send ((Sent <$> ns) ++ SendFailed e :: rest) s_buf =
  match ns with [] => Done (Some (-1), []) | _ => Fault OutOfBounds end.
Proof.
  intros Hs Hb Hns Hbuf Hsum. pose proof (c_str_length _ _ Hs) as Hlt.
  destruct (send_short ns (SendFailed e :: rest) s_buf s) as (cp & s_len & H & ->); [done..|].
  cbn [send_loop send_result bytes_taken]. rewrite H. bool_lia.
  rewrite mem_read_ok by (rewrite length_drop; lia). cbn [mbind outcome_bind]. change (take 0 _) with (@nil Z). rewrite app_nil_r.
  destruct ns as [|n ns].
  - change ((Z.of_nat (sum_list []) + (2 ^ 32 - 1)) mod 2 ^ 32) with (2 ^ 32 - 1). change (take _ s) with (@nil Z).
    assert (2 ^ 32 - 1 <? Z.of_nat (length s) = false) as E by (apply Z.ltb_ge; lia).
    destruct rest; cbn [send_loop]; by rewrite E.
  - apply Forall_cons in Hns as [Hn _]. change (sum_list (n :: ns)) with (n + sum_list ns)%nat in *.
    replace ((Z.of_nat (n + sum_list ns) + (2 ^ 32 - 1)) mod 2 ^ 32) with (Z.of_nat (n + sum_list ns) - 1)
      by (replace (Z.of_nat (n + sum_list ns) + (2 ^ 32 - 1)) with (Z.of_nat (n + sum_list ns) - 1 + 1 * 2 ^ 32) by lia;
          rewrite Z.mod_add by lia; rewrite Z.mod_small by lia; lia).
    set (L := Z.of_nat (n + sum_list ns)) in *.
    assert (L - 1 <? Z.of_nat (length s) = true) as E1 by (apply Z.ltb_lt; lia).
    assert (Z.of_nat (length s_buf) <? L + (2 ^ 32 - 1) = true) as E2 by (apply Z.ltb_lt; lia).
    destruct rest; cbn [send_loop]; by rewrite E1, E2.
Qed.

(** The answers up to the first failure. *)
Lemma answers_split answers :
  Sent 0 ∉ answers →
  ∃ ns tail, answers = (Sent <$> ns) ++ tail ∧ Forall (λ n, 0 < n)%nat ns ∧
    (tail = [] ∨ ∃ e rest, tail = SendFailed e :: rest).
Proof.
  induction answers as [|[n|e] answers IH]; intros Ha.
  - exists [], []. split; [done|]. split; [constructor|by left].
  - apply not_elem_of_cons in Ha as [Hn Ha]. destruct (IH Ha) as (ns & tail & -> & Hns & Ht).
    exists (n :: ns), tail. split; [done|]. split; [|done]. constructor; [|done]. destruct n; [done|lia].
  - exists [], (SendFailed e :: answers). split; [done|]. split; [constructor|eauto].
Qed.

(** A result of 0, on which the Elasticsearch client renews its connection
    (es_http_api.c 1497 and 1744), therefore comes from the empty string alone. *)
Theorem tcp_client_send_zero answers s_buf s out :
  c_str s_buf = Done s → Z.of_nat (length s_buf) < 2 ^ 31 → Sent 0 ∉ answers →
  tcp_client_send answers s_buf = Done (Some 0, out) → s = [].
Proof.
  intros Hs Hb Ha E. pose proof (c_str_length _ _ Hs).
  destruct (answers_split answers Ha) as (ns & tail & -> & Hns & Ht).
  destruct (Nat.le_gt_cases (length s) (sum_list ns)) as [Hl|Hl].
  - rewrite (send_enough _ _ _ s) in E by (done || lia). injection E as E _. apply length_zero_iff_nil. lia.
  - destruct Ht as [->|(e & rest & ->)].
    + destruct (send_short ns [] s_buf s) as (cp & s_len & H' & E'); [done|lia|done|done|].
      rewrite E' in E. cbn [send_loop] in E. revert E. rewrite H'. bool_lia.
      by rewrite mem_read_ok by (rewrite length_drop; lia).
    + rewrite (tcp_client_send_failure _ _ _ _ s) in E by (done || lia). by destruct ns.
Qed.

(** ** Theorems: receiving *)

(** Storing [len] zeros and then what was received. *)
Lemma zeroed_write r_buf n t :
  (length t ≤ n ≤ length r_buf)%nat →
  ∃ b, (b ← mem_write r_buf 0 (replicate n 0); mem_write b 0 t) = Done b ∧ length b = length r_buf ∧ take (length t) b = t.
Proof.
  intros Hn. rewrite mem_write_ok by (rewrite length_replicate; lia). cbn [mbind outcome_bind].
  assert (length (splice r_buf 0 (replicate n 0)) = length r_buf) as El
    by (apply length_splice; rewrite length_replicate; lia).
  rewrite mem_write_ok by (cbn; lia). eexists. split; [done|].
  split; [by rewrite length_splice by (cbn; lia)|]. apply take_splice_0.
Qed.

(** Interrupted calls are repeated, and what the first other call gives
    is read by the client as one of its three events: a packet with exactly the
    bytes received, nothing yet, or a closed connection. *)
Theorem tcp_client_recv_events k a rest r_buf len renewed :
  0 < len <= Z.of_nat (length r_buf) → a ≠ RecvFailed EINTR →
  ∃ ret b, tcp_client_recv (replicate k (RecvFailed EINTR) ++ a :: rest) r_buf len = Done (Some (ret, rest), b) ∧
    length b = length r_buf ∧
    event_of len ret b renewed =
      match a with
      | Received [] => Closed renewed
      | Received d => Packet (take (Z.to_nat len) d)
      | RecvFailed e => if e =? EAGAIN then NothingYet else Closed renewed
      end.
Proof.
  intros Hlen Ha. revert r_buf Hlen. induction k as [|k IH]; intros r_buf Hlen; cbn [replicate app tcp_client_recv].
  - destruct a as [d|e].
    + destruct (zeroed_write r_buf (Z.to_nat len) (take (Z.to_nat len) d)) as (b & E & Hb & Ht); [rewrite length_take; lia|].
      revert E. rewrite mem_write_ok by (rewrite length_replicate; lia). cbn [mbind outcome_bind]. intros ->.
      cbn [mbind outcome_bind]. do 2 eexists. split; [done|]. split; [done|].
      destruct d as [|c d]; [by rewrite take_nil|]. unfold event_of. rewrite length_take in *. cbn [length] in *. bool_lia.
      by rewrite Nat2Z.id, Ht.
    + rewrite mem_write_ok by (rewrite length_replicate; lia). cbn [mbind outcome_bind].
      destruct (Z.eqb_spec e EINTR) as [->|_]; [done|]. do 2 eexists. split; [done|].
      split; [apply length_splice; rewrite length_replicate; lia|]. unfold event_of.
      destruct (e =? EAGAIN); bool_lia; done.
  - rewrite mem_write_ok by (rewrite length_replicate; lia). cbn [mbind outcome_bind].
    assert (length (splice r_buf 0 (replicate (Z.to_nat len) 0)) = length r_buf) as El
      by (apply length_splice; rewrite length_replicate; lia).
    destruct (IH (splice r_buf 0 (replicate (Z.to_nat len) 0))) as (ret & b & E & Hb & He); [lia|].
    exists ret, b. by rewrite <- El.
Qed.

Lemma tcp_client_recv_events_witness :
  event_of 4 3 (bytes "abc" ++ [0]) true = Packet (bytes "abc") ∧
  ∃ ret b, tcp_client_recv [RecvFailed EINTR; Received (bytes "abc")] [1; 2; 3; 4] 4 = Done (Some (ret, []), b) ∧
    length b = 4%nat ∧ event_of 4 ret b true = Packet (bytes "abc").
Proof.
  split; [reflexivity|].
  apply (tcp_client_recv_events 1 (Received (bytes "abc")) [] [1; 2; 3; 4] 4 true); [cbn; lia|done].
Defined.

(** ** The blocking query over its socket (es_http_api.c 1742-1784)

    EsBlock's loops run on events; here the same code runs on what the system
    calls answer, through [tcp_client_send] and [tcp_client_recv]. *)

Section exchange.
Context {P : Type} `{EsPool P}.

(** From [send:] on: whether the client goes on to receive, the renewals that
    are left, and what went out.  [sends] has the answers of the calls for each
    time the text is sent. *)
Fixpoint send_sock (renewals : list bool) (sends : list (list send_answer)) (b : list Z) {struct sends}
  : outcome (option bool * list bool * list Z) :=
  match sends with
  | [] => Done (None, renewals, [])
  | answers :: sends =>
      '(ret, out) ← tcp_client_send answers b;
      match ret with
      | None => Done (None, renewals, out)
      | Some z =>
          if z =? 0 then
            match renewals with
            | [] => Done (None, [], out)
            | true :: rn => '(r, rn, out') ← send_sock rn sends b; mret (r, rn, out ++ out')
            | false :: rn => Done (Some false, rn, out)
            end
          else Done (Some true, renewals, out)
      end
  end.

(** From [recv:] on; every round takes an answer. *)
Fixpoint recv_sock (fuel : nat) (recvs : list recv_answer) (recv_buf : list Z) (renewals : list bool) (an_buf : list Z) (s : ana P)
  : outcome (option bool * ana P) :=
  '(r, recv_buf) ← tcp_client_recv recvs recv_buf SOCKET_BUF_RECV;
  match r with
  | None => Done (None, s)
  | Some (ret, rest) =>
      match fuel with
      | O => NoFuel
      | S f =>
          if ret <=? 0 then
            match renewals with
            | [] => Done (None, s)
            | true :: rn => recv_sock f rest recv_buf rn an_buf s
            | false :: _ => Done (Some false, s)
            end
          else if ret <=? SOCKET_BUF_RECV then
            '(ret, an_buf, s) ← recv_packet an_buf (take (Z.to_nat ret) recv_buf) s;
            if block_goes_on ret then recv_sock f rest recv_buf renewals an_buf s else Done (Some true, s)
          else recv_sock f rest recv_buf renewals an_buf s
      end
  end.

(** What is returned, what went out, and the state. *)
Definition es_query_socket (is_run : bool) (req : ES_REQUEST) (ip : list Z) (port_ : Z) (sends : list (list send_answer))
    (recvs : list recv_answer) (renewals : list bool) (x : blocking) : outcome (option bool * list Z * blocking) :=
  match path_str req, is_run with
  | Some _, true =>
      if bloc_mutex x then Done (None, [], x)
      else
        '(filled, s) ← fill_block_slot req ip port_ (slot_ x);
        match filled, req_buf (a_res s) with
        | inr _, _ => Done (Some false, [], Blocking true s)
        | inl _, None => Fault NullDeref
        | inl _, Some b =>
            '(r, renewals, out) ← send_sock renewals sends b;
            match r with
            | Some true =>
                '(r, s) ← recv_sock (length recvs) recvs (replicate (Z.to_nat SOCKET_BUFF_LEN) 0) renewals (buf []) s;
                mret (r, out, Blocking true s)
            | r => Done (r, out, Blocking true s)
            end
        end
  | _, _ => Done (Some false, [], x)
  end.

(** The events that a list of answers comes to, when the renewals go as
    [renewals] says. *)
Fixpoint events_of (recvs : list recv_answer) (renewals : list bool) : list recv_event :=
  match recvs with
  | [] => []
  | Received [] :: rest => match renewals with [] => [] | b :: rn => Closed b :: events_of rest rn end
  | Received d :: rest => Packet (take (Z.to_nat SOCKET_BUF_RECV) d) :: events_of rest renewals
  | RecvFailed e :: rest =>
      if e =? EINTR then events_of rest renewals
      else if e =? EAGAIN then NothingYet :: events_of rest renewals
      else match renewals with [] => [] | b :: rn => Closed b :: events_of rest rn end
  end.

Lemma events_of_interrupted k rest renewals :
  events_of (replicate k (RecvFailed EINTR) ++ rest) renewals = events_of rest renewals.
Proof. by induction k. Qed.

Lemma interrupted_split recvs :
  ∃ k, recvs = replicate k (RecvFailed EINTR) ∨
    ∃ a rest, recvs = replicate k (RecvFailed EINTR) ++ a :: rest ∧ a ≠ RecvFailed EINTR.
Proof.
  induction recvs as [|a recvs (k & IH)]; [by exists O; left|].
  assert (a = RecvFailed EINTR ∨ a ≠ RecvFailed EINTR) as [->|Ha].
  { destruct a as [d|e]; [by right|]. destruct (Z.eq_dec e EINTR) as [->|]; [by left|right; congruence]. }
  - exists (S k). destruct IH as [->|(a & rest & -> & Ha)]; [by left|right; by exists a, rest].
  - exists O. right. by exists a, recvs.
Qed.

(** A call that is interrupted again and again waits. *)
Lemma tcp_client_recv_waits k len : ∀ r_buf,
  0 <= len <= Z.of_nat (length r_buf) → ∃ b, tcp_client_recv (replicate k (RecvFailed EINTR)) r_buf len = Done (None, b).
Proof.
  induction k as [|k IH]; intros r_buf Hl; cbn [replicate tcp_client_recv];
    rewrite mem_write_ok by (rewrite length_replicate; lia); cbn [mbind outcome_bind]; [by eexists|].
  apply IH. rewrite length_splice by (rewrite length_replicate; lia). lia.
Qed.

(** The receiving loop over its socket is the loop over the events. *)
Lemma recv_sock_events fuel : ∀ recvs recv_buf renewals an_buf (s : ana P),
  length recv_buf = Z.to_nat SOCKET_BUFF_LEN → (length recvs ≤ fuel)%nat →
  recv_sock fuel recvs recv_buf renewals an_buf s = block_recv (events_of recvs renewals) an_buf s.
Proof.
  assert (0 < SOCKET_BUF_RECV < SOCKET_BUFF_LEN) as Hlen by done.
  induction fuel as [|fuel IH]; intros recvs recv_buf renewals an_buf s Hb Hf;
    destruct (interrupted_split recvs) as (k & [->|(a & rest & -> & Ha)]).
  1, 3: destruct (tcp_client_recv_waits k SOCKET_BUF_RECV recv_buf) as (b & E); [lia|];
    rewrite <- (app_nil_r (replicate k _)), events_of_interrupted, app_nil_r; cbn [recv_sock]; by rewrite E.
  { rewrite length_app in Hf. cbn [length] in Hf. lia. }
  rewrite length_app in Hf. cbn [length] in Hf. rewrite events_of_interrupted. cbn [recv_sock].
  destruct (tcp_client_recv_events k a rest recv_buf SOCKET_BUF_RECV true) as (ret & b & E & Hl & He); [lia|done|].
  rewrite E. cbn [mbind outcome_bind]. unfold event_of in He.
  assert (∀ rn an (s : ana P), recv_sock fuel rest b rn an s = block_recv (events_of rest rn) an s) as IH'
    by (intros; apply IH; [congruence|lia]).
  destruct (ret <=? 0); [|destruct (ret <=? SOCKET_BUF_RECV)];
    destruct a as [[|c d]|e]; try discriminate He; cbn [events_of];
    try (assert (e =? EINTR = false) as -> by (apply Z.eqb_neq; congruence));
    try (destruct (e =? EAGAIN); try discriminate He).
  - destruct renewals as [|[] rn]; [done|apply IH'|done].
  - destruct renewals as [|[] rn]; [done|apply IH'|done].
  - injection He as ->. cbn [block_recv]. destruct (recv_packet _ _ _) as [[[z an] s1]|f|]; [|done|done].
    cbn [mbind outcome_bind]. destruct (block_goes_on z); [apply IH'|done].
  - apply IH'.
Qed.

(** The query over the socket is the query over the events, and the text that
    goes out is the one in the slot. *)
Lemma es_query_socket_events req ip port_ ns more again recvs renewals (x : blocking) s b t :
  fill_block_slot req ip port_ (slot_ x) = Done (inl tt, s) → req_buf (a_res s) = Some b → c_str b = Done t →
  t ≠ [] → Z.of_nat (length t) < 2 ^ 31 → Forall (λ n, 0 < n)%nat ns → (length t ≤ sum_list ns)%nat →
  bloc_mutex x = false → path_str req ≠ None →
  es_query_socket true req ip port_ (((Sent <$> ns) ++ more) :: again) recvs renewals x =
  ('(r, x) ← es_query_block true req ip port_ [] (events_of recvs renewals) x; mret (r, t, x)).
Proof.
  intros Ef Hb Ht Hne Hlt Hns Hsum Hm Hp. unfold es_query_socket, es_query_block.
  destruct (path_str req); [|done]. rewrite Hm, Ef. cbn [mbind outcome_bind block_send]. rewrite Hb. cbn [send_sock].
  rewrite (send_enough ns more b t) by done. cbn [mbind outcome_bind].
  destruct (Z.eqb_spec (Z.of_nat (length t)) 0) as [E|_]; [destruct t; [done|cbn in E; lia]|].
  cbn [mbind outcome_bind]. rewrite recv_sock_events by (by rewrite ?length_replicate).
  by destruct (block_recv _ _ _) as [[r s1]|f|].
Qed.
End exchange.

(** C34: a blocking query over its socket, however much of the request the
    system takes at a time, and an answer of the form the client can read in
    packets cut among its hits (the conditions of [answer_in_packets]), with
    waits, interrupted calls and renewed connections in between: exactly the
    request goes out, the slot is returned with the complete answer, and no other
    blocking query starts until it is released. *)
Theorem query_over_socket `{EsPool P} v pb path qb query bb body ib ip port_ ns more again recvs renewals packets
    h n o hs closing (s : ana P) :
  c_str pb = Done path → own_copy qb query → c_str bb = Done body → c_str ib = Done ip → 0 < port_ →
  (length (with_query (bytes "/") path query) < 1024)%nat → idle s →
  delivers (events_of recvs renewals) packets →
  answer_head h n → open_ok o → body_ok hs closing → nonzero (render_head h ++ open_text o) →
  find_sub http_str (open_text o ++ render_hits hs ++ closing) = None →
  packets_of (render_head h ++ open_text o) (render_hits hs) closing packets →
  Forall (λ r : list Z, length r ≤ 1023)%nat packets →
  let t := es_message_text (verb_str_arr v) (with_query (bytes "/") path query) ip port_ body in
  Z.of_nat (length t) + 1024 <= int_max → Forall (λ n, 0 < n)%nat ns → (length t ≤ sum_list ns)%nat →
  ∃ s' hd outer L x',
    es_query_socket true (EsRequest (Some pb) qb (Some bb) v) ib port_ (((Sent <$> ns) ++ more) :: again) recvs renewals
      (Blocking false s) = Done (Some true, t, Blocking true s') ∧
    http (a_res s') = Some (HttpHead (copied (t_ver h)) (copied (t_note h)) (t_code h) n hd) ∧
    s_total <$> search (a_res s') = Some (p_total o) ∧
    hits_rep s' hd outer L ∧ hit_of <$> L = hit_kept <$> hs ∧
    (∀ req' ib' sends' recvs', path_str req' ≠ None →
       es_query_socket true req' ib' port_ sends' recvs' [] (Blocking true s') = Done (None, [], Blocking true s')) ∧
    release_es_respond (Blocking true s') = Done x' ∧ bloc_mutex x' = false ∧ a_res (slot_ x') = empty_respond.
Proof.
  intros Hp Hq Hb Hi Hport Hl Hs Hdel Hh Ho Hbody Hz Hno Hpk Hlen t Hlt Hns Hsum.
  destruct (es_query_block_answers v pb path qb query bb body ib ip port_ [] (events_of recvs renewals) packets h n o hs closing s)
    as (s1 & b & s' & hd & outer & L & x' & E1 & E2 & E3 & E4 & H1 & H2 & H3 & H4 & _ & H5); [done..|].
  exists s', hd, outer, L, x'. split.
  { assert (Z.of_nat (length t) < 2 ^ 31) as Hlt' by (change int_max with 2147483647 in Hlt; lia).
    erewrite es_query_socket_events by (done || (unfold t, es_message_text; by destruct v)). by rewrite E4. }
  repeat (split; [done|]). split; [|done]. intros req' ib' sends' recvs' Hpath. unfold es_query_socket. by destruct (path_str req').
Qed.

(** The answer of EsFindings.v: the client asks too early, is interrupted, and
    loses its connection before the second packet. *)
Definition sample_recvs : list recv_answer :=
  match sample_packets with
  | [a; b] => [RecvFailed EAGAIN; Received a; RecvFailed EINTR; Received []; RecvFailed EAGAIN; Received b]
  | _ => []
  end.

Lemma query_over_socket_witness : ∃ t s' hd outer L,
  es_query_socket true (sample_query (Some (c_lit "{}"))) (c_lit "10.0.0.9") 9200 [Sent <$> [100; 1; 1000]%nat] sample_recvs [true]
    (Blocking false (fresh_answer 7)) = Done (Some true, t, Blocking true s') ∧
  take 41 t = bytes "POST /books/_search/?size=2 HTTP/1.1" ++ crlf ++ bytes "Use" ∧
  s_total <$> search (a_res s') = Some 2 ∧ hits_rep s' hd outer L ∧ hit_of <$> L = hit_kept <$> sample_hits.
Proof.
  destruct sample_packets_ok as (Hp & Hl & Hz & Hn).
  assert (delivers (events_of sample_recvs [true]) sample_packets) as Hd by (repeat constructor).
  destruct (query_over_socket POST_METHOD (c_lit "/books/_search") (bytes "/books/_search") (Some (c_lit "?size=2"))
    (Some (bytes "?size=2")) (c_lit "{}") (bytes "{}") (c_lit "10.0.0.9") (bytes "10.0.0.9") 9200 [100; 1; 1000]%nat [] []
    sample_recvs [true] sample_packets
    (sample_head "150") 150 sample_open sample_hits sample_closing (fresh_answer 7) eq_refl eq_refl eq_refl eq_refl eq_refl
    ltac:(cbn; lia) (fresh_idle 7) Hd sample_answer_head sample_open_ok sample_body_ok Hz Hn Hp Hl
    ltac:(vm_compute; discriminate) ltac:(repeat constructor; lia) ltac:(apply Nat.leb_le; vm_compute; reflexivity))
    as (s' & hd & outer & L & x & E & _ & H1 & H2 & H3 & _).
  eexists _, s', hd, outer, L. split; [exact E|]. split; [vm_compute; reflexivity|]. split; [exact H1|]. split; [exact H2|exact H3].
Defined.

(** ** Examples *)

Example name_resolved :
  analy_ipstr_dns (λ _ a _, Some a) (Some (Hostent AF_INET [bytes "127.0.0.1"; bytes "10.0.0.1"])) 32 = (0, Some (bytes "127.0.0.1")) ∧
  analy_ipstr_dns (λ _ a _, Some a) (Some (Hostent AF_INET [])) 32 = (-1, None) ∧
  analy_ipstr_dns (λ _ a _, Some a) None 32 = (-1, None).
Proof. repeat split; reflexivity. Qed.

(** ** Options *)

(** An option is set to 0 or 1 whatever number is given for it. *)
Lemma on_off_values onff : on_off onff = [if onff =? 0 then 0 else 1; 0; 0; 0].
Proof. unfold on_off. by destruct (onff =? 0). Qed.

Lemma tcp_info_nonzero names : ∀ fields,
  Forall nonzero names → Forall (λ f, 0 <= f) fields → nonzero (tcp_info_text names fields).
Proof.
  induction names as [|n names IH]; intros [|f fields] Hn Hf; try (by constructor); [by destruct names; constructor|].
  apply Forall_cons in Hn as [Hn Hns]. apply Forall_cons in Hf as [Hf Hfs]. cbn [tcp_info_text].
  destruct names as [|m names]; repeat (apply Forall_app; split); first [done | by apply dec_nonzero | by apply IH | by repeat constructor].
Qed.

(** The text never runs over the length given, and what fits of it is a string. *)
Theorem getTcpInfoString_bounded fields buf len :
  Forall (λ f, 0 <= f) fields → 0 < len <= Z.of_nat (length buf) →
  ∃ b, getTcpInfoString (inr fields) buf len = Done (0, b) ∧ length b = length buf ∧
    c_str b = Done (take (Z.to_nat (len - 1)) (tcp_info_text tcp_info_names fields)) ∧
    drop (Z.to_nat len) b = drop (Z.to_nat len) buf.
Proof.
  intros Hf Hl. set (t := tcp_info_text tcp_info_names fields).
  assert (nonzero t) as Ht by (apply tcp_info_nonzero; [vm_compute; repeat constructor; discriminate|done]).
  unfold getTcpInfoString, snprintf_s. fold t. rewrite c_str_app by done. cbn [mbind outcome_bind mret outcome_ret].
  rewrite (proj2 (Z.eqb_neq len 0)), (proj2 (Z.ltb_ge len 0)) by lia.
  set (u := take (Z.to_nat (len - 1)) t). assert (length u ≤ Z.to_nat (len - 1))%nat as Hu by (unfold u; rewrite length_take; lia).
  rewrite mem_write_ok by (rewrite length_app; cbn [length]; lia). eexists. split; [done|]. split; [|split].
  - by rewrite length_splice by (rewrite length_app; cbn [length]; lia).
  - unfold splice. rewrite take_0, app_nil_l, <- app_assoc. apply c_str_app. by apply Forall_take.
  - apply drop_splice_ge; [lia|]. rewrite length_app. cbn [length]. lia.
Qed.

(** A failed [F_GETFL] gives -1, whose bits are all set: every flag is switched on. *)
Theorem failed_getfl_sets_all fd : setNonBlockAndCloseOnExec (λ _, -1) fd =
  [Fcntl fd F_GETFL 0; Fcntl fd F_SETFL (-1); Fcntl fd F_GETFD 0; Fcntl fd F_SETFD (-1)].
Proof. reflexivity. Qed.
