(* ===== verification/LogMini.v ===== *)
(** * The log (module_function/log_mini.c)

    Lines above a level go to the standard output or, once [log_set_filename]
    was called, to files: when more than a size was written since a file was
    opened, it is closed and the file named after the time is opened, to append
    to it.  [files] maps names to contents; bytes in the buffer of the open
    stream ([setbuffer]) count as written.  What the system does during a call
    is an argument ([system]).  Shown: what is in every file after any calls, as
    long as files can be opened and every [fwrite] takes something; the names
    fit; and what the code does not mean. *)

From S2P Require Import Prelude CString PsText FrameTool.
From stdpp Require Import gmap strings.

Open Scope Z_scope.

(** ** State (lines 8-40, 98-104) *)

Definition LOG_RECORD_FILE_NAMELEN : nat := 512.
Definition LOG_RECORD_FILE_SUFFIXLEN : Z := 64.
Definition TRACE : Z := 0.
Definition DEBUG : Z := 1.
Definition INFO : Z := 2.
Definition WARN : Z := 3.
Definition ERROR : Z := 4.
Definition log_level_str : list (list Z) :=
  bytes <$> ["TRACE "; "DEBUG "; "INFO  "; "WARN  "; "ERROR "]%string.

(** The two functions that [out] and [flu] may point to. *)
Inductive sink := ToStdout | ToFile.
Record LOG_RECORD := LogRecord { out : option sink; flu : option sink; time_zone : Z; lev : Z }.
(** [fp_] is the stream that is open: the name of its file. *)
Record LOG_FILE_INFO := LogFileInfo { fp_ : option (list Z); writtenBytes_ : Z }.
Record LOG_FILE := LogFile { mutex_ : bool; rollSize_ : Z; base_file_name : list Z }.

Record log_world := LogWorld {
  log_recod : LOG_RECORD; log_file_info : LOG_FILE_INFO; log_file_ : LOG_FILE;
  files : gmap (list Z) (list Z); stdout_ : list Z }.

Definition set_record r w := LogWorld r (log_file_info w) (log_file_ w) (files w) (stdout_ w).
Definition set_info i w := LogWorld (log_recod w) i (log_file_ w) (files w) (stdout_ w).
Definition set_file f w := LogWorld (log_recod w) (log_file_info w) f (files w) (stdout_ w).
Definition set_files s w := LogWorld (log_recod w) (log_file_info w) (log_file_ w) s (stdout_ w).
Definition print_out t w := LogWorld (log_recod w) (log_file_info w) (log_file_ w) (files w) (stdout_ w ++ t).

Definition start_of_program : log_world :=
  LogWorld (LogRecord None None 0 TRACE) (LogFileInfo None 0) (LogFile false 0 (replicate LOG_RECORD_FILE_NAMELEN 0)) ∅ [].

(** [struct tm] in the fields used. *)
Record tm := Tm { tm_year : Z; tm_mon : Z; tm_mday : Z; tm_hour : Z; tm_min : Z; tm_sec : Z }.

(** The time, whether a file can be opened, and how much each [fwrite] takes;
    when the list ends they take all. *)
Record system := System { now : tm; opens : bool; takes : list nat }.

(** ** One file (lines 42-96) *)

Definition append_to (name t : list Z) (f : gmap (list Z) (list Z)) : gmap (list Z) (list Z) :=
  <[name := default [] (f !! name) ++ t]> f.
(** Mode [a]: a file that exists keeps what it holds, another one is made. *)
Definition open_log_file (filename : list Z) (sys : system) (w : log_world) : outcome log_world :=
  match fp_ (log_file_info w) with
  | Some _ => Fault AssertFailed
  | None =>
      if opens sys
      then mret (set_files (append_to filename [] (files w)) (set_info (LogFileInfo (Some filename) 0) w))
      else mret w
  end.

(** The [while] loop: what is written of the bytes that remain. *)
Fixpoint append_loop (takes : list nat) (rest : list Z) : list Z :=
  match rest, takes with
  | [], _ => []
  | _, [] => rest
  | _, O :: _ => []
  | _, x :: takes => take x rest ++ append_loop takes (drop x rest)
  end.
Definition file_written (takes : list nat) (t : list Z) : list Z :=
  let '(first, more) := match takes with [] => (t, []) | x :: more => (take x t, more) end in
  first ++ append_loop more (drop (length first) t).
Definition file_append_log (logline : list Z) (len : Z) (sys : system) (w : log_world) : outcome log_world :=
  match fp_ (log_file_info w) with
  | None => Fault NullDeref
  | Some f =>
      t ← mem_read logline len;
      mret (set_info (LogFileInfo (Some f) ((writtenBytes_ (log_file_info w) + len) mod 2 ^ 64))
             (set_files (append_to f (file_written (takes sys) t) (files w)) w))
  end.

Definition close_log_file (w : log_world) : outcome log_world :=
  match fp_ (log_file_info w) with
  | None => Fault AssertFailed
  | Some _ => mret (set_info (LogFileInfo None 0) w)
  end.
Definition file_flush_operation (w : log_world) : outcome log_world :=
  match fp_ (log_file_info w) with None => Fault AssertFailed | Some _ => mret w end.

(** ** The files, one after the other (lines 106-156) *)

Definition zeros (n : nat) : list Z := replicate n 48.
(** [%0<width>d] *)
Definition dec0 (width : nat) (n : Z) : list Z :=
  if n <? 0 then 45 :: zeros (width - S (length (dec (- n)))) ++ dec (- n)
  else zeros (width - length (dec n)) ++ dec n.

Definition stamp (zone : Z) (t : tm) : list Z :=
  bytes "." ++ dec0 4 (tm_year t + 1900) ++ dec0 2 (tm_mon t + 1) ++ dec0 2 (tm_mday t) ++
  bytes "-" ++ dec0 2 (tm_hour t + zone) ++ dec0 2 (tm_min t) ++ dec0 2 (tm_sec t) ++ bytes ".log".

(** A name that may be too long is reported and made all the same. *)
Definition get_log_file_name (name : list Z) (t : tm) (w : log_world) : outcome (list Z) :=
  len ← frame_strlen (Some (base_file_name (log_file_ w)));
  base ← mem_read (base_file_name (log_file_ w)) len;
  name ← mem_write name 0 base;
  mem_write name (length base) (stamp (time_zone (log_recod w)) t ++ [0]).

Definition log_file_roll_file (sys : system) (w : log_world) : outcome log_world :=
  log_name ← get_log_file_name (replicate LOG_RECORD_FILE_NAMELEN 0) (now sys) w;
  w ← match fp_ (log_file_info w) with Some _ => close_log_file w | None => mret w end;
  name ← c_str log_name;
  open_log_file name sys w.

Definition set_mutex (b : bool) (w : log_world) : log_world :=
  set_file (LogFile b (rollSize_ (log_file_ w)) (base_file_name (log_file_ w))) w.
Definition log_file_outpuut (msg : list Z) (len : Z) (sys : system) (w : log_world) : outcome log_world :=
  if mutex_ (log_file_ w) then Fault LockMisuse
  else
    w ← file_append_log msg len sys (set_mutex true w);
    w ← (if rollSize_ (log_file_ w) <? writtenBytes_ (log_file_info w) then log_file_roll_file sys w else mret w);
    mret (set_mutex false w).
Definition log_file_flush (w : log_world) : outcome log_world := file_flush_operation w.

Definition log_default_output (msg : list Z) (len : Z) (w : log_world) : outcome log_world :=
  t ← mem_read msg len; mret (print_out t w).

(** ** The public operations (lines 170-244) *)

Definition log_set_level (le : Z) (w : log_world) : log_world :=
  let r := log_recod w in set_record (LogRecord (out r) (flu r) (time_zone r) le) w.
Definition log_time_set_timezone (hour_diff : Z) (w : log_world) : log_world :=
  let r := log_recod w in
  if (-12 <=? hour_diff) && (hour_diff <=? 12) then set_record (LogRecord (out r) (flu r) hour_diff (lev r)) w else w.
Definition log_flush (w : log_world) : outcome log_world :=
  match flu (log_recod w) with
  | None | Some ToStdout => mret w
  | Some ToFile => log_file_flush w
  end.

(** What the first call sets when nothing was set before. *)
Definition log_defaults (w : log_world) : log_world :=
  match out (log_recod w) with
  | None => set_record (LogRecord (Some ToStdout) (Some ToStdout) 8 INFO) w
  | Some _ => w
  end.
Definition log_head (fil fn : list Z) (l_num : Z) (level : list Z) : list Z :=
  fil ++ bytes " :: " ++ fn ++ bytes "() " ++ sdec l_num ++ bytes ": " ++ level ++ bytes " ".

(** [text] is what [vsprintf] makes of the format and its arguments. *)
Definition log (level : Z) (fil fn : list Z) (l_num : Z) (text : list Z) (sys : system) (w : log_world) : outcome log_world :=
  let w := log_defaults w in
  if level <? lev (log_recod w) then mret w
  else
    fil ← c_str fil; fn ← c_str fn;
    match log_level_str !! Z.to_nat level with
    | None => Fault OutOfBounds
    | Some level =>
        msg ← mem_write (replicate 4096 0) 0 (log_head fil fn l_num level ++ [0]);
        p_char ← frame_end_charstr (Some msg);
        msg ← mem_write msg p_char (text ++ [0]);
        let n := Z.of_nat (p_char + length text) in
        match out (log_recod w) with
        | Some ToFile => log_file_outpuut msg n sys w
        | Some ToStdout => log_default_output msg n w
        | None => Fault NullDeref
        end
    end.

(** The name is copied without its NUL; [size] becomes a [size_t]. *)
Definition log_set_filename (name : list Z) (size : Z) (sys : system) (w : log_world) : outcome log_world :=
  name_len ← frame_strlen (Some name);
  if Z.of_nat LOG_RECORD_FILE_NAMELEN <=? name_len + LOG_RECORD_FILE_SUFFIXLEN then mret w
  else
    s ← mem_read name name_len;
    base ← mem_write (base_file_name (log_file_ w)) 0 s;
    log_file_roll_file sys
      (set_record (LogRecord (Some ToFile) (Some ToFile) 8 INFO) (set_file (LogFile false (size mod 2 ^ 64) base) w)).

(** ** A run *)

Record call := Call { c_level : Z; c_fil : list Z; c_fun : list Z; c_num : Z; c_text : list Z; c_sys : system }.

Fixpoint log_all (calls : list call) (w : log_world) : outcome log_world :=
  match calls with
  | [] => mret w
  | c :: calls => w ← log (c_level c) (c_fil c) (c_fun c) (c_num c) (c_text c) (c_sys c) w; log_all calls w
  end.

(** ** Specification: lines, chunks and files

    A chunk is what is written to a file from its opening to its closing; two
    chunks may go to one file, when it is closed in the second in which it was
    opened.  [roll] says which chunks the lines make: a file is closed as soon as
    more than [size] was written, and the next one is named after the time. *)

Fixpoint roll (name : tm → list Z) (size : Z) (nm cur : list Z) (lines : list (tm * list Z)) : list (list Z * list Z) :=
  match lines with
  | [] => [(nm, cur)]
  | (t, l) :: lines =>
      if size <? Z.of_nat (length (cur ++ l)) then (nm, cur ++ l) :: roll name size (name t) [] lines
      else roll name size nm (cur ++ l) lines
  end.
(** The files after some chunks. *)
Definition stored (f : gmap (list Z) (list Z)) (chunks : list (list Z * list Z)) : gmap (list Z) (list Z) :=
  foldl (λ f c, append_to c.1 c.2 f) f chunks.

(** Nothing is lost, and only the last chunk may have room. *)
Lemma roll_concat name size lines : ∀ nm cur, concat (roll name size nm cur lines).*2 = cur ++ concat lines.*2.
Proof.
  induction lines as [|[t l] lines IH]; intros nm cur; [done|]. cbn [roll fmap list_fmap concat snd].
  destruct (_ <? _); cbn [fmap list_fmap concat snd]; rewrite IH; by rewrite <- ?app_assoc.
Qed.
Lemma roll_full name size lines : ∀ nm cur, ∃ full lst, roll name size nm cur lines = full ++ [lst] ∧
  Forall (λ c, size < Z.of_nat (length c.2)) full ∧
  (Z.of_nat (length cur) <= size → 0 <= size → Z.of_nat (length lst.2) <= size).
Proof.
  induction lines as [|[t l] lines IH]; intros nm cur; [exists [], (nm, cur); repeat split; [constructor|done]|]. cbn [roll].
  destruct (Z.ltb_spec size (Z.of_nat (length (cur ++ l)))) as [Hl|Hl].
  - destruct (IH (name t) []) as (full & lst & -> & Hf & Hc). exists ((nm, cur ++ l) :: full), lst.
    split; [done|]. split; [by constructor|]. intros _ H0. by apply Hc.
  - destruct (IH nm (cur ++ l)) as (full & lst & -> & Hf & Hc). exists full, lst. split; [done|]. split; [done|]. auto.
Qed.

(** A file holds what it held and the chunks that went to it, in order. *)
Definition contents (f : gmap (list Z) (list Z)) (nm : list Z) : list Z := default [] (f !! nm).
Lemma stored_contents chunks nm : ∀ f,
  contents (stored f chunks) nm = contents f nm ++ concat (filter (λ c, c.1 = nm) chunks).*2.
Proof.
  induction chunks as [|[m c] chunks IH]; intros f; [by rewrite app_nil_r|]. cbn [stored foldl fst snd].
  change (foldl _ ?g chunks) with (stored g chunks). rewrite IH. unfold contents, append_to. rewrite filter_cons. cbn [fst].
  destruct (decide (m = nm)) as [->|Hne].
  - rewrite lookup_insert_eq. cbn. by rewrite <- app_assoc.
  - by rewrite lookup_insert_ne.
Qed.

Lemma append_twice nm s t f : append_to nm t (append_to nm s f) = append_to nm (s ++ t) f.
Proof. unfold append_to. rewrite lookup_insert_eq, insert_insert_eq. cbn. by rewrite app_assoc. Qed.

(** ** Names *)


Lemma dec0_length w n : (length (dec0 w n) ≤ Nat.max w 11)%nat.
Proof.
  pose proof (dec_length n). pose proof (dec_length (- n)). unfold dec0, zeros.
  destruct (n <? 0); cbn [length]; rewrite length_app, length_replicate; lia.
Qed.

Lemma dec0_two n : -100 < n < 100 → (length (dec0 2 n) ≤ 3)%nat.
Proof.
  intros Hn. assert (forallb (λ k, length (dec0 2 (Z.of_nat k - 99)) <=? 3)%nat (seq 0 199) = true) as H by (vm_compute; done).
  rewrite forallb_forall in H. specialize (H (Z.to_nat (n + 99)) ltac:(apply in_seq; lia)).
  apply Nat.leb_le in H. by replace (Z.of_nat (Z.to_nat (n + 99)) - 99) with n in H by lia.
Qed.

Lemma dec0_nonzero w n : nonzero (dec0 w n).
Proof.
  unfold dec0, zeros, nonzero. destruct (Z.ltb_spec n 0); [constructor; [done|]|]; apply Forall_app; split;
    (by apply dec_nonzero; lia) || (apply Forall_replicate; lia).
Qed.
Lemma stamp_nonzero zone t : nonzero (stamp zone t).
Proof.
  unfold stamp. repeat (apply Forall_app; split); first [apply dec0_nonzero | cbn; repeat constructor; done].
Qed.

(** What [gmtime_r] gives, and the zones that can be set. *)
Definition tm_ok (t : tm) : Prop :=
  0 <= tm_mon t < 12 ∧ 1 <= tm_mday t <= 31 ∧ 0 <= tm_hour t < 24 ∧ 0 <= tm_min t < 60 ∧ 0 <= tm_sec t <= 60.

Lemma stamp_length zone t : tm_ok t → -12 <= zone <= 12 → (length (stamp zone t) ≤ 32)%nat.
Proof.
  intros (? & ? & ? & ? & ?) Hz. unfold stamp. rewrite !length_app.
  pose proof (dec0_length 4 (tm_year t + 1900)).
  pose proof (dec0_two (tm_mon t + 1) ltac:(lia)). pose proof (dec0_two (tm_mday t) ltac:(lia)).
  pose proof (dec0_two (tm_hour t + zone) ltac:(lia)). pose proof (dec0_two (tm_min t) ltac:(lia)).
  pose proof (dec0_two (tm_sec t) ltac:(lia)). cbn [length bytes]. lia.
Qed.

(** The base name in use: short enough, in its buffer. *)
Definition base_ok (base : list Z) (w : log_world) : Prop :=
  c_str (base_file_name (log_file_ w)) = Done base ∧ (length base < 448)%nat ∧
  length (base_file_name (log_file_ w)) = LOG_RECORD_FILE_NAMELEN ∧ -12 <= time_zone (log_recod w) <= 12.

(** A name that [log_set_filename] lets through leaves room for the time
    in every zone: the buffer holds the name, the time and the NUL. *)
Lemma log_name_fits base t w :
  base_ok base w → tm_ok t →
  ∃ b, get_log_file_name (replicate LOG_RECORD_FILE_NAMELEN 0) t w = Done b ∧
       c_str b = Done (base ++ stamp (time_zone (log_recod w)) t) ∧ length b = LOG_RECORD_FILE_NAMELEN.
Proof.
  intros (Hs & Hl & Hb & Hz) Ht. pose proof (stamp_length _ _ Ht Hz) as Hst.
  pose proof (c_str_inv _ _ Hs) as (r & E & Hnz). unfold get_log_file_name, frame_strlen.
  rewrite (str_scan_len_spec _ _ Hs). cbn [mbind outcome_bind mret outcome_ret].
  rewrite mem_read_ok by (rewrite E, length_app; lia). cbn [mbind outcome_bind].
  rewrite E, Nat2Z.id, take_app_length. unfold LOG_RECORD_FILE_NAMELEN in *.
  rewrite mem_write_ok by (rewrite length_replicate; lia). cbn [mbind outcome_bind].
  set (st := stamp (time_zone (log_recod w)) t) in *.
  assert (length (splice (replicate 512 0) 0 base) = 512%nat) as E0
    by (rewrite length_splice; rewrite length_replicate; lia).
  rewrite mem_write_ok by (rewrite E0, length_app; cbn [length]; lia). eexists. split; [done|]. split.
  - unfold splice at 1. rewrite take_splice_0.
    rewrite <- app_assoc, app_assoc. apply c_str_app, Forall_app. split; [done|apply stamp_nonzero].
  - rewrite length_splice by (rewrite E0, length_app; cbn [length]; lia). done.
Qed.

Definition new_year : tm := Tm 124 0 1 20 5 9.
Definition sample_world : log_world :=
  LogWorld (LogRecord (Some ToFile) (Some ToFile) 8 INFO) (LogFileInfo None 0) (LogFile false 40 (bytes "/var/log/ini" ++ replicate 500 0)) ∅ [].

(** The hour is moved by the zone and nothing else is: it is the 28th hour. *)
Lemma hour_twenty_eight :
  base_ok (bytes "/var/log/ini") sample_world ∧
  ∃ b, get_log_file_name (replicate LOG_RECORD_FILE_NAMELEN 0) new_year sample_world = Done b ∧
       c_str b = Done (bytes "/var/log/ini.20240101-280509.log").
Proof. split; [repeat split; (vm_compute; done) || (cbn; lia)|]. eexists. split; vm_compute; reflexivity. Qed.

(** ** Files *)

Lemma append_all takes rest : Forall (λ n, 0 < n)%nat takes → append_loop takes rest = rest.
Proof.
  intros H. revert rest. induction H as [|n takes Hn _ IH]; intros [|c rest]; [done..|].
  destruct n; [lia|]. cbn [append_loop]. by rewrite IH, take_drop.
Qed.

Lemma file_written_all takes t : Forall (λ n, 0 < n)%nat takes → file_written takes t = t.
Proof.
  intros H. destruct H as [|n takes Hn H]; unfold file_written; rewrite append_all by done; [by rewrite drop_all, app_nil_r|].
  destruct (Nat.le_gt_cases n (length t)).
  - by rewrite length_take_le, take_drop by lia.
  - by rewrite take_ge, drop_all, app_nil_r by lia.
Qed.

(** A log that writes to files: [nm] is open, with [cur] written to it since,
    and [f] are the files of before. *)
Record log_open (base : list Z) (size : Z) (f : gmap (list Z) (list Z)) (nm cur : list Z) (w : log_world) : Prop := {
  o_out : out (log_recod w) = Some ToFile;
  o_base : base_ok base w;
  o_fp : fp_ (log_file_info w) = Some nm;
  o_files : files w = append_to nm cur f;
  o_written : writtenBytes_ (log_file_info w) = Z.of_nat (length cur);
  o_mutex : mutex_ (log_file_ w) = false;
  o_size : rollSize_ (log_file_ w) = size ∧ 0 <= size < 2 ^ 31;
  o_room : Z.of_nat (length cur) <= size }.

(** The system does its part: files open, the clock is right, [fwrite] never
    gives up. *)
Definition sys_ok (s : system) : Prop := opens s = true ∧ tm_ok (now s) ∧ Forall (λ n, 0 < n)%nat (takes s).

(** What [log_file_outpuut] does once it holds the mutex. *)
Lemma log_append_ok base size f nm cur l msg sys w :
  log_open base size f nm cur w → sys_ok sys → mem_read msg (Z.of_nat (length l)) = Done l → Z.of_nat (length l) < 2 ^ 31 →
  file_append_log msg (Z.of_nat (length l)) sys (set_mutex true w) =
  Done (set_info (LogFileInfo (Some nm) (Z.of_nat (length (cur ++ l))))
          (set_files (append_to nm (cur ++ l) f) (set_mutex true w))).
Proof.
  intros [_ _ Hfp Hs Hwr _ [_ Hsz] Hr] (_ & _ & Ht) Hl Hb.
  unfold file_append_log. cbn [set_mutex set_file log_file_info files]. rewrite Hfp, Hl. cbn [mbind outcome_bind].
  by rewrite Hs, Hwr, append_twice, length_app, Nat2Z.inj_add, file_written_all, Z.mod_small by (done || lia).
Qed.

(** The name of a file that is opened at the time [t]. *)
Definition name_at (base : list Z) (w : log_world) (t : tm) : list Z := base ++ stamp (time_zone (log_recod w)) t.

(** One line: it goes to the open file, and the next is opened when it is full. *)
Lemma outpuut_rolls base size f nm cur l msg sys w :
  log_open base size f nm cur w → sys_ok sys → mem_read msg (Z.of_nat (length l)) = Done l → Z.of_nat (length l) < 2 ^ 31 →
  ∃ w' f' nm' cur', log_file_outpuut msg (Z.of_nat (length l)) sys w = Done w' ∧ log_recod w' = log_recod w ∧
    log_open base size f' nm' cur' w' ∧
    ∀ lines, stored f' (roll (name_at base w) size nm' cur' lines) =
             stored f (roll (name_at base w) size nm cur ((now sys, l) :: lines)).
Proof.
  intros Hw Hsys Hl Hb. unfold log_file_outpuut. pose proof (log_append_ok _ _ _ _ _ _ _ _ _ Hw Hsys Hl Hb) as E.
  destruct Hw as [Hout Hbase Hfp Hs Hwr Hm [Hsz Hsz'] Hr]. rewrite Hm, E. cbn [mbind outcome_bind]. clear E.
  cbn [set_info set_files set_mutex set_file log_file_ log_file_info rollSize_ writtenBytes_]. rewrite Hsz.
  cbn [roll]. destruct (Z.ltb_spec size (Z.of_nat (length (cur ++ l)))) as [Hf|Hf].
  - unfold log_file_roll_file. destruct Hsys as (Ho & Ht & _).
    match goal with |- context [get_log_file_name _ _ ?w1] => destruct (log_name_fits base (now sys) w1) as (b & -> & Hn & _) end;
      [by destruct Hbase|done|].
    cbn [mbind outcome_bind log_file_info fp_ close_log_file]. rewrite Hn. cbn [mbind outcome_bind mret outcome_ret].
    unfold open_log_file. cbn [set_info log_file_info fp_]. rewrite Ho. cbn [mbind outcome_bind mret outcome_ret files].
    do 4 eexists. split; [done|]. split; [done|]. split.
    + constructor; [done|done|done|done|done|done|split; [exact Hsz|done]|cbn; lia].
    + intros lines. done.
  - cbn [mbind outcome_bind mret outcome_ret]. exists (set_mutex false (set_info (LogFileInfo (Some nm) (Z.of_nat (length (cur ++ l))))
       (set_files (append_to nm (cur ++ l) f) (set_mutex true w)))), f, nm, (cur ++ l).
    split; [done|]. split; [done|]. split; [|done].
    constructor; [done|done|done|done|done|done|split; [exact Hsz|done]|done].
Qed.

(** ** Calls *)

(** The line a call makes. *)
Definition str_of (b : list Z) : list Z := match c_str b with Done s => s | _ => [] end.
Definition line_of (c : call) : list Z :=
  log_head (str_of (c_fil c)) (str_of (c_fun c)) (c_num c) (default [] (log_level_str !! Z.to_nat (c_level c))) ++ c_text c.

(** The names are strings, the level is one of the five, and the line fits
    into the 4096 bytes of [log]. *)
Definition call_ok (c : call) : Prop :=
  (∃ s, c_str (c_fil c) = Done s) ∧ (∃ s, c_str (c_fun c) = Done s) ∧ 0 <= c_level c < 5 ∧
  (length (line_of c) < 4096)%nat ∧ sys_ok (c_sys c).

Lemma sdec_nonzero n : nonzero (sdec n).
Proof. unfold sdec. destruct (Z.ltb_spec n 0); [constructor; [done|]|]; apply dec_nonzero; lia. Qed.

Lemma log_head_nonzero fil fn n level :
  nonzero fil → nonzero fn → nonzero level → nonzero (log_head fil fn n level).
Proof.
  intros ???. unfold log_head.
  repeat (apply Forall_app; split); first [done | apply sdec_nonzero | cbn; repeat constructor; done].
Qed.

Lemma level_nonzero i s : log_level_str !! i = Some s → nonzero s.
Proof.
  intros H. eapply (Forall_lookup_1 nonzero log_level_str); [|done]. vm_compute. repeat constructor; discriminate.
Qed.

(** The buffer of [log] holds the line. *)
Lemma msg_holds head text :
  nonzero head → (length head + length text < 4096)%nat →
  ∃ msg, (msg ← mem_write (replicate 4096 0) 0 (head ++ [0]); p_char ← frame_end_charstr (Some msg);
          m ← mem_write msg p_char (text ++ [0]); mret (m, p_char)) = Done (msg, length head) ∧
    mem_read msg (Z.of_nat (length head + length text)) = Done (head ++ text).
Proof.
  intros Hn Hl. rewrite mem_write_ok by (rewrite length_app, length_replicate; cbn [length]; lia). cbn [mbind outcome_bind].
  assert (length (splice (replicate 4096 0) 0 (head ++ [0])) = 4096%nat) as E0
    by (rewrite length_splice; rewrite ?length_app, length_replicate; cbn [length]; lia).
  assert (c_str (splice (replicate 4096 0) 0 (head ++ [0])) = Done head) as Hs.
  { unfold splice. rewrite take_0, app_nil_l, <- app_assoc. by apply c_str_app. }
  unfold frame_end_charstr. rewrite (str_scan_len_spec _ _ Hs). cbn [mbind outcome_bind].
  rewrite mem_write_ok by (rewrite E0, length_app; cbn [length]; lia). eexists. split; [done|].
  rewrite mem_read_ok by (rewrite length_splice by (rewrite E0, length_app; cbn [length]; lia); lia).
  f_equal. rewrite Nat2Z.id. unfold splice at 1.
  assert (take (length head) (splice (replicate 4096 0) 0 (head ++ [0])) = head) as ->
    by (unfold splice; by rewrite take_0, app_nil_l, <- app_assoc, take_app_length).
  rewrite <- app_assoc, app_assoc, take_app_le, take_ge by (rewrite length_app; lia). done.
Qed.

(** A call below the level does nothing; another one hands its line over. *)
Lemma log_call base size f nm cur c w :
  log_open base size f nm cur w → call_ok c →
  ∃ msg, mem_read msg (Z.of_nat (length (line_of c))) = Done (line_of c) ∧
    log (c_level c) (c_fil c) (c_fun c) (c_num c) (c_text c) (c_sys c) w =
    if c_level c <? lev (log_recod w) then Done w
    else log_file_outpuut msg (Z.of_nat (length (line_of c))) (c_sys c) w.
Proof.
  intros Hw ([fil Hfil] & [fn Hfn] & Hlev & Hlen & _). unfold line_of, str_of in *. rewrite Hfil, Hfn in *.
  destruct (lookup_lt_is_Some_2 log_level_str (Z.to_nat (c_level c))) as [level Hlevel]; [cbn; lia|].
  rewrite Hlevel in *. cbn [default from_option] in *. unfold id in *.
  destruct (msg_holds (log_head fil fn (c_num c) level) (c_text c)) as (msg & E & Hmsg).
  { apply log_head_nonzero; [by eapply c_str_nonzero..|by eapply level_nonzero]. }
  { by rewrite <- length_app. }
  exists msg. rewrite length_app. split; [done|].
  unfold log, log_defaults. rewrite (o_out _ _ _ _ _ _ Hw). destruct (_ <? _); [done|].
  rewrite Hfil, Hfn, Hlevel. cbn [mbind outcome_bind].
  destruct (mem_write (replicate 4096 0) 0 _) as [m| |]; [|done|done]. cbn [mbind outcome_bind] in *.
  destruct (frame_end_charstr _) as [p| |]; [|done|done]. cbn [mbind outcome_bind] in *.
  destruct (mem_write m p _) as [m'| |]; [|done|done]. cbn [mbind outcome_bind mret outcome_ret] in *.
  injection E as -> ->. by rewrite (o_out _ _ _ _ _ _ Hw).
Qed.

(** The lines of a run that pass the level, with the times of their calls. *)
Definition lines_of (level : Z) (calls : list call) : list (tm * list Z) :=
  (λ c, (now (c_sys c), line_of c)) <$> filter (λ c, level <= c_level c) calls.

Lemma log_all_rolls base size calls : ∀ f nm cur w,
  log_open base size f nm cur w → Forall call_ok calls →
  ∃ w', log_all calls w = Done w' ∧
    files w' = stored f (roll (name_at base w) size nm cur (lines_of (lev (log_recod w)) calls)).
Proof.
  induction calls as [|c calls IH]; intros f nm cur w Hw Hc.
  - exists w. split; [done|]. by rewrite (o_files _ _ _ _ _ _ Hw).
  - apply Forall_cons in Hc as [Hc Hcs]. cbn [log_all]. unfold lines_of.
    destruct (log_call _ _ _ _ _ _ _ Hw Hc) as (msg & Hmsg & ->). rewrite filter_cons.
    destruct (Z.ltb_spec (c_level c) (lev (log_recod w))) as [Hl|Hl].
    + rewrite decide_False by lia. exact (IH _ _ _ _ Hw Hcs).
    + rewrite decide_True by lia. destruct Hc as (_ & _ & _ & Hlen & Hsys).
      destruct (outpuut_rolls _ _ _ _ _ _ _ _ _ Hw Hsys Hmsg ltac:(lia)) as (w1 & f1 & nm1 & cur1 & -> & Er & Hw1 & Hroll).
      cbn [mbind outcome_bind]. destruct (IH _ _ _ _ Hw1 Hcs) as (w' & E & Ef).
      exists w'. split; [done|]. rewrite Ef, fmap_cons. unfold name_at in *. rewrite Er. apply Hroll.
Qed.

(** After [log_set_filename] the log writes to the file of that time. *)
Lemma set_filename_opens name base size sys w :
  c_str name = Done base → (length base < 448)%nat → 0 <= size < 2 ^ 31 → sys_ok sys →
  base_file_name (log_file_ w) = replicate LOG_RECORD_FILE_NAMELEN 0 →
  ∃ w', log_set_filename name size sys w = Done w' ∧ log_open base size (files w) (base ++ stamp 8 (now sys)) [] w' ∧
    lev (log_recod w') = INFO ∧ time_zone (log_recod w') = 8.
Proof.
  intros Hs Hl Hsize (Ho & Ht & _) Hb. pose proof (c_str_length _ _ Hs) as Hlt.
  unfold log_set_filename, frame_strlen. rewrite (str_scan_len_spec _ _ Hs). cbn [mbind outcome_bind mret outcome_ret].
  unfold LOG_RECORD_FILE_SUFFIXLEN, LOG_RECORD_FILE_NAMELEN in *. rewrite (proj2 (Z.leb_gt _ _)) by lia.
  rewrite mem_read_ok by lia. cbn [mbind outcome_bind].
  assert (take (Z.to_nat (Z.of_nat (length base))) name = base) as ->.
  { pose proof (c_str_inv _ _ Hs) as (r & -> & _). by rewrite Nat2Z.id, take_app_length. }
  rewrite Hb, mem_write_ok by (rewrite length_replicate; lia). cbn [mbind outcome_bind]. rewrite Z.mod_small by lia.
  set (w1 := set_record _ _).
  assert (base_ok base w1) as Hbase.
  { unfold base_ok, w1. cbn [set_record set_file log_file_ log_recod base_file_name time_zone].
    split; [|split; [done|split; [by rewrite length_splice; rewrite length_replicate; [|lia]|lia]]].
    unfold splice. rewrite take_0, app_nil_l, drop_replicate.
    replace (512 - (0 + length base))%nat with (S (511 - length base)) by lia.
    apply c_str_app. by eapply c_str_nonzero. }
  unfold log_file_roll_file. destruct (log_name_fits base (now sys) w1 Hbase Ht) as (b & -> & Hn & _). cbn [mbind outcome_bind].
  change (time_zone (log_recod w1)) with 8 in Hn.
  exists (set_files (append_to (base ++ stamp 8 (now sys)) [] (files w)) (set_info (LogFileInfo (Some (base ++ stamp 8 (now sys))) 0) w1)).
  split.
  - destruct (fp_ (log_file_info w1)) as [n|] eqn:E; unfold close_log_file; rewrite ?E; cbn [mbind outcome_bind mret outcome_ret];
      rewrite Hn; cbn [mbind outcome_bind]; unfold open_log_file; cbn [log_file_info set_info fp_]; by rewrite ?E, Ho.
  - split; [|done]. constructor; [done|exact Hbase|done|done|done|done|done|cbn; lia].
Qed.

(** C26: the log from [log_set_filename] on, while files can be opened, every
    [fwrite] takes something and the lines fit into the 4096 bytes of [log]:
    every file holds what it held before and the chunks that [roll] gives it,
    in order; the chunks together are the lines that pass the level, whole and
    in the order of the calls; a file is closed as soon as more than [size]
    was written to it since it was opened, and the next is named after the time. *)
Theorem log_lines_reach_the_files name base size sys calls w :
  c_str name = Done base → (length base < 448)%nat → 0 <= size < 2 ^ 31 → sys_ok sys → Forall call_ok calls →
  base_file_name (log_file_ w) = replicate LOG_RECORD_FILE_NAMELEN 0 →
  let name_of t := base ++ stamp 8 t in
  let chunks := roll name_of size (name_of (now sys)) [] (lines_of INFO calls) in
  ∃ w1 w2, log_set_filename name size sys w = Done w1 ∧ log_all calls w1 = Done w2 ∧
    (∀ nm, contents (files w2) nm = contents (files w) nm ++ concat (filter (λ c, c.1 = nm) chunks).*2) ∧
    concat chunks.*2 = concat (lines_of INFO calls).*2 ∧
    ∃ full last, chunks = full ++ [last] ∧ Forall (λ c, size < Z.of_nat (length c.2)) full ∧ Z.of_nat (length last.2) <= size.
Proof.
  intros Hs Hl Hsize Hsys Hc Hb name_of chunks.
  destruct (set_filename_opens _ _ _ _ _ Hs Hl Hsize Hsys Hb) as (w1 & E1 & Hw1 & Hlev & Hzone).
  destruct (log_all_rolls _ _ calls _ _ _ _ Hw1 Hc) as (w2 & E2 & Ef).
  rewrite Hlev in Ef. unfold name_at in Ef. rewrite Hzone in Ef.
  exists w1, w2. split; [done|]. split; [done|]. split; [intros nm; rewrite Ef; apply stored_contents|].
  split; [apply roll_concat|].
  destruct (roll_full name_of size (lines_of INFO calls) (name_of (now sys)) []) as (full & lst & Er & Hf & Hlast).
  exists full, lst. split; [done|]. split; [done|]. apply Hlast; cbn; lia.
Qed.

Definition noon : tm := Tm 124 0 1 12 0 0.
Definition later : tm := Tm 124 0 1 12 0 1.
Definition sample_call (t : tm) (level : Z) (text : string) : call :=
  Call level (c_lit "a.c") (c_lit "f") 7 (bytes text) (System t true [3]%nat).
Definition sample_calls : list call :=
  [sample_call noon INFO "one"; sample_call noon DEBUG "not this"; sample_call later ERROR "two"; sample_call later WARN "three"].

Lemma sample_calls_ok : Forall call_ok sample_calls.
Proof.
  repeat (constructor; [split; [by eexists|]; split; [by eexists|]; split; [done|]; split;
    [apply Nat.ltb_lt; vm_compute; reflexivity|]; split; [done|]; split; [repeat split; cbn; lia|repeat constructor; lia]|]).
  constructor.
Qed.

Lemma log_lines_reach_the_files_witness :
  ∃ w1 w2, log_set_filename (c_lit "log") 30 (System noon true []) start_of_program = Done w1 ∧ log_all sample_calls w1 = Done w2 ∧
    contents (files w2) (bytes "log.20240101-200000.log") = bytes "a.c :: f() 7: INFO   onea.c :: f() 7: ERROR  two" ∧
    contents (files w2) (bytes "log.20240101-200001.log") = bytes "a.c :: f() 7: WARN   three".
Proof.
  destruct (log_lines_reach_the_files (c_lit "log") (bytes "log") 30 (System noon true []) sample_calls start_of_program)
    as (w1 & w2 & E1 & E2 & Hf & _).
  - reflexivity.
  - cbn. lia.
  - lia.
  - split; [reflexivity|]. split; [repeat split; cbn; lia|constructor].
  - exact sample_calls_ok.
  - reflexivity.
  - exists w1, w2. split; [exact E1|]. split; [exact E2|]. rewrite !Hf. split; vm_compute; reflexivity.
Defined.

(** ** What the code does not mean *)

(** A level and a zone that are set before the first line are forgotten with it. *)
Theorem first_line_forgets_settings :
  let w := log_time_set_timezone (-3) (log_set_level ERROR start_of_program) in
  ∃ w', log INFO (c_lit "a.c") (c_lit "f") 7 (bytes "hello") (System noon true []) w = Done w' ∧
    lev (log_recod w') = INFO ∧ time_zone (log_recod w') = 8 ∧ stdout_ w' = bytes "a.c :: f() 7: INFO   hello".
Proof. eexists. split; [vm_compute; reflexivity|]. repeat split; vm_compute; reflexivity. Qed.

(** When the file cannot be opened the next line is written through NULL. *)
Theorem unopened_log_is_written :
  ∃ w', log_set_filename (c_lit "log") 30 (System noon false []) start_of_program = Done w' ∧
    log INFO (c_lit "a.c") (c_lit "f") 7 (bytes "hello") (System noon true []) w' = Fault NullDeref ∧
    log_flush w' = Fault AssertFailed.
Proof. eexists. split; [vm_compute; reflexivity|]. split; vm_compute; reflexivity. Qed.

(** A shorter name that is set later keeps the end of the longer one. *)
Theorem shorter_name_keeps_the_end :
  ∃ w1 w2, log_set_filename (c_lit "server.log") 30 (System noon true []) start_of_program = Done w1 ∧
    log_set_filename (c_lit "a") 30 (System noon true []) w1 = Done w2 ∧
    fp_ (log_file_info w2) = Some (bytes "aerver.log.20240101-200000.log").
Proof. do 2 eexists. split; [vm_compute; reflexivity|]. split; vm_compute; reflexivity. Qed.

(** A file that is full in the second in which it was opened is opened again, and
    grows beyond the size. *)
Theorem full_file_is_opened_again :
  ∃ w1 w2, log_set_filename (c_lit "log") 20 (System noon true []) start_of_program = Done w1 ∧
    log_all [sample_call noon INFO "one"; sample_call noon INFO "two"; sample_call noon INFO "three"] w1 = Done w2 ∧
    contents (files w2) (bytes "log.20240101-200000.log") =
      bytes "a.c :: f() 7: INFO   onea.c :: f() 7: INFO   twoa.c :: f() 7: INFO   three".
Proof. do 2 eexists. split; [vm_compute; reflexivity|]. split; vm_compute; reflexivity. Qed.

(** A long line does not fit into [msg]. *)
Theorem long_message_overflows :
  log INFO (c_lit "a.c") (c_lit "f") 7 (replicate 4080 97) (System noon true []) start_of_program = Fault OutOfBounds.
Proof. vm_compute. reflexivity. Qed.

(** Bytes that [fwrite] did not take are counted as written: the next file is
    opened although nearly nothing was written. *)
Theorem lost_bytes_are_counted :
  ∃ w1 w2, log_set_filename (c_lit "log") 20 (System noon true []) start_of_program = Done w1 ∧
    log INFO (c_lit "a.c") (c_lit "f") 7 (bytes "hello") (System later true [2; 0]%nat) w1 = Done w2 ∧
    contents (files w2) (bytes "log.20240101-200000.log") = bytes "a." ∧
    fp_ (log_file_info w2) = Some (bytes "log.20240101-200001.log").
Proof. do 2 eexists. split; [vm_compute; reflexivity|]. split; [vm_compute; reflexivity|]. split; vm_compute; reflexivity. Qed.
