(* ===== verification/FileTrans.v ===== *)
(** * Lists of hardware addresses as SQL (module_function/file_trans_tools.c)

    The program reads lines [AABBCC,company] and writes an INSERT for each.
    The input is the list of lines that [getline] gives, each with its newline
    if it has one; what [fwrite] returns is not looked at, and it is taken to
    write everything.  [frame_strlen] and [framestr_frist_constchar] are copies
    of those of frame_tool.c. *)

From S2P Require Import Prelude CString PsText FrameTool.
From stdpp Require Import list strings.

Open Scope Z_scope.

Notation comma := 44.
Notation dash := 45.

(** ** A sentence (lines 66-73) *)

Definition sentence (mac com : list Z) : list Z :=
  bytes "INSERT INTO elefence_terminal_company (`machdr`,`company_en`,`company_cn`) VALUES(" ++ [34] ++ mac ++ [34; comma; 34] ++
  com ++ [34; comma; 34] ++ com ++ [34] ++ bytes ") ON DUPLICATE KEY UPDATE `company_en` = " ++ [34] ++ com ++ [34; 59; 10].
Definition make_sql_sentence (mac com sql : list Z) : outcome (list Z) :=
  m ← c_str mac; c ← c_str com; mem_write sql 0 (sentence m c ++ [0]).

(** ** A line (lines 75-123) *)

(** The [for] loop: [n] rounds are left, [q] is where [q_char] points. *)
Fixpoint mac_loop (n i : nat) (pData mac : list Z) (q : nat) : outcome (list Z) :=
  match n with
  | O => mret mac
  | S n =>
      c ← rd pData i;
      mac ← mem_write mac q [c];
      if (0 <? i)%nat && (i mod 2 =? 1)%nat && (i <? 5)%nat
      then mac ← mem_write mac (S q) [dash]; mac_loop n (S i) pData mac (S (S q))
      else mac_loop n (S i) pData mac (S q)
  end.

(** [None]: -1 is returned, for the end of the file and for a line of less
    than six bytes.  The lines that are left come with it. *)
Fixpoint read_mac_file (lines : list (list Z)) (mac com : list Z) : outcome (option (list Z * list Z) * list (list Z)) :=
  match lines with
  | [] => mret (None, [])
  | l :: rest =>
      if Z.of_nat (length l) <? 6 then mret (None, rest)
      else
        let pData := l ++ [0] in
        seq ← framestr_frist_constchar (Some pData) comma;
        match seq with
        | None => read_mac_file rest mac com
        | Some seq =>
            if negb (seq =? 6)%nat then read_mac_file rest mac com
            else
              mac ← mac_loop 6 0 pData mac 0;
              let seq := drop (S seq) pData in
              len ← frame_strlen (Some seq);
              t ← mem_read seq (len - 1);
              com ← mem_write com 0 t;
              mret (Some (mac, com), rest)
        end
  end.

(** ** The file (lines 125-188) *)

Fixpoint trans_loop (fuel : nat) (lines : list (list Z)) (write_fp : option (list Z)) : outcome (option (list Z)) :=
  match fuel with
  | O => NoFuel
  | S f =>
      '(r, rest) ← read_mac_file lines (replicate 32 0) (replicate 1024 0);
      match r with
      | None => mret write_fp
      | Some (mac, comp) =>
          sql_sen ← make_sql_sentence mac comp (replicate 2048 0);
          len ← frame_strlen (Some sql_sen);
          t ← mem_read sql_sen len;
          match write_fp with
          | None => Fault NullDeref
          | Some o => trans_loop f rest (Some (o ++ t))
          end
      end
  end.
(** [read_fp] and [write_fp]: the lines of the one, what was written to the other. *)
Definition trans_mac_sql_file (read_fp : option (list (list Z))) (write_fp : option (list Z)) : outcome (option (list Z)) :=
  match read_fp with
  | None => Fault NullDeref
  | Some lines => trans_loop (S (length lines)) lines write_fp
  end.

(** A file that does not open gives NULL; [read_fp] is tested twice and
    [write_fp] is not. *)
Definition init_open_file (mac_txt : option (list (list Z))) (writable : bool) : option (list (list Z)) * option (list Z) :=
  match mac_txt with
  | None => (None, None)
  | Some lines => (Some lines, if writable then Some [] else None)
  end.
Definition trans_main (mac_txt : option (list (list Z))) (writable : bool) : outcome (option (list Z)) :=
  let '(read_fp, write_fp) := init_open_file mac_txt writable in trans_mac_sql_file read_fp write_fp.

(** ** Specification *)

(** The address with its dashes, and the company without the last byte of the line. *)
Definition mac_text (l : list Z) : list Z := take 2 l ++ dash :: take 2 (drop 2 l) ++ dash :: take 2 (drop 4 l).
Definition entry (l : list Z) : option (list Z * list Z) :=
  if decide (index_of comma l = Some 6%nat) then Some (mac_text l, removelast (drop 7 l)) else None.
Fixpoint up_to_short (lines : list (list Z)) : list (list Z) :=
  match lines with
  | [] => []
  | l :: rest => if (length l <? 6)%nat then [] else l :: up_to_short rest
  end.

(** Text without NUL; when the line is an entry something follows its comma
    and the sentence fits. *)
Definition line_fits (l : list Z) : Prop :=
  nonzero l ∧ ∀ m c, entry l = Some (m, c) → drop 7 l ≠ [] ∧ (length (sentence m c) < 2048)%nat.

#[export] Instance line_fits_dec l : Decision (line_fits l).
Proof.
  unfold line_fits. apply and_dec; [apply _|]. destruct (entry l) as [[m c]|].
  - destruct (decide (drop 7 l ≠ [] ∧ (length (sentence m c) < 2048)%nat)) as [H|H].
    + left. by intros m' c' [= <- <-].
    + right. intros H'. by apply H, H'.
  - by left.
Defined.

(** ** Theorems *)

Lemma mac_loop_ok a b c d e f r :
  mac_loop 6 0 (a :: b :: c :: d :: e :: f :: r) (replicate 32 0) 0 =
  Done (mac_text (a :: b :: c :: d :: e :: f :: r) ++ replicate 24 0).
Proof. reflexivity. Qed.

Lemma six_bytes (l : list Z) : (6 ≤ length l)%nat → ∃ a b c d e f r, l = a :: b :: c :: d :: e :: f :: r.
Proof. intros H. do 6 (destruct l as [|? l]; [cbn in H; lia|]). by do 7 eexists. Qed.

Lemma entry_Some l m c :
  entry l = Some (m, c) → index_of comma l = Some 6%nat ∧ m = mac_text l ∧ c = removelast (drop 7 l).
Proof. unfold entry. case_decide; [|done]. by intros [= <- <-]. Qed.

Lemma mac_text_nonzero l : nonzero l → nonzero (mac_text l).
Proof.
  intros H. unfold mac_text, nonzero in *.
  repeat first [apply Forall_app; split | apply Forall_cons; split]; first [done | repeat first [apply Forall_take | apply Forall_drop]; done].
Qed.

Lemma removelast_length (l : list Z) : length (removelast l) = (length l - 1)%nat.
Proof. induction l as [|x [|y l] IH]; [done|done|]. cbn in *. lia. Qed.

Lemma take_removelast (l : list Z) r : l ≠ [] → take (length l - 1) (l ++ r) = removelast l.
Proof.
  intros H. rewrite (app_removelast_last 0 H) at 2. rewrite <- app_assoc, take_app_le by (rewrite removelast_length; lia).
  apply take_ge. rewrite removelast_length. lia.
Qed.

(** One line: it ends the reading, is passed over, or is the next entry. *)
Lemma read_line l rest :
  (6 ≤ length l)%nat → line_fits l →
  read_mac_file (l :: rest) (replicate 32 0) (replicate 1024 0) =
  match entry l with
  | None => read_mac_file rest (replicate 32 0) (replicate 1024 0)
  | Some (m, c) => Done (Some (m ++ replicate 24 0, c ++ replicate (1024 - length c) 0), rest)
  end.
Proof.
  intros Hl [Hnz Hfit]. cbn [read_mac_file]. rewrite (proj2 (Z.ltb_ge _ _)) by lia.
  cbn [framestr_frist_constchar]. rewrite (str_scan_chr_spec _ l) by (by apply c_str_app).
  cbn [mbind outcome_bind]. destruct (entry l) as [[m c]|] eqn:E.
  - destruct (entry_Some _ _ _ E) as (Hi & -> & ->). destruct (Hfit _ _ eq_refl) as [Hne Hlen]. clear Hfit.
    rewrite Hi. cbn [fmap option_fmap option_map Nat.add Nat.eqb negb].
    assert (drop 7 (l ++ [0]) = drop 7 l ++ [0]) as Ed.
    { apply drop_app_le. destruct (drop 7 l) eqn:E7; [done|]. apply (f_equal length) in E7. rewrite length_drop in E7. cbn in E7. lia. }
    rewrite Ed. destruct (six_bytes l Hl) as (a & b & c & d & e & f & r & ->). cbn [app].
    rewrite mac_loop_ok. cbn [mbind outcome_bind]. set (s := drop 7 (a :: _)) in *.
    assert (nonzero s) as Hs by (by apply Forall_drop).
    unfold frame_strlen. rewrite (str_scan_len_spec _ s) by (by apply c_str_app). cbn [mbind outcome_bind mret outcome_ret].
    assert (0 < length s)%nat as Hs0 by (destruct s; [done|cbn; lia]).
    rewrite mem_read_ok by (rewrite length_app; lia). cbn [mbind outcome_bind].
    replace (Z.to_nat (Z.of_nat (length s) - 1)) with (length s - 1)%nat by lia. rewrite take_removelast by done.
    unfold sentence in Hlen. rewrite !length_app in Hlen.
    rewrite mem_write_ok by (rewrite length_replicate; lia). cbn [mbind outcome_bind].
    unfold splice. by rewrite take_0, app_nil_l, drop_replicate.
  - destruct (index_of comma l) as [i|] eqn:Ei; cbn [fmap option_fmap option_map Nat.add]; [|done].
    destruct (Nat.eqb_spec i 6) as [->|]; [|done]. exfalso. revert E. unfold entry. by rewrite decide_True.
Qed.

(** The sentence of an entry is what reaches the file. *)
Lemma write_sentence m c :
  nonzero m → nonzero c → (length (sentence m c) < 2048)%nat →
  ∃ sql, make_sql_sentence (m ++ replicate 24 0) (c ++ replicate (1024 - length c) 0) (replicate 2048 0) = Done sql ∧
    frame_strlen (Some sql) = Done (Z.of_nat (length (sentence m c))) ∧
    mem_read sql (Z.of_nat (length (sentence m c))) = Done (sentence m c).
Proof.
  intros Hm Hc Hl. unfold make_sql_sentence. change (replicate 24 0) with (0 :: replicate 23 0).
  rewrite c_str_app by done. cbn [mbind outcome_bind].
  assert (length c < 1024)%nat as Hlc by (unfold sentence in Hl; rewrite !length_app in Hl; lia).
  replace (1024 - length c)%nat with (S (1023 - length c)) by lia.
  rewrite (replicate_S (1023 - length c) 0), c_str_app by done. cbn [mbind outcome_bind].
  rewrite mem_write_ok by (rewrite length_app, length_replicate; cbn [length]; lia). eexists. split; [done|].
  unfold splice. rewrite take_0, app_nil_l, <- app_assoc. split.
  - unfold frame_strlen. rewrite (str_scan_len_spec _ (sentence m c)); [done|]. apply c_str_app.
    unfold sentence. repeat first [apply Forall_app; split]; first [done | cbn; repeat constructor; done].
  - rewrite mem_read_ok by (rewrite !length_app; cbn [length]; lia). by rewrite Nat2Z.id, take_app_length.
Qed.

Lemma entry_nonzero l m c : nonzero l → entry l = Some (m, c) → nonzero m ∧ nonzero c.
Proof.
  intros Hl (_ & -> & ->)%entry_Some. split; [by apply mac_text_nonzero|].
  assert (nonzero (drop 7 l)) as H by (by apply Forall_drop).
  destruct (decide (drop 7 l = [])) as [->|Hne]; [constructor|].
  unfold nonzero in *. rewrite (app_removelast_last 0 Hne) in H. by apply Forall_app in H as [H _].
Qed.

Lemma trans_loop_spec lines : ∀ fuel o,
  (length lines < fuel)%nat → Forall line_fits (up_to_short lines) →
  trans_loop fuel lines (Some o) = Done (Some (o ++ concat (uncurry sentence <$> omap entry (up_to_short lines)))).
Proof.
  induction lines as [|l rest IH]; intros fuel o Hf Hl; (destruct fuel as [|fuel]; [lia|]).
  - cbn. by rewrite app_nil_r.
  - cbn [up_to_short length] in *. destruct (Nat.ltb_spec (length l) 6) as [Hs|Hs].
    + cbn [trans_loop read_mac_file]. rewrite (proj2 (Z.ltb_lt _ _)) by lia. cbn. by rewrite app_nil_r.
    + apply Forall_cons in Hl as [Hl Hr]. cbn [trans_loop]. rewrite read_line by done. cbn [omap list_omap].
      destruct (entry l) as [[m c]|] eqn:E.
      * destruct Hl as [Hnz Hfit]. destruct (Hfit _ _ E) as [_ Hlen].
        destruct (entry_nonzero _ _ _ Hnz E) as [Hm Hc]. cbn [mbind outcome_bind].
        destruct (write_sentence m c Hm Hc Hlen) as (sql & -> & Es & Et). cbn [mbind outcome_bind].
        rewrite Es. cbn [mbind outcome_bind]. rewrite Et. cbn [mbind outcome_bind fmap list_fmap uncurry concat].
        rewrite IH by (done || lia). by rewrite <- app_assoc.
      * rewrite <- IH with (fuel := S fuel) by (done || lia). done.
Qed.

(** C29: when every entry has something behind its comma and its statement
    fits into the buffer ([line_fits]), the output is one statement for every line [AABBCC,company] of the
    input, in order, with the address as [AA-BB-CC], up to the first line of
    less than six bytes; the other lines are passed over and the loop ends. *)
Theorem trans_mac_sql_file_spec lines o :
  Forall line_fits (up_to_short lines) →
  trans_mac_sql_file (Some lines) (Some o) = Done (Some (o ++ concat (uncurry sentence <$> omap entry (up_to_short lines)))).
Proof. intros H. apply trans_loop_spec; [lia|done]. Qed.

Definition nl : list Z := [10].
Definition sample_lines : list (list Z) :=
  [bytes "# list of makers" ++ nl; bytes "00000C,CISCO" ++ nl; bytes "000001,XEROX" ++ nl; nl; bytes "000002,LATE" ++ nl].

Lemma trans_mac_sql_file_spec_witness :
  trans_mac_sql_file (Some sample_lines) (Some []) =
  Done (Some (sentence (bytes "00-00-0C") (bytes "CISCO") ++ sentence (bytes "00-00-01") (bytes "XEROX"))).
Proof.
  rewrite (trans_mac_sql_file_spec sample_lines []); [reflexivity|].
  apply (bool_decide_unpack _). vm_compute. exact I.
Defined.

(** ** What the code does not mean *)

(** An empty line ends the conversion, here before the last entry. *)
Theorem short_line_ends : up_to_short sample_lines = take 3 sample_lines ∧ entry (bytes "000002,LATE" ++ nl) ≠ None.
Proof. split; [reflexivity|vm_compute; discriminate]. Qed.

(** The last byte is dropped when it is no newline. *)
Theorem unended_line_loses_a_byte :
  trans_mac_sql_file (Some [bytes "00000C,CISCO"]) (Some []) = Done (Some (sentence (bytes "00-00-0C") (bytes "CISC"))).
Proof. vm_compute. reflexivity. Qed.

(** A last line that ends with its comma copies [(size_t)-1] bytes. *)
Theorem empty_company_overruns : trans_mac_sql_file (Some [bytes "00000C,"]) (Some []) = Fault OutOfBounds.
Proof. vm_compute. reflexivity. Qed.

(** Three copies of a company of 700 bytes do not fit into 2048. *)
Theorem long_company_overflows :
  trans_mac_sql_file (Some [bytes "00000C," ++ replicate 700 65 ++ nl]) (Some []) = Fault OutOfBounds.
Proof. vm_compute. reflexivity. Qed.

(** A file that cannot be opened is used through NULL. *)
Theorem unopened_files_are_used :
  trans_main None true = Fault NullDeref ∧ trans_main (Some sample_lines) false = Fault NullDeref.
Proof. split; vm_compute; reflexivity. Qed.

(** A company with a quotation mark ends the text of the statement early. *)
Theorem quotes_are_not_escaped :
  trans_mac_sql_file (Some [bytes "00000C,A" ++ [34] ++ bytes "B" ++ nl]) (Some []) =
  Done (Some (sentence (bytes "00-00-0C") (bytes "A" ++ [34] ++ bytes "B"))).
Proof. vm_compute. reflexivity. Qed.
